(* ===== verification/_CoqProject ===== *)
-Q . S2P
Prelude.v
GoIO.v
Redact.v
Logstream.v
GoString.v
GoPath.v
OS.v
Model.v
Db.v
Archive.v
Secrets.v
Command.v
Wire.v
Socket.v
Store.v
Queue.v
StoreProofs.v
QueueSafety.v
StoreFrame.v
Encoding.v
Crypto.v
Files.v
Manifest.v
Health.v
Runtime.v
Registry.v
Sha256.v
World.v
Pipeline.v
Frame.v
PipelineProofs.v
Staging.v
PipelineDemo.v
PgRepository.v
Main.v
MainProofs.v
MainDemo.v
Backend.v
Releases.v
Workflow.v
ReleaseProofs.v
Artifacts.v
Semver.v
Quick.v
Consistency.v
Requests.v
System.v
SystemDemo.v
SemverProofs.v
LocalExec.v
Vault.v
SimpleConfig.v
SimpleStore.v
SimpleLog.v
Simple.v
SimpleRun.v
SimpleFrame.v
SimpleProofs.v
SimpleSystem.v
SimpleUpload.v
SimpleDemo.v
Accounts.v
Rbac.v
Delegation.v
RbacProofs.v
NetIP.v
Limiter.v
Network.v
Auth.v
Oidc.v
Portal.v
PortalProofs.v
AuthProofs.v
OidcProofs.v
PortalSafety.v
PortalDemo.v
Inventory.v
Profiles.v
InventoryProofs.v
InventorySafety.v
