(* ===== verification/Prelude.v ===== *)
(** * ReleaseDock: a verification development (root file)

    ** The program

    ReleaseDock deploys container releases.  A web backend (src/backend) keeps
    releases, approvals, deployment profiles, accounts and encrypted
    credentials in PostgreSQL and queues jobs; Runners (src/runner) claim the
    jobs and carry them out: they stage and unpack the release archive, inspect
    and push its images, run approved deployment scripts through a separate
    unprivileged executor process, check the result and record every step.
    Backend and Runner share nothing but the database and the encryption key.
    In simple mode the backend itself stores an uploaded package and runs the
    command an administrator has configured for its target.

    The development models the whole Runner side (src/runner, all packages)
    and the core of the backend (src/backend/internal: the release workflow,
    simple mode, accounts and access control, secrets) as executable
    definitions, translated from the Go source; the comment [src:] above a
    definition names its file and lines.

    ** Foundations

    - Prelude.v: Go errors, results, the state-passing error monad [M], its
      Hoare triples and tactics ([inv_ok], [inv_run]), wrap-around integers.
    - GoIO.v, GoString.v, GoPath.v, Encoding.v, Sha256.v: the standard library
      the code calls: writers, strings and UTF-8, anchored regular expressions,
      path/filepath, hexadecimal and base64, SHA-256 (with its test vectors).
      NetIP.v: addresses and prefixes of net/netip.
    - OS.v, Files.v: a file system with symbolic links, owners and modes, and
      the system calls on it; every call may fail (the schedule [faults]).
    - Db.v: transactions of a database, whose statements may fail and whose
      commit may be lost; Hoare triples [runs] for them.  The Runner's store
      and every part of the backend use it, each over its own tables.
    - Model.v: the records and enumerations of internal/model.

    ** The Runner's components

    - Redact.v (pipeline/redact.go): secrets are cut out of script output.
    - Logstream.v (logstream/writer.go): the log budget of a job and its
      compare-and-swap loop, also under interleaving.
    - Archive.v (archive/extract.go): extraction of release archives.
    - Secrets.v (executor/secrets.go, hostlock_linux.go): credential
      directories and the host lock.
    - Command.v (executor/command.go), Wire.v and Socket.v
      (executor/socket.go): commands, the framed protocol, the isolated
      executor with its validation of a request.
    - Store.v (store/store.go): every query as its effect on the tables.
      Queue.v is the abstract specification of the job queue, StoreProofs.v
      shows that the queries refine it, QueueSafety.v derives the properties of
      any number of Runners on one database.
    - Crypto.v (crypto/secretbox.go), Manifest.v (manifest/manifest.go),
      Health.v (health/check.go), Runtime.v and Registry.v (runtime/): sealed
      credentials, release manifests and image archives, health checks,
      container runtimes, the registry client.
    - World.v, Pipeline.v (pipeline/pipeline.go): [Process], which runs one job
      over all of the above.  The heartbeat goroutine acts between the worker's
      own calls, as lists of signals.  Frame.v shows what the pipeline may do to
      its world; PipelineProofs.v, Staging.v and PipelineDemo.v hold its
      theorems and an evaluated deployment and rollback.
    - PgRepository.v, Main.v (cmd/runner, cmd/executor, internal/config): the
      store as the pipeline's repository, with other Runners acting between two
      calls, and the two programs.  MainProofs.v and MainDemo.v hold their
      theorems and an evaluated run.

    ** The backend: release workflow

    - Backend.v: the backend's tables over the Runner's, replies, the request.
      Releases.v (server/releases.go): creating, changing, submitting,
      approving, rejecting, retrying and rolling back releases.  Artifacts.v:
      uploads with their files, deletion.  Semver.v and Quick.v
      (server/presets.go): versions, presets and the one-request quick deploy.
    - Workflow.v is the abstract specification: one rule per thing that may
      happen to a release; ReleaseProofs.v shows that each handler refines it.
      StoreFrame.v says what a Runner's queries do to the backend's columns.
    - Consistency.v: the invariant of releases, jobs and deployment heads, kept
      by the workflow's rules, the Runner's queries and the other writes of a
      request.  Requests.v: [serve], every request of the workflow, refines these
      steps.  System.v puts requests, Runners and administrators together;
      SystemDemo.v evaluates a run with a deployment, a failure and a rollback.
    - SemverProofs.v specifies the order of semantic versions and shows that
      Semver.v computes it.

    ** The backend: local execution and secrets

    - LocalExec.v (localexec/exec.go): the guards and the run of a command in
      the API process, compared with the Runner's Command.v.
    - Vault.v (secure/, config/): sealing and opening of stored secrets, tokens,
      identifiers, the process's configuration; compared with Crypto.v.

    ** The backend: simple mode

    - SimpleConfig.v (server/simple_config.go), SimpleStore.v (the tables and
      statements), SimpleLog.v (the logger), Simple.v (server/simple.go up to
      the start of the goroutine), SimpleRun.v (the goroutine: command,
      replication by Harbor, deployment of the application, outcome).
    - SimpleFrame.v, SimpleProofs.v, SimpleSystem.v, SimpleUpload.v: their
      theorems; SimpleDemo.v: an evaluated upload with its run.

    ** The backend: accounts and access control

    - Accounts.v (store/store.go): users, roles, permissions, sessions, keys,
      their constraints and statements.  Rbac.v (server/rbac_policy.go,
      admin.go, admin_compat.go): who may hand out what.  Delegation.v is the
      abstract specification, one rule per thing an administrator may do;
      RbacProofs.v shows that the handlers refine it.
    - Limiter.v (server/server.go): the login limiter with its theorem.
      Network.v (server/network.go, public_http.go): the address of a request
      and the allow-list.  Auth.v (server/auth.go): checks, sessions, passwords,
      keys.  Oidc.v (server/oidc.go): sign-in through an identity provider.
    - Portal.v (server/server.go): [dispatch], a request through the guard of
      its route to its handler.  PortalProofs.v: Hoare triples [ends] for
      handlers over anything that holds a database ([Holder]), and what each
      handler changes.  AuthProofs.v, OidcProofs.v, PortalSafety.v: the
      theorems on any requests; PortalDemo.v: an evaluated installation.

    ** The backend: inventory

    - Inventory.v (server/admin_resources.go): scripts, registries, target
      credentials and Runners as administrators keep them up.  Profiles.v
      (server/resources.go): applications, environments and profiles with their
      bindings; [perform], a request's handler, and [admitted], behind the guard
      of its route.
    - InventoryProofs.v: [edit], one rule per thing a request may change, the
      refinement of every handler, scripts.  InventorySafety.v: profiles, target
      credentials, secrets, and an evaluated inventory.

    ** Interfaces

    They are classes: [Writer] and [Sink] (writers), [Codec] (encoding/json on
    the wire), [AEADSpec], [Repository] (what the pipeline asks of the store),
    [LawfulExecutor] and [LawfulProcess] (what a command may do to the world),
    [Libraries] (bcrypt, the parsers and the identity provider behind the
    account routes), [Services] and [LawfulServices] (identifiers, URLs and JSON
    of the inventory), [Holder].  [Pipeline] is proved against [Repository];
    PgRepository.v discharges [Frame.keeps] for it.

    ** What the theorems show

    - Queue: calls of any Runners refine the abstract queue; running jobs hold
      the lock of their target; a lost lease changes nothing; claims take the
      next eligible job; recovery, finished jobs and deployment heads.
    - Job: it follows its plan, records each step as what its function
      returned, and ends with one final status; it runs only approved scripts
      and the profile's runtime, and works on the verified copy of its archive.
    - Files: extraction stays below its root, within its quota, and accepts
      exactly the supported entries; credentials are cleared after crashes.
    - Output: redaction removes every occurrence of the secret however the
      output is cut into writes; a job's logs stay within their budget.
    - Executor: only approved commands of the Runner are run, neither as root
      nor as the Runner; the protocol and the sealed credentials round-trip.
    - Workflow: requests refine the workflow however they end; nothing that asks
      for approval is queued without one by somebody else; a target has at most
      one active job; a release with an active job can be neither edited nor
      deleted; a rollback goes to a verified deployment of the same target.
      Assumed: requests and Runner calls take effect one after the other (the
      code's row and advisory locks) and self approval is not allowed.  When the
      first read of a submission fails, the code takes its release for a
      deployment: the refinement and the theorem on approvals include that
      ([overlooked]); the invariants over whole systems assume the read is
      answered ([routed]), since without it a rollback is queued as a
      deployment ([unread_rollback_is_deployed]).
    - Versions: comparison is semantic precedence.
    - Programs: the composed Runner keeps the queue's invariants; told to stop,
      it does nothing more and ends once a poll's [select], which Go lets choose
      at random, does not prefer the timer; a second Runner on a host does no
      harm.
    - Simple mode: a recorded success means that the command succeeded and that
      Harbor answered what every configured stage needs, but for an execution
      that cannot be read, which the code takes for done; a package is replaced whole or not at all;
      a run's log stays within its two budgets; replication ends; records and
      slots are consistent over any uploads, runs and restarts; deployed files
      stay in the managed data; no command starts that the Runner's own guards
      would refuse; what the backend seals the Runner opens.
    - Accounts: a permission that no caller may hand out stays with its holders;
      an active Administrator remains; a guarded route is served only to a live
      credential that holds the permission, from an admitted address; sessions
      are opened only by signing in; at most [4 + c] wrong passwords in five
      minutes when [c] are compared at the same time;
      the address of a caller cannot be forged; network settings do not lock
      their author out.
      Assumed: requests take effect one after the other, also the reading of
      the default role within a sign-in.  The allow-list of administration is
      not applied when its settings cannot be read, as the code intends.

    - Inventory: a script version never changes and is only activated by
      somebody who may; a profile stays bound to a runtime the Runner accepts, to
      its registry's own address, to approved scripts; target credentials are
      bound at a browser only; stored secrets open in the Runner and change only
      as asked.
      Transactions take effect one after the other, but for createProfile, which
      runs at READ COMMITTED: each of its statements reads the rows of an earlier
      or the present state ([snapshots], [er_seen], [timely]); a profile has its
      registry's present address as long as no creation was overtaken by an
      update of its registry ([prompt]), else an older one of the same registry
      can remain ([old_address_remains]).  Assumed: a request that
      seals a secret spells the id of its row canonically; without that the
      secret is lost ([rotated_under_another_text]).

    ** Bounds and fuel

    Loops over data recurse on it.  Where the code recurses otherwise the fuel
    is a bound that is proved or obvious from the data: a writer's rounds by the
    bytes left, code points by the bytes of the string, path resolution by
    the kernel's limit of symbolic links, drain and chunk loops by the length
    of the pending bytes, the rounds of a replication by its time limit over
    its pause ([replication_rounds]), a logger's notice by its one level of
    nesting, evictions of the limiter by the size of its map.  The Runner's
    endless loop is [Main.loop rounds]: the result after any number of rounds,
    [Running] when it goes on.  [int64] arithmetic is written with its
    wrap-around ([i64]).

    ** Parameters

    Code outside src/ is a parameter: the gzip, tar, YAML and JSON decoders,
    AES-GCM, bcrypt, RSA, net/url, PEM, HTTP and TCP, the processes that are
    started, Harbor and the identity provider, the order of a Go map, clocks,
    random bytes, the lower-casing and row order of PostgreSQL, and the answers
    of the kernel to flock and to the peer's identity.  Hypotheses about them
    are documented behaviour and are instantiated in the witnesses.

    ** Not modelled

    Concurrent changes of the file system by other processes, PostgreSQL's
    isolation below whole transactions, the columns updated_at and locked_at,
    log lines of the processes themselves, flag parsing; the web console and the
    deployment scripts.  Of the backend: listings, pages and log streams (they
    only read), general and AI settings, guides, the MCP endpoint, the HTTP
    middleware, and the administration of simple-mode targets.  The inventory
    has its own tables; the release workflow's [profile_row] and [script_row]
    are what the Runner's queries join of them. *)
From stdpp Require Export prelude strings gmap sorting pretty.
From Stdlib Require Export ZArith Lia.
From Stdlib Require Strings.Ascii Strings.String.
Export Strings.Ascii (ascii(..)).
Export (notations) Strings.Ascii.

Open Scope Z_scope.
#[export] Set Default Goal Selector "!".

(** ** Go errors

    An error value keeps the format string and the arguments of its
    [fmt.Errorf]/[errors.New] call unrendered; [%w] is [Wrapf]'s last argument
    and [errors.Join] is [Joined].  The sentinels are the error variables that
    the code compares with [errors.Is]. *)
Inductive sentinel :=
  | ErrNotExist | ErrExist | EOF | ErrUnexpectedEOF | ErrShortWrite
  | Canceled | DeadlineExceeded | ErrNoRows
  | ErrNoJob | ErrLockBusy | ErrLostLease | ErrInactive.

#[export] Instance sentinel_eq_dec : EqDecision sentinel.
Proof. solve_decision. Defined.

Inductive farg :=
  | FStr (s : string)
  | FInt (z : Z).

Inductive goerr :=
  | Sentinel (s : sentinel)
  | Errorf (format : string) (args : list farg)
  | Wrapf (format : string) (args : list farg) (inner : goerr)
  | Joined (errs : list goerr)
  | External (text : string).

Definition error_new (text : string) : goerr := Errorf text [].
Definition wrap (format : string) (inner : goerr) : goerr := Wrapf format [] inner.

(** [errors.Is(err, sentinel)]. *)
Fixpoint errors_is (s : sentinel) (e : goerr) : bool :=
  match e with
  | Sentinel s' => bool_decide (s = s')
  | Wrapf _ _ inner => errors_is s inner
  | Joined errs => existsb (errors_is s) errs
  | Errorf _ _ | External _ => false
  end.

Definition is_nil {A} (o : option A) : bool :=
  match o with None => true | Some _ => false end.

(** [errors.Join]: nil errors are dropped; nil when nothing is left. *)
Definition errors_join (errs : list (option goerr)) : option goerr :=
  match omap id errs with
  | [] => None
  | es => Some (Joined es)
  end.

(** [Error()] renders the text of an error ([fmt]'s verbs, [strconv.Quote]'s
    printability tables).  The code only stores that text, so it is a class
    parameter. *)
Class ErrorText := error_text : goerr → string.

(** ** Results of fallible calls *)
Inductive result (A : Type) :=
  | Ok (a : A)
  | Err (e : goerr).
Arguments Ok {A} a.
Arguments Err {A} e.

#[export] Instance result_ret : MRet result := @Ok.
#[export] Instance result_bind : MBind result := λ A B f m,
  match m with Ok a => f a | Err e => Err e end.
#[export] Instance result_fmap : FMap result := λ A B f m,
  match m with Ok a => Ok (f a) | Err e => Err e end.

(** [if cond { return err }]. *)
Definition fail_if (cond : bool) (e : goerr) : result unit :=
  if cond then Err e else Ok tt.

(** [if err := m; err != nil { return f(err) }]. *)
Definition map_err {A} (f : goerr → goerr) (m : result A) : result A :=
  match m with Ok a => Ok a | Err e => Err (f e) end.

Definition is_ok {A} (m : result A) : bool :=
  match m with Ok _ => true | Err _ => false end.

Definition err_of {A} (m : result A) : option goerr :=
  match m with Ok _ => None | Err e => Some e end.

Definition of_option {A} (e : goerr) (o : option A) : result A :=
  match o with Some a => Ok a | None => Err e end.

Definition of_err (o : option goerr) : result unit :=
  match o with None => Ok tt | Some e => Err e end.

Fixpoint result_iter {A} (f : A → result unit) (l : list A) : result unit :=
  match l with
  | [] => Ok tt
  | x :: l => _ ← f x; result_iter f l
  end.

Lemma bind_ok {A B} (m : result A) (f : A → result B) b :
  (m ≫= f) = Ok b ↔ ∃ a, m = Ok a ∧ f a = Ok b.
Proof.
  split; [destruct m as [a|e]; [by exists a | done]|].
  by intros (a & -> & H).
Qed.

Lemma fail_if_ok cond e u : fail_if cond e = Ok u ↔ cond = false.
Proof. destruct cond, u; naive_solver. Qed.

Lemma map_err_ok {A} f (m : result A) a : map_err f m = Ok a ↔ m = Ok a.
Proof. by destruct m. Qed.

Lemma of_option_ok {A} e (o : option A) a : of_option e o = Ok a ↔ o = Some a.
Proof. destruct o; naive_solver. Qed.

Lemma result_iter_ok {A} (f : A → result unit) l u :
  result_iter f l = Ok u ↔ Forall (λ x, f x = Ok tt) l.
Proof.
  destruct u. induction l as [|x l IH]; simpl; [split; [constructor | done]|].
  rewrite bind_ok, Forall_cons, <- IH. split.
  - intros ([] & ? & ?). done.
  - intros [? ?]. by exists tt.
Qed.

(** Decompose a hypothesis [m = Ok x] of a monadic definition into the
    conditions under which the code does not return early. *)
Ltac inv_ok H :=
  lazymatch type of H with
  | (_ ≫= _) = Ok _ =>
      let x := fresh "x" in let H1 := fresh "Hok" in
      apply bind_ok in H; destruct H as [x [H1 H]]; cbv beta in H;
      inv_ok H1; inv_ok H
  | fail_if _ _ = Ok _ => apply fail_if_ok in H
  | map_err _ _ = Ok _ => apply map_err_ok in H; inv_ok H
  | of_option _ _ = Ok _ => apply of_option_ok in H
  | result_iter _ _ = Ok _ => apply result_iter_ok in H
  | Ok _ = Ok _ => progress simplify_eq/=
  | (let '(_, _) := ?p in _) = Ok _ =>
      let a := fresh "a" in let b := fresh "b" in destruct p as [a b]; inv_ok H
  | _ => idtac
  end.

(** ** Effectful calls: state passing with an early error return *)
Definition M (W A : Type) : Type := W → result A * W.

#[export] Instance M_ret {W} : MRet (M W) := λ A a w, (Ok a, w).
#[export] Instance M_bind {W} : MBind (M W) := λ A B f m w,
  match m w with
  | (Ok a, w') => f a w'
  | (Err e, w') => (Err e, w')
  end.

Definition throw {W A} (e : goerr) : M W A := λ w, (Err e, w).
Definition lift {W A} (m : result A) : M W A := λ w, (m, w).
Definition gets {W A} (f : W → A) : M W A := λ w, (Ok (f w), w).
Definition modify {W} (f : W → W) : M W unit := λ w, (Ok tt, f w).
Definition wrapM {W A} (f : goerr → goerr) (m : M W A) : M W A := λ w,
  let '(r, w') := m w in (map_err f r, w').
(** Run [m] for its result as a value: the caller inspects the error. *)
Definition try {W A} (m : M W A) : M W (result A) := λ w,
  let '(r, w') := m w in (Ok r, w').

Fixpoint iterM {W A} (f : A → M W unit) (l : list A) : M W unit :=
  match l with
  | [] => mret tt
  | x :: l => _ ← f x; iterM f l
  end.

Lemma bindM_ok {W A B} (m : M W A) (f : A → M W B) w b w' :
  (m ≫= f) w = (Ok b, w') ↔ ∃ a w1, m w = (Ok a, w1) ∧ f a w1 = (Ok b, w').
Proof.
  unfold mbind, M_bind. split.
  - destruct (m w) as [[a|e] w1]; [by eauto|done].
  - by intros (a & w1 & -> & H).
Qed.
Lemma wrapM_ok {W A} f (m : M W A) w a w' : wrapM f m w = (Ok a, w') ↔ m w = (Ok a, w').
Proof. unfold wrapM. destruct (m w) as [[]]; naive_solver. Qed.
Lemma liftM_ok {W A} (m : result A) (w : W) a w' : lift m w = (Ok a, w') ↔ m = Ok a ∧ w' = w.
Proof. unfold lift. naive_solver. Qed.
Lemma try_ok {W A} (m : M W A) w r w' : try m w = (Ok r, w') ↔ m w = (r, w').
Proof. unfold try. destruct (m w). naive_solver. Qed.

(** Decompose a run [m w = (Ok x, w')] that did not return early. *)
Ltac inv_run H :=
  lazymatch type of H with
  | (_ ≫= _) _ = (Ok _, _) =>
      let x := fresh "x" in let w1 := fresh "w" in let H1 := fresh "Hrun" in
      apply bindM_ok in H; destruct H as (x & w1 & H1 & H); cbv beta in H; inv_run H1; inv_run H
  | wrapM _ _ _ = (Ok _, _) => apply wrapM_ok in H; inv_run H
  | lift _ _ = (Ok _, _) => apply liftM_ok in H; destruct H as [H ->]; inv_ok H
  | try _ _ = (Ok _, _) => apply (proj1 (try_ok _ _ _ _)) in H
  | (let '(_, _) := ?p in _) _ = (Ok _, _) =>
      let a := fresh "a" in let b := fresh "b" in destruct p as [a b]; inv_run H
  | _ => idtac
  end.

(** Boolean conditions, taken apart. *)
Ltac bools := repeat match goal with
  | H : _ && _ = true |- _ => apply andb_true_iff in H as [? ?]
  | H : _ || _ = false |- _ => apply orb_false_iff in H as [? ?]
  | H : negb _ = true |- _ => apply negb_true_iff in H
  | H : negb _ = false |- _ => apply negb_false_iff in H
  | H : bool_decide _ = true |- _ => apply bool_decide_eq_true in H
  | H : bool_decide _ = false |- _ => apply bool_decide_eq_false in H
  end.

(** Hoare triples: from [P], a normal return satisfies [Q] and an error
    return satisfies [E]. *)
Definition triple {W A} (P : W → Prop) (m : M W A) (Q : A → W → Prop) (E : W → Prop) : Prop :=
  ∀ w, P w → match m w with (Ok a, w') => Q a w' | (Err _, w') => E w' end.

Section triple.
Context {W : Type}.
Implicit Types P E : W → Prop.

Lemma triple_ret {A} P (a : A) (Q : A → W → Prop) E : (∀ w, P w → Q a w) → triple P (mret a) Q E.
Proof. intros H w Hw. by apply H. Qed.
Lemma triple_throw {A} P e (Q : A → W → Prop) E : (∀ w, P w → E w) → triple P (throw e) Q E.
Proof. intros H w Hw. by apply H. Qed.
Lemma triple_lift {A} P (m : result A) (Q : A → W → Prop) E :
  (∀ a w, m = Ok a → P w → Q a w) → (∀ w, P w → E w) → triple P (lift m) Q E.
Proof. intros HQ HE w Hw. unfold lift. destruct m; auto. Qed.
Lemma triple_gets {A} P (f : W → A) (Q : A → W → Prop) E :
  (∀ w, P w → Q (f w) w) → triple P (gets f) Q E.
Proof. intros H w Hw. by apply H. Qed.
Lemma triple_bind {A B} P (m : M W A) (f : A → M W B) R (Q : B → W → Prop) E :
  triple P m R E → (∀ a, triple (R a) (f a) Q E) → triple P (m ≫= f) Q E.
Proof.
  intros Hm Hf w Hw. unfold mbind, M_bind. specialize (Hm w Hw).
  destruct (m w) as [[a|e] w']; [by apply Hf | done].
Qed.
Lemma triple_seq {A B} P (m : M W A) (f : A → M W B) R (Q : B → W → Prop) E E' :
  triple P m R E' → (∀ w, E' w → E w) → (∀ a, triple (R a) (f a) Q E) → triple P (m ≫= f) Q E.
Proof.
  intros Hm HE. apply triple_bind. intros w Hw. specialize (Hm w Hw).
  destruct (m w) as [[]]; auto.
Qed.
Lemma triple_wrap {A} P f (m : M W A) (Q : A → W → Prop) E :
  triple P m Q E → triple P (wrapM f m) Q E.
Proof. intros Hm w Hw. unfold wrapM. specialize (Hm w Hw). by destruct (m w) as [[]]. Qed.
Lemma triple_try {A} P (m : M W A) (Q : A → W → Prop) E :
  triple P m Q E →
  triple P (try m) (λ r w, match r with Ok a => Q a w | Err _ => E w end) (λ _, False).
Proof. intros Hm w Hw. unfold try. specialize (Hm w Hw). by destruct (m w) as [[]]. Qed.
Lemma triple_conseq {A} P P' (m : M W A) (Q Q' : A → W → Prop) E E' :
  triple P' m Q' E' → (∀ w, P w → P' w) → (∀ a w, Q' a w → Q a w) → (∀ w, E' w → E w) →
  triple P m Q E.
Proof. intros Hm HP HQ HE w Hw. specialize (Hm w (HP w Hw)). destruct (m w) as [[]]; auto. Qed.
Lemma triple_iter {A} (I : W → Prop) (f : A → M W unit) l :
  (∀ x, x ∈ l → triple I (f x) (λ _, I) I) → triple I (iterM f l) (λ _, I) I.
Proof.
  induction l as [|x l IH]; simpl; intros Hf; [by apply triple_ret|].
  apply (triple_bind I _ _ (λ _, I)); [apply Hf; set_solver|]. intros _. apply IH. set_solver.
Qed.

(** [I] holds in every outcome. *)
Definition preserves {A} (I : W → Prop) (m : M W A) : Prop := triple I m (λ _, I) I.

Lemma preserves_bind {A B} I (m : M W A) (f : A → M W B) :
  preserves I m → (∀ a, preserves I (f a)) → preserves I (m ≫= f).
Proof. intros Hm Hf. by apply (triple_bind I _ _ (λ _, I)). Qed.
Lemma preserves_ret {A} I (a : A) : preserves I (mret a).
Proof. by apply triple_ret. Qed.
Lemma preserves_throw {A} I e : preserves I (@throw W A e).
Proof. by apply triple_throw. Qed.
Lemma preserves_lift {A} I (m : result A) : preserves I (lift m).
Proof. by apply triple_lift. Qed.
Lemma preserves_gets {A} I (f : W → A) : preserves I (gets f).
Proof. by apply triple_gets. Qed.
Lemma preserves_wrap {A} I f (m : M W A) : preserves I m → preserves I (wrapM f m).
Proof. apply triple_wrap. Qed.
Lemma preserves_try {A} I (m : M W A) : preserves I m → preserves I (try m).
Proof.
  intros Hm w Hw. unfold try. specialize (Hm w Hw). by destruct (m w) as [[]].
Qed.
Lemma preserves_state {A} I (m : M W A) : preserves I m ↔ ∀ w, I w → I (m w).2.
Proof.
  unfold preserves, triple. split; intros H w Hw; specialize (H w Hw); by destruct (m w) as [[]].
Qed.
End triple.

Create HintDb preserves_db.
#[export] Hint Resolve preserves_bind preserves_ret preserves_throw preserves_lift
  preserves_gets preserves_wrap preserves_try : preserves_db.

(** ** Machine integers *)
Definition int64_min : Z := -9223372036854775808.
Definition int64_max : Z := 9223372036854775807.

(** Two's-complement wrap-around of Go's [int], [int64] and [time.Duration]. *)
Definition i64 (z : Z) : Z :=
  (z - int64_min) `mod` 18446744073709551616 + int64_min.

Definition in_i64 (z : Z) : Prop := int64_min ≤ z ≤ int64_max.

Lemma i64_id z : in_i64 z → i64 z = z.
Proof.
  unfold in_i64, i64, int64_min, int64_max. intros H.
  rewrite Z.mod_small; lia.
Qed.

Lemma i64_range z : in_i64 (i64 z).
Proof.
  unfold in_i64, i64, int64_min, int64_max.
  pose proof (Z.mod_pos_bound (z - -9223372036854775808) 18446744073709551616). lia.
Qed.

(** ** Generic list lemmas *)
Lemma existsb_In {A} (f : A → bool) l : existsb f l = true ↔ ∃ x, x ∈ l ∧ f x = true.
Proof. rewrite existsb_exists. setoid_rewrite list_elem_of_In. done. Qed.

Lemma forallb_Forall {A} (f : A → bool) l : forallb f l = true ↔ Forall (λ x, f x = true) l.
Proof. rewrite forallb_forall, Forall_forall. by setoid_rewrite list_elem_of_In. Qed.

Lemma take_drop_app {A} (l : list A) n : take n l ++ drop n l = l.
Proof. apply take_drop. Qed.

Lemma list_filter_all {A} (P : A → Prop) `{∀ x, Decision (P x)} l :
  Forall P l → filter P l = l.
Proof.
  induction 1 as [|x l Hx _ IH]; [done|]. by rewrite filter_cons_True, IH.
Qed.

Lemma list_filter_none {A} (P : A → Prop) `{∀ x, Decision (P x)} l :
  Forall (λ x, ¬ P x) l → filter P l = [].
Proof.
  induction 1 as [|x l Hx _ IH]; [done|]. by rewrite filter_cons_False.
Qed.
