(* ===== verification/GoIO.v ===== *)
(** * Byte slices and [io.Writer]

    The byte-slice operations of package [bytes] and the [io.Writer] interface
    as the code uses them: [Writer] is the interface, [WriterSpec] states what a
    conforming implementation promises, [write_fully] is the loop by which both
    the redactor and the executor protocol write a slice through it. *)
From S2P Require Import Prelude.

Abbreviation bytes := (list ascii).

Definition blen (b : bytes) : Z := Z.of_nat (length b).
Definition to_bytes (s : string) : bytes := Strings.String.list_ascii_of_string s.

(** [bytes.Index]: the least position at which [sub] occurs. *)
Fixpoint bytes_index (l sub : bytes) : option nat :=
  if bool_decide (sub `prefix_of` l) then Some 0%nat
  else match l with
       | [] => None
       | _ :: l' => S <$> bytes_index l' sub
       end.

(** [b[i:j]] for in-range bounds. *)
Definition slice (b : bytes) (i j : nat) : bytes := take (j - i) (drop i b).

Lemma bytes_index_Some l sub i :
  bytes_index l sub = Some i →
  sub `prefix_of` drop i l ∧ ∀ j, (j < i)%nat → ¬ sub `prefix_of` drop j l.
Proof.
  revert i. induction l as [|c l IH]; intros i; simpl; case_bool_decide as Hp;
    intros [= H]; subst; try (split; [done | lia]).
  destruct (bytes_index l sub) as [k|] eqn:E; simplify_eq/=.
  destruct (IH k eq_refl) as [? Hlt]. split; [done|].
  intros [|j] Hj; [done|]. simpl. apply Hlt. lia.
Qed.

Lemma bytes_index_None l sub :
  bytes_index l sub = None → ∀ j, ¬ sub `prefix_of` drop j l.
Proof.
  induction l as [|c l IH]; simpl; case_bool_decide as Hp; intros H j; simplify_eq.
  - by rewrite drop_nil.
  - destruct (bytes_index l sub) eqn:E; simplify_eq/=.
    destruct j as [|j]; simpl; [done | by apply IH].
Qed.

Lemma length_slice b i j : (j ≤ length b)%nat → length (slice b i j) = (j - i)%nat.
Proof. intros. unfold slice. rewrite length_take, length_drop. lia. Qed.

Lemma slice_drop b i j : (i ≤ j)%nat → slice b i j ++ drop j b = drop i b.
Proof.
  intros. unfold slice. replace j with (i + (j - i))%nat at 2 by lia.
  rewrite <- drop_drop. apply take_drop.
Qed.

(** ** [io.Writer] *)
Class Writer (D : Type) := writer_write : D → bytes → (Z * option goerr) * D.

(** A writer whose accepted bytes can be observed: a call without an error
    consumes a non-empty prefix of its argument and appends exactly that. *)
Class WriterSpec (D : Type) `{Writer D} := {
  written : D → bytes;
  writer_write_ok d v n d' :
    v ≠ [] → writer_write d v = ((n, None), d') →
    0 < n ≤ blen v ∧ written d' = written d ++ take (Z.to_nat n) v
}.

(** A writer that accepts whatever it is given. *)
Class ReliableWriter (D : Type) `{Writer D} :=
  writer_reliable d v : ∃ d', writer_write d v = ((blen v, None), d').

Section write_fully.
Context `{Writer D}.

(** [for len(value) > 0 { n, err := w.Write(value); ... value = value[n:] }].
    Every round consumes a byte, so [length value] rounds are enough. *)
Fixpoint write_loop (fuel : nat) (d : D) (value : bytes) : option goerr * D :=
  match value, fuel with
  | [], _ => (None, d)
  | _, O => (None, d)
  | _, S fuel =>
      let '((n, err), d') := writer_write d value in
      match err with
      | Some e => (Some e, d')
      | None =>
          if (n <=? 0) || (blen value <? n) then (Some (Sentinel ErrShortWrite), d')
          else write_loop fuel d' (drop (Z.to_nat n) value)
      end
  end.

Definition write_fully (d : D) (value : bytes) : option goerr * D :=
  write_loop (length value) d value.

Lemma write_loop_ok `{!WriterSpec D} fuel d value d' :
  (length value ≤ fuel)%nat →
  write_loop fuel d value = (None, d') → written d' = written d ++ value.
Proof.
  revert d value. induction fuel as [|fuel IH]; intros d value Hlen Hw.
  - destruct value; simplify_eq/=; [by rewrite app_nil_r | lia].
  - destruct value as [|c v]; simplify_eq/=; [by rewrite app_nil_r|].
    destruct (writer_write d (c :: v)) as [[n [e|]] d1] eqn:E; simplify_eq.
    destruct (writer_write_ok d (c :: v) n d1 ltac:(done) E) as [Hn Hd1].
    case_match eqn:Hb; simplify_eq.
    apply IH in Hw; [|rewrite length_drop; simpl in *; lia].
    by rewrite Hw, Hd1, <- (assoc_L (++)), take_drop.
Qed.

Lemma write_fully_ok `{!WriterSpec D} d value d' :
  write_fully d value = (None, d') → written d' = written d ++ value.
Proof. by apply write_loop_ok. Qed.

Lemma write_fully_reliable `{!ReliableWriter D} d value :
  ∃ d', write_fully d value = (None, d').
Proof.
  unfold write_fully. destruct value as [|c v]; [by exists d|].
  cbn [write_loop length]. destruct (writer_reliable d (c :: v)) as [d' ->]. exists d'.
  replace ((blen (c :: v) <=? 0) || (blen (c :: v) <? blen (c :: v))) with false
    by (symmetry; unfold blen; simpl; rewrite Z.ltb_irrefl; lia).
  unfold blen. rewrite Nat2Z.id, drop_ge by done. by destruct v.
Qed.
End write_fully.

(** The writer that never fails and keeps everything ([bytes.Buffer]). *)
#[export] Instance buffer_writer : Writer bytes := λ d v, ((blen v, None), d ++ v).

#[export] Program Instance buffer_writer_spec : WriterSpec bytes := {| written d := d |}.
Next Obligation.
  intros d v n d' Hv [= <- <-]. unfold blen.
  split; [destruct v; simpl in *; [done | lia] | by rewrite Nat2Z.id, firstn_all].
Qed.

#[export] Instance buffer_writer_reliable : ReliableWriter bytes.
Proof. intros d v. by eexists. Qed.
