(* ===== verification/Redact.v ===== *)
(** * The exact-secret redactor (runner/internal/pipeline/redact.go)

    Approved scripts write to the job log through an [exactSecretRedactor] that
    replaces every plaintext occurrence of the target credential, also when it
    is split over chunks.  [redact_all] is the specification: one left-to-right
    pass over the whole stream.  The redactor is shown to compute it for every
    way of cutting the stream into chunks. *)
From S2P Require Import Prelude GoIO.

(* src: runner/internal/pipeline/redact.go:10-10 targetCredentialRedaction *)
Definition targetCredentialRedaction : bytes := to_bytes "[REDACTED TARGET CREDENTIAL]".

(* src: runner/internal/pipeline/redact.go:16-22 exactSecretRedactor *)
Record exactSecretRedactor (D : Type) := ExactSecretRedactor {
  destination : option D;
  secret : bytes;
  pending : bytes;
  rerr : option goerr;
}.
Arguments ExactSecretRedactor {D}.
Arguments destination {D}.
Arguments secret {D}.
Arguments pending {D}.
Arguments rerr {D}.

(* src: runner/internal/pipeline/redact.go:24-26 newExactSecretRedactor *)
Definition newExactSecretRedactor {D} (dest : option D) (sec : bytes) : exactSecretRedactor D :=
  {| destination := dest; secret := sec; pending := []; rerr := None |}.

Section redactor.
Context `{Writer D}.

(* src: runner/internal/pipeline/redact.go:100-115 writeRedactedBytes *)
Definition writeRedactedBytes (dest : option D) (value : bytes) : option goerr * option D :=
  match dest with
  | None => (None, None)
  | Some d => let '(err, d') := write_fully d value in (err, Some d')
  end.

(** The loop of [drain]: every round that does not leave the loop moves the
    cursor past an occurrence of the (non-empty) secret, so [length pending]
    rounds are enough. *)
(* src: runner/internal/pipeline/redact.go:68-85 (exactSecretRedactor).drain *)
Fixpoint drain_loop (fuel : nat) (final : bool) (limit : Z) (sec pend : bytes)
    (cursor : nat) (dest : option D) : result nat * option D :=
  match fuel with
  | O => (Ok cursor, dest)
  | S fuel =>
      if bool_decide (cursor < length pend)%nat then
        match bytes_index (drop cursor pend) sec with
        | None => (Ok cursor, dest)
        | Some relative =>
            let index := (cursor + relative)%nat in
            if negb final && (limit <=? Z.of_nat index) then (Ok cursor, dest) else
            match writeRedactedBytes dest (slice pend cursor index) with
            | (Some e, dest) => (Err e, dest)
            | (None, dest) =>
                match writeRedactedBytes dest targetCredentialRedaction with
                | (Some e, dest) => (Err e, dest)
                | (None, dest) =>
                    drain_loop fuel final limit sec pend (index + length sec)%nat dest
                end
            end
        end
      else (Ok cursor, dest)
  end.

Definition set_pending (w : exactSecretRedactor D) p dest : exactSecretRedactor D :=
  {| destination := dest; secret := secret w; pending := p; rerr := rerr w |}.

(* src: runner/internal/pipeline/redact.go:55-98 (exactSecretRedactor).drain *)
Definition drain (final : bool) (w : exactSecretRedactor D)
    : option goerr * exactSecretRedactor D :=
  if bool_decide (length (pending w) = 0%nat) then (None, w) else
  if bool_decide (length (secret w) = 0%nat) then
    (Some (error_new "secret redactor requires a non-empty pattern"), w) else
  let limit := if final then blen (pending w) + 1
               else blen (pending w) - blen (secret w) + 1 in
  if negb final && (limit <=? 0) then (None, w) else
  match drain_loop (length (pending w)) final limit (secret w) (pending w) 0 (destination w) with
  | (Err e, dest) => (Some e, set_pending w (pending w) dest)
  | (Ok cursor, dest) =>
      let flushThrough :=
        if final then length (pending w)
        else if limit <? Z.of_nat cursor then cursor else Z.to_nat limit in
      match writeRedactedBytes dest (slice (pending w) cursor flushThrough) with
      | (Some e, dest) => (Some e, set_pending w (pending w) dest)
      | (None, dest) => (None, set_pending w (drop flushThrough (pending w)) dest)
      end
  end.

(* src: runner/internal/pipeline/redact.go:28-40 (exactSecretRedactor).Write *)
#[export] Instance Write : Writer (exactSecretRedactor D) := λ w value,
  match rerr w with
  | Some e => ((0, Some e), w)
  | None =>
      let w := set_pending w (pending w ++ value) (destination w) in
      match drain false w with
      | (Some e, w) =>
          ((0, Some e), {| destination := destination w; secret := secret w;
                           pending := pending w; rerr := Some e |})
      | (None, w) => ((blen value, None), w)
      end
  end.

(* src: runner/internal/pipeline/redact.go:42-53 (exactSecretRedactor).Flush *)
Definition Flush (w : exactSecretRedactor D) : option goerr * exactSecretRedactor D :=
  let '(err, w) := match rerr w with
                   | Some e => (Some e, w)
                   | None => drain true w
                   end in
  (err, {| destination := destination w; secret := []; pending := []; rerr := err |}).

(** A script's output: a sequence of [Write] calls, then [Flush]. *)
Fixpoint write_chunks (w : exactSecretRedactor D) (chunks : list bytes)
    : option goerr * exactSecretRedactor D :=
  match chunks with
  | [] => (None, w)
  | c :: chunks =>
      match writer_write w c with
      | ((_, Some e), w) => (Some e, w)
      | ((_, None), w) => write_chunks w chunks
      end
  end.

Definition redact_stream (d : D) (sec : bytes) (chunks : list bytes)
    : option goerr * exactSecretRedactor D :=
  match write_chunks (newExactSecretRedactor (Some d) sec) chunks with
  | (Some e, w) => (Some e, w)
  | (None, w) => Flush w
  end.
End redactor.

(** ** Specification: one pass over the whole stream

    [skip] counts the bytes of the occurrence being replaced that are still to
    be dropped; an occurrence is replaced as soon as the pass reaches it. *)
Fixpoint redact_from (sec : bytes) (skip : nat) (l : bytes) : bytes :=
  match l with
  | [] => []
  | c :: l' =>
      match skip with
      | S k => redact_from sec k l'
      | O => if bool_decide (sec `prefix_of` l)
             then targetCredentialRedaction ++ redact_from sec (length sec - 1) l'
             else c :: redact_from sec 0 l'
      end
  end.
Definition redact_all (sec l : bytes) : bytes := redact_from sec 0 l.

(** ** The specification on matching and non-matching prefixes *)
Section spec.
Context (sec : bytes) (Hsec : sec ≠ []).

Lemma redact_from_drop k l : redact_from sec k l = redact_all sec (drop k l).
Proof. revert k. induction l as [|c l IH]; intros [|k]; simpl; done || apply IH. Qed.

Lemma redact_all_match l :
  sec `prefix_of` l →
  redact_all sec l = targetCredentialRedaction ++ redact_all sec (drop (length sec) l).
Proof.
  intros Hp. destruct l as [|c l]; [by apply prefix_nil_inv in Hp|].
  unfold redact_all at 1. cbn [redact_from]. rewrite bool_decide_true by done.
  f_equal. rewrite redact_from_drop. destruct sec as [|x s]; [done|]. simpl.
  by rewrite Nat.sub_0_r.
Qed.

Lemma redact_all_nomatch n l :
  (n ≤ length l)%nat → (∀ j, (j < n)%nat → ¬ sec `prefix_of` drop j l) →
  redact_all sec l = take n l ++ redact_all sec (drop n l).
Proof.
  revert l. induction n as [|n IH]; intros l Hn Hno; [done|].
  destruct l as [|c l]; simpl in *; [lia|].
  unfold redact_all at 1. cbn [redact_from].
  rewrite bool_decide_false by apply (Hno 0%nat ltac:(lia)).
  f_equal. apply IH; [lia|]. intros j Hj. apply (Hno (S j)). lia.
Qed.

Lemma prefix_drop_app_inv j P T :
  (j + length sec ≤ length P)%nat →
  sec `prefix_of` drop j (P ++ T) → sec `prefix_of` drop j P.
Proof.
  intros Hj [k Hk]. exists (take (length P - j - length sec) k).
  rewrite drop_app_le in Hk by lia.
  apply (f_equal (take (length P - j))) in Hk.
  rewrite take_app_length' in Hk by (rewrite length_drop; lia).
  rewrite Hk, take_app_ge by lia. done.
Qed.

(** Bytes in front of position [n] of [P] are output unchanged, whatever
    follows [P], when no occurrence inside [P] starts there. *)
Lemma redact_all_pass n P T :
  (n ≤ length P)%nat →
  (∀ j, (j < n)%nat → (j + length sec ≤ length P)%nat ∧ ¬ sec `prefix_of` drop j P) →
  redact_all sec (P ++ T) = take n P ++ redact_all sec (drop n P ++ T).
Proof.
  intros Hn Hno. rewrite (redact_all_nomatch n).
  - by rewrite take_app_le, drop_app_le by lia.
  - rewrite length_app. lia.
  - intros j Hj Hp. destruct (Hno j Hj) as [? []]. by eapply prefix_drop_app_inv.
Qed.
End spec.

(** ** The redactor computes the specification *)
Section correct.
Context `{Writer D, !WriterSpec D}.
Context (sec : bytes) (Hsec : sec ≠ []).

(** What has been written after [d], and what is still to come for a
    remaining input [rest]: together the redaction of [l]. *)
Definition emits (d d' : D) (l rest : bytes) : Prop :=
  ∃ out, written d' = written d ++ out ∧ redact_all sec l = out ++ redact_all sec rest.

Lemma emits_refl d l : emits d d l l.
Proof. exists []. by rewrite app_nil_r. Qed.

Lemma emits_trans d1 d2 d3 l1 l2 l3 :
  emits d1 d2 l1 l2 → emits d2 d3 l2 l3 → emits d1 d3 l1 l3.
Proof.
  intros (o1 & Hw1 & Hr1) (o2 & Hw2 & Hr2). exists (o1 ++ o2).
  by rewrite Hw2, Hw1, Hr1, Hr2, !(assoc_L (++)).
Qed.

Lemma writeRedactedBytes_ok d v dest :
  writeRedactedBytes (Some d) v = (None, dest) →
  ∃ d', dest = Some d' ∧ written d' = written d ++ v.
Proof.
  unfold writeRedactedBytes. destruct (write_fully d v) as [err d'] eqn:E.
  intros [= -> <-]. exists d'. split; [done|]. by apply write_fully_ok.
Qed.

(** No occurrence that lies inside [P] starts at or after [c]. *)
Definition exhausted (P : bytes) (c : nat) : Prop :=
  ∀ j, (c ≤ j)%nat → (j + length sec ≤ length P)%nat → ¬ sec `prefix_of` drop j P.

(** The two limits [drain] passes to the loop never cut an occurrence off. *)
Definition no_cut (final : bool) (limit : Z) (P : bytes) : Prop :=
  final = true ∨ limit = blen P - blen sec + 1.

Lemma exhausted_end P c : (length P ≤ c)%nat → exhausted P c.
Proof.
  intros ? j ?? Hp%prefix_length. rewrite length_drop in Hp.
  destruct sec; simpl in *; [done | lia].
Qed.

Lemma exhausted_none P c : bytes_index (drop c P) sec = None → exhausted P c.
Proof.
  intros Hidx j ?? Hp. eapply (bytes_index_None _ _ Hidx (j - c)).
  rewrite drop_drop. by replace (c + (j - c))%nat with j by lia.
Qed.

(** What one round of the loop replaces. *)
Lemma redact_round P cursor r T :
  (cursor ≤ length P)%nat → bytes_index (drop cursor P) sec = Some r →
  (cursor + r + length sec ≤ length P)%nat ∧
  redact_all sec (drop cursor P ++ T)
  = (slice P cursor (cursor + r) ++ targetCredentialRedaction)
    ++ redact_all sec (drop (cursor + r + length sec) P ++ T).
Proof.
  intros Hc [Hp Hnone]%bytes_index_Some. rewrite drop_drop in Hp.
  assert (cursor + r + length sec ≤ length P)%nat as Hin.
  { apply prefix_length in Hp. rewrite length_drop in Hp.
    destruct sec; simpl in *; [done | lia]. }
  split; [done|]. rewrite (redact_all_pass sec r).
  - rewrite drop_drop, <- (assoc_L (++)). unfold slice.
    replace (cursor + r - cursor)%nat with r by lia. f_equal.
    rewrite redact_all_match by (done || by apply prefix_app_r). f_equal.
    rewrite drop_app_le by (rewrite length_drop; lia). by rewrite drop_drop.
  - rewrite length_drop. lia.
  - intros j Hj. rewrite length_drop. split; [lia | by apply Hnone].
Qed.

Lemma drain_loop_ok fuel final limit P cursor d c dest :
  (cursor ≤ length P)%nat → (length P - cursor ≤ fuel)%nat → no_cut final limit P →
  drain_loop fuel final limit sec P cursor (Some d) = (Ok c, dest) →
  ∃ d', dest = Some d' ∧ (cursor ≤ c ≤ length P)%nat ∧ exhausted P c ∧
        ∀ T, emits d d' (drop cursor P ++ T) (drop c P ++ T).
Proof.
  revert cursor d. induction fuel as [|fuel IH]; intros cursor d Hc Hf Hlim Hloop.
  { simplify_eq/=. exists d. split_and!; [done | lia | lia | | intros; apply emits_refl].
    apply exhausted_end. lia. }
  cbn [drain_loop] in Hloop. case_bool_decide.
  2:{ simplify_eq/=. exists d.
      split_and!; [done | lia | lia | apply exhausted_end; lia | intros; apply emits_refl]. }
  destruct (bytes_index (drop cursor P) sec) as [r|] eqn:Hidx.
  2:{ simplify_eq/=. exists d.
      split_and!; [done | lia | lia | by apply exhausted_none | intros; apply emits_refl]. }
  destruct (redact_round P cursor r [] Hc Hidx) as [Hin _].
  replace (negb final && (limit <=? Z.of_nat (cursor + r))) with false in Hloop.
  2:{ destruct Hlim as [->| ->]; [done|]. destruct final; [done|]. simpl.
      symmetry. apply Z.leb_gt. unfold blen. destruct sec; simpl in *; [done | lia]. }
  destruct (writeRedactedBytes (Some d) _) as [[e1|] dest1] eqn:E1; [done|].
  apply writeRedactedBytes_ok in E1 as (d1 & -> & Hd1).
  destruct (writeRedactedBytes (Some d1) _) as [[e2|] dest2] eqn:E2; [done|].
  apply writeRedactedBytes_ok in E2 as (d2 & -> & Hd2).
  apply IH in Hloop as (d' & -> & ? & Hex & Hem); [|done || (destruct sec; simpl in *; done || lia)..].
  exists d'. split_and!; [done | lia | lia | done |]. intros T.
  eapply emits_trans; [|apply Hem]. eexists. rewrite Hd2, Hd1, <- (assoc_L (++)).
  split; [done|]. by apply redact_round.
Qed.

Lemma redact_all_exhausted P c : exhausted P c → redact_all sec (drop c P) = drop c P.
Proof.
  intros Hex. rewrite (redact_all_nomatch sec (length (drop c P))) by
    (done || (intros j Hj Hp; rewrite drop_drop in Hp;
              apply (Hex (c + j)%nat); [lia | | done];
              apply prefix_length in Hp; rewrite length_drop in *; lia)).
  rewrite firstn_all, drop_all. apply app_nil_r.
Qed.

Lemma drain_ok final w d w' :
  destination w = Some d → secret w = sec → drain final w = (None, w') →
  ∃ d', destination w' = Some d' ∧ secret w' = sec ∧ rerr w' = rerr w ∧
    if final then pending w' = [] ∧ emits d d' (pending w) []
    else (length (pending w') < length sec)%nat ∧
         ∀ T, emits d d' (pending w ++ T) (pending w' ++ T).
Proof.
  intros Hd Hs Hdrain. unfold drain in Hdrain. rewrite Hs, Hd in Hdrain.
  assert (0 < length sec)%nat by (destruct sec; simpl; [done | lia]).
  case_bool_decide as Hp; simplify_eq.
  { apply nil_length_inv in Hp. exists d. rewrite Hp.
    destruct final; split_and!; auto using emits_refl. }
  rewrite bool_decide_false in Hdrain by lia.
  case_match eqn:Hl; simplify_eq.
  { destruct final; [done|]. simpl in Hl. exists d. split_and!; [done..| |auto using emits_refl].
    unfold blen in Hl. lia. }
  destruct (drain_loop _ _ _ _ _ _ _) as [[c|e] dest] eqn:Hloop; simplify_eq.
  apply drain_loop_ok in Hloop as (d1 & -> & Hc & Hex & Hem);
    [|lia|lia|destruct final; [by left | by right]].
  destruct (writeRedactedBytes (Some d1) _) as [[e|] dest'] eqn:Hw; simplify_eq.
  apply writeRedactedBytes_ok in Hw as (d2 & -> & Hd2). exists d2. simpl. split_and!; [done..|].
  destruct final.
  - rewrite drop_all. split; [done|]. specialize (Hem []). rewrite !app_nil_r in Hem.
    eapply emits_trans; [exact Hem|]. eexists. split; [exact Hd2|].
    rewrite redact_all_exhausted, app_nil_r by done. unfold slice.
    by rewrite take_ge by (rewrite length_drop; lia).
  - unfold blen in *. set (f := if _ <? _ then c else _) in *.
    assert (f = Nat.max c (length (pending w) - length sec + 1)) as Hf by (unfold f; case_match; lia).
    split; [rewrite length_drop; lia|]. intros T. eapply emits_trans; [apply Hem|].
    eexists. split; [exact Hd2|]. rewrite (redact_all_pass sec (f - c)).
    + rewrite drop_drop. unfold slice. by replace (c + (f - c))%nat with f by lia.
    + rewrite length_drop. lia.
    + intros j Hj. rewrite length_drop, drop_drop. split; [lia|]. apply Hex; lia.
Qed.

(** A redactor between two writes: it still holds its secret, no error is
    recorded, fewer bytes than the secret are held back. *)
Definition ready (w : exactSecretRedactor D) (d : D) : Prop :=
  destination w = Some d ∧ secret w = sec ∧ rerr w = None ∧
  (length (pending w) < length sec)%nat.

Lemma Write_ok w d value n w' :
  ready w d → writer_write w value = ((n, None), w') →
  n = blen value ∧ ∃ d', ready w' d' ∧
    ∀ T, emits d d' (pending w ++ value ++ T) (pending w' ++ T).
Proof.
  intros (Hd & Hs & He & Hp) Hw. unfold writer_write, Write in Hw. rewrite He in Hw.
  destruct (drain false _) as [[e|] w1] eqn:Hdr; simplify_eq. split; [done|].
  eapply drain_ok in Hdr as (d' & ? & ? & Hr & ? & Hem); [|done..].
  exists d'. split; [split_and!; try done; by rewrite Hr|].
  intros T. rewrite (assoc_L (++)). apply Hem.
Qed.

Lemma write_chunks_ok w d chunks w' :
  ready w d → write_chunks w chunks = (None, w') →
  ∃ d', ready w' d' ∧ ∀ T, emits d d' (pending w ++ concat chunks ++ T) (pending w' ++ T).
Proof.
  revert w d. induction chunks as [|c chunks IH]; intros w d Hr Hw; simplify_eq/=.
  { exists d. auto using emits_refl. }
  destruct (writer_write w c) as [[n [e|]] w1] eqn:E; simplify_eq.
  eapply Write_ok in E as (-> & d1 & Hr1 & Hem1); [|done].
  eapply IH in Hw as (d' & Hr' & Hem); [|done]. exists d'. split; [done|]. intros T.
  eapply emits_trans; [|apply Hem]. rewrite <- !(assoc_L (++)). apply Hem1.
Qed.

Lemma newExactSecretRedactor_ready d : ready (newExactSecretRedactor (Some d) sec) d.
Proof. split_and!; try done. destruct sec; simpl; [done | lia]. Qed.
End correct.

Lemma redact_stream_ok `{Writer D, !WriterSpec D} d sec chunks w :
  sec ≠ [] → redact_stream d sec chunks = (None, w) →
  ∃ d', destination w = Some d' ∧ written d' = written d ++ redact_all sec (concat chunks) ∧
        secret w = [] ∧ pending w = [].
Proof.
  intros Hsec Hs. unfold redact_stream in Hs.
  destruct (write_chunks _ _) as [[e|] w1] eqn:E; simplify_eq.
  eapply write_chunks_ok in E as (d1 & (Hd & Hk & He & _) & Hem);
    [|done | by apply newExactSecretRedactor_ready].
  unfold Flush in Hs. rewrite He in Hs.
  destruct (drain true w1) as [[e|] w2] eqn:E; simplify_eq.
  eapply drain_ok in E as (d2 & ? & ? & ? & ? & Hem2); [|done..]. exists d2. simpl.
  split_and!; [done| |done..].
  specialize (Hem []). rewrite !app_nil_r in Hem.
  destruct (emits_trans _ _ _ _ _ _ _ Hem Hem2) as (out & Ho & Hr). simpl in Hr.
  rewrite app_nil_r in Hr. by rewrite Ho, Hr.
Qed.

Section reliable.
Context `{Writer D, !ReliableWriter D}.

Lemma writeRedactedBytes_reliable d v :
  ∃ d', writeRedactedBytes (Some d) v = (None, Some d').
Proof.
  unfold writeRedactedBytes. destruct (write_fully_reliable d v) as [d' ->]. by exists d'.
Qed.

Lemma drain_loop_reliable fuel final limit sec P cursor d :
  ∃ c d', drain_loop fuel final limit sec P cursor (Some d) = (Ok c, Some d').
Proof.
  revert cursor d. induction fuel as [|fuel IH]; intros cursor d; cbn [drain_loop]; [eauto|].
  case_bool_decide; [|eauto]. destruct (bytes_index _ _) as [r|]; [|eauto].
  destruct (negb final && _); [eauto|].
  destruct (writeRedactedBytes_reliable d (slice P cursor (cursor + r))) as [d1 ->].
  destruct (writeRedactedBytes_reliable d1 targetCredentialRedaction) as [d2 ->].
  apply IH.
Qed.

Lemma drain_reliable final w d :
  destination w = Some d → secret w ≠ [] →
  ∃ w' d', drain final w = (None, w') ∧ destination w' = Some d' ∧
           secret w' = secret w ∧ rerr w' = rerr w.
Proof.
  intros Hd Hs. unfold drain.
  assert (length (secret w) ≠ 0%nat) by (destruct (secret w); simpl; [done | lia]).
  rewrite (bool_decide_false (length (secret w) = _)) by done.
  case_bool_decide; [eauto 10|]. destruct (negb final && _); [eauto 10|]. rewrite Hd.
  destruct (drain_loop_reliable (length (pending w)) final
    (if final then blen (pending w) + 1 else blen (pending w) - blen (secret w) + 1)
    (secret w) (pending w) 0 d) as (c & d1 & ->).
  match goal with |- context [writeRedactedBytes (Some d1) ?v] =>
    destruct (writeRedactedBytes_reliable d1 v) as [d2 ->] end.
  simpl. eauto 10.
Qed.

Lemma redact_stream_total d sec chunks :
  sec ≠ [] → ∃ w, redact_stream d sec chunks = (None, w).
Proof.
  intros Hsec.
  assert (∀ w d, destination w = Some d → secret w = sec → rerr w = None →
    ∃ w' d', write_chunks w chunks = (None, w') ∧ destination w' = Some d' ∧
             secret w' = sec ∧ rerr w' = None) as Hwr.
  { induction chunks as [|c chunks IH]; intros w d0 Hd Hs He; simpl; [eauto 10|].
    unfold writer_write, Write. rewrite He.
    destruct (drain_reliable false (set_pending w (pending w ++ c) (destination w)) d0)
      as (w1 & d1 & -> & Hd1 & Hs1 & He1); simpl in *; [done | congruence |].
    apply (IH w1 d1); congruence. }
  unfold redact_stream. destruct (Hwr (newExactSecretRedactor (Some d) sec) d)
    as (w' & d' & -> & ? & ? & He); [done..|].
  unfold Flush. rewrite He. destruct (drain_reliable true w' d') as (w2 & ? & -> & _);
    [done | congruence |]. by eexists.
Qed.
End reliable.

(** ** Properties *)

(** C30: Whatever the chunks in which a script's output
    reaches the redactor, after [Flush] the destination has received exactly
    the one-pass redaction of the whole output: every occurrence of the secret,
    split over chunks or not, is replaced and every other byte is kept.  With a
    destination that accepts its input no call fails, and the secret and the
    held-back bytes are gone from the redactor. *)
Theorem redact_stream_correct `{Writer D, !WriterSpec D, !ReliableWriter D}
    (d : D) (sec : bytes) (chunks : list bytes) (Hsec : sec ≠ []) :
  ∃ w d', redact_stream d sec chunks = (None, w) ∧ destination w = Some d' ∧
          written d' = written d ++ redact_all sec (concat chunks) ∧
          secret w = [] ∧ pending w = [].
Proof.
  destruct (redact_stream_total d sec chunks Hsec) as [w Hw].
  destruct (redact_stream_ok d sec chunks w Hsec Hw) as (d' & ? & ? & ? & ?).
  by exists w, d'.
Qed.

Lemma redact_stream_correct_witness :
  ∃ w d', redact_stream (D:=bytes) [] (to_bytes "aa") [to_bytes "xa"; to_bytes "aab"] = (None, w) ∧
    destination w = Some d' ∧
    d' = to_bytes "x[REDACTED TARGET CREDENTIAL]ab" ∧ secret w = [] ∧ pending w = [].
Proof. exact (redact_stream_correct (D:=bytes) [] (to_bytes "aa") [to_bytes "xa"; to_bytes "aab"] ltac:(discriminate)). Defined.

(** While the script is still running the redactor never
    runs ahead of the redaction: what it has forwarded is a prefix of the
    redaction of the output so far extended by any later output, and it holds
    back fewer bytes than the secret is long. *)
Lemma redact_prefix_safe `{Writer D, !WriterSpec D}
    (d : D) (sec : bytes) (chunks : list bytes) (w : exactSecretRedactor D)
    (Hsec : sec ≠ [])
    (Hrun : write_chunks (newExactSecretRedactor (Some d) sec) chunks = (None, w)) :
  ∃ d' out, destination w = Some d' ∧ written d' = written d ++ out ∧
    (length (pending w) < length sec)%nat ∧
    ∀ later, out `prefix_of` redact_all sec (concat chunks ++ later).
Proof.
  eapply write_chunks_ok in Hrun as (d' & (? & ? & ? & ?) & Hem);
    [|done | by apply newExactSecretRedactor_ready].
  destruct (Hem []) as (out & Hout & _). exists d', out. split_and!; [done..|].
  intros later. destruct (Hem later) as (out' & Hout' & Hr). simpl in Hr.
  rewrite Hout in Hout'. simplify_list_eq. rewrite Hr. by eexists.
Qed.

