(* ===== verification/Logstream.v ===== *)
(** * Budgeted job logs (runner/internal/logstream/writer.go)

    Standard output and standard error of a job's commands are persisted in
    chunks through [Writer]s that share one [Budget].  [reserve] is modelled
    both as a function and, for goroutines that race on the budget, as the
    step relation of its load / compare-and-swap loop. *)
From S2P Require Import Prelude GoIO.

(* src: runner/internal/logstream/writer.go:10-10 truncationNotice *)
Definition truncationNotice : bytes :=
  "010"%char :: to_bytes "[releasedock: command output truncated by profile limit]" ++ ["010"%char].

(* src: runner/internal/logstream/writer.go:12-16 Budget *)
Record Budget := { maximum : Z; used : Z; truncated : bool }.

(* src: runner/internal/logstream/writer.go:18-18 NewBudget *)
Definition NewBudget (max : Z) : Budget := {| maximum := max; used := 0; truncated := false |}.

(** The grant computed by one round of [reserve] from a loaded [used]. *)
(* src: runner/internal/logstream/writer.go:23-30 (Budget).reserve *)
Definition grant (max used requested : Z) : Z :=
  let remaining := i64 (max - used) in
  if remaining <=? 0 then 0
  else if remaining <? requested then remaining else requested.

(** [reserve] run without interference: the compare-and-swap succeeds. *)
(* src: runner/internal/logstream/writer.go:20-35 (Budget).reserve *)
Definition reserve (b : Budget) (requested : Z) : Z * Budget :=
  let allowed := grant (maximum b) (used b) requested in
  if i64 (maximum b - used b) <=? 0 then (0, b)
  else (allowed, {| maximum := maximum b; used := i64 (used b + allowed); truncated := truncated b |}).

(* src: runner/internal/logstream/writer.go:37-48 Writer *)
Record LogWriter := {
  jobID : string;
  stepID : Z;
  stream : string;
  chunkSize : Z;
  sequence : Z;
  werr : option goerr
}.

(** One [AppendLog] call. *)
Record log_entry := {
  le_job : string; le_step : Z; le_stream : string; le_sequence : Z; le_payload : bytes
}.

(* src: runner/internal/logstream/writer.go:50-52 Sink *)
Class Sink (K : Type) := AppendLog : K → log_entry → option goerr * K.

(** A sink whose calls can be observed, failed ones included. *)
Class SinkSpec (K : Type) `{Sink K} := {
  logged : K → list log_entry;
  AppendLog_logged s e : logged (AppendLog s e).2 = logged s ++ [e]
}.

(* src: runner/internal/logstream/writer.go:54-56 NewWriter *)
Definition NewWriter (job : string) (step : Z) (str : string) (chunk : Z) : LogWriter :=
  {| jobID := job; stepID := step; stream := str; chunkSize := chunk;
     sequence := 0; werr := None |}.

Section writer.
Context `{Sink K}.

(** [for len(payload) > 0]: with a positive [chunkSize] every round consumes
    a byte, so [length payload] rounds are enough; [LoadSettings] refuses a
    chunk size below 1024. *)
(* src: runner/internal/logstream/writer.go:73-88 (Writer).appendChunks *)
Fixpoint appendChunks (fuel : nat) (w : LogWriter) (s : K) (payload : bytes) : LogWriter * K :=
  match payload, fuel with
  | [], _ | _, O => (w, s)
  | _, S fuel =>
      let size := if blen payload <? chunkSize w then blen payload else chunkSize w in
      let chunk := take (Z.to_nat size) payload in
      let seq := i64 (sequence w + 1) in
      let '(err, s) := AppendLog s
        {| le_job := jobID w; le_step := stepID w; le_stream := stream w;
           le_sequence := seq; le_payload := chunk |} in
      let w := {| jobID := jobID w; stepID := stepID w; stream := stream w;
                  chunkSize := chunkSize w; sequence := seq;
                  werr := match err with
                          | Some e => errors_join [werr w; Some e]
                          | None => werr w
                          end |} in
      appendChunks fuel w s (drop (Z.to_nat size) payload)
  end.

(* src: runner/internal/logstream/writer.go:58-71 (Writer).Write *)
Definition Write (w : LogWriter) (b : Budget) (s : K) (payload : bytes)
    : (Z * option goerr) * (LogWriter * Budget * K) :=
  let originalLength := blen payload in
  let '(allowed, b) := reserve b originalLength in
  let '(w, s) :=
    if 0 <? allowed
    then appendChunks (length payload) w s (take (Z.to_nat allowed) payload)
    else (w, s) in
  let '(w, b, s) :=
    if (allowed <? originalLength) && negb (truncated b) then
      let b := {| maximum := maximum b; used := used b; truncated := true |} in
      let '(w, s) := appendChunks (length truncationNotice) w s truncationNotice in (w, b, s)
    else (w, b, s) in
  ((originalLength, None), (w, b, s)).

(* src: runner/internal/logstream/writer.go:90-94 (Writer).Err *)
Definition Writer_Err (w : LogWriter) : option goerr := werr w.

(** A writer with the budget and the sink it shares is an [io.Writer]. *)
#[export] Instance log_writer : Writer (LogWriter * Budget * K) :=
  λ '(w, b, s) payload, Write w b s payload.

(** The two writers of a step, written to in any interleaving:
    [true] is standard output, [false] standard error. *)
Record step_logs := { out_w : LogWriter; err_w : LogWriter; budget : Budget; sink : K }.

Definition write_one (st : step_logs) (c : bool * bytes) : step_logs :=
  let '(w, b, s) := (Write (if c.1 then out_w st else err_w st) (budget st) (sink st) c.2).2 in
  if c.1 then {| out_w := w; err_w := err_w st; budget := b; sink := s |}
  else {| out_w := out_w st; err_w := w; budget := b; sink := s |}.

Definition write_all (st : step_logs) (cs : list (bool * bytes)) : step_logs :=
  fold_left write_one cs st.
End writer.
Arguments step_logs K : clear implicits.

(** ** Goroutines racing on [reserve]

    Each goroutine loads [used], computes its grant and retries its
    compare-and-swap until it succeeds. *)
Inductive reserve_pc :=
  | RLoad (requested : Z)
  | RCas (requested loaded : Z)
  | RDone (granted : Z).

Record race := { r_max : Z; r_used : Z; r_threads : list reserve_pc }.

(* src: runner/internal/logstream/writer.go:20-35 (Budget).reserve *)
Inductive race_step : race → race → Prop :=
  | race_load i r req :
      r_threads r !! i = Some (RLoad req) →
      i64 (r_max r - r_used r) > 0 →
      race_step r {| r_max := r_max r; r_used := r_used r;
                     r_threads := <[i := RCas req (r_used r)]> (r_threads r) |}
  | race_exhausted i r req :
      r_threads r !! i = Some (RLoad req) →
      i64 (r_max r - r_used r) ≤ 0 →
      race_step r {| r_max := r_max r; r_used := r_used r;
                     r_threads := <[i := RDone 0]> (r_threads r) |}
  | race_cas_ok i r req u :
      r_threads r !! i = Some (RCas req u) →
      r_used r = u →
      race_step r {| r_max := r_max r; r_used := i64 (u + grant (r_max r) u req);
                     r_threads := <[i := RDone (grant (r_max r) u req)]> (r_threads r) |}
  | race_cas_fail i r req u :
      r_threads r !! i = Some (RCas req u) →
      r_used r ≠ u →
      race_step r {| r_max := r_max r; r_used := r_used r;
                     r_threads := <[i := RLoad req]> (r_threads r) |}.

Definition granted (t : reserve_pc) : Z := match t with RDone g => g | _ => 0 end.
Definition total_granted (ts : list reserve_pc) : Z := foldr (λ t z, granted t + z) 0 ts.

(** ** Specification: which bytes the budget admits

    Each write contributes as many bytes as the budget still allows; the first
    write that is cut is followed by the truncation notice. *)
Fixpoint admitted (remaining : Z) (cut_before : bool) (cs : list (bool * bytes)) : list (bool * bytes) :=
  match cs with
  | [] => []
  | (o, p) :: cs =>
      let n := Z.min remaining (blen p) in
      let cut := n <? blen p in
      (o, take (Z.to_nat n) p ++ (if cut && negb cut_before then truncationNotice else []))
        :: admitted (remaining - n) (cut_before || cut) cs
  end.

Definition total_bytes (cs : list (bool * bytes)) : Z := blen (concat (snd <$> cs)).
Definition stored_bytes (L : list log_entry) : Z := blen (concat (le_payload <$> L)).
Definition of_stream (name : string) (L : list log_entry) : list log_entry :=
  filter (λ e, le_stream e = name) L.

Lemma blen_app a b : blen (a ++ b) = blen a + blen b.
Proof. unfold blen. rewrite length_app. lia. Qed.
Lemma blen_take n p : 0 ≤ n → blen (take (Z.to_nat n) p) = Z.min n (blen p).
Proof. unfold blen. rewrite length_take. lia. Qed.
Lemma stored_bytes_app L L' : stored_bytes (L ++ L') = stored_bytes L + stored_bytes L'.
Proof. unfold stored_bytes. by rewrite fmap_app, concat_app, blen_app. Qed.
Lemma blen_nonneg p : 0 ≤ blen p.
Proof. unfold blen. lia. Qed.
#[export] Hint Rewrite blen_app stored_bytes_app : logstream.
#[export] Hint Resolve blen_nonneg : core.

Section correct.
Context `{Sink K, !SinkSpec K}.

(** [L] is what writer [w] appended: non-empty chunks of at most [chunkSize]
    bytes under consecutive sequence numbers, together [payload]. *)
Record appended (w w' : LogWriter) (payload : bytes) (L : list log_entry) : Prop := {
  app_payload : concat (le_payload <$> L) = payload;
  app_sizes : Forall (λ e, 1 ≤ blen (le_payload e) ≤ chunkSize w) L;
  app_stream : Forall (λ e, le_stream e = stream w) L;
  app_seq : le_sequence <$> L = seqZ (sequence w + 1) (Z.of_nat (length L));
  app_seq' : sequence w' = sequence w + Z.of_nat (length L);
  app_chunk : chunkSize w' = chunkSize w;
  app_stream' : stream w' = stream w
}.

Lemma appended_nil w : appended w w [] [].
Proof. constructor; done || simpl; lia. Qed.

Lemma appended_app w1 w2 w3 p q L L' :
  appended w1 w2 p L → appended w2 w3 q L' → appended w1 w3 (p ++ q) (L ++ L').
Proof.
  intros [P1 S1 T1 Q1 Q1' C1 T1'] [P2 S2 T2 Q2 Q2' C2 T2']. constructor.
  - by rewrite fmap_app, concat_app, P1, P2.
  - rewrite C1 in S2. by apply Forall_app.
  - rewrite T1' in T2. by apply Forall_app.
  - rewrite fmap_app, length_app, Q1, Q2, Q1', Nat2Z.inj_add, seqZ_app by lia.
    do 2 f_equal. lia.
  - rewrite Q2', Q1', length_app. lia.
  - congruence.
  - congruence.
Qed.

Lemma appended_length w w' p L : appended w w' p L → Z.of_nat (length L) ≤ blen p.
Proof.
  intros [<- Hs _ _ _ _ _]. induction Hs as [|e L He _ IH]; csimpl; [done|].
  rewrite blen_app. lia.
Qed.

Lemma appendChunks_ok fuel w s payload :
  1 ≤ chunkSize w → 0 ≤ sequence w → sequence w + blen payload ≤ int64_max →
  (length payload ≤ fuel)%nat →
  ∃ L, logged (appendChunks fuel w s payload).2 = logged s ++ L ∧
       appended w (appendChunks fuel w s payload).1 payload L.
Proof.
  revert w s payload. induction fuel as [|fuel IH]; intros w s payload Hc Hs Hi Hf.
  { exists []. destruct payload; simpl in *; [|lia]. rewrite app_nil_r. auto using appended_nil. }
  destruct payload as [|c p].
  { exists []. simpl. rewrite app_nil_r. auto using appended_nil. }
  cbn [appendChunks]. set (payload := c :: p) in *.
  set (size := if _ <? _ then _ else _).
  assert (1 ≤ size ≤ blen payload ∧ size ≤ chunkSize w) as [Hsz Hsz'].
  { assert (1 ≤ blen payload) by (unfold payload, blen; simpl; lia).
    unfold size. case_match; lia. }
  rewrite i64_id by (unfold in_i64, int64_min, int64_max in *; lia).
  set (e := {| le_job := _ |}). pose proof (AppendLog_logged s e) as Hlog.
  destruct (AppendLog s e) as [err s1]. simpl in Hlog.
  set (w1 := {| jobID := _ |}). destruct (IH w1 s1 (drop (Z.to_nat size) payload)) as (L & HL & Happ).
  - done.
  - simpl. lia.
  - simpl. unfold blen in *. rewrite length_drop. lia.
  - unfold blen in *. rewrite length_drop. lia.
  - exists (e :: L). split; [by rewrite HL, Hlog, <- (assoc_L (++))|].
    rewrite <- (take_drop (Z.to_nat size) payload) at 2.
    apply (appended_app w w1 _ _ _ [e] L); [|exact Happ].
    constructor; simpl; try done; [by rewrite app_nil_r | | by constructor].
    constructor; [|done]. simpl. rewrite blen_take by lia. lia.
Qed.

(** The budget after [n] bytes were offered to it. *)
Definition budget_after (max n : Z) (b : Budget) : Prop :=
  maximum b = max ∧ used b = Z.min max n ∧ truncated b = (max <? n).

Lemma reserve_ok max n b k :
  0 ≤ max ≤ int64_max → 0 ≤ n → 0 ≤ k → budget_after max n b →
  reserve b k = (Z.min (max - Z.min max n) k,
                 {| maximum := max; used := Z.min max (n + k); truncated := truncated b |}).
Proof.
  intros Hm Hn Hk (Hbm & Hbu & Hbt). unfold reserve, grant. rewrite Hbm, Hbu.
  unfold int64_max in *.
  rewrite (i64_id (max - _)) by (unfold in_i64, int64_min, int64_max; lia).
  case_match eqn:E.
  - f_equal; [lia|]. destruct b; simpl in *. f_equal; lia.
  - rewrite i64_id by (unfold in_i64, int64_min, int64_max; case_match; lia).
    f_equal; [case_match; lia|]. f_equal. case_match; lia.
Qed.

Lemma LogWrite_ok max n w b s p :
  1 ≤ chunkSize w → 0 ≤ sequence w →
  sequence w + blen p + blen truncationNotice ≤ int64_max →
  0 ≤ max ≤ int64_max → 0 ≤ n → budget_after max n b →
  ∃ w' b' s' L, Write w b s p = ((blen p, None), (w', b', s')) ∧
    logged s' = logged s ++ L ∧ budget_after max (n + blen p) b' ∧
    let adm := Z.min (max - Z.min max n) (blen p) in
    appended w w' (take (Z.to_nat adm) p
      ++ (if (adm <? blen p) && negb (max <? n) then truncationNotice else [])) L.
Proof.
  intros Hc Hs Hi Hm Hn Hb. pose proof (blen_nonneg p). unfold Write.
  rewrite (reserve_ok max n b) by done. destruct Hb as (Hbm & Hbu & Hbt).
  set (adm := Z.min (max - Z.min max n) (blen p)) in *. assert (0 ≤ adm ≤ blen p) by lia.
  assert (∃ w1 s1 L1, (if 0 <? adm then appendChunks (length p) w s (take (Z.to_nat adm) p) else (w, s))
      = (w1, s1) ∧ logged s1 = logged s ++ L1 ∧ appended w w1 (take (Z.to_nat adm) p) L1)
    as (w1 & s1 & L1 & -> & Hl1 & Ha1).
  { destruct (0 <? adm) eqn:E.
    - destruct (appendChunks_ok (length p) w s (take (Z.to_nat adm) p)) as (L & ? & ?);
        [done..|rewrite blen_take by lia; pose proof (blen_nonneg truncationNotice); lia
        |rewrite length_take; lia|].
      destruct (appendChunks _ _ _ _) as [w1 s1]. by exists w1, s1, L.
    - exists w, s, []. replace (Z.to_nat adm) with 0%nat by lia. rewrite app_nil_r.
      auto using appended_nil. }
  pose proof (appended_length _ _ _ _ Ha1) as Hlen. rewrite blen_take in Hlen by lia.
  cbn [truncated]. rewrite Hbt. destruct ((adm <? blen p) && negb (max <? n)) eqn:Ecut.
  - destruct (appendChunks_ok (length truncationNotice) w1 s1 truncationNotice) as (L2 & Hl2 & Ha2).
    { by rewrite (app_chunk _ _ _ _ Ha1). }
    { rewrite (app_seq' _ _ _ _ Ha1). lia. }
    { rewrite (app_seq' _ _ _ _ Ha1). lia. }
    { done. }
    destruct (appendChunks _ _ _ _) as [w2 s2]. simpl in Hl2, Ha2. eexists w2, _, s2, (L1 ++ L2).
    split; [done|]. split; [by rewrite Hl2, Hl1, <- (assoc_L (++))|].
    split; [split_and!; simpl; try done; lia|]. by eapply appended_app.
  - eexists w1, _, s1, L1. split; [done|]. split; [done|].
    split; [split_and!; simpl; try done; lia|]. by rewrite app_nil_r.
Qed.

Lemma of_stream_app name L L' : of_stream name (L ++ L') = of_stream name L ++ of_stream name L'.
Proof. apply filter_app. Qed.

Lemma of_stream_appended w w' p L name :
  appended w w' p L → of_stream name L = if bool_decide (name = stream w) then L else [].
Proof.
  intros [_ _ Ht _ _ _ _]. unfold of_stream. case_bool_decide as Hn.
  - subst. by apply list_filter_all.
  - apply list_filter_none. eapply Forall_impl; [exact Ht|]. simpl. congruence.
Qed.

Definition side (st : step_logs K) (o : bool) : LogWriter := if o then out_w st else err_w st.

(** Both writers of [st] can still be used for the writes [cs]. *)
Definition usable (c : Z) (st : step_logs K) (cs : list (bool * bytes)) : Prop :=
  stream (out_w st) ≠ stream (err_w st) ∧
  ∀ o, chunkSize (side st o) = c ∧ 0 ≤ sequence (side st o) ∧
       sequence (side st o) + total_bytes cs + Z.of_nat (length cs) * blen truncationNotice ≤ int64_max.

(** What the sink holds of side [o] after [st] is exactly [content]. *)
Definition holds (st : step_logs K) (L : list log_entry) (o : bool) (content : bytes) : Prop :=
  concat (le_payload <$> of_stream (stream (side st o)) L) = content ∧
  le_sequence <$> of_stream (stream (side st o)) L
    = seqZ (sequence (side st o) + 1) (Z.of_nat (length (of_stream (stream (side st o)) L))).

Lemma total_bytes_cons o p cs : total_bytes ((o, p) :: cs) = blen p + total_bytes cs.
Proof. unfold total_bytes. csimpl. by rewrite blen_app. Qed.

Definition on_side (o : bool) (cs : list (bool * bytes)) : list (bool * bytes) :=
  filter (λ c, c.1 = o) cs.

Lemma write_one_ok c max n st o p cs :
  1 ≤ c → 0 ≤ max ≤ int64_max → 0 ≤ n → budget_after max n (budget st) →
  usable c st ((o, p) :: cs) →
  let adm := Z.min (max - Z.min max n) (blen p) in
  let out := take (Z.to_nat adm) p
    ++ (if (adm <? blen p) && negb (max <? n) then truncationNotice else []) in
  ∃ L, logged (sink (write_one st (o, p))) = logged (sink st) ++ L ∧
    appended (side st o) (side (write_one st (o, p)) o) out L ∧
    side (write_one st (o, p)) (negb o) = side st (negb o) ∧
    budget_after max (n + blen p) (budget (write_one st (o, p))) ∧
    usable c (write_one st (o, p)) cs.
Proof.
  intros Hc Hm Hn Hb [Hne Hu]. pose proof (Hu o) as (Hco & Hso & Hio).
  rewrite total_bytes_cons in *.
  assert (0 ≤ total_bytes cs ∧ 0 ≤ blen truncationNotice) as [? ?] by (split; apply blen_nonneg).
  cbn [length] in Hio. rewrite Nat2Z.inj_succ in Hio.
  destruct (LogWrite_ok max n (side st o) (budget st) (sink st) p)
    as (w' & b' & s' & L & HW & Hl & Hb' & Ha); [lia | lia | nia | done..|].
  assert (write_one st (o, p) = if o then {| out_w := w'; err_w := err_w st; budget := b'; sink := s' |}
    else {| out_w := out_w st; err_w := w'; budget := b'; sink := s' |}) as ->.
  { unfold write_one. simpl. unfold side in HW. destruct o; by rewrite HW. }
  exists L. pose proof (appended_length _ _ _ _ Ha) as Hlen.
  assert (blen (take (Z.to_nat (Z.min (max - Z.min max n) (blen p))) p ++
    (if (Z.min (max - Z.min max n) (blen p) <? blen p) && negb (max <? n)
     then truncationNotice else [])) ≤ blen p + blen truncationNotice) as Hout.
  { rewrite blen_app. pose proof (blen_nonneg p). rewrite blen_take by lia. case_match; [|change (blen []) with 0]; lia. }
  destruct Ha as [A1 A2 A3 A4 A5 A6 A7].
  split; [by destruct o|]. split; [by destruct o|]. split; [by destruct o|].
  split; [by destruct o|]. split; [destruct o; simpl in *; congruence|].
  intros o'. specialize (Hu o') as (? & ? & Hio').
  cbn [length] in Hio'. rewrite Nat2Z.inj_succ in Hio'.
  destruct o, o'; simpl in *; split_and!; try lia; try nia.
Qed.

Lemma admitted_step max n o p cs :
  0 ≤ max → 0 ≤ n →
  admitted (max - Z.min max n) (max <? n) ((o, p) :: cs) =
  (o, take (Z.to_nat (Z.min (max - Z.min max n) (blen p))) p
      ++ (if (Z.min (max - Z.min max n) (blen p) <? blen p) && negb (max <? n)
          then truncationNotice else []))
    :: admitted (max - Z.min max (n + blen p)) (max <? n + blen p) cs.
Proof.
  intros Hm Hn. pose proof (blen_nonneg p). cbn [admitted]. f_equal. f_equal; [lia|].
  destruct (max <? n) eqn:E1, (_ <? blen p) eqn:E2; simpl; lia.
Qed.

Lemma of_stream_side st o p L w' o' :
  stream (out_w st) ≠ stream (err_w st) → appended (side st o) w' p L →
  of_stream (stream (side st o')) L = if bool_decide (o' = o) then L else [].
Proof.
  intros Hne Ha. erewrite of_stream_appended by done.
  destruct o, o'; simpl in *; repeat case_bool_decide; congruence.
Qed.

Lemma write_all_ok c max n st cs :
  1 ≤ c → 0 ≤ max ≤ int64_max → 0 ≤ n → budget_after max n (budget st) → usable c st cs →
  let adm := admitted (max - Z.min max n) (max <? n) cs in
  ∃ L, logged (sink (write_all st cs)) = logged (sink st) ++ L ∧
    Forall (λ e, 1 ≤ blen (le_payload e) ≤ c) L ∧
    stored_bytes L = total_bytes adm ∧
    ∀ o, holds st L o (concat (snd <$> on_side o adm)).
Proof.
  intros Hc Hm. revert n st. induction cs as [|[o p] cs IH]; intros n st Hn Hb Hu.
  { exists []. rewrite app_nil_r. split_and!; [done|constructor|done|]. intros o. split; done. }
  destruct (write_one_ok c max n st o p cs) as (L1 & Hl1 & Ha & Hother & Hb' & Hu'); [done..|].
  pose proof (blen_nonneg p).
  destruct (IH (n + blen p) (write_one st (o, p))) as (L2 & Hl2 & Hs2 & Ht2 & Hh2); [lia|done..|].
  exists (L1 ++ L2). rewrite admitted_step by lia. set (rest := admitted _ (max <? n + blen p) cs) in *.
  destruct Hu as [Hne Hu]. specialize (Hu o) as (Hco & _).
  pose proof Ha as [A1 A2 A3 A4 A5 A6 A7].
  split; [by cbn [write_all fold_left]; rewrite (assoc_L (++)), <- Hl1|].
  split; [apply Forall_app; split; [by rewrite <- Hco|done]|].
  split; [by rewrite total_bytes_cons, stored_bytes_app, Ht2; unfold stored_bytes; rewrite A1|].
  intros o'. destruct (Hh2 o') as [Hp Hq]. unfold holds. unfold on_side. rewrite filter_cons. simpl fst.
  rewrite of_stream_app, fmap_app, concat_app, fmap_app, length_app, Nat2Z.inj_add, seqZ_app by lia.
  erewrite of_stream_side by done.
  destruct (decide (o = o')) as [<-|Ho].
  - rewrite bool_decide_true by done. rewrite A7 in Hp, Hq. rewrite Hp, Hq, A1, A4, A5.
    split; [done|]. do 2 f_equal. lia.
  - rewrite bool_decide_false by done. assert (o' = negb o) as -> by (by destruct o, o').
    rewrite Hother in Hp, Hq. rewrite Hp, Hq. split; [done|]. simpl. by rewrite Z.add_0_r.
Qed.
End correct.

Lemma admitted_total rem cut cs :
  0 ≤ rem → total_bytes (admitted rem cut cs) =
  Z.min rem (total_bytes cs)
  + (if negb cut && (rem <? total_bytes cs) then blen truncationNotice else 0).
Proof.
  revert rem cut. induction cs as [|[o p] cs IH]; intros rem cut Hr.
  { change (total_bytes []) with 0. simpl. case_match eqn:E; [|change (total_bytes []) with 0; lia].
    apply andb_true_iff in E as [_ ?]. lia. }
  cbn [admitted]. rewrite !total_bytes_cons, blen_app.
  pose proof (blen_nonneg p). assert (0 ≤ total_bytes cs) by apply blen_nonneg.
  rewrite blen_take, IH by lia.
  destruct cut; simpl; [rewrite andb_false_r; change (blen []) with 0; lia|].
  rewrite andb_true_r. repeat case_match; change (blen []) with 0; simpl in *; lia.
Qed.

(** ** The racing goroutines keep to the budget *)
Definition requested_ok (t : reserve_pc) : Prop :=
  match t with
  | RLoad r => 0 ≤ r ≤ int64_max
  | RCas r _ => 0 ≤ r ≤ int64_max
  | RDone g => 0 ≤ g
  end.

Record race_inv (r : race) : Prop := {
  ri_max : 0 ≤ r_max r ≤ int64_max;
  ri_used : r_used r = total_granted (r_threads r);
  ri_bound : 0 ≤ r_used r ≤ r_max r;
  ri_threads : Forall requested_ok (r_threads r);
  ri_cas : ∀ i req u, r_threads r !! i = Some (RCas req u) → u < r_max r ∧ 0 ≤ u
}.

Lemma total_granted_insert ts i t t' :
  ts !! i = Some t → total_granted (<[i := t']> ts) = total_granted ts - granted t + granted t'.
Proof.
  revert i. induction ts as [|x ts IH]; intros [|i] Hi; simplify_eq/=; [lia|]. rewrite (IH i) by done. lia.
Qed.

Lemma grant_ok max u req :
  0 ≤ max ≤ int64_max → 0 ≤ u ≤ max → 0 ≤ req → 0 ≤ grant max u req ∧ u + grant max u req ≤ max.
Proof.
  intros. unfold grant. unfold int64_max in *.
  rewrite i64_id by (unfold in_i64, int64_min, int64_max; lia). repeat case_match; lia.
Qed.

Lemma race_inv_update r i t t' u :
  race_inv r → r_threads r !! i = Some t →
  u = r_used r - granted t + granted t' → 0 ≤ u ≤ r_max r → requested_ok t' →
  (∀ req l, t' = RCas req l → l < r_max r ∧ 0 ≤ l) →
  race_inv {| r_max := r_max r; r_used := u; r_threads := <[i := t']> (r_threads r) |}.
Proof.
  intros [Hm Hu Hb Ht Hc] Hi Hu' Hb' Hreq Hcas. constructor; simpl; [done| |done| |].
  - rewrite (total_granted_insert _ _ _ _ Hi). lia.
  - by apply Forall_insert.
  - intros j req l Hj. destruct (decide (i = j)) as [<-|Hne].
    + rewrite list_lookup_insert_eq in Hj by (by eapply lookup_lt_Some). simplify_eq. eauto.
    + rewrite list_lookup_insert_ne in Hj by done. eauto.
Qed.

Lemma race_step_inv r r' : race_inv r → race_step r r' → race_inv r'.
Proof.
  intros Hinv Hs. pose proof Hinv as [Hm Hu Hb Ht Hc].
  destruct Hs as [i r req Hi Hpos|i r req Hi Hz|i r req u Hi Hu'|i r req u Hi Hne];
    pose proof (Forall_lookup_1 _ _ _ _ Ht Hi) as Hreq; simpl in Hreq.
  - apply (race_inv_update r i (RLoad req)); simpl; [done..|lia|lia|done|].
    intros ?? [= <- <-]. rewrite i64_id in Hpos by (unfold in_i64, int64_min, int64_max in *; lia). lia.
  - by apply (race_inv_update r i (RLoad req)); simpl; [done..|lia|lia|lia|].
  - subst u. destruct (grant_ok (r_max r) (r_used r) req) as [Hg1 Hg2]; [done|lia..|].
    apply (race_inv_update r i (RCas req (r_used r))); simpl; [done..| | |done|done];
      rewrite i64_id by (unfold in_i64, int64_min, int64_max in *; lia); lia.
  - by apply (race_inv_update r i (RCas req u)); simpl; [done..|lia|lia|done|].
Qed.

(** ** Properties *)

(** Whatever interleaving of standard-output and standard-error writes a
    step's commands produce, the sink receives exactly the bytes the shared
    budget admits: per stream the chunks concatenate to the admitted bytes in
    order under sequence numbers 1, 2, 3, ..., no chunk is empty or longer than
    the chunk size, and the stored total is the budget or the output, whichever
    is smaller, plus one truncation notice exactly when output was cut.  Sink
    failures do not change what is attempted. *)
Lemma step_logs_within_budget `{Sink K, !SinkSpec K}
    (s : K) (job : string) (step max chunk : Z) (cs : list (bool * bytes))
    (Hchunk : 1 ≤ chunk) (Hmax : 0 ≤ max ≤ int64_max)
    (Hlen : total_bytes cs + Z.of_nat (length cs) * blen truncationNotice ≤ int64_max) :
  let st := {| out_w := NewWriter job step "stdout" chunk; err_w := NewWriter job step "stderr" chunk;
               budget := NewBudget max; sink := s |} in
  ∃ L, logged (sink (write_all st cs)) = logged s ++ L ∧
    Forall (λ e, 1 ≤ blen (le_payload e) ≤ chunk) L ∧
    stored_bytes L = Z.min max (total_bytes cs)
      + (if max <? total_bytes cs then blen truncationNotice else 0) ∧
    ∀ o : bool, let name := if o then "stdout" else "stderr" in
      concat (le_payload <$> of_stream name L) = concat (snd <$> on_side o (admitted max false cs)) ∧
      le_sequence <$> of_stream name L = seqZ 1 (Z.of_nat (length (of_stream name L))).
Proof.
  intros st. assert (0 ≤ total_bytes cs) by apply blen_nonneg.
  destruct (write_all_ok chunk max 0 st cs) as (L & Hl & Hs & Ht & Hh); [lia|done|lia| | |].
  - split_and!; simpl; lia.
  - split; [done|]. intros []; simpl; split_and!; lia.
  - rewrite Z.min_r, Z.sub_0_r in Ht, Hh by lia.
    replace (max <? 0) with false in Ht, Hh by lia.
    exists L. split_and!; [done|done|by rewrite Ht, admitted_total by lia|].
    intros []; [destruct (Hh true) | destruct (Hh false)]; done.
Qed.

#[export] Instance trace_sink : Sink (list log_entry) := λ s e, (Some (External "down"), s ++ [e]).
#[export] Program Instance trace_sink_spec : SinkSpec (list log_entry) := {| logged s := s |}.
Next Obligation. done. Qed.

(** Goroutines that race on the same budget never overdraw it: in every
    state reachable by interleaved loads and compare-and-swaps of [reserve],
    the grants handed out add up to [used], which never exceeds the maximum. *)
Lemma reserve_race_never_overdraws (max : Z) (requests : list Z) (r : race)
    (Hmax : 0 ≤ max ≤ int64_max) (Hreq : Forall (λ q, 0 ≤ q ≤ int64_max) requests)
    (Hr : rtc race_step {| r_max := max; r_used := 0; r_threads := RLoad <$> requests |} r) :
  r_used r = total_granted (r_threads r) ∧ r_used r ≤ max.
Proof.
  assert (race_inv {| r_max := max; r_used := 0; r_threads := RLoad <$> requests |}) as Hinit.
  { constructor; simpl; [done| |lia|by apply Forall_fmap|].
    - clear. induction requests as [|q qs IH]; csimpl; lia.
    - intros i req u Hi. apply list_lookup_fmap_Some in Hi as (? & ? & ?). done. }
  assert (race_inv r ∧ r_max r = max) as [[_ Hu Hb _ _] <-]; [|split; [done|lia]].
  remember {| r_max := max; r_used := 0; r_threads := RLoad <$> requests |} as r0.
  assert (r_max r0 = max) as Hm by (by subst). clear Heqr0.
  induction Hr as [|r0 r1 r2 Hstep _ IH]; [done|]. apply IH.
  - by eapply race_step_inv.
  - rewrite <- Hm. by inversion Hstep.
Qed.

