(* ===== verification/GoString.v ===== *)
(** * Go strings

    A Go string is a byte sequence; the operations of packages [strings],
    [unicode/utf8] and [regexp] that the code uses, on [string].

    Case mapping is given on ASCII and on the two code points outside ASCII
    that map into it (U+212A and U+0130): the code only compares the result
    with ASCII words.  [EqualFold] is only applied to words without [k] and [s],
    for which the fold orbits lie inside ASCII. *)

From S2P Require Import Prelude GoIO.

Definition slen (s : string) : Z := Z.of_nat (String.length s).

Definition chars (s : string) : list ascii := Strings.String.list_ascii_of_string s.
Definition of_chars (l : list ascii) : string := Strings.String.string_of_list_ascii l.

Lemma of_chars_chars s : of_chars (chars s) = s.
Proof. apply Strings.String.string_of_list_ascii_of_string. Qed.
Lemma chars_of_chars l : chars (of_chars l) = l.
Proof. apply Strings.String.list_ascii_of_string_of_list_ascii. Qed.

Lemma chars_app s t : chars (s +:+ t) = chars s ++ chars t.
Proof.
  induction s as [|c s IH]; [done|].
  change (chars (String c s +:+ t)) with (c :: chars (s +:+ t)). by rewrite IH.
Qed.
Lemma of_chars_app l k : of_chars (l ++ k) = of_chars l +:+ of_chars k.
Proof.
  induction l as [|c l IH]; [done|].
  change (of_chars ((c :: l) ++ k)) with (String c (of_chars (l ++ k))). by rewrite IH.
Qed.
Lemma chars_inj s t : chars s = chars t → s = t.
Proof. intros H. by rewrite <- (of_chars_chars s), H, of_chars_chars. Qed.
Lemma length_chars s : length (chars s) = String.length s.
Proof. induction s as [|c s IH]; [done|]. cbn. by f_equal. Qed.
Lemma slen_chars s : slen s = Z.of_nat (length (chars s)).
Proof. by rewrite length_chars. Qed.

Lemma slen_cons c s : slen (String c s) = slen s + 1.
Proof. unfold slen. cbn [String.length]. lia. Qed.
Lemma slen_nonneg s : 0 ≤ slen s.
Proof. unfold slen. lia. Qed.
Lemma slen_app s t : slen (s +:+ t) = slen s + slen t.
Proof. rewrite !slen_chars, chars_app, length_app. lia. Qed.

(** The value of a byte. *)
Definition byte (c : ascii) : Z := Z.of_N (Strings.Ascii.N_of_ascii c).
Definition byte_in (lo hi : Z) (c : ascii) : bool := (lo <=? byte c) && (byte c <=? hi).
Definition is_char (a : ascii) (c : ascii) : bool := bool_decide (a = c).

Definition NUL : ascii := "000"%char.

(** ** Package strings *)
Fixpoint contains_byte (c : ascii) (s : string) : bool :=
  match s with
  | EmptyString => false
  | String d s => bool_decide (d = c) || contains_byte c s
  end.

(** [strings.ContainsAny] for a set of ASCII characters. *)
Definition contains_any (s : string) (set : list ascii) : bool :=
  existsb (λ c, existsb (is_char c) set) (chars s).

(** [strings.HasPrefix]. *)
Fixpoint has_prefix (s p : string) : bool :=
  match p, s with
  | EmptyString, _ => true
  | String a p, String b s => bool_decide (a = b) && has_prefix s p
  | _, EmptyString => false
  end.

Definition has_suffix (s suffix : string) : bool :=
  bool_decide (chars suffix `suffix_of` chars s).

(** [s[n:]] and [s[:n]] for in-range [n]. *)
Definition drop_str (n : nat) (s : string) : string := of_chars (drop n (chars s)).
Definition take_str (n : nat) (s : string) : string := of_chars (take n (chars s)).

Definition trim_prefix (s p : string) : string :=
  if has_prefix s p then drop_str (String.length p) s else s.
Definition trim_suffix (s p : string) : string :=
  if has_suffix s p then take_str (String.length s - String.length p) s else s.

Fixpoint contains (s sub : string) : bool :=
  has_prefix s sub ||
  match s with EmptyString => false | String _ s => contains s sub end.

(** [strings.IndexByte]; [None] is -1. *)
Fixpoint index_where (p : ascii → bool) (s : string) : option nat :=
  match s with
  | EmptyString => None
  | String c s => if p c then Some 0%nat else S <$> index_where p s
  end.
Definition index_byte (c : ascii) (s : string) : option nat := index_where (is_char c) s.

(** [strings.LastIndexByte] as Go returns it, -1 when absent. *)
Fixpoint last_index_byte (c : ascii) (s : string) : Z :=
  match s with
  | EmptyString => -1
  | String d s =>
      let i := last_index_byte c s in
      if 0 <=? i then i + 1 else if is_char c d then 0 else -1
  end.

(** [strings.Split] with a one-byte separator: never empty. *)
Fixpoint split_byte (c : ascii) (s : string) : list string :=
  match s with
  | EmptyString => [EmptyString]
  | String d s =>
      if is_char c d then EmptyString :: split_byte c s
      else match split_byte c s with
           | [] => [String d EmptyString]
           | w :: ws => String d w :: ws
           end
  end.

(** [strings.Join]. *)
Fixpoint join (sep : string) (l : list string) : string :=
  match l with
  | [] => ""
  | [w] => w
  | w :: l => w +:+ sep +:+ join sep l
  end.

Fixpoint drop_while {A} (p : A → bool) (l : list A) : list A :=
  match l with
  | [] => []
  | x :: l' => if p x then drop_while p l' else l
  end.
Definition drop_while_end {A} (p : A → bool) (l : list A) : list A :=
  reverse (drop_while p (reverse l)).

(** [strings.TrimLeft], [TrimRight] and [Trim] for a set of ASCII characters. *)
Definition in_set (set : list ascii) (c : ascii) : bool := existsb (is_char c) set.
Definition trim_left (set : list ascii) (s : string) : string :=
  of_chars (drop_while (in_set set) (chars s)).
Definition trim_right (set : list ascii) (s : string) : string :=
  of_chars (drop_while_end (in_set set) (chars s)).
Definition trim (set : list ascii) (s : string) : string := trim_right set (trim_left set s).

(** ** UTF-8 (package unicode/utf8)

    [decode_rune] reads one code point from the front: its value and width,
    U+FFFD with width 1 for an invalid encoding. *)
Definition RuneError : Z := 65533.
Definition cont (c : ascii) : bool := byte_in 128 191 c.
Definition cbits (c : ascii) : Z := Z.land (byte c) 63.

Definition decode_rune (l : list ascii) : Z * nat :=
  match l with
  | [] => (RuneError, 0%nat)
  | a :: l =>
      if byte a <? 128 then (byte a, 1%nat) else
      match l with
      | b :: l2 =>
          if byte_in 194 223 a && cont b then
            (Z.lor (Z.shiftl (Z.land (byte a) 31) 6) (cbits b), 2%nat) else
          match l2 with
          | c :: l3 =>
              if (is_char "224"%char a && byte_in 160 191 b
                  || is_char "237"%char a && byte_in 128 159 b
                  || (byte_in 225 236 a || byte_in 238 239 a) && cont b) && cont c then
                (Z.lor (Z.shiftl (Z.land (byte a) 15) 12)
                   (Z.lor (Z.shiftl (cbits b) 6) (cbits c)), 3%nat) else
              match l3 with
              | d :: _ =>
                  if (is_char "240"%char a && byte_in 144 191 b
                      || is_char "244"%char a && byte_in 128 143 b
                      || byte_in 241 243 a && cont b) && cont c && cont d then
                    (Z.lor (Z.shiftl (Z.land (byte a) 7) 18)
                      (Z.lor (Z.shiftl (cbits b) 12)
                         (Z.lor (Z.shiftl (cbits c) 6) (cbits d))), 4%nat)
                  else (RuneError, 1%nat)
              | [] => (RuneError, 1%nat)
              end
          | [] => (RuneError, 1%nat)
          end
      | [] => (RuneError, 1%nat)
      end
  end.

(** [for _, r := range s]: the code points of [s] with the bytes of each.
    Every code point takes a byte, so [length l] rounds are enough. *)
Fixpoint runes_loop (fuel : nat) (l : list ascii) : list (Z * list ascii) :=
  match fuel, l with
  | O, _ | _, [] => []
  | S fuel, _ =>
      let '(r, w) := decode_rune l in
      (r, take w l) :: runes_loop fuel (drop w l)
  end.
Definition runes (s : string) : list (Z * list ascii) :=
  runes_loop (String.length s) (chars s).

Definition zbyte (z : Z) : ascii := Strings.Ascii.ascii_of_N (Z.to_N z).

(** [string(r)] / [utf8.AppendRune]. *)
Definition encode_rune (r : Z) : list ascii :=
  if (0 <=? r) && (r <=? 127) then [zbyte r] else
  if (128 <=? r) && (r <=? 2047) then
    [zbyte (Z.lor 192 (Z.shiftr r 6)); zbyte (Z.lor 128 (Z.land r 63))] else
  let r := if (r <? 0) || (1114111 <? r) || ((55296 <=? r) && (r <=? 57343)) then RuneError else r in
  if r <=? 65535 then
    [zbyte (Z.lor 224 (Z.shiftr r 12)); zbyte (Z.lor 128 (Z.land (Z.shiftr r 6) 63));
     zbyte (Z.lor 128 (Z.land r 63))]
  else
    [zbyte (Z.lor 240 (Z.shiftr r 18)); zbyte (Z.lor 128 (Z.land (Z.shiftr r 12) 63));
     zbyte (Z.lor 128 (Z.land (Z.shiftr r 6) 63)); zbyte (Z.lor 128 (Z.land r 63))].

(** [unicode.IsSpace]. *)
Definition is_space (r : Z) : bool :=
  (9 <=? r) && (r <=? 13) || (r =? 32) || (r =? 133) || (r =? 160) || (r =? 5760)
  || ((8192 <=? r) && (r <=? 8202)) || (r =? 8232) || (r =? 8233) || (r =? 8239)
  || (r =? 8287) || (r =? 12288).

(** [strings.TrimSpace]. *)
Definition trim_space (s : string) : string :=
  let sp := λ x : Z * list ascii, is_space x.1 in
  of_chars (concat (snd <$> drop_while_end sp (drop_while sp (runes s)))).

(** [strings.ToLower], [ToUpper]: see the note at the top of the file. *)
Definition lower_byte (c : ascii) : ascii := if byte_in 65 90 c then zbyte (byte c + 32) else c.
Definition upper_byte (c : ascii) : ascii := if byte_in 97 122 c then zbyte (byte c - 32) else c.
Definition lower_rune (x : Z * list ascii) : list ascii :=
  if x.1 =? 8490 then ["k"%char] else if x.1 =? 304 then ["i"%char] else lower_byte <$> x.2.
Definition to_lower (s : string) : string := of_chars (concat (lower_rune <$> runes s)).
Definition upper_rune (x : Z * list ascii) : list ascii :=
  if x.1 =? 305 then ["I"%char] else if x.1 =? 383 then ["S"%char] else upper_byte <$> x.2.
Definition to_upper (s : string) : string := of_chars (concat (upper_rune <$> runes s)).
(** [strings.EqualFold] for a word without [k] and [s]. *)
Definition equal_fold (s t : string) : bool :=
  bool_decide (lower_byte <$> chars s = lower_byte <$> chars t).

(** Less-or-equal of [sort.Strings]: byte-wise lexicographic. *)
Fixpoint bytes_le (s t : list ascii) : bool :=
  match s, t with
  | [], _ => true
  | _, [] => false
  | a :: s, b :: t => (byte a <? byte b) || ((byte a =? byte b) && bytes_le s t)
  end.
Definition string_le (s t : string) : Prop := bytes_le (chars s) (chars t) = true.

(** ** Regular expressions (package regexp), anchored patterns over ASCII classes *)
Inductive regex :=
  | Void
  | Eps
  | Class (p : ascii → bool)
  | Cat (r1 r2 : regex)
  | Alt (r1 r2 : regex)
  | Star (r : regex).

Fixpoint nullable (r : regex) : bool :=
  match r with
  | Void | Class _ => false
  | Eps | Star _ => true
  | Cat a b => nullable a && nullable b
  | Alt a b => nullable a || nullable b
  end.

Definition cat (a b : regex) : regex :=
  match a, b with
  | Void, _ | _, Void => Void
  | Eps, _ => b
  | _, _ => Cat a b
  end.
Definition alt (a b : regex) : regex :=
  match a, b with
  | Void, _ => b
  | _, Void => a
  | _, _ => Alt a b
  end.

(** Brzozowski derivative. *)
Fixpoint deriv (c : ascii) (r : regex) : regex :=
  match r with
  | Void | Eps => Void
  | Class p => if p c then Eps else Void
  | Cat a b => if nullable a then alt (cat (deriv c a) b) (deriv c b) else cat (deriv c a) b
  | Alt a b => alt (deriv c a) (deriv c b)
  | Star a => cat (deriv c a) (Star a)
  end.

Fixpoint match_chars (r : regex) (l : list ascii) : bool :=
  match l with
  | [] => nullable r
  | c :: l => match_chars (deriv c r) l
  end.
Definition match_string (r : regex) (s : string) : bool := match_chars r (chars s).

(** The language of a regular expression. *)
Inductive matches : regex → list ascii → Prop :=
  | m_eps : matches Eps []
  | m_class p c : p c = true → matches (Class p) [c]
  | m_cat a b l k : matches a l → matches b k → matches (Cat a b) (l ++ k)
  | m_alt_l a b l : matches a l → matches (Alt a b) l
  | m_alt_r a b l : matches b l → matches (Alt a b) l
  | m_star_nil a : matches (Star a) []
  | m_star_app a l k : matches a l → matches (Star a) k → matches (Star a) (l ++ k).

Definition opt (r : regex) : regex := Alt Eps r.
Definition plus (r : regex) : regex := Cat r (Star r).
Fixpoint times (n : nat) (r : regex) : regex :=
  match n with O => Eps | S n => Cat r (times n r) end.
(** [r{0,n}]. *)
Fixpoint upto (n : nat) (r : regex) : regex :=
  match n with O => Eps | S n => opt (Cat r (upto n r)) end.

Definition lower_alpha : ascii → bool := byte_in 97 122.
Definition upper_alpha : ascii → bool := byte_in 65 90.
Definition digit : ascii → bool := byte_in 48 57.
(** [strconv.ParseUint(s, 10, bits)]: digits only, below [2 ^ bits]. *)
Definition digits_value (l : list ascii) : Z := foldl (λ z c, 10 * z + (byte c - 48)) 0 l.
Definition parse_uint (bits : Z) (s : string) : option Z :=
  let l := chars s in
  if negb (bool_decide (l = [])) && forallb digit l && (digits_value l <? 2 ^ bits) then Some (digits_value l) else None.

(** ** Lemmas *)
Lemma nullable_ok r : nullable r = true ↔ matches r [].
Proof.
  split.
  - induction r; simpl; intros H; try done; try (by constructor).
    + apply andb_true_iff in H as [??]. apply (m_cat _ _ [] []); auto.
    + apply orb_true_iff in H as [?|?]; [apply m_alt_l|apply m_alt_r]; auto.
  - intros H. remember [] as l eqn:Hl. induction H; simpl; try done; simplify_list_eq; auto.
    + apply app_eq_nil in Hl as [-> ->]. by rewrite IHmatches1, IHmatches2.
    + by rewrite IHmatches.
    + by rewrite IHmatches, orb_true_r.
Qed.

Lemma cat_ok a b l : matches (cat a b) l ↔ matches (Cat a b) l.
Proof.
  split.
  - destruct a, b; simpl; intros H; try done; try (by inversion H);
      by apply (m_cat _ _ [] l); [constructor|].
  - intros H. inversion H as [| |? ? l1 l2 H1 H2| | | |]; subst.
    destruct a; try (by inversion H1); try (destruct b; (by inversion H2) || by constructor).
    inversion H1; subst. by destruct b.
Qed.

Lemma alt_ok a b l : matches (alt a b) l ↔ matches (Alt a b) l.
Proof.
  split.
  - destruct a, b; simpl; intros H; done || (by apply m_alt_l) || by apply m_alt_r.
  - intros H. inversion H as [| | |? ? ? Ha|? ? ? Hb| |]; subst.
    + destruct a, b; simpl; first [done | by apply m_alt_l | by inversion Ha].
    + destruct a, b; simpl; first [done | by apply m_alt_r | by inversion Hb].
Qed.

Lemma deriv_ok c r l : matches (deriv c r) l ↔ matches r (c :: l).
Proof.
  split.
  - revert l. induction r as [| |p|r1 IH1 r2 IH2|r1 IH1 r2 IH2|r IH]; simpl; intros l H.
    + by inversion H.
    + by inversion H.
    + destruct (p c) eqn:E; inversion H; subst. by constructor.
    + assert (matches (Cat (deriv c r1) r2) l → matches (Cat r1 r2) (c :: l)) as Hcat.
      { intros Hc. inversion Hc; subst. apply (m_cat _ _ (c :: _)); eauto. }
      destruct (nullable r1) eqn:E; [|by apply Hcat, cat_ok].
      apply alt_ok in H. inversion H; subst; [by apply Hcat, cat_ok|].
      apply (m_cat _ _ []); [by apply nullable_ok | auto].
    + apply alt_ok in H. inversion H; subst; [apply m_alt_l | apply m_alt_r]; auto.
    + apply cat_ok in H. inversion H; subst. apply (m_star_app _ (c :: _)); auto.
  - intros H. remember (c :: l) as l' eqn:Hl. revert l Hl.
    induction H as [|p d Hp|a b l1 l2 H1 IH1 H2 IH2|a b l1 H1 IH1|a b l1 H1 IH1|a|a l1 l2 H1 IH1 H2 IH2];
      intros l Hl; simplify_eq/=.
    + rewrite Hp. constructor.
    + destruct l1 as [|d l1]; simplify_eq/=.
      * rewrite (proj2 (nullable_ok a) H1). apply alt_ok, m_alt_r. auto.
      * assert (matches (cat (deriv c a) b) (l1 ++ l2)) by (apply cat_ok; constructor; auto).
        destruct (nullable a); [by apply alt_ok, m_alt_l | done].
    + apply alt_ok, m_alt_l. auto.
    + apply alt_ok, m_alt_r. auto.
    + destruct l1 as [|d l1]; simplify_eq/=; [auto|]. apply cat_ok. constructor; auto.
Qed.

Lemma match_chars_ok r l : match_chars r l = true ↔ matches r l.
Proof.
  revert r. induction l as [|c l IH]; intros r; simpl; [apply nullable_ok|].
  by rewrite IH, deriv_ok.
Qed.

Lemma match_string_ok r s : match_string r s = true ↔ matches r (chars s).
Proof. apply match_chars_ok. Qed.

(** Every character of a match comes from one of the pattern's classes. *)
Fixpoint alphabet (r : regex) (c : ascii) : bool :=
  match r with
  | Void | Eps => false
  | Class p => p c
  | Cat a b | Alt a b => alphabet a c || alphabet b c
  | Star a => alphabet a c
  end.

Lemma matches_alphabet r l : matches r l → Forall (λ c, alphabet r c = true) l.
Proof.
  induction 1; simpl; repeat rewrite Forall_app; repeat split; try (by constructor); try done;
    (eapply Forall_impl; [eassumption|]); intros c Hc; simpl in *;
    rewrite ?Hc, ?orb_true_r; done.
Qed.

Lemma has_prefix_chars s p : has_prefix s p = true ↔ chars p `prefix_of` chars s.
Proof.
  revert s. induction p as [|a p IH]; intros s.
  { split; [intros _; by apply prefix_nil | by destruct s]. }
  destruct s as [|b s]; simpl.
  { split; [done|]. intros [k Hk]. done. }
  rewrite andb_true_iff, bool_decide_eq_true, IH. split.
  - intros [-> ?]. by apply prefix_cons.
  - intros Hp. split; [by eapply prefix_cons_inv_1 | by eapply prefix_cons_inv_2].
Qed.

Lemma has_prefix_spec s p : has_prefix s p = true ↔ ∃ t, s = p +:+ t.
Proof.
  rewrite has_prefix_chars. split.
  - intros [k Hk]. exists (of_chars k). apply chars_inj. by rewrite chars_app, chars_of_chars.
  - intros [t ->]. exists (chars t). apply chars_app.
Qed.

Lemma contains_byte_chars c s : contains_byte c s = true ↔ c ∈ chars s.
Proof.
  induction s as [|d s IH]; simpl; [by rewrite elem_of_nil|].
  rewrite orb_true_iff, bool_decide_eq_true, elem_of_cons, IH. naive_solver.
Qed.

Lemma contains_byte_app c s t : contains_byte c (s +:+ t) = contains_byte c s || contains_byte c t.
Proof.
  apply eq_true_iff_eq. by rewrite orb_true_iff, !contains_byte_chars, chars_app, elem_of_app.
Qed.

Lemma contains_any_false s set :
  contains_any s set = false ↔ ∀ c, c ∈ set → contains_byte c s = false.
Proof.
  unfold contains_any. rewrite <- not_true_iff_false, existsb_In. split.
  - intros Hn c Hc. apply not_true_iff_false. rewrite contains_byte_chars. intros Hin.
    apply Hn. exists c. split; [done|]. apply existsb_In. exists c. split; [done|].
    by apply bool_decide_eq_true.
  - intros Hall (c & Hc & (d & Hd & Heq)%existsb_In). apply bool_decide_eq_true in Heq as ->.
    apply Hall in Hd. apply not_true_iff_false in Hd. by rewrite contains_byte_chars in Hd.
Qed.

Lemma str_app_assoc s t u : (s +:+ t) +:+ u = s +:+ t +:+ u.
Proof. apply chars_inj. by rewrite !chars_app, (assoc_L (++)). Qed.
Lemma str_app_nil_r s : s +:+ "" = s.
Proof. apply chars_inj. by rewrite chars_app, app_nil_r. Qed.
Lemma str_app_nil_l s : "" +:+ s = s.
Proof. done. Qed.
Lemma str_app_inj_l s t u : s +:+ t = s +:+ u → t = u.
Proof.
  intros H. apply (f_equal chars) in H. rewrite !chars_app in H. simplify_list_eq. by apply chars_inj.
Qed.

(** Components: strings without the separator. *)
Definition free_of (c : ascii) (s : string) : Prop := contains_byte c s = false.

Lemma split_byte_free c s : Forall (free_of c) (split_byte c s).
Proof.
  induction s as [|d s IH]; simpl; [by repeat constructor|]. unfold is_char.
  case_bool_decide as Hd.
  - by constructor.
  - destruct (split_byte c s) as [|w ws]; inversion IH; subst; constructor; unfold free_of in *; simpl;
      rewrite ?bool_decide_false by congruence; done.
Qed.

Lemma split_byte_not_nil c s : split_byte c s ≠ [].
Proof. destruct s as [|d s]; simpl; [done|]. repeat case_match; done. Qed.

Lemma split_join c s : join (String c "") (split_byte c s) = s.
Proof.
  induction s as [|d s IH]; simpl; [done|]. unfold is_char. case_bool_decide as Hd.
  - subst d. pose proof (split_byte_not_nil c s). destruct (split_byte c s) as [|w ws]; [done|].
    change (String c (join (String c "") (w :: ws)) = String c s). by rewrite IH.
  - pose proof (split_byte_not_nil c s). destruct (split_byte c s) as [|w ws]; [done|].
    rewrite <- IH. by destruct ws.
Qed.

Lemma split_byte_app c w s : free_of c w → split_byte c (w +:+ String c s) = w :: split_byte c s.
Proof.
  induction w as [|d w IH]; intros Hw.
  - simpl. unfold is_char. by rewrite bool_decide_true.
  - unfold free_of in *. simpl in Hw. apply orb_false_iff in Hw as [Hd Hw].
    change (String d w +:+ String c s) with (String d (w +:+ String c s)). simpl.
    unfold is_char. apply bool_decide_eq_false in Hd. rewrite bool_decide_false by congruence.
    by rewrite IH.
Qed.

Lemma split_byte_single c w : free_of c w → split_byte c w = [w].
Proof.
  induction w as [|d w IH]; intros Hw; [done|]. unfold free_of in *. simpl in *.
  apply orb_false_iff in Hw as [Hd Hw]. unfold is_char. apply bool_decide_eq_false in Hd.
  rewrite bool_decide_false by congruence. by rewrite IH.
Qed.

Lemma join_split c l : l ≠ [] → Forall (free_of c) l → split_byte c (join (String c "") l) = l.
Proof.
  intros Hne Hl. induction Hl as [|w l Hw Hl IH]; [done|]. destruct l as [|w' l].
  - by apply split_byte_single.
  - change (join (String c "") (w :: w' :: l)) with (w +:+ String c (join (String c "") (w' :: l))).
    by rewrite split_byte_app, IH.
Qed.

(** ** Bytes as numbers *)
Lemma byte_range c : 0 ≤ byte c < 256.
Proof. unfold byte. pose proof (Strings.Ascii.N_ascii_bounded c). lia. Qed.
Lemma byte_zbyte z : 0 ≤ z < 256 → byte (zbyte z) = z.
Proof. intros Hz. unfold zbyte, byte. rewrite Strings.Ascii.N_ascii_embedding; lia. Qed.
