(* ===== verification/GoPath.v ===== *)
(** * Slash paths (packages path and path/filepath on Unix)

    [Clean], [Join], [Dir], [Base], [Ext], [IsAbs] and [Rel] as their
    documentation states them, with the algebra the components need: absolute
    clean paths are [abs_path] of a list of [normal] components, relative clean
    ones are [rel_path] of some [..]s followed by normal components. *)
From S2P Require Import Prelude GoIO GoString.

Definition slash : ascii := "/"%char.
Definition sep : string := "/".

Definition is_abs (s : string) : bool := has_prefix s "/".

(** One element of the path; [stack] is the cleaned prefix, last element first. *)
Definition clean_step (rooted : bool) (stack : list string) (w : string) : list string :=
  if bool_decide (w = "") || bool_decide (w = ".") then stack
  else if bool_decide (w = "..") then
    match stack with
    | top :: stack' => if bool_decide (top = "..") then ".." :: stack else stack'
    | [] => if rooted then [] else [".."]
    end
  else w :: stack.

Definition clean_comps (rooted : bool) (ws : list string) : list string :=
  reverse (foldl (clean_step rooted) [] ws).

Definition abs_path (l : list string) : string := "/" +:+ join sep l.
Definition rel_path (l : list string) : string :=
  match l with [] => "." | _ => join sep l end.

(** [path.Clean], [filepath.Clean]. *)
Definition clean (s : string) : string :=
  if bool_decide (s = "") then "."
  else let l := clean_comps (is_abs s) (split_byte slash s) in
       if is_abs s then abs_path l else rel_path l.

(** [path.Join], [filepath.Join]. *)
Fixpoint path_join (elems : list string) : string :=
  match elems with
  | [] => ""
  | e :: rest => if bool_decide (e = "") then path_join rest else clean (join sep elems)
  end.

(** [filepath.Dir], [path.Dir]. *)
Definition dir (s : string) : string :=
  clean (take_str (Z.to_nat (last_index_byte slash s + 1)) s).

(** [filepath.Base]. *)
Definition base (s : string) : string :=
  if bool_decide (s = "") then "."
  else let s := trim_right [slash] s in
       let s := drop_str (Z.to_nat (last_index_byte slash s + 1)) s in
       if bool_decide (s = "") then "/" else s.

(** [filepath.Ext]. *)
Definition ext (s : string) : string :=
  let dot := last_index_byte "."%char s in
  if (dot <? 0) || (dot <? last_index_byte slash s) then ""
  else drop_str (Z.to_nat dot) s.

(** The elements of a clean path. *)
Definition comps (s : string) : list string :=
  filter (λ w, w ≠ "" ∧ w ≠ ".") (split_byte slash s).

Fixpoint strip_common (b t : list string) : list string * list string :=
  match b, t with
  | x :: b', y :: t' => if bool_decide (x = y) then strip_common b' t' else (b, t)
  | _, _ => (b, t)
  end.

(** [filepath.Rel]. *)
Definition rel (basepath targpath : string) : result string :=
  let b := clean basepath in
  let t := clean targpath in
  let fail := Err (Errorf "Rel: can't make %s relative to %s" [FStr targpath; FStr basepath]) in
  if negb (Bool.eqb (is_abs b) (is_abs t)) then fail
  else let '(b', t') := strip_common (comps b) (comps t) in
       match b' with
       | w :: _ => if bool_decide (w = "..") then fail
                   else Ok (rel_path (((λ _, "..") <$> b') ++ t'))
       | [] => Ok (rel_path t')
       end.

(** ** Normal components and clean paths *)
Record normal (w : string) : Prop := {
  normal_empty : w ≠ "";
  normal_dot : w ≠ ".";
  normal_dotdot : w ≠ "..";
  normal_free : free_of slash w
}.

#[export] Instance normal_dec w : Decision (normal w).
Proof.
  destruct (decide (w ≠ "" ∧ w ≠ "." ∧ w ≠ ".." ∧ contains_byte slash w = false)) as [H|H].
  - left. destruct H as (?&?&?&?). by constructor.
  - right. intros [? ? ? ?]. apply H. auto.
Defined.

Definition dotdots (k : nat) : list string := replicate k "..".

Lemma dotdot_free : free_of slash "..".
Proof. done. Qed.

Lemma clean_step_normal rooted st w : normal w → clean_step rooted st w = w :: st.
Proof.
  intros [? ? ? ?]. unfold clean_step. by rewrite !bool_decide_false by done.
Qed.

Lemma foldl_clean_normal rooted st l :
  Forall normal l → foldl (clean_step rooted) st l = reverse l ++ st.
Proof.
  intros Hl. revert st. induction Hl as [|w l Hw _ IH]; intros st; [done|]. simpl.
  rewrite clean_step_normal, IH, reverse_cons by done. by rewrite <- (assoc_L (++)).
Qed.

Lemma foldl_clean_dotdots k j : foldl (clean_step false) (dotdots j) (dotdots k) = dotdots (j + k).
Proof.
  revert j. induction k as [|k IH]; intros j; simpl; [by rewrite Nat.add_0_r|].
  assert (clean_step false (dotdots j) ".." = dotdots (S j)) as -> by (by destruct j).
  rewrite IH. f_equal. lia.
Qed.

Lemma reverse_dotdots k : reverse (dotdots k) = dotdots k.
Proof. apply reverse_replicate. Qed.

(** Cleaning yields [..]s (only for a relative path) and then normal components. *)
Lemma foldl_clean_shape rooted ws k l :
  Forall (free_of slash) ws → Forall normal l → (rooted = true → k = 0%nat) →
  ∃ k' l', foldl (clean_step rooted) (reverse l ++ dotdots k) ws = reverse l' ++ dotdots k' ∧
           Forall normal l' ∧ (rooted = true → k' = 0%nat).
Proof.
  intros Hws. revert k l. induction Hws as [|w ws Hw _ IH]; intros k l Hl Hk; [by exists k, l|].
  simpl. unfold clean_step at 1 2. destruct (bool_decide (w = "")) eqn:E1; [by apply IH|].
  destruct (bool_decide (w = ".")) eqn:E2; [by apply IH|]. simpl.
  apply bool_decide_eq_false in E1, E2. case_bool_decide as E3.
  - destruct l as [|x l _] using rev_ind.
    + simpl. destruct k as [|k]; simpl.
      * destruct rooted; [by apply (IH 0%nat [])|]. by apply (IH 1%nat []).
      * destruct rooted; [by specialize (Hk eq_refl)|]. by apply (IH (S (S k)) []).
    + apply Forall_app in Hl as [Hl Hx]. rewrite Forall_singleton in Hx. rewrite reverse_app. simpl.
      rewrite bool_decide_false by apply Hx. by apply IH.
  - replace (w :: reverse l ++ dotdots k) with (reverse (l ++ [w]) ++ dotdots k)
      by by rewrite reverse_app.
    apply IH; [|done]. apply Forall_app. split; [done|]. by repeat constructor.
Qed.

Lemma clean_comps_shape rooted ws :
  Forall (free_of slash) ws →
  ∃ k l, clean_comps rooted ws = dotdots k ++ l ∧ Forall normal l ∧ (rooted = true → k = 0%nat).
Proof.
  intros Hws. destruct (foldl_clean_shape rooted ws 0 [] Hws) as (k & l & Heq & Hl & Hk); [done..|].
  exists k, l. unfold clean_comps.
  assert (foldl (clean_step rooted) [] ws = reverse l ++ dotdots k) as -> by exact Heq.
  rewrite reverse_app, reverse_involutive, reverse_dotdots.
  done.
Qed.

Lemma clean_abs s : is_abs s = true → ∃ l, clean s = abs_path l ∧ Forall normal l.
Proof.
  intros Ha. unfold clean. rewrite Ha. case_bool_decide; [by subst|].
  destruct (clean_comps_shape true (split_byte slash s)) as (k & l & -> & Hl & Hk);
    [apply split_byte_free|]. exists l. by rewrite (Hk eq_refl).
Qed.

Lemma clean_relative s :
  is_abs s = false → ∃ k l, clean s = rel_path (dotdots k ++ l) ∧ Forall normal l.
Proof.
  intros Ha. unfold clean. rewrite Ha. case_bool_decide; [by exists 0%nat, []|].
  destruct (clean_comps_shape false (split_byte slash s)) as (k & l & -> & Hl & _);
    [apply split_byte_free|]. by exists k, l.
Qed.

Lemma is_abs_abs_path l : is_abs (abs_path l) = true.
Proof. apply has_prefix_spec. by eexists. Qed.

Definition plain (l : list string) : Prop := Forall (λ w, w ≠ "" ∧ w ≠ "." ∧ free_of slash w) l.

Lemma plain_normal l : Forall normal l → plain l.
Proof. intros Hl. eapply Forall_impl; [exact Hl|]. by intros w []. Qed.
Lemma plain_dotdots k l : Forall normal l → plain (dotdots k ++ l).
Proof.
  intros Hl. apply Forall_app. split; [|by apply plain_normal]. by apply Forall_replicate.
Qed.

Lemma is_abs_rel_path l : plain l → is_abs (rel_path l) = false.
Proof.
  intros Hl. destruct Hl as [|w l (Hne & _ & Hf) _]; [done|]. destruct w as [|d w]; [done|].
  unfold free_of in Hf. simpl in Hf. apply orb_false_iff in Hf as [Hd%bool_decide_eq_false _].
  unfold is_abs, rel_path. destruct l; simpl; rewrite bool_decide_false by (intros <-; by apply Hd); done.
Qed.

Lemma split_abs_path l : Forall (free_of slash) l →
  split_byte slash (abs_path l) = "" :: match l with [] => [""] | _ => l end.
Proof.
  intros Hl. unfold abs_path. change ("/" +:+ ?x) with (String slash x). simpl. f_equal.
  destruct l as [|w l]; [done|]. by apply join_split.
Qed.

Lemma split_rel_path l : plain l → split_byte slash (rel_path l) = match l with [] => ["."] | _ => l end.
Proof.
  intros Hl. destruct l as [|w l]; [done|]. apply join_split; [done|].
  eapply Forall_impl; [exact Hl|]. by intros ? (?&?&?).
Qed.

Lemma normal_free_all l : Forall normal l → Forall (free_of slash) l.
Proof. intros Hl. eapply Forall_impl; [exact Hl|]. by intros w []. Qed.

Lemma rel_path_not_empty l : plain l → rel_path l ≠ "".
Proof.
  intros Hl. destruct Hl as [|w l (? & _) _]; [done|]. destruct w; [done|].
  unfold rel_path. by destruct l.
Qed.

Lemma is_abs_cons c w : is_abs (String c w) = bool_decide (slash = c).
Proof. unfold is_abs. simpl. destruct w; by rewrite andb_true_r. Qed.

Lemma rel_path_app l s : plain l → rel_path l +:+ s ≠ "" ∧ is_abs (rel_path l +:+ s) = false.
Proof.
  intros Hl. pose proof (rel_path_not_empty l Hl) as Hne. pose proof (is_abs_rel_path l Hl) as Ha.
  destruct (rel_path l) as [|c w]; [done|]. split; [done|].
  change (String c w +:+ s) with (String c (w +:+ s)). by rewrite is_abs_cons in *.
Qed.

Lemma clean_abs_path l : Forall normal l → clean (abs_path l) = abs_path l.
Proof.
  intros Hl. unfold clean. rewrite bool_decide_false by done. rewrite is_abs_abs_path.
  rewrite split_abs_path by by apply normal_free_all. unfold clean_comps. simpl. f_equal.
  destruct l as [|w l]; [done|].
  by rewrite foldl_clean_normal, app_nil_r, reverse_involutive.
Qed.

Lemma clean_rel_path k l : Forall normal l → clean (rel_path (dotdots k ++ l)) = rel_path (dotdots k ++ l).
Proof.
  intros Hl. pose proof (plain_dotdots k l Hl) as Hp. unfold clean.
  rewrite bool_decide_false by by apply rel_path_not_empty.
  rewrite is_abs_rel_path by done. rewrite split_rel_path by done. f_equal.
  unfold clean_comps. destruct (dotdots k ++ l) as [|w ws] eqn:E; [done|]. rewrite <- E.
  rewrite foldl_app.
  assert (foldl (clean_step false) [] (dotdots k) = dotdots k) as -> by apply (foldl_clean_dotdots k 0).
  rewrite foldl_clean_normal by done.
  by rewrite reverse_app, reverse_involutive, reverse_dotdots.
Qed.

Lemma clean_rel_normal l : Forall normal l → clean (rel_path l) = rel_path l.
Proof. exact (clean_rel_path 0 l). Qed.

(** [Clean] is idempotent. *)
Lemma clean_idemp s : clean (clean s) = clean s.
Proof.
  destruct (is_abs s) eqn:Ha.
  - destruct (clean_abs s Ha) as (l & -> & Hl). by apply clean_abs_path.
  - destruct (clean_relative s Ha) as (k & l & -> & Hl). by apply clean_rel_path.
Qed.

Lemma filter_plain l : plain l → filter (λ w, w ≠ "" ∧ w ≠ ".") l = l.
Proof. intros Hl. apply list_filter_all. eapply Forall_impl; [exact Hl|]. naive_solver. Qed.

Lemma comps_abs_path l : Forall normal l → comps (abs_path l) = l.
Proof.
  intros Hl. unfold comps. rewrite split_abs_path by by apply normal_free_all.
  destruct l as [|w l]; [done|]. rewrite filter_cons_False by naive_solver.
  by apply filter_plain, plain_normal.
Qed.

Lemma comps_rel_path l : plain l → comps (rel_path l) = l.
Proof.
  intros Hl. unfold comps. rewrite split_rel_path by done.
  destruct l as [|w l]; [done|]. by apply filter_plain.
Qed.

Lemma abs_path_inj l k : Forall normal l → Forall normal k → abs_path l = abs_path k → l = k.
Proof. intros Hl Hk H. by rewrite <- (comps_abs_path l Hl), H, comps_abs_path. Qed.

(** ** Join, Rel, Dir and Base on clean paths *)
Lemma split_byte_cat c s t :
  split_byte c (s +:+ String c t) = split_byte c s ++ split_byte c t.
Proof.
  rewrite <- (split_join c s) at 1. pose proof (split_byte_not_nil c s) as Hne.
  pose proof (split_byte_free c s) as Hf. induction Hf as [|w ws Hw Hws IH]; [done|].
  destruct ws as [|w' ws]; [by apply split_byte_app|].
  change (join (String c "") (w :: w' :: ws)) with (w +:+ String c (join (String c "") (w' :: ws))).
  rewrite str_app_assoc.
  change (String c (join (String c "") (w' :: ws)) +:+ String c t)
    with (String c (join (String c "") (w' :: ws) +:+ String c t)).
  rewrite split_byte_app, IH by done. done.
Qed.

(** Where the kernel and [Clean] agree: components walked from [r]. *)
Definition walk_clean (r : list string) (ws : list string) : list string :=
  reverse (foldl (clean_step true) (reverse r) ws).

Lemma foldl_clean_root r ws :
  Forall normal r → foldl (clean_step true) [] (split_byte slash (abs_path r) ++ ws)
  = foldl (clean_step true) (reverse r) ws.
Proof.
  intros Hr. rewrite foldl_app, split_abs_path by by apply normal_free_all.
  destruct r as [|w r]; [done|].
  change (foldl (clean_step true) (foldl (clean_step true) [] (w :: r)) ws
          = foldl (clean_step true) (reverse (w :: r)) ws).
  by rewrite (foldl_clean_normal true []), app_nil_r.
Qed.

Lemma path_join_abs r s :
  Forall normal r → path_join [abs_path r; s] = abs_path (walk_clean r (split_byte slash s)).
Proof.
  intros Hr. unfold path_join. rewrite bool_decide_false by done.
  change (join sep [abs_path r; s]) with (abs_path r +:+ String slash s).
  unfold clean. rewrite bool_decide_false by (unfold abs_path; done).
  assert (is_abs (abs_path r +:+ String slash s) = true) as ->.
  { apply has_prefix_spec. unfold abs_path. rewrite str_app_assoc. by eexists. }
  unfold clean_comps. rewrite split_byte_cat, foldl_clean_root by done. done.
Qed.

Lemma walk_clean_normal r t : Forall normal t → walk_clean r t = r ++ t.
Proof.
  intros Ht. unfold walk_clean. by rewrite foldl_clean_normal, reverse_app, !reverse_involutive.
Qed.

Lemma path_join_rel_path r t :
  Forall normal r → Forall normal t → path_join [abs_path r; rel_path t] = abs_path (r ++ t).
Proof.
  intros Hr Ht. rewrite path_join_abs, split_rel_path by (done || by apply plain_normal).
  destruct t as [|w t]; [|by rewrite walk_clean_normal].
  rewrite app_nil_r. f_equal. apply reverse_involutive.
Qed.

Lemma rel_path_single w : rel_path [w] = w.
Proof. done. Qed.

(** Joining one normal component. *)
Lemma path_join_child r w :
  Forall normal r → normal w → path_join [abs_path r; w] = abs_path (r ++ [w]).
Proof. intros Hr Hw. apply (path_join_rel_path r [w]); [done|]. by constructor. Qed.

Lemma strip_common_app r t : strip_common r (r ++ t) = ([], t).
Proof. induction r as [|w r IH]; simpl; [by destruct t|]. by rewrite bool_decide_true. Qed.

Lemma strip_common_spec b t b' t' :
  strip_common b t = (b', t') → ∃ p, b = p ++ b' ∧ t = p ++ t'.
Proof.
  revert t. induction b as [|x b IH]; intros [|y t] H; simplify_eq/=; try (by exists []).
  case_bool_decide; simplify_eq; [|by exists []].
  destruct (IH _ H) as (p & -> & ->). by exists (y :: p).
Qed.

Lemma strip_common_nil b t b' t' : strip_common b t = (b', t') → (b' = [] ↔ b `prefix_of` t).
Proof.
  intros H. split.
  - intros ->. apply strip_common_spec in H as (p & -> & ->). rewrite app_nil_r. by eexists.
  - intros [k ->]. rewrite strip_common_app in H. by simplify_eq.
Qed.

Lemma fmap_dotdots (l : list string) : (λ _, "..") <$> l = dotdots (length l).
Proof. induction l as [|w l IH]; csimpl; [done|]. by rewrite IH. Qed.

Lemma rel_abs_split r t :
  Forall normal r → Forall normal t →
  ∃ p d t', r = p ++ d ∧ t = p ++ t' ∧
    rel (abs_path r) (abs_path t) = Ok (rel_path (dotdots (length d) ++ t')).
Proof.
  intros Hr Ht. unfold rel. rewrite !clean_abs_path, !is_abs_abs_path, !comps_abs_path by done. simpl.
  destruct (strip_common r t) as [d t'] eqn:E. apply strip_common_spec in E as (p & -> & ->).
  exists p, d, t'. split; [done|]. split; [done|].
  destruct d as [|w d]; [done|]. apply Forall_app in Hr as [_ Hr].
  rewrite bool_decide_false by (inversion Hr as [|? ? Hw]; apply Hw). by rewrite fmap_dotdots.
Qed.

Lemma rel_abs r t :
  Forall normal r → Forall normal t →
  ∃ k t', rel (abs_path r) (abs_path t) = Ok (rel_path (dotdots k ++ t')) ∧
    Forall normal t' ∧ (k = 0%nat ↔ r `prefix_of` t) ∧ (k = 0%nat → t = r ++ t').
Proof.
  intros Hr Ht. unfold rel. rewrite !clean_abs_path, !is_abs_abs_path, !comps_abs_path by done. simpl.
  destruct (strip_common r t) as [b' t'] eqn:E.
  pose proof (strip_common_nil _ _ _ _ E) as Hnil. apply strip_common_spec in E as (p & -> & ->).
  apply Forall_app in Hr as [_ Hb], Ht as [_ Ht]. exists (length b'), t'.
  destruct b' as [|w b'].
  - split_and!; [done|done|naive_solver|by rewrite app_nil_r].
  - rewrite bool_decide_false by (inversion Hb as [|? ? Hw]; subst; apply Hw).
    rewrite fmap_dotdots. split_and!; [done|done|naive_solver|done].
Qed.

Lemma rel_child r t :
  Forall normal r → Forall normal t → rel (abs_path r) (abs_path (r ++ t)) = Ok (rel_path t).
Proof.
  intros Hr Ht. destruct (rel_abs r (r ++ t)) as (k & t' & -> & _ & [_ Hk] & Heq);
    [done|by apply Forall_app|].
  rewrite Hk in * by by eexists. specialize (Heq eq_refl). by simplify_list_eq.
Qed.

(** The test by which the code recognises a relative path that leaves its base. *)
Definition escapes (s : string) : bool := bool_decide (s = "..") || has_prefix s "../".

Lemma rel_path_cons w l : l ≠ [] → rel_path (w :: l) = w +:+ String slash (rel_path l).
Proof. by destruct l. Qed.

Lemma normal_first_dotdot w s : normal w → has_prefix (w +:+ String slash s) "../" = false.
Proof.
  intros [? ? ? Hf]. apply not_true_iff_false. intros [t Ht]%has_prefix_spec.
  apply (f_equal (split_byte slash)) in Ht. rewrite split_byte_app in Ht by done.
  change ("../" +:+ t) with (".." +:+ String slash t) in Ht.
  rewrite split_byte_app in Ht by done. by simplify_eq.
Qed.

Lemma escapes_rel_path k l : Forall normal l → escapes (rel_path (dotdots k ++ l)) = negb (k =? 0)%nat.
Proof.
  intros Hl. unfold escapes. destruct k as [|k].
  - change (dotdots 0 ++ l) with l. change (negb (0 =? 0)%nat) with false.
    destruct Hl as [|w l Hw Hl]; [done|].
    apply orb_false_iff. split.
    + apply bool_decide_eq_false. intros Heq. destruct l as [|w' l].
      * by apply (normal_dotdot w).
      * rewrite rel_path_cons in Heq by done. apply (f_equal (split_byte slash)) in Heq.
        rewrite split_byte_app in Heq by apply Hw. change (split_byte slash "..") with [".."] in Heq. simplify_eq. by destruct Hw.
    + destruct l as [|w' l].
      * apply not_true_iff_false. intros [t Ht]%has_prefix_spec. simpl in Ht. subst w.
        destruct Hw as [_ _ _ Hf]. unfold free_of in Hf. rewrite contains_byte_app in Hf. done.
      * rewrite rel_path_cons by done. by apply normal_first_dotdot.
  - change (dotdots (S k) ++ l) with (".." :: (dotdots k ++ l)). apply orb_true_iff.
    destruct (dotdots k ++ l) as [|w' l']; [by left|]. right.
    apply has_prefix_spec. rewrite rel_path_cons by done. by exists (rel_path (w' :: l')).
Qed.
(** A relative path that does not escape leads below its base. *)
Lemma not_escaping_prefix l t r :
  Forall normal l → Forall normal t → rel (abs_path l) (abs_path t) = Ok r → escapes r = false → l `prefix_of` t.
Proof.
  intros Hl Ht Hr. destruct (rel_abs l t) as (k & t' & Hr' & Ht' & Hk & _); [done..|].
  rewrite Hr' in Hr. injection Hr as <-. rewrite escapes_rel_path by done. intros He. apply Hk. by destruct k.
Qed.

Lemma last_index_byte_free c s : free_of c s → last_index_byte c s = -1.
Proof.
  unfold free_of. induction s as [|d s IH]; [done|]. simpl. intros [Hd Hs]%orb_false_iff.
  rewrite IH by done. simpl. apply bool_decide_eq_false in Hd. unfold is_char.
  by rewrite bool_decide_false by congruence.
Qed.

Lemma last_index_byte_last c s w :
  free_of c w → last_index_byte c (s +:+ String c w) = slen s.
Proof.
  intros Hw. induction s as [|d s IH].
  - simpl. rewrite last_index_byte_free by done. simpl. unfold is_char. by rewrite bool_decide_true.
  - change (String d s +:+ ?x) with (String d (s +:+ x)). simpl. rewrite IH.
    rewrite slen_cons. pose proof (slen_nonneg s). replace (0 <=? slen s) with true by lia. done.
Qed.

Lemma take_str_app s t : take_str (String.length s) (s +:+ t) = s.
Proof.
  apply chars_inj. unfold take_str. rewrite chars_of_chars, chars_app, <- length_chars. apply take_app_length.
Qed.
Lemma drop_str_app s t : drop_str (String.length s) (s +:+ t) = t.
Proof.
  apply chars_inj. unfold drop_str. rewrite chars_of_chars, chars_app, <- length_chars. apply drop_app_length.
Qed.

Lemma join_snoc x r w : join sep ((x :: r) ++ [w]) = join sep (x :: r) +:+ String slash w.
Proof.
  revert x. induction r as [|y r IH]; intros x; [done|].
  change (join sep ((x :: y :: r) ++ [w])) with (x +:+ String slash (join sep ((y :: r) ++ [w]))).
  rewrite IH. change (join sep (x :: y :: r)) with (x +:+ String slash (join sep (y :: r))).
  by rewrite str_app_assoc.
Qed.

Lemma abs_path_snoc r w :
  abs_path (r ++ [w]) = (match r with [] => "" | _ => abs_path r end) +:+ String slash w.
Proof.
  destruct r as [|x r]; [done|]. unfold abs_path. by rewrite join_snoc, str_app_assoc.
Qed.

Lemma dir_abs_path r w : Forall normal r → normal w → dir (abs_path (r ++ [w])) = abs_path r.
Proof.
  intros Hr Hw. unfold dir. rewrite abs_path_snoc, last_index_byte_last by apply Hw.
  set (p := match r with [] => "" | _ => abs_path r end).
  assert (take_str (Z.to_nat (slen p + 1)) (p +:+ String slash w) = p +:+ "/") as ->.
  { change (String slash w) with ("/" +:+ w). rewrite <- str_app_assoc.
    replace (Z.to_nat (slen p + 1)) with (String.length (p +:+ "/")).
    - apply take_str_app.
    - rewrite <- !length_chars, chars_app, length_app. unfold slen. rewrite <- length_chars. simpl. lia. }
  unfold p. destruct r as [|x r]; [done|].
  pose proof (path_join_abs (x :: r) "" Hr) as Hj. unfold path_join in Hj.
  rewrite bool_decide_false in Hj by done.
  change (join sep [abs_path (x :: r); ""]) with (abs_path (x :: r) +:+ "/") in Hj. rewrite Hj.
  f_equal. exact (reverse_involutive (x :: r)).
Qed.

(** ** Base names *)
Lemma trim_right_free s w : w ≠ "" → free_of slash w → trim_right [slash] (s +:+ w) = s +:+ w.
Proof.
  intros Hne Hw. apply chars_inj. unfold trim_right, drop_while_end. rewrite chars_of_chars, chars_app.
  assert (∃ l c, chars w = l ++ [c]) as (l & c & Hc).
  { assert (chars w ≠ []) as Hn by (intros E; by apply Hne, chars_inj).
    destruct (chars w) as [|a l _] using rev_ind; [done|by eauto]. }
  assert (in_set [slash] c = false) as Hs.
  { apply not_true_iff_false. unfold in_set, is_char. simpl. rewrite orb_false_r, bool_decide_eq_true.
    intros Hc0; subst c. apply not_true_iff_false in Hw. apply Hw, contains_byte_chars. rewrite Hc. set_solver. }
  rewrite Hc, (assoc_L (++)), reverse_snoc. cbn [drop_while]. rewrite Hs.
  by rewrite reverse_cons, reverse_involutive.
Qed.

Lemma base_normal w : normal w → base w = w.
Proof.
  intros [Hne _ _ Hf]. unfold base. rewrite bool_decide_false by done.
  pose proof (trim_right_free "" w Hne Hf) as Ht. change ("" +:+ w) with w in Ht. rewrite Ht.
  rewrite last_index_byte_free by done. change (Z.to_nat (-1 + 1)) with 0%nat.
  assert (drop_str 0 w = w) as -> by (unfold drop_str; by rewrite drop_0, of_chars_chars).
  by rewrite bool_decide_false.
Qed.

Lemma base_abs_path l w : normal w → base (abs_path (l ++ [w])) = w.
Proof.
  intros [Hne _ _ Hf]. unfold base. rewrite bool_decide_false by done. rewrite abs_path_snoc.
  set (p := match l with [] => "" | _ => abs_path l end).
  change (String slash w) with ("/" +:+ w). rewrite <- str_app_assoc, trim_right_free by done.
  rewrite str_app_assoc. change ("/" +:+ w) with (String slash w). rewrite last_index_byte_last by done.
  replace (Z.to_nat (slen p + 1)) with (String.length (p +:+ "/")).
  2:{ pose proof (slen_app p "/") as Hs. change (slen "/") with 1 in Hs. unfold slen in *. lia. }
  change (String slash w) with ("/" +:+ w). rewrite <- str_app_assoc, drop_str_app.
  by rewrite bool_decide_false.
Qed.
