(* ===== verification/OS.v ===== *)
(** * The operating system as the code sees it (packages os, io/fs)

    The file system is a finite map from locations (absolute component lists)
    to nodes; [walk] is the kernel's path resolution with symbolic links.
    Every system call may also fail for a reason outside the model (I/O errors,
    permissions, a full disk): the fault schedule [faults] says which call
    fails, with which text and, for a write, after how many bytes, so that
    statements quantified over the state cover every such failure.  No other
    process changes the tree between two calls. *)
From S2P Require Import Prelude GoIO GoString GoPath.

Inductive kind :=
  | KReg (content : bytes)
  | KDir
  | KSymlink (target : string)
  | KOther.

#[export] Instance kind_eq_dec : EqDecision kind.
Proof. solve_decision. Defined.

Record node := Node {
  n_kind : kind;
  n_uid : Z;
  n_gid : Z;
  n_perm : Z;
  n_setgid : bool;
  n_sticky : bool
}.

Definition is_dir (n : node) : bool := match n_kind n with KDir => true | _ => false end.
Definition is_regular (n : node) : bool := match n_kind n with KReg _ => true | _ => false end.
Definition is_symlink (n : node) : bool := match n_kind n with KSymlink _ => true | _ => false end.
Definition node_size (n : node) : Z := match n_kind n with KReg c => blen c | _ => 0 end.

Abbreviation location := (list string).
Abbreviation filesystem :=
  (@gmap (list string) (@list_eq_dec string String.eq_dec)
     (@list_countable string String.eq_dec String.countable) node).

Record os := OS {
  fs : filesystem;
  cwd : location;
  euid : Z;
  egid : Z;
  umask : Z;
  faults : nat → option (string * nat);
  tick : nat
}.

Definition set_fs (m : filesystem) (w : os) : os :=
  {| fs := m; cwd := cwd w; euid := euid w; egid := egid w; umask := umask w;
     faults := faults w; tick := tick w |}.
Definition ticked (w : os) : os :=
  {| fs := fs w; cwd := cwd w; euid := euid w; egid := egid w; umask := umask w;
     faults := faults w; tick := S (tick w) |}.

Definition ENOENT : goerr := Sentinel ErrNotExist.
Definition EEXIST : goerr := Sentinel ErrExist.
Definition ENOTDIR : goerr := External "not a directory".
Definition EISDIR : goerr := External "is a directory".
Definition ENOTEMPTY : goerr := External "directory not empty".
Definition ELOOP : goerr := External "too many levels of symbolic links".

(** ** Path resolution *)
Definition parent (l : location) : location := take (length l - 1) l.

(** [cur] is a directory; the result is the location the path denotes, which
    may be vacant in an existing directory.  [links] bounds the symbolic links
    followed. *)
Fixpoint walk (links : nat) (m : filesystem) (follow : bool)
    : location → list string → result location :=
  fix go (cur : location) (todo : list string) : result location :=
    match todo with
    | [] => Ok cur
    | w :: rest =>
        if bool_decide (w = "") || bool_decide (w = ".") then go cur rest
        else if bool_decide (w = "..") then go (parent cur) rest
        else
          let loc := cur ++ [w] in
          match m !! loc with
          | None => if bool_decide (rest = []) then Ok loc else Err ENOENT
          | Some n =>
              match n_kind n with
              | KDir => go loc rest
              | KSymlink t =>
                  if bool_decide (rest = []) && negb follow then Ok loc else
                  match links with
                  | O => Err ELOOP
                  | S links =>
                      walk links m follow (if is_abs t then [] else cur)
                        (split_byte slash t ++ rest)
                  end
              | _ => if bool_decide (rest = []) then Ok loc else Err ENOTDIR
              end
          end
    end.

Definition max_links : nat := 40.

Definition resolve (follow : bool) (p : string) (w : os) : result location :=
  if bool_decide (p = "") then Err ENOENT else
  walk max_links (fs w) follow (if is_abs p then [] else cwd w) (split_byte slash p).

(** ** System calls *)
Definition sys {A} (f : os → result (A * filesystem)) : M os A := λ w,
  match faults w (tick w) with
  | Some (e, _) => (Err (External e), ticked w)
  | None =>
      match f w with
      | Ok (a, m) => (Ok a, ticked (set_fs m w))
      | Err e => (Err e, ticked w)
      end
  end.

(** [os.Lstat], [os.Stat]. *)
Definition stat_with (follow : bool) (p : string) : M os node :=
  sys (λ w, loc ← resolve follow p w; n ← of_option ENOENT (fs w !! loc); Ok (n, fs w)).
Definition lstat : string → M os node := stat_with false.
Definition stat : string → M os node := stat_with true.

(** [filepath.Abs]. *)
Definition abs (p : string) (w : os) : string :=
  if is_abs p then clean p else path_join [abs_path (cwd w); p].

(** [filepath.EvalSymlinks] on an absolute path: the location with every link
    resolved; the file must exist. *)
Definition eval_symlinks (p : string) : M os string :=
  sys (λ w, loc ← walk 255 (fs w) true (if is_abs p then [] else cwd w) (split_byte slash p);
            n ← (if bool_decide (loc = []) then Ok () else _ ← of_option ENOENT (fs w !! loc); Ok ());
            Ok (abs_path loc, fs w)).

(** A node created in the directory at [loc]'s parent. *)
Definition fresh (w : os) (loc : location) (k : kind) (perm : Z) : node :=
  let parent_setgid := match fs w !! parent loc with Some n => n_setgid n | None => false end in
  {| n_kind := k; n_uid := euid w;
     n_gid := if parent_setgid then match fs w !! parent loc with Some n => n_gid n | None => egid w end
              else egid w;
     n_perm := Z.land perm (Z.lnot (umask w));
     n_setgid := match k with KDir => parent_setgid | _ => false end;
     n_sticky := false |}.

(** [os.Mkdir]. *)
Definition mkdir (p : string) (perm : Z) : M os unit :=
  sys (λ w, loc ← resolve false p w;
            _ ← fail_if (bool_decide (is_Some (fs w !! loc)) || bool_decide (loc = [])) EEXIST;
            Ok ((), <[loc := fresh w loc KDir perm]> (fs w))).

(** [os.Symlink]. *)
Definition symlink (target p : string) : M os unit :=
  sys (λ w, loc ← resolve false p w;
            _ ← fail_if (bool_decide (is_Some (fs w !! loc)) || bool_decide (loc = [])) EEXIST;
            Ok ((), <[loc := fresh w loc (KSymlink target) 511]> (fs w))).

Definition has_children (m : filesystem) (loc : location) : bool :=
  existsb (λ kn : location * node, bool_decide (loc `prefix_of` kn.1 ∧ loc ≠ kn.1)) (map_to_list m).

(** [os.Remove]: a file, a link or an empty directory. *)
Definition remove (p : string) : M os unit :=
  sys (λ w, loc ← resolve false p w;
            n ← of_option ENOENT (fs w !! loc);
            _ ← fail_if (is_dir n && has_children (fs w) loc) ENOTEMPTY;
            Ok ((), delete loc (fs w))).

Definition drop_tree (loc : location) (m : filesystem) : filesystem :=
  filter (λ kn : location * node, ¬ loc `prefix_of` kn.1) m.

(** [os.RemoveAll]: the tree at the path, whose last element is not followed;
    nothing happens when it does not exist. *)
Definition remove_all (p : string) : M os unit :=
  sys (λ w, match resolve false p w with
            | Ok loc => if bool_decide (loc = []) then Err (External "cannot remove root")
                        else Ok ((), drop_tree loc (fs w))
            | Err e => if errors_is ErrNotExist e then Ok ((), fs w) else Err e
            end).

(** [os.OpenFile(p, O_CREATE|O_EXCL|O_WRONLY, perm)]: the location stands for
    the open file. *)
Definition open_excl (p : string) (perm : Z) : M os location :=
  sys (λ w, loc ← resolve false p w;
            _ ← fail_if (bool_decide (is_Some (fs w !! loc)) || bool_decide (loc = [])) EEXIST;
            Ok (loc, <[loc := fresh w loc (KReg []) perm]> (fs w))).

Definition append_node (data : bytes) (n : node) : node :=
  {| n_kind := match n_kind n with KReg c => KReg (c ++ data) | k => k end;
     n_uid := n_uid n; n_gid := n_gid n; n_perm := n_perm n;
     n_setgid := n_setgid n; n_sticky := n_sticky n |}.

(** Writing a whole slice to an open file: a failing write may have stored a
    prefix. *)
Definition write_open (loc : location) (data : bytes) : M os unit := λ w,
  match faults w (tick w) with
  | Some (e, n) => (Err (External e), ticked (set_fs (alter (append_node (take n data)) loc (fs w)) w))
  | None => (Ok (), ticked (set_fs (alter (append_node data) loc (fs w)) w))
  end.

Definition close_open (loc : location) : M os unit := sys (λ w, Ok ((), fs w)).

(** [os.ReadFile] / an open file read to its end. *)
Definition read_file (p : string) : M os bytes :=
  sys (λ w, loc ← resolve true p w; n ← of_option ENOENT (fs w !! loc);
            match n_kind n with
            | KReg c => Ok (c, fs w)
            | KDir => Err EISDIR
            | _ => Err (External "not readable")
            end).

Definition set_perm (perm : Z) (setgid sticky : bool) (n : node) : node :=
  {| n_kind := n_kind n; n_uid := n_uid n; n_gid := n_gid n; n_perm := perm;
     n_setgid := setgid; n_sticky := sticky |}.

(** [os.Chmod]. *)
Definition chmod (p : string) (perm : Z) (setgid sticky : bool) : M os unit :=
  sys (λ w, loc ← resolve true p w; n ← of_option ENOENT (fs w !! loc);
            Ok ((), <[loc := set_perm perm setgid sticky n]> (fs w))).

(** [os.ReadDir]: the names of the direct children, sorted. *)
Definition child_name (loc : location) (k : location) : option string :=
  match drop (length loc) k with
  | [w] => if bool_decide (loc `prefix_of` k) then Some w else None
  | _ => None
  end.
#[export] Instance string_le_dec s t : Decision (string_le s t).
Proof. unfold string_le. apply _. Defined.
Definition sort_strings (l : list string) : list string := merge_sort string_le l.
Definition children (m : filesystem) (loc : location) : list string :=
  sort_strings (omap (λ kn : location * node, child_name loc kn.1) (map_to_list m)).
Definition read_dir (p : string) : M os (list string) :=
  sys (λ w, loc ← resolve true p w; n ← of_option ENOENT (fs w !! loc);
            if is_dir n then Ok (children (fs w) loc, fs w) else Err ENOTDIR).

(** [os.MkdirAll]: [rl] is the path's component list, last element first. *)
Fixpoint mkdir_all_loop (rl : list string) (perm : Z) : M os unit :=
  r ← try (stat (abs_path (reverse rl)));
  match r with
  | Ok n => if is_dir n then mret () else throw ENOTDIR
  | Err _ =>
      match rl with
      | [] => mret ()
      | _ :: up =>
          _ ← (match up with [] => mret () | _ => mkdir_all_loop up perm end);
          r ← try (mkdir (abs_path (reverse rl)) perm);
          match r with
          | Ok _ => mret ()
          | Err e =>
              r ← try (lstat (abs_path (reverse rl)));
              match r with
              | Ok n => if is_dir n then mret () else throw e
              | Err _ => throw e
              end
          end
      end
  end.
Definition mkdir_all (p : string) (perm : Z) : M os unit :=
  w ← gets (λ w, w);
  mkdir_all_loop (reverse (comps (abs p w))) perm.

(** ** Real directories: paths that reach their location without a link *)
Definition dir_at (m : filesystem) (loc : location) : Prop :=
  loc = [] ∨ ∃ n, m !! loc = Some n ∧ n_kind n = KDir.

Definition real_dir (m : filesystem) (loc : location) : Prop :=
  ∀ p, p `prefix_of` loc → dir_at m p.

Lemma real_dir_nil m : real_dir m [].
Proof. intros p ->%prefix_nil_inv. by left. Qed.

Lemma real_dir_prefix m p loc : p `prefix_of` loc → real_dir m loc → real_dir m p.
Proof. intros Hp Hd q Hq. apply Hd. by etrans. Qed.

Lemma prefix_snoc_inv {A} (p l : list A) x : p `prefix_of` l ++ [x] → p `prefix_of` l ∨ p = l ++ [x].
Proof.
  intros [k Hk]. destruct k as [|y k _] using rev_ind.
  - right. by rewrite app_nil_r in Hk.
  - left. rewrite (assoc_L (++)) in Hk. apply app_inj_tail in Hk as [-> _]. by eexists.
Qed.

Lemma real_dir_snoc m loc x n :
  real_dir m loc → m !! (loc ++ [x]) = Some n → n_kind n = KDir → real_dir m (loc ++ [x]).
Proof.
  intros Hd Hn Hk p Hp. apply prefix_snoc_inv in Hp as [Hp| ->]; [by apply Hd|]. right. eauto.
Qed.

Lemma real_dir_lookup m loc x : real_dir m (loc ++ [x]) →
  ∃ n, m !! (loc ++ [x]) = Some n ∧ n_kind n = KDir.
Proof. intros Hd. destruct (Hd (loc ++ [x])) as [H|H]; [done| |done]. by destruct loc. Qed.

Lemma dir_at_is_dir m loc x n : dir_at m (loc ++ [x]) → m !! (loc ++ [x]) = Some n → n_kind n = KDir.
Proof. intros [H|(n' & Hn & Hk)] Hl; [by destruct loc | naive_solver]. Qed.

(** Only the nodes outside [real_dir]'s prefixes may change. *)
Lemma real_dir_mono (m m' : filesystem) loc :
  real_dir m loc → (∀ p, p `prefix_of` loc → m' !! p = m !! p) → real_dir m' loc.
Proof.
  intros Hd Hm p Hp. destruct (Hd p Hp) as [->|(n & Hn & Hk)]; [by left|].
  right. exists n. by rewrite Hm.
Qed.

Lemma not_prefix_child {A} (p l : list A) x : p `prefix_of` l → p ≠ l ++ [x].
Proof. intros Hp ->. apply prefix_length in Hp. rewrite length_app in Hp. simpl in Hp. lia. Qed.

Lemma real_dir_insert m loc x n : real_dir m loc → real_dir (<[loc ++ [x] := n]> m) loc.
Proof.
  intros Hd. eapply real_dir_mono; [done|]. intros p Hp.
  apply lookup_insert_ne. apply not_eq_sym. by apply not_prefix_child.
Qed.

Lemma real_dir_delete m loc x : real_dir m loc → real_dir (delete (loc ++ [x]) m) loc.
Proof.
  intros Hd. eapply real_dir_mono; [done|]. intros p Hp.
  apply lookup_delete_ne. apply not_eq_sym. by apply not_prefix_child.
Qed.

Lemma normal_bools w : normal w →
  bool_decide (w = "") || bool_decide (w = ".") = false ∧ bool_decide (w = "..") = false.
Proof. intros [? ? ? ?]. by rewrite !bool_decide_false. Qed.

(** One step of [walk] on a normal component. *)
Lemma walk_normal links m follow cur w rest :
  normal w →
  walk links m follow cur (w :: rest) =
  match m !! (cur ++ [w]) with
  | None => if bool_decide (rest = []) then Ok (cur ++ [w]) else Err ENOENT
  | Some n =>
      match n_kind n with
      | KDir => walk links m follow (cur ++ [w]) rest
      | KSymlink t =>
          if bool_decide (rest = []) && negb follow then Ok (cur ++ [w]) else
          match links with
          | O => Err ELOOP
          | S links => walk links m follow (if is_abs t then [] else cur) (split_byte slash t ++ rest)
          end
      | _ => if bool_decide (rest = []) then Ok (cur ++ [w]) else Err ENOTDIR
      end
  end.
Proof. intros Hw. destruct (normal_bools w Hw) as [H1 H2]. destruct links; simpl; by rewrite H1, H2. Qed.

Lemma walk_skip links m follow cur w rest :
  w = "" ∨ w = "." → walk links m follow cur (w :: rest) = walk links m follow cur rest.
Proof. intros [->| ->]; by destruct links. Qed.

Lemma walk_dotdot links m follow cur rest :
  walk links m follow cur (".." :: rest) = walk links m follow (parent cur) rest.
Proof. by destruct links. Qed.

Lemma walk_nil links m follow cur : walk links m follow cur [] = Ok cur.
Proof. by destruct links. Qed.

Lemma walk_real links m follow cur l todo :
  Forall normal l → (∀ p, p `prefix_of` l → p ≠ [] → ∃ n, m !! (cur ++ p) = Some n ∧ n_kind n = KDir) →
  walk links m follow cur (l ++ todo) = walk links m follow (cur ++ l) todo.
Proof.
  intros Hl. revert cur. induction Hl as [|w l Hw Hl IH]; intros cur Hd; [by rewrite app_nil_r|].
  change ((w :: l) ++ todo) with (w :: (l ++ todo)). rewrite walk_normal by done.
  destruct (Hd [w]) as (n & -> & ->); [by apply prefix_cons, prefix_nil | done |].
  rewrite IH; [by rewrite <- (assoc_L (++))|]. intros p Hp Hne.
  destruct (Hd (w :: p)) as (n' & Hn' & Hk'); [by apply prefix_cons | done |].
  exists n'. by rewrite <- (assoc_L (++)).
Qed.

Lemma walk_real_dir links m follow r todo :
  Forall normal r → real_dir m r → walk links m follow [] (r ++ todo) = walk links m follow r todo.
Proof.
  intros Hr Hd. rewrite (walk_real links m follow [] r); [done..|]. intros p Hp Hne.
  destruct (Hd p Hp) as [->|(n & Hn & Hk)]; [done|]. by exists n.
Qed.

Lemma resolve_abs follow r w :
  Forall normal r → resolve follow (abs_path r) w = walk max_links (fs w) follow [] r.
Proof.
  intros Hr. unfold resolve. rewrite bool_decide_false by done.
  rewrite is_abs_abs_path, split_abs_path by by apply normal_free_all.
  rewrite walk_skip by by left. destruct r; [|done]. rewrite walk_skip by by left. by rewrite walk_nil.
Qed.

(** A path below a real directory denotes its own location. *)
Lemma resolve_child r x w :
  Forall normal (r ++ [x]) → real_dir (fs w) r → resolve false (abs_path (r ++ [x])) w = Ok (r ++ [x]).
Proof.
  intros Hr Hd. rewrite resolve_abs by done. apply Forall_app in Hr as [Hr Hx].
  rewrite walk_real_dir by done. inversion Hx; subst. rewrite walk_normal by done.
  destruct (fs w !! (r ++ [x])) as [n|]; [|done]. by destruct (n_kind n).
Qed.

Lemma resolve_real_dir follow r w :
  Forall normal r → real_dir (fs w) r → resolve follow (abs_path r) w = Ok r.
Proof.
  intros Hr Hd. rewrite resolve_abs by done.
  rewrite <- (app_nil_r r) at 1. by rewrite walk_real_dir, walk_nil.
Qed.

#[global] Arguments walk : simpl never.

(** A predicate that looks at the file system only. *)
Definition fsP (P : filesystem → Prop) (w : os) : Prop := P (fs w).

(** The shape of every system call: nothing, or its effect. *)
Lemma sys_triple {A : Type} (P : filesystem → Prop) (f : os → result (A * filesystem)) (Q : A → filesystem → Prop) :
  (∀ w a m, P (fs w) → f w = Ok (a, m) → Q a m) →
  triple (fsP P) (sys f) (λ a, fsP (Q a)) (fsP P).
Proof.
  intros Hf w Hw. unfold sys. destruct (faults w (tick w)) as [[e n]|]; [done|].
  destruct (f w) as [[a m]|e] eqn:E; [|done]. by eapply Hf.
Qed.

Lemma parent_snoc r x : parent (r ++ [x]) = r.
Proof. unfold parent. rewrite length_app. simpl. rewrite Nat.add_sub. apply take_app_length. Qed.

(** The calls at a child of a real directory. *)
Section child.
Context (r : location) (x : string) (Hrx : Forall normal (r ++ [x])).
Context (P : filesystem → Prop) (HP : ∀ m, P m → real_dir m r).

Lemma lstat_child :
  triple (fsP P) (lstat (abs_path (r ++ [x])))
    (λ n, fsP (λ m, P m ∧ m !! (r ++ [x]) = Some n)) (fsP P).
Proof.
  apply sys_triple. intros w a m Hw H. rewrite resolve_child in H by auto. simpl in H.
  destruct (fs w !! _) eqn:E; simplify_eq/=. done.
Qed.

(** [Lstat] without the error that only a fault can cause. *)
Lemma lstat_child_cases w : P (fs w) →
  (∃ n, fs w !! (r ++ [x]) = Some n ∧ lstat (abs_path (r ++ [x])) w = (Ok n, ticked w))
  ∨ (fs w !! (r ++ [x]) = None ∧ lstat (abs_path (r ++ [x])) w = (Err ENOENT, ticked w))
  ∨ ∃ e, lstat (abs_path (r ++ [x])) w = (Err (External e), ticked w).
Proof.
  intros Hw. unfold lstat, stat_with, sys. destruct (faults w (tick w)) as [[e n]|]; [by eauto|].
  rewrite resolve_child by auto. simpl.
  destruct (fs w !! _) as [n|]; simpl; [|by eauto].
  left. exists n. split; [done|]. by destruct w.
Qed.

Lemma mkdir_vacant perm w : P (fs w) → fs w !! (r ++ [x]) = None →
  (∃ n, n_kind n = KDir ∧
     mkdir (abs_path (r ++ [x])) perm w = (Ok (), ticked (set_fs (<[r ++ [x] := n]> (fs w)) w)))
  ∨ ∃ e, mkdir (abs_path (r ++ [x])) perm w = (Err (External e), ticked w).
Proof.
  intros Hw Hn. unfold mkdir, sys. destruct (faults w (tick w)) as [[e n]|]; [by eauto|].
  rewrite resolve_child by auto. simpl. rewrite Hn.
  rewrite bool_decide_false by (by intros []). rewrite bool_decide_false by by destruct r.
  left. exists (fresh w (r ++ [x]) KDir perm). done.
Qed.

Lemma mkdir_child perm (Q : filesystem → Prop) :
  (∀ m n, P m → m !! (r ++ [x]) = None → n_kind n = KDir → Q (<[r ++ [x] := n]> m)) →
  triple (fsP P) (mkdir (abs_path (r ++ [x])) perm) (λ _, fsP Q) (fsP P).
Proof.
  intros HQ. apply sys_triple. intros w a m Hw H. rewrite resolve_child in H by auto. inv_ok H.
  apply orb_false_iff in Hok as [H1 H2]. apply bool_decide_eq_false in H1.
  apply HQ; [done| |done]. by apply eq_None_not_Some.
Qed.

Lemma symlink_child t (Q : filesystem → Prop) :
  (∀ m n, P m → m !! (r ++ [x]) = None → n_kind n = KSymlink t → Q (<[r ++ [x] := n]> m)) →
  triple (fsP P) (symlink t (abs_path (r ++ [x]))) (λ _, fsP Q) (fsP P).
Proof.
  intros HQ. apply sys_triple. intros w a m Hw H. rewrite resolve_child in H by auto. inv_ok H.
  apply orb_false_iff in Hok as [H1 H2]. apply bool_decide_eq_false in H1.
  apply HQ; [done| |done]. by apply eq_None_not_Some.
Qed.

Lemma open_excl_child perm (Q : filesystem → Prop) :
  (∀ m n, P m → m !! (r ++ [x]) = None → n_kind n = KReg [] → Q (<[r ++ [x] := n]> m)) →
  triple (fsP P) (open_excl (abs_path (r ++ [x])) perm)
    (λ loc, fsP (λ m, loc = r ++ [x] ∧ Q m)) (fsP P).
Proof.
  intros HQ. apply sys_triple. intros w a m Hw H. rewrite resolve_child in H by auto. inv_ok H.
  apply orb_false_iff in Hok as [H1 H2]. apply bool_decide_eq_false in H1.
  split; [done|]. apply HQ; [done| |done]. by apply eq_None_not_Some.
Qed.

Lemma remove_child (Q : filesystem → Prop) :
  (∀ m n, P m → m !! (r ++ [x]) = Some n → (is_dir n && has_children m (r ++ [x])) = false →
          Q (delete (r ++ [x]) m)) →
  triple (fsP P) (remove (abs_path (r ++ [x]))) (λ _, fsP Q) (fsP P).
Proof.
  intros HQ. apply sys_triple. intros w a m Hw H. rewrite resolve_child in H by auto. inv_ok H.
  eapply HQ; eauto.
Qed.
End child.

(** ** Where a followed path ends *)

(** The result of a resolution that follows links: reached through real
    directories, and not itself a link. *)
Record real_path (m : filesystem) (loc : location) : Prop := {
  rp_normal : Forall normal loc;
  rp_parent : real_dir m (parent loc);
  rp_plain : ∀ n t, m !! loc = Some n → n_kind n ≠ KSymlink t
}.

Lemma parent_prefix (l : location) : parent l `prefix_of` l.
Proof. unfold parent. apply prefix_take. Qed.

Lemma real_dir_path m loc : Forall normal loc → real_dir m loc → loc ≠ [] ∨ m !! [] = None → real_path m loc.
Proof.
  intros Hl Hd Hne. constructor; [done| |].
  - eapply real_dir_prefix; [apply parent_prefix|done].
  - intros n t Hn Hk. destruct (Hd loc) as [->|(n' & Hn' & Hk')]; [done| |].
    + destruct Hne as [Hne|Hne]; [done|]. by rewrite Hn in Hne.
    + rewrite Hn in Hn'. simplify_eq. by rewrite Hk in Hk'.
Qed.

Lemma Forall_parent l : Forall normal l → Forall normal (parent l).
Proof. intros H. unfold parent. by apply Forall_take. Qed.

(** The root is not a node of the map. *)
Definition no_root (m : filesystem) : Prop := m !! [] = None.

Lemma walk_real_path links m cur todo loc :
  no_root m → Forall normal cur → real_dir m cur → Forall (free_of slash) todo →
  walk links m true cur todo = Ok loc → real_path m loc.
Proof.
  intros Hroot. revert cur todo. induction links as [links IHlinks] using lt_wf_ind.
  intros cur todo Hcur Hd Htodo. revert cur Hcur Hd.
  induction Htodo as [|x todo Hx Htodo IH]; intros cur Hcur Hd.
  { rewrite walk_nil. intros [= <-]. by apply real_dir_path; [| |right]. }
  destruct (decide (x = "" ∨ x = ".")) as [Hskip|Hskip]; [rewrite walk_skip by done; by apply IH|].
  destruct (decide (x = "..")) as [->|Hdot].
  { rewrite walk_dotdot. apply IH; [by apply Forall_parent|].
    eapply real_dir_prefix; [apply parent_prefix|done]. }
  assert (normal x) as Hn by (constructor; naive_solver).
  assert (Forall normal (cur ++ [x])) as Hcx by (apply Forall_app; auto).
  rewrite walk_normal by done.
  assert (∀ o, m !! (cur ++ [x]) = o → (∀ n t, o = Some n → n_kind n ≠ KSymlink t) →
    real_path m (cur ++ [x])) as Hend.
  { intros o Ho Hk. constructor; [done|by rewrite parent_snoc|]. intros n t. rewrite Ho. apply Hk. }
  destruct (m !! (cur ++ [x])) as [n|] eqn:E.
  - destruct (n_kind n) eqn:Hk.
    + case_bool_decide; [|done]. intros [= <-]. eapply Hend; [done|]. intros; simplify_eq; by rewrite Hk.
    + apply IH; [done|]. by eapply real_dir_snoc.
    + rewrite andb_false_r. destruct links as [|links]; [done|].
      apply IHlinks; [lia| | |].
      * by destruct (is_abs target).
      * destruct (is_abs target); [apply real_dir_nil|done].
      * apply Forall_app. split; [apply split_byte_free|done].
    + case_bool_decide; [|done]. intros [= <-]. eapply Hend; [done|]. intros; simplify_eq; by rewrite Hk.
  - case_bool_decide; [|done]. intros [= <-]. eapply Hend; [reflexivity|done].
Qed.

Lemma real_path_dir m loc n :
  real_path m loc → m !! loc = Some n → n_kind n = KDir → real_dir m loc.
Proof.
  intros [_ Hp _] Hn Hk. destruct loc as [|x loc _] using rev_ind; [apply real_dir_nil|].
  rewrite parent_snoc in Hp. by eapply real_dir_snoc.
Qed.

(** [EvalSymlinks(p) = p] for a clean absolute path: every directory on the
    way is real and the file is not a link. *)
Lemma eval_symlinks_fixed l w w' :
  no_root (fs w) → Forall normal l → l ≠ [] →
  eval_symlinks (abs_path l) w = (Ok (abs_path l), w') →
  real_path (fs w) l ∧ is_Some (fs w !! l) ∧ fs w' = fs w.
Proof.
  intros Hroot Hl Hne. unfold eval_symlinks, sys. destruct (faults w (tick w)) as [[e n]|]; [done|].
  rewrite is_abs_abs_path, split_abs_path by by apply normal_free_all.
  destruct (walk 255 (fs w) true [] _) as [loc|e] eqn:Hw; simpl; [|done].
  apply walk_real_path in Hw; [|done|constructor|apply real_dir_nil|].
  2:{ destruct l; [done|]. constructor; [done|]. by apply normal_free_all. }
  destruct (bool_decide (loc = [])) eqn:E; simpl.
  - intros Heq. assert (abs_path loc = abs_path l) as Hloc by congruence.
    apply abs_path_inj in Hloc; [|apply Hw|done]. apply bool_decide_eq_true in E. congruence.
  - destruct (fs w !! loc) as [n|] eqn:Hn; simpl; [|done].
    intros Heq. assert (abs_path loc = abs_path l) as Hloc by congruence.
    apply abs_path_inj in Hloc as ->; [|apply Hw|done].
    rewrite Hn. split_and!; [done|by eexists|]. by injection Heq as <-.
Qed.

Lemma eval_symlinks_keeps p (P : filesystem → Prop) : preserves (fsP P) (eval_symlinks p).
Proof.
  apply (sys_triple P _ (λ _, P)). intros w a m Hw H.
  apply bind_ok in H as (loc & _ & H). apply bind_ok in H as (u & _ & H).
  by assert (m = fs w) as -> by congruence.
Qed.

(** ** Directory listings and removed trees *)
Lemma child_name_Some loc k x : child_name loc k = Some x ↔ k = loc ++ [x].
Proof.
  unfold child_name. split.
  - destruct (drop (length loc) k) as [|y [|]] eqn:E; try done. case_bool_decide as Hp; [|done].
    intros [= ->]. destruct Hp as [q ->]. rewrite drop_app_length in E. by subst.
  - intros ->. rewrite drop_app_length. rewrite bool_decide_true; [done|]. by eexists.
Qed.

Lemma sort_strings_Permutation l : sort_strings l ≡ₚ l.
Proof. apply merge_sort_Permutation. Qed.

Lemma elem_of_children m loc x : x ∈ children m loc ↔ is_Some (m !! (loc ++ [x])).
Proof.
  unfold children. rewrite sort_strings_Permutation, list_elem_of_omap. split.
  - intros ([k n] & Hk & Hx). simpl in Hx. apply child_name_Some in Hx as ->.
    apply elem_of_map_to_list in Hk. by eexists.
  - intros [n Hn]. exists (loc ++ [x], n). split; [by apply elem_of_map_to_list|].
    by apply child_name_Some.
Qed.

Lemma drop_tree_lookup loc m p :
  drop_tree loc m !! p = if decide (loc `prefix_of` p) then None else m !! p.
Proof.
  unfold drop_tree. destruct (m !! p) as [n|] eqn:E.
  - case_decide as Hp.
    + apply map_lookup_filter_None. right. intros n' _ Hn. by apply Hn.
    + by apply map_lookup_filter_Some.
  - case_decide; apply map_lookup_filter_None; by left.
Qed.

Lemma real_dir_drop_tree m r x : real_dir m r → real_dir (drop_tree (r ++ [x]) m) r.
Proof.
  intros Hd. eapply real_dir_mono; [done|]. intros p Hp. rewrite drop_tree_lookup.
  rewrite decide_False; [done|]. intros Hx. assert (r ++ [x] `prefix_of` r) as H by by etrans.
  apply prefix_length in H. rewrite length_app in H. simpl in H. lia.
Qed.

(** Every node has a parent directory, as in a real file system. *)
Definition fs_wf (m : filesystem) : Prop :=
  no_root m ∧ ∀ p x q, is_Some (m !! (p ++ x :: q)) → is_Some (m !! (p ++ [x])).

Definition wf_check (m : filesystem) : bool :=
  bool_decide (m !! [] = None) &&
  forallb (λ kn : location * node,
    forallb (λ i, bool_decide (is_Some (m !! take (S i) kn.1))) (seq 0 (length kn.1))) (map_to_list m).

Lemma wf_check_ok m : wf_check m = true → fs_wf m.
Proof.
  intros [H1%bool_decide_eq_true H2]%andb_true_iff. split; [done|]. intros p x q [n Hn].
  rewrite forallb_Forall, Forall_forall in H2.
  apply elem_of_map_to_list in Hn. specialize (H2 _ Hn). simpl in H2.
  rewrite forallb_Forall, Forall_forall in H2. specialize (H2 (length p)). rewrite bool_decide_eq_true in H2.
  rewrite elem_of_seq, length_app in H2. simpl in H2. specialize (H2 ltac:(lia)).
  by rewrite (cons_middle x p q), (assoc_L (++)), take_app_le, take_ge in H2 by (rewrite length_app; simpl; lia).
Qed.

(** ** Successful calls, inverted *)
Lemma lstat_run p w n w' :
  lstat p w = (Ok n, w') →
  fs w' = fs w ∧ cwd w' = cwd w ∧ ∃ loc, resolve false p w = Ok loc ∧ fs w !! loc = Some n.
Proof.
  unfold lstat, stat_with, sys. destruct (faults w (tick w)) as [[e k]|]; [done|].
  destruct (resolve false p w) as [loc|e] eqn:Hr; simpl; [|done].
  destruct (fs w !! loc) as [n'|] eqn:Hn; simpl; [|done]. intros [= <- <-]. simpl. by eauto.
Qed.

Lemma eval_run p w q w' :
  no_root (fs w) → is_abs p = true → eval_symlinks p w = (Ok q, w') →
  fs w' = fs w ∧ cwd w' = cwd w ∧
  ∃ loc, q = abs_path loc ∧ real_path (fs w) loc ∧ (loc ≠ [] → is_Some (fs w !! loc)).
Proof.
  intros Hroot Habs. unfold eval_symlinks, sys. destruct (faults w (tick w)) as [[e k]|]; [done|].
  rewrite Habs. destruct (walk 255 (fs w) true [] _) as [loc|e] eqn:Hw; simpl; [|done].
  apply walk_real_path in Hw; [|done|constructor|apply real_dir_nil|apply split_byte_free].
  case_bool_decide as Hne; simpl.
  - intros Hrun. assert (q = abs_path loc) as -> by congruence.
    assert (w' = ticked (set_fs (fs w) w)) as -> by congruence. split; [done|]. split; [done|]. by exists loc.
  - destruct (fs w !! loc) as [n|] eqn:Hn; simpl; [|done]. intros Hrun.
    assert (q = abs_path loc) as -> by congruence.
    assert (w' = ticked (set_fs (fs w) w)) as -> by congruence. split; [done|]. split; [done|].
    exists loc. rewrite Hn. by eauto.
Qed.

(** A file below a real directory, or found at a resolved location. *)
Lemma lstat_real l w n w' :
  Forall normal l → l ≠ [] → real_dir (fs w) (parent l) → lstat (abs_path l) w = (Ok n, w') →
  fs w' = fs w ∧ fs w !! l = Some n.
Proof.
  intros Hl Hne Hd Hrun. destruct (lstat_run _ _ _ _ Hrun) as (Hfs & _ & loc & Hr & Hn). split; [done|].
  destruct l as [|x l _] using rev_ind; [done|]. rewrite parent_snoc in Hd.
  rewrite resolve_child in Hr by done. by simplify_eq.
Qed.

(** ** Runs without injected failures *)
Definition fault_free (w : os) : Prop := ∀ n, faults w n = None.

Lemma sys_fault_free {A} (f : os → result (A * filesystem)) w :
  fault_free w →
  sys f w = (match f w with
             | Ok (a, m) => (Ok a, ticked (set_fs m w))
             | Err e => (Err e, ticked w)
             end).
Proof. intros Hw. unfold sys. by rewrite Hw. Qed.

(** Names as a POSIX kernel stores them. *)
Definition fs_names (m : filesystem) : Prop := ∀ loc, is_Some (m !! loc) → Forall normal loc.

Definition names_check (m : filesystem) : bool :=
  forallb (λ kn : location * node, bool_decide (Forall normal kn.1)) (map_to_list m).

Lemma names_check_ok m : names_check m = true → fs_names m.
Proof.
  unfold names_check. rewrite forallb_Forall, Forall_forall. intros H loc [n Hn].
  apply elem_of_map_to_list in Hn. specialize (H _ Hn). by apply bool_decide_eq_true in H.
Qed.

Definition real_dir_check (m : filesystem) (loc : location) : bool :=
  forallb (λ i, match m !! take (S i) loc with Some n => is_dir n | None => false end) (seq 0 (length loc)).

Lemma real_dir_check_ok m loc : real_dir_check m loc = true → real_dir m loc.
Proof.
  unfold real_dir_check. rewrite forallb_Forall, Forall_forall. intros H p [q ->].
  destruct p as [|x p _] using rev_ind; [by left|]. right. specialize (H (length p)).
  rewrite elem_of_seq, !length_app in H. simpl in H. specialize (H ltac:(lia)).
  rewrite take_app_le, take_ge in H by (rewrite length_app; simpl; lia).
  destruct (m !! (p ++ [x])) as [n|]; [|done]. exists n. split; [done|].
  unfold is_dir in H. by destruct (n_kind n).
Qed.

(** Reading operations leave the tree alone. *)
Lemma sys_read_keeps {A} (f : os → result (A * filesystem)) (P : filesystem → Prop) :
  (∀ w a m, f w = Ok (a, m) → m = fs w) → preserves (fsP P) (sys f).
Proof.
  intros Hf. apply preserves_state. intros w Hw. unfold sys. destruct (faults w (tick w)) as [[e k]|]; [done|].
  destruct (f w) as [[a m]|e] eqn:E; [|done]. by rewrite (Hf _ _ _ E).
Qed.

Lemma stat_with_keeps b p P : preserves (fsP P) (stat_with b p).
Proof. apply sys_read_keeps. intros w a m H. inv_ok H. done. Qed.
Lemma lstat_keeps p P : preserves (fsP P) (lstat p).
Proof. apply stat_with_keeps. Qed.
Lemma stat_keeps p P : preserves (fsP P) (stat p).
Proof. apply stat_with_keeps. Qed.
Lemma read_file_keeps p P : preserves (fsP P) (read_file p).
Proof. apply sys_read_keeps. intros w a m H. inv_ok H. destruct (n_kind x0); by simplify_eq. Qed.
