(* ===== verification/Model.v ===== *)
(** * The Runner's data model (runner/internal/model/model.go) *)
From S2P Require Import Prelude GoIO GoString.

(* src: runner/internal/model/model.go:10-29 JobStatus *)
Inductive JobStatus :=
  | StatusQueued | StatusValidating | StatusPreCheck | StatusExtracting
  | StatusImageInspect | StatusImageLoad | StatusImageTag | StatusImagePush
  | StatusDeploying | StatusVerifying | StatusRollback | StatusRolledBack
  | StatusSuccess | StatusFailed.

#[export] Instance JobStatus_eq_dec : EqDecision JobStatus.
Proof. solve_decision. Defined.

(* src: runner/internal/model/model.go:12-29 JobStatus *)
Definition status_text (s : JobStatus) : string :=
  match s with
  | StatusQueued => "QUEUED" | StatusValidating => "VALIDATING" | StatusPreCheck => "PRE_CHECK"
  | StatusExtracting => "EXTRACTING" | StatusImageInspect => "IMAGE_INSPECT" | StatusImageLoad => "IMAGE_LOAD"
  | StatusImageTag => "IMAGE_TAG" | StatusImagePush => "IMAGE_PUSH" | StatusDeploying => "DEPLOYING"
  | StatusVerifying => "VERIFYING" | StatusRollback => "ROLLBACK" | StatusRolledBack => "ROLLED_BACK"
  | StatusSuccess => "SUCCESS" | StatusFailed => "FAILED"
  end.

(* src: runner/internal/model/model.go:31-34 JobOperation *)
Definition OperationDeploy : string := "DEPLOY".
Definition OperationRollback : string := "ROLLBACK".

(* src: runner/internal/model/model.go:36-46 Settings *)
Record Settings := {
  PollInterval : Z; LockRetry : Z; SettingsRefresh : Z; HeartbeatInterval : Z;
  StaleJobAfter : Z; WorkspaceRoot : string; ArtifactRoot : string;
  CommandPath : string; LogChunkBytes : Z
}.

(* src: runner/internal/model/model.go:48-54 ExtractionPolicy *)
Record ExtractionPolicy := {
  MaxArchiveBytes : Z; MaxExtractedBytes : Z; MaxFiles : Z; MaxImages : Z;
  AllowSymlinks : bool
}.

(* src: runner/internal/model/model.go:56-67 RuntimeConfig *)
Record RuntimeConfig := {
  Kind : string; BinaryPath : string; Namespace : string; RegistryURL : string;
  RegistryHost : string; RegistryProject : string; RegistryInsecure : bool;
  RegistryCAPEM : string; CredentialAAD : string; CredentialCiphertext : string
}.

(* src: runner/internal/model/model.go:69-82 HealthCheck *)
Record HealthCheck := {
  hc_Type : string; hc_Address : string; hc_Method : string;
  hc_Headers : gmap string string; hc_ExpectedStatusMin : Z; hc_ExpectedStatusMax : Z;
  hc_ExpectedBody : string; hc_TimeoutSeconds : Z; hc_Attempts : Z;
  hc_IntervalSeconds : Z; hc_InsecureSkipVerify : bool; hc_CAPEM : string
}.

(** [ApprovedAt] is [None] for the zero time. *)
(* src: runner/internal/model/model.go:84-95 Script *)
Record Script := {
  s_ID : string; s_Name : string; s_Version : Z; s_Phase : string;
  s_InterpreterPath : string; s_SHA256 : string; s_Content : bytes;
  s_Args : list string; s_Timeout : Z; s_ApprovedAt : option Z
}.

(* src: runner/internal/model/model.go:97-109 Profile *)
Record Profile := {
  p_ID : string; p_Name : string; p_Extraction : ExtractionPolicy;
  p_Runtime : RuntimeConfig; p_HealthChecks : list HealthCheck; p_Scripts : list Script;
  p_CommandTimeout : Z; p_MaxLogBytes : Z; p_AutoRollback : bool;
  p_CleanupWorkspace : bool; p_KeepFailedWorkspace : bool
}.

(* src: runner/internal/model/model.go:111-117 TargetCredential *)
Record TargetCredential := {
  tc_ID : string; tc_Type : string; tc_Version : Z; tc_Ciphertext : string; tc_AAD : string
}.

(* src: runner/internal/model/model.go:145-152 ImageRecord *)
Record ImageRecord := {
  ir_FilePath : string; ir_SourceRef : string; ir_DestinationRef : string;
  ir_Repository : string; ir_Tag : string; ir_Digest : string
}.

(* src: runner/internal/model/model.go:119-136 Job *)
Record Job := {
  j_ID : string; j_ReleaseID : string; j_RollbackSourceReleaseID : string;
  j_RollbackSourceJobID : string; j_Application : string; j_Version : string;
  j_Environment : string; j_LockKey : string; j_ArtifactPath : string;
  j_ExpectedSHA256 : string; j_ManifestPath : string; j_Operation : string;
  j_Attempt : Z; j_Profile : Profile; j_TargetCredential : TargetCredential;
  j_RollbackImages : list ImageRecord
}.

(* src: runner/internal/model/model.go:138-143 Step *)
Record Step := { step_ID : Z; step_JobID : string; step_Name : JobStatus; step_Number : Z }.

(** The metadata is the JSON object the step stores; [None] is a nil message. *)
Inductive json_value := JStr (s : string) | JInt (z : Z) | JBool (b : bool).
(* src: runner/internal/model/model.go:154-158 StepResult *)
Record StepResult := {
  sr_ExitCode : Z; sr_Message : string; sr_Metadata : option (gmap string json_value)
}.
Definition StepResult_zero : StepResult :=
  {| sr_ExitCode := 0; sr_Message := ""; sr_Metadata := None |}.
