(* ===== verification/Db.v ===== *)
(** * Database transactions (package pgx)

    PostgreSQL as the code sees it: tables [T], a clock, statements and
    transactions.  A transaction is all or nothing: an error before the commit
    restores the tables.  Any statement, and any commit, may fail (the schedule
    [db_faults]: a lost connection, a constraint or a trigger that refuses);
    transactions of different processes are serialised, as row locks and unique
    keys make them.  Times are milliseconds of the database clock. *)
From S2P Require Import Prelude.

(** [db_aborted]: a statement of the current transaction has failed. *)
Record dbase (T : Type) := DB { tabs : T; now : Z; db_faults : nat → option string; db_tick : nat; db_aborted : bool }.
Arguments DB {T}. Arguments tabs {T}. Arguments now {T}. Arguments db_faults {T}. Arguments db_tick {T}. Arguments db_aborted {T}.

Section db.
Context {T : Type}.

Definition ticked_db (t : T) (aborted : bool) (w : dbase T) : dbase T :=
  {| tabs := t; now := now w; db_faults := db_faults w; db_tick := S (db_tick w); db_aborted := aborted |}.

(** ** Statements and transactions *)

(** One statement; after a failure the transaction only accepts a rollback. *)
Definition statement {A} (f : Z → T → A * T) : M (dbase T) A := λ w,
  if db_aborted w then (Err (External "current transaction is aborted"), w) else
  match db_faults w (db_tick w) with
  | Some text => (Err (External text), ticked_db (tabs w) true w)
  | None => let '(a, t) := f (now w) (tabs w) in (Ok a, ticked_db t false w)
  end.
Definition query {A} (f : Z → T → A) : M (dbase T) A := statement (λ n t, (f n t, t)).

(** A statement whose constraints may refuse it: an error fails it. *)
Definition checked {A} (f : Z → T → result (A * T)) : M (dbase T) A := λ w,
  if db_aborted w then (Err (External "current transaction is aborted"), w) else
  match db_faults w (db_tick w) with
  | Some text => (Err (External text), ticked_db (tabs w) true w)
  | None => match f (now w) (tabs w) with
            | Ok (a, t) => (Ok a, ticked_db t false w)
            | Err e => (Err e, ticked_db (tabs w) true w)
            end
  end.

(** [Begin] ... [Commit], with the deferred [Rollback]; [begin_err] and
    [commit_err] are what the caller makes of the two errors. *)
Definition transaction_with {A} (begin_err : goerr → goerr) (commit_err : A → goerr → goerr) (body : M (dbase T) A) : M (dbase T) A := λ w,
  match db_faults w (db_tick w) with
  | Some text => (Err (begin_err (External text)), ticked_db (tabs w) false w)
  | None =>
      match body (ticked_db (tabs w) false w) with
      | (Ok a, w') =>
          if db_aborted w'
          then (Err (commit_err a (External "commit unexpectedly resulted in rollback")), ticked_db (tabs w) false w') else
          match db_faults w' (db_tick w') with
          | Some text => (Err (commit_err a (External text)), ticked_db (tabs w) false w')
          | None => (Ok a, ticked_db (tabs w') false w')
          end
      | (Err e, w') => (Err e, ticked_db (tabs w) false w')
      end
  end.
Definition transaction {A} : M (dbase T) A → M (dbase T) A := transaction_with id (λ _, id).

(** Statements run on the pool, each its own transaction. *)
Definition pool {A} (body : M (dbase T) A) : M (dbase T) A := λ w,
  let '(r, w') := body (ticked_db (tabs w) false w) in (r, ticked_db (tabs w') false w').

(** ** Running statements and transactions *)
Lemma statement_run {A} (f : Z → T → A * T) w a w' :
  statement f w = (Ok a, w') →
  a = (f (now w) (tabs w)).1 ∧ tabs w' = (f (now w) (tabs w)).2 ∧ now w' = now w ∧ db_aborted w' = false.
Proof.
  unfold statement. destruct (db_aborted w); [done|]. destruct (db_faults w (db_tick w)); [done|].
  destruct (f (now w) (tabs w)) as [b t] eqn:E. intros [= <- <-]. done.
Qed.

Lemma checked_run {A} (f : Z → T → result (A * T)) w a w' :
  checked f w = (Ok a, w') →
  f (now w) (tabs w) = Ok (a, tabs w') ∧ now w' = now w ∧ db_aborted w' = false.
Proof.
  unfold checked. destruct (db_aborted w); [done|]. destruct (db_faults w (db_tick w)); [done|].
  destruct (f (now w) (tabs w)) as [[b t]|e] eqn:E; [|done]. intros [= <- <-]. done.
Qed.

Lemma query_run {A} (f : Z → T → A) w a w' :
  query f w = (Ok a, w') → a = f (now w) (tabs w) ∧ tabs w' = tabs w ∧ now w' = now w ∧ db_aborted w' = false.
Proof. apply statement_run. Qed.

(** A transaction either leaves the tables alone or has its body's effect. *)
Lemma transaction_cases {A} b c (body : M (dbase T) A) w r w' :
  transaction_with b c body w = (r, w') →
  (tabs w' = tabs w ∧ ∃ e, r = Err e) ∨
  (∃ a w1, r = Ok a ∧ body (ticked_db (tabs w) false w) = (Ok a, w1) ∧ tabs w' = tabs w1 ∧ db_aborted w1 = false).
Proof.
  unfold transaction_with. intros H. destruct (db_faults w (db_tick w)); [simplify_eq; eauto|].
  destruct (body _) as [[a|e] w1] eqn:E; [|simplify_eq; eauto].
  destruct (db_aborted w1) eqn:Ea; [simplify_eq; eauto|].
  destruct (db_faults w1 (db_tick w1)); simplify_eq; [eauto|]. right. by exists a, w1.
Qed.

Lemma pool_run {A} (body : M (dbase T) A) w : tabs (pool body w).2 = tabs (body (ticked_db (tabs w) false w)).2.
Proof. unfold pool. by destruct (body _). Qed.

(** ** Symbolic execution

    [runs t n m Q]: a normal return of [m], started on the tables [t] at time
    [n], satisfies [Q] with its final tables. *)
Definition runs {A} (t : T) (n : Z) (m : M (dbase T) A) (Q : A → T → Prop) : Prop :=
  ∀ w a w', tabs w = t → now w = n → m w = (Ok a, w') → Q a (tabs w') ∧ now w' = n.

Lemma runs_ret {A} t n (a : A) (Q : A → T → Prop) : Q a t → runs t n (mret a) Q.
Proof. intros HQ w b w' <- <- [= <- <-]. done. Qed.
Lemma runs_throw {A} t n e (Q : A → T → Prop) : runs t n (throw e) Q.
Proof. intros w a w' _ _ [=]. Qed.
Lemma runs_lift {A} t n (r : result A) (Q : A → T → Prop) : (∀ a, r = Ok a → Q a t) → runs t n (lift r) Q.
Proof. intros HQ w a w' <- <- [-> ->]%liftM_ok. auto. Qed.
Lemma runs_wrap {A} t n f (m : M (dbase T) A) Q : runs t n m Q → runs t n (wrapM f m) Q.
Proof. intros Hm w a w' Ht Hn H%wrapM_ok. by eapply Hm. Qed.
Lemma runs_statement {A} t n (f : Z → T → A * T) (Q : A → T → Prop) :
  Q (f n t).1 (f n t).2 → runs t n (statement f) Q.
Proof. intros HQ w a w' <- <- (-> & -> & -> & _)%statement_run. done. Qed.
Lemma runs_checked {A} t n (f : Z → T → result (A * T)) (Q : A → T → Prop) :
  (∀ a t', f n t = Ok (a, t') → Q a t') → runs t n (checked f) Q.
Proof. intros HQ w a w' <- <- (Hf & -> & _)%checked_run. auto. Qed.
Lemma runs_query {A} t n (f : Z → T → A) (Q : A → T → Prop) : Q (f n t) t → runs t n (query f) Q.
Proof. intros HQ. by apply (runs_statement t n (λ n t, (f n t, t)) Q). Qed.

Lemma runs_bind {A B} t n (m : M (dbase T) A) (k : A → M (dbase T) B) R Q :
  runs t n m R → (∀ a t', R a t' → runs t' n (k a) Q) → runs t n (m ≫= k) Q.
Proof.
  intros Hm Hk w b w' Ht Hn H. apply bindM_ok in H as (a & w1 & H1 & H2).
  destruct (Hm _ _ _ Ht Hn H1) as [HR Hn1]. by eapply Hk.
Qed.
Lemma runs_conseq {A} t n (m : M (dbase T) A) (Q Q' : A → T → Prop) :
  runs t n m Q → (∀ a t', Q a t' → Q' a t') → runs t n m Q'.
Proof. intros Hm HQ w a w' Ht Hn H. destruct (Hm _ _ _ Ht Hn H). auto. Qed.

Lemma runs_query_bind {A B} t n (f : Z → T → A) (k : A → M (dbase T) B) Q :
  runs t n (k (f n t)) Q → runs t n (query f ≫= k) Q.
Proof. intros Hk. apply (runs_bind _ _ _ _ (λ a t', a = f n t ∧ t' = t)); [by apply runs_query|]. by intros ? ? [-> ->]. Qed.
Lemma runs_statement_bind {A B} t n (f : Z → T → A * T) (k : A → M (dbase T) B) Q :
  runs (f n t).2 n (k (f n t).1) Q → runs t n (statement f ≫= k) Q.
Proof.
  intros Hk. apply (runs_bind _ _ _ _ (λ a t', a = (f n t).1 ∧ t' = (f n t).2)); [by apply runs_statement|]. by intros ? ? [-> ->].
Qed.
Lemma runs_lift_bind {A B} t n (r : result A) (k : A → M (dbase T) B) Q :
  (∀ a, r = Ok a → runs t n (k a) Q) → runs t n (lift r ≫= k) Q.
Proof. intros Hk. apply (runs_bind _ _ _ _ (λ a t', r = Ok a ∧ t' = t)); [by apply runs_lift|]. intros ? ? [? ->]. auto. Qed.
Lemma runs_wrap_bind {A B} t n g (m : M (dbase T) A) (k : A → M (dbase T) B) Q :
  runs t n (m ≫= k) Q → runs t n (wrapM g m ≫= k) Q.
Proof.
  intros Hm w b w' Ht Hn H. apply bindM_ok in H as (a & w1 & H1%wrapM_ok & H2). eapply Hm; [done..|].
  apply bindM_ok. eauto.
Qed.
Lemma runs_assoc {A B C} t n (m : M (dbase T) A) (k : A → M (dbase T) B) (l : B → M (dbase T) C) Q :
  runs t n (m ≫= λ a, k a ≫= l) Q → runs t n ((m ≫= k) ≫= l) Q.
Proof.
  intros Hm w b w' Ht Hn H. apply bindM_ok in H as (a & w1 & H1 & H2). apply bindM_ok in H1 as (c & w2 & H1 & H3).
  eapply Hm; [done..|]. apply bindM_ok. exists c, w2. split; [done|]. apply bindM_ok. eauto.
Qed.
(** A read-only computation whose error the caller inspects. *)
Definition reads {A} (t : T) (n : Z) (m : M (dbase T) A) : Prop := ∀ w, tabs w = t → now w = n → tabs (m w).2 = t ∧ now (m w).2 = n.
Lemma runs_try_bind {A B} t n (m : M (dbase T) A) (k : result A → M (dbase T) B) R Q :
  reads t n m → runs t n m (λ a _, R a) →
  (∀ r, (∀ a, r = Ok a → R a) → runs t n (k r) Q) → runs t n (try m ≫= k) Q.
Proof.
  intros Hr Hm Hk w b w' Ht Hn H. apply bindM_ok in H as (r & w1 & H1 & H2).
  apply (proj1 (try_ok _ _ _ _)) in H1. destruct (Hr w Ht Hn) as [Ht1 Hn1]. rewrite H1 in Ht1, Hn1. eapply Hk; [|done..].
  intros a ->. exact (proj1 (Hm _ _ _ Ht Hn H1)).
Qed.
Lemma reads_query {A} t n (f : Z → T → A) : reads t n (query f).
Proof.
  intros w Ht Hn. unfold query, statement. destruct (db_aborted w); [done|]. by destruct (db_faults w (db_tick w)).
Qed.
Lemma reads_bind {A B} t n (m : M (dbase T) A) (k : A → M (dbase T) B) :
  reads t n m → (∀ a, reads t n (k a)) → reads t n (m ≫= k).
Proof.
  intros Hm Hk w Ht Hn. unfold mbind, M_bind. destruct (Hm w Ht Hn). destruct (m w) as [[a|e] w1]; [by apply Hk|done].
Qed.
Lemma reads_lift {A} t n (r : result A) : reads t n (lift r).
Proof. done. Qed.
Lemma reads_throw {A} t n e : reads t n (@throw (dbase T) A e).
Proof. done. Qed.
Lemma reads_wrap {A} t n f (m : M (dbase T) A) : reads t n m → reads t n (wrapM f m).
Proof. intros Hm w Ht Hn. destruct (Hm w Ht Hn). unfold wrapM. by destruct (m w). Qed.

(** ** What every statement respects

    [each R m]: the tables before and after [m] are related, however it ends. *)
Definition each (R : T → T → Prop) {A} (m : M (dbase T) A) : Prop := ∀ w, R (tabs w) (tabs (m w).2).

Section each.
Context (R : T → T → Prop) `{!PreOrder R}.

Lemma each_same {A} (m : M (dbase T) A) : (∀ w, tabs (m w).2 = tabs w) → each R m.
Proof. intros Hm w. by rewrite Hm. Qed.
Lemma each_ret {A} (a : A) : each R (mret a).
Proof. by apply each_same. Qed.
Lemma each_throw {A} e : each R (@throw (dbase T) A e).
Proof. by apply each_same. Qed.
Lemma each_lift {A} (r : result A) : each R (lift r).
Proof. by apply each_same. Qed.
Lemma each_bind {A B} (m : M (dbase T) A) (k : A → M (dbase T) B) :
  each R m → (∀ a, each R (k a)) → each R (m ≫= k).
Proof.
  intros Hm Hk w. unfold mbind, M_bind. specialize (Hm w). destruct (m w) as [[a|e] w1]; [|done].
  etrans; [exact Hm|apply Hk].
Qed.
Lemma each_wrap {A} g (m : M (dbase T) A) : each R m → each R (wrapM g m).
Proof. intros Hm w. unfold wrapM. specialize (Hm w). by destruct (m w). Qed.
Lemma each_try {A} (m : M (dbase T) A) : each R m → each R (try m).
Proof. intros Hm w. unfold try. specialize (Hm w). by destruct (m w). Qed.
Lemma each_statement {A} (f : Z → T → A * T) : (∀ n t, R t (f n t).2) → each R (statement f).
Proof.
  intros Hf w. unfold statement. destruct (db_aborted w); [done|]. destruct (db_faults w (db_tick w)); [done|].
  specialize (Hf (now w) (tabs w)). by destruct (f (now w) (tabs w)).
Qed.
Lemma each_query {A} (f : Z → T → A) : each R (query f).
Proof. by apply each_statement. Qed.
Lemma each_checked {A} (f : Z → T → result (A * T)) :
  (∀ n t a t', f n t = Ok (a, t') → R t t') → each R (checked f).
Proof.
  intros Hf w. unfold checked. destruct (db_aborted w); [done|]. destruct (db_faults w (db_tick w)); [done|].
  destruct (f (now w) (tabs w)) as [[a t]|e] eqn:E; [|done]. by eapply Hf.
Qed.
Lemma each_transaction {A} b c (body : M (dbase T) A) : each R body → each R (transaction_with b c body).
Proof.
  intros Hb w. destruct (transaction_with b c body w) as [r w'] eqn:E. simpl.
  destruct (transaction_cases _ _ _ _ _ _ E) as [[-> _]|(a & w1 & _ & E1 & -> & _)]; [done|].
  specialize (Hb (ticked_db (tabs w) false w)). by rewrite E1 in Hb.
Qed.
Lemma each_pool {A} (body : M (dbase T) A) : each R body → each R (pool body).
Proof. intros Hb w. rewrite pool_run. apply (Hb (ticked_db (tabs w) false w)). Qed.
Lemma each_iter {A} (f : A → M (dbase T) unit) l : (∀ x, each R (f x)) → each R (iterM f l).
Proof. intros Hf. induction l as [|x l IH]; simpl; [apply each_ret|]. by apply each_bind. Qed.
End each.

Lemma statement_tabs {A} (f : Z → T → A * T) w :
  tabs (statement f w).2 = tabs w ∨ tabs (statement f w).2 = (f (now w) (tabs w)).2.
Proof.
  unfold statement. destruct (db_aborted w); [by left|]. destruct (db_faults w (db_tick w)); [by left|].
  right. by destruct (f (now w) (tabs w)).
Qed.
Lemma wrapM_tabs {A} g (m : M (dbase T) A) w : tabs (wrapM g m w).2 = tabs (m w).2.
Proof. unfold wrapM. by destruct (m w). Qed.
End db.

Create HintDb reads_db.
#[export] Hint Resolve reads_query reads_bind reads_lift reads_throw reads_wrap : reads_db.

(** One step of the symbolic execution of a transaction. *)
Ltac run_step :=
  lazymatch goal with
  | |- runs _ _ (wrapM _ _ ≫= _) _ => apply runs_wrap_bind
  | |- runs _ _ ((_ ≫= _) ≫= _) _ => apply runs_assoc
  | |- runs _ _ (query _ ≫= _) _ => apply runs_query_bind
  | |- runs _ _ (statement _ ≫= _) _ => apply runs_statement_bind
  | |- runs _ _ (lift _ ≫= _) _ => let a := fresh "a" in let H := fresh "Hok" in apply runs_lift_bind; intros a H; inv_ok H
  | |- runs _ _ (throw _) _ => apply runs_throw
  | |- runs _ _ (throw _ ≫= _) _ => apply (runs_bind _ _ _ _ (λ _ _, False)); [apply runs_throw|done]
  | |- runs ?t ?n (mret ?a ≫= ?k) ?Q => change (runs t n (k a) Q)
  | |- runs _ _ (mret _) _ => apply runs_ret
  end.

(** Down to the statements. *)
Ltac each_step :=
  lazymatch goal with
  | |- each ?R (_ ≫= _) => apply (each_bind R); [|intros ?]
  | |- each ?R (wrapM _ _) => apply (each_wrap R)
  | |- each ?R (try _) => apply (each_try R)
  | |- each ?R (transaction _) => apply (each_transaction R)
  | |- each ?R (transaction_with _ _ _) => apply (each_transaction R)
  | |- each ?R (pool _) => apply (each_pool R)
  | |- each ?R (query _) => apply (each_query R)
  | |- each ?R (statement _) => apply (each_statement R); intros ? ?; simpl
  | |- each ?R (checked _) => apply (each_checked R); intros ? ? ? ? ?
  | |- each ?R (lift _) => apply (each_lift R)
  | |- each ?R (throw _) => apply (each_throw R)
  | |- each ?R (mret _) => apply (each_ret R)
  | |- each ?R (iterM _ _) => apply (each_iter R); intros ?
  | |- each _ (match ?x with _ => _ end) => destruct x
  | |- each _ ((match ?x with _ => _ end) _) => destruct x
  end.
Ltac each_steps := repeat (cbv beta zeta; each_step).
