(* ===== verification/Archive.v ===== *)
(** * Release package extraction (runner/internal/archive/extract.go)

    [Extract] unpacks an untrusted tar archive below a destination directory.
    The decoders of the standard library are parameters: [gzip_reader] gives
    the decompressed bytes with the read error that ends them, [tar_reader] the
    entries [tar.Reader.Next] returns one after the other (a cancelled context
    shows as a read error in the stream). *)
From S2P Require Import Prelude GoIO GoString GoPath OS Model.

Record tar_header := {
  h_Name : string; h_Typeflag : ascii; h_Size : Z; h_Linkname : string
}.

(** An entry with the bytes of its body that can be read before the stream
    ends or fails with [body_err]. *)
Inductive tar_item :=
  | TarEntry (h : tar_header) (body : bytes) (body_err : option goerr)
  | TarError (e : goerr).

Definition TypeReg : ascii := "0"%char.
Definition TypeRegA : ascii := "000"%char.
Definition TypeSymlink : ascii := "2"%char.
Definition TypeDir : ascii := "5"%char.
Definition TypeXGlobalHeader : ascii := "g"%char.

(* src: runner/internal/archive/extract.go:19-22 Result *)
Record Result := { Files : list string; ExtractedBytes : Z }.

(* src: runner/internal/archive/extract.go:132-137 validatePolicy *)
Definition validatePolicy (p : ExtractionPolicy) : result unit :=
  fail_if ((MaxArchiveBytes p <=? 0) || (MaxExtractedBytes p <=? 0) || (MaxFiles p <=? 0))
    (error_new "archive byte, extracted byte, and file count limits must be positive").

(* src: runner/internal/archive/extract.go:139-154 safeArchiveName *)
Definition safeArchiveName (name : string) : result string :=
  _ ← fail_if (bool_decide (name = "") || contains_byte NUL name) (error_new "empty name or NUL byte");
  _ ← fail_if (contains_byte "\"%char name) (error_new "backslash paths are rejected");
  _ ← fail_if (is_abs name) (error_new "absolute path");
  let cleaned := clean name in
  _ ← fail_if (escapes cleaned) (error_new "path traversal");
  Ok cleaned.

(* src: runner/internal/archive/extract.go:156-165 withinRoot *)
Definition withinRoot (root candidate : string) : result unit :=
  r ← rel root candidate;
  fail_if (escapes r || is_abs r) (error_new "path escapes extraction root").

(** The loop of [ensureParents] over the components below [current]. *)
(* src: runner/internal/archive/extract.go:179-194 ensureParents *)
Fixpoint ensureParents_loop (current : string) (components : list string) : M os unit :=
  match components with
  | [] => mret ()
  | component :: components =>
      let current := path_join [current; component] in
      info ← try (lstat current);
      match info with
      | Err e =>
          if errors_is ErrNotExist e then
            r ← try (mkdir current 488);
            match r with
            | Err e' => if errors_is ErrExist e' then ensureParents_loop current components else throw e'
            | Ok _ => ensureParents_loop current components
            end
          else throw e
      | Ok info =>
          if is_symlink info || negb (is_dir info)
          then throw (error_new "parent is not a real directory")
          else ensureParents_loop current components
      end
  end.

(* src: runner/internal/archive/extract.go:167-196 ensureParents *)
Definition ensureParents (root parent : string) : M os unit :=
  _ ← lift (withinRoot root parent);
  r ← lift (rel root parent);
  if bool_decide (r = ".") then mret ()
  else ensureParents_loop root (split_byte slash r).

(* src: runner/internal/archive/extract.go:198-210 makeDirectory *)
Definition makeDirectory (target : string) : M os unit :=
  info ← try (lstat target);
  match info with
  | Err e => if errors_is ErrNotExist e then mkdir target 488 else throw e
  | Ok info =>
      if negb (is_dir info) || is_symlink info
      then throw (error_new "directory entry conflicts with a non-directory")
      else mret ()
  end.

(* src: runner/internal/archive/extract.go:212-224 removeNonDirectory *)
Definition removeNonDirectory (target : string) : M os unit :=
  info ← try (lstat target);
  match info with
  | Err e => if errors_is ErrNotExist e then mret () else throw e
  | Ok info =>
      if is_dir info then throw (error_new "entry conflicts with an existing directory")
      else remove target
  end.

(** [io.CopyN] into the open file, then the error it reports. *)
Definition copy_n (loc : location) (body : bytes) (body_err : option goerr) (size : Z) : M os Z :=
  let data := take (Z.to_nat size) body in
  _ ← (if bool_decide (data = []) then mret () else write_open loc data);
  if blen data =? size then mret (blen data)
  else match body_err with
       | Some e => throw e
       | None => throw (Sentinel EOF)
       end.

(* src: runner/internal/archive/extract.go:226-249 writeRegularFile *)
Definition writeRegularFile (body : bytes) (body_err : option goerr) (target : string) (size : Z)
    : M os unit :=
  _ ← removeNonDirectory target;
  f ← open_excl target 416;
  copied ← try (copy_n f body body_err size);
  closed ← try (close_open f);
  match copied, closed with
  | Err copyErr, _ => _ ← try (remove target); throw copyErr
  | Ok _, Err closeErr => _ ← try (remove target); throw closeErr
  | Ok written, Ok _ =>
      if negb (written =? size)
      then _ ← try (remove target); throw (Sentinel ErrUnexpectedEOF)
      else mret ()
  end.

(* src: runner/internal/archive/extract.go:251-266 safeSymlinkTarget *)
Definition safeSymlinkTarget (entryName linkName : string) : result string :=
  _ ← fail_if (bool_decide (linkName = "") || is_abs linkName || contains_byte "\"%char linkName
               || contains_byte NUL linkName) (error_new "invalid symlink target");
  let resolved := clean (path_join [dir entryName; linkName]) in
  _ ← fail_if (escapes resolved) (error_new "symlink target escapes extraction root");
  rel (dir entryName) resolved.

(** One round of the loop of [Extract], after the entry count. *)
(* src: runner/internal/archive/extract.go:78-127 Extract *)
Definition extractEntry (root : string) (policy : ExtractionPolicy) (res : Result)
    (header : tar_header) (body : bytes) (body_err : option goerr) : M os Result :=
  name ← lift (map_err (Wrapf "unsafe tar entry %q: %w" [FStr (h_Name header)])
                 (safeArchiveName (h_Name header)));
  if bool_decide (name = ".") then mret res else
  let target := path_join [root; name] in
  _ ← lift (map_err (Wrapf "unsafe tar entry %q: %w" [FStr (h_Name header)]) (withinRoot root target));
  _ ← wrapM (Wrapf "unsafe parent for %q: %w" [FStr (h_Name header)]) (ensureParents root (dir target));
  let flag := h_Typeflag header in
  if bool_decide (flag = TypeDir) then
    _ ← wrapM (Wrapf "create directory %q: %w" [FStr (h_Name header)]) (makeDirectory target);
    mret res
  else if bool_decide (flag = TypeReg) || bool_decide (flag = TypeRegA) then
    _ ← lift (fail_if ((h_Size header <? 0)
                       || (i64 (MaxExtractedBytes policy - ExtractedBytes res) <? h_Size header))
                (Errorf "extracted bytes exceed limit %d" [FInt (MaxExtractedBytes policy)]));
    _ ← wrapM (Wrapf "extract %q: %w" [FStr (h_Name header)])
          (writeRegularFile body body_err target (h_Size header));
    mret {| Files := Files res ++ [name]; ExtractedBytes := i64 (ExtractedBytes res + h_Size header) |}
  else if bool_decide (flag = TypeSymlink) then
    _ ← lift (fail_if (negb (AllowSymlinks policy)) (Errorf "symlink %q is not allowed" [FStr (h_Name header)]));
    linkTarget ← lift (map_err (Wrapf "unsafe symlink %q: %w" [FStr (h_Name header)])
                         (safeSymlinkTarget name (h_Linkname header)));
    _ ← removeNonDirectory target;
    _ ← wrapM (Wrapf "create symlink %q: %w" [FStr (h_Name header)]) (symlink linkTarget target);
    mret res
  else if bool_decide (flag = TypeXGlobalHeader) then mret res
  else throw (Errorf "tar entry %q has unsupported type %d" [FStr (h_Name header); FInt (byte flag)]).

(** The loop of [Extract]: the result so far is returned with the error. *)
(* src: runner/internal/archive/extract.go:64-130 Extract *)
Fixpoint extractLoop (root : string) (policy : ExtractionPolicy) (items : list tar_item)
    (entryCount : Z) (res : Result) : M os (Result * option goerr) :=
  match items with
  | [] => mret (res, None)
  | TarError e :: _ => mret (res, Some (wrap "read tar entry: %w" e))
  | TarEntry header body body_err :: items =>
      let entryCount := entryCount + 1 in
      if MaxFiles policy <? entryCount then
        mret (res, Some (Errorf "archive entry count exceeds limit %d" [FInt (MaxFiles policy)]))
      else
        r ← try (extractEntry root policy res header body body_err);
        match r with
        | Err e => mret (res, Some e)
        | Ok res => extractLoop root policy items entryCount res
        end
  end.

Section extract.
Context (gzip_reader : bytes → result (bytes * option goerr)).
Context (tar_reader : bytes → option goerr → list tar_item).

(** The entries of an archive: gzip when the magic bytes say so. *)
(* src: runner/internal/archive/extract.go:51-63 Extract *)
Definition openArchive (data : bytes) : result (list tar_item) :=
  match data with
  | a :: b :: _ =>
      if (byte a =? 31) && (byte b =? 139) then
        '(plain, err) ← map_err (wrap "open gzip stream: %w") (gzip_reader data);
        Ok (tar_reader plain err)
      else Ok (tar_reader data None)
  | _ => Ok (tar_reader data None)
  end.

Definition Result_zero : Result := {| Files := []; ExtractedBytes := 0 |}.

(** Everything before the loop. *)
(* src: runner/internal/archive/extract.go:25-63 Extract *)
Definition prepareExtract (archivePath destination : string) (policy : ExtractionPolicy)
    : M os (string * list tar_item) :=
  _ ← lift (validatePolicy policy);
  info ← wrapM (wrap "inspect archive: %w") (lstat archivePath);
  _ ← lift (fail_if (negb (is_regular info))
              (error_new "archive must be a regular file (symlinks are rejected)"));
  _ ← lift (fail_if (MaxArchiveBytes policy <? node_size info)
              (Errorf "archive size %d exceeds limit %d" [FInt (node_size info); FInt (MaxArchiveBytes policy)]));
  _ ← wrapM (wrap "create extraction directory: %w") (mkdir_all destination 488);
  w ← gets id;
  let root := abs destination w in
  data ← wrapM (wrap "open archive: %w") (read_file archivePath);
  items ← lift (openArchive data);
  mret (root, items).

(* src: runner/internal/archive/extract.go:24-130 Extract *)
Definition Extract (archivePath destination : string) (policy : ExtractionPolicy)
    : M os (Result * option goerr) :=
  r ← try (prepareExtract archivePath destination policy);
  match r with
  | Err e => mret (Result_zero, Some e)
  | Ok (root, items) => extractLoop root policy items 0 Result_zero
  end.
End extract.

(** ** Names and link targets accepted by the checks *)
Lemma safeArchiveName_ok name n :
  safeArchiveName name = Ok n → ∃ l, n = rel_path l ∧ Forall normal l ∧ is_abs name = false.
Proof.
  unfold safeArchiveName. intros H. inv_ok H.
  destruct (clean_relative name) as (k & l & Hc & Hl); [done|]. rewrite Hc in *.
  rewrite escapes_rel_path in * by done. destruct k; [|done]. by exists l.
Qed.

(** A link in directory [d] (below the root) whose target climbs at most to
    the root and then only descends. *)
Definition safe_target (d : list string) (t : string) : Prop :=
  ∃ k l, t = rel_path (dotdots k ++ l) ∧ (k ≤ length d)%nat ∧ Forall normal l.

Lemma dir_rel_path d x : Forall normal d → normal x → dir (rel_path (d ++ [x])) = rel_path d.
Proof.
  intros Hd Hx. unfold dir. destruct d as [|y d].
  - change (rel_path ([] ++ [x])) with x. by rewrite last_index_byte_free by apply Hx.
  - change (rel_path ((y :: d) ++ [x])) with (join sep ((y :: d) ++ [x])).
    rewrite join_snoc, last_index_byte_last by apply Hx.
    change (String slash x) with ("/" +:+ x). rewrite <- str_app_assoc.
    replace (Z.to_nat (slen (join sep (y :: d)) + 1)) with (String.length (join sep (y :: d) +:+ "/")).
    2:{ pose proof (slen_app (join sep (y :: d)) "/") as Hs. change (slen "/") with 1 in Hs.
        unfold slen in *. lia. }
    rewrite take_str_app. unfold clean.
    change (join sep (y :: d)) with (rel_path (y :: d)).
    destruct (rel_path_app (y :: d) "/") as [Hne ->]; [by apply plain_normal|].
    rewrite bool_decide_false by done.
    change (rel_path (y :: d) +:+ "/") with (rel_path (y :: d) +:+ String slash "").
    rewrite split_byte_cat, split_rel_path by by apply plain_normal.
    unfold clean_comps. rewrite foldl_app.
    change (foldl (clean_step false) [] _) with (foldl (clean_step false) [] (y :: d)).
    rewrite (foldl_clean_normal false [] (y :: d)) by done.
    rewrite app_nil_r. f_equal. exact (reverse_involutive (y :: d)).
Qed.

Lemma rel_relative d t :
  Forall normal d → Forall normal t →
  ∃ k l, rel (rel_path d) (rel_path t) = Ok (rel_path (dotdots k ++ l)) ∧
         (k ≤ length d)%nat ∧ Forall normal l.
Proof.
  intros Hd Ht. unfold rel.
  rewrite !clean_rel_normal by done.
  rewrite !is_abs_rel_path, !comps_rel_path by by apply plain_normal. simpl.
  destruct (strip_common d t) as [d' t'] eqn:E. apply strip_common_spec in E as (p & -> & ->).
  apply Forall_app in Hd as [_ Hd], Ht as [_ Ht].
  exists (length d'), t'. rewrite length_app. split_and!; [|lia|done].
  destruct d' as [|w d']; [done|]. rewrite bool_decide_false by (inversion Hd as [|? ? Hw]; apply Hw).
  by rewrite fmap_dotdots.
Qed.

Lemma safeSymlinkTarget_ok d x link t :
  Forall normal (d ++ [x]) → safeSymlinkTarget (rel_path (d ++ [x])) link = Ok t → safe_target d t.
Proof.
  intros [Hd Hx]%Forall_app H. inversion Hx; subst. unfold safeSymlinkTarget in H.
  rewrite dir_rel_path in H by done. inv_ok H.
  set (s := path_join [rel_path d; link]) in *.
  assert (is_abs s = false) as Hs.
  { unfold s, path_join. rewrite bool_decide_false by by apply rel_path_not_empty, plain_normal.
    change (join sep [rel_path d; link]) with (rel_path d +:+ "/" +:+ link).
    destruct (rel_path_app d ("/" +:+ link)) as [_ Ha]; [by apply plain_normal|].
    destruct (clean_relative _ Ha) as (k & l & -> & Hl). by apply is_abs_rel_path, plain_dotdots. }
  destruct (clean_relative s Hs) as (k & l & Hc & Hl). rewrite Hc in *.
  rewrite escapes_rel_path in * by done. destruct k; [|done].
  destruct (rel_relative d l Hd Hl) as (k' & l' & Hr & ? & ?).
  change (dotdots 0 ++ l) with l in H. rewrite Hr in H. simplify_eq. by exists k', l'.
Qed.

Lemma rel_path_not_dot l : Forall normal l → l ≠ [] → rel_path l ≠ ".".
Proof.
  intros Hl Hne H. apply (f_equal comps) in H. rewrite comps_rel_path in H by by apply plain_normal.
  by rewrite H in Hne.
Qed.

(** ** The destination tree *)
Section tree.
Context (r : location) (Hr : Forall normal r) (m0 : filesystem).

(** Nothing outside the destination [r] differs from [m0], [r] is reached
    without a link, and every link below it has a safe target. *)
Record tree_ok (m : filesystem) : Prop := {
  tree_outside : ∀ p, ¬ r `prefix_of` p → m !! p = m0 !! p;
  tree_root : real_dir m r;
  tree_links : ∀ d x n t,
    m !! (r ++ d ++ [x]) = Some n → n_kind n = KSymlink t → safe_target d t
}.

Definition tree_at (d : list string) (m : filesystem) : Prop :=
  tree_ok m ∧ real_dir m (r ++ d).

Lemma tree_at_real d m : tree_at d m → real_dir m (r ++ d).
Proof. by intros []. Qed.
Lemma tree_at_ok d m : tree_at d m → tree_ok m.
Proof. by intros []. Qed.

Lemma under_root d x p : ¬ r `prefix_of` p → p ≠ r ++ d ++ [x].
Proof. intros Hp ->. apply Hp. by eexists. Qed.

Lemma tree_at_insert d x n m :
  tree_at d m → (∀ t, n_kind n = KSymlink t → safe_target d t) →
  tree_at d (<[(r ++ d) ++ [x] := n]> m).
Proof.
  intros [[Ho Hroot Hl] Hd] Hn. split; [constructor|].
  - intros p Hp. rewrite lookup_insert_ne; [by apply Ho|]. apply not_eq_sym.
    rewrite <- (assoc_L (++)). by apply under_root.
  - eapply real_dir_prefix; [|by apply real_dir_insert]. by eexists.
  - intros d' x' n' t' Hn' Hk.
    destruct (decide ((r ++ d) ++ [x] = r ++ d' ++ [x'])) as [Heq|Hne].
    + rewrite Heq, lookup_insert_eq in Hn'. simplify_eq.
      rewrite <- (assoc_L (++)) in Heq. apply app_inv_head in Heq.
      apply app_inj_tail in Heq as [<- _]. by apply Hn.
    + rewrite lookup_insert_ne in Hn' by done. by eapply Hl.
  - by apply real_dir_insert.
Qed.

Lemma tree_at_delete d x m : tree_at d m → tree_at d (delete ((r ++ d) ++ [x]) m).
Proof.
  intros [[Ho Hroot Hl] Hd]. split; [constructor|].
  - intros p Hp. rewrite lookup_delete_ne; [by apply Ho|]. apply not_eq_sym.
    rewrite <- (assoc_L (++)). by apply under_root.
  - eapply real_dir_prefix; [|by apply real_dir_delete]. by eexists.
  - intros d' x' n' t' Hn' Hk. apply lookup_delete_Some in Hn' as [_ Hn']. by eapply Hl.
  - by apply real_dir_delete.
Qed.

Lemma tree_at_down d x n m :
  tree_at d m → m !! ((r ++ d) ++ [x]) = Some n → n_kind n = KDir → tree_at (d ++ [x]) m.
Proof.
  intros [Ht Hd] Hn Hk. split; [done|]. rewrite (assoc_L (++)). by eapply real_dir_snoc.
Qed.

Lemma abs_path_child d x : Forall normal (d ++ [x]) →
  path_join [abs_path (r ++ d); x] = abs_path ((r ++ d) ++ [x]).
Proof.
  intros [Hd Hx]%Forall_app. inversion Hx; subst. apply path_join_child; [|done].
  by apply Forall_app.
Qed.

Lemma ensureParents_loop_ok d l :
  Forall normal (d ++ l) →
  triple (fsP (tree_at d)) (ensureParents_loop (abs_path (r ++ d)) l)
    (λ _, fsP (tree_at (d ++ l))) (fsP tree_ok).
Proof.
  revert d. induction l as [|c l IH]; intros d Hdl.
  { rewrite app_nil_r. by apply triple_ret. }
  assert (Forall normal (d ++ [c])) as Hdc.
  { rewrite (cons_middle c d l), (assoc_L (++)) in Hdl. by apply Forall_app in Hdl as [? _]. }
  assert (∀ w, fsP (tree_at (d ++ [c])) w →
    match ensureParents_loop (abs_path ((r ++ d) ++ [c])) l w with
    | (Ok _, w') => fsP (tree_at (d ++ c :: l)) w' | (Err _, w') => fsP tree_ok w' end) as Hrest.
  { intros w Hw. pose proof (IH (d ++ [c])) as Hc. rewrite <- !(assoc_L (++)) in Hc. simpl in Hc.
    rewrite <- (assoc_L (++)). by apply (Hc Hdl). }
  intros w Hw. cbn [ensureParents_loop]. rewrite abs_path_child by done.
  assert (Forall normal ((r ++ d) ++ [c])) as Hfull by (rewrite <- (assoc_L (++)); by apply Forall_app).
  unfold mbind, M_bind, try at 1.
  destruct (lstat_child_cases (r ++ d) c Hfull (tree_at d) (tree_at_real d) w Hw)
    as [(n & Hn & ->)|[[Hn ->]|[e ->]]].
  - destruct (is_symlink n || negb (is_dir n)) eqn:E; [by apply (tree_at_ok d)|].
    apply Hrest. eapply tree_at_down; [exact Hw | exact Hn |].
    unfold is_dir in E. destruct (n_kind n); simpl in E; rewrite ?orb_true_r in E; done.
  - change (errors_is ErrNotExist ENOENT) with true. cbv iota beta. unfold try at 1.
    destruct (mkdir_vacant (r ++ d) c Hfull (tree_at d) (tree_at_real d) 488 (ticked w) Hw Hn)
      as [(n & Hk & ->)|[e ->]]; [|by apply (tree_at_ok d)].
    apply Hrest. unfold fsP. simpl. eapply tree_at_down.
    + apply tree_at_insert; [exact Hw|]. intros t. by rewrite Hk.
    + apply lookup_insert_eq.
    + done.
  - by apply (tree_at_ok d).
Qed.

Lemma tree_ok_nil m : tree_ok m → tree_at [] m.
Proof. intros H. split; [done|]. rewrite app_nil_r. apply H. Qed.

Lemma ensureParents_ok d :
  Forall normal d →
  triple (fsP tree_ok) (ensureParents (abs_path r) (abs_path (r ++ d)))
    (λ _, fsP (tree_at d)) (fsP tree_ok).
Proof.
  intros Hd. unfold ensureParents. rewrite rel_child by done.
  apply (triple_bind _ _ _ (λ _, fsP tree_ok)); [by apply triple_lift|]. intros _.
  apply (triple_bind _ _ _ (λ s w, s = rel_path d ∧ fsP tree_ok w)).
  { apply triple_lift; [|done]. intros a w [= <-]. done. }
  intros s w [-> Hw]. destruct d as [|x d].
  { rewrite bool_decide_true by done. apply tree_ok_nil, Hw. }
  rewrite bool_decide_false by by apply rel_path_not_dot.
  rewrite split_rel_path by by apply plain_normal.
  pose proof (ensureParents_loop_ok [] (x :: d) Hd) as H. rewrite app_nil_r in H.
  apply (H w). by apply tree_ok_nil.
Qed.

(** The operations at the child [x] of the directory [d] below the root. *)
Section entry.
Context (d : list string) (x : string) (Hdx : Forall normal ((r ++ d) ++ [x])).
Local Abbreviation target := (abs_path ((r ++ d) ++ [x])).
Local Abbreviation I := (fsP (tree_at d)).

Lemma lstat_ok :
  triple I (try (lstat target)) (λ i, fsP (λ m, tree_at d m ∧
    match i with Ok n => m !! ((r ++ d) ++ [x]) = Some n | Err _ => True end)) (λ _, False).
Proof.
  eapply triple_conseq; [apply triple_try, (lstat_child _ _ Hdx _ (tree_at_real d))|done| |done].
  by intros [n|e] w ?.
Qed.

Lemma makeDirectory_ok :
  triple I (makeDirectory target)
    (λ _, fsP (λ m, tree_at d m ∧ ∃ n, m !! ((r ++ d) ++ [x]) = Some n ∧ n_kind n = KDir)) I.
Proof.
  eapply triple_bind; [eapply triple_conseq; [apply lstat_ok|done..]|].
  intros [n|e] w [Hw Hn]; revert w Hw Hn.
  - intros w Hw Hn. destruct (negb (is_dir n) || is_symlink n) eqn:E; [done|].
    split; [done|]. exists n. split; [done|]. unfold is_dir, is_symlink in E.
    by destruct (n_kind n).
  - intros w Hw _. destruct (errors_is ErrNotExist e); [|done]. revert w Hw.
    apply (mkdir_child _ _ Hdx _ (tree_at_real d)). intros m n Hm _ Hk. split.
    + apply tree_at_insert; [done|]. intros t. by rewrite Hk.
    + exists n. by rewrite lookup_insert_eq.
Qed.

Lemma remove_ok : preserves I (remove target).
Proof.
  apply (remove_child _ _ Hdx _ (tree_at_real d)). intros m n Hm _ _. by apply tree_at_delete.
Qed.

Lemma removeNonDirectory_ok : preserves I (removeNonDirectory target).
Proof.
  eapply triple_bind; [eapply triple_conseq; [apply lstat_ok|done..]|].
  intros i. apply (triple_conseq _ I _ _ (λ _, I) _ I); [|by intros w []|done..]. revert i.
  intros [n|e]; case_match.
  - by apply preserves_throw.
  - apply remove_ok.
  - by apply preserves_ret.
  - by apply preserves_throw.
Qed.

Lemma symlink_ok t : safe_target d t →
  triple I (symlink t target)
    (λ _, fsP (λ m, tree_at d m ∧ ∃ n, m !! ((r ++ d) ++ [x]) = Some n ∧ n_kind n = KSymlink t)) I.
Proof.
  intros Ht. apply (symlink_child _ _ Hdx _ (tree_at_real d)). intros m n Hm _ Hk. split.
  - apply tree_at_insert; [done|]. intros t'. rewrite Hk. by intros [= <-].
  - exists n. by rewrite lookup_insert_eq.
Qed.

(** The file being written, with the bytes it holds so far. *)
Definition tree_file (c : bytes) (m : filesystem) : Prop :=
  tree_at d m ∧ ∃ n, m !! ((r ++ d) ++ [x]) = Some n ∧ n_kind n = KReg c.

Lemma tree_file_at c w : fsP (tree_file c) w → I w.
Proof. by intros []. Qed.

Lemma tree_file_append c data m :
  tree_file c m → tree_file (c ++ data) (alter (append_node data) ((r ++ d) ++ [x]) m).
Proof.
  intros (Ht & n & Hn & Hk).
  assert (alter (append_node data) ((r ++ d) ++ [x]) m
          = <[(r ++ d) ++ [x] := append_node data n]> m) as ->.
  { apply map_eq. intros p. destruct (decide (p = (r ++ d) ++ [x])) as [->|Hne].
    - by rewrite lookup_alter_eq, lookup_insert_eq, Hn.
    - by rewrite lookup_alter_ne, lookup_insert_ne. }
  split.
  - apply tree_at_insert; [done|]. intros t. simpl. by rewrite Hk.
  - exists (append_node data n). rewrite lookup_insert_eq. simpl. by rewrite Hk.
Qed.

Lemma write_open_ok c data :
  triple (fsP (tree_file c)) (write_open ((r ++ d) ++ [x]) data) (λ _, fsP (tree_file (c ++ data))) I.
Proof.
  intros w Hw. unfold write_open. repeat case_match; simplify_eq;
    [eapply tree_file_at|]; by apply tree_file_append.
Qed.

Lemma close_open_ok loc (P : filesystem → Prop) : preserves (fsP P) (close_open loc).
Proof. apply (sys_triple P _ (λ _, P)). by intros w a m Hw [= _ <-]. Qed.

Lemma copy_n_ok body e size :
  triple (fsP (tree_file [])) (copy_n ((r ++ d) ++ [x]) body e size)
    (λ z, fsP (λ m, z = blen (take (Z.to_nat size) body) ∧ tree_file (take (Z.to_nat size) body) m)) I.
Proof.
  unfold copy_n. set (data := take _ _).
  apply (triple_bind _ _ _ (λ _, fsP (tree_file data))).
  - case_bool_decide as Hd; [rewrite Hd; by apply triple_ret | apply (write_open_ok [])].
  - intros _. destruct (blen data =? size); [by apply triple_ret|].
    destruct e; apply triple_throw; apply tree_file_at.
Qed.

(** Success means that the file holds exactly the declared bytes. *)
Lemma writeRegularFile_ok body e size :
  triple I (writeRegularFile body e target size)
    (λ _, fsP (λ m, blen (take (Z.to_nat size) body) = size
                    ∧ tree_file (take (Z.to_nat size) body) m)) I.
Proof.
  assert (∀ (Q : unit → os → Prop) (err : goerr),
    triple I (_ ← try (remove target); throw err) Q I) as Hclean.
  { intros Q err. apply (triple_bind _ _ _ (λ _, I)); [apply preserves_try, remove_ok|].
    intros _. by apply triple_throw. }
  unfold writeRegularFile.
  apply (triple_bind _ _ _ (λ _, I)); [apply removeNonDirectory_ok|]. intros _.
  apply (triple_bind _ _ _ (λ loc, fsP (λ m, loc = (r ++ d) ++ [x] ∧ tree_file [] m))).
  { apply (open_excl_child _ _ Hdx _ (tree_at_real d)). intros m n Hm _ Hk. split.
    - apply tree_at_insert; [done|]. intros t. by rewrite Hk.
    - exists n. by rewrite lookup_insert_eq. }
  intros loc w [-> Hw]. revert w Hw. set (data := take _ _).
  set (R := λ (c : result Z) m, match c with Ok z => z = blen data ∧ tree_file data m | Err _ => tree_at d m end).
  eapply (triple_bind _ _ _ (λ c, fsP (R c))).
  { eapply triple_conseq; [apply triple_try, (copy_n_ok body e size) | done | by intros [] | done]. }
  intros copied.
  eapply (triple_bind _ _ _ (λ _, fsP (R copied))).
  { eapply triple_conseq; [apply preserves_try, (close_open_ok _ (R copied))| done.. |].
    destruct copied; [by intros w (? & ? & ?) | done]. }
  intros closed. destruct copied as [z|err]; simpl; [|apply Hclean].
  assert (∀ w, fsP (R (Ok z)) w → I w) as HR by by intros w (? & ? & ?).
  destruct closed; [|intros w ?; by apply Hclean, HR].
  destruct (z =? size) eqn:E; simpl; [|intros w ?; by apply Hclean, HR].
  apply triple_ret. intros w [-> ?]. split; [lia|done].
Qed.
End entry.

(** What a successful round of the loop did for [header]. *)
Definition entry_effect (policy : ExtractionPolicy) (header : tar_header) (body : bytes)
    (res res' : Result) (m : filesystem) : Prop :=
  ∃ l, safeArchiveName (h_Name header) = Ok (rel_path l) ∧ Forall normal l ∧
    (res' = res ∧
       (l = []
        ∨ h_Typeflag header = TypeXGlobalHeader
        ∨ h_Typeflag header = TypeDir ∧ (∃ n, m !! (r ++ l) = Some n ∧ n_kind n = KDir)
        ∨ h_Typeflag header = TypeSymlink ∧ AllowSymlinks policy = true ∧
            (∃ n t, safeSymlinkTarget (rel_path l) (h_Linkname header) = Ok t
                    ∧ m !! (r ++ l) = Some n ∧ n_kind n = KSymlink t))
     ∨ (h_Typeflag header = TypeReg ∨ h_Typeflag header = TypeRegA)
       ∧ 0 ≤ h_Size header ≤ i64 (MaxExtractedBytes policy - ExtractedBytes res)
       ∧ Files res' = Files res ++ [rel_path l]
       ∧ ExtractedBytes res' = i64 (ExtractedBytes res + h_Size header)
       ∧ blen (take (Z.to_nat (h_Size header)) body) = h_Size header
       ∧ ∃ n, m !! (r ++ l) = Some n ∧ n_kind n = KReg (take (Z.to_nat (h_Size header)) body)).

Lemma extractEntry_ok policy res header body err :
  triple (fsP tree_ok) (extractEntry (abs_path r) policy res header body err)
    (λ res', fsP (λ m, tree_ok m ∧ entry_effect policy header body res res' m)) (fsP tree_ok).
Proof.
  unfold extractEntry. destruct (safeArchiveName (h_Name header)) as [name|e] eqn:Hname;
    [|by apply triple_throw].
  destruct (safeArchiveName_ok _ _ Hname) as (l & -> & Hl & _).
  eapply triple_bind.
  { apply (triple_lift _ _ (λ s, fsP (λ m, s = rel_path l ∧ tree_ok m))); [|done]. by intros a w [= <-] ?. }
  intros name w [-> Hw]. revert w Hw.
  case_bool_decide as Hdot.
  { intros w Hw. split; [done|]. exists l. split_and!; [done..|]. left. split; [done|]. left.
    destruct l; [done|]. by apply rel_path_not_dot in Hdot. }
  destruct l as [|x d _] using rev_ind; [done|].
  assert (Forall normal d ∧ normal x) as [Hd Hx].
  { apply Forall_app in Hl as [? H]. by inversion H. }
  assert (Forall normal ((r ++ d) ++ [x])) as Hdx by (rewrite <- (assoc_L (++)); by apply Forall_app).
  rewrite path_join_rel_path by done. rewrite (assoc_L (++)).
  rewrite dir_abs_path by (done || by apply Forall_app).
  apply (triple_bind _ _ _ (λ _, fsP tree_ok)); [by apply triple_lift|]. intros _.
  apply (triple_bind _ _ _ (λ _, fsP (tree_at d))); [by apply triple_wrap, ensureParents_ok|]. intros _.
  assert (∀ w, fsP (tree_at d) w → fsP tree_ok w) as Hroot by by intros w [].
  case_bool_decide as Hdir.
  { eapply triple_seq; [by apply triple_wrap, makeDirectory_ok|exact Hroot|]. intros []. apply triple_ret. intros w [[Hw _] Hn]. split; [done|]. exists (d ++ [x]).
    rewrite (assoc_L (++)). naive_solver. }
  destruct (bool_decide (h_Typeflag header = TypeReg) || _) eqn:Hreg.
  { apply (triple_bind _ _ _ (λ _, fsP (λ m, tree_at d m ∧
      0 ≤ h_Size header ≤ i64 (MaxExtractedBytes policy - ExtractedBytes res)))).
    { apply triple_lift; [|exact Hroot]. intros u w [H1 H2]%fail_if_ok%orb_false_iff Hw. split; [done|lia]. }
    intros _ w [Hw Hsize]. revert w Hw.
    eapply triple_seq; [by apply triple_wrap, writeRegularFile_ok|exact Hroot|].
    intros []. apply triple_ret. intros w [Hlen [[Hw _] Hn]]. split; [done|]. exists (d ++ [x]).
    split; [done|]. split; [done|]. right. rewrite (assoc_L (++) r).
    split; [|repeat (split; [done|]); exact Hn].
    apply orb_true_iff in Hreg as [->%bool_decide_eq_true | ->%bool_decide_eq_true]; auto. }
  clear Hreg. case_bool_decide as Hsym.
  { destruct (AllowSymlinks policy) eqn:Hallow; [|intros w Hw; by apply Hroot].
    eapply triple_bind; [apply (triple_lift _ _ (λ _, fsP (tree_at d))); [done|exact Hroot]|]. intros [].
    destruct (safeSymlinkTarget _ _) as [t|e] eqn:Ht; [|intros w Hw; by apply Hroot].
    eapply triple_bind; [apply (triple_lift _ _ (λ t', fsP (λ m, t' = t ∧ tree_at d m)))|].
    { intros a w [= <-] Hw. done. }
    { exact Hroot. }
    intros t' w [-> Hw]. revert w Hw. eapply triple_seq; [by apply removeNonDirectory_ok|exact Hroot|].
    intros []. eapply triple_seq.
    { apply triple_wrap, symlink_ok; [done|by eapply safeSymlinkTarget_ok]. }
    { exact Hroot. }
    intros []. apply triple_ret. intros w [[Hw _] Hn]. split; [done|]. exists (d ++ [x]).
    rewrite (assoc_L (++)). naive_solver. }
  case_bool_decide as Hg; [|by apply triple_throw].
  apply triple_ret. intros w Hw. split; [by apply Hroot|]. exists (d ++ [x]). naive_solver.
Qed.

(** An entry that extraction accepts. *)
Definition entry_allowed (policy : ExtractionPolicy) (item : tar_item) : Prop :=
  match item with
  | TarError _ => False
  | TarEntry h _ _ =>
      ∃ l, safeArchiveName (h_Name h) = Ok (rel_path l) ∧ Forall normal l ∧
        (l = [] ∨ h_Typeflag h ∈ [TypeXGlobalHeader; TypeDir; TypeReg; TypeRegA]
         ∨ h_Typeflag h = TypeSymlink ∧ AllowSymlinks policy = true
           ∧ is_ok (safeSymlinkTarget (rel_path l) (h_Linkname h)) = true)
  end.

Lemma entry_effect_allowed policy h body e res res' m :
  entry_effect policy h body res res' m → entry_allowed policy (TarEntry h body e).
Proof.
  intros (l & Hn & Hl & H). exists l. split; [done|]. split; [done|].
  destruct H as [[_ [?|[Hf|[[Hf _]|(? & ? & n & t & Ht & _)]]]]|[[Hf|Hf] _]];
    [by left| | |right; right; by rewrite Ht| |]; right; left; rewrite Hf; set_solver.
Qed.

Definition within_quota (policy : ExtractionPolicy) (res : Result) (count : Z) : Prop :=
  0 ≤ ExtractedBytes res ≤ MaxExtractedBytes policy ∧ Z.of_nat (length (Files res)) ≤ count.

Lemma entry_effect_quota policy h body res res' m count :
  in_i64 (MaxExtractedBytes policy) →
  entry_effect policy h body res res' m → within_quota policy res count →
  within_quota policy res' (count + 1).
Proof.
  unfold in_i64, int64_min, int64_max. intros Hmax (l & _ & _ & H) [Hb Hf].
  destruct H as [[-> _]|(_ & Hsize & HF & HB & _)]; [split; lia|].
  rewrite i64_id in Hsize by (unfold in_i64, int64_min, int64_max; lia).
  rewrite i64_id in HB by (unfold in_i64, int64_min, int64_max; lia).
  split; [lia|]. rewrite HF, length_app. simpl. lia.
Qed.

Lemma extractLoop_ok policy items count res :
  in_i64 (MaxExtractedBytes policy) → within_quota policy res count → count ≤ MaxFiles policy →
  triple (fsP tree_ok) (extractLoop (abs_path r) policy items count res)
    (λ out, fsP (λ m, tree_ok m ∧ within_quota policy out.1 (MaxFiles policy)
                      ∧ (out.2 = None → Forall (entry_allowed policy) items)))
    (λ _, False).
Proof.
  intros Hmax. revert count res. induction items as [|item items IH]; intros count res Hq Hc.
  { apply triple_ret. intros w Hw. split; [done|]. split; [|by constructor].
    destruct Hq. split; simpl; [done|lia]. }
  destruct Hq as [Hb Hf]. assert (within_quota policy res (MaxFiles policy)) by (split; [done|lia]).
  destruct item as [h body e|e]; [|by apply triple_ret]. simpl.
  destruct (MaxFiles policy <? count + 1) eqn:E; [by apply triple_ret|].
  eapply triple_bind; [apply triple_try, extractEntry_ok|].
  intros [res'|err]; [|by apply triple_ret].
  intros w [Hw Heff]. revert w Hw Heff. intros w Hw Heff.
  pose proof (IH (count + 1) res') as H'. specialize (H' (entry_effect_quota _ _ _ _ _ _ _ Hmax Heff (conj Hb Hf))).
  specialize (H' ltac:(lia) w Hw).
  destruct (extractLoop _ _ _ _ _ w) as [[out|err] w']; [|done].
  destruct H' as (? & ? & Hall). split; [done|]. split; [done|]. intros Hnone.
  constructor; [by eapply entry_effect_allowed | by apply Hall].
Qed.
End tree.

(** ** Creating the destination *)
(** [MkdirAll] leaves a tree whose directories all exist as it is. *)
Lemma mkdir_all_loop_real l perm m1 :
  Forall normal l → real_dir m1 l → preserves (fsP (eq m1)) (mkdir_all_loop (reverse l) perm).
Proof.
  intros Hl Hd. induction l as [|x l IH] using rev_ind.
  - simpl. apply preserves_bind; [apply preserves_try, stat_with_keeps|]. intros [n|e]; [|by apply preserves_ret].
    case_match; [by apply preserves_ret|by apply preserves_throw].
  - assert (Forall normal l) as Hl' by by apply Forall_app in Hl as [? _].
    assert (preserves (fsP (eq m1)) (mkdir_all_loop (reverse l) perm)) as Hup.
    { apply IH; [done|]. eapply real_dir_prefix; [by eexists|done]. }
    rewrite reverse_snoc. cbn [mkdir_all_loop].
    rewrite reverse_cons, reverse_involutive.
    apply preserves_bind; [apply preserves_try, stat_with_keeps|]. intros [n|e].
    { case_match; [by apply preserves_ret|by apply preserves_throw]. }
    apply preserves_bind; [case_match; [by apply preserves_ret|done]|]. intros _.
    apply preserves_bind.
    { apply preserves_try. apply (mkdir_child _ _ Hl (eq m1)).
      - intros m <-. eapply real_dir_prefix; [by eexists|done].
      - intros m n <- Hn. by destruct (real_dir_lookup _ _ _ Hd) as (? & ? & ?); simplify_eq. }
    intros [u|e']; [by apply preserves_ret|].
    apply preserves_bind; [apply preserves_try, stat_with_keeps|]. intros [n|e'']; [|by apply preserves_throw].
    case_match; [by apply preserves_ret|by apply preserves_throw].
Qed.

(** The destination [r] that [Extract] needs: its parent exists, nothing but a
    directory is at [r], and links already below it have safe targets. *)
Record extract_ready (r : location) (m : filesystem) : Prop := {
  ready_normal : Forall normal r;
  ready_parent : ∃ up x, r = up ++ [x] ∧ real_dir m up;
  ready_root : ∀ n, m !! r = Some n → n_kind n = KDir;
  ready_links : ∀ d x n t,
    m !! (r ++ d ++ [x]) = Some n → n_kind n = KSymlink t → safe_target d t
}.

Lemma stat_vacant r x w :
  Forall normal (r ++ [x]) → real_dir (fs w) r → fs w !! (r ++ [x]) = None →
  ∃ e, stat (abs_path (r ++ [x])) w = (Err e, ticked w).
Proof.
  intros Hr Hd Hn. unfold stat, stat_with, sys. destruct (faults w (tick w)) as [[e n]|]; [by eauto|].
  rewrite resolve_abs by done. apply Forall_app in Hr as [Hr Hx]. inversion Hx; subst.
  rewrite walk_real_dir, walk_normal, Hn by done. rewrite bool_decide_true by done. simpl. rewrite Hn. by eauto.
Qed.

Lemma tree_ok_start r m0 : extract_ready r m0 → real_dir m0 r → tree_ok r m0 m0.
Proof. intros [_ _ _ Hl] Hd. by constructor. Qed.

Lemma tree_ok_created up x m0 n :
  extract_ready (up ++ [x]) m0 → real_dir m0 up → n_kind n = KDir →
  tree_ok (up ++ [x]) m0 (<[up ++ [x] := n]> m0).
Proof.
  intros [_ _ _ Hl] Hup Hk. constructor.
  - intros p Hp. apply lookup_insert_ne. intros <-. by apply Hp.
  - eapply real_dir_snoc; [by apply real_dir_insert|apply lookup_insert_eq|done].
  - intros d x' n' t Hn'. rewrite lookup_insert_ne in Hn'; [by eapply Hl|].
    intros H. apply (f_equal length) in H. rewrite !length_app in H. simpl in H. lia.
Qed.

Lemma mkdir_all_ready r m0 :
  extract_ready r m0 →
  triple (fsP (eq m0)) (mkdir_all (abs_path r) 488) (λ _, fsP (tree_ok r m0)) (fsP (eq m0)).
Proof.
  intros Hready. pose proof Hready as [Hr (up & x & -> & Hup) Hroot Hl].
  unfold mkdir_all. eapply triple_bind.
  { apply (triple_gets _ _ (λ w', fsP (λ m, abs (abs_path (up ++ [x])) w' = abs_path (up ++ [x]) ∧ m0 = m))).
    intros w Hw. split; [|done]. unfold abs. rewrite is_abs_abs_path. by apply clean_abs_path. }
  intros w0 w [-> Hw]. revert w Hw. rewrite comps_abs_path by done.
  destruct (m0 !! (up ++ [x])) as [n|] eqn:Hn.
  { assert (real_dir m0 (up ++ [x])) as Hd by (eapply real_dir_snoc; eauto).
    eapply triple_conseq; [by apply mkdir_all_loop_real|done| |done].
    intros [] w Hw. unfold fsP in *. rewrite <- Hw. by apply tree_ok_start. }
  rewrite reverse_snoc. cbn [mkdir_all_loop]. rewrite reverse_cons, reverse_involutive.
  eapply (triple_bind _ _ _ (λ i w, is_ok i = false ∧ fsP (eq m0) w)).
  { intros w Hw. unfold try. unfold fsP in Hw. subst m0.
    destruct (stat_vacant _ _ _ Hr Hup Hn) as [e ->]. done. }
  intros [i|e] w [Hi Hw]; [done|]. revert w Hw.
  apply (triple_bind _ _ _ (λ _, fsP (eq m0))).
  { case_match eqn:Hrev; [by apply triple_ret|]. rewrite <- Hrev. apply mkdir_all_loop_real; [|done].
    by apply Forall_app in Hr as [? _]. }
  intros []. apply (triple_bind _ _ _ (λ i w, if is_ok i then fsP (tree_ok (up ++ [x]) m0) w else fsP (eq m0) w)).
  { eapply triple_conseq; [eapply triple_try, (mkdir_child _ _ Hr (eq m0) ltac:(by intros ? <-) 488)|done| |done].
    - intros m n <- _ Hk. by apply tree_ok_created.
    - by intros []. }
  intros [u|e']; [by apply triple_ret|]. simpl.
  apply (triple_bind _ _ _ (λ i w, is_ok i = false ∧ fsP (eq m0) w)).
  { eapply triple_conseq; [eapply triple_try, (lstat_child _ _ Hr (eq m0) ltac:(by intros ? <-))|done| |done].
    intros [n|e''] w; [|done]. intros [<- H]. by rewrite Hn in H. }
  intros [n|e''] w [? Hw]; [done|]. exact Hw.
Qed.

(** ** The whole extraction *)
Definition same_outside (r : location) (m0 m : filesystem) : Prop :=
  ∀ p, ¬ r `prefix_of` p → m !! p = m0 !! p.

Section extraction.
Context (gz : bytes → result (bytes * option goerr)) (tr : bytes → option goerr → list tar_item).
Context (r : location) (m0 : filesystem) (Hready : extract_ready r m0).
Context (policy : ExtractionPolicy).

Lemma prepareExtract_ok archivePath :
  triple (fsP (eq m0)) (prepareExtract gz tr archivePath (abs_path r) policy)
    (λ out, fsP (λ m, (out.1 = abs_path r ∧ is_ok (validatePolicy policy) = true
                       ∧ ∃ data, openArchive gz tr data = Ok out.2) ∧ tree_ok r m0 m))
    (fsP (same_outside r m0)).
Proof.
  assert (∀ w, fsP (eq m0) w → fsP (same_outside r m0) w) as Heq by by intros w Hw; unfold fsP in *; rewrite <- Hw.
  assert (∀ w, fsP (tree_ok r m0) w → fsP (same_outside r m0) w) as Htree by by intros w [].
  unfold prepareExtract. destruct (validatePolicy policy) as [u|e] eqn:Hp; [|by apply triple_throw].
  eapply triple_seq; [by apply (triple_lift _ _ (λ _, fsP (eq m0)) (fsP (eq m0)))|exact Heq|]. intros [].
  eapply triple_seq; [apply triple_wrap, stat_with_keeps|exact Heq|]. intros info.
  eapply triple_seq; [by apply (triple_lift _ _ (λ _, fsP (eq m0)) (fsP (eq m0)))|exact Heq|]. intros [].
  eapply triple_seq; [by apply (triple_lift _ _ (λ _, fsP (eq m0)) (fsP (eq m0)))|exact Heq|]. intros [].
  eapply triple_seq; [by apply triple_wrap, mkdir_all_ready|exact Heq|]. intros [].
  eapply (triple_bind _ _ _ (λ _, fsP (tree_ok r m0))); [by apply triple_gets|]. intros w0.
  eapply triple_seq; [apply triple_wrap, read_file_keeps|exact Htree|]. intros data.
  destruct (openArchive gz tr data) as [items|e] eqn:Hopen; [|intros w Hw; by apply Htree].
  eapply triple_bind.
  { apply (triple_lift _ _ (λ l, fsP (λ m, l = items ∧ tree_ok r m0 m))); [|done]. by intros a w [= <-] ?. }
  intros items' w [-> Hw]. split; [|done]. split; [|by eauto].
  destruct Hready as [Hr _ _ _]. unfold abs. simpl. rewrite is_abs_abs_path. by apply clean_abs_path.
Qed.

Lemma Extract_ok archivePath :
  in_i64 (MaxExtractedBytes policy) →
  triple (fsP (eq m0)) (Extract gz tr archivePath (abs_path r) policy)
    (λ out, fsP (λ m, same_outside r m0 m
       ∧ (is_ok (validatePolicy policy) = true → within_quota policy out.1 (MaxFiles policy))
       ∧ (out.2 = None → tree_ok r m0 m ∧ is_ok (validatePolicy policy) = true
            ∧ ∃ data items, openArchive gz tr data = Ok items ∧ Forall (entry_allowed policy) items)))
    (λ _, False).
Proof.
  intros Hmax.
  assert (is_ok (validatePolicy policy) = true → within_quota policy Result_zero 0 ∧ 0 ≤ MaxFiles policy) as Hzero.
  { unfold validatePolicy. destruct (_ || _) eqn:E; [done|]. intros _. unfold within_quota. simpl. lia. }
  unfold Extract. eapply triple_bind; [apply triple_try, prepareExtract_ok|].
  intros [[root items]|e].
  - intros w [(Hroot & Hp & data & Hopen) Hw]; simpl in Hroot; subst root. destruct (Hzero Hp) as [Hq H0].
    pose proof (extractLoop_ok r (ready_normal _ _ Hready) m0 policy items 0 Result_zero Hmax Hq H0 w Hw) as H.
    simpl in Hopen. cbn [fst snd] in *.
    destruct (extractLoop _ _ _ _ _ w) as [[out|e] w']; [|done]. destruct H as (Ht & Hq' & Hall).
    split; [exact (tree_outside _ _ _ Ht)|]. split; [done|]. intros Hnone. split; [done|]. split; [done|]. eauto.
  - apply triple_ret. intros w Hw. split; [done|]. split; [|done]. intros Hp. simpl.
    destruct (Hzero Hp) as [[? ?] ?]. split; [done|]. simpl in *. lia.
Qed.
End extraction.

(** ** Following links in the extracted tree *)
Lemma parent_dotdots links m follow r d k todo :
  (k ≤ length d)%nat →
  ∃ d', walk links m follow (r ++ d) (dotdots k ++ todo) = walk links m follow (r ++ d') todo.
Proof.
  revert d. induction k as [|k IH]; intros d Hk; [by exists d|].
  change (dotdots (S k) ++ todo) with (".." :: dotdots k ++ todo). rewrite walk_dotdot.
  destruct d as [|x d _] using rev_ind; [simpl in Hk; lia|]. rewrite (assoc_L (++)), parent_snoc.
  apply IH. rewrite length_app in Hk. simpl in Hk. lia.
Qed.

Lemma walk_contained r m0 m links follow d todo loc :
  tree_ok r m0 m → Forall (λ n, n ≠ ".." ∧ free_of slash n) todo →
  walk links m follow (r ++ d) todo = Ok loc → r `prefix_of` loc.
Proof.
  intros Ht. revert d todo. induction links as [links IHlinks] using lt_wf_ind. intros d todo Htodo.
  revert d. induction Htodo as [|n todo [Hn Hslash] Htodo IH]; intros d.
  { rewrite walk_nil. intros [= <-]. by eexists. }
  destruct (decide (n = "" ∨ n = ".")) as [Hskip|Hplain].
  { rewrite walk_skip by done. apply IH. }
  rewrite walk_normal by (constructor; naive_solver). rewrite <- (assoc_L (++)).
  assert (r `prefix_of` r ++ d ++ [n]) as Hpre by by eexists.
  destruct (m !! (r ++ d ++ [n])) as [nd|] eqn:Hnd; [|case_bool_decide; naive_solver].
  destruct (n_kind nd) eqn:Hk; [case_bool_decide; naive_solver|apply IH| |case_bool_decide; naive_solver].
  case_match; [naive_solver|]. destruct links as [|links]; [done|].
  destruct (tree_links _ _ _ Ht _ _ _ _ Hnd Hk) as (k & l & -> & Hkd & Hl).
  rewrite is_abs_rel_path, split_rel_path by by apply plain_dotdots.
  destruct (parent_dotdots links m follow r d k (l ++ todo) Hkd) as [d' Hd'].
  destruct (dotdots k ++ l) as [|y ys] eqn:E.
  - change (["."] ++ todo) with ("." :: todo). rewrite walk_skip by by right. apply IHlinks; [lia|done].
  - rewrite <- E, <- (assoc_L (++)), Hd'. apply IHlinks; [lia|].
    apply Forall_app. split; [|done]. eapply Forall_impl; [exact Hl|]. by intros ? [].
Qed.

Lemma resolve_below r follow p w :
  Forall normal r → r ≠ [] → real_dir (fs w) r →
  resolve follow (abs_path r +:+ String slash p) w = walk max_links (fs w) follow r (split_byte slash p).
Proof.
  intros Hr Hne Hd. unfold resolve. rewrite bool_decide_false by done.
  rewrite split_byte_cat, split_abs_path by by apply normal_free_all.
  destruct r as [|c r]; [done|]. rewrite <- app_comm_cons, walk_skip by by left.
  assert (is_abs (abs_path (c :: r) +:+ String slash p) = true) as ->.
  { apply has_prefix_spec. eexists. unfold abs_path. by rewrite str_app_assoc. }
  by apply walk_real_dir.
Qed.

Lemma Extract_cases gz tr archivePath r policy w :
  extract_ready r (fs w) → in_i64 (MaxExtractedBytes policy) →
  ∃ res err w', Extract gz tr archivePath (abs_path r) policy w = (Ok (res, err), w')
    ∧ same_outside r (fs w) (fs w')
    ∧ (is_ok (validatePolicy policy) = true → within_quota policy res (MaxFiles policy))
    ∧ (err = None → tree_ok r (fs w) (fs w') ∧ is_ok (validatePolicy policy) = true
         ∧ ∃ data items, openArchive gz tr data = Ok items ∧ Forall (entry_allowed policy) items).
Proof.
  intros Hready Hmax. pose proof (Extract_ok gz tr r (fs w) Hready policy archivePath Hmax w eq_refl) as H.
  destruct (Extract _ _ _ _ _ w) as [[[res err]|e] w']; [|done]. by exists res, err, w'.
Qed.

(** ** Properties *)

(** C25: Whatever the archive holds and whichever system call fails, [Extract]
    returns, and no file, directory or link outside the destination is
    created, changed or removed. *)
Theorem extract_confined gz tr archivePath r policy w :
  extract_ready r (fs w) → in_i64 (MaxExtractedBytes policy) →
  ∃ res err w', Extract gz tr archivePath (abs_path r) policy w = (Ok (res, err), w')
    ∧ same_outside r (fs w) (fs w').
Proof.
  intros Hready Hmax.
  destruct (Extract_cases gz tr archivePath r policy w Hready Hmax) as (res & err & w' & H & Ho & _).
  eauto.
Qed.

(** C24: After a successful extraction no path below the destination that is
    free of [..] leads outside it, however many of the extracted symbolic links
    the kernel follows on the way. *)
Theorem extract_links_contained gz tr archivePath r policy w res w' follow p loc :
  extract_ready r (fs w) → in_i64 (MaxExtractedBytes policy) →
  Extract gz tr archivePath (abs_path r) policy w = (Ok (res, None), w') →
  ".." ∉ split_byte slash p →
  resolve follow (abs_path r +:+ String slash p) w' = Ok loc → r `prefix_of` loc.
Proof.
  intros Hready Hmax Hrun Hp.
  destruct (Extract_cases gz tr archivePath r policy w Hready Hmax) as (res' & err & w'' & H & _ & _ & Ht).
  rewrite Hrun in H. simplify_eq. destruct (Ht eq_refl) as [Hok _].
  destruct Hready as [Hr (up & x & Hrx & _) _ _].
  rewrite resolve_below; [|done|by intros ->; destruct up|by eapply tree_root].
  intros Hw. eapply (walk_contained r _ _ _ _ [] _ _ Hok); [|by rewrite app_nil_r].
  apply Forall_forall. intros n Hn. split; [by intros ->|].
  pose proof (split_byte_free slash p) as Hf. rewrite Forall_forall in Hf. by apply Hf.
Qed.

(** The byte and file totals that [Extract] reports never exceed the
    policy's limits, on success and on every error, without wrap-around of the
    64-bit counters. *)
Lemma extract_quota gz tr archivePath r policy w :
  extract_ready r (fs w) → in_i64 (MaxExtractedBytes policy) → is_ok (validatePolicy policy) = true →
  ∃ res err w', Extract gz tr archivePath (abs_path r) policy w = (Ok (res, err), w')
    ∧ 0 ≤ ExtractedBytes res ≤ MaxExtractedBytes policy
    ∧ Z.of_nat (length (Files res)) ≤ MaxFiles policy.
Proof.
  intros Hready Hmax Hp.
  destruct (Extract_cases gz tr archivePath r policy w Hready Hmax) as (res & err & w' & H & _ & Hq & _).
  destruct (Hq Hp). eauto 6.
Qed.

(** [Extract] succeeds only when every entry of the stream is acceptable: a
    relative name without traversal, and a directory, a regular file, a global
    PAX header or, where the policy allows them, a link whose target stays
    below the destination; devices, hard links and FIFOs always fail it. *)
Lemma extract_accepts_only gz tr archivePath r policy w res w' :
  extract_ready r (fs w) → in_i64 (MaxExtractedBytes policy) →
  Extract gz tr archivePath (abs_path r) policy w = (Ok (res, None), w') →
  ∃ data items, openArchive gz tr data = Ok items ∧ Forall (entry_allowed policy) items.
Proof.
  intros Hready Hmax Hrun.
  destruct (Extract_cases gz tr archivePath r policy w Hready Hmax) as (res' & err & w'' & H & _ & _ & Ht).
  rewrite Hrun in H. simplify_eq. by apply Ht.
Qed.

(** One round of the extraction loop that does not fail has done what its
    header asks: the directory exists, the link has the checked target, the
    regular file holds exactly the declared number of bytes of the body and is
    counted once. *)
Lemma extractEntry_does r policy res header body err w res' w' :
  extract_ready r (fs w) → real_dir (fs w) r →
  extractEntry (abs_path r) policy res header body err w = (Ok res', w') →
  entry_effect r policy header body res res' (fs w').
Proof.
  intros Hready Hd Hrun.
  pose proof (extractEntry_ok r (ready_normal _ _ Hready) (fs w) policy res header body err w
                (tree_ok_start _ _ Hready Hd)) as H.
  rewrite Hrun in H. apply H.
Qed.

(** ** Witnesses *)
Definition demo_node (k : kind) : node :=
  {| n_kind := k; n_uid := 0; n_gid := 0; n_perm := 493; n_setgid := false; n_sticky := false |}.
Definition demo_os : os := {|
  fs := <[["srv"] := demo_node KDir]> (<[["pkg.tar"] := demo_node (KReg (to_bytes "archive"))]> ∅);
  cwd := []; euid := 0; egid := 0; umask := 18; faults := λ _, None; tick := 0 |}.
Definition demo_policy : ExtractionPolicy :=
  {| MaxArchiveBytes := 100; MaxExtractedBytes := 100; MaxFiles := 10; MaxImages := 5; AllowSymlinks := true |}.
Definition demo_gz (b : bytes) : result (bytes * option goerr) := Ok (b, None).
Definition demo_tar (_ : bytes) (_ : option goerr) : list tar_item :=
  [TarEntry {| h_Name := "bin/app"; h_Typeflag := TypeReg; h_Size := 2; h_Linkname := "" |}
     (to_bytes "ok") None;
   TarEntry {| h_Name := "bin/run"; h_Typeflag := TypeSymlink; h_Size := 0; h_Linkname := "../bin/app" |}
     [] None].
Definition demo_run : result (Result * option goerr) * os :=
  Extract demo_gz demo_tar "/pkg.tar" "/srv/app" demo_policy demo_os.

Lemma demo_ready : extract_ready ["srv"; "app"] (fs demo_os).
Proof.
  constructor.
  - by repeat constructor.
  - exists ["srv"], "app". split; [done|].
    apply (real_dir_snoc _ [] "srv" (demo_node KDir)); [apply real_dir_nil|done..].
  - intros n Hn. vm_compute in Hn. done.
  - intros d x n t Hn. simpl in Hn. rewrite !lookup_insert_ne in Hn by done. by rewrite lookup_empty in Hn.
Qed.

Example demo_run_ok : (demo_run.1, fs demo_run.2 !! ["srv"; "app"; "bin"; "run"]) =
  (Ok ({| Files := ["bin/app"]; ExtractedBytes := 2 |}, None),
   Some (Node (KSymlink "app") 0 0 493 false false)).
Proof. vm_compute. reflexivity. Qed.

Definition demo_after : os := demo_run.2.
Definition demo_result : Result := {| Files := ["bin/app"]; ExtractedBytes := 2 |}.

Lemma extract_confined_witness :
  ∃ res err w', Extract demo_gz demo_tar "/pkg.tar" (abs_path ["srv"; "app"]) demo_policy demo_os
                = (Ok (res, err), w') ∧ same_outside ["srv"; "app"] (fs demo_os) (fs w').
Proof. apply extract_confined; [apply demo_ready | done]. Defined.

Lemma extract_links_contained_witness : ["srv"; "app"] `prefix_of` ["srv"; "app"; "bin"; "app"].
Proof.
  apply (extract_links_contained demo_gz demo_tar "/pkg.tar" ["srv"; "app"] demo_policy demo_os
           demo_result demo_after true "bin/run").
  - apply demo_ready.
  - done.
  - vm_compute. reflexivity.
  - refine (bool_decide_unpack (".." ∉ split_byte slash "bin/run") _). vm_compute. exact I.
  - vm_compute. reflexivity.
Defined.

(** The destination exists already; the first entry is extracted into it. *)
Definition demo_os2 : os := set_fs (<[["srv"; "app"] := demo_node KDir]> (fs demo_os)) demo_os.
Definition demo_header : tar_header :=
  {| h_Name := "app"; h_Typeflag := TypeReg; h_Size := 2; h_Linkname := "" |}.

Lemma demo_ready2 : extract_ready ["srv"; "app"] (fs demo_os2) ∧ real_dir (fs demo_os2) ["srv"; "app"].
Proof.
  assert (real_dir (fs demo_os2) ["srv"]) as Hd.
  { apply (real_dir_snoc _ [] "srv" (demo_node KDir)); [apply real_dir_nil|done..]. }
  split; [constructor|].
  - by repeat constructor.
  - by exists ["srv"], "app".
  - intros n Hn. vm_compute in Hn. by simplify_eq.
  - intros d x n t Hn. simpl in Hn. rewrite !lookup_insert_ne in Hn.
    + by rewrite lookup_empty in Hn.
    + done.
    + done.
    + by destruct d.
  - by apply (real_dir_snoc _ ["srv"] "app" (demo_node KDir)).
Qed.

