(* ===== verification/Secrets.v ===== *)
(** * Credential directories (runner/internal/executor/secrets.go, hostlock_linux.go)

    The Runner hands a target credential to the isolated executor through one
    directory per job below a tmpfs root.  The operations below create, check
    and remove those directories; they run on the file-system model of OS.v. *)
From S2P Require Import Prelude GoIO GoString GoPath OS.

(* src: runner/internal/executor/secrets.go:11-20 RunnerHostLockFile *)
Definition RunnerHostLockFile : string := ".runner.lock".
(* src: runner/internal/executor/socket.go:18-23 CredentialDirectory *)
Definition CredentialDirectory : string := ".target-credential".
Definition ExecutorCredentialDirectory : string := ".executor-target-credential".

(* src: runner/internal/executor/secrets.go:22-28 legacyWorkspaceSecretDirectories *)
Definition legacyWorkspaceSecretDirectories : list string :=
  [".containerd-hosts"; ".registry-certs"; ".runtime-auth"; CredentialDirectory;
   ExecutorCredentialDirectory].

(** A rune below 0x80 is its own byte and every other rune is refused, so the
    loop over runes is a loop over bytes. *)
(* src: runner/internal/executor/secrets.go:40-52 validCredentialJobID *)
Definition validCredentialJobID (value : string) : bool :=
  negb (bool_decide (value = "") || (128 <? slen value))
  && forallb (λ c, lower_alpha c || upper_alpha c || digit c || is_char "-" c || is_char "_" c
                   || is_char "." c) (chars value).

(* src: runner/internal/executor/secrets.go:33-38 CredentialJobDirectory *)
Definition CredentialJobDirectory (root jobID : string) : result string :=
  _ ← fail_if (negb (validCredentialJobID jobID))
        (error_new "credential handoff job ID contains unsupported characters");
  Ok (path_join [clean root; "job-" +:+ jobID]).

(* src: runner/internal/executor/secrets.go:241-243 validDirectName *)
Definition validDirectName (name : string) : bool :=
  negb (bool_decide (name = "")) && negb (bool_decide (name = ".")) && negb (bool_decide (name = ".."))
  && bool_decide (base name = name) && negb (contains_byte slash name).

(* src: runner/internal/executor/secrets.go:226-239 removeDirectChild *)
Definition removeDirectChild (root name : string) : M os unit :=
  _ ← lift (fail_if (negb (validDirectName name))
              (Errorf "refusing to remove invalid direct child %q" [FStr name]));
  let path := path_join [clean root; name] in
  _ ← lift (match rel (clean root) path with
            | Ok relative =>
                fail_if (negb (bool_decide (relative = name)) || contains_byte slash relative)
                  (Errorf "refusing to remove path outside managed root: %q" [FStr path])
            | Err _ => Err (Errorf "refusing to remove path outside managed root: %q" [FStr path])
            end);
  wrapM (Wrapf "remove managed path %q: %w" [FStr path]) (remove_all path).

(** [for _, x := range l { if err := f(x); err != nil { result = errors.Join(result, err) } }]. *)
Fixpoint join_loop {A} (f : A → M os unit) (l : list A) (acc : option goerr) : M os (option goerr) :=
  match l with
  | [] => mret acc
  | x :: l =>
      r ← try (f x);
      match r with
      | Ok _ => join_loop f l acc
      | Err e => join_loop f l (errors_join [acc; Some e])
      end
  end.

(** [return result]. *)
Definition return_err (o : option goerr) : M os unit := lift (of_err o).

(* src: runner/internal/executor/secrets.go:208-224 clearDirectChildren *)
Definition clearDirectChildren (root : string) : M os unit :=
  entries ← read_dir root;
  result ← join_loop (λ name,
    if validDirectName name then removeDirectChild root name
    else throw (Errorf "invalid direct child %q" [FStr name])) entries None;
  return_err result.

(* src: runner/internal/executor/secrets.go:181-206 validateOwnedDirectory *)
Definition validateOwnedDirectory (path : string) (uid gid permissions : Z) (setgid : bool) : M os unit :=
  _ ← lift (fail_if (negb (is_abs path) || bool_decide (clean path = "/"))
              (error_new "path must be an absolute non-root path"));
  let cleaned := clean path in
  info ← try (lstat cleaned);
  info ← lift (match info with
               | Ok info => _ ← fail_if (negb (is_dir info) || is_symlink info)
                                  (error_new "path must be a real directory"); Ok info
               | Err _ => Err (error_new "path must be a real directory")
               end);
  real ← try (eval_symlinks cleaned);
  _ ← lift (match real with
            | Ok real => fail_if (negb (bool_decide (real = cleaned)))
                           (error_new "directory path cannot contain symlinks")
            | Err _ => Err (error_new "directory path cannot contain symlinks")
            end);
  _ ← lift (fail_if (negb (n_uid info =? uid)) (error_new "directory owner is invalid"));
  _ ← lift (fail_if (negb (n_gid info =? gid)) (error_new "directory group is invalid"));
  lift (fail_if (negb (n_perm info =? permissions) || negb (Bool.eqb (n_setgid info) setgid))
          (error_new "directory permissions are invalid")).

(* src: runner/internal/executor/secrets.go:84-98 validateRunnerLockFile *)
Definition validateRunnerLockFile (path : string) : M os unit :=
  info ← try (lstat path);
  w ← gets id;
  match info with
  | Err _ => throw (error_new "Runner host lock must be a regular non-symlink file")
  | Ok info =>
      _ ← lift (fail_if (negb (is_regular info) || is_symlink info)
                  (error_new "Runner host lock must be a regular non-symlink file"));
      _ ← lift (fail_if (negb (n_uid info =? euid w) || negb (n_perm info =? 384))
                  (error_new "Runner host lock ownership or permissions are invalid"));
      lift (fail_if (negb (n_gid info =? egid w)) (error_new "Runner host lock group is invalid"))
  end.

(** The body of the loop of [PrepareRunnerCredentialRoot]. *)
(* src: runner/internal/executor/secrets.go:66-80 PrepareRunnerCredentialRoot *)
Definition prepareRunnerEntry (root name : string) : M os unit :=
  if bool_decide (name = RunnerHostLockFile) then validateRunnerLockFile (path_join [root; name])
  else if negb (has_prefix name "job-") || negb (validDirectName name)
  then throw (Errorf "unexpected entry %q in Runner credential RuntimeDirectory" [FStr name])
  else removeDirectChild root name.

(* src: runner/internal/executor/secrets.go:54-82 PrepareRunnerCredentialRoot *)
Definition PrepareRunnerCredentialRoot (root : string) : M os unit :=
  w ← gets id;
  _ ← wrapM (wrap "validate Runner credential RuntimeDirectory: %w")
        (validateOwnedDirectory root (euid w) (egid w) 456 false);
  entries ← wrapM (wrap "read Runner credential RuntimeDirectory: %w") (read_dir root);
  result ← join_loop (prepareRunnerEntry root) entries None;
  return_err result.

(* src: runner/internal/executor/secrets.go:100-119 CreateCredentialJobDirectory *)
Definition CreateCredentialJobDirectory (root jobID : string) : M os string :=
  w ← gets id;
  _ ← wrapM (wrap "validate Runner credential RuntimeDirectory: %w")
        (validateOwnedDirectory root (euid w) (egid w) 456 false);
  directory ← lift (CredentialJobDirectory root jobID);
  _ ← wrapM (wrap "create job credential RuntimeDirectory: %w") (mkdir directory 456);
  r ← try (chmod directory 456 true false);
  match r with
  | Err e => _ ← try (remove directory); throw (wrap "secure job credential RuntimeDirectory: %w" e)
  | Ok _ => mret directory
  end.

(* src: runner/internal/executor/secrets.go:121-129 RemoveCredentialJobDirectory *)
Definition RemoveCredentialJobDirectory (root jobID : string) : M os unit :=
  directory ← lift (CredentialJobDirectory root jobID);
  removeDirectChild (clean root) (base directory).

(* src: runner/internal/executor/secrets.go:131-139 PrepareExecutorCredentialRoot *)
Definition PrepareExecutorCredentialRoot (root : string) : M os unit :=
  w ← gets id;
  _ ← wrapM (wrap "validate executor credential RuntimeDirectory: %w")
        (validateOwnedDirectory root (euid w) (egid w) 448 false);
  clearDirectChildren root.

(** The body of the loop of [ScavengeWorkspaceSecrets]; the errors of one
    workspace are joined one by one into the loop's result. *)
(* src: runner/internal/executor/secrets.go:155-177 ScavengeWorkspaceSecrets *)
Definition scavengeEntry (root name : string) (acc : option goerr) : M os (option goerr) :=
  let join e := errors_join [acc; Some e] in
  if negb (has_prefix name "job-") then mret acc
  else if negb (validDirectName name) then mret (join (Errorf "invalid job workspace entry %q" [FStr name]))
  else
    let workspace := path_join [root; name] in
    w ← gets id;
    r ← try (validateOwnedDirectory workspace (euid w) (egid w) 504 true);
    match r with
    | Err e => mret (join (Wrapf "validate job workspace %q: %w" [FStr name] e))
    | Ok _ =>
        info ← try (lstat workspace);
        match info with
        | Ok info =>
            if n_sticky info then
              join_loop (λ legacy,
                wrapM (Wrapf "scavenge %s/%s: %w" [FStr name; FStr legacy])
                  (removeDirectChild workspace legacy)) legacyWorkspaceSecretDirectories acc
            else mret (join (Errorf "job workspace %q is not sticky" [FStr name]))
        | Err _ => mret (join (Errorf "job workspace %q is not sticky" [FStr name]))
        end
    end.

Fixpoint scavenge_loop (root : string) (entries : list string) (acc : option goerr)
    : M os (option goerr) :=
  match entries with
  | [] => mret acc
  | name :: entries => acc ← scavengeEntry root name acc; scavenge_loop root entries acc
  end.

(* src: runner/internal/executor/secrets.go:141-179 ScavengeWorkspaceSecrets *)
Definition ScavengeWorkspaceSecrets (root : string) : M os unit :=
  w ← gets id;
  _ ← wrapM (wrap "validate workspace root for secret scavenging: %w")
        (validateOwnedDirectory root (euid w) (egid w) 488 true);
  entries ← wrapM (wrap "read workspace root for secret scavenging: %w") (read_dir root);
  result ← scavenge_loop root entries None;
  return_err result.

(** [AcquireRunnerHostLock]: [open_nofollow] creates the file when it is
    missing and refuses a link; [flock] is the kernel's answer to the
    non-blocking exclusive lock. *)
Definition open_nofollow (p : string) (perm : Z) : M os unit :=
  sys (λ w, loc ← resolve false p w;
            match fs w !! loc with
            | None => Ok ((), <[loc := fresh w loc (KReg []) perm]> (fs w))
            | Some n => match n_kind n with
                        | KSymlink _ => Err ELOOP
                        | KDir => Err EISDIR
                        | _ => Ok ((), fs w)
                        end
            end).

(* src: runner/internal/executor/hostlock_linux.go:16-43 AcquireRunnerHostLock *)
Definition AcquireRunnerHostLock (flock : result bool) (root : string) : M os unit :=
  w ← gets id;
  _ ← wrapM (wrap "validate Runner lock RuntimeDirectory: %w")
        (validateOwnedDirectory root (euid w) (egid w) 456 false);
  let path := path_join [clean root; RunnerHostLockFile] in
  _ ← wrapM (wrap "open Runner host lock: %w") (open_nofollow path 384);
  _ ← wrapM (wrap "secure Runner host lock: %w") (chmod path 384 false false);
  _ ← validateRunnerLockFile path;
  lift (match flock with
        | Ok true => Ok ()
        | Ok false => Err (error_new "another releasedock-runner process is already active on this host")
        | Err e => Err (wrap "lock Runner host process: %w" e)
        end).

(** ** Names *)
Lemma validDirectName_normal n : validDirectName n = true → normal n.
Proof.
  unfold validDirectName. intros H. rewrite !andb_true_iff, !negb_true_iff in H.
  destruct H as ((((H1 & H2) & H3) & _) & H4).
  rewrite !bool_decide_eq_false in *. by constructor.
Qed.

Lemma normal_validDirectName n : normal n → validDirectName n = true.
Proof.
  intros Hn. pose proof Hn as [H1 H2 H3 H4]. unfold validDirectName, free_of in *.
  rewrite base_normal, !bool_decide_false, bool_decide_true, H4 by done. done.
Qed.

(** The characters of a job identifier keep it one path component. *)
Lemma job_name_normal id : validCredentialJobID id = true → normal ("job-" +:+ id).
Proof.
  unfold validCredentialJobID. intros [_ H]%andb_true_iff. rewrite forallb_Forall in H.
  split; [done..|]. unfold free_of. apply not_true_iff_false. rewrite contains_byte_chars, chars_app.
  intros [Hj|Hid]%elem_of_app; [vm_compute in Hj; set_solver|].
  rewrite Forall_forall in H. specialize (H _ Hid). by vm_compute in H.
Qed.

Lemma CredentialJobDirectory_ok root id d :
  is_abs root = true → CredentialJobDirectory root id = Ok d →
  ∃ l, clean root = abs_path l ∧ Forall normal l ∧ validCredentialJobID id = true
       ∧ d = abs_path (l ++ ["job-" +:+ id]).
Proof.
  intros Habs H. unfold CredentialJobDirectory in H.
  apply bind_ok in H as (u & Hok%fail_if_ok%negb_false_iff & H).
  assert (d = path_join [clean root; "job-" +:+ id]) as -> by congruence. clear H.
  destruct (clean_abs root Habs) as (l & Hl & Hn). exists l. rewrite Hl in *.
  split_and!; [done..|]. by rewrite path_join_child by (done || by apply job_name_normal).
Qed.

(** ** Removing direct children *)
Section managed.
Context (l : location) (Hl : Forall normal l).

Lemma removeDirectChild_ok n m :
  validDirectName n = true → real_dir m l →
  triple (fsP (eq m)) (removeDirectChild (abs_path l) n)
    (λ _, fsP (eq (drop_tree (l ++ [n]) m))) (fsP (eq m)).
Proof.
  intros Hv Hd. pose proof (validDirectName_normal n Hv) as Hn. unfold removeDirectChild. cbv zeta.
  rewrite clean_abs_path, path_join_child by done.
  rewrite rel_child by (done || by apply Forall_singleton).
  rewrite rel_path_single, Hv, bool_decide_true by done.
  destruct Hn as [? ? ? Hfree] eqn:E. unfold free_of in Hfree. rewrite Hfree. clear E.
  eapply triple_bind; [by apply (triple_lift _ _ (λ _, fsP (eq m)))|]. intros [].
  eapply triple_bind; [by apply (triple_lift _ _ (λ _, fsP (eq m)))|]. intros [].
  apply triple_wrap, sys_triple. intros w a m' Hw H.
  assert (Forall normal (l ++ [n])) as Hln by (apply Forall_app; split; [done|by apply Forall_singleton]).
  rewrite <- Hw in H. rewrite resolve_child in H by (done || by rewrite <- Hw).
  rewrite bool_decide_false in H by by destruct l. by simplify_eq.
Qed.

(** Nodes below [l] can only have disappeared, and only whole direct children. *)
Record only_removed (m0 m : filesystem) : Prop := {
  or_sub : ∀ p n, m !! p = Some n → m0 !! p = Some n;
  or_outside : ∀ p, (¬ ∃ x q, p = l ++ x :: q) → m !! p = m0 !! p;
  or_real : real_dir m l
}.

Definition gone (m : filesystem) (n : string) : Prop := ∀ q, m !! (l ++ n :: q) = None.

Lemma only_removed_refl m : real_dir m l → only_removed m m.
Proof. by constructor. Qed.

Lemma only_removed_drop m0 m n : only_removed m0 m → only_removed m0 (drop_tree (l ++ [n]) m).
Proof.
  intros [Hs Ho Hd]. constructor.
  - intros p nd. rewrite drop_tree_lookup. case_decide; [done|]. apply Hs.
  - intros p Hp. rewrite drop_tree_lookup. rewrite decide_False; [by apply Ho|].
    intros [q ->]. apply Hp. exists n, q. by rewrite <- (assoc_L (++)).
  - by apply real_dir_drop_tree.
Qed.

Lemma gone_drop m n : gone (drop_tree (l ++ [n]) m) n.
Proof.
  intros q. rewrite drop_tree_lookup, decide_True; [done|].
  exists q. by rewrite <- (assoc_L (++)).
Qed.

Lemma gone_sub m m' x : (∀ p n, m' !! p = Some n → m !! p = Some n) → gone m x → gone m' x.
Proof. intros Hs Hg q. apply eq_None_not_Some. intros [n Hn]. apply Hs in Hn. by rewrite Hg in Hn. Qed.

(** A step of a removal loop: it may remove children; on success [x] is dealt
    with in the sense of [D]. *)
Definition removes (m0 : filesystem) (D : string → filesystem → Prop) (x : string) (f : M os unit) : Prop :=
  ∀ m, only_removed m0 m →
    triple (fsP (eq m)) f
      (λ _, fsP (λ m', only_removed m0 m' ∧ (∀ p n, m' !! p = Some n → m !! p = Some n) ∧ D x m'))
      (fsP (λ m', only_removed m0 m' ∧ ∀ p n, m' !! p = Some n → m !! p = Some n)).

Lemma removeDirectChild_removes m0 n :
  validDirectName n = true → removes m0 (λ x m, gone m x) n (removeDirectChild (abs_path l) n).
Proof.
  intros Hv m Hm w Hw. pose proof (removeDirectChild_ok n m Hv (or_real _ _ Hm) w Hw) as H.
  destruct (removeDirectChild _ _ w) as [[u|e] w']; unfold fsP in *; rewrite <- H; [|done].
  split; [by apply only_removed_drop|]. split; [|by apply gone_drop].
  intros p nd. rewrite drop_tree_lookup. by case_decide.
Qed.

Lemma join_loop_removes m0 (D : string → filesystem → Prop) f names acc m :
  (∀ x m1 m2, D x m1 → (∀ p n, m2 !! p = Some n → m1 !! p = Some n) → D x m2) →
  (∀ x, x ∈ names → removes m0 D x (f x)) → only_removed m0 m →
  triple (fsP (eq m)) (join_loop f names acc)
    (λ res, fsP (λ m', only_removed m0 m' ∧ (∀ p n, m' !! p = Some n → m !! p = Some n) ∧
       (res = None → acc = None ∧ ∀ x, x ∈ names → D x m')))
    (λ _, False).
Proof.
  intros HD. revert acc m. induction names as [|x names IH]; intros acc m Hf Hm; simpl.
  { apply triple_ret. intros w Hw. unfold fsP in *. subst m. split; [done|]. split; [done|]. intros ->. split; [done|]. set_solver. }
  intros w Hw. unfold mbind, M_bind, try.
  pose proof (Hf x ltac:(set_solver) m Hm w Hw) as H.
  destruct (f x w) as [[u|e] w1].
  - destruct H as (Hm1 & Hs1 & HDx).
    pose proof (IH acc (fs w1) ltac:(set_solver) Hm1 w1 eq_refl) as H.
    destruct (join_loop f names acc w1) as [[res|e] w2]; [|done]. destruct H as (Hm2 & Hs2 & Hres).
    split; [done|]. split; [by eauto|]. intros Hn. destruct (Hres Hn) as [-> Hall]. split; [done|].
    intros y [->|Hy]%elem_of_cons; [by eapply HD|by apply Hall].
  - destruct H as (Hm1 & Hs1).
    pose proof (IH (errors_join [acc; Some e]) (fs w1) ltac:(set_solver) Hm1 w1 eq_refl) as H.
    destruct (join_loop f names _ w1) as [[res|e'] w2]; [|done]. destruct H as (Hm2 & Hs2 & Hres).
    split; [done|]. split; [by eauto|]. intros Hn. destruct (Hres Hn) as [Hacc _]. by destruct acc.
Qed.
End managed.

Lemma read_dir_real l m :
  Forall normal l → l ≠ [] → real_dir m l →
  triple (fsP (eq m)) (read_dir (abs_path l)) (λ e, fsP (λ m', e = children m l ∧ m = m')) (fsP (eq m)).
Proof.
  intros Hl Hne Hd. apply sys_triple. intros w a m' Hw H.
  rewrite resolve_real_dir in H by (done || by rewrite <- Hw). simpl in H.
  rewrite <- Hw in H. destruct (m !! l) as [n|]; simpl in H; [|done].
  destruct (is_dir n); [|done]. by simplify_eq.
Qed.

Lemma clearDirectChildren_ok l m :
  Forall normal l → l ≠ [] → real_dir m l → fs_wf m →
  triple (fsP (eq m)) (clearDirectChildren (abs_path l))
    (λ _, fsP (λ m', only_removed l m m' ∧ ∀ x q, m' !! (l ++ x :: q) = None))
    (fsP (only_removed l m)).
Proof.
  intros Hl Hne Hd [_ Hwf]. unfold clearDirectChildren.
  eapply triple_seq; [by apply read_dir_real| |].
  { intros w Hw. unfold fsP in *. subst m. by apply only_removed_refl. }
  intros entries w [-> Hw]. revert w Hw. fold (fsP (eq m)).
  eapply triple_seq.
  - apply (join_loop_removes l Hl m (λ x m', gone l m' x)).
    + intros x m1 m2 Hg Hs. by eapply gone_sub.
    + intros x _. destruct (validDirectName x) eqn:Hv; [by apply removeDirectChild_removes|].
      intros m' Hm'. apply triple_throw. intros w Hw. unfold fsP in *. by subst m'.
    + by apply only_removed_refl.
  - done.
  - intros res. apply triple_lift; [|by intros w (? & _)].
    intros [] w Hres (Hm & _ & Hall). destruct res; [done|]. split; [done|]. destruct (Hall eq_refl) as [_ Hg].
    intros x q. destruct (fs w !! (l ++ x :: q)) as [n|] eqn:E; [exfalso|done].
    assert (x ∈ children m l) as Hx.
    { apply elem_of_children, (Hwf l x q). eexists. by eapply or_sub. }
    by rewrite (Hg x Hx q) in E.
Qed.

(** The directory [validateOwnedDirectory] accepts. *)
Definition owned_dir (m : filesystem) (path : string) (uid gid perm : Z) (sg : bool) (l : location) : Prop :=
  clean path = abs_path l ∧ Forall normal l ∧ l ≠ [] ∧ real_dir m l ∧
  ∃ n, m !! l = Some n ∧ n_kind n = KDir ∧ n_uid n = uid ∧ n_gid n = gid ∧ n_perm n = perm ∧ n_setgid n = sg.

Lemma lstat_found m p : triple (fsP (eq m)) (try (lstat p)) (λ i, fsP (λ m', m = m' ∧
   match i with Ok n => ∃ w loc, fs w = m ∧ resolve false p w = Ok loc ∧ m !! loc = Some n | Err _ => True end))
   (λ _, False).
Proof.
  eapply triple_conseq; [apply triple_try|done| |done].
  - apply (sys_triple (eq m) _ (λ n m', m = m' ∧ ∃ w loc, fs w = m ∧ resolve false p w = Ok loc ∧ m !! loc = Some n)).
    intros w a m' Hw H. inv_ok H. simplify_eq/=. eauto 7.
  - intros [n|e] w H; [exact H|by split].
Qed.

Lemma validateOwnedDirectory_ok m path uid gid perm sg :
  no_root m →
  triple (fsP (eq m)) (validateOwnedDirectory path uid gid perm sg)
    (λ _, fsP (λ m', m = m' ∧ ∃ l, owned_dir m path uid gid perm sg l)) (fsP (eq m)).
Proof.
  intros Hroot. unfold validateOwnedDirectory. cbv zeta.
  destruct (is_abs path) eqn:Habs; [|by apply triple_throw]. simpl.
  destruct (clean_abs path Habs) as (l & Hl & Hn). rewrite Hl.
  case_bool_decide as Hsl; [by apply triple_throw|].
  assert (l ≠ []) as Hne by (intros ->; by apply Hsl).
  eapply triple_bind; [by apply (triple_lift _ _ (λ _, fsP (eq m)))|]. intros [].
  eapply triple_seq; [apply lstat_found|done|].
  intros [n|e]; [|intros w [Hw _]; exact Hw].
  intros w0 [Hw0 (wl & loc & Hwl & Hres & Hlk)]. revert w0 Hw0. fold (fsP (eq m)).
  destruct (negb (is_dir n) || is_symlink n) eqn:Hk; [by apply triple_throw|].
  apply (triple_bind _ _ _ (λ n', fsP (λ m', m = m' ∧ n' = n))).
  { apply triple_lift; [|done]. intros a w [= <-] Hw. done. }
  intros n' w [Hw ->]. revert w Hw. fold (fsP (eq m)).
  apply (triple_bind _ _ _ (λ real, fsP (λ m', m = m' ∧ (real = Ok (abs_path l) → real_path m l ∧ is_Some (m !! l))))).
  { intros w Hw. unfold fsP in Hw. subst m. unfold try.
    pose proof (eval_symlinks_keeps (abs_path l) (eq (fs w)) w eq_refl) as Hk'.
    destruct (eval_symlinks (abs_path l) w) as [real w'] eqn:E. split.
    - unfold fsP in *. destruct real; congruence.
    - intros ->. rewrite Hw in *. by destruct (eval_symlinks_fixed l w w' Hroot Hn Hne E) as (? & ? & ?). }
  intros real. destruct real as [real|e]; [|intros w [Hw _]; exact Hw].
  case_bool_decide as Hreal; [|intros w [Hw _]; exact Hw]. subst real.
  intros w1 [Hw1 Hrp]. revert w1 Hw1. fold (fsP (eq m)). destruct (Hrp eq_refl) as [Hpath Hsome].
  assert (loc = l) as ->.
  { rewrite resolve_abs in Hres by done. destruct l as [|x l' _] using rev_ind; [done|].
    destruct Hpath as [_ Hp _]. rewrite parent_snoc in Hp. rewrite <- Hwl in Hp.
    rewrite <- resolve_abs in Hres by done. rewrite resolve_child in Hres by done. by simplify_eq. }
  assert (n_kind n = KDir) as HD.
  { unfold is_dir, is_symlink in Hk. by destruct (n_kind n). }
  assert (real_dir m l) as Hd by by eapply real_path_dir.
  assert (owned_dir m path (n_uid n) (n_gid n) (n_perm n) (n_setgid n) l) as Hown by (repeat split; eauto 10).
  destruct (n_uid n =? uid) eqn:E1; [|by apply triple_throw].
  destruct (n_gid n =? gid) eqn:E2; [|intros w Hw; exact Hw].
  destruct (n_perm n =? perm) eqn:E3; [|intros w Hw; exact Hw].
  destruct (Bool.eqb (n_setgid n) sg) eqn:E4; [|intros w Hw; exact Hw].
  intros w Hw. split; [exact Hw|]. exists l.
  apply Z.eqb_eq in E1, E2, E3. apply Bool.eqb_prop in E4. by subst.
Qed.

Lemma owned_dir_clean m path uid gid perm sg l :
  clean path = path → owned_dir m path uid gid perm sg l → path = abs_path l.
Proof. intros Hc (H & _). by rewrite <- Hc. Qed.

Lemma of_err_ok o (P : filesystem → Prop) (Q : filesystem → Prop) :
  (∀ m, P m → Q m) →
  triple (fsP (λ m, Q m ∧ (o = None → P m))) (return_err o) (λ _, fsP P) (fsP Q).
Proof.
  intros HPQ. apply triple_lift; [|by intros w []]. intros [] w Ho [_ H]. apply H. by destruct o.
Qed.

Lemma PrepareExecutorCredentialRoot_ok root m :
  clean root = root → fs_wf m →
  triple (λ w, m = fs w) (PrepareExecutorCredentialRoot root)
    (λ _, fsP (λ m', ∃ l uid gid, owned_dir m root uid gid 448 false l
                     ∧ only_removed l m m' ∧ ∀ x q, m' !! (l ++ x :: q) = None))
    (fsP (λ m', m = m' ∨ ∃ l uid gid, owned_dir m root uid gid 448 false l ∧ only_removed l m m')).
Proof.
  intros Hc Hwf. unfold PrepareExecutorCredentialRoot.
  apply (triple_bind _ _ _ (λ _, fsP (eq m))); [by apply triple_gets|]. intros w0.
  eapply triple_seq.
  { apply triple_wrap, validateOwnedDirectory_ok, Hwf. }
  { intros w Hw. by left. }
  intros [] w [Hw (l & Hown)]. pose proof (owned_dir_clean _ _ _ _ _ _ _ Hc Hown) as Hr.
  pose proof Hown as (_ & Hl & Hne & Hd & _).
  pose proof (clearDirectChildren_ok l m Hl Hne Hd Hwf w Hw) as H. rewrite <- Hr in H.
  destruct (clearDirectChildren root w) as [[u|e] w'].
  - destruct H as [? ?]. exists l, (euid w0), (egid w0). done.
  - right. exists l, (euid w0), (egid w0). done.
Qed.

(** What the Runner leaves below its credential root: its lock file. *)
Definition lock_only (l : location) (x : string) (m : filesystem) : Prop :=
  (x = RunnerHostLockFile ∧ ∀ n, m !! (l ++ [x]) = Some n → is_regular n = true ∧ n_perm n = 384)
  ∨ gone l m x.

Lemma prepareRunnerEntry_removes l m0 x :
  Forall normal l → removes l m0 (lock_only l) x (prepareRunnerEntry (abs_path l) x).
Proof.
  intros Hl. unfold prepareRunnerEntry. case_bool_decide as Hx.
  - subst x. intros m Hm. rewrite path_join_child by done.
    assert (Forall normal (l ++ [RunnerHostLockFile])) as Hlx.
    { apply Forall_app. split; [done|]. by repeat constructor. }
    intros w Hw. unfold fsP in Hw. subst m.
    unfold validateRunnerLockFile, mbind, M_bind, try at 1.
    destruct (lstat_child_cases l RunnerHostLockFile Hlx (λ m, real_dir m l) (λ _ H, H) w (or_real _ _ _ Hm))
      as [(n & Hn & ->)|[[Hn ->]|[e ->]]]; [|by split..].
    unfold gets, lift, fail_if.
    destruct (negb (is_regular n) || is_symlink n) eqn:E1; [by split|].
    destruct (negb (n_uid n =? _) || negb (n_perm n =? 384)) eqn:E2; [by split|].
    destruct (negb (n_gid n =? _)) eqn:E3; [by split|].
    split; [done|]. split; [done|]. left. split; [done|]. intros n'. simpl. rewrite Hn. intros [= <-].
    rewrite !orb_false_iff, !negb_false_iff, !Z.eqb_eq in *. naive_solver.
  - destruct (negb _ || negb _) eqn:E.
    { intros m Hm. apply triple_throw. intros w Hw. unfold fsP in *. by subst m. }
    apply orb_false_iff in E as [_ Hv%negb_false_iff]. intros m Hm.
    eapply triple_conseq; [by apply (removeDirectChild_removes l Hl m0)|done| |done].
    intros u w (? & ? & ?). split; [done|]. split; [done|]. by right.
Qed.

Lemma PrepareRunnerCredentialRoot_ok root m :
  clean root = root → fs_wf m →
  triple (λ w, m = fs w) (PrepareRunnerCredentialRoot root)
    (λ _, fsP (λ m', ∃ l uid gid, owned_dir m root uid gid 456 false l
       ∧ only_removed l m m' ∧ ∀ x q, is_Some (m' !! (l ++ x :: q)) → lock_only l x m'))
    (fsP (λ m', m = m' ∨ ∃ l uid gid, owned_dir m root uid gid 456 false l ∧ only_removed l m m')).
Proof.
  intros Hc [Hnr Hwf]. unfold PrepareRunnerCredentialRoot.
  apply (triple_bind _ _ _ (λ _, fsP (eq m))); [by apply triple_gets|]. intros w0.
  eapply triple_seq; [by apply triple_wrap, validateOwnedDirectory_ok|intros w Hw; by left|].
  intros [] w [Hw (l & Hown)]. pose proof (owned_dir_clean _ _ _ _ _ _ _ Hc Hown) as Hr.
  pose proof Hown as (_ & Hl & Hne & Hd & _). rewrite Hr in *. clear Hr. revert w Hw. fold (fsP (eq m)).
  eapply triple_seq; [by apply triple_wrap, read_dir_real|intros w Hw; by left|].
  intros entries w [-> Hw]. revert w Hw. fold (fsP (eq m)). eapply triple_seq.
  - apply (join_loop_removes l Hl m (lock_only l)).
    + intros x m1 m2 [[-> Hlk]|Hg] Hs; [left; split; [done|]; eauto|right; by eapply gone_sub].
    + intros x _. by apply prepareRunnerEntry_removes.
    + by apply only_removed_refl.
  - done.
  - intros res. apply triple_lift.
    + intros [] w Hres (Hm & _ & Hall). destruct res; [done|]. destruct (Hall eq_refl) as [_ Hg].
      exists l, (euid w0), (egid w0). split_and!; [done..|]. intros x q [n Hn]. apply Hg.
      apply elem_of_children, (Hwf l x q). eexists. by eapply or_sub.
    + intros w (Hm & _). right. by exists l, (euid w0), (egid w0).
Qed.

(** ** One job's directory *)
Lemma RemoveCredentialJobDirectory_ok root id m l :
  clean root = abs_path l → Forall normal l → validCredentialJobID id = true → real_dir m l →
  triple (fsP (eq m)) (RemoveCredentialJobDirectory root id)
    (λ _, fsP (eq (drop_tree (l ++ ["job-" +:+ id]) m))) (fsP (eq m)).
Proof.
  intros Hc Hl Hid Hd. pose proof (job_name_normal id Hid) as Hj.
  unfold RemoveCredentialJobDirectory, CredentialJobDirectory. rewrite Hid, Hc, path_join_child by done.
  eapply triple_bind.
  { apply (triple_lift _ _ (λ d, fsP (λ m', d = abs_path (l ++ ["job-" +:+ id]) ∧ m = m'))); [|done].
    intros d w Hdir Hw. split; [|exact Hw]. cbn in Hdir. congruence. }
  intros d w [-> Hw]. rewrite base_abs_path by done. revert w Hw. fold (fsP (eq m)).
  apply removeDirectChild_ok; [done|by apply normal_validDirectName|done].
Qed.

Lemma alter_insert_node (f : node → node) (loc : location) n (m : filesystem) :
  <[loc := f n]> (<[loc := n]> m) = <[loc := f n]> m.
Proof. apply insert_insert_eq. Qed.

Lemma CreateCredentialJobDirectory_ok root id m :
  clean root = root → fs_wf m →
  triple (fsP (eq m)) (CreateCredentialJobDirectory root id)
    (λ d, fsP (λ m', ∃ l uid gid n, owned_dir m root uid gid 456 false l
       ∧ d = abs_path (l ++ ["job-" +:+ id]) ∧ m !! (l ++ ["job-" +:+ id]) = None
       ∧ m' = <[l ++ ["job-" +:+ id] := n]> m
       ∧ n_kind n = KDir ∧ n_perm n = 456 ∧ n_setgid n = true ∧ n_sticky n = false))
    (λ _, True).
Proof.
  intros Hc [Hnr Hwf]. unfold CreateCredentialJobDirectory.
  apply (triple_bind _ _ _ (λ _, fsP (eq m))); [by apply triple_gets|]. intros w0.
  eapply triple_seq; [by apply triple_wrap, validateOwnedDirectory_ok|done|].
  intros [] w [Hw (l & Hown)]. pose proof (owned_dir_clean _ _ _ _ _ _ _ Hc Hown) as Hr.
  pose proof Hown as (_ & Hl & Hne & Hd & _). rewrite Hr in *. clear Hr. revert w Hw. fold (fsP (eq m)).
  destruct (CredentialJobDirectory (abs_path l) id) as [d|e] eqn:Hdir; [|done].
  destruct (CredentialJobDirectory_ok _ _ _ (is_abs_abs_path l) Hdir) as (l' & Hl' & Hn' & Hid & ->).
  rewrite clean_abs_path in Hl' by done. apply abs_path_inj in Hl' as <-; [|done..]. clear Hn'.
  set (loc := l ++ ["job-" +:+ id]).
  assert (Forall normal loc) as Hloc by (apply Forall_app; split; [done|apply Forall_singleton, job_name_normal, Hid]).
  apply (triple_bind _ _ _ (λ d, fsP (λ m', d = abs_path loc ∧ m = m'))).
  { apply triple_lift; [|done]. intros d w Hd' Hw. split; [|exact Hw]. cbn in Hd'. congruence. }
  intros d w [-> Hw]. revert w Hw. fold (fsP (eq m)).
  eapply triple_seq.
  { apply triple_wrap, (mkdir_child _ _ Hloc (eq m) ltac:(by intros ? <-) 456
      (λ m', ∃ n, m !! loc = None ∧ m' = <[loc := n]> m ∧ n_kind n = KDir)).
    intros m' n <- Hn Hk. by exists n. }
  { done. }
  intros [] w (n & Hn & Hw & Hk). revert w Hw. fold (fsP (λ m', m' = <[loc := n]> m)).
  eapply triple_seq.
  { eapply triple_try, (sys_triple (λ m', m' = <[loc := n]> m) _
      (λ _ m', ∃ n', n_kind n' = KDir ∧ n_perm n' = 456 ∧ n_setgid n' = true ∧ n_sticky n' = false
               ∧ m' = <[loc := n']> m)).
    intros w a m' Hw H. rewrite resolve_real_dir in H.
    - rewrite Hw in H. simpl in H. rewrite lookup_insert_eq in H. simpl in H. simplify_eq.
      exists (set_perm 456 true false n). by rewrite insert_insert_eq.
    - done.
    - rewrite Hw. eapply real_dir_snoc; [by apply real_dir_insert|apply lookup_insert_eq|done]. }
  { done. }
  intros [u|e].
  - apply triple_ret. intros w (n' & ? & ? & ? & ? & ?). exists l, (euid w0), (egid w0), n'. done.
  - intros w Hw. unfold mbind, M_bind, try, throw. by destruct (remove _ w).
Qed.

(** ** Scavenging *)
Definition scavenged (l : location) (x : string) (m : filesystem) : Prop :=
  has_prefix x "job-" = true → ∀ n, n ∈ legacyWorkspaceSecretDirectories → gone (l ++ [x]) m n.

Lemma only_removed_below l x m0 m m' :
  only_removed l m0 m → only_removed (l ++ [x]) m m' → only_removed l m0 m'.
Proof.
  intros [Hs Ho _] [Hs' Ho' Hd']. constructor.
  - eauto.
  - intros p Hp. rewrite Ho'; [by apply Ho|]. intros (y & q & ->). apply Hp.
    exists x, (y :: q). by rewrite <- (assoc_L (++)).
  - eapply real_dir_prefix; [by eexists|done].
Qed.

Lemma scavengeEntry_ok l m0 m x acc :
  Forall normal l → only_removed l m0 m → no_root m →
  triple (fsP (eq m)) (scavengeEntry (abs_path l) x acc)
    (λ res, fsP (λ m', only_removed l m0 m' ∧ (∀ p n, m' !! p = Some n → m !! p = Some n) ∧
       (res = None → acc = None ∧ scavenged l x m')))
    (λ _, False).
Proof.
  intros Hl Hm Hnr. unfold scavengeEntry, scavenged. cbv zeta.
  assert (∀ (o : option goerr), (o = None → acc = None ∧ (has_prefix x "job-" = true →
      ∀ n, n ∈ legacyWorkspaceSecretDirectories → gone (l ++ [x]) m n)) →
    triple (fsP (eq m)) (mret o) (λ res, fsP (λ m', only_removed l m0 m' ∧
      (∀ p n, m' !! p = Some n → m !! p = Some n) ∧ (res = None → acc = None ∧ (has_prefix x "job-" = true →
      ∀ n, n ∈ legacyWorkspaceSecretDirectories → gone (l ++ [x]) m' n)))) (λ _, False)) as Hret.
  { intros o Ho. apply triple_ret. intros w Hw. unfold fsP in *. subst m. done. }
  assert (∀ e, errors_join [acc; Some e] = None → acc = None ∧ (has_prefix x "job-" = true →
      ∀ n, n ∈ legacyWorkspaceSecretDirectories → gone (l ++ [x]) m n)) as Hjoin by (intros e; by destruct acc).
  destruct (has_prefix x "job-") eqn:Hp; [|apply Hret; by intros ->].
  destruct (validDirectName x) eqn:Hv; [|by apply Hret, Hjoin].
  pose proof (validDirectName_normal _ Hv) as Hx. rewrite path_join_child by done.
  assert (Forall normal (l ++ [x])) as Hlx by (apply Forall_app; split; [done|by apply Forall_singleton]).
  apply (triple_bind _ _ _ (λ _, fsP (eq m))); [by apply triple_gets|]. intros w0.
  eapply triple_bind; [by apply triple_try, validateOwnedDirectory_ok|].
  intros [u|e]; [|by apply Hret, Hjoin].
  intros w [Hw (l' & Hc & Hl' & _ & Hd & _)]. rewrite clean_abs_path in Hc by done.
  apply abs_path_inj in Hc as <-; [|done..]. revert w Hw. fold (fsP (eq m)).
  eapply triple_bind; [apply lstat_found|]. intros [n|e] w [Hw _]; revert w Hw; fold (fsP (eq m));
    [|by apply Hret, Hjoin].
  destruct (n_sticky n); [|by apply Hret, Hjoin].
  eapply triple_conseq.
  - apply (join_loop_removes (l ++ [x]) Hlx m (λ n m', gone (l ++ [x]) m' n)).
    + intros y m1 m2 Hg Hs. by eapply gone_sub.
    + intros y Hy m' Hm'. apply triple_wrap, (removeDirectChild_removes (l ++ [x]) Hlx m y); [|done].
      repeat (apply elem_of_cons in Hy as [->|Hy]; [done|]). by apply elem_of_nil in Hy.
    + by apply only_removed_refl.
  - done.
  - intros res w (Hor & Hs & Hres). split; [by eapply only_removed_below|]. split; [done|].
    intros Hn. destruct (Hres Hn) as [-> Hg]. split; [done|]. intros _. apply Hg.
  - done.
Qed.

Lemma scavenge_loop_ok l m0 entries acc m :
  Forall normal l → only_removed l m0 m → no_root m0 →
  triple (fsP (eq m)) (scavenge_loop (abs_path l) entries acc)
    (λ res, fsP (λ m', only_removed l m0 m' ∧ (∀ p n, m' !! p = Some n → m !! p = Some n) ∧
       (res = None → acc = None ∧ ∀ x, x ∈ entries → scavenged l x m')))
    (λ _, False).
Proof.
  intros Hl Hm Hnr. revert acc m Hm. induction entries as [|x entries IH]; intros acc m Hm; simpl.
  { apply triple_ret. intros w Hw. unfold fsP in *. subst m. split; [done|]. split; [done|].
    intros ->. split; [done|]. set_solver. }
  assert (no_root m) as Hnm.
  { apply eq_None_not_Some. intros [n Hn]. apply (or_sub _ _ _ Hm) in Hn. by rewrite Hnr in Hn. }
  intros w Hw. unfold mbind, M_bind.
  pose proof (scavengeEntry_ok l m0 m x acc Hl Hm Hnm w Hw) as H.
  destruct (scavengeEntry _ _ _ w) as [[acc'|e] w1]; [|done]. destruct H as (Hm1 & Hs1 & Ha).
  pose proof (IH acc' (fs w1) Hm1 w1 eq_refl) as H.
  destruct (scavenge_loop _ _ _ w1) as [[res|e] w2]; [|done]. destruct H as (Hm2 & Hs2 & Hr).
  split; [done|]. split; [by eauto|]. intros Hn. destruct (Hr Hn) as [Hacc Hall].
  destruct (Ha Hacc) as [-> Hx]. split; [done|].
  intros y [->|Hy]%elem_of_cons; [|by apply Hall].
  intros Hp n Hnl. eapply gone_sub; [apply Hs2|]. by apply Hx.
Qed.

Lemma ScavengeWorkspaceSecrets_ok root m :
  clean root = root → fs_wf m →
  triple (fsP (eq m)) (ScavengeWorkspaceSecrets root)
    (λ _, fsP (λ m', ∃ l uid gid, owned_dir m root uid gid 488 true l
       ∧ only_removed l m m' ∧ ∀ x, is_Some (m !! (l ++ [x])) → scavenged l x m'))
    (λ _, True).
Proof.
  intros Hc [Hnr Hwf]. unfold ScavengeWorkspaceSecrets.
  apply (triple_bind _ _ _ (λ _, fsP (eq m))); [by apply triple_gets|]. intros w0.
  eapply triple_seq; [by apply triple_wrap, validateOwnedDirectory_ok|done|].
  intros [] w [Hw (l & Hown)]. pose proof (owned_dir_clean _ _ _ _ _ _ _ Hc Hown) as Hr.
  pose proof Hown as (_ & Hl & Hne & Hd & _). rewrite Hr in *. clear Hr. revert w Hw. fold (fsP (eq m)).
  eapply triple_seq; [by apply triple_wrap, read_dir_real|done|].
  intros entries w [-> Hw]. revert w Hw. fold (fsP (eq m)).
  eapply triple_seq; [apply (scavenge_loop_ok l m); [done|by apply only_removed_refl|done]|done|].
  intros res. apply triple_lift; [|done]. intros [] w Hres (Hm & _ & Hall).
  destruct res; [done|]. destruct (Hall eq_refl) as [_ Hg].
  exists l, (euid w0), (egid w0). split_and!; [done..|]. intros x Hx. apply Hg, elem_of_children, Hx.
Qed.

(** ** Properties *)

(** Below one absolute root two job identifiers never share a credential
    directory, and every accepted identifier names a direct child of the
    cleaned root: no identifier can climb out of it or reach a deeper path. *)
Lemma credential_paths_never_alias root id1 id2 d :
  is_abs root = true →
  CredentialJobDirectory root id1 = Ok d → CredentialJobDirectory root id2 = Ok d →
  id1 = id2 ∧ ∃ l, clean root = abs_path l ∧ d = abs_path (l ++ ["job-" +:+ id1]).
Proof.
  intros Habs H1 H2.
  destruct (CredentialJobDirectory_ok _ _ _ Habs H1) as (l1 & Hl1 & Hn1 & Hv1 & ->).
  destruct (CredentialJobDirectory_ok _ _ _ Habs H2) as (l2 & Hl2 & Hn2 & Hv2 & Heq).
  rewrite Hl1 in Hl2. apply abs_path_inj in Hl2 as <-; [|done..].
  apply abs_path_inj in Heq;
    [|apply Forall_app; split; [done|by apply Forall_singleton, job_name_normal]..].
  apply app_inv_head in Heq. assert ("job-" +:+ id1 = "job-" +:+ id2) as Hid by congruence.
  apply str_app_inj_l in Hid. split; [done|]. by exists l1.
Qed.

(** When the executor's private root is accepted it is a real directory
    that only the executor can enter, and it is empty afterwards; whatever
    fails on the way, nothing outside it has changed. *)
Lemma executor_root_cleared root w :
  clean root = root → fs_wf (fs w) →
  match PrepareExecutorCredentialRoot root w with
  | (Ok _, w') => ∃ l uid gid, owned_dir (fs w) root uid gid 448 false l
      ∧ only_removed l (fs w) (fs w') ∧ ∀ x q, fs w' !! (l ++ x :: q) = None
  | (Err _, w') => fs w = fs w' ∨ ∃ l uid gid, owned_dir (fs w) root uid gid 448 false l
      ∧ only_removed l (fs w) (fs w')
  end.
Proof. intros Hc Hwf. by apply (PrepareExecutorCredentialRoot_ok root (fs w)). Qed.

(** A Runner that starts after a crash finds no credential of an earlier
    job: all that may be left below its credential root is its own lock file,
    and only as a private regular file; nothing outside the root has changed. *)
Lemma runner_root_recovered root w :
  clean root = root → fs_wf (fs w) →
  match PrepareRunnerCredentialRoot root w with
  | (Ok _, w') => ∃ l uid gid, owned_dir (fs w) root uid gid 456 false l
      ∧ only_removed l (fs w) (fs w')
      ∧ ∀ x q, is_Some (fs w' !! (l ++ x :: q)) → lock_only l x (fs w')
  | (Err _, w') => fs w = fs w' ∨ ∃ l uid gid, owned_dir (fs w) root uid gid 456 false l
      ∧ only_removed l (fs w) (fs w')
  end.
Proof. intros Hc Hwf. by apply (PrepareRunnerCredentialRoot_ok root (fs w)). Qed.

Lemma drop_created loc n m :
  fs_wf m → m !! loc = None → loc ≠ [] → drop_tree loc (<[loc := n]> m) = m.
Proof.
  intros [_ Hwf] Hn Hne. apply map_eq. intros p. rewrite drop_tree_lookup. case_decide as Hp.
  - destruct Hp as [q ->]. symmetry. apply eq_None_not_Some. intros Hs.
    destruct loc as [|x loc _] using rev_ind; [done|]. rewrite <- (assoc_L (++)) in Hs.
    apply Hwf in Hs. rewrite Hn in Hs. by destruct Hs.
  - apply lookup_insert_ne. by intros ->.
Qed.

(** A job's credential directory is new when [CreateCredentialJobDirectory]
    returns it, with mode 0710 and the set-group-ID bit, and
    [RemoveCredentialJobDirectory] for the same job takes it away again:
    together they leave the file system as it was. *)
Lemma credential_directory_roundtrip root id w d w1 w2 :
  clean root = root → fs_wf (fs w) →
  CreateCredentialJobDirectory root id w = (Ok d, w1) →
  RemoveCredentialJobDirectory root id w1 = (Ok (), w2) →
  (∃ loc n, fs w !! loc = None ∧ d = abs_path loc ∧ fs w1 = <[loc := n]> (fs w)
            ∧ n_kind n = KDir ∧ n_perm n = 456 ∧ n_setgid n = true)
  ∧ fs w2 = fs w.
Proof.
  intros Hc Hwf Hcreate Hremove.
  pose proof (CreateCredentialJobDirectory_ok root id (fs w) Hc Hwf w eq_refl) as H.
  rewrite Hcreate in H. destruct H as (l & uid & gid & n & Hown & -> & Hnone & Hw1 & ? & ? & ? & _).
  pose proof Hown as (Hcl & Hl & Hne & Hd & _).
  assert (validCredentialJobID id = true) as Hid.
  { unfold RemoveCredentialJobDirectory, CredentialJobDirectory in Hremove.
    by destruct (validCredentialJobID id). }
  pose proof (RemoveCredentialJobDirectory_ok root id (fs w1) l Hcl Hl Hid
                ltac:(rewrite Hw1; by apply real_dir_insert) w1 eq_refl) as Hr.
  rewrite Hremove in Hr. unfold fsP in Hr. rewrite <- Hr, Hw1. split; [by eauto 10|].
  apply drop_created; [done..|]. by destruct l.
Qed.

(** A successful scavenge leaves no registry authentication, certificate
    or credential hand-off of an older Runner in any job workspace, and it
    removes nothing but direct children of the workspaces. *)
Lemma workspace_secrets_scavenged root w w' :
  clean root = root → fs_wf (fs w) →
  ScavengeWorkspaceSecrets root w = (Ok (), w') →
  ∃ l uid gid, owned_dir (fs w) root uid gid 488 true l ∧ only_removed l (fs w) (fs w')
    ∧ ∀ job n q, has_prefix job "job-" = true → n ∈ legacyWorkspaceSecretDirectories →
        is_Some (fs w !! (l ++ [job])) → fs w' !! (l ++ job :: n :: q) = None.
Proof.
  intros Hc Hwf Hrun. pose proof (ScavengeWorkspaceSecrets_ok root (fs w) Hc Hwf w eq_refl) as H.
  rewrite Hrun in H. destruct H as (l & uid & gid & Hown & Hor & Hall). exists l, uid, gid.
  split; [done|]. split; [done|]. intros job n q Hj Hn Hjob.
  specialize (Hall job Hjob Hj n Hn q). by rewrite <- (assoc_L (++)) in Hall.
Qed.

(** ** Witnesses *)
Definition dnode (perm : Z) (sg sticky : bool) : node :=
  {| n_kind := KDir; n_uid := 7; n_gid := 8; n_perm := perm; n_setgid := sg; n_sticky := sticky |}.
Definition secret_node : node :=
  {| n_kind := KReg (to_bytes "key"); n_uid := 7; n_gid := 8; n_perm := 384; n_setgid := false; n_sticky := false |}.
Definition cred_os (m : filesystem) : os :=
  {| fs := m; cwd := []; euid := 7; egid := 8; umask := 18; faults := λ _, None; tick := 0 |}.
Definition cred_fs : filesystem :=
  <[["run"] := dnode 493 false false]> (<[["run"; "p"] := dnode 448 false false]>
  (<[["run"; "p"; "credential"] := secret_node]> (<[["run"; "c"] := dnode 456 false false]>
  (<[["run"; "c"; "job-1"] := dnode 456 true false]> (<[["run"; "c"; "job-1"; "credential"] := secret_node]>
  (<[["run"; "c"; ".runner.lock"] := secret_node]>
  (<[["run"; "w"] := dnode 488 true false]> (<[["run"; "w"; "job-1"] := dnode 504 true true]>
  (<[["run"; "w"; "job-1"; ".runtime-auth"] := dnode 448 false false]> ∅))))))))).

Lemma cred_fs_wf : fs_wf cred_fs.
Proof. apply wf_check_ok. vm_compute. reflexivity. Qed.

Example executor_root_cleared_runs :
  is_ok (PrepareExecutorCredentialRoot "/run/p" (cred_os cred_fs)).1 = true
  ∧ is_ok (PrepareRunnerCredentialRoot "/run/c" (cred_os cred_fs)).1 = true.
Proof. by vm_compute. Qed.

Definition cred_created : os := (CreateCredentialJobDirectory "/run/c" "9" (cred_os cred_fs)).2.

(** ** Clearing succeeds when no system call fails *)
Lemma removeDirectChild_total l x w :
  Forall normal l → normal x → real_dir (fs w) l → fault_free w →
  removeDirectChild (abs_path l) x w = (Ok (), ticked (set_fs (drop_tree (l ++ [x]) (fs w)) w)).
Proof.
  intros Hl Hx Hd Hff. unfold removeDirectChild. cbv zeta.
  rewrite normal_validDirectName by done. cbn [negb fail_if].
  rewrite clean_abs_path, path_join_child by done.
  rewrite rel_child by (done || by apply Forall_singleton).
  rewrite rel_path_single, bool_decide_true by done.
  pose proof (normal_free x Hx) as Hfree. unfold free_of in Hfree. rewrite Hfree.
  unfold mbind, M_bind, lift, wrapM. cbn [fail_if negb orb]. unfold remove_all.
  rewrite sys_fault_free by done.
  rewrite resolve_child by (done || (apply Forall_app; split; [done|by apply Forall_singleton])).
  by rewrite bool_decide_false by by destruct l.
Qed.

Lemma clear_loop_total l names w :
  Forall normal l → Forall normal names → real_dir (fs w) l → fault_free w →
  ∃ w', join_loop (λ name, if validDirectName name then removeDirectChild (abs_path l) name
                           else throw (Errorf "invalid direct child %q" [FStr name])) names None w = (Ok None, w')
        ∧ fault_free w' ∧ real_dir (fs w') l.
Proof.
  intros Hl Hn. revert w. induction Hn as [|x names Hx Hn IH]; intros w Hd Hff; [by exists w|].
  cbn [join_loop]. rewrite normal_validDirectName by done.
  unfold mbind, M_bind, try. rewrite removeDirectChild_total by done.
  apply IH; [|done]. cbn. by apply real_dir_drop_tree.
Qed.

Lemma clearDirectChildren_total l w :
  Forall normal l → l ≠ [] → real_dir (fs w) l → fs_wf (fs w) → fs_names (fs w) → fault_free w →
  ∃ w', clearDirectChildren (abs_path l) w = (Ok (), w') ∧ fault_free w'
        ∧ only_removed l (fs w) (fs w') ∧ ∀ x q, fs w' !! (l ++ x :: q) = None.
Proof.
  intros Hl Hne Hd Hwf Hnames Hff.
  pose proof (clearDirectChildren_ok l (fs w) Hl Hne Hd Hwf w eq_refl) as Hok.
  assert (∃ w', clearDirectChildren (abs_path l) w = (Ok (), w') ∧ fault_free w') as (w' & Hrun & Hff').
  { unfold clearDirectChildren, mbind, M_bind, read_dir. rewrite sys_fault_free by done.
    rewrite resolve_real_dir by done. cbn [mbind result_bind].
    destruct (Hd l) as [?|(n & Hn & Hk)]; [done|done|]. rewrite Hn. cbn [of_option mbind result_bind].
    unfold is_dir. rewrite Hk. destruct (clear_loop_total l (children (fs w) l)
      (ticked (set_fs (fs w) w)) Hl) as (w' & Hloop & ? & _); [|done|done|].
    - apply Forall_forall. intros x Hx%elem_of_children%Hnames. apply Forall_app in Hx as [_ Hx].
      by inversion Hx.
    - unfold mbind, M_bind. rewrite Hloop. by exists w'. }
  rewrite Hrun in Hok. exists w'. split; [done|]. by split.
Qed.

(** ** The host lock

    Asking for the lock removes no file and changes no content: at most the
    (empty) lock file is added and an entry's mode changed. *)
Definition files_kept (m m' : filesystem) : Prop :=
  (∀ loc n, m !! loc = Some n → ∃ n', m' !! loc = Some n' ∧ n_kind n' = n_kind n)
  ∧ ∀ loc n', m' !! loc = Some n' → is_Some (m !! loc) ∨ n_kind n' = KReg [].
Lemma files_kept_refl m : files_kept m m.
Proof. split; [by eauto|]. intros loc n' Hn. by left; exists n'. Qed.
Lemma files_kept_insert m0 m loc n :
  files_kept m0 m → match m !! loc with Some n0 => n_kind n = n_kind n0 | None => n_kind n = KReg [] end →
  files_kept m0 (<[loc := n]> m).
Proof.
  intros [H1 H2] Hk. split.
  - intros l n0 Hn. destruct (H1 l n0 Hn) as (n1 & Hn1 & Hk1). destruct (decide (l = loc)) as [->|Hne].
    + rewrite Hn1 in Hk. exists n. rewrite lookup_insert_eq. split; [done|congruence].
    + exists n1. by rewrite lookup_insert_ne.
  - intros l n' [[<- <-]|[Hne Hn]]%lookup_insert_Some; [|by apply H2].
    destruct (m !! loc) as [n0|] eqn:E; [|by right]. destruct (H2 loc n0 E) as [?|Hr]; [by left|right; congruence].
Qed.

Lemma validateOwnedDirectory_keeps path uid gid perm sg P : preserves (fsP P) (validateOwnedDirectory path uid gid perm sg).
Proof.
  unfold validateOwnedDirectory. apply preserves_bind; [apply preserves_lift|intros _]. cbv zeta.
  apply preserves_bind; [apply preserves_try, OS.lstat_keeps|intros info]. apply preserves_bind; [apply preserves_lift|intros n].
  apply preserves_bind; [apply preserves_try, eval_symlinks_keeps|intros real].
  do 3 (apply preserves_bind; [apply preserves_lift|intros _]). apply preserves_lift.
Qed.
Lemma validateRunnerLockFile_keeps path P : preserves (fsP P) (validateRunnerLockFile path).
Proof.
  unfold validateRunnerLockFile. apply preserves_bind; [apply preserves_try, OS.lstat_keeps|intros info].
  apply preserves_bind; [apply preserves_gets|intros w]. destruct info as [n|e]; [|apply preserves_throw].
  do 2 (apply preserves_bind; [apply preserves_lift|intros _]). apply preserves_lift.
Qed.
Lemma sys_files_kept {A} (f : os → result (A * filesystem)) m0 :
  (∀ w a m, f w = Ok (a, m) → files_kept m0 (fs w) → files_kept m0 m) → preserves (fsP (files_kept m0)) (sys f).
Proof.
  intros Hf. apply preserves_state. intros w Hw. unfold sys. destruct (faults w (tick w)) as [[e k]|]; [done|].
  destruct (f w) as [[a m]|e] eqn:E; [|done]. by apply (Hf _ _ _ E).
Qed.
Lemma host_lock_keeps flock root m0 : preserves (fsP (files_kept m0)) (AcquireRunnerHostLock flock root).
Proof.
  unfold AcquireRunnerHostLock. apply preserves_bind; [apply preserves_gets|intros w].
  apply preserves_bind; [apply preserves_wrap, validateOwnedDirectory_keeps|intros _]. cbv zeta.
  apply preserves_bind; [apply preserves_wrap, sys_files_kept|intros _].
  { intros w1 a m H Hk. inv_ok H. destruct (fs w1 !! x) as [n|] eqn:E.
    - destruct (n_kind n); by simplify_eq.
    - simplify_eq. apply files_kept_insert; [done|]. by rewrite E. }
  apply preserves_bind; [apply preserves_wrap, sys_files_kept|intros _].
  { intros w1 a m H Hk. inv_ok H. simplify_eq. apply files_kept_insert; [done|]. by rewrite Hok0. }
  apply preserves_bind; [apply validateRunnerLockFile_keeps|intros _]. apply preserves_lift.
Qed.
Lemma host_lock_busy root w u w' : AcquireRunnerHostLock (Ok false) root w ≠ (Ok u, w').
Proof. unfold AcquireRunnerHostLock. intros Hr. inv_run Hr. done. Qed.
