(* ===== verification/Command.v ===== *)
(** * Running commands (runner/internal/executor/command.go)

    A command is described by a [Spec]; the process itself is a parameter of
    the local [Runner].  Writers act on the world [W] of the caller. *)
From S2P Require Import Prelude GoIO GoString GoPath OS.

(* src: runner/internal/executor/command.go:19-19 environmentName *)
Definition environmentName : regex :=
  Cat (Class (λ c, upper_alpha c || is_char "_" c))
      (Star (Class (λ c, upper_alpha c || digit c || is_char "_" c))).

(** An [io.Writer] that acts on the world. *)
Definition writer (W : Type) : Type := bytes → W → (Z * option goerr) * W.

(* src: runner/internal/executor/command.go:21-34 Spec *)
Record Spec (W : Type) := {
  Path : string;
  Args : list string;
  Dir : string;
  Env : gmap string string;
  Stdin : bytes;
  Timeout : Z;
  Stdout : option (writer W);
  Stderr : option (writer W);
  Isolated : bool
}.
Arguments Path {W}. Arguments Args {W}. Arguments Dir {W}. Arguments Env {W}.
Arguments Stdin {W}. Arguments Timeout {W}. Arguments Stdout {W}. Arguments Stderr {W}.
Arguments Isolated {W}.

(* src: runner/internal/executor/command.go:36-39 Result *)
Record ExecResult := { ExitCode : Z; Duration : Z }.
Definition no_result : ExecResult := {| ExitCode := -1; Duration := 0 |}.

(** [(Result, error)]. *)
Definition run_return : Type := ExecResult * option goerr.
Definition refused (text : string) : run_return := (no_result, Some (error_new text)).

(* src: runner/internal/executor/command.go:110-114 CommandExecutor *)
Definition CommandExecutor (W : Type) : Type := Spec W → W → run_return * W.

(* src: runner/internal/executor/command.go:116-121 Dispatcher *)
Record Dispatcher (W : Type) := {
  Local : option (CommandExecutor W);
  IsolatedExecutor : option (CommandExecutor W)
}.
Arguments Local {W}. Arguments IsolatedExecutor {W}.

(* src: runner/internal/executor/command.go:123-134 (Dispatcher).Run *)
Definition DispatcherRun {W} (d : Dispatcher W) (spec : Spec W) (w : W) : run_return * W :=
  if Isolated spec then
    match IsolatedExecutor d with
    | None => (refused "isolated executor is unavailable", w)
    | Some run => run spec w
    end
  else
    match Local d with
    | None => (refused "local executor is unavailable", w)
    | Some run => run spec w
    end.

(** The loop over the map visits the entries in an order of its own. *)
Fixpoint environment_keys (order : list (string * string)) : result (list string) :=
  match order with
  | [] => Ok []
  | (key, value) :: order =>
      _ ← fail_if (negb (match_string environmentName key)) (Errorf "invalid environment name %q" [FStr key]);
      _ ← fail_if (contains_byte NUL value) (Errorf "environment %s contains NUL" [FStr key]);
      keys ← environment_keys order;
      Ok (key :: keys)
  end.

(* src: runner/internal/executor/command.go:136-153 restrictedEnvironment *)
Definition restrictedEnvironment (values : gmap string string) (order : list (string * string))
    : result (list string) :=
  keys ← environment_keys order;
  Ok ((λ key, key +:+ "=" +:+ default "" (values !! key)) <$> sort_strings keys).

(** How a started process ended: its error and the state of the context. *)
Inductive process_end :=
  | Finished
  | Failed (exit_code : option Z) (err : goerr)
  | TimedOut (exit_code : option Z)
  | Cancelled (exit_code : option Z).

Section local.
Context {W : Type}.
(** [os.Stat] and the process: what [cmd.Run] does with the prepared command
    and its environment, and how long it takes. *)
Context (stat_path : string → M W node).
Context (process : Spec W → list string → W → (process_end * Z) * W).
(** The order in which Go visits a map. *)
Context (range : gmap string string → list (string * string)).

Definition exit_code_of (o : option Z) : Z := default (-1) o.

(* src: runner/internal/executor/command.go:41-108 (Runner).Run *)
Definition RunnerRun (spec : Spec W) (w : W) : run_return * W :=
  if Isolated spec then (refused "isolated command cannot run in the local runner process", w) else
  if negb (is_abs (Path spec)) then (refused "command path must be absolute", w) else
  match stat_path (Path spec) w with
  | (Err e, w) => ((no_result, Some (wrap "inspect command: %w" e)), w)
  | (Ok info, w) =>
      if negb (is_regular info) || (Z.land (n_perm info) 73 =? 0)
      then (refused "command path must be an executable regular file", w) else
      if bool_decide (Dir spec = "") || negb (is_abs (Dir spec))
      then (refused "command working directory must be absolute", w) else
      if Timeout spec <=? 0 then (refused "command timeout must be positive", w) else
      match restrictedEnvironment (Env spec) (range (Env spec)) with
      | Err e => ((no_result, Some e), w)
      | Ok environment =>
          let '((ending, duration), w) := process spec environment w in
          let result code := {| ExitCode := code; Duration := duration |} in
          (match ending with
           | Finished => (result 0, None)
           | TimedOut code =>
               (result (exit_code_of code), Some (Errorf "command exceeded timeout %s" [FInt (Timeout spec)]))
           | Cancelled code => (result (exit_code_of code), Some (Sentinel Canceled))
           | Failed code e =>
               (result (exit_code_of code),
                Some (Wrapf "command exited with code %d: %w" [FInt (exit_code_of code)] e))
           end, w)
      end
  end.
End local.

(** ** The environment given to a process *)
Definition valid_entry (kv : string * string) : Prop :=
  match_string environmentName kv.1 = true ∧ contains_byte NUL kv.2 = false.

Lemma environment_keys_ok order keys :
  environment_keys order = Ok keys ↔ Forall valid_entry order ∧ keys = order.*1.
Proof.
  revert keys. induction order as [|[k v] order IH]; intros keys; simpl.
  { split; [intros [= <-]; done|intros [_ ->]; done]. }
  rewrite Forall_cons. unfold valid_entry at 1; simpl. split.
  - intros H. inv_ok H. apply negb_false_iff in Hok. apply IH in Hok1 as [? ->].
    simplify_eq. done.
  - intros [[[Hk Hv] Hf] ->]. rewrite Hk, Hv. simpl.
    destruct (IH order.*1) as [_ H]. by rewrite H.
Qed.

Lemma environment_keys_err order e :
  environment_keys order = Err e → ¬ Forall valid_entry order.
Proof.
  intros He Hf. destruct (environment_keys_ok order order.*1) as [_ H].
  rewrite H in He; [done|by split].
Qed.

#[export] Instance string_le_total : Total string_le.
Proof.
  intros s t. unfold string_le. revert t. generalize (chars s) as l. intros l t. generalize (chars t) as k.
  clear. induction l as [|a l IH]; intros k; [by left|]. destruct k as [|b k]; [by right|]. simpl.
  destruct (Z.lt_total (byte a) (byte b)) as [H|[H|H]].
  - left. apply orb_true_iff. left. lia.
  - destruct (IH k) as [H'|H']; [left|right]; rewrite H', H, Z.eqb_refl; by rewrite orb_true_r.
  - right. apply orb_true_iff. left. lia.
Qed.

#[export] Instance string_le_trans : Transitive string_le.
Proof.
  intros s t u. unfold string_le. generalize (chars s) (chars t) (chars u). clear.
  induction l as [|a l IH]; intros k j; [done|]. destruct k as [|b k], j as [|c j]; simpl; try done.
  rewrite !orb_true_iff, !andb_true_iff, !Z.ltb_lt, !Z.eqb_eq.
  intros [?|[? H1]] [?|[? H2]]; [left; lia..|]. right. split; [lia|by eapply IH].
Qed.

Lemma byte_inj a b : byte a = byte b → a = b.
Proof.
  unfold byte. intros H%N2Z.inj. by rewrite <- (Strings.Ascii.ascii_N_embedding a), H, Strings.Ascii.ascii_N_embedding.
Qed.

#[export] Instance string_le_antisymm : AntiSymm (=) string_le.
Proof.
  intros s t H1 H2. apply chars_inj. revert H1 H2. unfold string_le.
  generalize (chars s) (chars t). clear.
  induction l as [|a l IH]; intros k; destruct k as [|b k]; simpl; try done.
  rewrite !orb_true_iff, !andb_true_iff, !Z.ltb_lt, !Z.eqb_eq.
  intros [?|[He H1]] [?|[? H2]]; [lia..|]. apply byte_inj in He as ->. by rewrite (IH k).
Qed.

Lemma sort_strings_sorted l : StronglySorted string_le (sort_strings l).
Proof. apply Sorted_StronglySorted; [apply _|]. apply Sorted_merge_sort, _. Qed.

(** Sorting forgets the order of the input. *)
Lemma sort_strings_unique l k : l ≡ₚ k → sort_strings l = sort_strings k.
Proof.
  intros H. apply (StronglySorted_unique string_le); [apply sort_strings_sorted..|].
  by rewrite !sort_strings_Permutation.
Qed.

Lemma elem_of_env_order (m : gmap string string) order k v :
  order ≡ₚ map_to_list m → (k, v) ∈ order ↔ m !! k = Some v.
Proof. intros ->. apply elem_of_map_to_list. Qed.

(** ** Properties *)

(** The environment a process receives does not depend on the order in
    which Go visits the map: when every name and value is legal it is the
    sorted list of all [NAME=value] pairs, otherwise the command is refused in
    every order. *)
Lemma restricted_environment_deterministic (values : gmap string string) order :
  order ≡ₚ map_to_list values →
  (map_Forall (λ k v, valid_entry (k, v)) values →
   restrictedEnvironment values order =
     Ok ((λ k, k +:+ "=" +:+ default "" (values !! k)) <$> sort_strings (elements (dom values))))
  ∧ (¬ map_Forall (λ k v, valid_entry (k, v)) values → is_ok (restrictedEnvironment values order) = false).
Proof.
  intros Hord.
  assert (map_Forall (λ k v, valid_entry (k, v)) values ↔ Forall valid_entry order) as Hiff.
  { rewrite Hord, map_Forall_to_list. apply Forall_iff. by intros []. }
  unfold restrictedEnvironment. split.
  - intros Hv. destruct (environment_keys_ok order order.*1) as [_ H].
    rewrite H by (split; [by apply Hiff|done]). simpl. do 2 f_equal.
    apply sort_strings_unique. rewrite Hord.
    apply NoDup_Permutation; [apply NoDup_fst_map_to_list|apply NoDup_elements|].
    intros k. rewrite elem_of_elements, elem_of_dom, list_elem_of_fmap. split.
    + intros ([k' v] & -> & Hk). apply elem_of_map_to_list in Hk. by eexists.
    + intros [v Hk]. exists (k, v). by rewrite elem_of_map_to_list.
  - intros Hv. destruct (environment_keys order) as [keys|e] eqn:E; [|done].
    apply environment_keys_ok in E as [Hf _]. by apply Hiff in Hf.
Qed.

(** A command marked as isolated never reaches a local process: the
    dispatcher's answer and effect do not depend on its local executor, and
    the local runner refuses such a command without starting anything. *)
Lemma isolated_never_local {W} (spec : Spec W) (w : W) iso local1 local2 stat_path process range :
  Isolated spec = true →
  DispatcherRun {| Local := local1; IsolatedExecutor := iso |} spec w
    = DispatcherRun {| Local := local2; IsolatedExecutor := iso |} spec w
  ∧ RunnerRun stat_path process range spec w
    = (refused "isolated command cannot run in the local runner process", w).
Proof. intros H. unfold DispatcherRun, RunnerRun. by rewrite H. Qed.

Definition demo_spec : Spec nat := {| Path := "/bin/sh"; Args := ["x.sh"]; Dir := "/"; Env := ∅;
  Stdin := []; Timeout := 1; Stdout := None; Stderr := None; Isolated := true |}.

