(* ===== verification/Wire.v ===== *)
(** * The executor's wire protocol (runner/internal/executor/socket.go, packets and frames)

    A packet is a 4-byte big-endian length and a JSON document.  encoding/json
    is a parameter ([Codec]); [CodecSpec] is what the protocol relies on: a
    decoded frame is the encoded one, with invalid UTF-8 in its strings
    replaced, and the size of a document is bounded by its fields. *)
From S2P Require Import Prelude GoIO GoString Command.

(* src: runner/internal/executor/socket.go:18-34 maxFrameBytes, maxOutputChunk, ... *)
Definition maxRequestBytes : Z := 262144.
Definition maxFrameBytes : Z := 65536.
Definition maxOutputChunk : Z := 32768.
Definition chunk_len : nat := Z.to_nat maxOutputChunk.

(* src: runner/internal/executor/socket.go:47-54 wireRequest *)
Record wireRequest := {
  rq_Version : Z;
  rq_Path : string;
  rq_Args : list string;
  rq_Dir : string;
  rq_Env : gmap string string;
  rq_TimeoutMillis : Z
}.

(* src: runner/internal/executor/socket.go:56-62 wireFrame *)
Record wireFrame := {
  fr_Type : string;
  fr_Data : bytes;
  fr_ExitCode : Z;
  fr_DurationMillis : Z;
  fr_Error : string
}.

(** [json.Marshal], and [Decode] on a decoder that refuses unknown fields:
    the first value and whether the input ends after it. *)
Class Codec (A : Type) := {
  marshal : A → result bytes;
  decode : bytes → result (A * bool)
}.

(** [strings.ToValidUTF8]-like replacement done by encoding/json. *)
Definition valid_utf8 (s : string) : string := of_chars (concat (encode_rune <$> (runes s).*1)).

Definition decoded_frame (f : wireFrame) : wireFrame :=
  {| fr_Type := valid_utf8 (fr_Type f); fr_Data := fr_Data f; fr_ExitCode := fr_ExitCode f;
     fr_DurationMillis := fr_DurationMillis f; fr_Error := valid_utf8 (fr_Error f) |}.

Class FrameSpec `{Codec wireFrame} := {
  marshal_frame f : in_i64 (fr_ExitCode f) → in_i64 (fr_DurationMillis f) →
    ∃ b, marshal f = Ok b ∧ b ≠ [] ∧ decode b = Ok (decoded_frame f, true) ∧
         blen b ≤ 256 + 6 * (slen (fr_Type f) + slen (fr_Error f)) + 4 * ((blen (fr_Data f) + 2) / 3)
}.

(** [binary.BigEndian.PutUint32] and [Uint32]. *)
Fixpoint be_bytes (n : nat) (z : Z) : bytes :=
  match n with O => [] | S n => be_bytes n (z / 256) ++ [zbyte (z mod 256)] end.
Definition be_value (b : bytes) : Z := foldl (λ acc c, acc * 256 + byte c) 0 b.

(* src: runner/internal/executor/socket.go:597-609 writeAll *)
Definition writeAll `{Writer D} (d : D) (value : bytes) : option goerr * D := write_fully d value.

(* src: runner/internal/executor/socket.go:581-595 writePacket *)
Definition writePacket `{Writer D, Codec A} (d : D) (value : A) (maximum : Z) : option goerr * D :=
  match marshal value with
  | Err e => (Some e, d)
  | Ok payload =>
      if (blen payload =? 0) || (maximum <? blen payload)
      then (Some (error_new "executor protocol packet exceeds limit"), d)
      else match writeAll d (be_bytes 4 (blen payload)) with
           | (Some e, d) => (Some e, d)
           | (None, d) => writeAll d payload
           end
  end.

(** A connection being read: the bytes still to come and the error after them. *)
Record reader := { r_data : bytes; r_end : goerr }.

(** [io.ReadFull] for [n > 0] bytes. *)
Definition read_full (r : reader) (n : nat) : result (bytes * reader) :=
  if bool_decide (n ≤ length (r_data r))%nat
  then Ok (take n (r_data r), {| r_data := drop n (r_data r); r_end := r_end r |})
  else Err (if bool_decide (r_data r = []) || negb (errors_is EOF (r_end r)) then r_end r
            else Sentinel ErrUnexpectedEOF).

(* src: runner/internal/executor/socket.go:611-633 readPacket *)
Definition readPacket `{Codec A} (r : reader) (maximum : Z) : result (A * reader) :=
  '(size, r) ← read_full r 4;
  let length := be_value size in
  _ ← fail_if ((length =? 0) || (maximum <? length)) (error_new "executor protocol packet size is invalid");
  '(payload, r) ← read_full r (Z.to_nat length);
  '(value, at_end) ← decode payload;
  _ ← fail_if (negb at_end) (error_new "executor protocol packet has trailing JSON");
  Ok (value, r).

(* src: runner/internal/executor/socket.go:548-552 frameWriter *)
Record frameWriter (D : Type) := { fw_connection : D; fw_err : option goerr }.
Arguments fw_connection {D}. Arguments fw_err {D}.

(* src: runner/internal/executor/socket.go:554-563 (frameWriter).write *)
Definition frame_write `{Writer D, Codec wireFrame} (w : frameWriter D) (frame : wireFrame)
    : option goerr * frameWriter D :=
  match fw_err w with
  | Some e => (Some e, w)
  | None => let '(err, d) := writePacket (fw_connection w) frame maxFrameBytes in
            (err, {| fw_connection := d; fw_err := err |})
  end.

Definition data_frame (kind : string) (data : bytes) : wireFrame :=
  {| fr_Type := kind; fr_Data := data; fr_ExitCode := 0; fr_DurationMillis := 0; fr_Error := "" |}.
Definition error_frame (text : string) : wireFrame :=
  {| fr_Type := "error"; fr_Data := []; fr_ExitCode := 0; fr_DurationMillis := 0; fr_Error := text |}.

(** The loop of [streamWriter.Write]; every round writes at least one byte. *)
(* src: runner/internal/executor/socket.go:565-579 (streamWriter).Write *)
Fixpoint stream_write `{Writer D, Codec wireFrame} (fuel : nat) (kind : string) (w : frameWriter D)
    (offset : Z) (value : bytes) : (Z * option goerr) * frameWriter D :=
  match value, fuel with
  | [], _ => ((offset, None), w)
  | _, O => ((offset, None), w)
  | _, S fuel =>
      let part := take chunk_len value in
      match frame_write w (data_frame kind part) with
      | (Some e, w) => ((offset, Some e), w)
      | (None, w) => stream_write fuel kind w (offset + blen part) (drop chunk_len value)
      end
  end.

(* src: runner/internal/executor/socket.go:651-657 truncateProtocolError *)
Definition truncateProtocolError (value : string) : string :=
  if slen value <=? 4096 then value else take_str 4096 value.

(* src: runner/internal/executor/socket.go:635-641 writeOutput *)
Definition writeOutput {W} (wr : option (writer W)) (value : bytes) (w : W) : option goerr * W :=
  match wr with
  | None => (None, w)
  | Some write =>
      if bool_decide (value = []) then (None, w)
      else let '((_, err), w) := write value w in (err, w)
  end.

(** ** The client's side of the response *)
Section client.
Context `{Codec wireFrame} {W : Type}.

(** The response loop; every packet takes at least four bytes, so the number
    of bytes left bounds the rounds.  [ctx_err] is [ctx.Err()] when a read fails. *)
(* src: runner/internal/executor/socket.go:122-153 (Client).Run *)
Fixpoint client_loop (fuel : nat) (ctx_err : option goerr) (spec : Spec W) (r : reader) (w : W)
    : run_return * W :=
  match fuel with
  | O => ((no_result, Some (Sentinel EOF)), w)
  | S fuel =>
      match readPacket (A:=wireFrame) r maxFrameBytes with
      | Err e => ((no_result, Some (default (wrap "read isolated command response: %w" e) ctx_err)), w)
      | Ok (frame, r) =>
          if bool_decide (fr_Type frame = "stdout") then
            match writeOutput (Stdout spec) (fr_Data frame) w with
            | (Some e, w) => ((no_result, Some (wrap "write isolated stdout: %w" e)), w)
            | (None, w) => client_loop fuel ctx_err spec r w
            end
          else if bool_decide (fr_Type frame = "stderr") then
            match writeOutput (Stderr spec) (fr_Data frame) w with
            | (Some e, w) => ((no_result, Some (wrap "write isolated stderr: %w" e)), w)
            | (None, w) => client_loop fuel ctx_err spec r w
            end
          else if bool_decide (fr_Type frame = "result") then
            let res := {| ExitCode := fr_ExitCode frame; Duration := i64 (fr_DurationMillis frame * 1000000) |} in
            if bool_decide (fr_Error frame = "") then ((res, None), w)
            else ((res, Some (error_new (fr_Error frame))), w)
          else if bool_decide (fr_Type frame = "error") then
            let text := if bool_decide (fr_Error frame = "") then "isolated executor rejected request"
                        else fr_Error frame in
            ((no_result, Some (error_new text)), w)
          else ((no_result, Some (Errorf "unknown isolated executor frame %q" [FStr (fr_Type frame)])), w)
      end
  end.

Definition client_read (ctx_err : option goerr) (spec : Spec W) (r : reader) (w : W) : run_return * W :=
  client_loop (S (length (r_data r))) ctx_err spec r w.
End client.

(** ** Big-endian lengths *)
Lemma length_be_bytes n z : length (be_bytes n z) = n.
Proof. revert z. induction n as [|n IH]; intros z; [done|]. simpl. rewrite length_app, IH. simpl. lia. Qed.

Lemma be_value_snoc b c : be_value (b ++ [c]) = be_value b * 256 + byte c.
Proof. unfold be_value. by rewrite foldl_app. Qed.

Lemma be_roundtrip n z : be_value (be_bytes n z) = z mod 256 ^ Z.of_nat n.
Proof.
  revert z. induction n as [|n IH]; intros z; [by rewrite Z.mod_1_r|].
  cbn [be_bytes]. rewrite be_value_snoc, IH, byte_zbyte by (apply Z.mod_pos_bound; lia).
  replace (Z.of_nat (S n)) with (Z.of_nat n + 1) by lia.
  rewrite Z.pow_add_r, Z.pow_1_r by lia.
  pose proof (Z.pow_pos_nonneg 256 (Z.of_nat n)). rewrite (Z.mul_comm (256 ^ Z.of_nat n)).
  rewrite Z.rem_mul_r by lia. lia.
Qed.

(** ** Packets *)
Lemma read_full_app p rest e n :
  length p = n → read_full {| r_data := p ++ rest; r_end := e |} n
                 = Ok (p, {| r_data := rest; r_end := e |}).
Proof.
  intros <-. unfold read_full. simpl. rewrite bool_decide_true by (rewrite length_app; lia).
  by rewrite take_app_length, drop_app_length.
Qed.

Definition packet (payload : bytes) : bytes := be_bytes 4 (blen payload) ++ payload.

Lemma readPacket_packet `{Codec A} payload value maximum rest e :
  payload ≠ [] → blen payload ≤ maximum → maximum < 2 ^ 32 → decode payload = Ok (value, true) →
  readPacket {| r_data := packet payload ++ rest; r_end := e |} maximum
  = Ok (value, {| r_data := rest; r_end := e |}).
Proof.
  intros Hne Hmax Hb Hdec. unfold readPacket, packet. rewrite <- (assoc_L (++)).
  rewrite read_full_app by apply length_be_bytes. cbn [mbind result_bind].
  assert (be_value (be_bytes 4 (blen payload)) = blen payload) as Hlen.
  { rewrite be_roundtrip. apply Z.mod_small. unfold blen in *. simpl. lia. }
  cbv zeta. rewrite Hlen. assert (blen payload ≠ 0) by (unfold blen; by destruct payload).
  replace ((blen payload =? 0) || (maximum <? blen payload)) with false by lia. cbn [fail_if].
  rewrite read_full_app by (unfold blen; lia). cbn [mbind result_bind]. by rewrite Hdec.
Qed.

Lemma writePacket_ok `{Writer D, !WriterSpec D, Codec A} (d d' : D) (value : A) maximum :
  writePacket d value maximum = (None, d') →
  ∃ payload, marshal value = Ok payload ∧ payload ≠ [] ∧ blen payload ≤ maximum
             ∧ written d' = written d ++ packet payload.
Proof.
  unfold writePacket, writeAll. destruct (marshal value) as [payload|e]; [|done].
  destruct ((blen payload =? 0) || _) eqn:E; [done|].
  destruct (write_fully d _) as [[e|] d1] eqn:E1; [done|]. intros E2.
  apply write_fully_ok in E1, E2. exists payload. split; [done|].
  split; [intros ->; by simpl in E|]. split; [lia|].
  rewrite E2, E1. unfold packet. by rewrite (assoc_L (++)).
Qed.

Lemma writePacket_reliable `{Writer D, !ReliableWriter D, Codec A} (d : D) (value : A) maximum payload :
  marshal value = Ok payload → payload ≠ [] → blen payload ≤ maximum →
  ∃ d', writePacket d value maximum = (None, d').
Proof.
  intros Hm Hne Hmax. unfold writePacket, writeAll. rewrite Hm.
  assert (blen payload ≠ 0) by (unfold blen; by destruct payload).
  replace ((blen payload =? 0) || (maximum <? blen payload)) with false by lia.
  destruct (write_fully_reliable d (be_bytes 4 (blen payload))) as [d1 ->]. apply write_fully_reliable.
Qed.

(** ** Frames *)
(** A frame small enough for a packet. *)
Definition frame_fits (f : wireFrame) : Prop :=
  in_i64 (fr_ExitCode f) ∧ in_i64 (fr_DurationMillis f) ∧
  256 + 6 * (slen (fr_Type f) + slen (fr_Error f)) + 4 * ((blen (fr_Data f) + 2) / 3) ≤ maxFrameBytes.

(** The packets of a list of frames: what a reader gets back. *)
Section frames.
Context `{Writer D, !WriterSpec D, !ReliableWriter D, Codec wireFrame, !FrameSpec}.

(** [w'] has sent exactly the packets of [frames] after what [w] had sent. *)
Definition sent (w w' : frameWriter D) (frames : list wireFrame) : Prop :=
  fw_err w' = None ∧ Forall frame_fits frames ∧
  ∃ payloads, Forall2 (λ f b, marshal f = Ok b) frames payloads ∧
    written (fw_connection w') = written (fw_connection w) ++ concat (packet <$> payloads).

Lemma sent_nil w : fw_err w = None → sent w w [].
Proof. intros Hw. split; [done|]. split; [done|]. exists []. by rewrite app_nil_r. Qed.

Lemma sent_app w1 w2 w3 fs gs : sent w1 w2 fs → sent w2 w3 gs → sent w1 w3 (fs ++ gs).
Proof.
  intros (_ & Hf1 & p1 & Hp1 & Hw1) (He2 & Hf2 & p2 & Hp2 & Hw2). split; [done|].
  split; [by apply Forall_app|]. exists (p1 ++ p2). split; [by apply Forall2_app|].
  by rewrite Hw2, Hw1, fmap_app, concat_app, (assoc_L (++)).
Qed.

Lemma frame_write_sent w f :
  fw_err w = None → frame_fits f → ∃ w', frame_write w f = (None, w') ∧ sent w w' [f].
Proof.
  intros Hw Hf. pose proof Hf as (He & Hd & Hs). destruct (marshal_frame f He Hd) as (b & Hm & Hne & _ & Hb).
  unfold frame_write. rewrite Hw.
  destruct (writePacket_reliable (fw_connection w) f maxFrameBytes b Hm Hne ltac:(lia)) as [d' Hd'].
  rewrite Hd'. eexists. split; [done|].
  apply writePacket_ok in Hd' as (b' & Hm' & _ & _ & Hwr). rewrite Hm in Hm'. simplify_eq.
  split; [done|]. split; [by constructor|]. exists [b']. split; [by repeat constructor|].
  simpl. by rewrite app_nil_r.
Qed.

(** The frames of one [Write] to an output stream. *)
Fixpoint split_chunks (fuel : nat) (value : bytes) : list bytes :=
  match value, fuel with
  | [], _ | _, O => []
  | _, S fuel => take chunk_len value :: split_chunks fuel (drop chunk_len value)
  end.

Lemma of_to_nat z n : n = Z.to_nat z → 0 ≤ z → Z.of_nat n = z.
Proof. intros -> Hz. by apply Z2Nat.id. Qed.

Lemma chunk_len_Z : Z.of_nat chunk_len = maxOutputChunk.
Proof. apply (of_to_nat maxOutputChunk); [reflexivity|]. unfold maxOutputChunk. lia. Qed.
#[global] Opaque chunk_len.

Lemma chunk_len_pos : (0 < chunk_len)%nat.
Proof. pose proof chunk_len_Z as H'. unfold maxOutputChunk in H'. lia. Qed.

Lemma concat_split_chunks fuel value : (length value ≤ fuel)%nat → concat (split_chunks fuel value) = value.
Proof.
  revert value. induction fuel as [|fuel IH]; intros value Hlen; [by destruct value; simpl in *; [|lia]|].
  destruct value as [|c value]; [done|]. cbn [split_chunks concat].
  rewrite IH, take_drop; [done|]. rewrite length_drop. pose proof chunk_len_pos. simpl in *. lia.
Qed.

Lemma data_frame_fits kind data :
  slen kind ≤ 100 → (length data ≤ chunk_len)%nat → frame_fits (data_frame kind data).
Proof.
  intros Hk Hd. unfold frame_fits, maxFrameBytes. simpl. split; [done|]. split; [done|].
  assert (blen data ≤ 32768) by (pose proof chunk_len_Z as Hc; unfold maxOutputChunk in Hc; unfold blen; lia).
  assert ((blen data + 2) / 3 ≤ 10924) by (apply Z.div_le_upper_bound; lia).
  unfold slen at 2. simpl. lia.
Qed.

Lemma stream_write_sent fuel kind w offset value :
  slen kind ≤ 100 → fw_err w = None → (length value ≤ fuel)%nat →
  ∃ w', stream_write fuel kind w offset value = ((offset + blen value, None), w')
        ∧ sent w w' (data_frame kind <$> split_chunks fuel value).
Proof.
  intros Hk. revert w offset value. induction fuel as [|fuel IH]; intros w offset value Hw Hlen.
  { destruct value; simpl in *; [|lia]. exists w. rewrite Z.add_0_r. split; [done|]. by apply sent_nil. }
  destruct value as [|c value]; [exists w; rewrite Z.add_0_r; split; [done|]; by apply sent_nil|].
  cbn [stream_write split_chunks]. set (v := c :: value) in *.
  destruct (frame_write_sent w (data_frame kind (take chunk_len v)) Hw) as (w1 & -> & Hs1).
  { apply data_frame_fits; [done|]. rewrite length_take. lia. }
  pose proof chunk_len_pos.
  destruct (IH w1 (offset + blen (take chunk_len v)) (drop chunk_len v)) as (w2 & -> & Hs2).
  { apply Hs1. }
  { rewrite length_drop. subst v. simpl in *. lia. }
  exists w2. split.
  - assert (offset + blen (take chunk_len v) + blen (drop chunk_len v) = offset + blen v) as ->; [|done].
    rewrite <- (take_drop chunk_len v) at 3. unfold blen. rewrite length_app. lia.
  - change (data_frame kind <$> ?x :: ?y) with ([data_frame kind x] ++ (data_frame kind <$> y)).
    by eapply sent_app.
Qed.
End frames.

(** ** A whole response *)
Definition result_frame (res : ExecResult) (text : string) : wireFrame :=
  {| fr_Type := "result"; fr_Data := []; fr_ExitCode := ExitCode res;
     fr_DurationMillis := Z.quot (Duration res) 1000000; fr_Error := truncateProtocolError text |}.

Definition stream_name (o : bool) : string := if o then "stdout" else "stderr".

(** What the server sends for a command that wrote [outputs] (standard output
    is [true]) and then ended with [res] and the error text [text]. *)
Fixpoint server_outputs `{Writer D, Codec wireFrame} (w : frameWriter D) (outputs : list (bool * bytes))
    : frameWriter D :=
  match outputs with
  | [] => w
  | (o, v) :: outputs => server_outputs (stream_write (length v) (stream_name o) w 0 v).2 outputs
  end.
Definition server_response `{Writer D, Codec wireFrame} (d : D) (outputs : list (bool * bytes))
    (res : ExecResult) (text : string) : frameWriter D :=
  (frame_write (server_outputs {| fw_connection := d; fw_err := None |} outputs) (result_frame res text)).2.

(** A client that collects both streams. *)
Definition collector (o : bool) : writer (bytes * bytes) := λ v w,
  ((blen v, None), if o then (w.1 ++ v, w.2) else (w.1, w.2 ++ v)).
Definition collecting (spec : Spec (bytes * bytes)) : Spec (bytes * bytes) :=
  {| Path := Path spec; Args := Args spec; Dir := Dir spec; Env := Env spec; Stdin := Stdin spec;
     Timeout := Timeout spec; Stdout := Some (collector true); Stderr := Some (collector false);
     Isolated := Isolated spec |}.

Definition collected (outputs : list (bool * bytes)) (o : bool) : bytes :=
  concat (snd <$> filter (λ p, p.1 = o) outputs).

Lemma slen_truncate s : slen (truncateProtocolError s) ≤ 4096.
Proof.
  unfold truncateProtocolError. destruct (slen s <=? 4096) eqn:E; [lia|].
  unfold take_str. rewrite slen_chars, chars_of_chars, length_take. apply Z.leb_gt in E.
  assert (Z.of_nat (4096 `min` length (chars s)) ≤ Z.of_nat 4096) as H by (apply inj_le; apply Nat.le_min_l).
  exact H.
Qed.

Lemma result_frame_fits res text :
  in_i64 (ExitCode res) → in_i64 (Duration res) → frame_fits (result_frame res text).
Proof.
  intros He Hd. split; [done|]. split.
  - cbn. unfold in_i64, int64_min, int64_max in *.
    pose proof (Z.quot_le_lower_bound (Duration res) 1000000). pose proof (Z.quot_le_upper_bound (Duration res) 1000000).
    split; apply Z.quot_le_lower_bound || apply Z.quot_le_upper_bound; lia.
  - pose proof (slen_truncate text). cbn [fr_Type fr_Error fr_Data result_frame].
    change (slen "result") with 6. change (blen [] + 2) with 2. change (2 / 3) with 0.
    unfold maxFrameBytes. lia.
Qed.

Section response.
Context `{Writer D, !WriterSpec D, !ReliableWriter D, Codec wireFrame, !FrameSpec}.

Definition pieces (outputs : list (bool * bytes)) : list (bool * bytes) :=
  outputs ≫= λ p, (λ v, (p.1, v)) <$> split_chunks (length p.2) p.2.
Definition piece_frame (p : bool * bytes) : wireFrame := data_frame (stream_name p.1) p.2.

Lemma server_outputs_sent w outputs :
  fw_err w = None → sent w (server_outputs w outputs) (piece_frame <$> pieces outputs).
Proof.
  revert w. induction outputs as [|[o v] outputs IH]; intros w Hw; [by apply sent_nil|].
  cbn [server_outputs].
  destruct (stream_write_sent (length v) (stream_name o) w 0 v ltac:(by destruct o) Hw ltac:(done))
    as (w1 & -> & Hs). cbn [snd].
  change (pieces ((o, v) :: outputs)) with (((λ x, (o, x)) <$> split_chunks (length v) v) ++ pieces outputs).
  rewrite fmap_app. eapply sent_app; [|by apply IH, Hs].
  rewrite <- list_fmap_compose. exact Hs.
Qed.

Lemma collected_app l k o : collected (l ++ k) o = collected l o ++ collected k o.
Proof. unfold collected. by rewrite filter_app, fmap_app, concat_app. Qed.

Lemma collected_pieces outputs o : collected (pieces outputs) o = collected outputs o.
Proof.
  induction outputs as [|[o' v] outputs IH]; [done|].
  change (pieces ((o', v) :: outputs)) with (((λ x, (o', x)) <$> split_chunks (length v) v) ++ pieces outputs).
  change ((o', v) :: outputs) with ([(o', v)] ++ outputs). rewrite !collected_app, IH. f_equal.
  unfold collected. destruct (decide (o' = o)) as [->|Hne].
  - rewrite filter_cons_True, filter_nil by done. rewrite list_filter_all by by apply Forall_fmap, Forall_true.
    rewrite <- list_fmap_compose. change (snd ∘ (λ x, (o, x))) with (@id bytes). rewrite list_fmap_id.
    rewrite concat_split_chunks by done. simpl. by rewrite app_nil_r.
  - rewrite filter_cons_False, filter_nil by done.
    rewrite list_filter_none by by apply Forall_fmap, Forall_true. done.
Qed.

Lemma client_loop_pieces ctx spec ps payloads fuel tail e w :
  Forall2 (λ f b, marshal f = Ok b) (piece_frame <$> ps) payloads →
  Forall frame_fits (piece_frame <$> ps) →
  client_loop (length ps + fuel) ctx (collecting spec)
    {| r_data := concat (packet <$> payloads) ++ tail; r_end := e |} w
  = client_loop fuel ctx (collecting spec) {| r_data := tail; r_end := e |}
      (w.1 ++ collected ps true, w.2 ++ collected ps false).
Proof.
  revert payloads w. induction ps as [|[o v] ps IH]; intros payloads w Hm Hf.
  { inversion Hm; subst. unfold collected. cbn. rewrite !app_nil_r. by destruct w. }
  inversion Hm as [|f b fs bs Hb Hbs]; subst. inversion Hf as [|? ? Hfit Hfits]; subst.
  destruct (marshal_frame _ (proj1 Hfit) (proj1 (proj2 Hfit))) as (b' & Hb' & Hne & Hdec & Hlen).
  rewrite Hb in Hb'. simplify_eq. cbn [length Nat.add client_loop].
  change (concat (packet <$> b' :: bs)) with (packet b' ++ concat (packet <$> bs)).
  rewrite <- (assoc_L (++)).
  erewrite readPacket_packet; [|done|destruct Hfit as (_ & _ & ?); lia|done|exact Hdec].
  change ((o, v) :: ps) with ([(o, v)] ++ ps). rewrite !collected_app.
  assert (fr_Type (decoded_frame (piece_frame (o, v))) = stream_name o) as -> by (destruct o; vm_compute; reflexivity).
  change (fr_Data (decoded_frame (piece_frame (o, v)))) with v.
  assert (∀ o', collected [(o, v)] o' = if Bool.eqb o o' then v else []) as Hone.
  { intros o'. unfold collected. destruct (Bool.eqb_spec o o');
      [rewrite filter_cons_True by done|rewrite filter_cons_False by done];
      rewrite filter_nil; [|done]. simpl. by rewrite app_nil_r. }
  rewrite !Hone.
  assert (writeOutput (if o then Stdout (collecting spec) else Stderr (collecting spec)) v w
    = (None, (w.1 ++ (if o then v else []), w.2 ++ (if o then [] else v)))) as Hwr.
  { unfold writeOutput. destruct o; cbn [Stdout Stderr collecting]; case_bool_decide; subst;
      cbn [collector]; rewrite ?app_nil_r; by destruct w. }
  destruct o; cbn [stream_name]; [rewrite bool_decide_true by done|
    rewrite bool_decide_false by done; rewrite bool_decide_true by done]; rewrite Hwr; rewrite IH by done;
    cbn [fst snd Bool.eqb]; rewrite ?app_nil_r, ?app_nil_l; by rewrite <- ?(assoc_L (++)).
Qed.
End response.

(** ** A codec for concrete runs *)
Fixpoint enc_str (l : list ascii) : bytes :=
  match l with [] => [zbyte 0] | c :: l => zbyte 1 :: c :: enc_str l end.
Fixpoint dec_str (b : bytes) : option (list ascii * bytes) :=
  match b with
  | t :: b' =>
      if byte t =? 0 then Some ([], b')
      else match b' with
           | c :: b'' => '(l, rest) ← dec_str b''; Some (c :: l, rest)
           | [] => None
           end
  | [] => None
  end.

Definition two64 : Z := 18446744073709551616.
Definition enc_frame (f : wireFrame) : bytes :=
  enc_str (chars (fr_Type f)) ++ enc_str (chars (fr_Error f)) ++ be_bytes 8 (fr_ExitCode f `mod` two64)
  ++ be_bytes 8 (fr_DurationMillis f `mod` two64) ++ fr_Data f.
Definition dec_frame (b : bytes) : option wireFrame :=
  '(t, b) ← dec_str b;
  '(e, b) ← dec_str b;
  Some {| fr_Type := valid_utf8 (of_chars t); fr_Error := valid_utf8 (of_chars e);
          fr_ExitCode := i64 (be_value (take 8 b)); fr_DurationMillis := i64 (be_value (take 8 (drop 8 b)));
          fr_Data := drop 16 b |}.

Definition demo_codec : Codec wireFrame := {|
  marshal f := Ok (enc_frame f);
  decode b := f ← of_option (error_new "bad frame") (dec_frame b); Ok (f, true)
|}.

Lemma dec_enc_str l rest : dec_str (enc_str l ++ rest) = Some (l, rest).
Proof.
  induction l as [|c l IH]; [done|]. cbn [enc_str]. change ((zbyte 1 :: c :: enc_str l) ++ rest) with
    (zbyte 1 :: c :: (enc_str l ++ rest)). cbn [dec_str]. change (byte (zbyte 1) =? 0) with false.
  cbv iota. by rewrite IH.
Qed.

Lemma length_enc_str l : length (enc_str l) = (2 * length l + 1)%nat.
Proof. induction l as [|c l IH]; [done|]. simpl. rewrite IH. lia. Qed.

Lemma i64_mod z : in_i64 z → i64 (z mod two64) = z.
Proof.
  intros Hz. rewrite <- (i64_id z Hz) at 2. unfold i64, two64. by rewrite Zminus_mod_idemp_l.
Qed.

Lemma be8 z : be_value (be_bytes 8 (z mod two64)) = z mod two64.
Proof. rewrite be_roundtrip. change (256 ^ Z.of_nat 8) with two64. apply Z.mod_mod. done. Qed.

Lemma demo_codec_spec : FrameSpec (H := demo_codec).
Proof.
  constructor. intros f He Hd. exists (enc_frame f). split; [done|]. split; [|split].
  - unfold enc_frame. by destruct (chars (fr_Type f)).
  - cbn [decode demo_codec]. unfold dec_frame, enc_frame. rewrite dec_enc_str. cbn [mbind option_bind].
    rewrite dec_enc_str. cbn [mbind option_bind].
    set (x := be_bytes 8 (fr_ExitCode f `mod` two64)). set (y := be_bytes 8 (fr_DurationMillis f `mod` two64)).
    assert (length x = 8%nat ∧ length y = 8%nat) as [Hx Hy] by (split; apply length_be_bytes).
    rewrite (take_app_length' x) by done. rewrite (drop_app_length' x _ 8) by done.
    rewrite (take_app_length' y) by done.
    rewrite (assoc_L (++)), (drop_app_length' (x ++ y)) by (rewrite length_app; lia). subst x y.
    rewrite !be8, !i64_mod, !of_chars_chars by done. done.
  - unfold enc_frame, blen. rewrite !length_app, !length_enc_str, !length_be_bytes, !length_chars.
    unfold slen. pose proof (Z.div_mod (Z.of_nat (length (fr_Data f)) + 2) 3).
    pose proof (Z.mod_pos_bound (Z.of_nat (length (fr_Data f)) + 2) 3). lia.
Qed.

(** ** Properties *)

(** C39: End to end, an isolated command behaves for the Runner as if it ran
    locally: whatever the command writes, in whatever order and sizes, the
    client delivers byte for byte to the two writers of its [Spec], and it
    returns the exit code, the duration in whole milliseconds and the (bounded,
    valid UTF-8) error text of the server's run.  The connection is assumed to
    accept every write of the server (a failing one ends the client's call with
    an error instead), and the client's two writers to take what they get. *)
Theorem isolated_run_roundtrip `{Writer D, !WriterSpec D, !ReliableWriter D, Codec wireFrame, !FrameSpec}
    (d : D) outputs res text ctx spec e :
  written d = [] → in_i64 (ExitCode res) → in_i64 (Duration res) →
  let reply := written (fw_connection (server_response d outputs res text)) in
  let shown := valid_utf8 (truncateProtocolError text) in
  client_read ctx (collecting spec) {| r_data := reply; r_end := e |} ([], []) =
    (({| ExitCode := ExitCode res; Duration := i64 (Z.quot (Duration res) 1000000 * 1000000) |},
      if bool_decide (shown = "") then None else Some (error_new shown)),
     (collected outputs true, collected outputs false)).
Proof.
  intros Hd He Hdur. cbv zeta. unfold server_response.
  pose proof (server_outputs_sent {| fw_connection := d; fw_err := None |} outputs eq_refl) as Hs.
  set (w := server_outputs _ outputs) in *. pose proof Hs as (Hw & Hfits & payloads & Hp & Hwr).
  pose proof (result_frame_fits res text He Hdur) as Hfit.
  destruct (frame_write_sent w (result_frame res text) Hw Hfit) as (w' & -> & _ & _ & bs & Hb & Hw').
  inversion Hb as [|? b ? bs' Hm Hnil]; subst. inversion Hnil; subst. cbn [snd].
  rewrite Hw', Hwr. cbn [fw_connection]. rewrite Hd. cbn [app fw_connection concat fmap list_fmap]. rewrite app_nil_r. unfold client_read. cbn [r_data].
  destruct (marshal_frame _ (proj1 Hfit) (proj1 (proj2 Hfit))) as (b' & Hb' & Hne & Hdec & Hlen).
  rewrite Hm in Hb'. simplify_eq.
  assert (length (pieces outputs) ≤ length (concat (packet <$> payloads)))%nat as Hlp.
  { apply Forall2_length in Hp. rewrite length_fmap in Hp. rewrite Hp. clear.
    induction payloads as [|p ps IH]; [done|].
    change (concat (packet <$> p :: ps)) with ((be_bytes 4 (blen p) ++ p) ++ concat (packet <$> ps)).
    rewrite !length_app, length_be_bytes. cbn [length]. lia. }
  replace (S (length (concat (packet <$> payloads) ++ packet b'))) with
    (length (pieces outputs) + S (length (concat (packet <$> payloads) ++ packet b') - length (pieces outputs)))%nat
    by (rewrite length_app; lia).
  rewrite (client_loop_pieces ctx spec (pieces outputs) payloads _ _ _ _ Hp Hfits).
  cbn [client_loop]. rewrite <- (app_nil_r (packet b')).
  erewrite readPacket_packet; [|done|destruct Hfit as (_ & _ & ?); lia|done|exact Hdec].
  rewrite !collected_pieces. cbn [fst snd app].
  assert (fr_Type (decoded_frame (result_frame res text)) = "result") as -> by (vm_compute; reflexivity).
  rewrite !bool_decide_false, bool_decide_true by done. cbn [decoded_frame result_frame fr_Error fr_ExitCode fr_DurationMillis].
  by case_bool_decide.
Qed.

Definition demo_outputs : list (bool * bytes) :=
  [(true, to_bytes "deploying"); (false, to_bytes "warn"); (true, to_bytes " done")].

Lemma isolated_run_roundtrip_witness :
  client_read (H := demo_codec) None (collecting {| Path := ""; Args := []; Dir := ""; Env := ∅; Stdin := [];
      Timeout := 0; Stdout := None; Stderr := None; Isolated := true |})
    {| r_data := written (fw_connection (server_response (D := bytes) (H0 := demo_codec) [] demo_outputs
                    {| ExitCode := 3; Duration := 2500000 |} "exit status 3"));
       r_end := Sentinel EOF |} ([], [])
  = (({| ExitCode := 3; Duration := 2000000 |}, Some (error_new "exit status 3")),
     (to_bytes "deploying done", to_bytes "warn")).
Proof.
  refine (eq_trans (isolated_run_roundtrip (D := bytes) (H0 := demo_codec) (H1 := demo_codec_spec)
    [] demo_outputs {| ExitCode := 3; Duration := 2500000 |} "exit status 3" None _ _ _ _ _) _).
  - reflexivity.
  - split; discriminate.
  - split; discriminate.
  - vm_compute. reflexivity.
Defined.
