(* ===== verification/Socket.v ===== *)
(** * The isolated executor (runner/internal/executor/socket.go)

    The client checks a [Spec] and sends it as a request; the server validates
    the request against the file system, takes a private copy of the target
    credential, runs the script and cleans up. *)
From S2P Require Import Prelude GoIO GoString GoPath OS Secrets Command Wire.

(* src: runner/internal/executor/socket.go:18-23 CredentialFile *)
Definition CredentialFile : string := "credential".
Definition DefaultSocketPath : string := "/run/releasedock-executor/executor.sock".
Definition DefaultCredentialRoot : string := "/run/releasedock-credentials".
Definition DefaultExecutorCredentialRoot : string := "/run/releasedock-executor-private".
(* src: runner/internal/executor/socket.go:24-34 protocolVersion, maxArguments, ... *)
Definition protocolVersion : Z := 1.
Definition maxArguments : Z := 128.
Definition maxArgumentBytes : Z := 65536.
Definition maxEnvironmentBytes : Z := 131072.
Definition maximumTargetCredentialBytes : Z := 1048576.
Definition millisecond : Z := 1000000.
Definition maxIsolatedTimeout : Z := 86400000 * millisecond.

(* src: runner/internal/executor/socket.go:36-45 isolatedEnvironment *)
Definition isolatedEnvironment : list string :=
  ["PATH"; "HOME"; "LANG"; "LC_ALL"; "RELEASEDOCK_JOB_ID"; "RELEASEDOCK_RELEASE_ID";
   "RELEASEDOCK_APPLICATION"; "RELEASEDOCK_VERSION"; "RELEASEDOCK_ENVIRONMENT";
   "RELEASEDOCK_PACKAGE_DIRECTORY"; "RELEASEDOCK_ARTIFACT"; "RELEASEDOCK_IMAGES";
   "RELEASEDOCK_OPERATION"; "RELEASEDOCK_ROLLBACK_SOURCE_RELEASE_ID";
   "RELEASEDOCK_ROLLBACK_SOURCE_JOB_ID"; "RELEASEDOCK_CREDENTIAL_TYPE"; "RELEASEDOCK_CREDENTIAL_FILE"].

(** [m[k]] of a Go map. *)
Definition env_get (m : gmap string string) (k : string) : string := default "" (m !! k).

(** The environment loop: the first offending entry in the order of the visit
    decides the error; otherwise the total size. *)
(* src: runner/internal/executor/socket.go:519-528 validateRequestShape *)
Fixpoint environment_bytes (order : list (string * string)) (acc : Z) : result Z :=
  match order with
  | [] => Ok acc
  | (key, value) :: order =>
      _ ← fail_if (negb (bool_decide (key ∈ isolatedEnvironment)))
            (Errorf "environment %s is not allowed for isolated commands" [FStr key]);
      _ ← fail_if (negb (match_string environmentName key) || contains_byte NUL value)
            (error_new "isolated command environment is invalid");
      environment_bytes order (acc + slen key + slen value)
  end.

Definition required_values : list string :=
  ["PATH"; "HOME"; "LANG"; "LC_ALL"; "RELEASEDOCK_JOB_ID"; "RELEASEDOCK_RELEASE_ID"; "RELEASEDOCK_OPERATION"].
Definition required_names : list string :=
  ["RELEASEDOCK_ARTIFACT"; "RELEASEDOCK_PACKAGE_DIRECTORY"; "RELEASEDOCK_ROLLBACK_SOURCE_RELEASE_ID";
   "RELEASEDOCK_ROLLBACK_SOURCE_JOB_ID"; "RELEASEDOCK_CREDENTIAL_TYPE"; "RELEASEDOCK_CREDENTIAL_FILE"].
Definition required_error (name : string) : goerr :=
  Errorf "isolated command environment %s is required" [FStr name].

(* src: runner/internal/executor/socket.go:493-546 validateRequestShape *)
Definition validateRequestShape (order : list (string * string)) (request : wireRequest) : result unit :=
  _ ← fail_if (negb (rq_Version request =? protocolVersion)) (error_new "unsupported executor protocol version");
  _ ← fail_if (negb (is_abs (rq_Path request)) || (4096 <? slen (rq_Path request))
               || contains_byte NUL (rq_Path request)) (error_new "isolated executable path is invalid");
  _ ← fail_if (negb (is_abs (rq_Dir request)) || (4096 <? slen (rq_Dir request))
               || contains_byte NUL (rq_Dir request)) (error_new "isolated working directory is invalid");
  _ ← fail_if ((rq_TimeoutMillis request <? 1) || (Z.quot maxIsolatedTimeout millisecond <? rq_TimeoutMillis request))
        (error_new "isolated timeout is outside the allowed range");
  _ ← fail_if (bool_decide (rq_Args request = []) || (maxArguments <? Z.of_nat (length (rq_Args request))))
        (error_new "isolated command argument count is invalid");
  _ ← result_iter (λ argument, fail_if (contains_byte NUL argument)
        (error_new "isolated command argument contains NUL")) (rq_Args request);
  _ ← fail_if (maxArgumentBytes <? foldr (λ a z, slen a + z) 0 (rq_Args request))
        (error_new "isolated command arguments are too large");
  environmentBytes ← environment_bytes order 0;
  _ ← fail_if (maxEnvironmentBytes <? environmentBytes) (error_new "isolated command environment is too large");
  _ ← result_iter (λ required, fail_if (bool_decide (env_get (rq_Env request) required = ""))
        (required_error required)) required_values;
  result_iter (λ required, fail_if (negb (bool_decide (is_Some (rq_Env request !! required))))
        (required_error required)) required_names.

(** ** Client *)
Section requests.
(** The order in which Go visits a map. *)
Context (range : gmap string string → list (string * string)).

(* src: runner/internal/executor/socket.go:156-168 requestFromSpec *)
Definition requestFromSpec {W} (spec : Spec W) : result wireRequest :=
  _ ← fail_if ((Timeout spec <? millisecond) || (maxIsolatedTimeout <? Timeout spec))
        (Errorf "isolated timeout must be between 1ms and %s" [FInt maxIsolatedTimeout]);
  let request := {| rq_Version := protocolVersion; rq_Path := Path spec; rq_Args := Args spec;
                    rq_Dir := Dir spec; rq_Env := Env spec;
                    rq_TimeoutMillis := Z.quot (Timeout spec) millisecond |} in
  _ ← validateRequestShape (range (rq_Env request)) request;
  Ok request.

(** A connected socket: the peer's credentials, the writing end and, once the
    request is written, the reading end. *)
Record connection (D : Type) := {
  c_peer : result Z;
  c_deadline : option goerr;
  c_out : D;
  c_in : D → reader
}.
Arguments c_peer {D}. Arguments c_deadline {D}. Arguments c_out {D}. Arguments c_in {D}.

(* src: runner/internal/executor/socket.go:64-75 Client *)
Record Client := { SocketPath : string; PeerUID : Z }.

(* src: runner/internal/executor/socket.go:77-154 (Client).Run *)
Definition ClientRun `{Writer D, Codec wireRequest, Codec wireFrame} {W}
    (dial : string → result (connection D)) (ctx_err : option goerr) (c : Client)
    : CommandExecutor W := λ spec w,
  if negb (Isolated spec) then (refused "socket executor accepts isolated commands only", w) else
  if negb (bool_decide (Stdin spec = [])) then (refused "isolated command stdin is not allowed", w) else
  match requestFromSpec spec with
  | Err e => ((no_result, Some e), w)
  | Ok request =>
      let socketPath := if bool_decide (SocketPath c = "") then DefaultSocketPath else SocketPath c in
      match dial socketPath with
      | Err e => ((no_result, Some (wrap "connect isolated executor: %w" e)), w)
      | Ok conn =>
          match c_peer conn with
          | Err e => ((no_result, Some (wrap "inspect isolated executor peer: %w" e)), w)
          | Ok uid =>
              if negb (uid =? PeerUID c) then
                ((no_result, Some (Errorf "isolated executor listener UID %d does not match expected UID %d"
                                     [FInt uid; FInt (PeerUID c)])), w)
              else
              match c_deadline conn with
              | Some e => ((no_result, Some e), w)
              | None =>
                  match writePacket (c_out conn) request maxRequestBytes with
                  | (Some e, _) => ((no_result, Some (wrap "send isolated command: %w" e)), w)
                  | (None, d) => client_read ctx_err spec (c_in conn d) w
                  end
              end
          end
      end
  end.
End requests.

(** ** Server *)
(** [if cond { return errors.New(text) }], and [if err != nil { ... }]. *)
Definition check (cond : bool) (text : string) : M os unit := lift (fail_if cond (error_new text)).
Definition require {A} (m : M os A) (text : string) : M os A :=
  r ← try m; match r with Ok a => mret a | Err _ => throw (error_new text) end.

(* src: runner/internal/executor/socket.go:170-179 Server *)
Record Server := {
  WorkspaceRoot : string;
  CredentialRoot : string;
  ExecutorCredentialRoot : string;
  RunnerUID : Z
}.

(* src: runner/internal/executor/socket.go:181-192 NewServer *)
Definition NewServer (workspaceRoot : string) (runnerUID : Z) (has_local : bool) : result Server :=
  _ ← fail_if (negb (is_abs workspaceRoot) || bool_decide (clean workspaceRoot = "/"))
        (error_new "executor workspace root must be an absolute non-root path");
  _ ← fail_if (negb has_local) (error_new "local command executor is required");
  Ok {| WorkspaceRoot := clean workspaceRoot; CredentialRoot := DefaultCredentialRoot;
        ExecutorCredentialRoot := DefaultExecutorCredentialRoot; RunnerUID := runnerUID |}.

Definition credential_types : list string := ["SSH_PRIVATE_KEY"; "KUBECONFIG"; "TOKEN"; "OPAQUE_FILE"].

(* src: runner/internal/executor/socket.go:417-491 (Server).validateTargetCredential *)
Definition validateTargetCredential (s : Server) (request : wireRequest) (workspaceInfo : node) : M os unit :=
  let credentialType := env_get (rq_Env request) "RELEASEDOCK_CREDENTIAL_TYPE" in
  let credentialPath := env_get (rq_Env request) "RELEASEDOCK_CREDENTIAL_FILE" in
  if bool_decide (credentialType = "") && bool_decide (credentialPath = "") then mret () else
  _ ← check (bool_decide (credentialType = "") || bool_decide (credentialPath = ""))
        "target credential type and file must be provided together";
  _ ← check (negb (bool_decide (credentialType ∈ credential_types))) "target credential type is invalid";
  credentialDirectory ← lift (CredentialJobDirectory (CredentialRoot s) (env_get (rq_Env request) "RELEASEDOCK_JOB_ID"));
  _ ← check (negb (bool_decide (credentialPath = path_join [credentialDirectory; CredentialFile])))
        "target credential must be the fixed direct child of its job RuntimeDirectory";
  credentialRootInfo ← require (lstat (CredentialRoot s)) "target credential RuntimeDirectory is invalid";
  _ ← check (negb (is_dir credentialRootInfo) || is_symlink credentialRootInfo)
        "target credential RuntimeDirectory is invalid";
  realCredentialRoot ← require (eval_symlinks (CredentialRoot s))
        "target credential RuntimeDirectory cannot contain symlinks";
  _ ← check (negb (bool_decide (realCredentialRoot = clean (CredentialRoot s))))
        "target credential RuntimeDirectory cannot contain symlinks";
  _ ← check (negb (n_uid credentialRootInfo =? RunnerUID s) || negb (n_perm credentialRootInfo =? 456)
             || n_setgid credentialRootInfo)
        "target credential RuntimeDirectory ownership or permissions are invalid";
  directoryInfo ← require (lstat credentialDirectory) "target credential directory is invalid";
  _ ← check (negb (is_dir directoryInfo) || is_symlink directoryInfo) "target credential directory is invalid";
  realDirectory ← require (eval_symlinks credentialDirectory) "target credential directory cannot contain symlinks";
  _ ← check (negb (bool_decide (realDirectory = credentialDirectory)))
        "target credential directory cannot contain symlinks";
  _ ← check (negb (n_uid directoryInfo =? RunnerUID s) || negb (n_perm directoryInfo =? 456)
             || negb (n_setgid directoryInfo))
        "target credential directory ownership or permissions are invalid";
  _ ← check (negb (n_gid directoryInfo =? n_gid workspaceInfo)) "target credential directory group is invalid";
  _ ← check (negb (n_gid credentialRootInfo =? n_gid workspaceInfo))
        "target credential RuntimeDirectory group is invalid";
  credentialInfo ← require (lstat credentialPath) "target credential must be a regular non-symlink file";
  _ ← check (negb (is_regular credentialInfo) || is_symlink credentialInfo)
        "target credential must be a regular non-symlink file";
  realCredential ← require (eval_symlinks credentialPath) "target credential path cannot contain symlinks";
  _ ← check (negb (bool_decide (realCredential = credentialPath))) "target credential path cannot contain symlinks";
  _ ← check (negb (n_uid credentialInfo =? RunnerUID s) || negb (n_perm credentialInfo =? 416))
        "target credential ownership or permissions are invalid";
  check (negb (n_gid credentialInfo =? n_gid workspaceInfo)) "target credential group is invalid".

(** The two cases of the operation switch. *)
(* src: runner/internal/executor/socket.go:386-406 (Server).validateRequest *)
Definition validateOperation (s : Server) (request : wireRequest) (realDirectory : string) : M os unit :=
  let env := env_get (rq_Env request) in
  if bool_decide (env "RELEASEDOCK_OPERATION" = "DEPLOY") then
    let expectedArtifact := path_join [realDirectory; "release-package"] in
    _ ← check (negb (bool_decide (env "RELEASEDOCK_PACKAGE_DIRECTORY" = path_join [realDirectory; "package"]))
               || negb (bool_decide (env "RELEASEDOCK_ARTIFACT" = expectedArtifact))
               || negb (bool_decide (env "RELEASEDOCK_ROLLBACK_SOURCE_RELEASE_ID" = ""))
               || negb (bool_decide (env "RELEASEDOCK_ROLLBACK_SOURCE_JOB_ID" = "")))
          "deploy artifact and package paths must match the job workspace";
    artifactInfo ← require (lstat expectedArtifact) "staged artifact must be a regular non-symlink file";
    _ ← check (negb (is_regular artifactInfo) || is_symlink artifactInfo)
          "staged artifact must be a regular non-symlink file";
    check (negb (n_uid artifactInfo =? RunnerUID s) || negb (Z.land (n_perm artifactInfo) 4 =? 0)
           || (Z.land (n_perm artifactInfo) 32 =? 0))
      "staged artifact ownership or permissions are invalid"
  else if bool_decide (env "RELEASEDOCK_OPERATION" = "ROLLBACK") then
    check (negb (bool_decide (env "RELEASEDOCK_ARTIFACT" = "")) || negb (bool_decide (env "RELEASEDOCK_PACKAGE_DIRECTORY" = ""))
           || bool_decide (env "RELEASEDOCK_ROLLBACK_SOURCE_RELEASE_ID" = "")
           || bool_decide (env "RELEASEDOCK_ROLLBACK_SOURCE_JOB_ID" = ""))
      "manual rollback must use a source release without artifact paths"
  else throw (error_new "isolated ReleaseDock operation is invalid").

(** The job workspace: one real [job-*] directory below the executor root. *)
(* src: runner/internal/executor/socket.go:335-355 (Server).validateRequest *)
Definition validateWorkspace (s : Server) (request : wireRequest) : M os (string * node) :=
  root ← require (eval_symlinks (WorkspaceRoot s)) "executor workspace root is unavailable";
  let directory := clean (rq_Dir request) in
  realDirectory ← require (eval_symlinks directory) "command workspace must be a real directory";
  _ ← check (negb (bool_decide (realDirectory = directory))) "command workspace must be a real directory";
  relative ← require (lift (rel root realDirectory))
    "command workspace must be one job directory under the executor root";
  _ ← check (bool_decide (relative = ".") || contains_byte slash relative || negb (has_prefix relative "job-"))
        "command workspace must be one job directory under the executor root";
  directoryInfo ← require (lstat realDirectory) "command workspace is invalid";
  _ ← check (negb (is_dir directoryInfo) || is_symlink directoryInfo) "command workspace is invalid";
  _ ← check (negb (n_uid directoryInfo =? RunnerUID s) || negb (n_perm directoryInfo =? 504)
             || negb (n_setgid directoryInfo) || negb (n_sticky directoryInfo))
        "command workspace ownership or permissions are invalid";
  mret (realDirectory, directoryInfo).

(** The script: a direct child of the job's script directory. *)
(* src: runner/internal/executor/socket.go:357-382 (Server).validateRequest *)
Definition validateScript (s : Server) (first_argument realDirectory : string) : M os unit :=
  let script := clean first_argument in
  let expectedScriptRoot := path_join [realDirectory; ".scripts"] in
  scriptRootInfo ← require (lstat expectedScriptRoot) "job script directory must be a real directory";
  _ ← check (negb (is_dir scriptRootInfo) || is_symlink scriptRootInfo)
        "job script directory must be a real directory";
  _ ← check (negb (n_uid scriptRootInfo =? RunnerUID s) || negb (Z.land (n_perm scriptRootInfo) 7 =? 0))
        "job script directory ownership or permissions are invalid";
  scriptRelative ← require (lift (rel expectedScriptRoot script))
    "first command argument must be a direct child of the job script directory";
  _ ← check (bool_decide (scriptRelative = ".") || contains_byte slash scriptRelative)
        "first command argument must be a direct child of the job script directory";
  scriptInfo ← require (lstat script) "approved script must be a regular non-symlink file";
  _ ← check (negb (is_regular scriptInfo) || is_symlink scriptInfo)
        "approved script must be a regular non-symlink file";
  realScript ← require (eval_symlinks script) "approved script path cannot contain symlinks";
  _ ← check (negb (bool_decide (realScript = script))) "approved script path cannot contain symlinks";
  check (negb (n_uid scriptInfo =? RunnerUID s) || negb (Z.land (n_perm scriptInfo) 4 =? 0)
         || (Z.land (n_perm scriptInfo) 32 =? 0))
    "approved script ownership or permissions are invalid".

Section server.
Context (range : gmap string string → list (string * string)).

(* src: runner/internal/executor/socket.go:331-415 (Server).validateRequest *)
Definition validateRequest {W} (s : Server) (request : wireRequest) : M os (Spec W) :=
  _ ← lift (validateRequestShape (range (rq_Env request)) request);
  '(realDirectory, directoryInfo) ← validateWorkspace s request;
  _ ← validateScript s (hd "" (rq_Args request)) realDirectory;
  _ ← check (negb (bool_decide (env_get (rq_Env request) "HOME" = realDirectory)))
        "isolated HOME must match the job workspace";
  _ ← validateOperation s request realDirectory;
  _ ← validateTargetCredential s request directoryInfo;
  mret {| Path := rq_Path request; Args := rq_Args request; Dir := realDirectory; Env := rq_Env request;
          Stdin := []; Timeout := rq_TimeoutMillis request * millisecond; Stdout := None; Stderr := None;
          Isolated := false |}.
End server.

(** [os.Open] of a regular file and the bytes that can be read from it; a read
    may fail as well. *)
Definition open_read (p : string) : M os bytes := read_file p.
Definition read_step : M os unit := sys (λ w, Ok ((), fs w)).
Definition fchmod (loc : location) (perm : Z) : M os unit :=
  sys (λ w, Ok ((), alter (set_perm perm false false) loc (fs w))).

(** [io.Copy(output, io.LimitReader(input, n))]. *)
Definition copy_limited (loc : location) (content : bytes) (n : Z) : M os Z :=
  _ ← read_step;
  let data := take (Z.to_nat n) content in
  _ ← (if bool_decide (data = []) then mret () else write_open loc data);
  mret (blen data).

Definition credential_cleanup (privateRoot : string) : M os unit :=
  clearErr ← try (clearDirectChildren privateRoot);
  chmodErr ← try (chmod privateRoot 448 false false);
  return_err (errors_join [err_of clearErr; err_of chmodErr]).

(** The private copy; the result says whether there is one to clean up. *)
(* src: runner/internal/executor/socket.go:287-329 prepareExecutorCredential *)
Definition prepareExecutorCredential {W} (spec : Spec W) (privateRoot : string) : M os (Spec W * bool) :=
  let handoff := env_get (Env spec) "RELEASEDOCK_CREDENTIAL_FILE" in
  if bool_decide (handoff = "") then mret (spec, false) else
  _ ← PrepareExecutorCredentialRoot privateRoot;
  let credentialPath := path_join [privateRoot; CredentialFile] in
  let fail e := (_ ← try (credential_cleanup privateRoot); throw e) in
  input ← try (open_read handoff);
  match input with
  | Err e => fail (wrap "open target credential handoff: %w" e)
  | Ok content =>
      output ← try (open_excl credentialPath 384);
      match output with
      | Err e => _ ← try read_step; fail (wrap "create executor-owned target credential: %w" e)
      | Ok loc =>
          copied ← try (copy_limited loc content (maximumTargetCredentialBytes + 1));
          inputClose ← try read_step;
          chmodErr ← try (fchmod loc 384);
          outputClose ← try (close_open loc);
          match errors_join [err_of copied; err_of inputClose; err_of chmodErr; err_of outputClose] with
          | Some e => fail (wrap "copy target credential handoff: %w" e)
          | None =>
              let written := match copied with Ok n => n | Err _ => 0 end in
              if (written =? 0) || (maximumTargetCredentialBytes <? written)
              then fail (Errorf "target credential must contain between 1 and %d bytes"
                           [FInt maximumTargetCredentialBytes])
              else mret ({| Path := Path spec; Args := Args spec; Dir := Dir spec;
                            Env := <["RELEASEDOCK_CREDENTIAL_FILE" := credentialPath]> (Env spec);
                            Stdin := Stdin spec; Timeout := Timeout spec; Stdout := Stdout spec;
                            Stderr := Stderr spec; Isolated := Isolated spec |}, true)
          end
      end
  end.

(** ** One request *)
Section handle.
Context (range : gmap string string → list (string * string)).
Context `{Writer D, Codec wireRequest, Codec wireFrame, ErrorText}.

(** The world of a running command: the system and the response. *)
Definition session : Type := os * frameWriter D.

(** [streamWriter{writer, kind}] as an [io.Writer]. *)
(* src: runner/internal/executor/socket.go:565-579 streamWriter *)
Definition stream_writer (kind : string) : writer session := λ value '(o, w),
  let '(out, w) := stream_write (length value) kind w 0 value in (out, (o, w)).

Definition with_streams (spec : Spec session) : Spec session :=
  {| Path := Path spec; Args := Args spec; Dir := Dir spec; Env := Env spec; Stdin := Stdin spec;
     Timeout := Timeout spec; Stdout := Some (stream_writer "stdout");
     Stderr := Some (stream_writer "stderr"); Isolated := Isolated spec |}.

Definition reply_error (d : D) (text : string) : D := (writePacket d (error_frame text) maxFrameBytes).2.

(** [removeCredential]: nothing once it has succeeded. *)
Definition removeCredential (s : Server) (prepared removed : bool) : M os bool :=
  if removed || negb prepared then mret true
  else _ ← credential_cleanup (ExecutorCredentialRoot s); mret true.

(** The command with its credential prepared, up to the final clean-up. *)
(* src: runner/internal/executor/socket.go:248-285 (Server).handle *)
Definition run_prepared (s : Server) (local : CommandExecutor session) (spec : Spec session) (prepared : bool)
    (d : D) (o : os) : D * os :=
  let '((res, runErr), (o, fw)) := local (with_streams spec) (o, {| fw_connection := d; fw_err := None |}) in
  let '(removed, o) := removeCredential s prepared false o in
  let runErr := errors_join [runErr; err_of removed] in
  let text := match runErr with None => "" | Some e => error_text e end in
  let '(_, fw) := frame_write fw (result_frame res text) in
  let '(_, o) := removeCredential s prepared (is_ok removed) o in
  (fw_connection fw, o).

(* src: runner/internal/executor/socket.go:225-285 (Server).handle *)
Definition handle (s : Server) (local : CommandExecutor session) (peer : result Z) (r : reader)
    (d : D) (o : os) : D * os :=
  match peer with
  | Err _ => (d, o)
  | Ok uid =>
      if negb (uid =? RunnerUID s) then (d, o) else
      match readPacket (A:=wireRequest) r maxRequestBytes with
      | Err _ => (reply_error d "invalid isolated executor request", o)
      | Ok (request, _) =>
          match validateRequest range s request o with
          | (Err e, o) => (reply_error d (truncateProtocolError (error_text e)), o)
          | (Ok spec, o) =>
              match prepareExecutorCredential spec (ExecutorCredentialRoot s) o with
              | (Err e, o) => (reply_error d (truncateProtocolError (error_text e)), o)
              | (Ok (spec, prepared), o) => run_prepared s local spec prepared d o
              end
          end
      end
  end.

(** Exactly one connection is served. *)
(* src: runner/internal/executor/socket.go:194-223 (Server).Serve *)
Definition Serve (s : Server) (local : CommandExecutor session) (ctx_done : bool)
    (accept : result (option (result Z * reader * D))) (o : os) : option goerr * os :=
  match accept with
  | Err e => (if ctx_done then None else Some (wrap "accept executor connection: %w" e), o)
  | Ok None => (Some (error_new "executor accepted a non-Unix connection"), o)
  | Ok (Some (peer, r, d)) => (None, (handle s local peer r d o).2)
  end.
End handle.

(** ** What an accepted request looks like *)
Lemma environment_bytes_ok order acc z :
  environment_bytes order acc = Ok z ↔
  Forall (λ kv, kv.1 ∈ isolatedEnvironment ∧ valid_entry kv) order
  ∧ z = acc + foldr (λ kv z, slen kv.1 + slen kv.2 + z) 0 order.
Proof.
  revert acc. induction order as [|[k v] order IH]; intros acc; simpl.
  { split; [intros [= <-]; split; [done|lia]|intros [_ ->]; f_equal; lia]. }
  rewrite Forall_cons. unfold valid_entry at 1; simpl. split.
  - intros H. inv_ok H. apply negb_false_iff, bool_decide_eq_true in Hok.
    apply orb_false_iff in Hok0 as [Hm%negb_false_iff Hn]. apply IH in H as [Hf ->].
    split; [by repeat split|lia].
  - intros [[[Hk [Hm Hn]] Hf] ->]. rewrite bool_decide_true, Hm, Hn by done. simpl.
    apply IH. split; [done|lia].
Qed.

Lemma environment_names k : k ∈ isolatedEnvironment → match_string environmentName k = true.
Proof.
  intros H. assert (Forall (λ k, match_string environmentName k = true) isolatedEnvironment) as Hf.
  { apply forallb_Forall. vm_compute. reflexivity. }
  rewrite Forall_forall in Hf. by apply Hf.
Qed.

(** The requests that [validateRequestShape] lets through. *)
Record well_shaped (request : wireRequest) : Prop := {
  ws_version : rq_Version request = 1;
  ws_path : is_abs (rq_Path request) = true ∧ slen (rq_Path request) ≤ 4096
            ∧ contains_byte NUL (rq_Path request) = false;
  ws_dir : is_abs (rq_Dir request) = true ∧ slen (rq_Dir request) ≤ 4096
           ∧ contains_byte NUL (rq_Dir request) = false;
  ws_timeout : 1 ≤ rq_TimeoutMillis request ≤ 86400000;
  ws_args : (1 ≤ length (rq_Args request) ≤ 128)%nat
            ∧ Forall (λ a, contains_byte NUL a = false) (rq_Args request)
            ∧ foldr (λ a z, slen a + z) 0 (rq_Args request) ≤ 65536;
  ws_env : map_Forall (λ k v, k ∈ isolatedEnvironment ∧ contains_byte NUL v = false) (rq_Env request)
           ∧ map_fold (λ k v z, slen k + slen v + z) 0 (rq_Env request) ≤ 131072;
  ws_values : Forall (λ k, env_get (rq_Env request) k ≠ "") required_values;
  ws_names : Forall (λ k, is_Some (rq_Env request !! k)) required_names
}.

Lemma env_size_perm (m : gmap string string) order :
  order ≡ₚ map_to_list m →
  foldr (λ kv z, slen kv.1 + slen kv.2 + z) 0 order = map_fold (λ k v z, slen k + slen v + z) 0 m.
Proof.
  intros Hord. rewrite map_fold_foldr. rewrite (foldr_permutation (=) (λ kv z, slen kv.1 + slen kv.2 + z) 0 order (map_to_list m)).
  - clear Hord. induction (map_to_list m) as [|[k v] l IH]; [done|]. simpl. by rewrite IH.
  - intros *. lia.
  - done.
Qed.

Lemma validateRequestShape_ok order request :
  order ≡ₚ map_to_list (rq_Env request) →
  validateRequestShape order request = Ok () ↔ well_shaped request.
Proof.
  intros Hord.
  assert (Forall (λ kv : string * string, kv.1 ∈ isolatedEnvironment ∧ valid_entry kv) order
    ↔ map_Forall (λ k v, k ∈ isolatedEnvironment ∧ contains_byte NUL v = false) (rq_Env request)) as Henv.
  { rewrite Hord, map_Forall_to_list. apply Forall_iff. intros [k v]. unfold valid_entry. simpl.
    split; [naive_solver|]. intros [Hk Hv]. split; [done|]. split; [by apply environment_names|done]. }
  unfold validateRequestShape, protocolVersion, maxArguments, maxArgumentBytes, maxEnvironmentBytes.
  change (Z.quot maxIsolatedTimeout millisecond) with 86400000. split.
  - intros H. inv_ok H. rewrite !orb_false_iff, ?negb_false_iff, ?bool_decide_eq_false in *.
    apply environment_bytes_ok in Hok6 as [He ->]. rewrite (env_size_perm _ _ Hord) in *.
    constructor.
    + lia.
    + destruct Hok0 as [[? ?] ?]. split_and!; [done|lia|done].
    + destruct Hok1 as [[? ?] ?]. split_and!; [done|lia|done].
    + lia.
    + split_and!; [destruct (rq_Args request); [naive_solver|simpl; lia]|lia| |lia].
      eapply Forall_impl; [done|]. by intros a [= Ha%fail_if_ok].
    + split; [by apply Henv|lia].
    + eapply Forall_impl; [done|]. by intros a Ha%fail_if_ok%bool_decide_eq_false.
    + eapply Forall_impl; [done|]. by intros a Ha%fail_if_ok%negb_false_iff%bool_decide_eq_true.
  - intros [Hv (Hp1 & Hp2 & Hp3) (Hd1 & Hd2 & Hd3) Ht (Ha1 & Ha2 & Ha3) (He1 & He2) Hvals Hnames].
    rewrite Hv, Hp1, Hp3, Hd1, Hd3.
    replace (4096 <? slen (rq_Path request)) with false by lia.
    replace (4096 <? slen (rq_Dir request)) with false by lia.
    replace ((rq_TimeoutMillis request <? 1) || (86400000 <? rq_TimeoutMillis request)) with false by lia.
    rewrite bool_decide_false by (intros Hn; rewrite Hn in Ha1; simpl in Ha1; lia).
    replace (128 <? Z.of_nat (length (rq_Args request))) with false by lia. cbn [negb orb fail_if mbind result_bind Z.eqb Pos.eqb].
    assert (result_iter (λ argument, fail_if (contains_byte NUL argument)
        (error_new "isolated command argument contains NUL")) (rq_Args request) = Ok ()) as ->.
    { apply result_iter_ok. eapply Forall_impl; [exact Ha2|]. intros a Ha. by apply fail_if_ok. }
    cbn [mbind result_bind].
    replace (65536 <? foldr (λ a z, slen a + z) 0 (rq_Args request)) with false by lia. cbn [mbind result_bind fail_if].
    destruct (environment_bytes_ok order 0 (0 + foldr (λ kv z, slen kv.1 + slen kv.2 + z) 0 order)) as [_ Hok].
    rewrite Hok by (split; [by apply Henv|done]). cbn [mbind result_bind].
    rewrite (env_size_perm _ _ Hord), Z.add_0_l.
    replace (131072 <? _) with false by lia. cbn [mbind result_bind fail_if].
    assert (result_iter (λ required, fail_if (bool_decide (env_get (rq_Env request) required = ""))
        (required_error required)) required_values = Ok ()) as ->.
    { apply result_iter_ok. eapply Forall_impl; [exact Hvals|]. intros a Ha.
      by apply fail_if_ok, bool_decide_eq_false. }
    cbn [mbind result_bind]. apply result_iter_ok. eapply Forall_impl; [exact Hnames|]. intros a Ha.
    by apply fail_if_ok, negb_false_iff, bool_decide_eq_true.
Qed.

(** ** What an accepted request means on the file system *)
Lemma check_run c t w u w' : check c t w = (Ok u, w') ↔ c = false ∧ w' = w.
Proof. unfold check. rewrite liftM_ok, fail_if_ok. done. Qed.

Lemma require_run {A} (m : M os A) t w a w' : require m t w = (Ok a, w') ↔ m w = (Ok a, w').
Proof.
  unfold require, mbind, M_bind, try, throw. destruct (m w) as [[b|e] w1]; [|done].
  unfold mret, M_ret. done.
Qed.

Ltac inv_checks H :=
  lazymatch type of H with
  | (_ ≫= _) _ = (Ok _, _) =>
      let x := fresh "x" in let w1 := fresh "w" in let H1 := fresh "Hrun" in
      apply bindM_ok in H; destruct H as (x & w1 & H1 & H); cbv beta in H; inv_checks H1; inv_checks H
  | check _ _ _ = (Ok _, _) => apply check_run in H; destruct H as [H ->]
  | require _ _ _ = (Ok _, _) => apply require_run in H; inv_checks H
  | lift _ _ = (Ok _, _) => apply liftM_ok in H; destruct H as [H ->]
  | mret _ _ = (Ok _, _) => unfold mret, M_ret in H
  | _ => idtac
  end.

(** A path that is its own resolution. *)
Lemma eval_fixed p w w' :
  no_root (fs w) → is_abs p = true → eval_symlinks (clean p) w = (Ok (clean p), w') →
  fs w' = fs w ∧ ∃ l, clean p = abs_path l ∧ real_path (fs w) l ∧ (l ≠ [] → is_Some (fs w !! l)).
Proof.
  intros Hnr Habs Hrun. destruct (clean_abs p Habs) as (l & Hl & Hn).
  assert (is_abs (clean p) = true) as Hc by (rewrite Hl; apply is_abs_abs_path).
  destruct (eval_run _ _ _ _ Hnr Hc Hrun) as (Hfs & _ & loc & Heq & Hp & Hs).
  split; [done|]. exists loc. done.
Qed.

(** [Rel] of a path directly below, or of the parent. *)
Lemma rel_single r t s :
  Forall normal r → Forall normal t → rel (abs_path r) (abs_path t) = Ok s →
  s ≠ "." → contains_byte slash s = false →
  (∃ x, normal x ∧ t = r ++ [x] ∧ s = x) ∨ (s = ".." ∧ ∃ y, r = t ++ [y]).
Proof.
  intros Hr Ht Hrel Hdot Hslash. destruct (rel_abs_split r t Hr Ht) as (p & d & t' & -> & -> & Hok).
  rewrite Hrel in Hok. assert (s = rel_path (dotdots (length d) ++ t')) as -> by congruence.
  assert (∀ a b l, rel_path (a :: b :: l) = a +:+ String slash (join sep (b :: l))) as Hj by done.
  assert (∀ a b, contains_byte slash (a +:+ String slash b) = true) as Hc.
  { intros a b. apply contains_byte_chars. rewrite chars_app. apply elem_of_app. right. by left. }
  apply Forall_app in Ht as [_ Ht'].
  destruct d as [|y d].
  - change (dotdots (length []) ++ t') with t' in *.
    destruct t' as [|x [|z t']]; [done| |by rewrite Hj, Hc in Hslash].
    left. exists x. rewrite app_nil_r. inversion Ht'; subst. done.
  - right. cbn [length] in *. change (dotdots (S (length d)) ++ t') with (".." :: dotdots (length d) ++ t') in *.
    destruct (dotdots (length d) ++ t') as [|z l] eqn:E; [|by rewrite Hj, Hc in Hslash].
    split; [done|]. apply app_eq_nil in E as [E ->]. destruct d; [|done]. exists y. by rewrite app_nil_r.
Qed.

(** One real [job-*] directory below the resolved workspace root. *)
Record workspace_at (s : Server) (m : filesystem) (root : location) (job : string) (n : node) : Prop := {
  wk_root : real_path m root;
  wk_normal : Forall normal (root ++ [job]);
  wk_job : has_prefix job "job-" = true;
  wk_real : real_dir m (root ++ [job]);
  wk_node : m !! (root ++ [job]) = Some n;
  wk_mode : n_uid n = RunnerUID s ∧ n_perm n = 504 ∧ n_setgid n = true ∧ n_sticky n = true
}.

Lemma not_dir_flags n : negb (is_dir n) || is_symlink n = false → n_kind n = KDir.
Proof. unfold is_dir, is_symlink. by destruct (n_kind n). Qed.

Lemma validateWorkspace_ok s request w d n w' :
  no_root (fs w) → is_abs (WorkspaceRoot s) = true → is_abs (rq_Dir request) = true →
  validateWorkspace s request w = (Ok (d, n), w') →
  fs w' = fs w ∧ ∃ root job, d = abs_path (root ++ [job]) ∧ workspace_at s (fs w) root job n.
Proof.
  intros Hnr Hroot Hdir H. unfold validateWorkspace in H. inv_checks H.
  destruct (eval_run _ _ _ _ Hnr Hroot Hrun) as (Hf1 & _ & root & -> & Hp & _).
  apply negb_false_iff, bool_decide_eq_true in Hrun1. subst x0.
  rewrite <- Hf1 in Hnr.
  destruct (eval_fixed _ _ _ Hnr Hdir Hrun0) as (Hf2 & l & Hl & Hpl & Hsl). rewrite Hl in *.
  apply orb_false_iff in Hrun3 as [[Hdot Hslash]%orb_false_iff Hpre%negb_false_iff].
  apply bool_decide_eq_false in Hdot.
  destruct (rel_single root l x2 (rp_normal _ _ Hp) (rp_normal _ _ Hpl) Hrun2 Hdot Hslash)
    as [(job & Hjob & -> & ->)|[-> _]]; [|done].
  pose proof (rp_parent _ _ Hpl) as Hpar. rewrite <- Hf2 in Hpar.
  destruct (lstat_real _ _ _ _ (rp_normal _ _ Hpl) ltac:(by destruct root) Hpar Hrun4) as [Hf3 Hn].
  apply not_dir_flags in Hrun5.
  rewrite !orb_false_iff, !negb_false_iff, !Z.eqb_eq in Hrun6.
  injection H as <- <- <-.
  split; [congruence|]. exists root, job. split; [done|]. rewrite Hf2, Hf1 in *.
  constructor; [done|apply Hpl|done| |done|naive_solver]. by eapply real_path_dir.
Qed.

(** A regular file of the Runner that its group may read and others may not. *)
Definition staged_file (s : Server) (m : filesystem) (loc : location) : Prop :=
  ∃ n, m !! loc = Some n ∧ is_regular n = true ∧ n_uid n = RunnerUID s
       ∧ Z.land (n_perm n) 4 = 0 ∧ Z.land (n_perm n) 32 ≠ 0.

(** The script: a staged file directly in the Runner's [.scripts] directory. *)
Definition script_at (s : Server) (m : filesystem) (job : location) (first : string) : Prop :=
  ∃ x nd, normal x ∧ clean first = abs_path (job ++ [".scripts"; x])
    ∧ real_dir m (job ++ [".scripts"]) ∧ m !! (job ++ [".scripts"]) = Some nd
    ∧ n_uid nd = RunnerUID s ∧ Z.land (n_perm nd) 7 = 0 ∧ staged_file s m (job ++ [".scripts"; x]).

Lemma regular_flags n : negb (is_regular n) || is_symlink n = false → is_regular n = true.
Proof. unfold is_regular, is_symlink. by destruct (n_kind n). Qed.

Lemma rel_abs_only b t s : is_abs b = true → rel b t = Ok s → is_abs t = true.
Proof.
  intros Hb. unfold rel. assert (is_abs (clean b) = true) as ->.
  { destruct (clean_abs b Hb) as (l & -> & _). apply is_abs_abs_path. }
  destruct (is_abs t) eqn:E; [done|].
  destruct (clean_relative t E) as (k & l & Hc & Hl). rewrite Hc.
  by rewrite is_abs_rel_path by by apply plain_dotdots.
Qed.

Lemma validateScript_ok s first job w w' n :
  no_root (fs w) → Forall normal job → job ≠ [] → real_dir (fs w) job →
  fs w !! job = Some n → n_kind n = KDir →
  validateScript s first (abs_path job) w = (Ok (), w') →
  fs w' = fs w ∧ script_at s (fs w) job first.
Proof.
  intros Hnr Hjob Hne Hd Hn Hk H. unfold validateScript in H. cbv zeta in H.
  assert (normal ".scripts") as Hsn by done.
  rewrite path_join_child in H by done.
  assert (Forall normal (job ++ [".scripts"])) as Hjs by (apply Forall_app; split; [done|by apply Forall_singleton]).
  inv_checks H.
  destruct (lstat_real _ _ _ _ Hjs ltac:(by destruct job) ltac:(by rewrite parent_snoc) Hrun) as [Hf1 Hn1].
  apply not_dir_flags in Hrun0. rewrite !orb_false_iff, !negb_false_iff, !Z.eqb_eq in *.
  assert (is_abs (clean first) = true) as Habs'.
  { eapply rel_abs_only; [|exact Hrun2]. apply is_abs_abs_path. }
  assert (is_abs first = true) as Habs.
  { destruct (is_abs first) eqn:E; [done|]. destruct (clean_relative first E) as (k & l & Hc & Hl).
    rewrite Hc, is_abs_rel_path in Habs' by by apply plain_dotdots. done. }
  destruct (clean_abs first Habs) as (l & Hl & Hln). rewrite Hl in *.
  destruct Hrun3 as [Hdot%bool_decide_eq_false Hslash].
  assert (real_dir (fs w) (job ++ [".scripts"])) as Hds by by eapply real_dir_snoc.
  destruct (rel_single _ l _ Hjs Hln Hrun2 Hdot Hslash) as [(y & Hy & -> & ->)|[_ [y Hup]]].
  - destruct Hrun5 as [Hreg _].
    destruct (lstat_real _ _ _ _ Hln ltac:(by destruct job) ltac:(by rewrite parent_snoc, Hf1) Hrun4) as [Hf2 Hn2].
    assert (no_root (fs w1)) as Hnr2 by congruence.
    destruct (eval_run _ _ _ _ Hnr2 (is_abs_abs_path _) Hrun6) as (Hf3 & _).
    split; [congruence|]. exists y, x. rewrite <- (assoc_L (++)) in *. simpl in *.
    rewrite ?Z.eqb_neq in *.
    split_and!; [done..|naive_solver|naive_solver|]. eexists. rewrite <- Hf1. naive_solver.
  - (* [..] is the workspace itself, which is not a regular file *)
    exfalso. apply app_inj_tail in Hup as [<- _]. destruct Hrun5 as [Hreg _].
    destruct (lstat_real _ _ _ _ Hln Hne ltac:(rewrite Hf1; eapply real_dir_prefix; [apply parent_prefix|done]) Hrun4)
      as [_ Hn2].
    rewrite Hf1, Hn in Hn2. simplify_eq. unfold is_regular in Hreg. by rewrite Hk in Hreg.
Qed.

(** The operation's own constraints. *)
Definition operation_at (s : Server) (m : filesystem) (job : location) (env : gmap string string) : Prop :=
  (env_get env "RELEASEDOCK_OPERATION" = "DEPLOY"
   ∧ env_get env "RELEASEDOCK_PACKAGE_DIRECTORY" = abs_path (job ++ ["package"])
   ∧ env_get env "RELEASEDOCK_ARTIFACT" = abs_path (job ++ ["release-package"])
   ∧ staged_file s m (job ++ ["release-package"]))
  ∨ (env_get env "RELEASEDOCK_OPERATION" = "ROLLBACK"
     ∧ env_get env "RELEASEDOCK_ARTIFACT" = "" ∧ env_get env "RELEASEDOCK_PACKAGE_DIRECTORY" = ""
     ∧ env_get env "RELEASEDOCK_ROLLBACK_SOURCE_RELEASE_ID" ≠ ""
     ∧ env_get env "RELEASEDOCK_ROLLBACK_SOURCE_JOB_ID" ≠ "").

Lemma validateOperation_ok s request job w w' :
  Forall normal job → real_dir (fs w) job →
  validateOperation s request (abs_path job) w = (Ok (), w') →
  fs w' = fs w ∧ operation_at s (fs w) job (rq_Env request).
Proof.
  intros Hjob Hd H. unfold validateOperation in H. cbv zeta in H.
  assert (normal "release-package" ∧ normal "package") as [Hn1 Hn2] by done.
  rewrite !path_join_child in H by done.
  destruct (bool_decide (_ = "DEPLOY")) eqn:Edep.
  - inv_checks H. assert (Forall normal (job ++ ["release-package"])) as Hjn.
    { apply Forall_app; split; [done|by apply Forall_singleton]. }
    destruct (lstat_real _ _ _ _ Hjn ltac:(by destruct job) ltac:(by rewrite parent_snoc) Hrun0) as [Hf Hn].
    apply regular_flags in Hrun1.
    rewrite !orb_false_iff, !negb_false_iff, ?Z.eqb_eq, ?Z.eqb_neq, !bool_decide_eq_true in *.
    split; [done|]. left. destruct Hrun as [[[? ?] ?] ?]. split_and!; [done..|]. eexists. naive_solver.
  - destruct (bool_decide (_ = "ROLLBACK")) eqn:Eroll; [|done]. apply check_run in H as [H ->].
    split; [done|]. right.
    rewrite !orb_false_iff, !negb_false_iff, !bool_decide_eq_false, !bool_decide_eq_true in *. naive_solver.
Qed.

(** The credential hand-off: none, or the job's fixed file below the Runner's
    credential root, readable by the executor's group only. *)
Definition credential_at (s : Server) (m : filesystem) (env : gmap string string) (workspace : node) : Prop :=
  (env_get env "RELEASEDOCK_CREDENTIAL_TYPE" = "" ∧ env_get env "RELEASEDOCK_CREDENTIAL_FILE" = "") ∨
  ∃ root dirnode n, let dir := root ++ ["job-" +:+ env_get env "RELEASEDOCK_JOB_ID"] in
    env_get env "RELEASEDOCK_CREDENTIAL_TYPE" ∈ credential_types
    ∧ CredentialRoot s = abs_path root
    ∧ env_get env "RELEASEDOCK_CREDENTIAL_FILE" = abs_path (dir ++ [CredentialFile])
    ∧ real_dir m dir
    ∧ m !! dir = Some dirnode ∧ n_uid dirnode = RunnerUID s ∧ n_perm dirnode = 456 ∧ n_gid dirnode = n_gid workspace
    ∧ m !! (dir ++ [CredentialFile]) = Some n ∧ is_regular n = true
    ∧ n_uid n = RunnerUID s ∧ n_perm n = 416 ∧ n_gid n = n_gid workspace.

Lemma validateTargetCredential_ok s request n w w' :
  no_root (fs w) → is_abs (CredentialRoot s) = true → clean (CredentialRoot s) = CredentialRoot s →
  validateTargetCredential s request n w = (Ok (), w') →
  fs w' = fs w ∧ credential_at s (fs w) (rq_Env request) n.
Proof.
  intros Hnr Habs Hclean H. unfold validateTargetCredential in H. cbv zeta in H.
  destruct (bool_decide _ && bool_decide _) eqn:Enone.
  { apply andb_true_iff in Enone as [H1%bool_decide_eq_true H2%bool_decide_eq_true].
    unfold mret, M_ret in H. simplify_eq. split; [done|]. by left. }
  inv_checks H. rewrite Hclean in *.
  destruct (CredentialJobDirectory_ok _ _ _ Habs Hrun1) as (root & Hroot & Hn & Hid & ->).
  rewrite Hclean in Hroot. rewrite Hroot in *.
  set (dir := root ++ ["job-" +:+ env_get (rq_Env request) "RELEASEDOCK_JOB_ID"]) in *.
  assert (normal CredentialFile) as Hcn by done.
  assert (Forall normal dir) as Hdn by (apply Forall_app; split; [done|by apply Forall_singleton, job_name_normal]).
  assert (Forall normal (dir ++ [CredentialFile])) as Hfn by (apply Forall_app; split; [done|by apply Forall_singleton]).
  rewrite path_join_child in * by done.
  rewrite !orb_false_iff, !negb_false_iff, ?Z.eqb_eq, !bool_decide_eq_true in *.
  rewrite Hrun2 in *. subst x5 x10 x17.
  destruct (lstat_run _ _ _ _ Hrun3) as (Hf1 & _).
  destruct (eval_run _ _ _ _ ltac:(by rewrite Hf1) (is_abs_abs_path _) Hrun5) as (Hf2 & _).
  destruct (lstat_run _ _ _ _ Hrun8) as (Hf3 & _).
  destruct (eval_run _ _ _ _ ltac:(by rewrite Hf3, Hf2, Hf1) (is_abs_abs_path _) Hrun10)
    as (Hf4 & _ & loc & Hloc & Hpath & _).
  apply abs_path_inj in Hloc as <-; [|done|apply Hpath].
  rewrite Hf3, Hf2, Hf1 in Hpath.
  assert (fs w1 = fs w ∧ fs w3 = fs w) as [Hw1 Hw3] by (split; congruence).
  destruct (lstat_real _ _ _ _ Hdn ltac:(by destruct root) ltac:(rewrite Hw1; apply Hpath) Hrun8) as [_ Hdir].
  rewrite Hw1 in Hdir. assert (n_kind x8 = KDir) as Hk8 by (apply not_dir_flags; destruct Hrun9 as [-> ->]; done).
  assert (real_dir (fs w) dir) as Hdd by by eapply real_path_dir.
  destruct (lstat_real _ _ _ _ Hfn ltac:(by destruct dir) ltac:(by rewrite parent_snoc, Hw3) Hrun15) as [Hf5 Hfile].
  rewrite Hw3 in Hfile.
  destruct (eval_run _ _ _ _ ltac:(by rewrite Hf5, Hw3) (is_abs_abs_path _) Hrun17) as (Hf6 & _).
  split; [congruence|]. right. exists root, x8, x15. cbv zeta. fold dir. naive_solver.
Qed.

(** Everything the server has checked when it lets a command run. *)
Definition approved {W} (s : Server) (m : filesystem) (request : wireRequest) (spec : Spec W) : Prop :=
  well_shaped request
  ∧ (Path spec = rq_Path request ∧ Args spec = rq_Args request ∧ Env spec = rq_Env request
     ∧ Timeout spec = rq_TimeoutMillis request * millisecond ∧ Isolated spec = false)
  ∧ ∃ root job n, Dir spec = abs_path (root ++ [job]) ∧ workspace_at s m root job n
      ∧ script_at s m (root ++ [job]) (hd "" (Args spec))
      ∧ env_get (Env spec) "HOME" = Dir spec
      ∧ operation_at s m (root ++ [job]) (Env spec)
      ∧ credential_at s m (Env spec) n.

(** A server as [NewServer] makes it. *)
Record server_ok (s : Server) : Prop := {
  so_workspace : is_abs (WorkspaceRoot s) = true;
  so_credential : is_abs (CredentialRoot s) = true ∧ clean (CredentialRoot s) = CredentialRoot s;
  so_private : clean (ExecutorCredentialRoot s) = ExecutorCredentialRoot s
}.

Lemma NewServer_ok root uid has s : NewServer root uid has = Ok s → server_ok s.
Proof.
  unfold NewServer. intros H. apply bind_ok in H as (u & H1%fail_if_ok & H).
  apply bind_ok in H as (u' & H2%fail_if_ok & H). injection H as <-.
  apply orb_false_iff in H1 as [Habs%negb_false_iff _].
  destruct (clean_abs root Habs) as (l & Hl & _). constructor; [|done|done].
  cbn [WorkspaceRoot]. rewrite Hl. apply is_abs_abs_path.
Qed.

Definition range_ok (range : gmap string string → list (string * string)) : Prop :=
  ∀ m, range m ≡ₚ map_to_list m.

Lemma validateRequest_ok {W} range s request w (spec : Spec W) w' :
  range_ok range → server_ok s → no_root (fs w) →
  validateRequest range s request w = (Ok spec, w') →
  fs w' = fs w ∧ approved s (fs w) request spec.
Proof.
  intros Hrange [Hws [Hcr Hcc] _] Hnr H. unfold validateRequest in H.
  apply bindM_ok in H as ([] & w0 & [Hshape ->]%liftM_ok & H).
  apply validateRequestShape_ok in Hshape; [|apply Hrange].
  apply bindM_ok in H as ([d n] & w1 & Hw & H).
  apply bindM_ok in H as ([] & w2 & Hs & H). apply bindM_ok in H as ([] & w3 & [Hh ->]%check_run & H).
  apply bindM_ok in H as ([] & w4 & Ho & H). apply bindM_ok in H as ([] & w5 & Hc & H).
  unfold mret, M_ret in H. injection H as <- <-.
  apply negb_false_iff, bool_decide_eq_true in Hh.
  apply validateWorkspace_ok in Hw as (Hf1 & root & job & -> & Hwk); [|done..|apply Hshape].
  assert (root ++ [job] ≠ []) as Hne by by destruct root.
  pose proof (real_dir_lookup _ _ _ (wk_real _ _ _ _ _ Hwk)) as (n' & Hn' & Hk').
  rewrite (wk_node _ _ _ _ _ Hwk) in Hn'. injection Hn' as <-.
  apply (validateScript_ok _ _ _ _ _ n) in Hs as [Hf2 Hscript];
    [|by rewrite Hf1|apply Hwk|done|rewrite Hf1; apply Hwk|rewrite Hf1; apply Hwk|done].
  apply validateOperation_ok in Ho as [Hf3 Hop]; [|apply Hwk|rewrite Hf2, Hf1; apply Hwk].
  apply validateTargetCredential_ok in Hc as [Hf4 Hcred]; [|by rewrite Hf3, Hf2, Hf1|done..].
  rewrite Hf3, Hf2, Hf1 in *. split; [congruence|]. split; [done|]. split; [done|].
  exists root, job, n. cbn. split_and!; done.
Qed.

(** The command that runs is the approved one, writing to the response, with
    at most its credential path replaced by the private copy. *)
Definition runs_as {D} `{Writer D, Codec wireFrame} (s : Server) (spec : Spec (@session D)) (ran : Spec session) : Prop :=
  ran = with_streams spec ∨
  ran = with_streams {| Path := Path spec; Args := Args spec; Dir := Dir spec;
          Env := <["RELEASEDOCK_CREDENTIAL_FILE" := path_join [ExecutorCredentialRoot s; CredentialFile]]> (Env spec);
          Stdin := Stdin spec; Timeout := Timeout spec; Stdout := Stdout spec; Stderr := Stderr spec;
          Isolated := Isolated spec |}.

Lemma prepareExecutorCredential_spec {D} `{Writer D, Codec wireFrame} s (spec spec' : Spec (@session D)) prepared w w' :
  prepareExecutorCredential spec (ExecutorCredentialRoot s) w = (Ok (spec', prepared), w') →
  runs_as s spec (with_streams spec').
Proof.
  unfold prepareExecutorCredential. cbv zeta. case_bool_decide as He.
  { unfold mret, M_ret. intros [= <- _ _]. by left. }
  intros Hr. apply bindM_ok in Hr as ([] & w1 & _ & Hr). apply bindM_ok in Hr as (input & w2 & _ & Hr).
  destruct input as [content|e]; [|by apply bindM_ok in Hr as (? & ? & _ & ?)].
  apply bindM_ok in Hr as (output & w3 & _ & Hr).
  destruct output as [loc|e]; [|by apply bindM_ok in Hr as (? & ? & _ & (? & ? & _ & ?)%bindM_ok)].
  apply bindM_ok in Hr as (copied & w4 & _ & Hr). apply bindM_ok in Hr as (c1 & w5 & _ & Hr).
  apply bindM_ok in Hr as (c2 & w6 & _ & Hr). apply bindM_ok in Hr as (c3 & w7 & _ & Hr).
  destruct (errors_join _); [by apply bindM_ok in Hr as (? & ? & _ & ?)|].
  destruct (_ || _); [by apply bindM_ok in Hr as (? & ? & _ & ?)|].
  unfold mret, M_ret in Hr. injection Hr as <- _ _. by right.
Qed.

(** ** The private credential after a run *)

(** A system in which no call fails and the private root is in place. *)
Definition good_system (l : location) (o : os) : Prop :=
  fault_free o ∧ fs_wf (fs o) ∧ fs_names (fs o) ∧ real_dir (fs o) l.

Lemma credential_cleanup_clears l o :
  Forall normal l → l ≠ [] → good_system l o →
  ∃ o', credential_cleanup (abs_path l) o = (Ok (), o') ∧ ∀ x q, fs o' !! (l ++ x :: q) = None.
Proof.
  intros Hl Hne (Hff & Hwf & Hnames & Hd).
  destruct (clearDirectChildren_total l o Hl Hne Hd Hwf Hnames Hff) as (o1 & Hrun & Hff1 & [_ _ Hd1] & Hgone).
  unfold credential_cleanup, mbind, M_bind, try. rewrite Hrun. unfold chmod. rewrite sys_fault_free by done.
  rewrite resolve_real_dir by done. cbn [mbind result_bind].
  destruct (Hd1 l) as [?|(n & Hn & Hk)]; [done|done|]. rewrite Hn. cbn.
  eexists. split; [done|]. intros x q. cbn. rewrite lookup_insert_ne; [apply Hgone|].
  intros Heq. apply (f_equal length) in Heq. rewrite length_app in Heq. simpl in Heq. lia.
Qed.

(** ** Properties *)
Section socket_properties.
Context `{Writer D, Codec wireRequest, Codec wireFrame, ErrorText}.

(** Two process runners that agree on approved commands cannot be told apart. *)
Lemma handle_runs_only_approved range s (local1 local2 : CommandExecutor session) peer r (d : D) o :
  range_ok range → server_ok s → no_root (fs o) →
  (∀ request rest (spec ran : Spec session) w,
     peer = Ok (RunnerUID s) → readPacket r maxRequestBytes = Ok (request, rest) →
     approved s (fs o) request spec → runs_as s spec ran → local1 ran w = local2 ran w) →
  handle range s local1 peer r d o = handle range s local2 peer r d o.
Proof.
  intros Hrange Hs Hnr Hagree. unfold handle. destruct peer as [uid|e]; [|done].
  destruct (negb (uid =? RunnerUID s)) eqn:Euid; [done|].
  apply negb_false_iff, Z.eqb_eq in Euid as ->.
  destruct (readPacket r maxRequestBytes) as [[request rest]|e] eqn:Hread; [|done].
  destruct (validateRequest range s request o) as [[spec|e] o1] eqn:Hval; [|done].
  destruct (prepareExecutorCredential spec _ o1) as [[[spec' prepared]|e] o2] eqn:Hprep; [|done].
  apply validateRequest_ok in Hval as [_ Hap]; [|done..].
  apply prepareExecutorCredential_spec in Hprep.
  unfold run_prepared. by rewrite (Hagree request rest spec (with_streams spec') _ eq_refl eq_refl Hap Hprep).
Qed.

(** Whatever an approved script did to the executor's private directory
    (left its credential, added files and directories beside it), nothing of
    it is left when the response has been sent. *)
Lemma executor_credential_cleared s (local : CommandExecutor session) spec (d : D) o l :
  ExecutorCredentialRoot s = abs_path l → Forall normal l → l ≠ [] →
  good_system l (local (with_streams spec) (o, {| fw_connection := d; fw_err := None |})).2.1 →
  ∀ x q, fs (run_prepared s local spec true d o).2 !! (l ++ x :: q) = None.
Proof.
  intros Hroot Hl Hne Hgood x q. unfold run_prepared.
  destruct (local _ _) as [[res runErr] [o1 fw]]. cbn [fst snd] in Hgood.
  destruct (credential_cleanup_clears l o1 Hl Hne Hgood) as (o2 & Hrun & Hgone).
  unfold removeCredential at 1. cbn [orb negb]. rewrite Hroot.
  unfold mbind at 1, M_bind at 1. rewrite Hrun. cbn [is_ok mret M_ret].
  destruct (frame_write _ _) as [err fw']. cbn. apply Hgone.
Qed.

(** The shape check accepts exactly the well-shaped requests: protocol
    version 1, absolute NUL-free paths of at most 4096 bytes, one to 128
    arguments of at most 64 KiB, a timeout of 1 ms to 24 h, an environment of
    allow-listed names of at most 128 KiB with every mandatory entry; in
    whatever order Go visits the environment map. *)
Lemma request_shape_exact order request :
  order ≡ₚ map_to_list (rq_Env request) →
  is_ok (validateRequestShape order request) = true ↔ well_shaped request.
Proof.
  intros Hord. rewrite <- (validateRequestShape_ok order) by done.
  by destruct (validateRequestShape order request) as [[]|].
Qed.

(** The client never sends what the server's shape check would refuse, and
    it sends the command unchanged: same path, arguments, directory and
    environment, and the timeout in whole milliseconds, which never exceeds the
    one asked for. *)
Lemma client_request_faithful {W} range (spec : Spec W) request :
  range_ok range → requestFromSpec range spec = Ok request →
  well_shaped request
  ∧ rq_Path request = Path spec ∧ rq_Args request = Args spec ∧ rq_Dir request = Dir spec
  ∧ rq_Env request = Env spec
  ∧ rq_TimeoutMillis request * millisecond ≤ Timeout spec < (rq_TimeoutMillis request + 1) * millisecond.
Proof.
  intros Hrange Hreq. unfold requestFromSpec in Hreq.
  apply bind_ok in Hreq as (u & Hu%fail_if_ok & Hreq). apply bind_ok in Hreq as ([] & Hshape & Hreq).
  injection Hreq as <-. apply validateRequestShape_ok in Hshape; [|apply Hrange].
  split; [done|]. do 4 (split; [done|]). cbn [rq_TimeoutMillis].
  apply orb_false_iff in Hu as [Hlo%Z.ltb_ge Hhi%Z.ltb_ge]. unfold millisecond in *.
  rewrite Z.quot_div_nonneg by lia. pose proof (Z.div_mod (Timeout spec) 1000000).
  pose proof (Z.mod_pos_bound (Timeout spec) 1000000). lia.
Qed.
End socket_properties.

(** ** Witnesses *)
Definition xnode (k : kind) (perm : Z) (sg sticky : bool) : node :=
  {| n_kind := k; n_uid := 7; n_gid := 8; n_perm := perm; n_setgid := sg; n_sticky := sticky |}.
Definition exec_fs : filesystem :=
  <[["w"] := xnode KDir 488 true false]> (<[["w"; "job-1"] := xnode KDir 504 true true]>
  (<[["w"; "job-1"; ".scripts"] := xnode KDir 488 true false]>
  (<[["w"; "job-1"; ".scripts"; "run.sh"] := xnode (KReg (to_bytes "true")) 416 false false]>
  (<[["c"] := xnode KDir 456 false false]> (<[["c"; "job-1"] := xnode KDir 456 true false]>
  (<[["c"; "job-1"; "credential"] := xnode (KReg (to_bytes "key")) 416 false false]>
  (<[["p"] := {| n_kind := KDir; n_uid := 9; n_gid := 8; n_perm := 448; n_setgid := false; n_sticky := false |}]>
  (<[["p"; "old"] := xnode (KReg []) 384 false false]> ∅)))))))).
Definition exec_os : os :=
  {| fs := exec_fs; cwd := []; euid := 9; egid := 8; umask := 18; faults := λ _, None; tick := 0 |}.
Definition exec_server : Server :=
  {| WorkspaceRoot := "/w"; CredentialRoot := "/c"; ExecutorCredentialRoot := "/p"; RunnerUID := 7 |}.
Definition exec_env : gmap string string := list_to_map
  [("PATH", "/bin"); ("HOME", "/w/job-1"); ("LANG", "C"); ("LC_ALL", "C"); ("RELEASEDOCK_JOB_ID", "1");
   ("RELEASEDOCK_RELEASE_ID", "r"); ("RELEASEDOCK_OPERATION", "ROLLBACK"); ("RELEASEDOCK_ARTIFACT", "");
   ("RELEASEDOCK_PACKAGE_DIRECTORY", ""); ("RELEASEDOCK_ROLLBACK_SOURCE_RELEASE_ID", "q");
   ("RELEASEDOCK_ROLLBACK_SOURCE_JOB_ID", "j"); ("RELEASEDOCK_CREDENTIAL_TYPE", "TOKEN");
   ("RELEASEDOCK_CREDENTIAL_FILE", "/c/job-1/credential")].
Definition exec_request : wireRequest :=
  {| rq_Version := 1; rq_Path := "/bin/sh"; rq_Args := ["/w/job-1/.scripts/run.sh"]; rq_Dir := "/w/job-1";
     rq_Env := exec_env; rq_TimeoutMillis := 1000 |}.
Definition exec_codec : Codec wireRequest :=
  {| marshal _ := Ok [zbyte 1]; decode _ := Ok (exec_request, true) |}.
Definition exec_input : reader := {| r_data := packet [zbyte 1]; r_end := Sentinel EOF |}.
Definition exec_text : ErrorText := λ e, match e with Errorf f _ => f | _ => "error" end.

(** A process runner that reports the private credential it was given, and
    one that differs from it on commands that are still marked isolated. *)
Definition exec_local : CommandExecutor (@session bytes) := λ spec w,
  (({| ExitCode := 0; Duration := 0 |},
    Some (Errorf (env_get (Env spec) "RELEASEDOCK_CREDENTIAL_FILE") [])), w).
Definition exec_local' : CommandExecutor (@session bytes) := λ spec w,
  if Isolated spec then (refused "isolated", w) else exec_local spec w.

Lemma map_to_list_range : range_ok map_to_list.
Proof. by intros m. Qed.

Lemma exec_server_ok : server_ok exec_server.
Proof. by constructor. Qed.

(** The example's request is accepted and its command runs. *)
Example exec_reply :
  client_read (H := demo_codec) None (collecting {| Path := ""; Args := []; Dir := ""; Env := ∅; Stdin := [];
      Timeout := 0; Stdout := None; Stderr := None; Isolated := true |})
    {| r_data := (handle (H0 := exec_codec) (H1 := demo_codec) (H2 := exec_text) map_to_list exec_server
                    exec_local (Ok 7) exec_input [] exec_os).1; r_end := Sentinel EOF |} ([], [])
  = (({| ExitCode := 0; Duration := 0 |}, Some (error_new "error")), ([], [])).
Proof. vm_compute. reflexivity. Qed.

Definition exec_spec : Spec (@session bytes) :=
  {| Path := "/bin/sh"; Args := []; Dir := "/"; Env := ∅; Stdin := []; Timeout := 1; Stdout := None;
     Stderr := None; Isolated := false |}.

Lemma exec_good : good_system ["p"] exec_os.
Proof.
  split; [by intros n|]. split; [apply wf_check_ok; vm_compute; reflexivity|].
  split; [apply names_check_ok; vm_compute; reflexivity|].
  apply real_dir_check_ok. vm_compute. reflexivity.
Qed.

Definition exec_client_spec : Spec nat :=
  {| Path := "/bin/sh"; Args := ["/w/job-1/.scripts/run.sh"]; Dir := "/w/job-1"; Env := exec_env; Stdin := [];
     Timeout := 1000000500; Stdout := None; Stderr := None; Isolated := true |}.

