(* ===== verification/Store.v ===== *)
(** * The job queue (runner/internal/store/store.go)

    The rows the Runner reads and writes, and the effect of each SQL statement
    on them, over the transactions of Db.v.  The audit columns updated_at and
    locked_at are left out. *)
From S2P Require Import Prelude GoIO GoString OS Model Db.

(** ** Rows

    One record per table, shared with the backend; the columns that only the
    backend reads come last, grouped in records ([jr_info], [re_info], [pr_info]). *)
Record job_info := { ji_artifact : string; ji_retry_of : option string; ji_created_by : string }.
Record job_row := JobRow {
  jr_release : string; jr_rb_release : option string; jr_rb_job : option string;
  jr_cred_id : option string; jr_cred_version : option Z;
  jr_application : string; jr_version : string; jr_environment : string; jr_lock_key : string;
  jr_artifact : string; jr_sha256 : string; jr_manifest : string; jr_operation : string;
  jr_attempts : Z; jr_profile : string; jr_status : JobStatus;
  jr_available : Z; jr_priority : Z; jr_created : Z; jr_labels : list string;
  jr_locked_by : option string; jr_heartbeat : option Z; jr_failure : option string;
  jr_started : option Z; jr_finished : option Z; jr_info : job_info
}.
(** What a release asks for: the operation, the source of a rollback, the failed
    job a retry replaces, who asked for it, and the status it came from. *)
Record request_info := Request {
  rq_operation : string; rq_release : option string; rq_job : option string; rq_retry : option string;
  rq_by : option string; rq_base : option string
}.
Record decision_info := Decided {
  de_note : string; de_reviewed : option string; de_approved : option string; de_rejected : option string
}.
Record quick_info := {
  qi_preset : option string; qi_quick : bool; qi_auto : bool; qi_release : option string; qi_job : option string
}.
Record release_info := ReleaseInfo {
  ri_profile : string; ri_version : string; ri_notes : string; ri_created_by : string; ri_created : Z;
  ri_request : request_info; ri_decision : decision_info; ri_quick : quick_info
}.
Record release_row := ReleaseRow {
  re_status : string; re_application : string; re_environment : string; re_info : release_info
}.
Record lock_row := { lo_job : string; lo_worker : string; lo_heartbeat : Z }.
Record runner_row := {
  ru_name : string; ru_address : string; ru_labels : list string; ru_active : bool;
  ru_managed : bool; ru_heartbeat : option Z
}.
Inductive step_status := StepRunning | StepSuccess | StepFailed.
Record step_row := {
  st_job : string; st_attempt : Z; st_order : Z; st_name : JobStatus; st_status : step_status;
  st_exit : Z; st_message : option string; st_metadata : gmap string json_value
}.
Record log_row := { lg_job : string; lg_step : Z; lg_stream : string; lg_sequence : Z; lg_payload : bytes }.
Record image_row := {
  im_source : string; im_destination : string; im_repository : string; im_tag : string;
  im_digest : option string
}.
Record head_row := { hd_release : string; hd_job : string }.
Record credential_row := { cr_type : string; cr_ciphertext : string; cr_usable : bool }.
Record profile_info := {
  pi_application : string; pi_environment : string; pi_enabled : bool; pi_approval : bool;
  pi_labels : list string; pi_target_credential : option string; pi_created : Z
}.
(** A profile; JSON columns are kept as text.  [pr_credential] is the joined
    registry credential: its usability, associated data and ciphertext. *)
Record profile_row := {
  pr_name : string; pr_extraction : ExtractionPolicy; pr_kind : string; pr_binary : string;
  pr_namespace : string; pr_url : string; pr_host : string; pr_project : string;
  pr_insecure : bool; pr_ca : string; pr_credential : option (bool * string * string);
  pr_health : string; pr_timeout : Z; pr_max_log : Z; pr_auto_rollback : bool;
  pr_cleanup : bool; pr_keep_failed : bool; pr_active : bool; pr_revoked : bool;
  pr_info : profile_info
}.
Record script_row := {
  sc_profile : string; sc_order : Z; sc_id : string; sc_name : string; sc_version : Z;
  sc_phase : string; sc_interpreter : string; sc_sha256 : string; sc_content : bytes;
  sc_args : string; sc_timeout : option Z; sc_approved : option Z; sc_revoked : bool;
  sc_type : string; sc_active : bool
}.
Record settings_row := {
  se_poll : Z; se_lock_retry : Z; se_refresh : Z; se_heartbeat : Z; se_stale : Z;
  se_workspace : string; se_artifact : string; se_command : string; se_chunk : Z
}.

Record tables := Tables {
  jobs : gmap string job_row;
  releases : gmap string release_row;
  locks : gmap string lock_row;
  runners : gmap string runner_row;
  steps : gmap Z step_row;
  logs : list log_row;
  images : gmap (string * string) image_row;
  heads : gmap (string * string) head_row;
  credentials : gmap (string * Z) credential_row;
  profiles : gmap string profile_row;
  scripts : list script_row;
  settings : option settings_row
}.

Abbreviation db := (dbase tables).

Definition set_jobs f (t : tables) := Tables (f (jobs t)) (releases t) (locks t) (runners t) (steps t) (logs t) (images t) (heads t) (credentials t) (profiles t) (scripts t) (settings t).
Definition set_releases f (t : tables) := Tables (jobs t) (f (releases t)) (locks t) (runners t) (steps t) (logs t) (images t) (heads t) (credentials t) (profiles t) (scripts t) (settings t).
Definition set_locks f (t : tables) := Tables (jobs t) (releases t) (f (locks t)) (runners t) (steps t) (logs t) (images t) (heads t) (credentials t) (profiles t) (scripts t) (settings t).
Definition set_runners f (t : tables) := Tables (jobs t) (releases t) (locks t) (f (runners t)) (steps t) (logs t) (images t) (heads t) (credentials t) (profiles t) (scripts t) (settings t).
Definition set_steps f (t : tables) := Tables (jobs t) (releases t) (locks t) (runners t) (f (steps t)) (logs t) (images t) (heads t) (credentials t) (profiles t) (scripts t) (settings t).
Definition set_logs f (t : tables) := Tables (jobs t) (releases t) (locks t) (runners t) (steps t) (f (logs t)) (images t) (heads t) (credentials t) (profiles t) (scripts t) (settings t).
Definition set_images f (t : tables) := Tables (jobs t) (releases t) (locks t) (runners t) (steps t) (logs t) (f (images t)) (heads t) (credentials t) (profiles t) (scripts t) (settings t).
Definition set_heads f (t : tables) := Tables (jobs t) (releases t) (locks t) (runners t) (steps t) (logs t) (images t) (f (heads t)) (credentials t) (profiles t) (scripts t) (settings t).

Definition terminal (s : JobStatus) : bool :=
  match s with StatusSuccess | StatusFailed | StatusRolledBack => true | _ => false end.
Definition running (s : JobStatus) : bool :=
  negb (terminal s) && negb (bool_decide (s = StatusQueued)).

Definition set_status (s : JobStatus) (r : job_row) : job_row :=
  JobRow (jr_release r) (jr_rb_release r) (jr_rb_job r) (jr_cred_id r) (jr_cred_version r) (jr_application r)
    (jr_version r) (jr_environment r) (jr_lock_key r) (jr_artifact r) (jr_sha256 r) (jr_manifest r)
    (jr_operation r) (jr_attempts r) (jr_profile r) s (jr_available r) (jr_priority r) (jr_created r)
    (jr_labels r) (jr_locked_by r) (jr_heartbeat r) (jr_failure r) (jr_started r) (jr_finished r) (jr_info r).
(** The columns a claim, a heartbeat, a deferral and a terminal update write. *)
Definition set_available (z : Z) (r : job_row) : job_row :=
  JobRow (jr_release r) (jr_rb_release r) (jr_rb_job r) (jr_cred_id r) (jr_cred_version r) (jr_application r)
    (jr_version r) (jr_environment r) (jr_lock_key r) (jr_artifact r) (jr_sha256 r) (jr_manifest r)
    (jr_operation r) (jr_attempts r) (jr_profile r) (jr_status r) z (jr_priority r) (jr_created r)
    (jr_labels r) (jr_locked_by r) (jr_heartbeat r) (jr_failure r) (jr_started r) (jr_finished r) (jr_info r).
Definition set_lease (worker : option string) (heartbeat : option Z) (r : job_row) : job_row :=
  JobRow (jr_release r) (jr_rb_release r) (jr_rb_job r) (jr_cred_id r) (jr_cred_version r) (jr_application r)
    (jr_version r) (jr_environment r) (jr_lock_key r) (jr_artifact r) (jr_sha256 r) (jr_manifest r)
    (jr_operation r) (jr_attempts r) (jr_profile r) (jr_status r) (jr_available r) (jr_priority r) (jr_created r)
    (jr_labels r) worker heartbeat (jr_failure r) (jr_started r) (jr_finished r) (jr_info r).
Definition set_outcome (failure : option string) (started finished : option Z) (attempts : Z) (r : job_row) : job_row :=
  JobRow (jr_release r) (jr_rb_release r) (jr_rb_job r) (jr_cred_id r) (jr_cred_version r) (jr_application r)
    (jr_version r) (jr_environment r) (jr_lock_key r) (jr_artifact r) (jr_sha256 r) (jr_manifest r)
    (jr_operation r) attempts (jr_profile r) (jr_status r) (jr_available r) (jr_priority r) (jr_created r)
    (jr_labels r) (jr_locked_by r) (jr_heartbeat r) failure started finished (jr_info r).

Definition set_release_status (s : string) (r : release_row) : release_row :=
  ReleaseRow s (re_application r) (re_environment r) (re_info r).
(** [UPDATE releases r SET status = $2 FROM release_jobs j WHERE j.id = $1 AND r.id = j.release_id]. *)
Definition sync_release (id : string) (s : JobStatus) (t : tables) : tables :=
  match jobs t !! id with
  | None => t
  | Some j => set_releases (alter (set_release_status (status_text s)) (jr_release j)) t
  end.
(** [DELETE FROM release_locks WHERE job_id = $1 [AND worker_id = $2]]. *)
Definition lock_matches (id : string) (worker : option string) (l : lock_row) : bool :=
  bool_decide (lo_job l = id) && match worker with None => true | Some w => bool_decide (lo_worker l = w) end.
Definition delete_locks (id : string) (worker : option string) (t : tables) : tables :=
  set_locks (filter (λ kl : string * lock_row, lock_matches id worker kl.2 = false)) t.
(** [EXISTS (SELECT 1 FROM release_locks l WHERE l.job_id = id AND l.worker_id = w)]. *)
Definition has_lock (id worker : string) (t : tables) : bool :=
  existsb (λ kl : string * lock_row, lock_matches id (Some worker) kl.2) (map_to_list (locks t)).
(** [WHERE id = $1 AND locked_by = $2 AND status NOT IN terminal]. *)
Definition owned (id worker : string) (t : tables) : option job_row :=
  match jobs t !! id with
  | Some j => if bool_decide (jr_locked_by j = Some worker) && negb (terminal (jr_status j)) then Some j else None
  | None => None
  end.

(* src: runner/internal/store/store.go:100-104 PGStore *)
Record PGStore := { workerID : string; runnerIdentity : string }.

(* src: runner/internal/store/store.go:795-797 durationInterval *)
Definition durationInterval (value : Z) : Z := Z.quot value 1000000.

(* src: runner/internal/store/store.go:806-812 truncate *)
Definition truncate (value : string) (limit : nat) : string :=
  if (length (runes value) <=? limit)%nat then value
  else of_chars (concat (encode_rune <$> take limit (runes value).*1)).

(** ** Recovery *)
Definition stale (now limit : Z) (j : job_row) : bool :=
  running (jr_status j) && match jr_heartbeat j with Some h => h <? now - limit | None => false end.

(** The three updates of one stale job. *)
(* src: runner/internal/store/store.go:74-93 (PGStore).RecoverStaleJobs *)
Definition failStaleJob (id : string) : M db unit :=
  _ ← wrapM (wrap "fail stale release job: %w") (statement (λ n t, ((), set_jobs (alter (λ j,
        set_lease None (jr_heartbeat j) (set_status StatusFailed
          (set_outcome (Some "runner lease expired; manual retry required") (jr_started j) (Some n) (jr_attempts j) j))) id) t)));
  _ ← wrapM (wrap "release stale deployment lock: %w") (statement (λ _ t, ((), delete_locks id None t)));
  wrapM (wrap "synchronize stale release state: %w") (statement (λ _ t, ((), sync_release id StatusFailed t))).

(** [skipped]: the rows other transactions hold ([SKIP LOCKED]). *)
(* src: runner/internal/store/store.go:38-98 (PGStore).RecoverStaleJobs *)
Definition RecoverStaleJobs (skipped : gset string) (staleAfter : Z) : M db Z :=
  _ ← lift (fail_if (staleAfter <=? 0) (error_new "stale job interval must be positive"));
  transaction (
    ids ← wrapM (wrap "select stale release jobs: %w") (query (λ n t,
            (filter (λ kj : string * job_row, stale n (durationInterval staleAfter) kj.2 = true ∧ kj.1 ∉ skipped)
              (map_to_list (jobs t))).*1));
    _ ← iterM failStaleJob ids;
    mret (Z.of_nat (length ids))).

(** ** Runner inventory *)
(* src: runner/internal/store/store.go:125-153 (PGStore).RegisterRunner *)
Definition RegisterRunner (s : PGStore) (uuid : result string) (identity name address : string) : M db (bool * PGStore) :=
  _ ← lift (fail_if (bool_decide (identity = "") || bool_decide (name = "") || bool_decide (address = ""))
        (error_new "runner identity, name, and address are required"));
  _ ← lift uuid;
  active ← wrapM (wrap "register runner instance: %w") (pool (statement (λ n t,
    let row := match runners t !! identity with
               | None => {| ru_name := name; ru_address := address; ru_labels := []; ru_active := true;
                            ru_managed := true; ru_heartbeat := Some n |}
               | Some r => {| ru_name := ru_name r; ru_address := address; ru_labels := ru_labels r;
                              ru_active := ru_active r; ru_managed := true; ru_heartbeat := Some n |}
               end in
    (ru_active row, set_runners (insert identity row) t))));
  mret (active, {| workerID := workerID s; runnerIdentity := identity |}).

Definition beat (n : Z) (r : runner_row) : runner_row :=
  {| ru_name := ru_name r; ru_address := ru_address r; ru_labels := ru_labels r; ru_active := ru_active r;
     ru_managed := ru_managed r; ru_heartbeat := Some n |}.

(* src: runner/internal/store/store.go:155-174 (PGStore).HeartbeatRunner *)
Definition HeartbeatRunner (s : PGStore) : M db bool :=
  _ ← lift (fail_if (bool_decide (runnerIdentity s = "")) (error_new "runner is not registered"));
  row ← wrapM (wrap "heartbeat runner instance: %w") (pool (statement (λ n t,
    match runners t !! runnerIdentity s with
    | Some r => if ru_managed r then (Some (ru_active r), set_runners (insert (runnerIdentity s) (beat n r)) t)
                else (None, t)
    | None => (None, t)
    end)));
  lift (of_option (error_new "runner registration no longer exists") row).

(** ** Settings *)
(* src: runner/internal/store/store.go:205-219 validateSettings *)
Definition validateSettings (x : Settings) : result unit :=
  _ ← fail_if ((PollInterval x <=? 0) || (LockRetry x <=? 0) || (SettingsRefresh x <=? 0) || (HeartbeatInterval x <=? 0))
        (error_new "poll, lock retry, refresh, and heartbeat intervals must be positive");
  _ ← fail_if (StaleJobAfter x <=? i64 (HeartbeatInterval x * 2))
        (error_new "stale job interval must exceed twice the heartbeat interval");
  _ ← fail_if (bool_decide (WorkspaceRoot x = "") || bool_decide (ArtifactRoot x = "") || bool_decide (CommandPath x = ""))
        (error_new "workspace_root, artifact_root, and command_path are required");
  fail_if ((LogChunkBytes x <? 1024) || (1048576 <? LogChunkBytes x))
    (error_new "log_chunk_bytes must be between 1024 and 1048576").

(* src: runner/internal/store/store.go:176-203 (PGStore).LoadSettings *)
Definition LoadSettings : M db Settings :=
  row ← wrapM (wrap "load runner settings: %w") (pool (query (λ _ t, settings t)));
  r ← lift (of_option (wrap "load runner settings: %w" (Sentinel ErrNoRows)) row);
  let ms z := i64 (z * 1000000) in
  let x := {| PollInterval := ms (se_poll r); LockRetry := ms (se_lock_retry r);
              SettingsRefresh := ms (se_refresh r); HeartbeatInterval := ms (se_heartbeat r);
              StaleJobAfter := ms (se_stale r); WorkspaceRoot := se_workspace r;
              ArtifactRoot := se_artifact r; CommandPath := se_command r; LogChunkBytes := se_chunk r |} in
  _ ← lift (map_err (wrap "invalid runner settings: %w") (validateSettings x));
  mret x.

(** ** What a claim loads and checks *)
(* src: runner/internal/store/store.go:537-544 allowedTargetCredentialType *)
Definition allowedTargetCredentialType (value : string) : bool :=
  bool_decide (value ∈ ["SSH_PRIVATE_KEY"; "KUBECONFIG"; "TOKEN"; "OPAQUE_FILE"]).

(* src: runner/internal/store/store.go:546-553 hasScriptPhase *)
Definition hasScriptPhase (l : list Script) (phase : string) : bool :=
  existsb (λ s, bool_decide (s_Phase s = phase)) l.

Definition empty_str (s : string) : bool := bool_decide (s = "").

(* src: runner/internal/store/store.go:485-535 validateJob *)
Definition validateJob (job : Job) : result unit :=
  let p := j_Profile job in
  let e := p_Extraction p in
  let r := p_Runtime p in
  let c := j_TargetCredential job in
  let deploy := bool_decide (j_Operation job = OperationDeploy) in
  let rollback := bool_decide (j_Operation job = OperationRollback) in
  _ ← fail_if (p_AutoRollback p)
        (error_new "automatic rollback is disabled in v0.1; use an explicit digest-verified manual rollback");
  _ ← fail_if (negb deploy && negb rollback) (Errorf "unsupported job operation %q" [FStr (j_Operation job)]);
  _ ← fail_if ((MaxImages e <=? 0) || (deploy && ((MaxArchiveBytes e <=? 0) || (MaxExtractedBytes e <=? 0) || (MaxFiles e <=? 0))))
        (error_new "deployment profile has invalid extraction limits");
  _ ← fail_if ((p_CommandTimeout p <=? 0) || (p_MaxLogBytes p <=? 0))
        (error_new "deployment profile has invalid command limits");
  _ ← fail_if (negb (bool_decide (Kind r ∈ ["docker"; "podman"; "containerd"])))
        (Errorf "unsupported runtime kind %q" [FStr (Kind r)]);
  _ ← fail_if (empty_str (BinaryPath r) || empty_str (RegistryHost r) || empty_str (RegistryProject r) || empty_str (RegistryURL r))
        (error_new "runtime binary and registry settings are required");
  _ ← (if empty_str (tc_ID c) then
         fail_if (negb (empty_str (tc_Type c)) || negb (tc_Version c =? 0) || negb (empty_str (tc_Ciphertext c))
                  || negb (empty_str (tc_AAD c)))
           (error_new "target credential snapshot is incomplete")
       else fail_if ((tc_Version c <=? 0) || empty_str (tc_Ciphertext c) || empty_str (tc_AAD c)
                     || negb (allowedTargetCredentialType (tc_Type c)))
              (error_new "target credential snapshot is invalid"));
  let requiredPhase := if rollback then "ROLLBACK" else "DEPLOY" in
  _ ← fail_if (negb (hasScriptPhase (p_Scripts p) requiredPhase))
        (Errorf "operation %s requires an approved %s script" [FStr (j_Operation job); FStr requiredPhase]);
  if rollback then
    _ ← fail_if (empty_str (j_RollbackSourceReleaseID job) || empty_str (j_RollbackSourceJobID job))
          (error_new "manual rollback requires an immutable source release and DEPLOY basis job");
    _ ← fail_if (bool_decide (j_RollbackImages job = []) || (MaxImages e <? Z.of_nat (length (j_RollbackImages job))))
          (Errorf "manual rollback source image count must be between 1 and %d" [FInt (MaxImages e)]);
    result_iter (λ i, fail_if (empty_str (ir_FilePath i) || empty_str (ir_DestinationRef i) || empty_str (ir_Repository i)
                               || empty_str (ir_Tag i) || empty_str (ir_Digest i))
      (error_new "manual rollback source contains an incomplete image record")) (j_RollbackImages job)
  else Ok tt.

Section claim.
(** [json.Unmarshal] of the two JSON columns, and the text of an error. *)
Context (decode_health : string → result (list HealthCheck)) (decode_args : string → result (list string)).
Context `{ErrorText}.

(* src: runner/internal/store/store.go:353-372 (PGStore).loadTargetCredential *)
Definition loadTargetCredential (c : TargetCredential) : M db TargetCredential :=
  if empty_str (tc_ID c) && (tc_Version c =? 0) then mret c else
  _ ← lift (fail_if (empty_str (tc_ID c) || (tc_Version c <=? 0)) (error_new "target credential snapshot is incomplete"));
  row ← wrapM (wrap "load active immutable target credential: %w") (query (λ _ t, credentials t !! (tc_ID c, tc_Version c)));
  match row with
  | Some r =>
      if cr_usable r then
        mret {| tc_ID := tc_ID c; tc_Type := cr_type r; tc_Version := tc_Version c; tc_Ciphertext := cr_ciphertext r;
                tc_AAD := "target-credential:" +:+ tc_ID c +:+ ":v" +:+ pretty (tc_Version c) |}
      else throw (wrap "load active immutable target credential: %w" (Sentinel ErrNoRows))
  | None => throw (wrap "load active immutable target credential: %w" (Sentinel ErrNoRows))
  end.

Definition seconds (z : Z) : Z := i64 (z * 1000000000).

(** [ORDER BY ps.execution_order]; rows with equal keys keep the table's order. *)
Definition script_before (a b : script_row) : Prop := sc_order a ≤ sc_order b.
#[export] Instance script_before_dec a b : Decision (script_before a b).
Proof. unfold script_before. apply _. Defined.

Fixpoint scan_scripts (timeout : Z) (rows : list script_row) : result (list Script) :=
  match rows with
  | [] => Ok []
  | r :: rows =>
      args ← map_err (Wrapf "decode args for script %s: %w" [FStr (sc_id r)]) (decode_args (sc_args r));
      l ← scan_scripts timeout rows;
      Ok ({| s_ID := sc_id r; s_Name := sc_name r; s_Version := sc_version r; s_Phase := sc_phase r;
             s_InterpreterPath := sc_interpreter r; s_SHA256 := sc_sha256 r; s_Content := sc_content r;
             s_Args := args; s_Timeout := seconds (default timeout (sc_timeout r)); s_ApprovedAt := sc_approved r |} :: l)
  end.

(** [p.active = TRUE AND p.revoked_at IS NULL AND (c.id IS NULL OR ...)]. *)
Definition profile_usable (p : profile_row) : bool :=
  pr_active p && negb (pr_revoked p) && match pr_credential p with Some (usable, _, _) => usable | None => true end.

(* src: runner/internal/store/store.go:374-445 (PGStore).loadProfile *)
Definition loadProfile (id : string) : M db Profile :=
  row ← wrapM (wrap "load enabled immutable deployment profile: %w") (query (λ _ t, profiles t !! id));
  p ← lift (of_option (wrap "load enabled immutable deployment profile: %w" (Sentinel ErrNoRows))
        (p ← row; if profile_usable p then Some p else None));
  health ← lift (map_err (wrap "decode health checks: %w") (decode_health (pr_health p)));
  rows ← wrapM (wrap "load approved scripts: %w") (query (λ _ t,
    merge_sort script_before
      (filter (λ r, sc_profile r = id ∧ is_Some (sc_approved r) ∧ sc_revoked r = false) (scripts t))));
  l ← lift (scan_scripts (pr_timeout p) rows);
  mret {| p_ID := id; p_Name := pr_name p; p_Extraction := pr_extraction p;
          p_Runtime := {| Kind := pr_kind p; BinaryPath := pr_binary p; Namespace := pr_namespace p;
                          RegistryURL := pr_url p; RegistryHost := pr_host p; RegistryProject := pr_project p;
                          RegistryInsecure := pr_insecure p; RegistryCAPEM := pr_ca p;
                          CredentialAAD := match pr_credential p with Some (_, aad, _) => aad | None => "" end;
                          CredentialCiphertext := match pr_credential p with Some (_, _, c) => c | None => "" end |};
          p_HealthChecks := health; p_Scripts := l; p_CommandTimeout := seconds (pr_timeout p);
          p_MaxLogBytes := pr_max_log p; p_AutoRollback := pr_auto_rollback p;
          p_CleanupWorkspace := pr_cleanup p; p_KeepFailedWorkspace := pr_keep_failed p |}.

(** [ORDER BY i.file_path]. *)
Definition image_before (a b : ImageRecord) : Prop := string_le (ir_FilePath a) (ir_FilePath b).
#[export] Instance image_before_dec a b : Decision (image_before a b).
Proof. unfold image_before. apply _. Defined.

Definition job_images (id : string) (t : tables) : list ImageRecord :=
  merge_sort image_before (omap (λ ki : (string * string) * image_row,
    if bool_decide (ki.1.1 = id) then
      Some {| ir_FilePath := ki.1.2; ir_SourceRef := im_source ki.2; ir_DestinationRef := im_destination ki.2;
              ir_Repository := im_repository ki.2; ir_Tag := im_tag ki.2; ir_Digest := default "" (im_digest ki.2) |}
    else None) (map_to_list (images t))).

(* src: runner/internal/store/store.go:447-483 (PGStore).loadRollbackImages *)
Definition loadRollbackImages (source_release source_job : string) : M db (list ImageRecord) :=
  _ ← lift (fail_if (empty_str source_release || empty_str source_job)
        (error_new "manual rollback job has no immutable source release and DEPLOY basis job"));
  l ← wrapM (wrap "load rollback source images: %w") (query (λ _ t,
    match jobs t !! source_job with
    | Some j => if bool_decide (jr_release j = source_release) && bool_decide (jr_operation j = OperationDeploy)
                   && bool_decide (jr_status j = StatusSuccess)
                then job_images source_job t else []
    | None => []
    end));
  _ ← lift (fail_if (bool_decide (l = [])) (error_new "rollback source has no successful deployment image records"));
  mret l.

(** The dependencies of a claimed job, in the order the code loads them. *)
(* src: runner/internal/store/store.go:299-308 (PGStore).ClaimJob *)
Definition loadDependencies (id : string) (r : job_row) : M db Job :=
  profile ← loadProfile (jr_profile r);
  credential ← loadTargetCredential {| tc_ID := default "" (jr_cred_id r); tc_Type := "";
                 tc_Version := default 0 (jr_cred_version r); tc_Ciphertext := ""; tc_AAD := "" |};
  imgs ← (if bool_decide (jr_operation r = OperationRollback)
          then loadRollbackImages (default "" (jr_rb_release r)) (default "" (jr_rb_job r))
          else mret []);
  let job := {| j_ID := id; j_ReleaseID := jr_release r; j_RollbackSourceReleaseID := default "" (jr_rb_release r);
                j_RollbackSourceJobID := default "" (jr_rb_job r); j_Application := jr_application r;
                j_Version := jr_version r; j_Environment := jr_environment r; j_LockKey := jr_lock_key r;
                j_ArtifactPath := jr_artifact r; j_ExpectedSHA256 := jr_sha256 r; j_ManifestPath := jr_manifest r;
                j_Operation := jr_operation r; j_Attempt := jr_attempts r + 1; j_Profile := profile;
                j_TargetCredential := credential; j_RollbackImages := imgs |} in
  _ ← lift (validateJob job);
  mret job.

(** [ORDER BY j.priority DESC, j.created_at ASC]. *)
Definition job_before (a b : string * job_row) : Prop :=
  jr_priority b.2 < jr_priority a.2 ∨ (jr_priority a.2 = jr_priority b.2 ∧ jr_created a.2 ≤ jr_created b.2).
#[export] Instance job_before_dec a b : Decision (job_before a b).
Proof. unfold job_before. apply _. Defined.

(** A queued job the Runner may take. *)
Definition eligible (s : PGStore) (n : Z) (t : tables) (skipped : gset string) (kj : string * job_row) : bool :=
  bool_decide (kj.1 ∉ skipped) && bool_decide (jr_status kj.2 = StatusQueued) && (jr_available kj.2 <=? n)
  && match runners t !! runnerIdentity s with
     | Some ru => ru_active ru && match ru_heartbeat ru with Some h => n - 60000 <=? h | None => false end
                  && forallb (λ l, bool_decide (l ∈ ru_labels ru)) (jr_labels kj.2)
     | None => false
     end.

(** The rejection of a job whose dependencies are unusable. *)
(* src: runner/internal/store/store.go:309-334 (PGStore).ClaimJob *)
Definition rejectJob (id : string) (dependencyErr : goerr) : M db goerr :=
  let failure := truncate (error_text dependencyErr) 4000 in
  let joined f e := Joined [dependencyErr; wrap f e] in
  _ ← wrapM (joined "fail invalid queued job: %w") (statement (λ n t, ((), set_jobs (alter (λ j,
        set_status StatusFailed (set_outcome (Some failure) (jr_started j) (Some n) (jr_attempts j) j)) id) t)));
  _ ← wrapM (joined "release invalid job lock: %w") (statement (λ _ t, ((), delete_locks id None t)));
  _ ← wrapM (joined "synchronize invalid release: %w") (statement (λ _ t, ((), sync_release id StatusFailed t)));
  mret (Wrapf "reject invalid queued job %s: %w" [FStr id] dependencyErr).

(** The transaction; [Err] inside [Ok] is an error returned after a commit.  The
    update of the status fires [release_job_status_sync], which copies it to the
    release; the other updates of a status are followed by the same copy. *)
(* src: runner/internal/store/store.go:221-351 (PGStore).ClaimJob *)
Definition claimTransaction (s : PGStore) (skipped : gset string) (lockRetry : Z) : M db (result Job) :=
  state ← wrapM (wrap "check runner state: %w") (query (λ n t, match runners t !! runnerIdentity s with
    | Some r => Some (ru_active r, match ru_heartbeat r with Some h => n - 60000 <=? h | None => false end)
    | None => None
    end));
  '(active, fresh_beat) ← lift (of_option (error_new "runner registration no longer exists") state);
  _ ← lift (fail_if (negb active) (Sentinel ErrInactive));
  _ ← lift (fail_if (negb fresh_beat) (Sentinel ErrNoJob));
  row ← wrapM (wrap "select queued job: %w") (query (λ n t,
    head (merge_sort job_before (filter (λ kj, eligible s n t skipped kj = true) (map_to_list (jobs t))))));
  '(id, r) ← lift (of_option (Sentinel ErrNoJob) row);
  inserted ← wrapM (wrap "acquire release lock: %w") (statement (λ n t, match locks t !! jr_lock_key r with
    | Some _ => (false, t)
    | None => (true, set_locks (insert (jr_lock_key r)
                        {| lo_job := id; lo_worker := workerID s; lo_heartbeat := n |}) t)
    end));
  if negb inserted then
    _ ← wrapM (wrap "defer lock-busy job: %w") (statement (λ n t,
          ((), set_jobs (alter (set_available (n + durationInterval lockRetry)) id) t)));
    mret (Err (Sentinel ErrLockBusy))
  else
    dependencies ← try (loadDependencies id r);
    match dependencies with
    | Err e => e' ← rejectJob id e; mret (Err e')
    | Ok job =>
        _ ← wrapM (wrap "mark job claimed: %w") (statement (λ n t, ((), sync_release id StatusValidating (set_jobs (alter (λ j,
              set_lease (Some (workerID s)) (Some n) (set_status StatusValidating
                (set_outcome None (Some (default n (jr_started j))) (jr_finished j) (j_Attempt job) j))) id) t))));
        mret (Ok job)
    end.

(** The commit's error, by what is committed: a claim, a deferral, a rejection. *)
(* src: runner/internal/store/store.go:286-346 (PGStore).ClaimJob *)
Definition claim_commit_error (r : result Job) (e : goerr) : goerr :=
  match r with
  | Ok _ => wrap "commit job claim: %w" e
  | Err (Wrapf _ _ dependencyErr) => Joined [dependencyErr; wrap "commit invalid queued job: %w" e]
  | Err _ => wrap "commit deferred job: %w" e
  end.

(* src: runner/internal/store/store.go:221-351 (PGStore).ClaimJob *)
Definition ClaimJob (s : PGStore) (skipped : gset string) (lockRetry : Z) : M db Job :=
  _ ← lift (fail_if (empty_str (runnerIdentity s)) (error_new "runner is not registered"));
  r ← transaction_with (wrap "begin claim transaction: %w") claim_commit_error (claimTransaction s skipped lockRetry);
  lift r.
End claim.

(** ** Operations of a lease holder *)
(* src: runner/internal/store/store.go:555-589 (PGStore).Heartbeat *)
Definition Heartbeat (s : PGStore) (jobID : string) : M db unit :=
  transaction (
    rows ← wrapM (wrap "heartbeat job: %w") (statement (λ n t,
      match owned jobID (workerID s) t with
      | Some j => (true, set_jobs (insert jobID (set_lease (jr_locked_by j) (Some n) j)) t)
      | None => (false, t)
      end));
    _ ← lift (fail_if (negb rows) (Sentinel ErrLostLease));
    rows ← wrapM (wrap "heartbeat release lock: %w") (statement (λ n t,
      (has_lock jobID (workerID s) t,
       set_locks (fmap (λ l, if lock_matches jobID (Some (workerID s)) l
                             then {| lo_job := lo_job l; lo_worker := lo_worker l; lo_heartbeat := n |} else l)) t)));
    _ ← lift (fail_if (negb rows) (Sentinel ErrLostLease));
    if empty_str (runnerIdentity s) then mret ()
    else wrapM (wrap "heartbeat runner inventory: %w") (statement (λ n t,
           ((), set_runners (alter (λ r, if ru_managed r then beat n r else r) (runnerIdentity s)) t)))).

(** The next identifier of the steps' sequence, and the next position. *)
Definition next_step_id (t : tables) : Z := 1 + map_fold (λ k _ z, k `max` z) 0 (steps t).
Definition next_step_order (jobID : string) (t : tables) : Z :=
  1 + map_fold (λ _ st z, if bool_decide (st_job st = jobID) then st_order st `max` z else z) 0 (steps t).

(* src: runner/internal/store/store.go:591-631 (PGStore).BeginStep *)
Definition BeginStep (s : PGStore) (jobID : string) (status : JobStatus) : M db Step :=
  transaction (
    rows ← wrapM (Wrapf "set job state %s: %w" [FStr (status_text status)]) (statement (λ _ t,
      match owned jobID (workerID s) t with
      | Some j => (true, set_jobs (insert jobID (set_status status j)) t)
      | None => (false, t)
      end));
    _ ← lift (fail_if (negb rows) (Sentinel ErrLostLease));
    _ ← wrapM (Wrapf "synchronize release state %s: %w" [FStr (status_text status)]) (statement (λ _ t, ((), sync_release jobID status t)));
    step ← wrapM (Wrapf "insert job step %s: %w" [FStr (status_text status)]) (statement (λ _ t,
      match jobs t !! jobID with
      | Some j =>
          let id := next_step_id t in
          let order := next_step_order jobID t in
          (Some {| step_ID := id; step_JobID := jobID; step_Name := status; step_Number := order |},
           set_steps (insert id {| st_job := jobID; st_attempt := jr_attempts j; st_order := order; st_name := status;
                                   st_status := StepRunning; st_exit := 0; st_message := None; st_metadata := ∅ |}) t)
      | None => (None, t)
      end));
    lift (of_option (Wrapf "insert job step %s: %w" [FStr (status_text status)] (Sentinel ErrNoRows)) step)).

(* src: runner/internal/store/store.go:703-712 executeLeaseMutation *)
Definition executeLeaseMutation (action : string) (f : Z → tables → bool * tables) : M db unit :=
  rows ← wrapM (Wrapf "%s: %w" [FStr action]) (statement f);
  lift (fail_if (negb rows) (Sentinel ErrLostLease)).

(** [locked_by = w AND status NOT IN terminal AND EXISTS lock]. *)
Definition leased (jobID worker : string) (t : tables) : bool :=
  match owned jobID worker t with Some _ => has_lock jobID worker t | None => false end.

Definition null_if_empty (s : string) : option string := if empty_str s then None else Some s.

(* src: runner/internal/store/store.go:643-654 finishStepSQL *)
Definition finishStepSQL (id : Z) (status : step_status) (r : StepResult) (jobID worker : string)
    (t : tables) : bool * tables :=
  match steps t !! id with
  | Some st =>
      if bool_decide (st_job st = jobID) && leased jobID worker t then
        (true, set_steps (insert id {| st_job := st_job st; st_attempt := st_attempt st; st_order := st_order st;
                 st_name := st_name st; st_status := status; st_exit := sr_ExitCode r;
                 st_message := null_if_empty (sr_Message r); st_metadata := default ∅ (sr_Metadata r) |}) t)
      else (false, t)
  | None => (false, t)
  end.

(* src: runner/internal/store/store.go:633-641 (PGStore).FinishStep *)
Definition FinishStep (s : PGStore) (step : Step) (success : bool) (r : StepResult) : M db unit :=
  pool (executeLeaseMutation ("finish job step " +:+ status_text (step_Name step))
    (λ _, finishStepSQL (step_ID step) (if success then StepSuccess else StepFailed) r (step_JobID step) (workerID s))).

(* src: runner/internal/store/store.go:661-674 appendLogSQL *)
Definition appendLogSQL (l : log_row) (worker : string) (t : tables) : bool * tables :=
  if leased (lg_job l) worker t && match steps t !! lg_step l with
                                   | Some st => bool_decide (st_job st = lg_job l) | None => false end
  then (true, set_logs (λ ls, ls ++ [l]) t) else (false, t).

(* src: runner/internal/store/store.go:656-659 (PGStore).AppendLog *)
Definition AppendLog (s : PGStore) (l : log_row) : M db unit :=
  pool (executeLeaseMutation "append job log" (λ _, appendLogSQL l (workerID s))).

(* src: runner/internal/store/store.go:682-697 recordImageSQL *)
Definition recordImageSQL (jobID worker : string) (i : ImageRecord) (t : tables) : bool * tables :=
  if leased jobID worker t then
    let digest := match null_if_empty (ir_Digest i) with
                  | Some d => Some d
                  | None => o ← images t !! (jobID, ir_FilePath i); im_digest o
                  end in
    (true, set_images (insert (jobID, ir_FilePath i)
      {| im_source := ir_SourceRef i; im_destination := ir_DestinationRef i; im_repository := ir_Repository i;
         im_tag := ir_Tag i; im_digest := digest |}) t)
  else (false, t).

(* src: runner/internal/store/store.go:676-680 (PGStore).RecordImage *)
Definition RecordImage (s : PGStore) (jobID : string) (i : ImageRecord) : M db unit :=
  pool (executeLeaseMutation "record release image" (λ _, recordImageSQL jobID (workerID s) i)).

(** The deployment basis of a finished job: itself for a deployment, the
    verified source for a manual rollback. *)
(* src: runner/internal/store/store.go:757-793 syncDeploymentHeadSQL *)
Definition syncDeploymentHeadSQL (jobID : string) (status : JobStatus) (t : tables) : bool * tables :=
  match j ← jobs t !! jobID; r ← releases t !! jr_release j; Some (j, r) with
  | Some (j, r) =>
      let basis :=
        if bool_decide (status = StatusSuccess ∧ jr_operation j = OperationDeploy)
        then Some {| hd_release := jr_release j; hd_job := jobID |}
        else if bool_decide (status = StatusRolledBack ∧ jr_operation j = OperationRollback) then
          source ← jr_rb_job j; source_release ← jr_rb_release j; sj ← jobs t !! source;
          if bool_decide (jr_release sj = source_release) && bool_decide (jr_operation sj = OperationDeploy)
             && bool_decide (jr_status sj = StatusSuccess)
          then Some {| hd_release := source_release; hd_job := source |} else None
        else None in
      match basis with
      | Some h => (true, set_heads (insert (re_application r, re_environment r) h) t)
      | None => (false, t)
      end
  | None => (false, t)
  end.

(* src: runner/internal/store/store.go:714-755 (PGStore).FinishJob *)
Definition FinishJob (s : PGStore) (jobID : string) (status : JobStatus) (failure : string) : M db unit :=
  _ ← lift (fail_if (negb (terminal status)) (Errorf "invalid terminal status %q" [FStr (status_text status)]));
  transaction (
    rows ← wrapM (wrap "finish job: %w") (statement (λ n t,
      match owned jobID (workerID s) t with
      | Some j => if has_lock jobID (workerID s) t
                  then (true, set_jobs (insert jobID (set_status status
                         (set_outcome (null_if_empty failure) (jr_started j) (Some n) (jr_attempts j) j))) t)
                  else (false, t)
      | None => (false, t)
      end));
    _ ← lift (fail_if (negb rows) (Sentinel ErrLostLease));
    _ ← wrapM (wrap "synchronize release terminal state: %w") (statement (λ _ t, ((), sync_release jobID status t)));
    _ ← (if bool_decide (status = StatusSuccess) || bool_decide (status = StatusRolledBack)
         then executeLeaseMutation "synchronize deployment head" (λ _, syncDeploymentHeadSQL jobID status)
         else mret ());
    wrapM (wrap "release deployment lock: %w") (statement (λ _ t,
      ((), delete_locks jobID (Some (workerID s)) t)))).
