(* ===== verification/Queue.v ===== *)
(** * The queue's abstract specification

    What the job tables promise to the Runners: a job is queued, running under
    one worker or done; a running job holds the lock of its target; a
    deployment head names a successful deployment.  [qstep] are the only
    changes; the operations of Store.v refine it (StoreProofs.v). *)
From S2P Require Import Prelude GoIO GoString Model Db Store.
From stdpp Require Import relations.

Inductive phase :=
  | Queued
  | Running (worker : option string)
  | Done (status : JobStatus).

#[export] Instance phase_eq_dec : EqDecision phase.
Proof. solve_decision. Defined.

Record qjob := QJob { q_phase : phase; q_key : string; q_operation : string; q_release : string }.
Definition with_phase (p : phase) (j : qjob) : qjob := QJob p (q_key j) (q_operation j) (q_release j).

Record queue := Queue {
  q_jobs : gmap string qjob;
  q_locks : gmap string (string * string);
  q_heads : gmap (string * string) head_row
}.

(** What a terminal status does to the heads. *)
Inductive head_change (q : queue) (id : string) (j : qjob) : JobStatus → gmap (string * string) head_row → Prop :=
  | head_failed : head_change q id j StatusFailed (q_heads q)
  | head_deployed k :
      q_operation j = OperationDeploy →
      head_change q id j StatusSuccess (<[k := {| hd_release := q_release j; hd_job := id |}]> (q_heads q))
  | head_rolled_back k src sj :
      q_operation j = OperationRollback → src ≠ id →
      q_jobs q !! src = Some sj → q_phase sj = Done StatusSuccess → q_operation sj = OperationDeploy →
      head_change q id j StatusRolledBack (<[k := {| hd_release := q_release sj; hd_job := src |}]> (q_heads q)).

Inductive qstep (q : queue) : queue → Prop :=
  | q_enqueue id j :
      q_jobs q !! id = None → q_phase j = Queued →
      qstep q (Queue (<[id := j]> (q_jobs q)) (q_locks q) (q_heads q))
  | q_claim id j w :
      q_jobs q !! id = Some j → q_phase j = Queued → q_locks q !! q_key j = None →
      qstep q (Queue (<[id := with_phase (Running (Some w)) j]> (q_jobs q)) (<[q_key j := (id, w)]> (q_locks q)) (q_heads q))
  | q_reject id j :
      q_jobs q !! id = Some j → q_phase j = Queued →
      qstep q (Queue (<[id := with_phase (Done StatusFailed) j]> (q_jobs q)) (q_locks q) (q_heads q))
  | q_finish id j w s hs :
      q_jobs q !! id = Some j → q_phase j = Running (Some w) → q_locks q !! q_key j = Some (id, w) →
      head_change q id j s hs →
      qstep q (Queue (<[id := with_phase (Done s) j]> (q_jobs q)) (delete (q_key j) (q_locks q)) hs)
  | q_expire id j w :
      q_jobs q !! id = Some j → q_phase j = Running w →
      qstep q (Queue (<[id := with_phase (Done StatusFailed) j]> (q_jobs q)) (delete (q_key j) (q_locks q)) (q_heads q)).

Record q_inv (q : queue) : Prop := {
  inv_lock k id w : q_locks q !! k = Some (id, w) →
    ∃ j, q_jobs q !! id = Some j ∧ q_key j = k ∧ q_phase j = Running (Some w);
  inv_running id j w : q_jobs q !! id = Some j → q_phase j = Running w →
    ∃ w', w = Some w' ∧ q_locks q !! q_key j = Some (id, w');
  inv_head k h : q_heads q !! k = Some h →
    ∃ j, q_jobs q !! hd_job h = Some j ∧ q_phase j = Done StatusSuccess
         ∧ q_operation j = OperationDeploy ∧ q_release j = hd_release h
}.

(** A lock belongs to one job, and a job to one lock. *)
Lemma lock_unique q id j k w :
  q_inv q → q_jobs q !! id = Some j → q_locks q !! k = Some (id, w) → k = q_key j.
Proof. intros Hq Hj Hl. destruct (inv_lock _ Hq _ _ _ Hl) as (j' & ? & ? & ?). by simplify_eq. Qed.

Lemma inv_enqueue q id j :
  q_inv q → q_jobs q !! id = None → q_phase j = Queued →
  q_inv (Queue (<[id := j]> (q_jobs q)) (q_locks q) (q_heads q)).
Proof.
  intros Hq Hid Hj. constructor; simpl.
  - intros k id' w Hl. destruct (inv_lock _ Hq _ _ _ Hl) as (j' & Hj' & ?). exists j'.
    rewrite lookup_insert_ne by congruence. done.
  - intros id' j' w Hj' Hp. apply lookup_insert_Some in Hj' as [[<- <-]|[? Hj']]; [congruence|].
    by eapply inv_running.
  - intros k h Hh. destruct (inv_head _ Hq _ _ Hh) as (j' & Hj' & ?). exists j'.
    rewrite lookup_insert_ne by congruence. done.
Qed.

Lemma inv_claim q id j w :
  q_inv q → q_jobs q !! id = Some j → q_phase j = Queued → q_locks q !! q_key j = None →
  q_inv (Queue (<[id := with_phase (Running (Some w)) j]> (q_jobs q)) (<[q_key j := (id, w)]> (q_locks q)) (q_heads q)).
Proof.
  intros Hq Hj Hp Hfree. constructor; simpl.
  - intros k id' w' Hl. apply lookup_insert_Some in Hl as [[<- [= <- <-]]|[Hk Hl]].
    + exists (with_phase (Running (Some w)) j). by rewrite lookup_insert_eq.
    + destruct (inv_lock _ Hq _ _ _ Hl) as (j' & Hj' & ? & ?). exists j'.
      rewrite lookup_insert_ne by congruence. done.
  - intros id' j' w' Hj' Hp'. apply lookup_insert_Some in Hj' as [[<- <-]|[Hne Hj']].
    + simpl in Hp'. simplify_eq. exists w. by rewrite lookup_insert_eq.
    + destruct (inv_running _ Hq _ _ _ Hj' Hp') as (w2 & -> & Hl). exists w2.
      split; [done|]. rewrite lookup_insert_ne by congruence. done.
  - intros k h Hh. destruct (inv_head _ Hq _ _ Hh) as (j' & Hj' & ? & ?). exists j'.
    rewrite lookup_insert_ne by congruence. done.
Qed.

Lemma inv_reject q id j :
  q_inv q → q_jobs q !! id = Some j → q_phase j = Queued →
  q_inv (Queue (<[id := with_phase (Done StatusFailed) j]> (q_jobs q)) (q_locks q) (q_heads q)).
Proof.
  intros Hq Hj Hp. constructor; simpl.
  - intros k id' w' Hl. destruct (inv_lock _ Hq _ _ _ Hl) as (j' & Hj' & ? & ?). exists j'.
    rewrite lookup_insert_ne by congruence. done.
  - intros id' j' w' Hj' Hp'. apply lookup_insert_Some in Hj' as [[<- <-]|[Hne Hj']]; [done|].
    by eapply inv_running.
  - intros k h Hh. destruct (inv_head _ Hq _ _ Hh) as (j' & Hj' & ? & ?). exists j'.
    rewrite lookup_insert_ne by congruence. done.
Qed.

Lemma inv_release q id j w s hs :
  q_inv q → q_jobs q !! id = Some j → q_phase j = Running w →
  (∀ k h, hs !! k = Some h →
     (hd_job h = id ∧ s = StatusSuccess ∧ q_operation j = OperationDeploy ∧ hd_release h = q_release j) ∨
     (hd_job h ≠ id ∧ ∃ sj, q_jobs q !! hd_job h = Some sj ∧ q_phase sj = Done StatusSuccess
        ∧ q_operation sj = OperationDeploy ∧ q_release sj = hd_release h)) →
  q_inv (Queue (<[id := with_phase (Done s) j]> (q_jobs q)) (delete (q_key j) (q_locks q)) hs).
Proof.
  intros Hq Hj Hp Hhs. constructor; simpl.
  - intros k id' w' [Hk Hl]%lookup_delete_Some. destruct (inv_lock _ Hq _ _ _ Hl) as (j' & Hj' & ? & ?).
    exists j'. rewrite lookup_insert_ne by congruence. done.
  - intros id' j' w' Hj' Hp'. apply lookup_insert_Some in Hj' as [[<- <-]|[Hne Hj']]; [done|].
    destruct (inv_running _ Hq _ _ _ Hj' Hp') as (w2 & -> & Hl). exists w2. split; [done|].
    rewrite lookup_delete_ne; [done|]. intros Hk. rewrite <- Hk in Hl.
    destruct (inv_running _ Hq _ _ _ Hj Hp) as (w3 & _ & Hl'). rewrite Hl in Hl'. congruence.
  - intros k h Hh. destruct (Hhs k h Hh) as [(-> & -> & Hop & Hre)|(Hne & sj & ? & ? & ? & ?)].
    + exists (with_phase (Done StatusSuccess) j). rewrite lookup_insert_eq. done.
    + exists sj. rewrite lookup_insert_ne by congruence. done.
Qed.

Lemma old_heads q id j w : q_inv q → q_jobs q !! id = Some j → q_phase j = Running w →
  ∀ k h, q_heads q !! k = Some h → hd_job h ≠ id ∧ ∃ sj, q_jobs q !! hd_job h = Some sj
    ∧ q_phase sj = Done StatusSuccess ∧ q_operation sj = OperationDeploy ∧ q_release sj = hd_release h.
Proof.
  intros Hq Hj Hp k h Hh. destruct (inv_head _ Hq _ _ Hh) as (sj & Hsj & Hs & ?).
  split; [congruence|]. by exists sj.
Qed.

Lemma qstep_inv q q' : q_inv q → qstep q q' → q_inv q'.
Proof.
  intros Hq Hs. destruct Hs as [id j Hid Hj|id j w Hid Hj Hl|id j Hid Hj|id j w s hs Hid Hj Hl Hh|id j w Hid Hj].
  - by apply inv_enqueue.
  - by apply inv_claim.
  - by apply inv_reject.
  - eapply inv_release; [done..|]. pose proof (old_heads q id j (Some w) Hq Hid Hj) as Hold.
    inversion Hh as [|k0 Hop|k0 src sj Hop Hne Hsj Hsp Hso]; subst.
    + intros k h Hk. right. by eapply Hold.
    + intros k h [[<- <-]|[_ Hk]]%lookup_insert_Some; [by left|right; by eapply Hold].
    + intros k h [[<- <-]|[_ Hk]]%lookup_insert_Some; [right|right; by eapply Hold].
      split; [done|]. by exists sj.
  - eapply inv_release; [done..|]. intros k h Hk. right. by eapply old_heads.
Qed.

Lemma qsteps_inv q q' : q_inv q → rtc qstep q q' → q_inv q'.
Proof. intros Hq Hs. induction Hs; eauto using qstep_inv. Qed.

(** Two running jobs never work on the same target. *)
Lemma running_exclusive q id1 id2 j1 j2 w1 w2 :
  q_inv q → q_jobs q !! id1 = Some j1 → q_jobs q !! id2 = Some j2 →
  q_phase j1 = Running w1 → q_phase j2 = Running w2 → q_key j1 = q_key j2 → id1 = id2.
Proof.
  intros Hq H1 H2 Hp1 Hp2 Hk.
  destruct (inv_running _ Hq _ _ _ H1 Hp1) as (? & _ & Hl1).
  destruct (inv_running _ Hq _ _ _ H2 Hp2) as (? & _ & Hl2).
  rewrite Hk in Hl1. congruence.
Qed.
