(* ===== verification/StoreProofs.v ===== *)
(** * The job store refines the queue (theorems about Store.v) *)
From S2P Require Import Prelude GoIO GoString Model OS Db Store Queue.
From stdpp Require Import relations.

(** ** Abstraction *)
Definition abs_phase (j : job_row) : phase :=
  match jr_status j with
  | StatusQueued => Queued
  | StatusSuccess | StatusFailed | StatusRolledBack => Done (jr_status j)
  | _ => Running (jr_locked_by j)
  end.
Definition abs_job (j : job_row) : qjob :=
  QJob (abs_phase j) (jr_lock_key j) (jr_operation j) (jr_release j).
Definition abs_lock (l : lock_row) : string * string := (lo_job l, lo_worker l).
Definition abs (t : tables) : queue := Queue (abs_job <$> jobs t) (abs_lock <$> locks t) (heads t).

(** A queued job has no owner. *)
Definition queued_unlocked (t : tables) : Prop :=
  ∀ id j, jobs t !! id = Some j → jr_status j = StatusQueued → jr_locked_by j = None.

Record tables_inv (t : tables) : Prop := {
  ti_queue : q_inv (abs t);
  ti_queued : queued_unlocked t
}.

(** A finished job's row is never touched again. *)
Definition keeps_terminal (t t' : tables) : Prop :=
  ∀ id j, jobs t !! id = Some j → terminal (jr_status j) = true → jobs t' !! id = Some j.

Record ok_step (t t' : tables) : Prop := {
  os_refines : rtc qstep (abs t) (abs t');
  os_queued : queued_unlocked t';
  os_terminal : keeps_terminal t t'
}.

Lemma ok_refl t : tables_inv t → ok_step t t.
Proof. intros [_ Hq]. constructor; [done|done|by intros id j]. Qed.

Lemma ok_inv t t' : tables_inv t → ok_step t t' → tables_inv t'.
Proof. intros [Hq _] [Hr Hu _]. constructor; [by eapply qsteps_inv|done]. Qed.

Lemma ok_trans t1 t2 t3 : ok_step t1 t2 → ok_step t2 t3 → ok_step t1 t3.
Proof.
  intros [H1 _ K1] [H2 U2 K2]. constructor; [by etrans|done|].
  intros id j Hj Ht. apply K2; [by apply K1|done].
Qed.

(** Tables that differ outside jobs, locks and heads. *)
Definition same_queue (t t' : tables) : Prop :=
  jobs t' = jobs t ∧ abs_lock <$> locks t' = abs_lock <$> locks t ∧ heads t' = heads t.

Lemma ok_frame t t1 t2 : ok_step t t1 → same_queue t1 t2 → ok_step t t2.
Proof.
  intros [Hr Hu Hk] (Hj & Hl & Hh).
  assert (abs t2 = abs t1) as Heq by (unfold abs; by rewrite Hj, Hl, Hh).
  constructor; [by rewrite Heq| |].
  - intros id j. rewrite Hj. apply Hu.
  - intros id j. rewrite Hj. apply Hk.
Qed.

Lemma same_queue_refl t : same_queue t t.
Proof. done. Qed.

Lemma same_queue_sync id s t : same_queue t (sync_release id s t).
Proof. unfold sync_release. by destruct (jobs t !! id). Qed.

Lemma abs_jobs_lookup t id j : jobs t !! id = Some j → q_jobs (abs t) !! id = Some (abs_job j).
Proof. intros Hj. simpl. by rewrite lookup_fmap, Hj. Qed.

(** One job row changes. *)
Definition put_job (id : string) (j : job_row) (t : tables) : tables := set_jobs (insert id j) t.

Lemma abs_put_job id j t : abs (put_job id j t) = Queue (<[id := abs_job j]> (q_jobs (abs t))) (q_locks (abs t)) (heads t).
Proof. unfold abs. simpl. by rewrite fmap_insert. Qed.

Lemma keeps_put id j j' t :
  jobs t !! id = Some j → terminal (jr_status j) = false → keeps_terminal t (put_job id j' t).
Proof.
  intros Hj Ht id2 j2 Hj2 Ht2. simpl. destruct (decide (id = id2)) as [<-|Hne]; [congruence|].
  by rewrite lookup_insert_ne.
Qed.

Lemma queued_put id j t :
  queued_unlocked t → (jr_status j = StatusQueued → jr_locked_by j = None) → queued_unlocked (put_job id j t).
Proof.
  intros Hq Hj id2 j2 Hj2. simpl in Hj2. apply lookup_insert_Some in Hj2 as [[<- <-]|[_ Hj2]]; [done|].
  by apply (Hq id2).
Qed.

(** A row changes in columns the queue does not see. *)
Lemma ok_update id j j' t :
  tables_inv t → jobs t !! id = Some j → terminal (jr_status j) = false →
  abs_job j' = abs_job j → (jr_status j' = StatusQueued → jr_locked_by j' = None) →
  ok_step t (put_job id j' t).
Proof.
  intros [_ Hq] Hj Ht Habs Hu. constructor.
  - rewrite abs_put_job, Habs. rewrite insert_id by (by apply abs_jobs_lookup). apply rtc_refl.
  - by apply queued_put.
  - by eapply keeps_put.
Qed.

Lemma alter_known {A} (f : A → A) (m : gmap string A) i x : m !! i = Some x → alter f i m = <[i := f x]> m.
Proof.
  intros Hx. apply map_eq. intros k. destruct (decide (i = k)) as [<-|Hne].
  - by rewrite lookup_alter_eq, lookup_insert_eq, Hx.
  - by rewrite lookup_alter_ne, lookup_insert_ne.
Qed.

Lemma owned_Some id w t j :
  owned id w t = Some j → jobs t !! id = Some j ∧ jr_locked_by j = Some w ∧ terminal (jr_status j) = false.
Proof.
  unfold owned. destruct (jobs t !! id) as [j'|]; [|done].
  destruct (bool_decide (jr_locked_by j' = Some w)) eqn:E; simpl; [|done].
  destruct (terminal (jr_status j')) eqn:Et; simpl; [done|]. intros [= <-].
  by apply bool_decide_eq_true in E.
Qed.

Lemma running_phase j : terminal (jr_status j) = false → jr_status j ≠ StatusQueued → abs_phase j = Running (jr_locked_by j).
Proof. unfold abs_phase. by destruct (jr_status j). Qed.

(** An owned job runs. *)
Lemma owned_running id w t j :
  tables_inv t → owned id w t = Some j → abs_phase j = Running (Some w) ∧ jr_status j ≠ StatusQueued.
Proof.
  intros [_ Hu] (Hj & Hl & Ht)%owned_Some.
  assert (jr_status j ≠ StatusQueued) as Hs by (intros Hs; specialize (Hu id j Hj Hs); congruence).
  split; [|done]. rewrite running_phase by done. by rewrite Hl.
Qed.

Lemma has_lock_ok id w t : has_lock id w t = true ↔ ∃ k l, locks t !! k = Some l ∧ lo_job l = id ∧ lo_worker l = w.
Proof.
  unfold has_lock, lock_matches. rewrite existsb_In. split.
  - intros ([k l] & Hk & Hm). apply elem_of_map_to_list in Hk. simpl in Hm.
    apply andb_true_iff in Hm as [?%bool_decide_eq_true ?%bool_decide_eq_true]. eauto.
  - intros (k & l & Hk & <- & <-). exists (k, l). rewrite elem_of_map_to_list. split; [done|].
    simpl. by rewrite !bool_decide_true.
Qed.

Lemma abs_locks_lookup t k l : locks t !! k = Some l → q_locks (abs t) !! k = Some (lo_job l, lo_worker l).
Proof. intros Hl. simpl. by rewrite lookup_fmap, Hl. Qed.

(** Deleting the locks of a running job frees its target and nothing else. *)
Lemma delete_locks_running id j w t :
  q_inv (abs t) → jobs t !! id = Some j → (∃ w', abs_phase j = Running w') →
  (match w with Some w => abs_phase j = Running (Some w) | None => True end) →
  abs_lock <$> locks (delete_locks id w t) = delete (jr_lock_key j) (q_locks (abs t)).
Proof.
  intros Hq Hj [w' Hw'] Hw. apply map_eq. intros k. simpl.
  destruct (inv_running _ Hq id (abs_job j) w' (abs_jobs_lookup _ _ _ Hj) Hw') as (w2 & -> & Hl). simpl in Hl.
  rewrite lookup_fmap. destruct (decide (jr_lock_key j = k)) as [<-|Hne].
  - rewrite lookup_delete_eq. rewrite lookup_fmap in Hl.
    destruct (locks t !! jr_lock_key j) as [l|] eqn:E; [|done]. simpl in Hl. injection Hl as Hj1 Hj2.
    assert (filter (λ kl : string * lock_row, lock_matches id w kl.2 = false) (locks t) !! jr_lock_key j = None) as ->; [|done].
    apply map_lookup_filter_None. right. intros l' Hl' Hm. rewrite E in Hl'. injection Hl' as <-. simpl in Hm. unfold lock_matches in Hm.
    rewrite Hj1, bool_decide_true in Hm by done. destruct w as [w|]; [|done].
    rewrite bool_decide_true in Hm by congruence. done.
  - rewrite lookup_delete_ne by done. rewrite lookup_fmap. f_equal.
    destruct (locks t !! k) as [l|] eqn:E.
    + apply map_lookup_filter_Some. split; [done|]. simpl. unfold lock_matches.
      destruct (bool_decide (lo_job l = id)) eqn:Ej; [|done]. apply bool_decide_eq_true in Ej. exfalso. apply Hne.
      symmetry. apply (lock_unique (abs t) id (abs_job j) k (lo_worker l) Hq (abs_jobs_lookup _ _ _ Hj)).
      rewrite <- Ej. by apply abs_locks_lookup.
    + apply map_lookup_filter_None. by left.
Qed.

(** A job without a lock loses nothing. *)
Lemma delete_locks_queued id j k l t :
  q_inv (abs t) → jobs t !! id = Some j → abs_phase j = Queued → locks t !! k = None → lo_job l = id →
  filter (λ kl : string * lock_row, lock_matches id None kl.2 = false) (<[k := l]> (locks t)) = locks t.
Proof.
  intros Hq Hj Hp Hk Hl. apply map_eq. intros k'. destruct (decide (k = k')) as [<-|Hne].
  - rewrite Hk. apply map_lookup_filter_None. right. intros l' Hl'. rewrite lookup_insert_eq in Hl'. simplify_eq.
    simpl. unfold lock_matches. by rewrite bool_decide_true.
  - destruct (locks t !! k') as [l'|] eqn:E.
    + apply map_lookup_filter_Some. rewrite lookup_insert_ne by done. split; [done|]. simpl. unfold lock_matches.
      destruct (bool_decide (lo_job l' = id)) eqn:Ej; [|done]. apply bool_decide_eq_true in Ej.
      destruct (inv_lock _ Hq k' (lo_job l') (lo_worker l') (abs_locks_lookup _ _ _ E)) as (j' & Hj' & _ & Hp').
      rewrite Ej, (abs_jobs_lookup _ _ _ Hj) in Hj'. simplify_eq. simpl in Hp'. congruence.
    + apply map_lookup_filter_None. left. by rewrite lookup_insert_ne.
Qed.

(** ** Every operation is a sequence of queue steps *)
Definition db_ok {A} (m : M db A) : Prop := ∀ w, tables_inv (tabs w) → ok_step (tabs w) (tabs (m w).2).

Lemma db_ok_unchanged {A} (m : M db A) : (∀ w, tabs (m w).2 = tabs w) → db_ok m.
Proof. intros Hm w Hw. rewrite Hm. by apply ok_refl. Qed.

Lemma db_ok_transaction {A} b c (body : M db A) :
  (∀ w a w1, tables_inv (tabs w) → body w = (Ok a, w1) → ok_step (tabs w) (tabs w1)) →
  db_ok (transaction_with b c body).
Proof.
  intros Hb w Hw. destruct (transaction_with b c body w) as [r w'] eqn:E.
  destruct (transaction_cases _ _ _ _ _ _ E) as [[Ht _]|(a & w1 & _ & Hr & Ht & _)]; simpl; rewrite Ht.
  - by apply ok_refl.
  - by apply (Hb (ticked_db (tabs w) false w) a).
Qed.

Lemma db_ok_bind_lift {A B} (r : result A) (f : A → M db B) : (∀ a, db_ok (f a)) → db_ok (lift r ≫= f).
Proof. intros Hf w Hw. unfold lift, mbind, M_bind. destruct r as [a|e]; [by apply Hf|by apply ok_refl]. Qed.

Lemma db_ok_bind_after {A B} (m : M db A) (f : A → result B) : db_ok m → db_ok (a ← m; lift (f a)).
Proof.
  intros Hm w Hw. specialize (Hm w Hw). unfold mbind, M_bind, lift in *. by destruct (m w) as [[a|e] w'].
Qed.

(** A statement outside the queue's columns. *)
Lemma same_queue_ok t t' : tables_inv t → same_queue t t' → ok_step t t'.
Proof. intros Ht. apply ok_frame. by apply ok_refl. Qed.

Lemma db_ok_pool {A} g (f : Z → tables → A * tables) :
  (∀ n t, tables_inv t → ok_step t (f n t).2) → db_ok (wrapM g (pool (statement f))).
Proof.
  intros Hf w Hw. rewrite wrapM_tabs, pool_run.
  destruct (statement_tabs f (ticked_db (tabs w) false w)) as [-> | ->]; [by apply ok_refl|]. by apply Hf.
Qed.

Lemma db_ok_lease g (f : Z → tables → bool * tables) :
  (∀ n t, tables_inv t → ok_step t (f n t).2) → db_ok (pool (executeLeaseMutation g f)).
Proof.
  intros Hf w Hw. rewrite pool_run. unfold executeLeaseMutation.
  set (w0 := ticked_db (tabs w) false w).
  assert (tabs ((rows ← wrapM (Wrapf "%s: %w" [FStr g]) (statement f); lift (fail_if (negb rows) (Sentinel ErrLostLease))) w0).2
          = tabs (statement f w0).2) as ->.
  { unfold mbind, M_bind, lift, wrapM. by destruct (statement f w0) as [[[]|] ?]. }
  destruct (statement_tabs f w0) as [-> | ->]; [by apply ok_refl|]. by apply Hf.
Qed.

(** ** Recovery *)

(** The tables after a stale job is failed. *)
Definition failed_row (n : Z) (j : job_row) : job_row :=
  set_lease None (jr_heartbeat j) (set_status StatusFailed
    (set_outcome (Some "runner lease expired; manual retry required") (jr_started j) (Some n) (jr_attempts j) j)).

Lemma jobs_sync id s t : jobs (sync_release id s t) = jobs t.
Proof. unfold sync_release. by destruct (jobs t !! id). Qed.
Lemma locks_sync id s t : locks (sync_release id s t) = locks t.
Proof. unfold sync_release. by destruct (jobs t !! id). Qed.
Lemma heads_sync id s t : heads (sync_release id s t) = heads t.
Proof. unfold sync_release. by destruct (jobs t !! id). Qed.

(** A running job ends: its row is [j'], its locks and the heads are as given. *)
Lemma abs_release id j j' s w wk hs t t' :
  q_inv (abs t) → jobs t !! id = Some j → abs_phase j = Running w →
  match wk with Some wk => abs_phase j = Running (Some wk) | None => True end →
  jobs t' = <[id := j']> (jobs t) → locks t' = locks (delete_locks id wk t) → heads t' = hs →
  abs_job j' = with_phase (Done s) (abs_job j) →
  abs t' = Queue (<[id := with_phase (Done s) (abs_job j)]> (q_jobs (abs t)))
                 (delete (q_key (abs_job j)) (q_locks (abs t))) hs.
Proof.
  intros Hq Hj Hp Hw Hjs Hls Hhs Habs. unfold abs at 1. rewrite Hjs, Hls, Hhs, fmap_insert, Habs.
  by rewrite (delete_locks_running id j wk t) by eauto.
Qed.

(** What the queue sees of such an end. *)
Lemma ended_ok id j j' t t' :
  tables_inv t → jobs t !! id = Some j → terminal (jr_status j) = false →
  jobs t' = <[id := j']> (jobs t) → terminal (jr_status j') = true → rtc qstep (abs t) (abs t') → ok_step t t'.
Proof.
  intros [_ Hu] Hj Ht Hjs Ht' Hr. constructor; [done|..].
  - intros id2 j2. rewrite Hjs. intros [[<- <-]|[_ Hj2]]%lookup_insert_Some Hs; [by rewrite Hs in Ht'|by apply (Hu id2)].
  - intros id2 j2 Hj2 Ht2. rewrite Hjs. rewrite lookup_insert_ne; [done|]. congruence.
Qed.

Lemma running_not s : running s = true → terminal s = false ∧ s ≠ StatusQueued.
Proof. by destruct s. Qed.

Lemma failStaleJob_run id j w u w1 :
  jobs (tabs w) !! id = Some j → failStaleJob id w = (Ok u, w1) →
  now w1 = now w ∧ jobs (tabs w1) = <[id := failed_row (now w) j]> (jobs (tabs w))
  ∧ locks (tabs w1) = locks (delete_locks id None (tabs w)) ∧ heads (tabs w1) = heads (tabs w)
  ∧ releases (tabs w1) = alter (set_release_status (status_text StatusFailed)) (jr_release j) (releases (tabs w)).
Proof.
  intros Hj H. unfold failStaleJob in H. inv_run H.
  apply statement_run in Hrun as (_ & Ht1 & Hn1 & _). apply statement_run in Hrun0 as (_ & Ht2 & Hn2 & _).
  apply statement_run in H as (_ & Ht3 & Hn3 & _). simpl in *.
  rewrite Ht3, jobs_sync, locks_sync, heads_sync, Ht2. unfold sync_release. simpl. rewrite Ht1. simpl.
  rewrite (alter_known _ _ _ _ Hj), lookup_insert_eq. simpl. split_and!; [congruence|done..].
Qed.

Lemma failStaleJob_ok id j w u w1 :
  tables_inv (tabs w) → jobs (tabs w) !! id = Some j → running (jr_status j) = true →
  failStaleJob id w = (Ok u, w1) → ok_step (tabs w) (tabs w1).
Proof.
  intros Hw Hj [Ht Hs]%running_not H. destruct (failStaleJob_run _ _ _ _ _ Hj H) as (_ & Hjs & Hls & Hhs & _).
  pose proof (running_phase j Ht Hs) as Hp. eapply ended_ok; [done|done|done|done|done|].
  apply rtc_once. rewrite (abs_release id j (failed_row (now w) j) StatusFailed (jr_locked_by j) None (heads (tabs w)) (tabs w) (tabs w1));
    [|by destruct Hw|done..].
  by apply (q_expire (abs (tabs w)) id (abs_job j) (jr_locked_by j)); [apply abs_jobs_lookup|].
Qed.

Lemma failStaleJobs_ok ids w u w1 :
  tables_inv (tabs w) → NoDup ids →
  Forall (λ id, ∃ j, jobs (tabs w) !! id = Some j ∧ running (jr_status j) = true) ids →
  iterM failStaleJob ids w = (Ok u, w1) → ok_step (tabs w) (tabs w1).
Proof.
  revert w. induction ids as [|id ids IH]; intros w Hw Hnd Hall H; simpl in H; [by injection H as _ <-; apply ok_refl|].
  inv_run H. apply NoDup_cons in Hnd as [Hnin Hnd]. apply Forall_cons in Hall as [(j & Hj & Hr) Hall].
  pose proof (failStaleJob_ok _ _ _ _ _ Hw Hj Hr Hrun) as Hok. apply (ok_trans _ _ _ Hok).
  apply IH; [by eapply ok_inv|done| |done].
  destruct (failStaleJob_run _ _ _ _ _ Hj Hrun) as (_ & Hjs & _). rewrite Hjs.
  rewrite Forall_forall in Hall |- *. intros id' Hid'. rewrite lookup_insert_ne by congruence. by apply Hall.
Qed.

(** The stale jobs of the tables. *)
Definition stale_ids (skipped : gset string) (limit n : Z) (t : tables) : list string :=
  (filter (λ kj : string * job_row, stale n limit kj.2 = true ∧ kj.1 ∉ skipped) (map_to_list (jobs t))).*1.

Lemma elem_of_stale_ids skipped limit n t id :
  id ∈ stale_ids skipped limit n t ↔ ∃ j, jobs t !! id = Some j ∧ stale n limit j = true ∧ id ∉ skipped.
Proof.
  unfold stale_ids. rewrite list_elem_of_fmap. split.
  - intros ([k j] & -> & [[Hs Hk] Hin]%list_elem_of_filter). exists j. by apply elem_of_map_to_list in Hin.
  - intros (j & Hj & Hs & Hk). exists (id, j). split; [done|]. apply list_elem_of_filter. split; [done|].
    by apply elem_of_map_to_list.
Qed.

Lemma stale_ids_NoDup skipped limit n t : NoDup (stale_ids skipped limit n t).
Proof.
  unfold stale_ids. eapply sublist_NoDup; [apply (NoDup_fst_map_to_list (jobs t))|]. apply fmap_sublist, sublist_filter.
Qed.

Lemma RecoverStaleJobs_ok skipped d : db_ok (RecoverStaleJobs skipped d).
Proof.
  unfold RecoverStaleJobs. apply db_ok_bind_lift. intros _. apply db_ok_transaction. intros w a w1 Hw H. inv_run H.
  apply query_run in Hrun as (-> & Ht & Hn & _). simplify_eq. rewrite <- Ht in Hw |- *. injection H as _ <-.
  eapply failStaleJobs_ok; [done|apply stale_ids_NoDup| |done].
  apply Forall_forall. intros id (j & Hj & Hs & _)%elem_of_stale_ids. exists j. rewrite Ht. split; [done|].
  unfold stale in Hs. by apply andb_true_iff in Hs as [? _].
Qed.

(** ** The operations of a lease holder *)
Lemma owned_update id w t j j' :
  tables_inv t → owned id w t = Some j → abs_job j' = abs_job j → jr_status j' ≠ StatusQueued →
  ok_step t (put_job id j' t).
Proof.
  intros Ht Ho Ha Hs. destruct (owned_Some _ _ _ _ Ho) as (Hj & _ & Hnt). by eapply ok_update.
Qed.

Lemma lease_frame f jobID w t :
  (∀ u, leased jobID w t = true → same_queue t (f u)) → leased jobID w t = true → same_queue t (f t).
Proof. eauto. Qed.

Lemma Heartbeat_ok s id : db_ok (Heartbeat s id).
Proof.
  apply db_ok_transaction. intros w u w1 Hw H. inv_run H.
  apply statement_run in Hrun as (Hx & Ht & _). apply statement_run in Hrun1 as (_ & Ht1 & _).
  destruct (owned id (workerID s) (tabs w)) as [j|] eqn:Ho; simpl in Hx, Ht; [|by subst].
  assert (ok_step (tabs w) (tabs w0)) as Hok.
  { rewrite Ht. eapply owned_update; [done|done|done|]. by destruct (owned_running _ _ _ _ Hw Ho). }
  apply (ok_frame _ _ _ Hok).
  assert (same_queue (tabs w0) (tabs w2)) as Hsq.
  { rewrite Ht1. split_and!; [done| |done]. simpl. rewrite <- map_fmap_compose. apply map_fmap_ext.
    intros k l _. simpl. by destruct (lock_matches id _ l). }
  destruct (empty_str (runnerIdentity s)).
  - by injection H as _ <-.
  - inv_run H. apply statement_run in H as (_ & -> & _). done.
Qed.

Lemma BeginStep_ok s id status : running status = true → db_ok (BeginStep s id status).
Proof.
  intros [Hnt Hnq]%running_not. apply db_ok_transaction. intros w u w1 Hw H. inv_run H.
  apply statement_run in Hrun as (Hx & Ht & _). apply statement_run in Hrun1 as (_ & Ht1 & _).
  apply statement_run in Hrun2 as (_ & Ht2 & _).
  destruct (owned id (workerID s) (tabs w)) as [j|] eqn:Ho; simpl in Hx, Ht; [|by subst].
  assert (ok_step (tabs w) (tabs w0)) as Hok.
  { rewrite Ht. eapply owned_update; [done|done| |done].
    unfold abs_job. simpl. f_equal. destruct (owned_running _ _ _ _ Hw Ho) as [-> _].
    rewrite running_phase by done. simpl. apply owned_Some in Ho as (_ & Hl & _). by rewrite Hl. }
  simpl in Ht1. apply (ok_frame _ _ _ Hok). rewrite Ht2. pose proof (same_queue_sync id status (tabs w0)) as Hs. rewrite <- Ht1 in Hs.
  by destruct (jobs (tabs w2) !! id).
Qed.

Lemma FinishStep_ok s step success r : db_ok (FinishStep s step success r).
Proof.
  apply db_ok_lease. intros n t Ht. apply same_queue_ok; [done|]. unfold finishStepSQL.
  destruct (steps t !! step_ID step); [|done]. by destruct (_ && _).
Qed.
Lemma AppendLog_ok s l : db_ok (AppendLog s l).
Proof.
  apply db_ok_lease. intros n t Ht. apply same_queue_ok; [done|]. unfold appendLogSQL. by destruct (_ && _).
Qed.
Lemma RecordImage_ok s id i : db_ok (RecordImage s id i).
Proof.
  apply db_ok_lease. intros n t Ht. apply same_queue_ok; [done|]. unfold recordImageSQL. by destruct (leased _ _ _).
Qed.
Lemma RegisterRunner_ok s uuid i n a : db_ok (RegisterRunner s uuid i n a).
Proof.
  unfold RegisterRunner. do 2 (apply db_ok_bind_lift; intros _).
  apply (db_ok_bind_after _ (λ active, Ok (active, _))). apply db_ok_pool. intros m t Ht. by apply same_queue_ok.
Qed.
Lemma HeartbeatRunner_ok s : db_ok (HeartbeatRunner s).
Proof.
  unfold HeartbeatRunner. apply db_ok_bind_lift; intros _. apply db_ok_bind_after, db_ok_pool.
  intros m t Ht. apply same_queue_ok; [done|]. destruct (runners t !! runnerIdentity s) as [r|]; [|done].
  by destruct (ru_managed r).
Qed.

(** *** Finishing a job *)
Definition finished_row (status : JobStatus) (failure : string) (n : Z) (j : job_row) : job_row :=
  set_status status (set_outcome (null_if_empty failure) (jr_started j) (Some n) (jr_attempts j) j).

Lemma sync_head_frame id status t :
  let t' := (syncDeploymentHeadSQL id status t).2 in jobs t' = jobs t ∧ locks t' = locks t ∧ releases t' = releases t.
Proof. unfold syncDeploymentHeadSQL. by repeat case_match. Qed.

Lemma FinishJob_run s id status failure w u w1 :
  FinishJob s id status failure w = (Ok u, w1) →
  terminal status = true ∧ has_lock id (workerID s) (tabs w) = true
  ∧ ∃ j n, owned id (workerID s) (tabs w) = Some j ∧ jobs (tabs w1) = <[id := finished_row status failure n j]> (jobs (tabs w))
  ∧ locks (tabs w1) = locks (delete_locks id (Some (workerID s)) (tabs w))
  ∧ let t1 := sync_release id status (put_job id (finished_row status failure n j) (tabs w)) in
    releases (tabs w1) = releases t1
    ∧ heads (tabs w1) = (if bool_decide (status = StatusSuccess) || bool_decide (status = StatusRolledBack)
                         then heads (syncDeploymentHeadSQL id status t1).2 else heads (tabs w))
    ∧ (status = StatusSuccess ∨ status = StatusRolledBack → (syncDeploymentHeadSQL id status t1).1 = true).
Proof.
  intros H. unfold FinishJob in H. inv_run H. apply negb_false_iff in Hrun. split; [done|].
  destruct (transaction_cases _ _ _ _ _ _ H) as [[_ [e [=]]]|(a & w2 & _ & Hr & -> & _)]. clear H. inv_run Hr.
  apply statement_run in Hrun0 as (Hx & Ht & _). simpl in Hx, Ht.
  destruct (owned id (workerID s) (tabs w)) as [j|] eqn:Ho; [|by subst].
  destruct (has_lock id (workerID s) (tabs w)) eqn:Hl; simpl in Hx, Ht; [|by subst]. split; [done|].
  exists j, (now w). split; [done|]. apply statement_run in Hrun2 as (_ & Ht1 & _). simpl in Ht1. rewrite Ht in Ht1.
  apply statement_run in Hr as (_ & Ht3 & _). simpl in Ht3. rewrite Ht3. simpl.
  destruct (bool_decide (status = StatusSuccess) || bool_decide (status = StatusRolledBack)) eqn:Es.
  - apply bindM_ok in Hrun3 as (x5 & w5 & Hs%wrapM_ok & [Hf%fail_if_ok ->]%liftM_ok).
    apply statement_run in Hs as (Hx5 & Ht2 & _). simpl in Hx5, Ht2.
    destruct (sync_head_frame id status (tabs w3)) as (Hj & Hl' & Hr').
    rewrite Ht2, Hj, Hl', Hr'. rewrite Ht1 in *. rewrite jobs_sync, locks_sync. subst x5. apply negb_false_iff in Hf. done.
  - injection Hrun3 as _ <-. rewrite Ht1, jobs_sync, locks_sync, heads_sync.
    split_and!; [done..|]. by intros [-> | ->].
Qed.

Lemma transaction_err {A} b c (body : M db A) w e w' :
  transaction_with b c body w = (Err e, w') → tabs w' = tabs w.
Proof. intros H. destruct (transaction_cases _ _ _ _ _ _ H) as [[? _]|(? & ? & ? & _)]; done. Qed.

Lemma abs_heads t : heads t = q_heads (abs t).
Proof. done. Qed.

(** The head a successful terminal job writes. *)
Lemma sync_head_ok id status t :
  (syncDeploymentHeadSQL id status t).1 = true →
  ∃ j k h, jobs t !! id = Some j ∧ heads (syncDeploymentHeadSQL id status t).2 = <[k := h]> (heads t) ∧
    ((status = StatusSuccess ∧ jr_operation j = OperationDeploy ∧ h = {| hd_release := jr_release j; hd_job := id |}) ∨
     (status = StatusRolledBack ∧ jr_operation j = OperationRollback ∧
      ∃ src sj, jobs t !! src = Some sj ∧ jr_operation sj = OperationDeploy ∧ jr_status sj = StatusSuccess
                ∧ h = {| hd_release := jr_release sj; hd_job := src |})).
Proof.
  unfold syncDeploymentHeadSQL. destruct (jobs t !! id) as [j|] eqn:Hj; [simpl|done].
  destruct (releases t !! jr_release j) as [r|]; [simpl|done]. intros H.
  lazymatch type of H with context [match ?b with Some _ => _ | None => _ end] => destruct b as [h|] eqn:Eb; [|done] end.
  exists j, (re_application r, re_environment r), h. split_and!; [done..|]. clear H.
  case_bool_decide as Hd; [left; destruct Hd; naive_solver|]. case_bool_decide as Hd2; [right|done].
  destruct Hd2 as [-> Hop]. split_and!; [done..|].
  destruct (jr_rb_job j) as [src|]; simpl in Eb; [|done]. destruct (jr_rb_release j) as [srel|]; simpl in Eb; [|done].
  destruct (jobs t !! src) as [sj|] eqn:Esj; simpl in Eb; [|done]. exists src, sj.
  repeat case_bool_decide; simpl in Eb; simplify_eq; done.
Qed.

(** The heads a finished job leaves. *)
Lemma finished_heads id status failure n j t w :
  tables_inv t → owned id w t = Some j → terminal status = true →
  let t1 := sync_release id status (put_job id (finished_row status failure n j) t) in
  (status = StatusSuccess ∨ status = StatusRolledBack → (syncDeploymentHeadSQL id status t1).1 = true) →
  head_change (abs t) id (abs_job j) status
    (if bool_decide (status = StatusSuccess) || bool_decide (status = StatusRolledBack)
     then heads (syncDeploymentHeadSQL id status t1).2 else heads t).
Proof.
  intros Ht Ho Hst t1 Hok. destruct (owned_Some _ _ _ _ Ho) as (Hj & _ & _).
  destruct (bool_decide (status = StatusSuccess) || bool_decide (status = StatusRolledBack)) eqn:Es.
  2: { destruct status; try done. constructor. }
  destruct (sync_head_ok _ _ _ (Hok ltac:(by destruct status; auto))) as (j1 & k & h & Hj1 & -> & Hcase).
  unfold t1 in Hj1, Hcase |- *. rewrite heads_sync. rewrite jobs_sync in Hj1, Hcase. simpl in *.
  rewrite lookup_insert_eq in Hj1. injection Hj1 as <-. simpl in Hcase. rewrite abs_heads.
  destruct Hcase as [(-> & Hop & ->)|(-> & Hop & src & sj & Hsj & Hsop & Hss & ->)].
  - by apply (head_deployed (abs t) id (abs_job j)).
  - assert (src ≠ id) as Hne.
    { intros ->. rewrite lookup_insert_eq in Hsj. injection Hsj as <-. simpl in Hsop. by rewrite Hop in Hsop. }
    rewrite lookup_insert_ne in Hsj by done.
    apply (head_rolled_back (abs t) id (abs_job j) k src (abs_job sj)); [done|done|by apply abs_jobs_lookup| |done].
    simpl. unfold abs_phase. by rewrite Hss.
Qed.

Lemma FinishJob_ok s id status failure : db_ok (FinishJob s id status failure).
Proof.
  intros w Hw. destruct (FinishJob s id status failure w) as [[u|e] w1] eqn:E; simpl.
  - destruct (FinishJob_run _ _ _ _ _ _ _ E) as (Hst & Hl & j & n & Ho & Hjs & Hls & _ & Hhs & Hsync).
    destruct (owned_running _ _ _ _ Hw Ho) as [Hp _]. destruct (owned_Some _ _ _ _ Ho) as (Hj & _ & Hnt).
    pose proof (finished_heads id status failure n j _ _ Hw Ho Hst Hsync) as Hh.
    eapply ended_ok; [done|done|done|exact Hjs|done|]. apply rtc_once.
    rewrite (abs_release id j _ status (Some (workerID s)) (Some (workerID s)) _ _ _ (ti_queue _ Hw) Hj Hp Hp Hjs Hls Hhs).
    2: { unfold abs_job. simpl. unfold with_phase. simpl. f_equal. unfold abs_phase. simpl. by destruct status. }
    destruct (inv_running _ (ti_queue _ Hw) id (abs_job j) _ (abs_jobs_lookup _ _ _ Hj) Hp) as (w2 & [= <-] & Hk).
    by apply (q_finish (abs (tabs w)) id (abs_job j) (workerID s) status _ (abs_jobs_lookup _ _ _ Hj) Hp Hk).
  - unfold FinishJob in E. unfold mbind, M_bind, lift in E. destruct (fail_if _ _) as [[]|?]; simplify_eq; [|by apply ok_refl].
    rewrite (transaction_err _ _ _ _ _ _ E). by apply ok_refl.
Qed.

(** ** Claiming a job *)
Section claim_proofs.
Context (decode_health : string → result (list HealthCheck)) (decode_args : string → result (list string)).
Context `{ErrorText}.

(** Loading the dependencies reads. *)
Definition frozen (t : tables) (n : Z) (w : db) : Prop := tabs w = t ∧ now w = n.

Lemma frozen_query {A} t n (f : Z → tables → A) : preserves (frozen t n) (query f).
Proof.
  apply preserves_state. intros w [<- <-]. unfold query, statement. destruct (db_aborted w); [done|].
  by destruct (db_faults w (db_tick w)).
Qed.

Lemma frozen_dependencies t n id r : preserves (frozen t n) (loadDependencies decode_health decode_args id r).
Proof.
  pose proof (@frozen_query) as Hq.
  assert (∀ c, preserves (frozen t n) (loadTargetCredential c)) as Hc.
  { intros c. unfold loadTargetCredential. destruct (_ && _); [auto with preserves_db|].
    apply preserves_bind; [apply preserves_lift|intros _]. apply preserves_bind; [apply preserves_wrap, Hq|].
    intros [r'|]; [|apply preserves_throw]. destruct (cr_usable r'); auto with preserves_db. }
  assert (preserves (frozen t n) (loadProfile decode_health decode_args (jr_profile r))) as Hp.
  { unfold loadProfile. apply preserves_bind; [apply preserves_wrap, Hq|intros row].
    apply preserves_bind; [apply preserves_lift|intros p]. apply preserves_bind; [apply preserves_lift|intros h].
    apply preserves_bind; [apply preserves_wrap, Hq|intros rows]. auto with preserves_db. }
  assert (∀ a b, preserves (frozen t n) (loadRollbackImages a b)) as Hr.
  { intros a b. unfold loadRollbackImages. apply preserves_bind; [apply preserves_lift|intros _].
    apply preserves_bind; [apply preserves_wrap, Hq|intros l]. auto with preserves_db. }
  unfold loadDependencies. apply preserves_bind; [done|intros p]. apply preserves_bind; [done|intros c].
  apply preserves_bind; [case_bool_decide; auto with preserves_db|intros l]. auto with preserves_db.
Qed.

Lemma dependencies_run id r w d w1 :
  loadDependencies decode_health decode_args id r w = (d, w1) → tabs w1 = tabs w ∧ now w1 = now w.
Proof.
  intros Hr.
  pose proof (proj1 (preserves_state _ _) (frozen_dependencies (tabs w) (now w) id r) w (conj eq_refl eq_refl)) as Hf.
  rewrite Hr in Hf. exact Hf.
Qed.

Definition claimed_row (s : PGStore) (n : Z) (attempt : Z) (j : job_row) : job_row :=
  set_lease (Some (workerID s)) (Some n) (set_status StatusValidating
    (set_outcome None (Some (default n (jr_started j))) (jr_finished j) attempt j)).
Definition rejected_row (n : Z) (failure : string) (j : job_row) : job_row :=
  set_status StatusFailed (set_outcome (Some failure) (jr_started j) (Some n) (jr_attempts j) j).

(** The queue's next job for a Runner. *)
Definition next_job (s : PGStore) (n : Z) (t : tables) (skipped : gset string) : option (string * job_row) :=
  head (merge_sort job_before (filter (λ kj, eligible s n t skipped kj = true) (map_to_list (jobs t)))).

(** The tables with the lock of a claimed job. *)
Definition lock_for (s : PGStore) (id : string) (j : job_row) (n : Z) (t : tables) : tables :=
  set_locks (insert (jr_lock_key j) {| lo_job := id; lo_worker := workerID s; lo_heartbeat := n |}) t.

Lemma rejectJob_run id e w e' w1 :
  rejectJob id e w = (Ok e', w1) →
  e' = Wrapf "reject invalid queued job %s: %w" [FStr id] e ∧
  tabs w1 = sync_release id StatusFailed (delete_locks id None
              (set_jobs (alter (rejected_row (now w) (truncate (error_text e) 4000)) id) (tabs w))).
Proof.
  unfold rejectJob. cbv zeta. intros Hr. inv_run Hr.
  apply statement_run in Hrun as (_ & Ht1 & Hn1 & _). apply statement_run in Hrun0 as (_ & Ht2 & Hn2 & _).
  apply statement_run in Hrun1 as (_ & Ht3 & Hn3 & _). injection Hr as <- <-. simpl in *.
  by rewrite Ht3, Ht2, Ht1.
Qed.

(** What a committed claim transaction did with the job it selected. *)
Inductive claim_effect (s : PGStore) (d n : Z) (id : string) (j : job_row) (t : tables) : result Job → tables → Prop :=
  | claim_busy :
      is_Some (locks t !! jr_lock_key j) →
      claim_effect s d n id j t (Err (Sentinel ErrLockBusy))
        (set_jobs (alter (set_available (n + durationInterval d)) id) t)
  | claim_rejected e :
      locks t !! jr_lock_key j = None →
      claim_effect s d n id j t (Err (Wrapf "reject invalid queued job %s: %w" [FStr id] e))
        (sync_release id StatusFailed (delete_locks id None
           (set_jobs (alter (rejected_row n (truncate (error_text e) 4000)) id) (lock_for s id j n t))))
  | claim_taken job w2 w3 :
      locks t !! jr_lock_key j = None →
      loadDependencies decode_health decode_args id j w2 = (Ok job, w3) → tabs w2 = lock_for s id j n t →
      claim_effect s d n id j t (Ok job)
        (sync_release id StatusValidating (set_jobs (alter (claimed_row s n (j_Attempt job)) id) (lock_for s id j n t))).

Lemma claimTransaction_run s skipped d w r w1 :
  claimTransaction decode_health decode_args s skipped d w = (Ok r, w1) →
  ∃ id j, next_job s (now w) (tabs w) skipped = Some (id, j) ∧ claim_effect s d (now w) id j (tabs w) r (tabs w1).
Proof.
  unfold claimTransaction. intros Hr. inv_run Hr. rename a0 into id, b0 into j. exists id, j.
  apply query_run in Hrun as (_ & Ht0 & Hn0 & _). apply query_run in Hrun3 as (-> & Ht2 & Hn2 & _).
  rewrite Hn0, Ht0 in Hrun4. split; [done|]. clear Hrun4.
  apply statement_run in Hrun5 as (Hx & Ht3 & Hn3 & _). rewrite Hn2, Hn0, Ht2, Ht0 in *. clear Ht0 Ht2 Hn0 Hn2.
  destruct (locks (tabs w) !! jr_lock_key j) as [l|] eqn:El; simpl in Hx, Ht3; subst x3; simpl in Hr; inv_run Hr.
  - apply statement_run in Hrun as (_ & Ht4 & _). injection Hr as <- <-. rewrite Ht4, Ht3, Hn3. by apply claim_busy.
  - destruct (dependencies_run _ _ _ _ _ Hrun) as [Ht4 Hn4].
    fold (lock_for s id j (now w) (tabs w)) in Ht3. destruct x2 as [job|e]; inv_run Hr.
    + lazymatch goal with Hs : statement _ _ = _ |- _ => apply statement_run in Hs as (_ & Ht5 & _) end. injection Hr as <- <-. rewrite Ht5, Ht4, Hn4, Ht3, Hn3. by eapply claim_taken.
    + lazymatch goal with Hs : rejectJob _ _ _ = _ |- _ => apply rejectJob_run in Hs as (-> & Ht5) end. injection Hr as <- <-. rewrite Ht5, Ht4, Hn4, Ht3, Hn3. by apply claim_rejected.
Qed.

Lemma ClaimJob_cases s skipped d w r w1 :
  ClaimJob decode_health decode_args s skipped d w = (r, w1) →
  (tabs w1 = tabs w ∧ ∃ e, r = Err e) ∨
  ∃ id j, next_job s (now w) (tabs w) skipped = Some (id, j) ∧ claim_effect s d (now w) id j (tabs w) r (tabs w1).
Proof.
  unfold ClaimJob. intros Hr. unfold mbind, M_bind, lift in Hr. destruct (fail_if _ _) as [[]|?]; [|simplify_eq; eauto].
  destruct (transaction_with _ _ _ w) as [[r'|e] w2] eqn:E.
  2: { simplify_eq. left. rewrite (transaction_err _ _ _ _ _ _ E). eauto. }
  simplify_eq. destruct (transaction_cases _ _ _ _ _ _ E) as [[_ [e [=]]]|(a & w2 & [= ->] & Hr & -> & _)]. right.
  by apply claimTransaction_run in Hr.
Qed.
End claim_proofs.

#[export] Instance job_before_total : Total job_before.
Proof. intros [? a] [? b]. unfold job_before. simpl. lia. Qed.
#[export] Instance job_before_trans : Transitive job_before.
Proof. intros [? a] [? b] [? c]. unfold job_before. simpl. lia. Qed.

Lemma next_job_best s n t skipped id j :
  next_job s n t skipped = Some (id, j) →
  jobs t !! id = Some j ∧ eligible s n t skipped (id, j) = true
  ∧ ∀ id' j', jobs t !! id' = Some j' → eligible s n t skipped (id', j') = true → job_before (id, j) (id', j').
Proof.
  unfold next_job. set (l := filter _ _). intros Hh.
  pose proof (merge_sort_Permutation job_before l) as Hp.
  pose proof (StronglySorted_merge_sort job_before l) as Hs.
  destruct (merge_sort job_before l) as [|x rest] eqn:E; [done|]. injection Hh as ->.
  assert (∀ x, x ∈ l ↔ eligible s n t skipped x = true ∧ jobs t !! x.1 = Some x.2) as Hl.
  { intros [k x]. unfold l. rewrite list_elem_of_filter, elem_of_map_to_list. done. }
  assert ((id, j) ∈ l) as [He Hj]%Hl by (rewrite <- Hp; left). split; [done|]. split; [done|].
  intros id' j' Hj' He'. assert ((id', j') ∈ (id, j) :: rest) as [Heq|Hin]%elem_of_cons by (rewrite Hp; by apply Hl).
  - injection Heq as <- <-. right. simpl. lia.
  - apply StronglySorted_inv in Hs as [_ Hs]. rewrite Forall_forall in Hs. by apply Hs.
Qed.

Lemma eligible_queued s n t skipped id j :
  eligible s n t skipped (id, j) = true → jr_status j = StatusQueued ∧ id ∉ skipped ∧ (jr_available j ≤ n)%Z.
Proof.
  unfold eligible. rewrite !andb_true_iff. intros [[[H1%bool_decide_eq_true H2%bool_decide_eq_true] H3] _]. simpl in *. apply Z.leb_le in H3. done.
Qed.

Section claim_ok.
Context (decode_health : string → result (list HealthCheck)) (decode_args : string → result (list string)).
Context `{ErrorText}.

Lemma claim_effect_ok s d n id j t r t' :
  tables_inv t → jobs t !! id = Some j → jr_status j = StatusQueued →
  claim_effect decode_health decode_args s d n id j t r t' → ok_step t t'.
Proof.
  intros Ht Hj Hs Hc. pose proof (ti_queued _ Ht id j Hj Hs) as Hl.
  assert (abs_phase j = Queued) as Hp by (unfold abs_phase; by rewrite Hs).
  destruct Hc as [Hb|e Hf|job w2 w3 Hf Hd Hw2].
  - assert (set_jobs (alter (set_available (n + durationInterval d)) id) t
            = put_job id (set_available (n + durationInterval d) j) t) as ->.
    { unfold put_job, set_jobs. by rewrite (alter_known _ _ _ _ Hj). }
    eapply ok_update; [done|done|by rewrite Hs|done|done].
  - set (j' := rejected_row n (truncate (error_text e) 4000) j).
    set (t1 := delete_locks _ _ _).
    assert (jobs (sync_release id StatusFailed t1) = <[id := j']> (jobs t)) as Hjs.
    { rewrite jobs_sync. simpl. by rewrite (alter_known _ _ _ _ Hj). }
    assert (locks (sync_release id StatusFailed t1) = locks t) as Hls.
    { rewrite locks_sync. unfold t1, lock_for. simpl. eapply delete_locks_queued; [by apply Ht|done|done|done|done]. }
    eapply ended_ok; [done|done|by rewrite Hs|exact Hjs|done|]. apply rtc_once.
    assert (abs (sync_release id StatusFailed t1)
            = Queue (<[id := with_phase (Done StatusFailed) (abs_job j)]> (q_jobs (abs t))) (q_locks (abs t)) (q_heads (abs t))) as ->.
    { unfold abs at 1. rewrite Hjs, Hls, heads_sync, fmap_insert. done. }
    by apply (q_reject (abs t) id (abs_job j)); [apply abs_jobs_lookup|].
  - set (t1 := set_jobs (alter (claimed_row s n (j_Attempt job)) id) (lock_for s id j n t)).
    assert (jobs (sync_release id StatusValidating t1) = <[id := claimed_row s n (j_Attempt job) j]> (jobs t)) as Hjs.
    { rewrite jobs_sync. simpl. by rewrite (alter_known _ _ _ _ Hj). }
    assert (abs (sync_release id StatusValidating t1)
            = Queue (<[id := with_phase (Running (Some (workerID s))) (abs_job j)]> (q_jobs (abs t)))
                    (<[q_key (abs_job j) := (id, workerID s)]> (q_locks (abs t))) (q_heads (abs t))) as Habs.
    { unfold abs. rewrite Hjs, locks_sync, heads_sync. unfold lock_for. simpl. by rewrite !fmap_insert. }
    constructor.
    + rewrite Habs. apply rtc_once. apply (q_claim (abs t) id (abs_job j)); [by apply abs_jobs_lookup|done|].
      simpl. by rewrite lookup_fmap, Hf.
    + intros id2 j2. rewrite Hjs.
      intros [[<- <-]|[_ Hj2]]%lookup_insert_Some; [done|]. by apply (ti_queued _ Ht id2).
    + intros id2 j2 Hj2 Ht2. rewrite Hjs, lookup_insert_ne; [done|]. intros <-. rewrite Hj in Hj2. injection Hj2 as <-.
      by rewrite Hs in Ht2.
Qed.

Lemma ClaimJob_ok s skipped d : db_ok (ClaimJob decode_health decode_args s skipped d).
Proof.
  intros w Hw. destruct (ClaimJob decode_health decode_args s skipped d w) as [r w1] eqn:E. simpl.
  destruct (ClaimJob_cases _ _ _ _ _ _ _ _ E) as [[-> _]|(id & j & (Hj & He & _)%next_job_best & Hc)]; [by apply ok_refl|].
  apply eligible_queued in He as [Hs _]. by eapply claim_effect_ok.
Qed.
End claim_ok.
