(* ===== verification/QueueSafety.v ===== *)
(** * Any number of Runners on one queue (theorems about Store.v)

    The system: calls of any Runners in any order, at any time and with any
    database failures, new jobs from the backend, and administrators changing
    every other table.  The properties hold in every reachable database. *)
From S2P Require Import Prelude GoIO GoString Model OS Db Store Queue StoreProofs.
From stdpp Require Import relations.
Open Scope Z_scope.

(** ** The system *)
Inductive call :=
  | CallRecover (skipped : gset string) (staleAfter : Z)
  | CallRegister (s : PGStore) (uuid : result string) (identity name address : string)
  | CallBeat (s : PGStore)
  | CallClaim (s : PGStore) (skipped : gset string) (lockRetry : Z)
  | CallHeartbeat (s : PGStore) (id : string)
  | CallBegin (s : PGStore) (id : string) (status : JobStatus)
  | CallFinishStep (s : PGStore) (step : Step) (success : bool) (r : StepResult)
  | CallLog (s : PGStore) (l : log_row)
  | CallImage (s : PGStore) (id : string) (i : ImageRecord)
  | CallFinish (s : PGStore) (id : string) (status : JobStatus) (failure : string).

Definition outcome {A} (m : M db A) (w : db) : option goerr * db := let '(r, w') := m w in (err_of r, w').

Section system.
Context (decode_health : string → result (list HealthCheck)) (decode_args : string → result (list string)).
Context `{ErrorText}.

Definition run_call (c : call) : db → option goerr * db :=
  match c with
  | CallRecover skipped d => outcome (RecoverStaleJobs skipped d)
  | CallRegister s uuid i n a => outcome (RegisterRunner s uuid i n a)
  | CallBeat s => outcome (HeartbeatRunner s)
  | CallClaim s skipped d => outcome (ClaimJob decode_health decode_args s skipped d)
  | CallHeartbeat s id => outcome (Heartbeat s id)
  | CallBegin s id status => outcome (BeginStep s id status)
  | CallFinishStep s step ok r => outcome (FinishStep s step ok r)
  | CallLog s l => outcome (AppendLog s l)
  | CallImage s id i => outcome (RecordImage s id i)
  | CallFinish s id status f => outcome (FinishJob s id status f)
  end.

(** A step's name is never QUEUED or a terminal status (Pipeline.v). *)
Definition call_allowed (c : call) : Prop :=
  match c with CallBegin _ _ status => running status = true | _ => True end.

Inductive db_step (t : tables) : tables → Prop :=
  | step_call c w : call_allowed c → tabs w = t → db_step t (tabs (run_call c w).2)
  | step_enqueue id j :
      jobs t !! id = None → jr_status j = StatusQueued → jr_locked_by j = None → db_step t (put_job id j t)
  | step_admin t' : jobs t' = jobs t → locks t' = locks t → heads t' = heads t → db_step t t'.

Definition initial (t : tables) : Prop := jobs t = ∅ ∧ locks t = ∅ ∧ heads t = ∅.
Definition reachable (t : tables) : Prop := ∃ t0, initial t0 ∧ rtc db_step t0 t.

Lemma outcome_tabs {A} (m : M db A) w : tabs (outcome m w).2 = tabs (m w).2.
Proof. unfold outcome. by destruct (m w). Qed.

Lemma call_ok c w : call_allowed c → tables_inv (tabs w) → ok_step (tabs w) (tabs (run_call c w).2).
Proof.
  intros Hc. destruct c; simpl; rewrite outcome_tabs.
  - apply RecoverStaleJobs_ok.
  - apply RegisterRunner_ok.
  - apply HeartbeatRunner_ok.
  - apply ClaimJob_ok.
  - apply Heartbeat_ok.
  - by apply BeginStep_ok.
  - apply FinishStep_ok.
  - apply AppendLog_ok.
  - apply RecordImage_ok.
  - apply FinishJob_ok.
Qed.

Lemma step_ok t t' : tables_inv t → db_step t t' → ok_step t t'.
Proof.
  intros Ht Hs. destruct Hs as [c w Hc <-|id j Hid Hs Hl|t' Hj Hl Hh].
  - by apply call_ok.
  - constructor.
    + apply rtc_once. rewrite abs_put_job. apply q_enqueue.
      * simpl. by rewrite lookup_fmap, Hid.
      * simpl. unfold abs_phase. by rewrite Hs.
    + apply queued_put; [by apply Ht|done].
    + intros k j' Hk Ht'. simpl. by rewrite lookup_insert_ne by congruence.
  - apply same_queue_ok; [done|]. unfold same_queue. by rewrite Hl.
Qed.

Lemma steps_ok t t' : tables_inv t → rtc db_step t t' → ok_step t t'.
Proof.
  intros Ht Hs. induction Hs as [t|t t1 t' H1 _ IH]; [by apply ok_refl|].
  pose proof (step_ok _ _ Ht H1) as Hok. eapply ok_trans; [done|]. apply IH. by eapply ok_inv.
Qed.

Lemma initial_inv t : initial t → tables_inv t.
Proof.
  intros (Hj & Hl & Hh). constructor.
  - constructor; simpl; rewrite ?Hj, ?Hl, ?Hh, ?fmap_empty; set_solver.
  - intros id j. by rewrite Hj.
Qed.

Lemma reachable_inv t : reachable t → tables_inv t.
Proof. intros (t0 & H0 & Hs). eapply ok_inv; [by apply initial_inv|]. apply steps_ok; [by apply initial_inv|done]. Qed.

(** ** Calls under a lease *)

(** The worker and the job of a call that needs the lease. *)
Definition lease_of (c : call) : option (string * string) :=
  match c with
  | CallHeartbeat s id | CallBegin s id _ | CallImage s id _ | CallFinish s id _ _ => Some (workerID s, id)
  | CallFinishStep s step _ _ => Some (workerID s, step_JobID step)
  | CallLog s l => Some (workerID s, lg_job l)
  | _ => None
  end.

(** The arguments pass the checks that come before the database. *)
Definition well_formed (c : call) : Prop :=
  match c with CallFinish _ _ status _ => terminal status = true | _ => True end.

Definition answers (w : db) : Prop := ∀ k, db_faults w k = None.

(** A first statement that reports no row ends the transaction. *)
Definition refused (r : option goerr * db) (w : db) : Prop :=
  tabs r.2 = tabs w ∧ ∃ e, r.1 = Some e ∧ (answers w → e = Sentinel ErrLostLease).

Lemma refused_transaction {A} g f (rest : bool → M db A) w :
  f (now w) (tabs w) = (false, tabs w) →
  refused (outcome (transaction (rows ← wrapM g (statement f);
                                 _ ← lift (fail_if (negb rows) (Sentinel ErrLostLease)); rest rows)) w) w.
Proof.
  intros Hf. unfold refused, outcome, transaction, transaction_with, mbind, M_bind, wrapM, statement, lift.
  destruct (db_faults w (db_tick w)) as [x|] eqn:E.
  { simpl. split; [done|]. eexists. split; [done|]. intros Ha. by rewrite Ha in E. }
  simpl. destruct (db_faults w (S (db_tick w))) as [x|] eqn:E2; simpl.
  { split; [done|]. eexists. split; [done|]. intros Ha. by rewrite Ha in E2. }
  rewrite Hf. simpl. split; [done|]. by eexists.
Qed.

Lemma refused_lease g f w :
  f (now w) (tabs w) = (false, tabs w) → refused (outcome (pool (executeLeaseMutation g f)) w) w.
Proof.
  intros Hf. unfold refused, outcome, pool, executeLeaseMutation, mbind, M_bind, wrapM, statement, lift. simpl.
  destruct (db_faults w _) as [x|] eqn:E; simpl.
  { split; [done|]. eexists. split; [done|]. intros Ha. by rewrite Ha in E. }
  rewrite Hf. simpl. split; [done|]. by eexists.
Qed.

Lemma unleased id w t : owned id w t = None → leased id w t = false.
Proof. unfold leased. by intros ->. Qed.

(** ** The properties *)

(** C1: every call of a Runner, whatever the database answers, is a sequence of
    steps of the abstract queue (enqueue, claim, reject, finish, expire), and
    the correspondence between the tables and the queue is kept. *)
Theorem calls_refine_queue c w :
  call_allowed c → tables_inv (tabs w) →
  let t' := tabs (run_call c w).2 in rtc qstep (abs (tabs w)) (abs t') ∧ tables_inv t'.
Proof.
  intros Hc Hw t'. pose proof (call_ok c w Hc Hw) as Hok. split; [apply Hok|]. by eapply ok_inv.
Qed.

(** C18: in every reachable database the lock of a target names exactly the one
    job that runs on it, and its worker: a running job holds its target's lock
    under its own worker, a lock belongs to a running job (none is leaked),
    and two jobs never run on the same target. *)
Theorem running_jobs_hold_their_targets t :
  reachable t →
  (∀ id j, jobs t !! id = Some j → running (jr_status j) = true →
     ∃ l, locks t !! jr_lock_key j = Some l ∧ lo_job l = id ∧ jr_locked_by j = Some (lo_worker l)) ∧
  (∀ k l, locks t !! k = Some l →
     ∃ j, jobs t !! lo_job l = Some j ∧ running (jr_status j) = true ∧ jr_lock_key j = k
          ∧ jr_locked_by j = Some (lo_worker l)) ∧
  (∀ id1 id2 j1 j2, jobs t !! id1 = Some j1 → jobs t !! id2 = Some j2 → running (jr_status j1) = true →
     running (jr_status j2) = true → jr_lock_key j1 = jr_lock_key j2 → id1 = id2).
Proof.
  intros [Hq Hu]%reachable_inv.
  assert (∀ id j, jobs t !! id = Some j → running (jr_status j) = true →
    q_jobs (abs t) !! id = Some (abs_job j) ∧ q_phase (abs_job j) = Running (jr_locked_by j)) as Hr.
  { intros id j Hj [Ht Hs]%running_not. split; [by apply abs_jobs_lookup|]. by apply running_phase. }
  split_and!.
  - intros id j Hj [Hj' Hp]%(Hr id j Hj). destruct (inv_running _ Hq _ _ _ Hj' Hp) as (w & Hw & Hl).
    simpl in Hl. rewrite lookup_fmap in Hl. destruct (locks t !! jr_lock_key j) as [l|]; [|done].
    injection Hl as <- <-. by exists l.
  - intros k l Hl. destruct (inv_lock _ Hq _ _ _ (abs_locks_lookup _ _ _ Hl)) as (j' & Hj' & Hk & Hp).
    simpl in Hj'. rewrite lookup_fmap in Hj'. destruct (jobs t !! lo_job l) as [j|] eqn:Ej; [|done]. injection Hj' as <-.
    exists j. simpl in Hk, Hp. unfold abs_phase in Hp. split_and!; [done| |done|].
    + unfold running. by destruct (jr_status j).
    + destruct (jr_status j); congruence.
  - intros id1 id2 j1 j2 H1 H2 [Hj1 Hp1]%(Hr _ _ H1) [Hj2 Hp2]%(Hr _ _ H2) Hk. by eapply running_exclusive.
Qed.

(** A finished job is history: no later call of any Runner, no backend and
    no administrator step changes its row. *)
Lemma finished_jobs_immutable t t' id j :
  reachable t → rtc db_step t t' → jobs t !! id = Some j → terminal (jr_status j) = true → jobs t' !! id = Some j.
Proof. intros Ht%reachable_inv Hs. by apply (os_terminal _ _ (steps_ok _ _ Ht Hs)). Qed.

(** The deployed version the head of an application and environment names
    is always a DEPLOY job that succeeded, with its release, also after
    rollbacks, failures and lost leases. *)
Lemma heads_name_successful_deployments t k h :
  reachable t → heads t !! k = Some h →
  ∃ j, jobs t !! hd_job h = Some j ∧ jr_status j = StatusSuccess ∧ jr_operation j = OperationDeploy
       ∧ jr_release j = hd_release h.
Proof.
  intros [Hq _]%reachable_inv Hh. destruct (inv_head _ Hq k h Hh) as (j' & Hj' & Hp & Ho & Hr).
  simpl in Hj'. rewrite lookup_fmap in Hj'. destruct (jobs t !! hd_job h) as [j|]; [|done]. injection Hj' as <-.
  exists j. simpl in Hp. unfold abs_phase in Hp. split_and!; [done| |done|done]. destruct (jr_status j); congruence.
Qed.

(** C21: a Runner that does not hold a job's lease (it was recovered as stale,
    finished, or claimed by another worker) can do nothing to it: a heartbeat,
    a step's begin or end, a log line, an image record and a terminal status
    all return an error, ErrLostLease whenever the database answers, and
    change nothing. *)
Theorem lost_lease_changes_nothing c w worker id :
  lease_of c = Some (worker, id) → well_formed c → owned id worker (tabs w) = None →
  tabs (run_call c w).2 = tabs w
  ∧ ∃ e, (run_call c w).1 = Some e ∧ ((∀ k, db_faults w k = None) → e = Sentinel ErrLostLease).
Proof.
  intros Hc Hv Ho. change (refused (run_call c w) w).
  destruct c; simpl in Hc; simplify_eq; simpl in *.
  - apply refused_transaction. by rewrite Ho.
  - apply refused_transaction. by rewrite Ho.
  - apply refused_lease. unfold finishStepSQL. destruct (steps (tabs w) !! step_ID step); [|done].
    by rewrite (unleased _ _ _ Ho), andb_false_r.
  - apply refused_lease. unfold appendLogSQL. by rewrite (unleased _ _ _ Ho).
  - apply refused_lease. unfold recordImageSQL. by rewrite (unleased _ _ _ Ho).
  - unfold FinishJob. rewrite Hv. simpl. apply refused_transaction. by rewrite Ho.
Qed.

(** C31: a claim takes the best job: the highest priority, then the oldest,
    among the queued jobs the Runner is eligible for.  The job it returns has
    passed validation and is that row's, with the attempt counted; the row is
    VALIDATING under this worker with a fresh heartbeat, its release shows the
    same status, the lock of its target, which was free, is this worker's, and
    nothing else changed. *)
Theorem claim_takes_the_next_job s skipped lockRetry w job w' :
  ClaimJob decode_health decode_args s skipped lockRetry w = (Ok job, w') →
  ∃ j, jobs (tabs w) !! j_ID job = Some j
  ∧ eligible s (now w) (tabs w) skipped (j_ID job, j) = true
  ∧ (∀ id' j', jobs (tabs w) !! id' = Some j' → eligible s (now w) (tabs w) skipped (id', j') = true →
       job_before (j_ID job, j) (id', j'))
  ∧ validateJob job = Ok tt
  ∧ j_Attempt job = jr_attempts j + 1 ∧ j_LockKey job = jr_lock_key j ∧ j_ReleaseID job = jr_release j
  ∧ j_Operation job = jr_operation j
  ∧ locks (tabs w) !! jr_lock_key j = None
  ∧ tabs w' = set_releases (alter (set_release_status "VALIDATING") (jr_release j))
                (set_jobs (insert (j_ID job) (claimed_row s (now w) (jr_attempts j + 1) j))
                (set_locks (insert (jr_lock_key j)
                   {| lo_job := j_ID job; lo_worker := workerID s; lo_heartbeat := now w |}) (tabs w))).
Proof.
  intros Hr. destruct (ClaimJob_cases _ _ _ _ _ _ _ _ Hr) as [[_ [e [=]]]|(id & j & Hn & Hc)].
  apply next_job_best in Hn as (Hj & He & Hbest).
  remember (Ok job) as r eqn:Er. destruct Hc as [| |job' w2 w3 Hf Hd Hw2]; simplify_eq.
  unfold loadDependencies in Hd. inv_run Hd. destruct x2. injection Hd as <- <-. simpl in *.
  exists j. split_and!; try done. unfold lock_for, sync_release, set_jobs. simpl. by rewrite (alter_known _ _ _ _ Hj), lookup_insert_eq.
Qed.

End system.

Lemma failStaleJobs_run ids w u w1 :
  NoDup ids → Forall (λ id, is_Some (jobs (tabs w) !! id)) ids → iterM failStaleJob ids w = (Ok u, w1) →
  now w1 = now w ∧ heads (tabs w1) = heads (tabs w) ∧
  (∀ id, jobs (tabs w1) !! id = if decide (id ∈ ids) then failed_row (now w) <$> jobs (tabs w) !! id else jobs (tabs w) !! id) ∧
  (∀ k, locks (tabs w1) !! k = l ← locks (tabs w) !! k; if decide (lo_job l ∈ ids) then None else Some l).
Proof.
  revert w. induction ids as [|id ids IH]; intros w Hnd Hall Hr; simpl in Hr.
  { injection Hr as _ <-. split_and!; [done..|]. intros k. by destruct (locks (tabs w) !! k). }
  inv_run Hr. apply NoDup_cons in Hnd as [Hnin Hnd]. apply Forall_cons in Hall as [[j Hj] Hall].
  destruct (failStaleJob_run _ _ _ _ _ Hj Hrun) as (Hn & Hjs & Hls & Hhs & _).
  assert (Forall (λ id, is_Some (jobs (tabs w0) !! id)) ids) as Hall'.
  { eapply Forall_impl; [exact Hall|]. intros k Hk. rewrite Hjs. by apply lookup_insert_is_Some'; right. }
  destruct (IH w0 Hnd Hall' Hr) as (Hn1 & Hh1 & Hj1 & Hl1).
  split_and!; [congruence|congruence| |].
  - intros k. rewrite Hj1, Hjs, Hn. destruct (decide (id = k)) as [<-|Hne].
    + rewrite decide_False by done. rewrite decide_True by set_solver. by rewrite lookup_insert_eq, Hj.
    + rewrite lookup_insert_ne by done. destruct (decide (k ∈ ids)); [rewrite decide_True by set_solver|rewrite decide_False by set_solver]; done.
  - intros k. rewrite Hl1, Hls. simpl. rewrite map_lookup_filter. destruct (locks (tabs w) !! k) as [l|]; [simpl|done].
    unfold lock_matches. rewrite andb_true_r. destruct (decide (lo_job l = id)) as [He|He].
    + rewrite bool_decide_true by done. rewrite decide_True by set_solver. by rewrite option_guard_False.
    + rewrite bool_decide_false by done. rewrite option_guard_True by done. simpl.
      destruct (decide (lo_job l ∈ ids)); [rewrite decide_True by set_solver|rewrite decide_False by set_solver]; done.
Qed.

(** Recovery fails exactly the running jobs whose heartbeat is older than
    the limit (those no other transaction holds): their rows are FAILED, have
    no owner and say a manual retry is required, their locks are gone; every
    other row and lock and every head is as before; nothing is re-queued. *)
Lemma recovery_fails_exactly_the_stale skipped staleAfter w n w' :
  RecoverStaleJobs skipped staleAfter w = (Ok n, w') →
  let limit := durationInterval staleAfter in
  let recovered id := ∃ j, jobs (tabs w) !! id = Some j ∧ stale (now w) limit j = true ∧ id ∉ skipped in
  0 < staleAfter ∧
  (∀ id j, jobs (tabs w) !! id = Some j →
     (recovered id ∧ jobs (tabs w') !! id = Some (failed_row (now w) j)) ∨
     (¬ recovered id ∧ jobs (tabs w') !! id = Some j)) ∧
  (∀ id, jobs (tabs w) !! id = None → jobs (tabs w') !! id = None) ∧
  (∀ k l, locks (tabs w') !! k = Some l ↔ locks (tabs w) !! k = Some l ∧ ¬ recovered (lo_job l)) ∧
  heads (tabs w') = heads (tabs w).
Proof.
  intros Hr limit recovered. unfold RecoverStaleJobs in Hr. inv_run Hr. split; [lia|].
  destruct (transaction_cases _ _ _ _ _ _ Hr) as [[_ [e [=]]]|(a & w2 & _ & Hb & -> & _)]. clear Hr. inv_run Hb.
  apply query_run in Hrun0 as (-> & Ht & Hn & _). injection Hb as _ <-. simpl in Ht, Hn.
  fold (stale_ids skipped limit (now w) (tabs w)) in Hrun1. simpl in Hrun1.
  assert (∀ id, id ∈ stale_ids skipped limit (now w) (tabs w) ↔ recovered id) as Hids by apply elem_of_stale_ids.
  assert (Forall (λ id, is_Some (jobs (tabs w0) !! id)) (stale_ids skipped limit (now w) (tabs w))) as Hall.
  { apply Forall_forall. intros id (j & Hj & _)%elem_of_stale_ids. rewrite Ht. eauto. }
  destruct (failStaleJobs_run _ w0 x1 w1 (stale_ids_NoDup skipped limit (now w) (tabs w)) Hall Hrun1) as (_ & Hh & Hj & Hl).
  rewrite Ht, Hn in *. split_and!; [| | |done].
  - intros id j Hid. rewrite Hj, Hid. destruct (decide _) as [Hd|Hd]; [left|right]; by rewrite <- Hids.
  - intros id Hid. rewrite Hj, Hid. by destruct (decide _).
  - intros k l. rewrite Hl. destruct (locks (tabs w) !! k) as [l'|]; simpl; [|naive_solver].
    destruct (decide _) as [Hd|Hd]; rewrite Hids in Hd; naive_solver.
Qed.
(** ** A concrete run: one Runner, one job *)
Module demo.
#[local] Instance demo_text : ErrorText := λ _, "error".
Definition health : string → result (list HealthCheck) := λ _, Ok [].
Definition args : string → result (list string) := λ _, Ok [].
Definition pgstore : PGStore := {| workerID := "w1"; runnerIdentity := "host-1" |}.
Definition job : job_row := {|
  jr_release := "rel-1"; jr_rb_release := None; jr_rb_job := None; jr_cred_id := None; jr_cred_version := None;
  jr_application := "shop"; jr_version := "1.0.0"; jr_environment := "prod"; jr_lock_key := "shop/prod";
  jr_artifact := "a.tar.gz"; jr_sha256 := "ab"; jr_manifest := "manifest.json"; jr_operation := OperationDeploy;
  jr_attempts := 0; jr_profile := "p1"; jr_status := StatusQueued; jr_available := 0; jr_priority := 5;
  jr_created := 10; jr_labels := []; jr_locked_by := None; jr_heartbeat := None; jr_failure := None;
  jr_started := None; jr_finished := None;
  jr_info := {| ji_artifact := "a1"; ji_retry_of := None; ji_created_by := "alice" |} |}.
Definition profile : profile_row := {|
  pr_name := "default";
  pr_extraction := {| MaxArchiveBytes := 1000; MaxExtractedBytes := 1000; MaxFiles := 10; MaxImages := 3; AllowSymlinks := false |};
  pr_kind := "docker"; pr_binary := "/usr/bin/docker"; pr_namespace := ""; pr_url := "https://registry";
  pr_host := "registry"; pr_project := "apps"; pr_insecure := false; pr_ca := ""; pr_credential := None;
  pr_health := "[]"; pr_timeout := 60; pr_max_log := 1000; pr_auto_rollback := false; pr_cleanup := true;
  pr_keep_failed := false; pr_active := true; pr_revoked := false;
  pr_info := {| pi_application := "shop"; pi_environment := "prod"; pi_enabled := true; pi_approval := false; pi_labels := [];
                pi_target_credential := None; pi_created := 0 |} |}.
Definition script : script_row := {|
  sc_profile := "p1"; sc_order := 1; sc_id := "s1"; sc_name := "deploy"; sc_version := 1; sc_phase := "DEPLOY";
  sc_interpreter := "/bin/sh"; sc_sha256 := "cd"; sc_content := []; sc_args := "[]"; sc_timeout := None;
  sc_approved := Some 1; sc_revoked := false; sc_type := "DEPLOY"; sc_active := true |}.
Definition release_of : release_info :=
  ReleaseInfo "p1" "1.0.0" "" "alice" 0
    (Request "DEPLOY" None None None None None) (Decided "" None None None)
    {| qi_preset := None; qi_quick := false; qi_auto := false; qi_release := None; qi_job := None |}.
Definition empty : tables := {|
  jobs := ∅; releases := {[ "rel-1" := ReleaseRow "QUEUED" "shop" "prod" release_of ]};
  locks := ∅;
  runners := {[ "host-1" := {| ru_name := "r"; ru_address := "a"; ru_labels := []; ru_active := true; ru_managed := true;
                               ru_heartbeat := Some 100000 |} ]};
  steps := ∅; logs := []; images := ∅; heads := ∅; credentials := ∅; profiles := {[ "p1" := profile ]};
  scripts := [script]; settings := None |}.
Definition queued : tables := put_job "job-1" job empty.
Definition at_time (n : Z) (t : tables) : db :=
  {| tabs := t; now := n; db_faults := λ _, None; db_tick := 0; db_aborted := false |}.
Definition claim : call := CallClaim pgstore ∅ 1000000000.
Definition claimed : tables := tabs (run_call health args claim (at_time 110000 queued)).2.
Definition finish (s : JobStatus) : call := CallFinish pgstore "job-1" s "".
Definition deployed : tables := tabs (run_call health args (finish StatusSuccess) (at_time 120000 claimed)).2.

Lemma demo_step c n t : call_allowed c → rtc (db_step health args) t (tabs (run_call health args c (at_time n t)).2).
Proof. intros Hc. apply rtc_once. by apply (step_call health args t c (at_time n t)). Qed.
Lemma reach_step c n t : call_allowed c → reachable health args t → reachable health args (tabs (run_call health args c (at_time n t)).2).
Proof. intros Hc (t0 & H0 & Hs). exists t0. split; [done|]. etrans; [exact Hs|]. by apply demo_step. Qed.
Lemma reach_queued : reachable health args queued.
Proof. exists empty. split; [done|]. apply rtc_once. by apply step_enqueue. Qed.
Lemma reach_claimed : reachable health args claimed.
Proof. exact (reach_step claim 110000 queued I reach_queued). Qed.
Lemma reach_deployed : reachable health args deployed.
Proof. exact (reach_step (finish StatusSuccess) 120000 claimed I reach_claimed). Qed.

Lemma calls_refine_queue_witness :
  let w := at_time 110000 queued in
  (call_allowed claim ∧ tables_inv (tabs w))
  ∧ rtc qstep (abs (tabs w)) (abs (tabs (run_call health args claim w).2)) ∧ tables_inv (tabs (run_call health args claim w).2).
Proof.
  cbv zeta. assert (tables_inv queued) as Hq by (apply (reachable_inv health args), reach_queued).
  split; [done|]. by apply (calls_refine_queue health args claim (at_time 110000 queued)).
Defined.

Lemma running_jobs_hold_their_targets_witness :
  reachable health args claimed
  ∧ ∃ j l, jobs claimed !! "job-1" = Some j ∧ jr_status j = StatusValidating
           ∧ locks claimed !! "shop/prod" = Some l ∧ lo_job l = "job-1" ∧ jr_locked_by j = Some (lo_worker l).
Proof.
  split; [apply reach_claimed|].
  destruct (jobs claimed !! "job-1") as [j|] eqn:Ej; [|by vm_compute in Ej].
  assert (jr_status j = StatusValidating ∧ jr_lock_key j = "shop/prod") as [Hs Hk] by (vm_compute in Ej; by injection Ej as <-).
  destruct (proj1 (running_jobs_hold_their_targets health args claimed reach_claimed) "job-1" j Ej) as (l & Hl & Hlj & Hw).
  { unfold running. by rewrite Hs. }
  exists j, l. rewrite <- Hk. exact (conj eq_refl (conj Hs (conj Hl (conj Hlj Hw)))).
Defined.

Lemma lost_lease_changes_nothing_witness :
  let w := at_time 130000 claimed in
  let c := CallFinish {| workerID := "w2"; runnerIdentity := "host-2" |} "job-1" StatusSuccess "" in
  tabs (run_call health args c w).2 = tabs w
  ∧ ∃ e, (run_call health args c w).1 = Some e ∧ ((∀ k, db_faults w k = None) → e = Sentinel ErrLostLease).
Proof.
  cbv zeta. apply (lost_lease_changes_nothing health args _ (at_time 130000 claimed) "w2" "job-1"); [reflexivity|reflexivity|].
  vm_compute. reflexivity.
Defined.

Lemma claim_takes_the_next_job_witness :
  ∃ job w', ClaimJob health args pgstore ∅ 1000000000 (at_time 110000 queued) = (Ok job, w')
  ∧ validateJob job = Ok tt ∧ ∃ j, jobs queued !! j_ID job = Some j ∧ j_Attempt job = jr_attempts j + 1.
Proof.
  destruct (ClaimJob health args pgstore ∅ 1000000000 (at_time 110000 queued)) as [[job|e] w'] eqn:E; [|by vm_compute in E].
  destruct (claim_takes_the_next_job health args _ _ _ _ _ _ E) as (j & Hj & _ & _ & Hv & Ha & _).
  exists job, w'. split; [reflexivity|]. split; [exact Hv|]. exists j. exact (conj Hj Ha).
Defined.

End demo.
