(* ===== verification/StoreFrame.v ===== *)
(** * What the Runner's queries leave alone (theorems about Store.v)

    The Runner adds and removes neither jobs nor releases; of a job it changes
    only progress, of a release only the status, to that of a job; a deployment
    head it sets names a job of that head's own target. *)
From S2P Require Import Prelude GoIO GoString OS Model Db Store StoreProofs QueueSafety.

(** A job and a release without the columns the Runner writes. *)
Definition static (j : job_row) : job_row :=
  set_available 0 (set_lease None None (set_outcome None None None 0 (set_status StatusQueued j))).
Definition release_static : release_row → release_row := set_release_status "".

(** The head that a finished job sets. *)
Definition new_head (t : tables) (k : string * string) (h : head_row) : Prop :=
  ∃ jid j r, jobs t !! jid = Some j ∧ releases t !! jr_release j = Some r ∧ k = (re_application r, re_environment r)
    ∧ (jr_operation j = OperationDeploy ∧ h = {| hd_release := jr_release j; hd_job := jid |}
       ∨ jr_operation j = OperationRollback ∧ jr_rb_release j = Some (hd_release h) ∧ jr_rb_job j = Some (hd_job h)).

Record runner_rel (t t' : tables) : Prop := {
  rr_jobs : static <$> jobs t' = static <$> jobs t;
  rr_releases : release_static <$> releases t' = release_static <$> releases t;
  rr_status id r : releases t' !! id = Some r → releases t !! id = Some r ∨ ∃ s, re_status r = status_text s;
  rr_heads k h : heads t' !! k = Some h → heads t !! k = Some h ∨ new_head t k h
}.

(** Rows with equal static columns. *)
Lemma fmap_lookup_eq {A B} (f : A → B) (m m' : gmap string A) id x :
  f <$> m' = f <$> m → m' !! id = Some x → ∃ y, m !! id = Some y ∧ f y = f x.
Proof.
  intros Hm Hx. assert ((f <$> m) !! id = Some (f x)) as Hy by by rewrite <- Hm, lookup_fmap, Hx.
  rewrite lookup_fmap in Hy. destruct (m !! id) as [y|]; [|done]. injection Hy as Hy. by exists y.
Qed.
Lemma static_columns j j' :
  static j = static j' →
  jr_release j = jr_release j' ∧ jr_rb_release j = jr_rb_release j' ∧ jr_rb_job j = jr_rb_job j'
  ∧ jr_lock_key j = jr_lock_key j' ∧ jr_operation j = jr_operation j' ∧ jr_profile j = jr_profile j' ∧ jr_created j = jr_created j'.
Proof. destruct j, j'. unfold static. simpl. intros [=]. by subst. Qed.
Lemma release_static_columns r r' :
  release_static r = release_static r' →
  re_application r = re_application r' ∧ re_environment r = re_environment r' ∧ re_info r = re_info r'.
Proof. destruct r, r'. unfold release_static. simpl. intros [=]. by subst. Qed.

Lemma new_head_static t t' k h : runner_rel t t' → new_head t' k h → new_head t k h.
Proof.
  intros [Hj Hr _ _] (jid & j & r & Hjid & Hrel & -> & Hh).
  destruct (fmap_lookup_eq _ _ _ _ _ Hj Hjid) as (j0 & Hj0 & Es). apply static_columns in Es as (E1 & E2 & E3 & _ & E5 & _).
  destruct (fmap_lookup_eq _ _ _ _ _ Hr Hrel) as (r0 & Hr0 & Er). apply release_static_columns in Er as (F1 & F2 & _).
  exists jid, j0, r0. rewrite E1, E2, E3, E5, F1, F2. done.
Qed.
#[export] Instance runner_rel_preorder : PreOrder runner_rel.
Proof.
  split.
  - intros t. constructor; auto.
  - intros t1 t2 t3 H1 H2. constructor.
    + by rewrite (rr_jobs _ _ H2), (rr_jobs _ _ H1).
    + by rewrite (rr_releases _ _ H2), (rr_releases _ _ H1).
    + intros id r Hr. destruct (rr_status _ _ H2 _ _ Hr); [by eapply rr_status|auto].
    + intros k h Hh. destruct (rr_heads _ _ H2 _ _ Hh); [by eapply rr_heads|]. right. by eapply new_head_static.
Qed.

(** ** Statements *)
Lemma rel_same t t' : jobs t' = jobs t → releases t' = releases t → heads t' = heads t → runner_rel t t'.
Proof. intros Hj Hr Hh. constructor; rewrite ?Hj, ?Hr, ?Hh; auto. Qed.
Lemma rel_jobs f t : static <$> f (jobs t) = static <$> jobs t → runner_rel t (set_jobs f t).
Proof. intros Hf. constructor; auto. Qed.
Lemma rel_alter f id t : (∀ j, static (f j) = static j) → runner_rel t (set_jobs (alter f id) t).
Proof.
  intros Hf. apply rel_jobs. apply map_eq. intros k. rewrite !lookup_fmap.
  destruct (decide (id = k)) as [<-|Hne]; [|by rewrite lookup_alter_ne].
  rewrite lookup_alter_eq. destruct (jobs t !! id); simpl; [by rewrite Hf|done].
Qed.
Lemma rel_insert id j j' t : jobs t !! id = Some j → static j' = static j → runner_rel t (set_jobs (insert id j') t).
Proof.
  intros Hj Hs. apply rel_jobs. rewrite fmap_insert, Hs. apply insert_id. by rewrite lookup_fmap, Hj.
Qed.
Lemma rel_sync id s t : runner_rel t (sync_release id s t).
Proof.
  unfold sync_release. destruct (jobs t !! id) as [j|]; [|done]. constructor; simpl; auto.
  - apply map_eq. intros k. rewrite !lookup_fmap. destruct (decide (jr_release j = k)) as [<-|Hne]; [|by rewrite lookup_alter_ne].
    rewrite lookup_alter_eq. by destruct (releases t !! jr_release j).
  - intros k r Hr. destruct (decide (jr_release j = k)) as [<-|Hne]; [|rewrite lookup_alter_ne in Hr by done; auto].
    rewrite lookup_alter_eq in Hr. destruct (releases t !! jr_release j); [|done]. injection Hr as <-. right. by exists s.
Qed.
Lemma rel_owned id w t f :
  (∀ j, static (f j) = static j) →
  runner_rel t (match owned id w t with Some j => (true, set_jobs (insert id (f j)) t) | None => (false, t) end).2.
Proof.
  intros Hf. destruct (owned id w t) as [j|] eqn:Ho; [|done]. apply owned_Some in Ho as (Hj & _). by eapply rel_insert.
Qed.
Lemma rel_head id s t : runner_rel t (syncDeploymentHeadSQL id s t).2.
Proof.
  unfold syncDeploymentHeadSQL. destruct (jobs t !! id) as [j|] eqn:Ej; [|done]. simpl.
  destruct (releases t !! jr_release j) as [r|] eqn:Er; [|done]. simpl.
  match goal with |- context [match ?b with Some h => _ | None => _ end] => destruct b as [h|] eqn:Eb end; [|done].
  simpl. constructor; simpl; auto. intros k h' Hh. apply lookup_insert_Some in Hh as [[<- <-]|[_ Hh]]; [right|by left].
  exists id, j, r. split_and!; [done..|]. repeat case_bool_decide; simplify_eq.
  - left. by destruct_and!.
  - destruct (jr_rb_job j) as [src|] eqn:E1; [|done]. destruct (jr_rb_release j) as [rel|] eqn:E2; [|done]. simpl in Eb.
    destruct (jobs t !! src); [|done]. simpl in Eb. destruct (_ && _); [|done]. injection Eb as <-. right. by destruct_and!.
Qed.

Create HintDb rel_db.
#[export] Hint Resolve rel_alter rel_sync rel_owned rel_head : rel_db.
#[export] Hint Extern 4 (runner_rel _ _) => (by apply rel_same) : rel_db.

Section frame.
Context (decode_health : string → result (list HealthCheck)) (decode_args : string → result (list string)).
Context `{ErrorText}.

Lemma each_lease g f : (∀ n t, runner_rel t (f n t).2) → each runner_rel (executeLeaseMutation g f).
Proof. intros Hf. unfold executeLeaseMutation. each_steps. apply Hf. Qed.

Lemma rel_recover skipped d : each runner_rel (RecoverStaleJobs skipped d).
Proof. unfold RecoverStaleJobs, failStaleJob. each_steps; auto with rel_db. Qed.
Lemma rel_register s u i n a : each runner_rel (RegisterRunner s u i n a).
Proof. unfold RegisterRunner. each_steps; auto with rel_db. Qed.
Lemma rel_beat s : each runner_rel (HeartbeatRunner s).
Proof. unfold HeartbeatRunner. each_steps. repeat case_match; auto with rel_db. Qed.
Lemma rel_heartbeat s id : each runner_rel (Heartbeat s id).
Proof. unfold Heartbeat. each_steps; auto with rel_db. Qed.
Lemma rel_begin s id status : each runner_rel (BeginStep s id status).
Proof. unfold BeginStep. each_steps; auto with rel_db. case_match; auto with rel_db. Qed.
Lemma rel_finish_step s step ok r : each runner_rel (FinishStep s step ok r).
Proof. unfold FinishStep. each_steps. apply each_lease. intros n t. unfold finishStepSQL. repeat case_match; auto with rel_db. Qed.
Lemma rel_log s l : each runner_rel (AppendLog s l).
Proof. unfold AppendLog. each_steps. apply each_lease. intros n t. unfold appendLogSQL. case_match; auto with rel_db. Qed.
Lemma rel_image s id i : each runner_rel (RecordImage s id i).
Proof. unfold RecordImage. each_steps. apply each_lease. intros n t. unfold recordImageSQL. case_match; auto with rel_db. Qed.
Lemma rel_finish s id status f : each runner_rel (FinishJob s id status f).
Proof.
  unfold FinishJob. each_steps; auto with rel_db.
  - destruct (owned id (workerID s) t) as [j|] eqn:Ho; [|done]. apply owned_Some in Ho as (Hj & _).
    case_match; [|done]. by eapply rel_insert.
  - apply each_lease. auto with rel_db.
Qed.
Lemma rel_dependencies id r : each runner_rel (loadDependencies decode_health decode_args id r).
Proof.
  unfold loadDependencies, loadProfile, loadTargetCredential, loadRollbackImages. each_steps.
Qed.
Lemma rel_claim s skipped d : each runner_rel (ClaimJob decode_health decode_args s skipped d).
Proof.
  unfold ClaimJob, claimTransaction, rejectJob. each_steps; auto using rel_dependencies with rel_db.
  - case_match; auto with rel_db.
  - etrans; [|apply rel_sync]. by apply rel_alter.
Qed.

Lemma runner_call_rel c w : runner_rel (tabs w) (tabs (run_call decode_health decode_args c w).2).
Proof.
  destruct c; simpl; rewrite outcome_tabs.
  - apply rel_recover.
  - apply rel_register.
  - apply rel_beat.
  - apply rel_claim.
  - apply rel_heartbeat.
  - apply rel_begin.
  - apply rel_finish_step.
  - apply rel_log.
  - apply rel_image.
  - apply rel_finish.
Qed.
End frame.

(** ** Release statuses

    The Runner writes the status of a release only for a job of it that was
    active, and a terminal status only when that job has ended. *)
Definition synced (t t' : tables) : Prop := ∀ id r', releases t' !! id = Some r' →
  releases t !! id = Some r' ∨
  ∃ jid j s, jobs t !! jid = Some j ∧ terminal (jr_status j) = false ∧ jr_release j = id ∧ re_status r' = status_text s
    ∧ (terminal s = true → ∃ j', jobs t' !! jid = Some j' ∧ terminal (jr_status j') = true).

Lemma synced_same t t' : releases t' = releases t → synced t t'.
Proof. intros Hr id r'. rewrite Hr. by left. Qed.

(** One job's status is copied to its release. *)
Lemma synced_one t t' jid j s :
  jobs t !! jid = Some j → terminal (jr_status j) = false →
  releases t' = alter (set_release_status (status_text s)) (jr_release j) (releases t) →
  (terminal s = true → ∃ j', jobs t' !! jid = Some j' ∧ terminal (jr_status j') = true) → synced t t'.
Proof.
  intros Hj Ht Hr He id r'. rewrite Hr. destruct (decide (jr_release j = id)) as [<-|Hne]; [|rewrite lookup_alter_ne by done; by left].
  rewrite lookup_alter_eq. destruct (releases t !! jr_release j); [|done]. intros [= <-]. right. by exists jid, j, s.
Qed.

Lemma synced_trans t1 t2 t3 :
  keeps_terminal t1 t2 → keeps_terminal t2 t3 → static <$> jobs t2 = static <$> jobs t1 → synced t1 t2 → synced t2 t3 → synced t1 t3.
Proof.
  intros K1 K2 Hs S1 S2 id r' Hr. destruct (S2 _ _ Hr) as [H2|(jid & j & s & Hj & Ht & Hid & Hst & He)].
  - destruct (S1 _ _ H2) as [|(jid & j & s & Hj & Ht & Hid & Hst & He)]; [by left|right]. exists jid, j, s. split_and!; [done..|].
    intros (j' & Hj' & Ht')%He. exists j'. eauto.
  - right. destruct (fmap_lookup_eq _ _ _ _ _ Hs Hj) as (j1 & Hj1 & Es). apply static_columns in Es as (E1 & _).
    exists jid, j1, s. split_and!; [done| |congruence|done|done].
    destruct (terminal (jr_status j1)) eqn:Et; [|done]. rewrite (K1 _ _ Hj1 Et) in Hj. congruence.
Qed.

Lemma keeps_one t t' jid j j' :
  jobs t !! jid = Some j → terminal (jr_status j) = false → jobs t' = <[jid := j']> (jobs t) → keeps_terminal t t'.
Proof. intros Hj Ht Hjs k x Hk Hx. rewrite Hjs, lookup_insert_ne; [done|]. congruence. Qed.

Lemma synced_stale ids w u w1 :
  NoDup ids → Forall (λ id, ∃ j, jobs (tabs w) !! id = Some j ∧ running (jr_status j) = true) ids →
  iterM failStaleJob ids w = (Ok u, w1) → synced (tabs w) (tabs w1) ∧ keeps_terminal (tabs w) (tabs w1).
Proof.
  revert w. induction ids as [|id ids IH]; intros w Hnd Hall H; simpl in H.
  { injection H as _ <-. split; [by apply synced_same|by intros k x]. }
  inv_run H. apply NoDup_cons in Hnd as [Hnin Hnd]. apply Forall_cons in Hall as [(j & Hj & [Hr _]%running_not) Hall].
  destruct (failStaleJob_run _ _ _ _ _ Hj Hrun) as (_ & Hjs & _ & _ & Hrs).
  assert (keeps_terminal (tabs w) (tabs w0)) as K1 by by eapply keeps_one.
  destruct (IH w0) as [S2 K2]; [done| |done|].
  { rewrite Hjs. rewrite Forall_forall in Hall |- *. intros k Hk. rewrite lookup_insert_ne by congruence. by apply Hall. }
  split; [|by intros k y Hk Hy; auto]. eapply synced_trans; [exact K1|exact K2| | |exact S2].
  - rewrite Hjs, fmap_insert. apply insert_id. by rewrite lookup_fmap, Hj.
  - eapply (synced_one _ _ id j StatusFailed); [done|done|exact Hrs|]. intros _. rewrite Hjs, lookup_insert_eq. eauto.
Qed.

Section synced.
Context (decode_health : string → result (list HealthCheck)) (decode_args : string → result (list string)).
Context `{ErrorText}.

(** The releases are left alone. *)
Definition same_releases (t t' : tables) : Prop := releases t' = releases t.
#[export] Instance same_releases_preorder : PreOrder same_releases.
Proof. split; [done|]. unfold same_releases. congruence. Qed.

Lemma synced_transaction {A} b c (body : M db A) w :
  (∀ a w1, body (ticked_db (tabs w) false w) = (Ok a, w1) → synced (tabs w) (tabs w1)) →
  synced (tabs w) (tabs (transaction_with b c body w).2).
Proof.
  intros Hb. destruct (transaction_with b c body w) as [r w'] eqn:E. simpl.
  destruct (transaction_cases _ _ _ _ _ _ E) as [[-> _]|(a & w1 & _ & Hr & -> & _)]; [by apply synced_same|eauto].
Qed.
Lemma synced_lift {A B} (r : result A) (f : A → M db B) w :
  (∀ a, synced (tabs w) (tabs (f a w).2)) → synced (tabs w) (tabs ((lift r ≫= f) w).2).
Proof. intros Hf. unfold lift, mbind, M_bind. destruct r; [apply Hf|by apply synced_same]. Qed.

Lemma synced_recover skipped d w : synced (tabs w) (tabs (RecoverStaleJobs skipped d w).2).
Proof.
  unfold RecoverStaleJobs. apply synced_lift. intros _. apply synced_transaction. intros a w1 Hr. inv_run Hr.
  apply query_run in Hrun as (-> & Ht & _). simpl in Ht. injection Hr as _ <-. rewrite <- Ht.
  change (iterM failStaleJob (stale_ids skipped (durationInterval d) (now w) (tabs w)) w0 = (Ok x0, w2)) in Hrun0.
  eapply synced_stale; [apply stale_ids_NoDup| |exact Hrun0].
  apply Forall_forall. intros id (j & Hj & Hs & _)%elem_of_stale_ids. exists j. rewrite Ht. split; [done|].
  unfold stale in Hs. by apply andb_true_iff in Hs as [? _].
Qed.

Lemma synced_begin s id status w : running status = true → synced (tabs w) (tabs (BeginStep s id status w).2).
Proof.
  intros [Hnt _]%running_not. unfold BeginStep, transaction. apply synced_transaction. intros u w1 Hr. inv_run Hr.
  apply statement_run in Hrun as (Hx & Ht & _). apply statement_run in Hrun1 as (_ & Ht1 & _).
  apply statement_run in Hrun2 as (_ & Ht2 & _). simpl in *.
  destruct (owned id (workerID s) (tabs w)) as [j|] eqn:Ho; simpl in Hx, Ht; [|by subst].
  apply owned_Some in Ho as (Hj & _ & Hn). eapply (synced_one _ _ id j status); [done|done| |congruence].
  rewrite Ht2. assert (∀ o : option job_row, releases (match o with Some j => (Some {| step_ID := next_step_id (tabs w2); step_JobID := id;
    step_Name := status; step_Number := next_step_order id (tabs w2) |}, set_steps (insert (next_step_id (tabs w2)) {| st_job := id;
    st_attempt := jr_attempts j; st_order := next_step_order id (tabs w2); st_name := status; st_status := StepRunning; st_exit := 0;
    st_message := None; st_metadata := ∅ |}) (tabs w2)) | None => (None, tabs w2) end).2 = releases (tabs w2)) as -> by by intros [].
  rewrite Ht1, Ht. unfold sync_release. simpl. by rewrite lookup_insert_eq.
Qed.

Lemma synced_finish s id status f w : synced (tabs w) (tabs (FinishJob s id status f w).2).
Proof.
  destruct (FinishJob s id status f w) as [[u|e] w1] eqn:E; simpl.
  - destruct (FinishJob_run _ _ _ _ _ _ _ E) as (Hst & _ & j & n & (Hj & _ & Hn)%owned_Some & Hjs & _ & Hrs & _).
    eapply (synced_one _ _ id j status); [done|done| |].
    + rewrite Hrs. unfold sync_release, put_job. simpl. by rewrite lookup_insert_eq.
    + intros _. rewrite Hjs, lookup_insert_eq. eauto.
  - apply synced_same. unfold FinishJob, mbind, M_bind, lift in E. destruct (fail_if _ _) as [[]|?]; simplify_eq; [|done].
    by rewrite (transaction_err _ _ _ _ _ _ E).
Qed.

Lemma synced_claim s skipped d w : synced (tabs w) (tabs (ClaimJob decode_health decode_args s skipped d w).2).
Proof.
  destruct (ClaimJob decode_health decode_args s skipped d w) as [r w1] eqn:E. simpl.
  destruct (ClaimJob_cases _ _ _ _ _ _ _ _ E) as [[-> _]|(id & j & (Hj & He & _)%next_job_best & Hc)]; [by apply synced_same|].
  apply eligible_queued in He as [Hs _]. destruct Hc as [|e Hf|job w2 w3]; [by apply synced_same|..].
  - eapply (synced_one _ _ id j StatusFailed); [done|by rewrite Hs| |].
    + unfold sync_release. simpl. rewrite (alter_known _ _ _ _ Hj). by rewrite lookup_insert_eq.
    + intros _. rewrite jobs_sync. simpl. rewrite lookup_alter_eq, Hj. eauto.
  - eapply (synced_one _ _ id j StatusValidating); [done|by rewrite Hs| |done].
    unfold sync_release. simpl. rewrite (alter_known _ _ _ _ Hj). by rewrite lookup_insert_eq.
Qed.

(** The other calls. *)
Lemma lease_releases g f : (∀ n t, releases (f n t).2 = releases t) → each same_releases (executeLeaseMutation g f).
Proof. intros Hf. unfold executeLeaseMutation. each_steps. apply Hf. Qed.
Lemma synced_each {A} (m : M db A) w : each same_releases m → synced (tabs w) (tabs (m w).2).
Proof. intros Hm. apply synced_same, Hm. Qed.

Lemma runner_call_synced c w : call_allowed c → synced (tabs w) (tabs (run_call decode_health decode_args c w).2).
Proof.
  intros Hc. destruct c; simpl; rewrite outcome_tabs; auto using synced_recover, synced_claim, synced_begin, synced_finish;
    apply synced_each; unfold RegisterRunner, HeartbeatRunner, Heartbeat, FinishStep, AppendLog, RecordImage; each_steps;
    try apply lease_releases; intros; unfold finishStepSQL, appendLogSQL, recordImageSQL; simpl; by repeat case_match.
Qed.
End synced.
