(* ===== verification/Encoding.v ===== *)
(** * Textual encodings (packages encoding/hex and encoding/base64)

    The encoders and decoders of the Go standard library the Runner calls, with
    their round trips.  The decoders of base64 skip carriage returns and line
    feeds and ignore the unused bits of the last group, as Go's do. *)
From S2P Require Import Prelude GoIO GoString.

(** ** Hexadecimal *)
Definition hex_digit (z : Z) : ascii := if z <? 10 then zbyte (48 + z) else zbyte (87 + z).
Definition hex_encode (b : bytes) : string :=
  of_chars (concat ((λ c, [hex_digit (byte c / 16); hex_digit (byte c `mod` 16)]) <$> b)).
Definition hex_value (c : ascii) : option Z :=
  if byte_in 48 57 c then Some (byte c - 48)
  else if byte_in 97 102 c then Some (byte c - 87)
  else if byte_in 65 70 c then Some (byte c - 55) else None.
Fixpoint hex_decode_chars (l : list ascii) : option bytes :=
  match l with
  | [] => Some []
  | [_] => None
  | a :: b :: l => x ← hex_value a; y ← hex_value b; r ← hex_decode_chars l; Some (zbyte (16 * x + y) :: r)
  end.
Definition hex_decode (s : string) : option bytes := hex_decode_chars (chars s).

(** ** Base64, standard alphabet *)
Definition sextet_char (z : Z) : ascii :=
  if z <? 26 then zbyte (65 + z) else if z <? 52 then zbyte (71 + z) else if z <? 62 then zbyte (z - 4)
  else if z =? 62 then "+"%char else "/"%char.
Definition sextet_value (c : ascii) : option Z :=
  if byte_in 65 90 c then Some (byte c - 65) else if byte_in 97 122 c then Some (byte c - 71)
  else if byte_in 48 57 c then Some (byte c + 4) else if is_char "+"%char c then Some 62
  else if is_char "/"%char c then Some 63 else None.

(** The three bytes of a group of four characters, first to last. *)
Definition group_bytes (a b c d : Z) : bytes :=
  let v := ((a * 64 + b) * 64 + c) * 64 + d in
  [zbyte (v / 65536); zbyte ((v / 256) `mod` 256); zbyte (v `mod` 256)].

Fixpoint raw_encode_chars (l : bytes) : list ascii :=
  match l with
  | [] => []
  | [x] => let v := byte x * 16 in [sextet_char (v / 64); sextet_char (v `mod` 64)]
  | [x; y] => let v := (byte x * 256 + byte y) * 4 in
              [sextet_char (v / 4096); sextet_char ((v / 64) `mod` 64); sextet_char (v `mod` 64)]
  | x :: y :: z :: l =>
      let v := (byte x * 256 + byte y) * 256 + byte z in
      sextet_char (v / 262144) :: sextet_char ((v / 4096) `mod` 64) :: sextet_char ((v / 64) `mod` 64)
      :: sextet_char (v `mod` 64) :: raw_encode_chars l
  end.
Definition pad_of (l : bytes) : list ascii :=
  match length l `mod` 3 with 1 => ["="; "="] | 2 => ["="] | _ => [] end%char%nat.
(** [base64.RawStdEncoding.EncodeToString], [base64.StdEncoding.EncodeToString]. *)
Definition raw_base64_encode (l : bytes) : string := of_chars (raw_encode_chars l).
Definition base64_encode (l : bytes) : string := of_chars (raw_encode_chars l ++ pad_of l).

(** The groups of a text without line breaks; [padded] selects the encoding
    with padding. *)
Fixpoint decode_groups (padded : bool) (l : list ascii) : option bytes :=
  match l with
  | [] => Some []
  | [a; b] =>
      if padded then None else
      x ← sextet_value a; y ← sextet_value b; Some (take 1 (group_bytes x y 0 0))
  | [a; b; c] =>
      if padded then None else
      x ← sextet_value a; y ← sextet_value b; z ← sextet_value c; Some (take 2 (group_bytes x y z 0))
  | a :: b :: c :: d :: l =>
      x ← sextet_value a; y ← sextet_value b;
      match sextet_value c with
      | Some z =>
          match sextet_value d with
          | Some t => r ← decode_groups padded l; Some (group_bytes x y z t ++ r)
          | None => if padded && is_char "="%char d && bool_decide (l = []) then Some (take 2 (group_bytes x y z 0)) else None
          end
      | None => if padded && is_char "="%char c && is_char "="%char d && bool_decide (l = [])
                then Some (take 1 (group_bytes x y 0 0)) else None
      end
  | _ => None
  end.
Definition line_break (c : ascii) : bool := is_char "010"%char c || is_char "013"%char c.
Definition strip_breaks (l : list ascii) : list ascii := filter (λ c, line_break c = false) l.
(** [base64.RawStdEncoding.DecodeString], [base64.StdEncoding.DecodeString]. *)
Definition raw_base64_decode (s : string) : option bytes := decode_groups false (strip_breaks (chars s)).
Definition base64_decode (s : string) : option bytes := decode_groups true (strip_breaks (chars s)).

(** ** Round trips *)
Lemma zbyte_byte c : zbyte (byte c) = c.
Proof. unfold zbyte, byte. by rewrite N2Z.id, Strings.Ascii.ascii_N_embedding. Qed.
Lemma zbyte_eq z c : z = byte c → zbyte z = c.
Proof. intros ->. apply zbyte_byte. Qed.
(** A property of the integers below [n] decided by evaluation. *)
Lemma all_below (P : Z → bool) (n : nat) :
  forallb (λ k, P (Z.of_nat k)) (seq 0 n) = true → ∀ z, 0 ≤ z < Z.of_nat n → P z = true.
Proof.
  intros Hall z Hz. rewrite forallb_Forall, Forall_forall in Hall.
  specialize (Hall (Z.to_nat z)). rewrite Z2Nat.id in Hall by lia. apply Hall. apply elem_of_seq. lia.
Qed.

Lemma all_chars (P : ascii → bool) : forallb (λ k, P (zbyte (Z.of_nat k))) (seq 0 256) = true → ∀ c, P c = true.
Proof.
  intros H c. rewrite <- (zbyte_byte c). pose proof (byte_range c).
  apply (all_below (λ z, P (zbyte z)) 256 H). lia.
Qed.
Definition sextet_ok (z : Z) : bool :=
  bool_decide (sextet_value (sextet_char z) = Some z) && negb (line_break (sextet_char z)).
Definition hex_ok (z : Z) : bool := bool_decide (hex_value (hex_digit z) = Some z).
Lemma sextet_roundtrip z : 0 ≤ z < 64 → sextet_value (sextet_char z) = Some z ∧ line_break (sextet_char z) = false.
Proof.
  intros Hz. assert (sextet_ok z = true) as H by (apply (all_below sextet_ok 64); [by vm_compute|done]).
  apply andb_true_iff in H as [H1%bool_decide_eq_true H2%negb_true_iff]. done.
Qed.
Lemma hex_digit_roundtrip z : 0 ≤ z < 16 → hex_value (hex_digit z) = Some z.
Proof.
  intros Hz. assert (hex_ok z = true) as H by (apply (all_below hex_ok 16); [by vm_compute|done]).
  by apply bool_decide_eq_true in H.
Qed.

Lemma hex_roundtrip b : hex_decode (hex_encode b) = Some b.
Proof.
  unfold hex_decode, hex_encode. rewrite chars_of_chars. induction b as [|c b IH]; [done|].
  pose proof (byte_range c). cbn [fmap list_fmap concat app hex_decode_chars].
  rewrite !hex_digit_roundtrip by (Z.div_mod_to_equations; lia).
  cbn [mbind option_bind]. rewrite IH. cbn [mbind option_bind]. do 2 f_equal.
  rewrite <- (zbyte_byte c) at 3. f_equal. pose proof (Z.div_mod (byte c) 16). lia.
Qed.

Lemma hex_decode_length s bs : hex_decode s = Some bs → slen s = 2 * blen bs.
Proof.
  unfold hex_decode, blen. rewrite slen_chars. generalize (chars s) as l. clear s. revert bs.
  fix IH 2. intros bs [|a [|b l]]; [by intros [= <-]|done|]. cbn [hex_decode_chars]. specialize (IH).
  destruct (hex_value a), (hex_value b); try done. cbn. destruct (hex_decode_chars l) as [r|] eqn:E; [|done]. cbn.
  intros [= <-]. apply IH in E. simpl. lia.
Qed.

Lemma length_hex_encode b : slen (hex_encode b) = 2 * blen b.
Proof.
  unfold hex_encode, blen. rewrite slen_chars, chars_of_chars.
  induction b as [|c b IH]; [done|]. cbn [fmap list_fmap concat app length] in *. lia.
Qed.

Lemma raw_encode_breaks l : strip_breaks (raw_encode_chars l) = raw_encode_chars l.
Proof.
  apply list_filter_all. revert l.
  assert (∀ z, 0 ≤ z < 64 → line_break (sextet_char z) = false) as Hb by (intros z Hz; by apply sextet_roundtrip).
  fix IH 1. intros [|x [|y [|z l]]]; cbn [raw_encode_chars]; cbv zeta; repeat constructor; try apply IH; apply Hb;
    repeat match goal with c : ascii |- _ => lazymatch goal with H : 0 ≤ byte c < 256 |- _ => fail | _ => pose proof (byte_range c) end end;
    Z.div_mod_to_equations; lia.
Qed.

Lemma decode_raw_encode l : decode_groups false (raw_encode_chars l) = Some l.
Proof.
  assert (∀ z, 0 ≤ z < 64 → sextet_value (sextet_char z) = Some z) as Hs by (intros z Hz; by apply sextet_roundtrip).
  revert l. fix IH 1. intros [|x [|y [|z l]]]; cbn [raw_encode_chars]; cbv zeta; cbn [decode_groups]; [done|..];
    repeat match goal with c : ascii |- _ => lazymatch goal with H : 0 ≤ byte c < 256 |- _ => fail | _ => pose proof (byte_range c) end end.
  all: rewrite !Hs by (Z.div_mod_to_equations; lia); cbn [mbind option_bind].
  3: rewrite IH; cbn [mbind option_bind].
  all: unfold group_bytes; cbv zeta; cbn [take firstn app]; do 2 f_equal; repeat f_equal.
  all: apply zbyte_eq; Z.div_mod_to_equations; lia.
Qed.

Lemma raw_base64_roundtrip l : raw_base64_decode (raw_base64_encode l) = Some l.
Proof.
  unfold raw_base64_decode, raw_base64_encode. rewrite chars_of_chars, raw_encode_breaks. apply decode_raw_encode.
Qed.
