(* ===== verification/Crypto.v ===== *)
(** * Encrypted credentials (runner/internal/crypto/secretbox.go)

    AES-GCM is a parameter with the two documented facts of an AEAD: [Open]
    returns a plaintext exactly for the ciphertexts [Seal] makes of it under
    the same nonce and associated data, and [Seal] adds [Overhead] bytes. *)
From S2P Require Import Prelude GoIO GoString Encoding.

(** [cipher.AEAD]. *)
Record AEAD := {
  NonceSize : nat;
  Overhead : nat;
  Seal : bytes → bytes → bytes → bytes;
  Open : bytes → bytes → bytes → option bytes
}.

Class AEADSpec (a : AEAD) : Prop := {
  open_seal nonce plaintext aad ciphertext :
    length nonce = NonceSize a →
    Open a nonce ciphertext aad = Some plaintext ↔ ciphertext = Seal a nonce plaintext aad;
  length_seal nonce plaintext aad : length (Seal a nonce plaintext aad) = (length plaintext + Overhead a)%nat
}.

(* src: runner/internal/crypto/secretbox.go:15-15 envelopePrefix *)
Definition envelopePrefix : string := "v1:".

(* src: runner/internal/crypto/secretbox.go:17-19 SecretBox *)
Record SecretBox := { aead : AEAD }.

(** Padded base64, raw base64, hexadecimal. *)
Definition key_decoders : list (string → option bytes) := [base64_decode; raw_base64_decode; hex_decode].

(* src: runner/internal/crypto/secretbox.go:44-49 decodeKey *)
Fixpoint decode_key_loop (candidates : list (string → option bytes)) (value : string) : result bytes :=
  match candidates with
  | [] => Err (error_new "ENCRYPTION_KEY must encode exactly 32 bytes (base64 or hex)")
  | decode :: candidates =>
      match decode value with
      | Some key => if (length key =? 32)%nat then Ok key else decode_key_loop candidates value
      | None => decode_key_loop candidates value
      end
  end.
(* src: runner/internal/crypto/secretbox.go:37-50 decodeKey *)
Definition decodeKey (value : string) : result bytes := decode_key_loop key_decoders (trim_space value).

Section secretbox.
(** [aes.NewCipher] and [cipher.NewGCM]. *)
Context (new_cipher : bytes → result bytes) (new_gcm : bytes → result AEAD).

(* src: runner/internal/crypto/secretbox.go:21-35 NewSecretBox *)
Definition NewSecretBox (encodedKey : string) : result SecretBox :=
  key ← decodeKey encodedKey;
  block ← map_err (wrap "create AES cipher: %w") (new_cipher key);
  a ← map_err (wrap "create AES-GCM: %w") (new_gcm block);
  Ok {| aead := a |}.
End secretbox.

(* src: runner/internal/crypto/secretbox.go:52-69 (SecretBox).Decrypt *)
Definition Decrypt (s : SecretBox) (envelope aad : string) : result bytes :=
  let a := aead s in
  _ ← fail_if (negb (has_prefix envelope envelopePrefix)) (error_new "unsupported encrypted value format");
  raw ← of_option (wrap "decode encrypted value: %w" (External "illegal base64 data"))
          (raw_base64_decode (trim_prefix envelope envelopePrefix));
  _ ← fail_if (length raw <? NonceSize a + Overhead a)%nat (error_new "encrypted value is too short");
  let nonce := take (NonceSize a) raw in
  let ciphertext := drop (NonceSize a) raw in
  of_option (error_new "decrypt encrypted value: authentication failed") (Open a nonce ciphertext (to_bytes aad)).

(** [random]: what [io.ReadFull(rand.Reader, nonce)] returned. *)
(* src: runner/internal/crypto/secretbox.go:71-81 (SecretBox).Encrypt *)
Definition Encrypt (s : SecretBox) (random : result bytes) (plaintext : bytes) (aad : string) : result string :=
  nonce ← map_err (wrap "generate nonce: %w") random;
  let sealed := Seal (aead s) nonce plaintext (to_bytes aad) in
  Ok (envelopePrefix +:+ raw_base64_encode (nonce ++ sealed)).

(** ** Theorems *)
Lemma trim_prefix_app p s : trim_prefix (p +:+ s) p = s.
Proof.
  unfold trim_prefix. assert (has_prefix (p +:+ s) p = true) as -> by (apply has_prefix_spec; eauto).
  unfold drop_str. rewrite chars_app, <- length_chars, drop_app_length. apply of_chars_chars.
Qed.

Lemma decode_key_loop_ok candidates value key :
  decode_key_loop candidates value = Ok key → length key = 32%nat ∧ ∃ d, d ∈ candidates ∧ d value = Some key.
Proof.
  induction candidates as [|d l IH]; simpl; [done|].
  destruct (d value) as [k|] eqn:E.
  - destruct (length k =? 32)%nat eqn:El.
    + intros [= ->]. apply Nat.eqb_eq in El. split; [done|]. exists d. split; [left|done].
    + intros H. destruct (IH H) as (? & d' & ? & ?). split; [done|]. exists d'. split; [by right|done].
  - intros H. destruct (IH H) as (? & d' & ? & ?). split; [done|]. exists d'. split; [by right|done].
Qed.

(** What was sealed opens. *)
Lemma decrypt_sealed s aad plaintext text nonce :
  AEADSpec (aead s) → length nonce = NonceSize (aead s) →
  raw_base64_decode text = Some (nonce ++ Seal (aead s) nonce plaintext (to_bytes aad)) →
  Decrypt s (envelopePrefix +:+ text) aad = Ok plaintext.
Proof.
  intros Hs Hn Hd. unfold Decrypt.
  assert (has_prefix (envelopePrefix +:+ text) envelopePrefix = true) as -> by (apply has_prefix_spec; eauto).
  rewrite trim_prefix_app, Hd. cbn [negb fail_if of_option mbind result_bind].
  rewrite length_app, length_seal, Hn.
  replace (_ <? _)%nat with false by (symmetry; apply Nat.ltb_ge; lia). cbn [fail_if mbind result_bind].
  rewrite <- Hn, take_app_length, drop_app_length.
  by rewrite (proj2 (open_seal nonce plaintext (to_bytes aad) _ Hn) eq_refl).
Qed.

(** Decryption accepts exactly the envelopes that encryption makes: the
    prefix v1:, then the base64 text of a nonce followed by the sealing of the
    returned plaintext under that nonce and the same associated data; a value
    sealed for another credential or version never opens to anything else, and
    what [Encrypt] returns decrypts to what was encrypted. *)
Lemma decrypt_opens_exactly_what_was_sealed s envelope aad plaintext :
  AEADSpec (aead s) →
  (Decrypt s envelope aad = Ok plaintext ↔
   ∃ text nonce, envelope = envelopePrefix +:+ text ∧ length nonce = NonceSize (aead s) ∧
     raw_base64_decode text = Some (nonce ++ Seal (aead s) nonce plaintext (to_bytes aad))) ∧
  (∀ nonce, length nonce = NonceSize (aead s) →
     ∃ e, Encrypt s (Ok nonce) plaintext aad = Ok e ∧ Decrypt s e aad = Ok plaintext).
Proof.
  intros Hs. split; [split|].
  - unfold Decrypt. cbv zeta. intros H. inv_ok H. apply negb_false_iff, has_prefix_spec in Hok as [text ->].
    rewrite trim_prefix_app in Hok0. apply Nat.ltb_ge in Hok1.
    assert (length (take (NonceSize (aead s)) x0) = NonceSize (aead s)) as Hn by (rewrite length_take; lia).
    apply (open_seal _ _ _ _ Hn) in H. exists text, (take (NonceSize (aead s)) x0).
    split; [done|]. split; [done|]. by rewrite <- H, take_drop.
  - intros (text & nonce & -> & Hn & Hd). by eapply decrypt_sealed.
  - intros nonce Hn. eexists. split; [done|]. eapply decrypt_sealed; [done..|]. apply raw_base64_roundtrip.
Qed.

(** The encryption key is exactly 32 bytes, whichever of the three
    encodings it is written in, and the padded base64, raw base64 or
    hexadecimal text of 32 bytes is accepted as some such key. *)
Lemma key_is_32_bytes value :
  (∀ key, decodeKey value = Ok key → length key = 32%nat ∧ ∃ d, d ∈ key_decoders ∧ d (trim_space value) = Some key) ∧
  ((∃ d key, d ∈ key_decoders ∧ d (trim_space value) = Some key ∧ length key = 32%nat) → is_ok (decodeKey value) = true).
Proof.
  split; [apply decode_key_loop_ok|]. unfold decodeKey. intros (d & key & Hd & Hk & Hl).
  induction key_decoders as [|d' l IH]; [by apply elem_of_nil in Hd|]. simpl.
  apply elem_of_cons in Hd as [-> |Hd].
  - rewrite Hk. by rewrite (proj2 (Nat.eqb_eq _ _) Hl).
  - destruct (d' (trim_space value)) as [k|]; [destruct (length k =? 32)%nat; [done|]|]; by apply IH.
Qed.

(** A concrete AEAD for the witness: the ciphertext is the plaintext followed
    by the first three bytes of nonce and associated data. *)
Definition toy_aead : AEAD := {|
  NonceSize := 2; Overhead := 3;
  Seal nonce p aad := p ++ take 3 (nonce ++ aad ++ ["0"; "0"; "0"]%char);
  Open nonce c aad :=
    let n := (length c - 3)%nat in
    if bool_decide (c = take n c ++ take 3 (nonce ++ aad ++ ["0"; "0"; "0"]%char)) then Some (take n c) else None
|}.

Lemma toy_spec : AEADSpec toy_aead.
Proof.
  assert (∀ nonce aad : bytes, length (take 3 (nonce ++ aad ++ ["0"; "0"; "0"]%char)) = 3%nat) as Hl.
  { intros nonce aad. rewrite length_take, !length_app. cbn [length]. lia. }
  constructor.
  - intros nonce p aad c Hn. simpl. split.
    + case_bool_decide as Hc; [|done]. by intros [= <-].
    + intros ->. rewrite length_app, Hl. replace (length p + 3 - 3)%nat with (length p) by lia.
      rewrite take_app_length. by rewrite bool_decide_true.
  - intros nonce p aad. simpl. by rewrite length_app, Hl.
Qed.

Example key_forms :
  is_ok (decodeKey " AAAAAAAAAAAAAAAAAAAAAAAAAAAAAAAAAAAAAAAAAAA= ") = true
  ∧ is_ok (decodeKey "AAAAAAAAAAAAAAAAAAAAAAAAAAAAAAAAAAAAAAAAAAA") = true
  ∧ is_ok (decodeKey "c2hvcnQ=") = false.
Proof. by vm_compute. Qed.
