(* ===== verification/Files.v ===== *)
(** * More file operations (packages os, io, path/filepath)

    [os.WriteFile], [os.MkdirTemp], bounded reads of an open file and
    [filepath.WalkDir], over the file-system model of OS.v. *)
From S2P Require Import Prelude GoIO GoString GoPath OS.

Definition truncate_node (n : node) : node :=
  {| n_kind := KReg []; n_uid := n_uid n; n_gid := n_gid n; n_perm := n_perm n;
     n_setgid := n_setgid n; n_sticky := n_sticky n |}.

(** [os.OpenFile(p, O_WRONLY|O_CREATE|O_TRUNC, perm)]: links are followed. *)
Definition open_trunc (p : string) (perm : Z) : M os location :=
  sys (λ w, loc ← resolve true p w;
            match fs w !! loc with
            | Some n =>
                match n_kind n with
                | KReg _ => Ok (loc, <[loc := truncate_node n]> (fs w))
                | KDir => Err EISDIR
                | _ => Err (External "not writable")
                end
            | None => if bool_decide (loc = []) then Err EISDIR
                      else Ok (loc, <[loc := fresh w loc (KReg []) perm]> (fs w))
            end).

(** [os.WriteFile]: the close happens in any case; a write error wins. *)
Definition write_file (p : string) (data : bytes) (perm : Z) : M os unit :=
  loc ← open_trunc p perm;
  r ← try (write_open loc data);
  c ← try (close_open loc);
  match r with Err e => throw e | Ok _ => lift c end.

(** [os.Open] of a file to read, and reading at most [n] of its bytes: a
    failing read may have delivered some. *)
Definition open_read (p : string) : M os location :=
  sys (λ w, loc ← resolve true p w; _ ← of_option ENOENT (fs w !! loc); Ok (loc, fs w)).
Definition contents (loc : location) (w : os) : result bytes :=
  match fs w !! loc with
  | Some n => match n_kind n with KReg c => Ok c | KDir => Err EISDIR | _ => Err (External "not readable") end
  | None => Err ENOENT
  end.
Definition read_upto (loc : location) (n : nat) : M os (bytes * option goerr) := λ w,
  match faults w (tick w) with
  | Some (e, k) => (Ok (match contents loc w with Ok c => take (k `min` n) c | Err _ => [] end, Some (External e)), ticked w)
  | None => (Ok (match contents loc w with Ok c => (take n c, None) | Err e => ([], Some e) end), ticked w)
  end.

(** [joinPath] of package os: nothing is cleaned. *)
Definition os_join (dir name : string) : string :=
  if has_suffix dir "/" then dir +:+ name else dir +:+ "/" +:+ name.

(** [os.MkdirTemp]: [randoms] are the numbers drawn, in decimal; a name that
    exists is skipped, up to 10000 times. *)
Fixpoint mkdir_temp (dir prefix : string) (randoms : list string) : M os string :=
  match randoms with
  | [] => throw EEXIST
  | r :: randoms =>
      let name := os_join dir (prefix +:+ r) in
      made ← try (mkdir name 448);
      match made with
      | Ok _ => mret name
      | Err e => if errors_is ErrExist e then mkdir_temp dir prefix randoms else throw e
      end
  end.

(** The entries of a directory with their types. *)
Definition read_dir_entries (p : string) : M os (list (string * node)) :=
  sys (λ w, loc ← resolve true p w; n ← of_option ENOENT (fs w !! loc);
            if is_dir n then
              Ok (omap (λ x, n ← fs w !! (loc ++ [x]); Some (x, n)) (children (fs w) loc), fs w)
            else Err ENOTDIR).

(** [filepath.WalkDir]: lexical order, links not followed; [visit] gets each
    entry, and its error ends the walk.  A failing [ReadDir] is reported to
    [visit], which returns it.  [fuel] bounds the depth. *)
Fixpoint walk_dir {S} (visit : string → node → S → result S) (fuel : nat) (p : string) (entry : node) (s : S) : M os S :=
  s ← lift (visit p entry s);
  if is_dir entry then
    match fuel with
    | O => throw (External "file name too long")
    | Datatypes.S fuel =>
        entries ← read_dir_entries p;
        (fix each (l : list (string * node)) (s : S) : M os S :=
           match l with
           | [] => mret s
           | (x, n) :: l => s ← walk_dir visit fuel (path_join [p; x]) n s; each l s
           end) entries s
    end
  else mret s.

(** [os.Rename] of a file: neither name's last element is followed. *)
Definition rename (old new : string) : M os unit :=
  sys (λ w, from ← resolve false old w; n ← of_option ENOENT (fs w !! from);
            to ← resolve false new w;
            _ ← fail_if (bool_decide (to = []) || match fs w !! to with Some k => is_dir k | None => false end) EEXIST;
            Ok ((), <[to := n]> (delete from (fs w)))).
(** [File.Sync]. *)
Definition sync_open (loc : location) : M os unit := sys (λ w, Ok ((), fs w)).

(** ** Reading operations leave the tree alone *)
Lemma open_read_keeps p P : preserves (fsP P) (open_read p).
Proof. apply sys_read_keeps. intros w a m H. inv_ok H. done. Qed.
Lemma read_dir_entries_keeps p P : preserves (fsP P) (read_dir_entries p).
Proof. apply sys_read_keeps. intros w a m H. inv_ok H. destruct (is_dir x0); by simplify_eq. Qed.
Lemma close_open_keeps l P : preserves (fsP P) (close_open l).
Proof. apply sys_read_keeps. by intros w a m [= <- <-]. Qed.
Lemma read_upto_keeps l n P : preserves (fsP P) (read_upto l n).
Proof. apply preserves_state. intros w Hw. unfold read_upto. by destruct (faults w (tick w)) as [[e k]|]. Qed.
#[export] Hint Resolve stat_with_keeps lstat_keeps stat_keeps open_read_keeps read_file_keeps read_dir_entries_keeps close_open_keeps
  read_upto_keeps eval_symlinks_keeps : preserves_db.

Lemma walk_dir_keeps {S} (visit : string → node → S → result S) fuel P : ∀ p entry s,
  preserves (fsP P) (walk_dir visit fuel p entry s).
Proof.
  induction fuel as [|fuel IH]; intros p entry s; simpl;
    (apply preserves_bind; [apply preserves_lift|intros s1]); destruct (is_dir entry); auto with preserves_db.
  apply preserves_bind; [apply read_dir_entries_keeps|]. intros entries. revert s1.
  induction entries as [|[x n] l IHl]; intros s1; [apply preserves_ret|]. apply preserves_bind; [apply IH|]. apply IHl.
Qed.

(** Decompose a computation into its calls and apply what they keep. *)
Ltac keeps :=
  repeat first
    [ apply preserves_ret | apply preserves_throw | apply preserves_lift | apply preserves_gets
    | apply lstat_keeps | apply stat_keeps | apply stat_with_keeps | apply eval_symlinks_keeps | apply open_read_keeps
    | apply read_file_keeps | apply read_dir_entries_keeps | apply close_open_keeps | apply read_upto_keeps | apply walk_dir_keeps
    | apply preserves_wrap | apply preserves_try
    | apply preserves_bind; [|intros ?] ].

(** ** Results of the reading calls *)
Lemma sys_run {A} (f : os → result (A * filesystem)) w a w' :
  sys f w = (Ok a, w') → ∃ m, f w = Ok (a, m) ∧ w' = ticked (set_fs m w).
Proof.
  unfold sys. destruct (faults w (tick w)) as [[e k]|]; [done|]. destruct (f w) as [[b m]|e]; [|done].
  intros [= <- <-]. by eexists.
Qed.

(** A name that is not a link: following the last component makes no
    difference, nor does a larger budget of links. *)
Lemma walk_follow k k' m cur todo loc :
  (k ≤ k')%nat → Forall (free_of slash) todo → walk k m false cur todo = Ok loc →
  (∀ n, m !! loc = Some n → is_symlink n = false) → walk k' m true cur todo = Ok loc.
Proof.
  intros Hk Htodo Hw Hloc. revert k' cur todo Hk Htodo Hw. induction k as [k IHk] using lt_wf_ind.
  intros k' cur todo Hk Htodo. revert cur. induction Htodo as [|x todo Hx Htodo IH]; intros cur.
  { by rewrite !walk_nil. }
  destruct (decide (x = "" ∨ x = ".")) as [Hskip|Hskip]; [rewrite !walk_skip by done; apply IH|].
  destruct (decide (x = "..")) as [->|Hdot]; [rewrite !walk_dotdot; apply IH|].
  assert (normal x) as Hn by (constructor; naive_solver). rewrite !walk_normal by done.
  destruct (m !! (cur ++ [x])) as [n|] eqn:E; [|done]. destruct (n_kind n) eqn:Hkind; [done|apply IH| |done].
  rewrite andb_false_r. destruct (bool_decide (todo = [])) eqn:Et; simpl.
  - intros [= <-]. specialize (Hloc n E). unfold is_symlink in Hloc. by rewrite Hkind in Hloc.
  - destruct k as [|k]; [done|]. destruct k' as [|k']; [lia|]. apply IHk; [lia|lia|].
    apply Forall_app. split; [apply split_byte_free|done].
Qed.

(** A path whose links stay below [l] and that names a regular file. *)
Definition file_under (m : filesystem) (l : location) (p : string) : Prop :=
  ∃ q loc n, Forall normal q ∧ p = abs_path (l ++ q) ∧ l `prefix_of` loc ∧ real_path m loc
             ∧ m !! loc = Some n ∧ is_regular n = true.

(** What [filepath.EvalSymlinks] returns. *)
Lemma eval_walk p w q w' :
  is_abs p = true → eval_symlinks p w = (Ok q, w') →
  w' = ticked (set_fs (fs w) w) ∧ ∃ loc, q = abs_path loc ∧ walk 255 (fs w) true [] (split_byte slash p) = Ok loc.
Proof.
  intros Ha (m & Hf & ->)%sys_run. rewrite Ha in Hf.
  destruct (walk 255 (fs w) true [] (split_byte slash p)) as [loc|e]; [|done]. simpl in Hf.
  assert (q = abs_path loc ∧ m = fs w) as [-> ->].
  { case_bool_decide; simpl in Hf; [by injection Hf as <- <-|].
    destruct (fs w !! loc); simpl in Hf; [by injection Hf as <- <-|done]. }
  split; [done|]. by exists loc.
Qed.

(** ** Files that appear or change *)
Definition plain (n : node) : Prop := match n_kind n with KDir | KSymlink _ => False | _ => True end.
(** Directories and links are the same in both trees. *)
Definition files_changed (m m' : filesystem) : Prop :=
  ∀ l, m' !! l = m !! l ∨ ((∀ n, m !! l = Some n → plain n) ∧ (∀ n', m' !! l = Some n' → plain n')).

Lemma walk_files_changed k m m' b cur todo loc :
  files_changed m m' → Forall (free_of slash) todo → walk k m b cur todo = Ok loc → walk k m' b cur todo = Ok loc.
Proof.
  intros Hm Htodo Hw. revert cur todo Htodo Hw. induction k as [k IHk] using lt_wf_ind.
  intros cur todo Htodo. revert cur. induction Htodo as [|x todo Hx Htodo IH]; intros cur.
  { by rewrite !walk_nil. }
  destruct (decide (x = "" ∨ x = ".")) as [Hskip|Hskip]; [rewrite !walk_skip by done; apply IH|].
  destruct (decide (x = "..")) as [->|Hdot]; [rewrite !walk_dotdot; apply IH|].
  assert (normal x) as Hn by (constructor; naive_solver). rewrite !walk_normal by done.
  destruct (Hm (cur ++ [x])) as [->|(Hp & Hp')].
  - destruct (m !! (cur ++ [x])) as [n|] eqn:Em; [|done]. destruct (n_kind n); [done|apply IH| |done].
    destruct (_ && _); [done|]. destruct k as [|k]; [done|]. apply IHk; [lia|].
    apply Forall_app. split; [apply split_byte_free|done].
  - intros Hw. assert ((if bool_decide (todo = []) then Ok (cur ++ [x]) else Err ENOTDIR) = Ok loc) as Hend.
    { destruct (m !! (cur ++ [x])) as [n|]; [specialize (Hp n eq_refl); unfold plain in Hp; by destruct (n_kind n)|].
      by case_bool_decide. }
    destruct (m' !! (cur ++ [x])) as [n'|]; [|by case_bool_decide]. specialize (Hp' n' eq_refl). unfold plain in Hp'. by destruct (n_kind n').
Qed.

(** The path names a file with this content. *)
Definition file_holds (p : string) (content : bytes) (w : os) : Prop :=
  ∃ loc, resolve true p w = Ok loc ∧ contents loc w = Ok content.

Lemma resolve_changed b p w w' loc :
  files_changed (fs w) (fs w') → cwd w' = cwd w → resolve b p w = Ok loc → resolve b p w' = Ok loc.
Proof.
  intros Hm Hc. unfold resolve. rewrite Hc. case_bool_decide; [done|]. apply walk_files_changed; [done|apply split_byte_free].
Qed.

(** The trees differ at [l] only, where there is now a regular file. *)
Definition only_file (l : location) (w w' : os) : Prop :=
  cwd w' = cwd w ∧ (∀ k, k ≠ l → fs w' !! k = fs w !! k) ∧ ∃ n, fs w' !! l = Some n ∧ is_regular n = true.

Lemma only_file_changed l w w' :
  only_file l w w' → (∀ n, fs w !! l = Some n → plain n) → files_changed (fs w) (fs w').
Proof.
  intros (_ & Hm & n & Hn & Hr) Hp k. destruct (decide (k = l)) as [->|Hk]; [right|left; by apply Hm].
  split; [done|]. intros n' Hn'. rewrite Hn in Hn'. injection Hn' as <-. unfold is_regular in Hr. unfold plain. by destruct (n_kind n).
Qed.
Lemma only_file_alter l f w w' m :
  (∀ n, is_regular n = true → is_regular (f n) = true) → only_file l w w' →
  m = ticked (set_fs (alter f l (fs w')) w') → only_file l w m.
Proof.
  intros Hf (Hc & Hm & n & Hn & Hr) ->. split; [done|]. split.
  - intros k Hk. cbn. rewrite lookup_alter_ne by done. by apply Hm.
  - exists (f n). cbn. rewrite lookup_alter_eq, Hn. split; [done|by apply Hf].
Qed.
Lemma append_node_regular data n : is_regular n = true → is_regular (append_node data n) = true.
Proof. unfold is_regular. cbn. by destruct (n_kind n). Qed.

Lemma write_open_run loc data w w' : write_open loc data w = (Ok (), w') →
  w' = ticked (set_fs (alter (append_node data) loc (fs w)) w).
Proof. unfold write_open. destruct (faults w (tick w)) as [[e n]|]; [done|]. by intros [= <-]. Qed.
Lemma close_open_run loc w w' : close_open loc w = (Ok (), w') → w' = ticked (set_fs (fs w) w).
Proof. by intros (m & [= <-] & ->)%sys_run. Qed.

(** What [os.WriteFile] leaves when it succeeds. *)
Lemma write_file_ok p data perm w w' : write_file p data perm w = (Ok (), w') → file_holds p data w'.
Proof.
  unfold write_file. intros H. inv_run H. rename x into loc. destruct x0 as [[]|]; [|done].
  apply liftM_ok in H as [-> ->]. apply write_open_run in Hrun0 as ->. apply close_open_run in Hrun1 as ->.
  apply sys_run in Hrun as (m & Hf & ->). inv_ok Hf. rename x into loc0.
  assert (∃ n, m = <[loc := n]> (fs w) ∧ loc0 = loc ∧ n_kind n = KReg [] ∧ (∀ n, fs w !! loc = Some n → plain n)) as (n & -> & -> & Hn & Hp).
  { destruct (fs w !! loc0) as [n|] eqn:E.
    - destruct (n_kind n) eqn:K; try done. injection Hf as <- <-. eexists. split_and!; [done..|].
      intros n' [= <-]%(eq_trans (eq_sym E)). unfold plain. by rewrite K.
    - case_bool_decide; [done|]. injection Hf as <- <-. eexists. split_and!; [done..|]. intros n'. by rewrite E. }
  exists loc. split.
  - eapply (resolve_changed _ _ w); [|done|exact Hok]. intros k. cbn.
    destruct (decide (k = loc)) as [->|Hk]; [|left; by rewrite lookup_alter_ne, lookup_insert_ne].
    right. split; [done|]. intros n' Hn'. rewrite lookup_alter_eq, lookup_insert_eq in Hn'. injection Hn' as <-. unfold plain. cbn. by rewrite Hn.
  - unfold contents. cbn. rewrite lookup_alter_eq, lookup_insert_eq. cbn. by rewrite Hn.
Qed.

(** A file that was created anew with exactly this content. *)
Definition created_file (p : string) (loc : location) (content : bytes) (w w' : os) : Prop :=
  resolve false p w = Ok loc ∧ fs w !! loc = None ∧ cwd w' = cwd w
  ∧ (∀ k, k ≠ loc → fs w' !! k = fs w !! k) ∧ ∃ n, fs w' !! loc = Some n ∧ n_kind n = KReg content.

Lemma open_excl_created p perm w loc w' : open_excl p perm w = (Ok loc, w') → created_file p loc [] w w'.
Proof.
  intros (m & Hf & ->)%sys_run. inv_ok Hf. apply orb_false_iff in Hok0 as [Hv _].
  apply bool_decide_eq_false in Hv. rewrite <- eq_None_not_Some in Hv. split_and!; [done..| |].
  - intros k Hk. cbn. by rewrite lookup_insert_ne.
  - eexists. cbn. by rewrite lookup_insert_eq.
Qed.
Lemma created_alter p loc data c w w1 :
  created_file p loc c w w1 → created_file p loc (c ++ data) w (ticked (set_fs (alter (append_node data) loc (fs w1)) w1)).
Proof.
  intros (Hr & Hn & Hc & Ho & n & Hl & Hk). split_and!; [done..| |].
  - intros k Hne. cbn. rewrite lookup_alter_ne by done. by apply Ho.
  - exists (append_node data n). cbn. rewrite lookup_alter_eq, Hl. split; [done|]. by rewrite Hk.
Qed.
Lemma created_write p loc data c w w1 w2 :
  created_file p loc c w w1 → write_open loc data w1 = (Ok (), w2) → created_file p loc (c ++ data) w w2.
Proof. intros Hcr ->%write_open_run. by apply created_alter. Qed.
(** A write that fails leaves a prefix. *)
Lemma created_any_write p loc data c w w1 r w2 :
  created_file p loc c w w1 → write_open loc data w1 = (r, w2) → ∃ c', created_file p loc c' w w2.
Proof.
  intros Hcr Hw. unfold write_open in Hw. destruct (faults w1 (tick w1)) as [[t n]|]; injection Hw as _ <-;
    eexists; by apply created_alter.
Qed.
Lemma created_same p loc c w w1 w2 :
  created_file p loc c w w1 → fs w2 = fs w1 → cwd w2 = cwd w1 → created_file p loc c w w2.
Proof. intros (Hr & Hn & Hc & Ho & Hl) Hf2 Hc2. unfold created_file. rewrite Hf2, Hc2. done. Qed.
Lemma created_resolves p loc c w w' q l :
  created_file p loc c w w' → resolve false q w = Ok l → resolve false q w' = Ok l.
Proof.
  intros (Hr & Hn & Hc & Ho & n & Hl & Hk) Hq.
  assert (only_file loc w w') as Hof by (split_and!; [done..|]; exists n; split; [done|]; unfold is_regular; by rewrite Hk).
  eapply resolve_changed; [eapply only_file_changed; [exact Hof|]|exact Hc|exact Hq]. intros n'. by rewrite Hn.
Qed.
Lemma created_holds p loc c w w' : created_file p loc c w w' → file_holds p c w'.
Proof.
  intros Hcr. pose proof Hcr as (Hr & Hn & Hc & Ho & n & Hl & Hk). exists loc. split; [|unfold contents; by rewrite Hl, Hk].
  pose proof (created_resolves _ _ _ _ _ _ _ Hcr Hr) as Hr'.
  unfold resolve in *. case_bool_decide; [done|]. eapply walk_follow; [done|apply split_byte_free|exact Hr'|].
  intros n' Hn'. rewrite Hl in Hn'. injection Hn' as <-. unfold is_symlink. by rewrite Hk.
Qed.

Lemma close_open_any loc w r w' : close_open loc w = (r, w') → fs w' = fs w ∧ cwd w' = cwd w.
Proof. unfold close_open, sys. destruct (faults w (tick w)) as [[e n]|]; by intros [= <- <-]. Qed.

(** What a failing creation or write may leave. *)
Lemma open_excl_failed p perm w e w' : open_excl p perm w = (Err e, w') → fs w' = fs w ∧ cwd w' = cwd w.
Proof.
  unfold open_excl, sys. destruct (faults w (tick w)) as [[t n]|]; [by intros [= _ <-]|].
  destruct (resolve false p w) as [loc|e']; simpl; [|by intros [= _ <-]]. destruct (fail_if _ _); simpl; [done|by intros [= _ <-]].
Qed.
