(* ===== verification/Manifest.v ===== *)
(** * Release manifests and image archives (runner/internal/manifest/manifest.go)

    The YAML and JSON decoders and the tar reader are parameters; reading
    files, checking paths and names, and resolving the images to load are
    modelled. *)
From S2P Require Import Prelude GoIO GoString GoPath OS Files Model Archive.

(* src: runner/internal/manifest/manifest.go:19-20 maxManifestBytes, maxImageMetadataBytes *)
Definition maxManifestBytes : Z := 1048576.
Definition maxImageMetadataBytes : Z := 8388608.

Definition alnum (c : ascii) : bool := lower_alpha c || upper_alpha c || digit c.
Definition lower_alnum (c : ascii) : bool := lower_alpha c || digit c.

(* src: runner/internal/manifest/manifest.go:23-23 tagPattern *)
Definition tagPattern : regex :=
  Cat (Class (λ c, alnum c || is_char "_" c))
      (upto 127 (Class (λ c, alnum c || is_char "_" c || is_char "." c || is_char "-" c))).
(** [[a-z0-9]+(?:[._-][a-z0-9]+)*], and such segments separated by slashes. *)
Definition repository_segment : regex :=
  Cat (plus (Class lower_alnum))
      (Star (Cat (Class (λ c, is_char "." c || is_char "_" c || is_char "-" c)) (plus (Class lower_alnum)))).
(* src: runner/internal/manifest/manifest.go:24-24 repositoryPattern *)
Definition repositoryPattern : regex :=
  Cat repository_segment (Star (Cat (Class (is_char slash)) repository_segment)).

(* src: runner/internal/manifest/manifest.go:33-38 ImageSpec *)
Record ImageSpec := { File : string; Source : string; is_Repository : string; is_Tag : string }.
(* src: runner/internal/manifest/manifest.go:27-31 Release *)
Record Release := { Application : string; Version : string; Images : list ImageSpec }.
(* src: runner/internal/manifest/manifest.go:40-46 ResolvedImage *)
Record ResolvedImage := {
  FilePath : string; SourceRef : string; Repository : string; Tag : string; FoundTags : list string
}.

(** ** Paths *)
(* src: runner/internal/manifest/manifest.go:301-310 ensureWithin *)
Definition ensureWithin (root candidate : string) : result unit :=
  r ← rel root candidate;
  fail_if (escapes r || is_abs r) (error_new "path escapes workspace").

(* src: runner/internal/manifest/manifest.go:271-299 safeFile *)
Definition safeFile (root relative : string) : M os string :=
  _ ← lift (fail_if (bool_decide (relative = "") || is_abs relative || contains_byte "\"%char relative || contains_byte NUL relative)
              (error_new "path must be a non-empty relative slash path"));
  let cleaned := clean relative in
  _ ← lift (fail_if (escapes cleaned) (error_new "path traversal"));
  w ← gets id;
  let rootAbs := abs root w in
  let fullPath := path_join [rootAbs; cleaned] in
  realPath ← eval_symlinks fullPath;
  _ ← lift (ensureWithin rootAbs realPath);
  info ← lstat fullPath;
  _ ← lift (fail_if (negb (is_regular info)) (error_new "path is not a regular file"));
  mret fullPath.

(** ** Image references *)
(* src: runner/internal/manifest/manifest.go:312-335 splitImageRef *)
Definition splitImageRef (ref : string) : result (string * string) :=
  _ ← fail_if (contains_any ref (chars "@ " ++ ["009"; "013"; "010"]%char))
        (error_new "digest and whitespace references are not accepted as a tag source");
  let lastSlash := last_index_byte slash ref in
  let lastColon := last_index_byte ":" ref in
  _ ← fail_if ((lastColon <=? lastSlash) || (lastColon =? slen ref - 1)) (error_new "image source must include a tag");
  let repository := take_str (Z.to_nat lastColon) ref in
  let repository :=
    match index_byte slash repository with
    | Some i =>
        let first := take_str i repository in
        if contains first "." || contains first ":" || bool_decide (first = "localhost")
        then drop_str (S i) repository else repository
    | None => repository
    end in
  let tag := drop_str (Z.to_nat (lastColon + 1)) ref in
  _ ← fail_if (negb (match_string repositoryPattern repository) || negb (match_string tagPattern tag))
        (error_new "invalid image repository or tag");
  Ok (repository, tag).

(* src: runner/internal/manifest/manifest.go:337-349 uniqueStrings *)
Fixpoint unique_loop (seen : gset string) (values : list string) : list string :=
  match values with
  | [] => []
  | v :: values => if bool_decide (v ∈ seen) || bool_decide (v = "") then unique_loop seen values
                   else v :: unique_loop ({[ v ]} ∪ seen) values
  end.
Definition uniqueStrings (values : list string) : list string := sort_strings (unique_loop ∅ values).

(* src: runner/internal/manifest/manifest.go:351-359 containsString *)
Fixpoint containsString (values : list string) (target : string) : bool :=
  match values with
  | [] => false
  | v :: values => if bool_decide (v = target) then true else containsString values target
  end.

(* src: runner/internal/manifest/manifest.go:264-269 readSmallTarEntry *)
Definition readSmallTarEntry (size : Z) (body : bytes) (body_err : option goerr) : result bytes :=
  _ ← fail_if ((size <? 0) || (maxImageMetadataBytes <? size))
        (Errorf "image metadata entry exceeds %d bytes" [FInt maxImageMetadataBytes]);
  match body_err with
  | Some e => if blen body <? size then Err e else Ok (take (Z.to_nat size) body)
  | None => Ok (take (Z.to_nat size) body)
  end.

Definition tar_extension (path : string) : bool := bool_decide (to_lower (ext path) = ".tar").

Section manifest.
(** [yaml.Decoder] with [KnownFields(true)], the two [json.Unmarshal] calls
    and [tar.Reader]. *)
Context (decode_yaml : bytes → result Release).
Context (docker_manifest : bytes → result (list (list string))).
Context (oci_index : bytes → result (list (gmap string string))).
Context (tar_reader : bytes → option goerr → list tar_item).

Fixpoint check_images (i : nat) (images : list ImageSpec) : result unit :=
  match images with
  | [] => Ok ()
  | s :: images =>
      let error format := Errorf format [FInt (Z.of_nat i)] in
      _ ← fail_if (bool_decide (File s = "")) (error "images[%d].file is required");
      _ ← fail_if (negb (bool_decide (is_Repository s = "")) && negb (match_string repositoryPattern (is_Repository s)))
            (error "images[%d].repository is invalid");
      _ ← fail_if (negb (bool_decide (is_Tag s = "")) && negb (match_string tagPattern (is_Tag s)))
            (error "images[%d].tag is invalid");
      check_images (S i) images
  end.

(* src: runner/internal/manifest/manifest.go:48-89 Load *)
Definition Load (root relativePath : string) : M os Release :=
  let relativePath := if bool_decide (relativePath = "") then "manifest.yaml" else relativePath in
  fullPath ← wrapM (wrap "manifest path: %w") (safeFile root relativePath);
  f ← wrapM (wrap "open manifest: %w") (open_read fullPath);
  '(data, err) ← read_upto f (Z.to_nat (maxManifestBytes + 1));
  _ ← lift (match err with Some e => Err (wrap "read manifest: %w" e) | None => Ok () end);
  _ ← lift (fail_if (maxManifestBytes <? blen data) (Errorf "manifest exceeds %d bytes" [FInt maxManifestBytes]));
  release ← lift (map_err (wrap "parse manifest YAML: %w") (decode_yaml data));
  _ ← lift (fail_if (bool_decide (Application release = "") || bool_decide (Version release = ""))
              (error_new "manifest application and version are required"));
  _ ← lift (check_images 0 (Images release));
  mret release.

(** The tags of one entry of an image archive. *)
(* src: runner/internal/manifest/manifest.go:224-237 InspectImageTar *)
Definition docker_tags (h : tar_header) (body : bytes) (body_err : option goerr) : result (list string) :=
  data ← readSmallTarEntry (h_Size h) body body_err;
  items ← map_err (wrap "parse Docker manifest.json: %w") (docker_manifest data);
  Ok (concat items).
Definition oci_refs (items : list (gmap string string)) : list string :=
  omap (λ annotations : gmap string string,
          match annotations !! "org.opencontainers.image.ref.name" with
          | Some ref => if bool_decide (ref = "") then None else Some ref
          | None => None
          end) items.
(* src: runner/internal/manifest/manifest.go:238-255 InspectImageTar *)
Definition oci_tags (h : tar_header) (body : bytes) (body_err : option goerr) : result (list string) :=
  data ← readSmallTarEntry (h_Size h) body body_err;
  items ← map_err (wrap "parse OCI index.json: %w") (oci_index data);
  Ok (oci_refs items).
(* src: runner/internal/manifest/manifest.go:222-256 InspectImageTar *)
Definition entry_tags (h : tar_header) (body : bytes) (body_err : option goerr) : result (list string) :=
  let cleaned := clean (h_Name h) in
  if bool_decide (cleaned = "manifest.json") then docker_tags h body body_err
  else if bool_decide (cleaned = "index.json") then oci_tags h body body_err
  else Ok [].

(* src: runner/internal/manifest/manifest.go:210-257 InspectImageTar *)
Fixpoint inspect_loop (entryCount : Z) (items : list tar_item) (tags : list string) : result (list string) :=
  if 100000 <? entryCount then Err (error_new "image archive has too many entries") else
  match items with
  | [] => Ok tags
  | TarError e :: _ => Err e
  | TarEntry h body body_err :: items =>
      found ← entry_tags h body body_err;
      inspect_loop (entryCount + 1) items (tags ++ found)
  end.

(* src: runner/internal/manifest/manifest.go:203-262 InspectImageTar *)
Definition InspectImageTar (name : string) : M os (list string) :=
  f ← open_read name;
  w ← gets id;
  '(data, err) ← read_upto f (match contents f w with Ok c => length c | Err _ => O end);
  found ← lift (inspect_loop 0 (tar_reader data err) []);
  let tags := uniqueStrings found in
  _ ← lift (fail_if (bool_decide (tags = []))
              (error_new "no image tags found in Docker manifest.json or OCI index.json"));
  mret tags.

(** One visited entry: links and everything but regular .tar files are passed over. *)
(* src: runner/internal/manifest/manifest.go:174-195 discoverImageTars *)
Definition discover_visit (root : string) (maxImages : Z) (name : string) (entry : node) (files : list string)
    : result (list string) :=
  if is_symlink entry then Ok files else
  if negb (is_regular entry) || negb (tar_extension name) then Ok files else
  relative ← rel root name;
  let files := files ++ [relative] in
  _ ← fail_if (maxImages <? Z.of_nat (length files)) (Errorf "discovered image count exceeds limit %d" [FInt maxImages]);
  Ok files.

(* src: runner/internal/manifest/manifest.go:161-201 discoverImageTars *)
Definition discoverImageTars (root : string) (maxImages : Z) : M os (list string) :=
  let imagesRoot := path_join [root; "images"] in
  r ← try (lstat imagesRoot);
  match r with
  | Err e => if errors_is ErrNotExist e then mret [] else throw (wrap "inspect images directory: %w" e)
  | Ok info =>
      _ ← lift (fail_if (negb (is_dir info) || is_symlink info) (error_new "images must be a real directory"));
      w ← gets id;
      files ← wrapM (wrap "discover image archives: %w")
                (entry ← lstat imagesRoot;
                 walk_dir (discover_visit root maxImages) (S (size (fs w))) imagesRoot entry []);
      mret (sort_strings files)
  end.

(** One image of the release. *)
(* src: runner/internal/manifest/manifest.go:112-157 ResolveImages *)
Definition resolve_image (root : string) (i : nat) (seenFiles : gset string) (spec : ImageSpec) : M os ResolvedImage :=
  fullPath ← wrapM (Wrapf "images[%d].file: %w" [FInt (Z.of_nat i)]) (safeFile root (File spec));
  _ ← lift (fail_if (negb (tar_extension fullPath))
              (Errorf "images[%d].file must be a .tar archive" [FInt (Z.of_nat i)]));
  _ ← lift (fail_if (bool_decide (fullPath ∈ seenFiles)) (Errorf "duplicate image file %q" [FStr (File spec)]));
  tags ← wrapM (Wrapf "inspect image %q: %w" [FStr (File spec)]) (InspectImageTar fullPath);
  let source := if bool_decide (Source spec = "") then default "" (head tags) else Source spec in
  _ ← lift (fail_if (bool_decide (source = ""))
              (Errorf "image %q has no source reference; set images[].source" [FStr (File spec)]));
  _ ← lift (fail_if (negb (containsString tags source))
              (Errorf "image %q source %q is not present in the uploaded image archive" [FStr (File spec); FStr source]));
  '(repository, tag) ← lift (
     if bool_decide (is_Repository spec = "") || bool_decide (is_Tag spec = "") then
       '(parsedRepository, parsedTag) ← map_err (Wrapf "derive destination for image %q: %w" [FStr (File spec)]) (splitImageRef source);
       Ok (if bool_decide (is_Repository spec = "") then parsedRepository else is_Repository spec,
           if bool_decide (is_Tag spec = "") then parsedTag else is_Tag spec)
     else Ok (is_Repository spec, is_Tag spec));
  _ ← lift (fail_if (negb (match_string repositoryPattern repository) || negb (match_string tagPattern tag))
              (Errorf "image %q has invalid destination repository or tag" [FStr (File spec)]));
  mret {| FilePath := fullPath; SourceRef := source; Repository := repository; Tag := tag; FoundTags := tags |}.

Fixpoint resolve_loop (root : string) (i : nat) (seenFiles : gset string) (specs : list ImageSpec) : M os (list ResolvedImage) :=
  match specs with
  | [] => mret []
  | s :: specs =>
      image ← resolve_image root i seenFiles s;
      images ← resolve_loop root (S i) ({[ FilePath image ]} ∪ seenFiles) specs;
      mret (image :: images)
  end.

(* src: runner/internal/manifest/manifest.go:91-159 ResolveImages *)
Definition ResolveImages (root : string) (release : Release) (maxImages : Z) : M os (list ResolvedImage) :=
  _ ← lift (fail_if (maxImages <=? 0) (error_new "max images must be positive"));
  specs ← (if bool_decide (Images release = []) then
             discovered ← discoverImageTars root maxImages;
             mret ((λ name, {| File := name; Source := ""; is_Repository := ""; is_Tag := "" |}) <$> discovered)
           else mret (Images release));
  _ ← lift (fail_if (maxImages <? Z.of_nat (length specs))
              (Errorf "image count %d exceeds limit %d" [FInt (Z.of_nat (length specs)); FInt maxImages]));
  resolve_loop root 0 ∅ specs.
End manifest.

(** ** Reading leaves the tree alone *)
Lemma safeFile_keeps root r P : preserves (fsP P) (safeFile root r).
Proof.
  unfold safeFile. cbv zeta. keeps.
Qed.

Section proofs.
Context (docker_manifest : bytes → result (list (list string))).
Context (oci_index : bytes → result (list (gmap string string))).
Context (tar_reader : bytes → option goerr → list tar_item).

Abbreviation InspectImageTar := (InspectImageTar docker_manifest oci_index tar_reader).
Abbreviation ResolveImages := (ResolveImages docker_manifest oci_index tar_reader).
Abbreviation resolve_image := (resolve_image docker_manifest oci_index tar_reader).
Abbreviation resolve_loop := (resolve_loop docker_manifest oci_index tar_reader).

Lemma InspectImageTar_keeps name P : preserves (fsP P) (InspectImageTar name).
Proof.
  unfold Manifest.InspectImageTar. cbv zeta. keeps. destruct a1 as [data err]. keeps.
Qed.

Lemma discoverImageTars_keeps root n P : preserves (fsP P) (discoverImageTars root n).
Proof.
  unfold discoverImageTars. cbv zeta. keeps. destruct a as [info|e].
  - keeps.
  - destruct (errors_is _ _); keeps.
Qed.

(** ** Tags *)
Lemma unique_loop_spec seen values :
  NoDup (unique_loop seen values) ∧ ∀ v, v ∈ unique_loop seen values ↔ v ∈ values ∧ v ∉ seen ∧ v ≠ "".
Proof.
  revert seen. induction values as [|x values IH]; intros seen; simpl; [split; [constructor|intros v; by rewrite elem_of_nil; naive_solver]|].
  destruct (bool_decide (x ∈ seen) || bool_decide (x = "")) eqn:E.
  - apply orb_true_iff in E. rewrite !bool_decide_eq_true in E. destruct (IH seen) as [Hnd Hv].
    split; [done|]. intros v. rewrite Hv, elem_of_cons. naive_solver.
  - apply orb_false_iff in E. rewrite !bool_decide_eq_false in E. destruct (IH ({[x]} ∪ seen)) as [Hnd Hv].
    split; [constructor; [rewrite Hv, not_elem_of_union, elem_of_singleton; naive_solver|done]|]. intros v.
    rewrite !elem_of_cons, Hv, not_elem_of_union, elem_of_singleton. destruct (decide (v = x)) as [-> |]; naive_solver.
Qed.

Lemma uniqueStrings_spec values :
  NoDup (uniqueStrings values) ∧ ∀ v, v ∈ uniqueStrings values ↔ v ∈ values ∧ v ≠ "".
Proof.
  unfold uniqueStrings. destruct (unique_loop_spec ∅ values) as [Hnd Hv]. rewrite sort_strings_Permutation. split; [done|].
  intros v. rewrite sort_strings_Permutation, Hv. pose proof (not_elem_of_empty (C := gset string) v). naive_solver.
Qed.

Lemma containsString_ok values t : containsString values t = true ↔ t ∈ values.
Proof.
  induction values as [|v values IH]; simpl; [by rewrite elem_of_nil|]. rewrite elem_of_cons. case_bool_decide; naive_solver.
Qed.

(** ** Files *)
Lemma ensureWithin_ok l loc :
  Forall normal l → Forall normal loc → ensureWithin (abs_path l) (abs_path loc) = Ok () → l `prefix_of` loc.
Proof.
  intros Hl Hloc. unfold ensureWithin. destruct (rel_abs l loc) as (k & t' & -> & Ht' & Hk & _); [done..|]. simpl.
  rewrite escapes_rel_path by done. intros H. apply Hk. destruct k; [done|]. done.
Qed.

Lemma safeFile_ok l r w p w' :
  no_root (fs w) → Forall normal l → safeFile (abs_path l) r w = (Ok p, w') →
  fs w' = fs w ∧ file_under (fs w) l p.
Proof.
  intros Hroot Hl Hrun. pose proof (proj1 (preserves_state _ _) (safeFile_keeps (abs_path l) r (eq (fs w))) w eq_refl) as Hfs.
  rewrite Hrun in Hfs. split; [done|]. clear Hfs.
  unfold safeFile in Hrun. cbv zeta in Hrun. inv_run Hrun.
  apply orb_false_iff in Hrun0 as [Hrun0 _]. apply orb_false_iff in Hrun0 as [Hrun0 _].
  apply orb_false_iff in Hrun0 as [_ Hrel]. injection Hrun2 as <- <-. unfold abs in *. rewrite is_abs_abs_path, clean_abs_path in * by done.
  destruct (clean_relative r Hrel) as (k & q & Hc & Hq). rewrite Hc in *. rewrite escapes_rel_path in Hrun1 by done.
  destruct k; [|done]. change (dotdots 0 ++ q) with q in *. rewrite path_join_rel_path in * by done.
  assert (Forall normal (l ++ q)) as Hlq by (by apply Forall_app).
  apply eval_walk in Hrun3 as (-> & loc & -> & Hwalk); [|apply is_abs_abs_path].
  pose proof (walk_real_path _ _ _ _ _ Hroot (Forall_nil_2 _) (real_dir_nil _) (split_byte_free _ _) Hwalk) as Hrp.
  match type of Hrun4 with _ = Ok ?u => destruct u end. apply ensureWithin_ok in Hrun4; [|done|apply Hrp].
  apply lstat_run in Hrun5 as (_ & _ & loc2 & Hres & Hn). simpl in Hn.
  unfold resolve in Hres. rewrite bool_decide_false in Hres by done. rewrite is_abs_abs_path in Hres. simpl in Hres.
  apply negb_false_iff in Hrun6. injection Hrun as <- _. rename select (fs w !! loc2 = Some _) into Hn2.
  match type of Hn2 with _ = Some ?n => rename n into info end.
  assert (loc2 = loc) as ->.
  { assert (walk 255 (fs w) true [] (split_byte slash (abs_path (l ++ q))) = Ok loc2) as Hw2; [|congruence].
    eapply walk_follow; [|apply split_byte_free|exact Hres|]; [unfold max_links; lia|].
    intros n Hn'. rewrite Hn2 in Hn'. injection Hn' as <-. unfold is_symlink, is_regular in *. by destruct (n_kind info). }
  exists q, loc, info. done.
Qed.

(** ** Resolved images *)
Record image_ok (m : filesystem) (l : location) (i : ResolvedImage) : Prop := {
  io_file : file_under m l (FilePath i);
  io_tar : tar_extension (FilePath i) = true;
  io_repository : match_string repositoryPattern (Repository i) = true;
  io_tag : match_string tagPattern (Tag i) = true;
  io_source : SourceRef i ∈ FoundTags i ∧ SourceRef i ≠ "";
  io_tags : NoDup (FoundTags i) ∧ "" ∉ FoundTags i
}.

Lemma inspect_tags name w tags w' :
  InspectImageTar name w = (Ok tags, w') → NoDup tags ∧ "" ∉ tags ∧ tags ≠ [].
Proof.
  unfold Manifest.InspectImageTar. cbv zeta. intros H. inv_run H.
  rename select (bool_decide _ = false) into Hb. apply bool_decide_eq_false in Hb. injection H as <- _.
  lazymatch type of Hb with uniqueStrings ?v ≠ [] => destruct (uniqueStrings_spec v) as [Hnd Hv] end.
  split; [done|]. split; [rewrite Hv; naive_solver|done].
Qed.

Lemma resolve_image_ok l i seen spec w im w' :
  no_root (fs w) → Forall normal l → resolve_image (abs_path l) i seen spec w = (Ok im, w') →
  fs w' = fs w ∧ image_ok (fs w) l im ∧ FilePath im ∉ seen.
Proof.
  intros Hroot Hl H. unfold Manifest.resolve_image in H. inv_run H.
  apply safeFile_ok in Hrun as [Hfs Hfile]; [|done..].
  apply bool_decide_eq_false in Hrun1.
  pose proof (proj1 (preserves_state _ _) (InspectImageTar_keeps x (eq (fs w0))) w0 eq_refl) as Hfs2. rewrite Hrun2 in Hfs2.
  apply inspect_tags in Hrun2 as (Hnd & Hne & Hnil). apply negb_false_iff in Hrun0.
  apply orb_false_iff in Hrun6 as [Hr%negb_false_iff Ht%negb_false_iff].
  apply negb_false_iff, containsString_ok in Hrun4. apply bool_decide_eq_false in Hrun3. injection H as <- <-.
  simpl in Hfs2. unfold fsP in Hfs2. split; [congruence|]. done.
Qed.

Lemma resolve_loop_ok l i seen specs w images w' :
  no_root (fs w) → Forall normal l → resolve_loop (abs_path l) i seen specs w = (Ok images, w') →
  fs w' = fs w ∧ length images = length specs ∧ Forall (image_ok (fs w) l) images
  ∧ NoDup (FilePath <$> images) ∧ Forall (λ im, FilePath im ∉ seen) images.
Proof.
  intros Hroot Hl. revert i seen w images w' Hroot. induction specs as [|spec specs IH]; intros i seen w images w' Hroot H.
  { injection H as <- <-. split_and!; [done|done|constructor..]. }
  cbn [Manifest.resolve_loop] in H. inv_run H. injection H as <- <-.
  apply resolve_image_ok in Hrun as (Hfs & Hok & Hnew); [|done..].
  apply IH in Hrun0 as (Hfs2 & Hlen & Hall & Hnd & Hseen); [|by rewrite Hfs]. rewrite Hfs in *.
  split_and!; [done|simpl; by rewrite Hlen|by constructor| |].
  - cbn. constructor; [|done]. rewrite list_elem_of_fmap. intros (im & Heq & Him).
    rewrite Forall_forall in Hseen. apply (Hseen im Him). rewrite <- Heq. set_solver.
  - constructor; [done|]. eapply Forall_impl; [exact Hseen|]. intros im. set_solver.
Qed.

(** The images a release resolves to are ones it is safe to load and push:
    at most the profile's limit, each a different regular .tar file that the
    links in its path do not take outside the package, with a well-formed
    repository and tag, and a source reference that the archive itself
    declares; resolving changes no file. *)
Lemma resolved_images_sound l release maxImages w images w' :
  no_root (fs w) → Forall normal l →
  ResolveImages (abs_path l) release maxImages w = (Ok images, w') →
  fs w' = fs w ∧ Z.of_nat (length images) ≤ maxImages ∧ NoDup (FilePath <$> images)
  ∧ Forall (image_ok (fs w) l) images.
Proof.
  intros Hroot Hl H. unfold Manifest.ResolveImages in H. inv_run H.
  assert (fs w0 = fs w) as Hfs.
  { case_bool_decide; [|by injection Hrun0 as _ <-]. inv_run Hrun0. injection Hrun0 as _ <-.
    pose proof (proj1 (preserves_state _ _) (discoverImageTars_keeps (abs_path l) maxImages (eq (fs w))) w eq_refl) as Hk.
    by rewrite Hrun2 in Hk. }
  apply resolve_loop_ok in H as (Hfs2 & Hlen & Hall & Hnd & _); [|by rewrite Hfs|done]. rewrite Hfs in *.
  split_and!; [done|rewrite Hlen; lia|done|done].
Qed.
End proofs.

(** ** A concrete package *)
Definition package_node (k : kind) : node :=
  {| n_kind := k; n_uid := 0; n_gid := 0; n_perm := 493; n_setgid := false; n_sticky := false |}.
Definition package_os : os := {|
  fs := <[["w"] := package_node KDir]> (<[["w"; "images"] := package_node KDir]>
        (<[["w"; "images"; "a.tar"] := package_node (KReg ["x"%char])]> ∅));
  cwd := []; euid := 0; egid := 0; umask := 18; faults := λ _, None; tick := 0 |}.
Definition package_tar (_ : bytes) (_ : option goerr) : list tar_item :=
  [TarEntry {| h_Name := "./manifest.json"; h_Typeflag := "0"; h_Size := 1; h_Linkname := "" |} ["x"%char] None].
Definition package_docker (_ : bytes) : result (list (list string)) := Ok [["registry.local:5000/team/app:1.2"]].
Definition package_release : Release := {| Application := "app"; Version := "1.2"; Images := [] |}.
Definition package_run : result (list ResolvedImage) * os :=
  ResolveImages package_docker (λ _, Ok []) package_tar "/w" package_release 2 package_os.

Example package_resolves :
  match package_run.1 with
  | Ok images => map (λ i, (FilePath i, Repository i, Tag i)) images = [("/w/images/a.tar", "team/app", "1.2")]
  | Err _ => False
  end.
Proof. by vm_compute. Qed.

