(* ===== verification/Health.v ===== *)
(** * Health checks (runner/internal/health/check.go)

    The HTTP client and the TCP dialer are parameters acting on the caller's
    world; validation, the judgement of a response and the retry loop are
    modelled. *)
From S2P Require Import Prelude GoIO GoString Model.

(* src: runner/internal/health/check.go:18-18 maxHealthBodyBytes *)
Definition maxHealthBodyBytes : Z := 1048576.

(* src: runner/internal/health/check.go:146-151 validHeader *)
Definition validHeader (key value : string) : bool :=
  negb (bool_decide (key = "") || contains_any key ["013"; "010"; ":"]%char || contains_any value ["013"; "010"]%char).

(** [headers]: the entries in the order Go visits the map. *)
(* src: runner/internal/health/check.go:54-84 validate *)
Definition validate (headers : list (string * string)) (check : HealthCheck) : result unit :=
  let kind := to_lower (hc_Type check) in
  _ ← fail_if (negb (bool_decide (kind ∈ ["http"; "https"; "tcp"])))
        (Errorf "unsupported health check type %q" [FStr (hc_Type check)]);
  _ ← fail_if (bool_decide (hc_Address check = "")) (error_new "health check address is required");
  _ ← fail_if ((hc_TimeoutSeconds check <=? 0) || (hc_Attempts check <=? 0) || (hc_IntervalSeconds check <? 0))
        (error_new "health timeout/attempts must be positive and interval non-negative");
  if bool_decide (kind = "tcp") then Ok () else
  let method := to_upper (hc_Method check) in
  let method := if bool_decide (method = "") then "GET" else method in
  _ ← fail_if (negb (bool_decide (method = "GET")) && negb (bool_decide (method = "HEAD")))
        (error_new "HTTP health check method must be GET or HEAD");
  _ ← fail_if ((hc_ExpectedStatusMin check <? 100) || (599 <? hc_ExpectedStatusMax check)
               || (hc_ExpectedStatusMax check <? hc_ExpectedStatusMin check))
        (error_new "invalid expected HTTP status range");
  result_iter (λ '(key, value), fail_if (negb (validHeader key value)) (Errorf "invalid HTTP header %q" [FStr key])) headers.

(** A response; its body can be read up to [rs_body_err]. *)
Record http_response := { rs_status : Z; rs_body : bytes; rs_body_err : option goerr }.

(** What [checkHTTP] makes of a response. *)
(* src: runner/internal/health/check.go:119-135 checkHTTP *)
Definition judge (check : HealthCheck) (resp : http_response) : result unit :=
  if (rs_status resp <? hc_ExpectedStatusMin check) || (hc_ExpectedStatusMax check <? rs_status resp) then
    Err (Errorf "HTTP status %d outside expected %d-%d"
           [FInt (rs_status resp); FInt (hc_ExpectedStatusMin check); FInt (hc_ExpectedStatusMax check)])
  else if bool_decide (hc_ExpectedBody check = "") then Ok () else
  let body := take (Z.to_nat (maxHealthBodyBytes + 1)) (rs_body resp) in
  _ ← (if blen body <? maxHealthBodyBytes + 1
       then match rs_body_err resp with Some e => Err (wrap "read HTTP body: %w" e) | None => Ok () end
       else Ok ());
  _ ← fail_if (maxHealthBodyBytes <? blen body) (error_new "HTTP health response exceeds 1 MiB");
  fail_if (negb (contains (of_chars body) (hc_ExpectedBody check)))
    (error_new "HTTP response does not contain expected text").

Section checker.
Context {W : Type}.
(** [http.NewRequest], [http.Client.Do], [net.Dialer], the wait between two
    attempts (an error when the context ends first), [AppendCertsFromPEM] and
    the order of a map. *)
Context (new_request : string → string → result unit) (http_do : HealthCheck → string → M W http_response).
Context (tcp_dial : string → M W (option goerr)) (wait : Z → M W unit) (pem_certificates : string → bool).
Context (range : gmap string string → list (string * string)).

(* src: runner/internal/health/check.go:86-136 checkHTTP *)
Definition checkHTTP (check : HealthCheck) : M W unit :=
  let method := to_upper (hc_Method check) in
  let method := if bool_decide (method = "") then "GET" else method in
  _ ← wrapM (wrap "create HTTP request: %w") (lift (new_request method (hc_Address check)));
  _ ← lift (fail_if (negb (bool_decide (hc_CAPEM check = "")) && negb (pem_certificates (hc_CAPEM check)))
              (error_new "health check CA PEM contains no certificates"));
  resp ← wrapM (wrap "HTTP request: %w") (http_do check method);
  lift (judge check resp).

(* src: runner/internal/health/check.go:138-144 checkTCP *)
Definition checkTCP (check : HealthCheck) : M W unit :=
  closed ← wrapM (wrap "TCP connect: %w") (tcp_dial (hc_Address check));
  lift (of_err closed).

(** One attempt; a type that is neither HTTP nor TCP keeps [lastErr]. *)
(* src: runner/internal/health/check.go:29-34 (Checker).Check *)
Definition attempt_once (check : HealthCheck) : M W unit :=
  if bool_decide (to_lower (hc_Type check) ∈ ["http"; "https"]) then checkHTTP check else checkTCP check.

(** The loop, with [remaining] attempts to go. *)
(* src: runner/internal/health/check.go:27-51 (Checker).Check *)
Fixpoint check_loop (check : HealthCheck) (remaining : nat) (lastErr : goerr) : M W unit :=
  let failed := Wrapf "health check failed after %d attempt(s): %w" [FInt (hc_Attempts check)] in
  match remaining with
  | O => throw (failed lastErr)
  | S remaining =>
      r ← try (attempt_once check);
      match r with
      | Ok _ => mret ()
      | Err e =>
          match remaining with
          | O => throw (failed e)
          | S _ => _ ← wait (i64 (hc_IntervalSeconds check * 1000000000)); check_loop check remaining e
          end
      end
  end.

(* src: runner/internal/health/check.go:22-52 (Checker).Check *)
Definition Check (check : HealthCheck) : M W unit :=
  _ ← lift (validate (range (hc_Headers check)) check);
  check_loop check (Z.to_nat (hc_Attempts check)) (External "nil").
End checker.

(** ** The retry loop *)
Section loop.
Context {W : Type}.
Context (new_request : string → string → result unit) (http_do : HealthCheck → string → M W http_response).
Context (tcp_dial : string → M W (option goerr)) (wait : Z → M W unit) (pem_certificates : string → bool).
Context (range : gmap string string → list (string * string)).
Abbreviation attempt_once := (attempt_once new_request http_do tcp_dial pem_certificates).
Abbreviation check_loop := (check_loop new_request http_do tcp_dial wait pem_certificates).
Abbreviation Check := (Check new_request http_do tcp_dial wait pem_certificates range).

(** [n] failed attempts in a row, each but the last followed by a full wait. *)
Inductive failures (check : HealthCheck) : nat → W → goerr → W → Prop :=
  | failures_one w e w' : attempt_once check w = (Err e, w') → failures check 1 w e w'
  | failures_more n w e w1 w2 e' w' :
      attempt_once check w = (Err e, w1) → wait (i64 (hc_IntervalSeconds check * 1000000000)) w1 = (Ok (), w2) →
      failures check n w2 e' w' → failures check (S n) w e' w'.

(** How a check ends. *)
Inductive check_end (check : HealthCheck) (w : W) : nat → result unit → W → Prop :=
  | end_first w' : attempt_once check w = (Ok (), w') → check_end check w 1 (Ok ()) w'
  | end_passed n e w1 w2 w' :
      failures check n w e w1 → wait (i64 (hc_IntervalSeconds check * 1000000000)) w1 = (Ok (), w2) →
      attempt_once check w2 = (Ok (), w') → check_end check w (S n) (Ok ()) w'
  | end_cancelled n e w1 c w' :
      failures check n w e w1 → wait (i64 (hc_IntervalSeconds check * 1000000000)) w1 = (Err c, w') →
      check_end check w n (Err c) w'
  | end_failed n e w' :
      failures check n w e w' → Z.of_nat n = hc_Attempts check →
      check_end check w n (Err (Wrapf "health check failed after %d attempt(s): %w" [FInt (hc_Attempts check)] e)) w'.

Lemma failures_snoc check n w e w1 w2 e' w' :
  failures check n w e w1 → wait (i64 (hc_IntervalSeconds check * 1000000000)) w1 = (Ok (), w2) →
  attempt_once check w2 = (Err e', w') → failures check (S n) w e' w'.
Proof.
  intros Hf Hw Ha. induction Hf as [w e w1 H1|n w e w1 w3 e1 w4 H1 Hw1 Hf IH].
  - eapply failures_more; [done|done|]. by apply failures_one.
  - eapply failures_more; [done|done|]. by apply IH.
Qed.

(** The loop after [done] attempts, all of which failed. *)
Lemma check_loop_continues check remaining : ∀ done w0 w1 e0 last r w',
  failures check done w0 e0 w1 → Z.of_nat (done + S remaining) = hc_Attempts check →
  (_ ← wait (i64 (hc_IntervalSeconds check * 1000000000)); check_loop check (S remaining) last) w1 = (r, w') →
  ∃ n, (n ≤ done + S remaining)%nat ∧ check_end check w0 n r w'.
Proof.
  induction remaining as [|remaining IH]; intros done w0 w1 e0 last r w' Hf Hn Hrun; unfold mbind, M_bind in Hrun;
    destruct (wait _ w1) as [[[]|c] w2] eqn:Hw;
    try (injection Hrun as <- <-; exists done; split; [lia|]; by eapply end_cancelled).
  - cbn in Hrun. unfold mbind, M_bind, try in Hrun.
    destruct (attempt_once check w2) as [[[]|e] w3] eqn:Ha.
    + injection Hrun as <- <-. exists (S done). split; [lia|]. by eapply end_passed.
    + injection Hrun as <- <-. exists (S done). split; [lia|]. apply end_failed; [by eapply failures_snoc|lia].
  - remember (S remaining) as k. cbn in Hrun. unfold mbind, M_bind, try in Hrun.
    destruct (attempt_once check w2) as [[[]|e] w3] eqn:Ha.
    + injection Hrun as <- <-. exists (S done). split; [lia|]. by eapply end_passed.
    + subst k. destruct (IH (S done) w0 w3 e e r w') as (n & Hle & He); [by eapply failures_snoc|lia|exact Hrun|].
      exists n. split; [lia|done].
Qed.

(** A health check ends after at most the configured number of attempts:
    it passes exactly at the first attempt that succeeds, gives up with the
    last error after that many failures in a row, or stops with the context's
    error during a wait; a check that does not validate makes no attempt. *)
Lemma check_ends_within_attempts check w r w' :
  Check check w = (r, w') →
  match validate (range (hc_Headers check)) check with
  | Err e => r = Err e ∧ w' = w
  | Ok _ => ∃ n, Z.of_nat n ≤ hc_Attempts check ∧ check_end check w n r w'
  end.
Proof.
  unfold Health.Check, mbind, M_bind, lift. destruct (validate _ check) as [[]|e] eqn:Hv; [|by intros [= <- <-]].
  assert (0 < hc_Attempts check) as Hpos.
  { unfold validate in Hv. cbv zeta in Hv. inv_ok Hv. apply orb_false_iff in Hok1 as [Hok1 _].
    apply orb_false_iff in Hok1 as [_ Hok1]. lia. }
  destruct (Z.to_nat (hc_Attempts check)) as [|remaining] eqn:Hn; [lia|]. cbn. unfold mbind, M_bind, try.
  destruct (attempt_once check w) as [[[]|e] w1] eqn:Ha.
  - intros [= <- <-]. exists 1%nat. split; [lia|]. by apply end_first.
  - destruct remaining as [|remaining].
    + intros [= <- <-]. exists 1%nat. split; [lia|]. apply end_failed; [by apply failures_one|lia].
    + intros Hrun. destruct (check_loop_continues check remaining 1 w w1 e e r w') as (n & Hle & He);
        [by apply failures_one|lia|exact Hrun|]. exists n. split; [lia|done].
Qed.
End loop.

(** ** A service that answers the third connection *)
Definition tcp_check : HealthCheck := {|
  hc_Type := "TCP"; hc_Address := "127.0.0.1:80"; hc_Method := ""; hc_Headers := ∅; hc_ExpectedStatusMin := 0;
  hc_ExpectedStatusMax := 0; hc_ExpectedBody := ""; hc_TimeoutSeconds := 1; hc_Attempts := 3; hc_IntervalSeconds := 1;
  hc_InsecureSkipVerify := false; hc_CAPEM := "" |}.
Definition third_time (_ : string) : M nat (option goerr) := λ n,
  (if (n <? 2)%nat then Err (External "refused") else Ok None, S n).
Definition service_check : M nat unit :=
  Check (λ _ _, Ok ()) (λ _ _, throw (External "")) third_time (λ _, mret ()) (λ _, true) map_to_list tcp_check.

