(* ===== verification/Runtime.v ===== *)
(** * Container runtimes (runner/internal/runtime/runtime.go)

    The client builds the command lines of docker, podman and ctr and hands
    them to a command executor, which acts on the caller's world [W]; the
    world has a file system ([HasOS]).  net/url's parser, the PEM decoder and
    [strconv.Quote] are parameters. *)
From S2P Require Import Prelude GoIO GoString GoPath OS Files Encoding Model Command.

(** A world with a file system. *)
Class HasOS (W : Type) := { get_os : W → os; put_os : os → W → W }.
#[export] Instance os_has_os : HasOS os := {| get_os w := w; put_os o _ := o |}.
Definition on_os {W A} `{HasOS W} (m : M os A) : M W A := λ w,
  let '(r, o) := m (get_os w) in (r, put_os o w).

(* src: runner/internal/runtime/runtime.go:22-25 Credential *)
Record Credential := { Username : string; Password : string }.
Definition no_credential : Credential := {| Username := ""; Password := "" |}.

(* src: runner/internal/runtime/runtime.go:27-30 Output *)
Record Output (W : Type) := { o_Stdout : option (writer W); o_Stderr : option (writer W) }.
Arguments o_Stdout {W}. Arguments o_Stderr {W}.

(* src: runner/internal/runtime/runtime.go:68-70 runtimeBinaryNames *)
Definition runtimeBinaryNames (kind : string) : option string :=
  if bool_decide (kind = "docker") then Some "docker" else if bool_decide (kind = "podman") then Some "podman"
  else if bool_decide (kind = "containerd") then Some "ctr" else None.
(* src: runner/internal/runtime/runtime.go:72-74 runtimeBinaryDirectories *)
Definition runtimeBinaryDirectories : list string := ["/usr/bin"; "/usr/local/bin"; "/usr/sbin"; "/usr/local/sbin"].

(** [info.Sys()] is a [Stat_t] on every file of the model. *)
(* src: runner/internal/runtime/runtime.go:164-170 validateRootOwner *)
Definition validateRootOwner (info : node) : result unit :=
  fail_if (negb (n_uid info =? 0)) (error_new "path is not owned by root").

(* src: runner/internal/runtime/runtime.go:145-162 validateRootOwnedMode *)
Definition validateRootOwnedMode (info : node) (directory executable : bool) : result unit :=
  _ ← fail_if (directory && negb (is_dir info)) (error_new "path is not a directory");
  _ ← fail_if (negb directory && negb (is_regular info)) (error_new "path is not a regular file");
  _ ← validateRootOwner info;
  _ ← fail_if (negb (Z.land (n_perm info) 18 =? 0)) (error_new "path is group- or world-writable");
  fail_if (executable && (Z.land (n_perm info) 73 =? 0)) (error_new "runtime binary is not executable").

(* src: runner/internal/runtime/runtime.go:130-143 validateRuntimeBinaryPath *)
Definition validateRuntimeBinaryPath (kind path : string) : result unit :=
  expectedName ← of_option (Errorf "unsupported runtime %q" [FStr kind]) (runtimeBinaryNames kind);
  _ ← fail_if (negb (is_abs path) || negb (bool_decide (clean path = path)) || negb (bool_decide (base path = expectedName)))
        (Errorf "%s runtime binary must be an exact absolute path ending in %s" [FStr kind; FStr expectedName]);
  fail_if (negb (bool_decide (dir path ∈ runtimeBinaryDirectories)))
    (error_new "runtime binary directory must be /usr/bin, /usr/local/bin, /usr/sbin, or /usr/local/sbin").

(** The checks of a runtime binary that is a symbolic link. *)
(* src: runner/internal/runtime/runtime.go:98-122 validateRuntimeBinary *)
Definition validateBinaryLink (kind path : string) (linkInfo : node) : M os unit :=
  _ ← lift (map_err (wrap "runtime binary symlink is unsafe: %w") (validateRootOwner linkInfo));
  resolved ← wrapM (wrap "resolve runtime binary symlink: %w") (eval_symlinks path);
  _ ← lift (fail_if (negb (is_abs resolved)) (error_new "runtime binary symlink did not resolve to an absolute path"));
  _ ← lift (fail_if (negb (bool_decide (Some (base resolved) = runtimeBinaryNames kind)))
              (error_new "runtime binary symlink target name is invalid"));
  _ ← lift (fail_if (negb (bool_decide (dir resolved ∈ runtimeBinaryDirectories)))
              (error_new "runtime binary symlink target escapes the allowed system directories"));
  resolvedDirectoryInfo ← wrapM (wrap "inspect runtime binary symlink target directory: %w") (stat (dir resolved));
  lift (map_err (wrap "runtime binary symlink target directory is unsafe: %w")
          (validateRootOwnedMode resolvedDirectoryInfo true false)).

(* src: runner/internal/runtime/runtime.go:76-128 validateRuntimeBinary *)
Definition validateRuntimeBinary (kind path : string) : M os unit :=
  _ ← lift (validateRuntimeBinaryPath kind path);
  directoryInfo ← wrapM (wrap "inspect runtime binary directory: %w") (stat (dir path));
  _ ← lift (map_err (wrap "runtime binary directory is unsafe: %w") (validateRootOwnedMode directoryInfo true false));
  linkInfo ← wrapM (λ e, if errors_is ErrNotExist e then Wrapf "runtime binary %s is unavailable: %w" [FStr path] e
                         else wrap "inspect runtime binary: %w" e) (lstat path);
  _ ← (if is_symlink linkInfo then validateBinaryLink kind path linkInfo else mret ());
  info ← wrapM (wrap "inspect resolved runtime binary: %w") (stat path);
  lift (map_err (wrap "runtime binary is unsafe: %w") (validateRootOwnedMode info false true)).

(** [net/url]: the parts of a parsed URL that the code reads. *)
Record URL := {
  u_Scheme : string; u_Host : string; u_Hostname : string; u_User : bool; u_Path : string; u_Query : gmap string (list string);
  u_Fragment : string
}.

Section runtime.
Context {W : Type} `{HasOS W}.
Context (exec : CommandExecutor W).
(** [url.Parse], [AppendCertsFromPEM], [strconv.Quote]. *)
Context (url_parse : string → result URL) (pem_certificates : string → bool) (quote : string → string).

(* src: runner/internal/runtime/runtime.go:375-385 registryHost *)
Definition registryHost (value : string) : result string :=
  _ ← fail_if (bool_decide (value = "") || contains_any value (chars "/?#@ " ++ ["009"; "013"; "010"]%char))
        (error_new "registry_host must contain only a host and optional port");
  match url_parse ("//" +:+ value) with
  | Ok parsed => if negb (bool_decide (u_Host parsed = value)) || bool_decide (u_Hostname parsed = "")
                 then Err (error_new "registry_host is invalid") else Ok value
  | Err _ => Err (error_new "registry_host is invalid")
  end.

(* src: runner/internal/runtime/runtime.go:36-66 newClient *)
Definition newClient (binaryValidator : string → string → M W unit) (config : RuntimeConfig) : M W RuntimeConfig :=
  _ ← lift (fail_if (negb (bool_decide (Kind config ∈ ["docker"; "podman"; "containerd"])))
              (Errorf "unsupported runtime %q" [FStr (Kind config)]));
  _ ← binaryValidator (Kind config) (BinaryPath config);
  _ ← lift (registryHost (RegistryHost config));
  _ ← lift (fail_if (negb (bool_decide (RegistryCAPEM config = "")) && negb (pem_certificates (RegistryCAPEM config)))
              (error_new "registry CA PEM contains no certificates"));
  _ ← lift (fail_if (bool_decide (Kind config = "docker") && (RegistryInsecure config || negb (bool_decide (RegistryCAPEM config = ""))))
              (error_new "Docker registry TLS trust is daemon-managed; install the CA or insecure-registry policy on the Docker host, configure OS trust for digest verification, then leave profile registryInsecure and registryCaPem unset"));
  mret config.

(* src: runner/internal/runtime/runtime.go:32-39 New *)
Definition New (config : RuntimeConfig) : M W RuntimeConfig :=
  newClient (λ kind path, on_os (validateRuntimeBinary kind path)) config.

(** The client keeps its configuration. *)
(* src: runner/internal/runtime/runtime.go:303-308 (Client).containerdPrefix *)
Definition containerdPrefix (c : RuntimeConfig) : list string :=
  if bool_decide (Namespace c = "") then [] else ["--namespace"; Namespace c].

(* src: runner/internal/runtime/runtime.go:286-301 (Client).withAuthEnv *)
Definition withAuthEnv (c : RuntimeConfig) (transientRoot : string) (base : gmap string string) : gmap string string :=
  let authRoot := path_join [transientRoot; ".runtime-auth"] in
  if bool_decide (Kind c = "docker") then <["DOCKER_CONFIG" := authRoot]> base
  else if bool_decide (Kind c = "podman") then <["REGISTRY_AUTH_FILE" := path_join [authRoot; "auth.json"]]> base
  else base.

(* src: runner/internal/runtime/runtime.go:310-333 (Client).podmanTLSArguments *)
Definition podmanTLSArguments (c : RuntimeConfig) (transientRoot : string) : M W (list string) :=
  if negb (bool_decide (Kind c = "podman")) then mret [] else
  certificates ← (if bool_decide (RegistryCAPEM c = "") then mret [] else
    let certificatesRoot := path_join [transientRoot; ".registry-certs"] in
    let hostDirectory := path_join [certificatesRoot; RegistryHost c] in
    _ ← wrapM (wrap "create Podman registry certificate directory: %w") (on_os (mkdir_all hostDirectory 448));
    _ ← wrapM (wrap "write Podman registry CA: %w")
          (on_os (write_file (path_join [hostDirectory; "ca.crt"]) (to_bytes (RegistryCAPEM c)) 384));
    mret ["--cert-dir"; hostDirectory]);
  mret (certificates ++ if RegistryInsecure c then ["--tls-verify=false"] else []).

(** hosts.toml of a registry. *)
(* src: runner/internal/runtime/runtime.go:344-369 (Client).writeContainerdHosts *)
Definition containerd_hosts (c : RuntimeConfig) (credential : Credential) (caPath : string) : string :=
  let serverURL := RegistryURL c in
  let newline := String "010"%char "" in
  let dq := String "034"%char "" in
  "server = " +:+ quote serverURL +:+ newline +:+ newline +:+ "[host." +:+ quote serverURL +:+ "]" +:+ newline
  +:+ "  capabilities = [" +:+ dq +:+ "pull" +:+ dq +:+ ", " +:+ dq +:+ "resolve" +:+ dq +:+ ", " +:+ dq +:+ "push" +:+ dq +:+ "]" +:+ newline
  +:+ (if RegistryInsecure c then "  skip_verify = true" +:+ newline else "")
  +:+ (if bool_decide (RegistryCAPEM c = "") then "" else "  ca = " +:+ quote caPath +:+ newline)
  +:+ (if bool_decide (Username credential = "") then "" else
         "  [host." +:+ quote serverURL +:+ ".header]" +:+ newline +:+ "    authorization = " +:+ dq +:+ "Basic "
         +:+ base64_encode (to_bytes (Username credential +:+ ":" +:+ Password credential)) +:+ dq +:+ newline).

(* src: runner/internal/runtime/runtime.go:335-373 (Client).writeContainerdHosts *)
Definition writeContainerdHosts (c : RuntimeConfig) (transientRoot : string) (credential : Credential) : M W unit :=
  host ← lift (registryHost (RegistryHost c));
  let directory := path_join [transientRoot; ".containerd-hosts"; host] in
  let caPath := path_join [directory; "ca.crt"] in
  _ ← wrapM (wrap "create containerd hosts directory: %w") (on_os (mkdir_all directory 448));
  _ ← (if bool_decide (RegistryCAPEM c = "") then mret ()
       else wrapM (wrap "write containerd registry CA: %w") (on_os (write_file caPath (to_bytes (RegistryCAPEM c)) 384)));
  wrapM (wrap "write containerd hosts config: %w")
    (on_os (write_file (path_join [directory; "hosts.toml"]) (to_bytes (containerd_hosts c credential caPath)) 384)).

Definition run_exec (spec : Spec W) (action : string) : M W unit := λ w,
  match exec spec w with
  | ((_, Some e), w) => (Err (Wrapf "%s: %w" [FStr action] e), w)
  | ((_, None), w) => (Ok (), w)
  end.

(* src: runner/internal/runtime/runtime.go:172-206 (Client).Login *)
Definition Login (c : RuntimeConfig) (workspace transientRoot : string) (credential : Credential)
    (timeoutSpec : Spec W) (output : Output W) : M W unit :=
  let no_user := bool_decide (Username credential = "") in
  let no_password := bool_decide (Password credential = "") in
  _ ← lift (fail_if ((no_user || no_password) && (negb no_user || negb no_password))
              (error_new "registry username and password must both be present"));
  if bool_decide (Kind c = "containerd") then writeContainerdHosts c transientRoot credential else
  podmanTLS ← podmanTLSArguments c transientRoot;
  if no_user then mret () else
  _ ← wrapM (wrap "create runtime authentication directory: %w")
        (on_os (mkdir_all (path_join [transientRoot; ".runtime-auth"]) 448));
  run_exec {| Path := BinaryPath c;
              Args := ["login"] ++ podmanTLS ++ [RegistryHost c; "--username"; Username credential; "--password-stdin"];
              Dir := workspace; Env := withAuthEnv c transientRoot (Env timeoutSpec);
              Stdin := to_bytes (Password credential) ++ ["010"%char]; Timeout := Timeout timeoutSpec;
              Stdout := o_Stdout output; Stderr := o_Stderr output; Isolated := Isolated timeoutSpec |} "registry login".

(** [transientRoot] is empty for the commands that need no credentials. *)
(* src: runner/internal/runtime/runtime.go:256-284 (Client).runWithTransient *)
Definition runWithTransient (c : RuntimeConfig) (workspace transientRoot : string) (args : list string)
    (base : Spec W) (output : Output W) (stdin : bytes) (action : string) : M W unit :=
  run_exec {| Path := BinaryPath c; Args := args; Dir := workspace;
              Env := if bool_decide (transientRoot = "") then Env base else withAuthEnv c transientRoot (Env base);
              Stdin := stdin; Timeout := Timeout base; Stdout := o_Stdout output; Stderr := o_Stderr output;
              Isolated := Isolated base |} action.
(* src: runner/internal/runtime/runtime.go:252-254 (Client).run *)
Definition run (c : RuntimeConfig) (workspace : string) (args : list string) (base : Spec W) (output : Output W)
    (stdin : bytes) (action : string) : M W unit :=
  runWithTransient c workspace "" args base output stdin action.

(* src: runner/internal/runtime/runtime.go:208-214 (Client).Load *)
Definition Load (c : RuntimeConfig) (workspace imageTar : string) (base : Spec W) (output : Output W) : M W unit :=
  run c workspace (if bool_decide (Kind c = "containerd") then containerdPrefix c ++ ["images"; "import"; imageTar]
                   else ["load"; "--input"; imageTar]) base output [] "load image".

(* src: runner/internal/runtime/runtime.go:216-225 (Client).Tag *)
Definition Tag (c : RuntimeConfig) (workspace source destination : string) (base : Spec W) (output : Output W) : M W unit :=
  _ ← lift (fail_if (bool_decide (source = "") || bool_decide (destination = ""))
              (error_new "source and destination image references are required"));
  run c workspace (if bool_decide (Kind c = "containerd") then containerdPrefix c ++ ["images"; "tag"; source; destination]
                   else ["tag"; source; destination]) base output [] "tag image".

(* src: runner/internal/runtime/runtime.go:227-239 (Client).Push *)
Definition push_arguments (c : RuntimeConfig) (transientRoot : string) : M W (list string) :=
  if bool_decide (Kind c = "containerd") then
    let hostsRoot := path_join [transientRoot; ".containerd-hosts"] in
    found ← try (on_os (stat hostsRoot));
    mret (containerdPrefix c ++ ["images"; "push"] ++ if is_ok found then ["--hosts-dir"; hostsRoot] else [])
  else if bool_decide (Kind c = "podman") then
    tlsArguments ← podmanTLSArguments c transientRoot; mret (["push"] ++ tlsArguments)
  else mret ["push"].

(* src: runner/internal/runtime/runtime.go:227-243 (Client).Push *)
Definition Push (c : RuntimeConfig) (workspace transientRoot destination : string) (base : Spec W) (output : Output W) : M W unit :=
  args ← push_arguments c transientRoot;
  runWithTransient c workspace transientRoot (args ++ [destination]) base output [] "push image".

(* src: runner/internal/runtime/runtime.go:245-250 (Client).Destination *)
Definition Destination (c : RuntimeConfig) (repository tag : string) : result string :=
  _ ← fail_if (contains_any (repository +:+ tag) (chars " @" ++ ["009"; "013"; "010"]%char)
               || bool_decide (repository = "") || bool_decide (tag = "")) (error_new "invalid repository or tag");
  let project := trim [slash] (RegistryProject c) in
  _ ← fail_if (bool_decide (project = "") || contains project "..") (error_new "registry project is invalid");
  Ok (RegistryHost c +:+ "/" +:+ project +:+ "/" +:+ trim_prefix repository "/" +:+ ":" +:+ tag).
End runtime.

(** ** The runtime binary *)

(** What only root can change. *)
Definition root_only (n : node) : Prop := n_uid n = 0 ∧ Z.land (n_perm n) 18 = 0.

(** The location an absolute path denotes. *)
Definition denotes (m : filesystem) (follow : bool) (p : string) (loc : location) : Prop :=
  walk max_links m follow [] (split_byte slash p) = Ok loc.

Definition trusted_directory (m : filesystem) (d : string) : Prop :=
  d ∈ runtimeBinaryDirectories ∧
  ∃ loc n, denotes m true d loc ∧ m !! loc = Some n ∧ is_dir n = true ∧ root_only n.

Lemma validateRootOwnedMode_ok info d x u :
  validateRootOwnedMode info d x = Ok u →
  root_only info ∧ (if d then is_dir info = true else is_regular info = true) ∧ (x = true → Z.land (n_perm info) 73 ≠ 0).
Proof.
  unfold validateRootOwnedMode, validateRootOwner. intros Hr. inv_ok Hr.
  apply negb_false_iff, Z.eqb_eq in Hok1. apply negb_false_iff, Z.eqb_eq in Hok2. split; [done|].
  split; [destruct d; [by destruct (is_dir info)|by destruct (is_regular info)]|].
  intros ->. simpl in Hr. by apply Z.eqb_neq in Hr.
Qed.

Lemma stat_with_run b p w n w' :
  is_abs p = true → stat_with b p w = (Ok n, w') → fs w' = fs w ∧ ∃ loc, denotes (fs w) b p loc ∧ fs w !! loc = Some n.
Proof.
  intros Ha (m & Hf & ->)%sys_run. inv_ok Hf. split; [done|]. exists x. split; [|done].
  unfold resolve in Hok. case_bool_decide; [done|]. by rewrite Ha in Hok.
Qed.

Lemma walk_more k k' m b cur todo loc :
  (k ≤ k')%nat → Forall (free_of slash) todo → walk k m b cur todo = Ok loc → walk k' m b cur todo = Ok loc.
Proof.
  intros Hk Htodo Hw. revert k' cur todo Hk Htodo Hw. induction k as [k IHk] using lt_wf_ind.
  intros k' cur todo Hk Htodo. revert cur. induction Htodo as [|x todo Hx Htodo IH]; intros cur.
  { by rewrite !walk_nil. }
  destruct (decide (x = "" ∨ x = ".")) as [Hskip|Hskip]; [rewrite !walk_skip by done; apply IH|].
  destruct (decide (x = "..")) as [->|Hdot]; [rewrite !walk_dotdot; apply IH|].
  assert (normal x) as Hn by (constructor; naive_solver). rewrite !walk_normal by done.
  destruct (m !! (cur ++ [x])) as [n|] eqn:E; [|done]. destruct (n_kind n) eqn:Hkind; [done|apply IH| |done].
  destruct (_ && _); [done|]. destruct k as [|k]; [done|]. destruct k' as [|k']; [lia|]. apply IHk; [lia|lia|].
  apply Forall_app. split; [apply split_byte_free|done].
Qed.

(** A clean path with the given base name in a directory of the list. *)
Lemma binary_path_parts p name :
  is_abs p = true → clean p = p → base p = name → dir p ∈ runtimeBinaryDirectories → p = dir p +:+ "/" +:+ name.
Proof.
  intros Ha Hc Hb Hd. destruct (clean_abs p Ha) as (l & Hl & Hn). rewrite Hc in Hl. subst p.
  destruct l as [|x l _] using rev_ind.
  { exfalso. vm_compute in Hd. by repeat (apply elem_of_cons in Hd as [?|Hd]; [done|]); apply elem_of_nil in Hd. }
  apply Forall_app in Hn as [Hn Hx]. inversion Hx; subst. rewrite base_abs_path, dir_abs_path in * by done.
  rewrite abs_path_snoc. destruct l as [|y l]; [|done].
  exfalso. vm_compute in Hd. by repeat (apply elem_of_cons in Hd as [?|Hd]; [done|]); apply elem_of_nil in Hd.
Qed.

Lemma system_directory_abs d : d ∈ runtimeBinaryDirectories → is_abs d = true.
Proof.
  unfold runtimeBinaryDirectories. intros Hd.
  repeat (apply elem_of_cons in Hd as [->|Hd]; [reflexivity|]). by apply elem_of_nil in Hd.
Qed.

Lemma trusted_directory_stat d w n w' x :
  d ∈ runtimeBinaryDirectories → stat d w = (Ok n, w') → validateRootOwnedMode n true x = Ok () →
  fs w' = fs w ∧ trusted_directory (fs w) d.
Proof.
  intros Hd Hs (Hr & Hk & _)%validateRootOwnedMode_ok.
  apply stat_with_run in Hs as (Hfs & loc & Hloc & Hn); [|by apply system_directory_abs].
  split; [done|]. split; [done|]. by exists loc, n.
Qed.

Lemma validateBinaryLink_ok kind path ln w w1 :
  no_root (fs w) → is_abs path = true → validateBinaryLink kind path ln w = (Ok (), w1) →
  fs w1 = fs w ∧ n_uid ln = 0 ∧ ∃ loc name,
    runtimeBinaryNames kind = Some name ∧ walk 255 (fs w) true [] (split_byte slash path) = Ok loc
    ∧ abs_path loc = dir (abs_path loc) +:+ "/" +:+ name ∧ trusted_directory (fs w) (dir (abs_path loc)).
Proof.
  intros Hroot Ha H. unfold validateBinaryLink, validateRootOwner in H. inv_run H.
  apply eval_walk in Hrun0 as (-> & loc & -> & Hw); [|done].
  pose proof (walk_real_path _ _ _ _ _ Hroot (Forall_nil_2 _) (real_dir_nil _) (split_byte_free _ _) Hw) as [Hn _ _].
  apply negb_false_iff, Z.eqb_eq in Hrun. apply negb_false_iff, bool_decide_eq_true in Hrun2, Hrun3.
  apply trusted_directory_stat with (x := false) in Hrun4 as [Hfs Htd]; [|done|done]. simpl in Hfs, Htd.
  split; [done|]. split; [done|]. exists loc, (base (abs_path loc)). split; [done|]. split; [done|]. split; [|done].
  apply binary_path_parts; [apply is_abs_abs_path|by apply clean_abs_path|done|done].
Qed.

(** A runtime binary that passes validation is the well-known program of
    its kind in one of the four system directories; that directory and the
    file the path denotes belong to root and nobody else can write to them,
    the file is regular and executable, and when the path is a symbolic link
    the link is root's and leads to the same name in such a directory. *)
Lemma runtime_binary_trusted kind path w w' :
  no_root (fs w) → validateRuntimeBinary kind path w = (Ok (), w') →
  fs w' = fs w ∧ ∃ name loc n,
    runtimeBinaryNames kind = Some name
    ∧ path = dir path +:+ "/" +:+ name ∧ trusted_directory (fs w) (dir path)
    ∧ denotes (fs w) true path loc ∧ fs w !! loc = Some n
    ∧ is_regular n = true ∧ root_only n ∧ Z.land (n_perm n) 73 ≠ 0
    ∧ (∀ link ln, denotes (fs w) false path link → fs w !! link = Some ln → is_symlink ln = true →
         n_uid ln = 0 ∧ abs_path loc = dir (abs_path loc) +:+ "/" +:+ name ∧ trusted_directory (fs w) (dir (abs_path loc))).
Proof.
  intros Hroot H. unfold validateRuntimeBinary in H. inv_run H. unfold validateRuntimeBinaryPath in Hrun. inv_ok Hrun.
  rename x5 into name. apply negb_false_iff, bool_decide_eq_true in Hrun.
  apply orb_false_iff in Hok0 as [Hok0 Hb%negb_false_iff%bool_decide_eq_true].
  apply orb_false_iff in Hok0 as [Ha%negb_false_iff Hc%negb_false_iff%bool_decide_eq_true].
  match type of Hrun1 with _ = Ok ?u => destruct u end.
  apply trusted_directory_stat with (x := false) in Hrun0 as [Hfs0 Htd]; [|done|done].
  apply stat_with_run in Hrun2 as (Hfs1 & link & Hlink & Hln); [|done]. rewrite Hfs0 in *.
  assert (fs w2 = fs w ∧ (is_symlink x2 = true → n_uid x2 = 0 ∧ ∃ loc name',
    runtimeBinaryNames kind = Some name' ∧ walk 255 (fs w) true [] (split_byte slash path) = Ok loc
    ∧ abs_path loc = dir (abs_path loc) +:+ "/" +:+ name' ∧ trusted_directory (fs w) (dir (abs_path loc)))) as [Hfs2 Hsym].
  { destruct (is_symlink x2); [|by injection Hrun3 as <- <-; rewrite Hfs1].
    match type of Hrun3 with _ = (Ok ?u, _) => destruct u end.
    apply validateBinaryLink_ok in Hrun3 as (-> & ? & ?); [|by rewrite Hfs1|done]. by rewrite Hfs1 in *. }
  apply stat_with_run in Hrun4 as (Hfs3 & loc & Hloc & Hn); [|done]. rewrite Hfs2 in *.
  apply validateRootOwnedMode_ok in H as (Hro & Hreg & Hx). split; [done|].
  exists name, loc, x4. split_and!; try done.
  - rewrite <- Hb. by apply binary_path_parts.
  - by apply Hx.
  - intros link' ln Hl' Hln' Hs. unfold denotes in Hl', Hlink. rewrite Hlink in Hl'. injection Hl' as <-.
    rewrite Hln in Hln'. injection Hln' as <-. destruct (Hsym Hs) as (Huid & loc2 & name' & Hname & Hw & Hp & Htd2).
    assert (loc2 = loc) as ->.
    { assert (walk 255 (fs w) true [] (split_byte slash path) = Ok loc) as Hw2; [|congruence].
      eapply walk_more; [|apply split_byte_free|exact Hloc]. unfold max_links. lia. }
    split; [done|]. split; [congruence|done].
Qed.

(** ** Passwords *)

(** Two commands that differ at most in their standard input. *)
Definition same_but_stdin {W} (s s' : Spec W) : Prop :=
  Path s = Path s' ∧ Args s = Args s' ∧ Dir s = Dir s' ∧ Env s = Env s' ∧ Timeout s = Timeout s'
  ∧ Stdout s = Stdout s' ∧ Stderr s = Stderr s' ∧ Isolated s = Isolated s'.

(** With docker and podman the registry password travels on the standard
    input of the login command and nowhere else: for an executor that does not
    look at the standard input, logging in with one password or another is the
    same in every respect: arguments, environment, files, result and world. *)
Lemma password_only_on_stdin {W} `{HasOS W} (exec : CommandExecutor W) url_parse quote c workspace transientRoot
    user password password' base output w :
  (∀ s s' w, same_but_stdin s s' → exec s w = exec s' w) →
  Kind c ≠ "containerd" → password ≠ "" → password' ≠ "" →
  Login exec url_parse quote c workspace transientRoot {| Username := user; Password := password |} base output w
  = Login exec url_parse quote c workspace transientRoot {| Username := user; Password := password' |} base output w.
Proof.
  intros Hexec Hk Hp Hp'. unfold Login. cbv zeta. cbn [Username Password].
  rewrite (bool_decide_false (password = "")), (bool_decide_false (password' = "")), (bool_decide_false (Kind c = "containerd")) by done.
  unfold mbind, M_bind, lift. destruct (fail_if _ _); [|done].
  destruct (podmanTLSArguments c transientRoot w) as [[tls|e] w1]; [|done].
  destruct (bool_decide (user = "")); [done|]. destruct (wrapM _ _ w1) as [[u|e] w2]; [|done].
  unfold run_exec. by rewrite (Hexec _ {| Path := BinaryPath c; Args := ["login"] ++ tls ++ [RegistryHost c; "--username"; user; "--password-stdin"];
    Dir := workspace; Env := withAuthEnv c transientRoot (Env base); Stdin := to_bytes password' ++ ["010"%char];
    Timeout := Timeout base; Stdout := o_Stdout output; Stderr := o_Stderr output; Isolated := Isolated base |}).
Qed.

(** ** Witnesses *)
Definition system_node (k : kind) : node :=
  {| n_kind := k; n_uid := 0; n_gid := 0; n_perm := 493; n_setgid := false; n_sticky := false |}.
Definition system_os : os := {|
  fs := <[["usr"] := system_node KDir]> (<[["usr"; "bin"] := system_node KDir]>
        (<[["usr"; "local"] := system_node KDir]> (<[["usr"; "local"; "bin"] := system_node KDir]>
        (<[["usr"; "bin"; "docker"] := system_node (KReg ["x"%char])]>
        (<[["usr"; "local"; "bin"; "docker"] := system_node (KSymlink "/usr/bin/docker")]> ∅)))));
  cwd := []; euid := 7; egid := 8; umask := 18; faults := λ _, None; tick := 0 |}.

Definition docker_config : RuntimeConfig := {|
  Kind := "docker"; BinaryPath := "/usr/bin/docker"; Namespace := ""; RegistryURL := "https://r"; RegistryHost := "r";
  RegistryProject := "p"; RegistryInsecure := false; RegistryCAPEM := ""; CredentialAAD := ""; CredentialCiphertext := "" |}.
Definition base_spec : Spec os := {|
  Path := ""; Args := []; Dir := ""; Env := ∅; Stdin := []; Timeout := 1; Stdout := None; Stderr := None; Isolated := false |}.
(** Runs when the user is named on the command line. *)
Definition named_user : CommandExecutor os := λ s w,
  ((no_result, if bool_decide ("bob" ∈ Args s) then None else Some (External "unknown user")), w).

