(* ===== verification/Registry.v ===== *)
(** * The registry client (runner/internal/runtime/registry.go)

    HTTP is a parameter acting on the caller's world: it takes a request,
    whose URL is kept parsed, and returns the parts of the response the code
    reads.  net/url's parser, the PEM decoder and the JSON decoder of the token
    response are parameters too. *)
From S2P Require Import Prelude GoIO GoString GoPath Encoding Model Runtime.

(** ** Requests and responses *)
Inductive authorization := NoAuth | Basic (username password : string) | Bearer (token : string).
Record request := { rq_method : string; rq_url : URL; rq_accept : string; rq_auth : authorization }.
Record reply := { rp_status : Z; rp_challenge : string; rp_digest : string; rp_body : bytes }.

Definition set_path (path : string) (u : URL) : URL :=
  {| u_Scheme := u_Scheme u; u_Host := u_Host u; u_Hostname := u_Hostname u; u_User := u_User u; u_Path := path;
     u_Query := u_Query u; u_Fragment := u_Fragment u |}.
Definition set_query (q : gmap string (list string)) (u : URL) : URL :=
  {| u_Scheme := u_Scheme u; u_Host := u_Host u; u_Hostname := u_Hostname u; u_User := u_User u; u_Path := u_Path u;
     u_Query := q; u_Fragment := u_Fragment u |}.

(** [url.PathEscape]. *)
Definition unescaped_in_segment (c : ascii) : bool :=
  lower_alpha c || upper_alpha c || digit c || in_set (chars "-_.~$&+:=@") c.
Definition upper_hex (z : Z) : ascii := upper_byte (hex_digit z).
Definition path_escape (s : string) : string :=
  of_chars (concat ((λ c, if unescaped_in_segment c then [c]
                          else ["%"%char; upper_hex (byte c / 16); upper_hex (byte c `mod` 16)]) <$> chars s)).

(* src: runner/internal/runtime/registry.go:17-21 RegistryClient *)
Record RegistryClient := { baseURL : URL; credential : Credential; timeout : Z }.

(** ** Bearer challenges *)
Definition malformed : goerr := error_new "registry Bearer challenge is malformed".

(** The quoted value after its opening quote: the value and the rest. *)
(* src: runner/internal/runtime/registry.go:193-210 parseBearerChallenge *)
Fixpoint quoted_value (input : list ascii) : option (list ascii * list ascii) :=
  match input with
  | [] => None
  | c :: input =>
      if is_char "\"%char c then
        match input with
        | d :: input => '(v, rest) ← quoted_value input; Some (d :: v, rest)
        | [] => None
        end
      else if is_char "034"%char c then Some ([], input)
      else '(v, rest) ← quoted_value input; Some (c :: v, rest)
  end.

(* src: runner/internal/runtime/registry.go:189-219 parseBearerChallenge *)
Definition parse_value (input : string) : result (string * string) :=
  match chars input with
  | c :: rest =>
      if is_char "034"%char c then
        match quoted_value rest with
        | Some (v, rest) => Ok (of_chars v, of_chars rest)
        | None => Err (error_new "registry Bearer challenge has an unterminated value")
        end
      else
        match index_byte ","%char input with
        | None => Ok (trim_space input, "")
        | Some comma => Ok (trim_space (take_str comma input), drop_str (S comma) input)
        end
  | [] => Err malformed
  end.

(** One parameter: its key, its value and the input after it; nothing when
    only separators are left. *)
(* src: runner/internal/runtime/registry.go:177-221 parseBearerChallenge *)
Definition parse_parameter (input : string) : result (option (string * string * string)) :=
  let input := trim_left [" "; "009"; ","]%char input in
  if bool_decide (input = "") then Ok None else
  match index_byte "="%char input with
  | None | Some O => Err malformed
  | Some equals =>
      let key := to_lower (trim_space (take_str equals input)) in
      let input := trim_space (drop_str (S equals) input) in
      if bool_decide (key = "") || bool_decide (input = "") then Err malformed else
      '(value, rest) ← parse_value input;
      Ok (Some (key, value, rest))
  end.

(** Every round consumes at least the equals sign. *)
(* src: runner/internal/runtime/registry.go:176-222 parseBearerChallenge *)
Fixpoint parameters_loop (fuel : nat) (input : string) (parameters : gmap string string) : result (gmap string string) :=
  if bool_decide (input = "") then Ok parameters else
  match fuel with
  | O => Err (External "out of fuel")
  | S fuel =>
      found ← parse_parameter input;
      match found with
      | None => Ok parameters
      | Some (key, value, rest) => parameters_loop fuel rest (<[key := value]> parameters)
      end
  end.

(* src: runner/internal/runtime/registry.go:167-230 parseBearerChallenge *)
Definition parseBearerChallenge (value : string) : result (gmap string string) :=
  let value := trim_space value in
  match index_where (in_set [" "; "009"]%char) value with
  | Some space =>
      if equal_fold (take_str space value) "Bearer" then
        let input := trim_space (drop_str (S space) value) in
        parameters ← parameters_loop (String.length input) input ∅;
        _ ← fail_if (bool_decide (default "" (parameters !! "realm") = "")) (error_new "registry Bearer challenge has no realm");
        Ok parameters
      else Err (error_new "registry did not return a Bearer authentication challenge")
  | None => Err (error_new "registry did not return a Bearer authentication challenge")
  end.

Section registry.
Context {W : Type}.
(** [http.Client.Do], [url.Parse], [AppendCertsFromPEM], and the token and
    access token of a JSON response. *)
Context (http : request → M W reply) (url_parse : string → result URL) (pem_certificates : string → bool).
Context (decode_token : bytes → result (string * string)).

Definition http_scheme (s : string) : bool := bool_decide (s = "http") || bool_decide (s = "https").

(* src: runner/internal/runtime/registry.go:23-48 NewRegistryClient *)
Definition NewRegistryClient (endpoint caPEM : string) (insecure : bool) (cred : Credential) (limit : Z) : result RegistryClient :=
  let invalid := error_new "registry_url must be an absolute HTTP(S) URL without user info" in
  base ← map_err (λ _, invalid) (url_parse endpoint);
  _ ← fail_if (negb (http_scheme (u_Scheme base)) || bool_decide (u_Host base = "") || u_User base) invalid;
  _ ← fail_if (limit <=? 0) (error_new "registry timeout must be positive");
  _ ← fail_if (negb (bool_decide (caPEM = "")) && negb (pem_certificates caPEM))
        (error_new "registry CA PEM contains no certificates");
  Ok {| baseURL := base; credential := cred; timeout := limit |}.

Definition basic_or_none (cred : Credential) : authorization :=
  if bool_decide (Username cred = "") then NoAuth else Basic (Username cred) (Password cred).

Definition manifest_types : string :=
  join ", " ["application/vnd.oci.image.manifest.v1+json"; "application/vnd.docker.distribution.manifest.v2+json";
             "application/vnd.docker.distribution.manifest.list.v2+json"].

(* src: runner/internal/runtime/registry.go:99-115 (RegistryClient).digestRequest *)
Definition digestRequest (c : RegistryClient) (endpoint : URL) (bearerToken : string) : request :=
  {| rq_method := "HEAD"; rq_url := endpoint; rq_accept := manifest_types;
     rq_auth := if bool_decide (bearerToken = "") then basic_or_none (credential c) else Bearer bearerToken |}.

Definition success_status (s : Z) : bool := (200 <=? s) && (s <? 300).

(** [query.Set] for the parameters that are present. *)
(* src: runner/internal/runtime/registry.go:129-135 (RegistryClient).exchangeBearerToken *)
Definition realm_query (parameters : gmap string string) (query : gmap string (list string)) : gmap string (list string) :=
  foldl (λ q key, match default "" (parameters !! key) with
                  | EmptyString => q
                  | value => <[key := [value]]> q end) query ["service"; "scope"].

(* src: runner/internal/runtime/registry.go:117-165 (RegistryClient).exchangeBearerToken *)
Definition exchangeBearerToken (c : RegistryClient) (challenge : string) : M W string :=
  parameters ← lift (parseBearerChallenge challenge);
  let invalid := error_new "registry Bearer challenge contains an invalid realm" in
  realm ← lift (map_err (λ _, invalid) (url_parse (default "" (parameters !! "realm"))));
  _ ← lift (fail_if (negb (http_scheme (u_Scheme realm)) || bool_decide (u_Host realm = "") || u_User realm
                     || negb (bool_decide (u_Fragment realm = ""))) invalid);
  _ ← lift (fail_if (bool_decide (u_Scheme (baseURL c) = "https") && negb (bool_decide (u_Scheme realm = "https")))
              (error_new "registry Bearer realm cannot downgrade HTTPS"));
  resp ← wrapM (wrap "registry token request: %w")
    (http {| rq_method := "GET"; rq_url := set_query (realm_query parameters (u_Query realm)) realm;
             rq_accept := "application/json"; rq_auth := basic_or_none (credential c) |});
  _ ← lift (fail_if (negb (success_status (rp_status resp))) (Errorf "registry token request: HTTP %d" [FInt (rp_status resp)]));
  '(token, access) ← lift (map_err (wrap "decode registry token: %w") (decode_token (take (Z.to_nat 1048576) (rp_body resp))));
  let token := if bool_decide (token = "") then access else token in
  _ ← lift (fail_if (bool_decide (token = "") || (65536 <? slen token) || contains_any token ["013"; "010"]%char)
              (error_new "registry token response is invalid"));
  mret token.

(** The segments of the repository, escaped. *)
(* src: runner/internal/runtime/registry.go:50-60 (RegistryClient).Digest *)
Definition repository_path (repository tag : string) : result string :=
  let segments := split_byte "/"%char (trim ["/"%char] repository) in
  _ ← fail_if (bool_decide (tag = "")) (error_new "repository and tag are required");
  _ ← result_iter (λ segment, fail_if (bool_decide (segment = "") || bool_decide (segment = ".") || bool_decide (segment = ".."))
        (error_new "invalid registry repository")) segments;
  Ok (join "/" (path_escape <$> segments)).

(** The digest of a response. *)
(* src: runner/internal/runtime/registry.go:85-97 (RegistryClient).Digest *)
Definition response_digest (resp : reply) : result string :=
  _ ← fail_if (negb (success_status (rp_status resp))) (Errorf "query registry digest: HTTP %d" [FInt (rp_status resp)]);
  let digest := trim_space (rp_digest resp) in
  let encoded := trim_prefix digest "sha256:" in
  let invalid := Errorf "registry returned invalid Docker-Content-Digest %q" [FStr digest] in
  _ ← fail_if (negb (has_prefix digest "sha256:") || negb (slen encoded =? 64)) invalid;
  _ ← of_option invalid (hex_decode encoded);
  Ok digest.

(* src: runner/internal/runtime/registry.go:50-97 (RegistryClient).Digest *)
Definition Digest (c : RegistryClient) (repository tag : string) : M W string :=
  segments ← lift (repository_path repository tag);
  let requestURL := set_path (trim_right ["/"%char] (u_Path (baseURL c)) +:+ "/v2/" +:+ segments +:+ "/manifests/" +:+ path_escape tag)
                      (baseURL c) in
  resp ← wrapM (wrap "query registry digest: %w") (http (digestRequest c requestURL ""));
  resp ← (if rp_status resp =? 401 then
            token ← wrapM (wrap "query registry digest: %w") (exchangeBearerToken c (rp_challenge resp));
            wrapM (wrap "query registry digest with bearer token: %w") (http (digestRequest c requestURL token))
          else mret resp);
  lift (response_digest resp).
End registry.

(** ** The loop over the parameters ends *)
Lemma decode_rune_width l : l ≠ [] → (1 ≤ (decode_rune l).2 ≤ length l)%nat.
Proof.
  intros Hl. destruct l as [|a [|b [|c [|d l]]]]; [done|..]; unfold decode_rune; repeat case_match; simpl in *; simplify_eq; simpl; lia.
Qed.

Lemma concat_runes_loop fuel l : (length l ≤ fuel)%nat → concat (snd <$> runes_loop fuel l) = l.
Proof.
  revert l. induction fuel as [|fuel IH]; intros l Hl; [by destruct l; [|simpl in Hl; lia]|].
  destruct l as [|a l]; [done|]. cbn [runes_loop]. pose proof (decode_rune_width (a :: l) ltac:(done)) as Hw.
  destruct (decode_rune (a :: l)) as [r w]. cbn [fmap list_fmap concat snd]. cbn [snd] in Hw.
  rewrite IH; [apply take_drop|]. rewrite length_drop. lia.
Qed.

Lemma drop_while_suffix {A} (p : A → bool) l : ∃ k, l = k ++ drop_while p l.
Proof.
  induction l as [|x l [k IH]]; [by exists []|]. simpl. destruct (p x); [|by exists []]. exists (x :: k). simpl. by f_equal.
Qed.
Lemma drop_while_end_prefix {A} (p : A → bool) l : ∃ k, l = drop_while_end p l ++ k.
Proof.
  unfold drop_while_end. destruct (drop_while_suffix p (reverse l)) as [k Hk]. exists (reverse k).
  rewrite <- reverse_app, <- Hk. symmetry. apply reverse_involutive.
Qed.

(** A shorter-or-equal string. *)
Lemma slen_trim_space s : slen (trim_space s) ≤ slen s.
Proof.
  rewrite !slen_chars. unfold trim_space. rewrite chars_of_chars. apply inj_le.
  assert (chars s = concat (snd <$> runes s)) as Hs.
  { symmetry. apply concat_runes_loop. by rewrite length_chars. }
  set (sp := λ x : Z * list ascii, is_space x.1).
  destruct (drop_while_suffix sp (runes s)) as [k Hk]. destruct (drop_while_end_prefix sp (drop_while sp (runes s))) as [k' Hk'].
  transitivity (length (concat (snd <$> k ++ drop_while_end sp (drop_while sp (runes s)) ++ k'))).
  - rewrite !fmap_app, !concat_app, !length_app. lia.
  - rewrite Hs, <- Hk', <- Hk. done.
Qed.
Lemma slen_trim_left set s : slen (trim_left set s) ≤ slen s.
Proof.
  rewrite !slen_chars. unfold trim_left. rewrite chars_of_chars. apply inj_le.
  destruct (drop_while_suffix (in_set set) (chars s)) as [k Hk]. apply (f_equal length) in Hk. rewrite length_app in Hk. lia.
Qed.
Lemma slen_drop_str n s : slen (drop_str n s) = Z.max 0 (slen s - Z.of_nat n).
Proof. unfold drop_str. rewrite !slen_chars, chars_of_chars, length_drop. lia. Qed.
Lemma slen_take_str n s : slen (take_str n s) ≤ slen s.
Proof. unfold take_str. rewrite !slen_chars, chars_of_chars, length_take. lia. Qed.

Lemma quoted_value_shorter l v rest : quoted_value l = Some (v, rest) → (length rest < length l)%nat.
Proof.
  revert v rest. induction l as [l IH] using (induction_ltof1 _ (@length ascii)); unfold ltof in IH. intros v rest.
  destruct l as [|c l]; [done|]. cbn [quoted_value]. destruct (is_char "\"%char c).
  - destruct l as [|d l]; [done|]. destruct (quoted_value l) as [[v' r']|] eqn:E; [|done]. simpl. intros [= <- <-].
    apply IH in E; [|simpl; lia]. simpl. lia.
  - destruct (is_char "034"%char c); [intros [= <- <-]; simpl; lia|].
    destruct (quoted_value l) as [[v' r']|] eqn:E; [|done]. simpl. intros [= <- <-]. apply IH in E; simpl; lia.
Qed.

Lemma parse_value_shorter input v rest : parse_value input = Ok (v, rest) → slen rest ≤ slen input.
Proof.
  unfold parse_value. destruct (chars input) as [|c l] eqn:E; [done|].
  assert (slen input = 1 + Z.of_nat (length l)) as Hs by (rewrite slen_chars, E; simpl; lia).
  destruct (is_char "034"%char c).
  - destruct (quoted_value l) as [[v' r']|] eqn:Eq; [|done]. intros [= <- <-]. apply quoted_value_shorter in Eq.
    rewrite Hs, slen_chars, chars_of_chars. lia.
  - destruct (index_byte ","%char input); intros [= <- <-]; [rewrite slen_drop_str; pose proof (slen_nonneg input); lia|].
    change (slen "") with 0. apply slen_nonneg.
Qed.

Lemma parse_parameter_shorter input key value rest :
  parse_parameter input = Ok (Some (key, value, rest)) → slen rest < slen input.
Proof.
  unfold parse_parameter. cbv zeta. set (i1 := trim_left _ input). pose proof (slen_trim_left [" "; "009"; ","]%char input) as H1. fold i1 in H1.
  case_bool_decide as Hne; [done|]. destruct (index_byte "="%char i1) as [[|n]|]; [done| |done].
  destruct (_ || _); [done|]. intros H. inv_ok H. apply parse_value_shorter in Hok.
  pose proof (slen_trim_space (drop_str (S (S n)) i1)) as H2. rewrite slen_drop_str in H2.
  assert (0 < slen i1).
  { destruct i1; [done|]. rewrite slen_cons. pose proof (slen_nonneg i1). lia. }
  lia.
Qed.

Lemma parameters_loop_fuel fuel fuel' : ∀ input ps,
  slen input ≤ Z.of_nat fuel → (fuel ≤ fuel')%nat → parameters_loop fuel' input ps = parameters_loop fuel input ps.
Proof.
  revert fuel'. induction fuel as [|fuel IH]; intros fuel' input ps Hlen Hf.
  - destruct input; [by destruct fuel'|]. rewrite slen_cons in Hlen. pose proof (slen_nonneg input). lia.
  - destruct fuel' as [|fuel']; [lia|]. cbn [parameters_loop]. case_bool_decide; [done|].
    destruct (parse_parameter input) as [[[[k v] rest]|]|e] eqn:E; [|done..].
    cbn. apply parse_parameter_shorter in E. apply IH; lia.
Qed.

Lemma parse_parameter_fuel input e : parse_parameter input = Err e → e ≠ External "out of fuel".
Proof.
  assert (∀ i, match parse_value i with Err e => e ≠ External "out of fuel" | _ => True end) as Hv.
  { intros i. unfold parse_value. destruct (chars i); [done|]. destruct (is_char _ _).
    - by destruct (quoted_value l) as [[]|].
    - by destruct (index_byte _ i). }
  unfold parse_parameter. cbv zeta. set (i := trim_left _ _). clearbody i. case_bool_decide; [done|].
  destruct (index_byte "="%char i) as [[|n]|]; [by intros [= <-]| |by intros [= <-]].
  destruct (_ || _); [by intros [= <-]|]. specialize (Hv (trim_space (drop_str (S (S n)) i))).
  destruct (parse_value _) as [[v r]|e']; [done|]. simpl. by intros [= <-].
Qed.

Lemma parameters_loop_ends fuel : ∀ input ps, slen input ≤ Z.of_nat fuel →
  parameters_loop fuel input ps ≠ Err (External "out of fuel").
Proof.
  induction fuel as [|fuel IH]; intros input ps Hlen.
  - destruct input; [done|]. rewrite slen_cons in Hlen. pose proof (slen_nonneg input). lia.
  - cbn [parameters_loop]. case_bool_decide; [done|].
    destruct (parse_parameter input) as [[[[k v] rest]|]|e] eqn:E; cbn; [|done|].
    + apply parse_parameter_shorter in E. apply IH. lia.
    + intros [= ->]. by apply parse_parameter_fuel in E.
Qed.

(** The fuel of a challenge is enough: more changes nothing. *)
Lemma parseBearerChallenge_ends value : parseBearerChallenge value ≠ Err (External "out of fuel").
Proof.
  unfold parseBearerChallenge. cbv zeta. destruct (index_where _ _) as [space|]; [|done]. destruct (equal_fold _ _); [|done].
  set (input := trim_space (drop_str (S space) (trim_space value))).
  pose proof (parameters_loop_ends (String.length input) input ∅ ltac:(unfold slen; lia)) as He.
  destruct (parameters_loop _ _ _) as [ps|e]; [|simpl; congruence]. simpl. by case_bool_decide.
Qed.

(** ** What is sent *)
Section sent.
Context {W : Type} (http : request → M W reply) (log : W → list request).
(** The world records every request. *)
Hypothesis http_logs : ∀ q w, log (http q w).2 = log w ++ [q].

(** At most [n] requests are made, and all of them satisfy [P]. *)
Definition sends (n : nat) (P : request → Prop) {A} (m : M W A) : Prop :=
  ∀ w, ∃ sent, log (m w).2 = log w ++ sent ∧ (length sent ≤ n)%nat ∧ Forall P sent.

Lemma sends_lift P {A} (m : result A) : sends 0 P (lift m).
Proof. intros w. exists []. by rewrite app_nil_r. Qed.
Lemma sends_ret P {A} (a : A) : sends 0 P (mret a).
Proof. apply (sends_lift P (Ok a)). Qed.
Lemma sends_wrap n P {A} f (m : M W A) : sends n P m → sends n P (wrapM f m).
Proof. intros Hm w. specialize (Hm w). unfold wrapM. by destruct (m w). Qed.
Lemma sends_more n n' P {A} (m : M W A) : (n ≤ n')%nat → sends n P m → sends n' P m.
Proof. intros Hn Hm w. destruct (Hm w) as (s & ? & ? & ?). exists s. split_and!; [done|lia|done]. Qed.
Lemma sends_bind n n' P {A B} (m : M W A) (f : A → M W B) :
  sends n P m → (∀ a w w', m w = (Ok a, w') → sends n' P (f a)) → sends (n + n') P (m ≫= f).
Proof.
  intros Hm Hf w. unfold mbind, M_bind. destruct (Hm w) as (s & Hs & Hl & HP). destruct (m w) as [[a|e] w1] eqn:E; cbn [snd] in Hs.
  - destruct (Hf a _ _ E w1) as (s' & -> & ? & ?). exists (s ++ s'). rewrite Hs, (assoc_L (++)), length_app.
    split_and!; [done|lia|by apply Forall_app].
  - exists s. split_and!; [done|lia|done].
Qed.
Lemma sends_http (P : request → Prop) q : P q → sends 1 P (http q).
Proof. intros HP w. exists [q]. rewrite http_logs. split_and!; [done..|by constructor]. Qed.
Lemma sends_guard n P {A B} (r : result A) (f : A → M W B) : (∀ a, r = Ok a → sends n P (f a)) → sends n P (lift r ≫= f).
Proof. intros Hf. apply (sends_bind 0 n); [apply sends_lift|]. intros a w w' [= Hr _]. by apply Hf. Qed.

Context (url_parse : string → result URL) (decode_token : bytes → result (string * string)) (c : RegistryClient).

(** A request of a lookup: over https when the registry's address is; a
    bearer token only ever goes back to the registry itself, and the
    configured credential only as basic authentication. *)
Definition proper_request (q : request) : Prop :=
  (u_Scheme (baseURL c) = "https" → u_Scheme (rq_url q) = "https")
  ∧ match rq_auth q with
    | Bearer _ => u_Host (rq_url q) = u_Host (baseURL c) ∧ u_Scheme (rq_url q) = u_Scheme (baseURL c)
    | Basic user password => user = Username (credential c) ∧ password = Password (credential c)
    | NoAuth => True
    end.

Lemma proper_auth q : rq_auth q = basic_or_none (credential c) →
  (u_Scheme (baseURL c) = "https" → u_Scheme (rq_url q) = "https") → proper_request q.
Proof. intros Ha Hs. split; [done|]. rewrite Ha. unfold basic_or_none. by case_bool_decide. Qed.

Lemma digest_request_proper path token : proper_request (digestRequest c (set_path path (baseURL c)) token).
Proof.
  unfold digestRequest. case_bool_decide; [by apply proper_auth|]. by split.
Qed.

Lemma token_request_proper challenge : sends 1 proper_request (exchangeBearerToken http url_parse decode_token c challenge).
Proof.
  unfold exchangeBearerToken. do 4 (apply sends_guard; intros ? ?).
  apply (sends_bind 1 0).
  - apply sends_wrap, sends_http, proper_auth; [done|]. intros Hb. cbn.
    match goal with H : fail_if _ (error_new "registry Bearer realm cannot downgrade HTTPS") = _ |- _ =>
      apply fail_if_ok in H; rewrite (bool_decide_true _ Hb) in H; by apply negb_false_iff, bool_decide_eq_true in H end.
  - intros resp _ _ _. apply sends_guard. intros _ _. apply sends_guard. intros [token access] _.
    apply sends_guard. intros _ _. apply sends_ret.
Qed.

Lemma digest_sends repository tag : sends 3 proper_request (Digest http url_parse decode_token c repository tag).
Proof.
  unfold Digest. apply sends_guard. intros segments _. cbv zeta. apply (sends_bind 1 2).
  { apply sends_wrap, sends_http, digest_request_proper. }
  intros resp _ _ _. apply (sends_bind 2 0); [|intros; apply sends_lift]. destruct (_ =? _); [|by apply (sends_more 0); [lia|apply sends_ret]].
  apply (sends_bind 1 1); [apply sends_wrap, token_request_proper|]. intros token _ _ _. apply sends_wrap, sends_http, digest_request_proper.
Qed.
End sent.

Lemma response_digest_shape resp d : response_digest resp = Ok d →
  ∃ hash bs, d = "sha256:" +:+ hash ∧ slen hash = 64 ∧ hex_decode hash = Some bs.
Proof.
  unfold response_digest. cbv zeta. intros H. inv_ok H.
  apply orb_false_iff in Hok0 as [Hp%negb_false_iff Hl%negb_false_iff%Z.eqb_eq].
  eexists _, _. split_and!; [|exact Hl|eassumption]. unfold trim_prefix. rewrite Hp. apply has_prefix_spec in Hp as [t ->]. by rewrite drop_str_app.
Qed.

(** Looking a digest up at a registry with an https address sends at most
    three requests, all of them over https; a bearer token only goes back to
    the registry's own host, the configured credential is only sent as basic
    authentication, and a digest that is returned is [sha256:] and the
    hexadecimal digits of 32 bytes. *)
Lemma registry_lookup_safe {W} (http : request → M W reply) (log : W → list request) url_parse decode_token c repository tag w r w' :
  (∀ q w, log (http q w).2 = log w ++ [q]) →
  Digest http url_parse decode_token c repository tag w = (r, w') →
  (∃ sent, log w' = log w ++ sent ∧ (length sent ≤ 3)%nat ∧ Forall (proper_request c) sent)
  ∧ (∀ d, r = Ok d → ∃ hash bs, d = "sha256:" +:+ hash ∧ hex_decode hash = Some bs ∧ length bs = 32%nat).
Proof.
  intros Hlog Hrun. split.
  - pose proof (digest_sends http log Hlog url_parse decode_token c repository tag w) as Hs. by rewrite Hrun in Hs.
  - intros d ->. unfold Digest in Hrun. inv_run Hrun. apply response_digest_shape in Hrun as (hash & bs & -> & Hl & Hd).
    exists hash, bs. split_and!; [done..|]. apply hex_decode_length in Hd. unfold blen in Hd. lia.
Qed.

(** A registry that asks for a token first. *)
Definition zero_digest : string := "sha256:" +:+ of_chars (replicate 64 "0"%char).
Definition demo_registry (q : request) : M (list request) reply := λ sent,
  (Ok match rq_auth q with
      | Bearer "t" => {| rp_status := 200; rp_challenge := ""; rp_digest := zero_digest; rp_body := [] |}
      | _ => if bool_decide (rq_method q = "GET") then {| rp_status := 200; rp_challenge := ""; rp_digest := ""; rp_body := [] |}
             else {| rp_status := 401; rp_challenge := "Bearer realm=https://auth, service=r"; rp_digest := ""; rp_body := [] |}
      end, sent ++ [q]).
Definition demo_url (s : string) : URL :=
  {| u_Scheme := "https"; u_Host := s; u_Hostname := s; u_User := false; u_Path := ""; u_Query := ∅; u_Fragment := "" |}.
Definition demo_client : RegistryClient :=
  {| baseURL := demo_url "r"; credential := {| Username := "bob"; Password := "p" |}; timeout := 1 |}.
Definition demo_lookup : result string * list request :=
  Digest demo_registry (λ s, Ok (demo_url s)) (λ _, Ok ("t", "")) demo_client "team/app" "v1" [].

