(* ===== verification/Sha256.v ===== *)
(** * SHA-256 (package crypto/sha256)

    FIPS 180-4 on 32-bit words kept as integers: the digests of artifacts and
    of approved scripts are computed, not assumed. *)
From S2P Require Import Prelude GoIO GoString Encoding.

Definition w32 (z : Z) : Z := z `mod` 4294967296.
Definition not32 (x : Z) : Z := Z.lxor x 4294967295.
Definition rotr (n x : Z) : Z := Z.lor (Z.shiftr x n) (w32 (Z.shiftl x (32 - n))).

Definition Ch x y z := Z.lxor (Z.land x y) (Z.land (not32 x) z).
Definition Maj x y z := Z.lxor (Z.lxor (Z.land x y) (Z.land x z)) (Z.land y z).
Definition Sigma0 x := Z.lxor (Z.lxor (rotr 2 x) (rotr 13 x)) (rotr 22 x).
Definition Sigma1 x := Z.lxor (Z.lxor (rotr 6 x) (rotr 11 x)) (rotr 25 x).
Definition sigma0 x := Z.lxor (Z.lxor (rotr 7 x) (rotr 18 x)) (Z.shiftr x 3).
Definition sigma1 x := Z.lxor (Z.lxor (rotr 17 x) (rotr 19 x)) (Z.shiftr x 10).

(** The constants are the first 32 bits of the fractional parts of the cube
    roots of the first 64 primes, those of the initial state of the square roots
    of the first eight. *)
Definition is_prime (n : nat) : bool :=
  (2 <=? n)%nat && forallb (λ d, negb (n mod d =? 0)%nat) (seq 2 (n - 2)).
Definition primes (below : nat) : list Z := Z.of_nat <$> base.filter (λ n, is_prime n = true) (seq 0 below).
Fixpoint cube_root (bits : nat) (root n : Z) : Z :=
  match bits with
  | O => root
  | S bits => let next := root + Z.shiftl 1 (Z.of_nat bits) in cube_root bits (if next * next * next <=? n then next else root) n
  end.
Definition round_constants : list Z :=
  Eval vm_compute in (λ p, w32 (cube_root 35 0 (Z.shiftl p 96))) <$> primes 312.
Definition root_constants : list Z := Eval vm_compute in (λ p, w32 (Z.sqrt (Z.shiftl p 64))) <$> primes 20.

Record hash_state := HState { ha : Z; hb : Z; hc : Z; hd : Z; he : Z; hf : Z; hg : Z; hh : Z }.
Definition initial_hash : hash_state :=
  let c i := default 0 (root_constants !! i) in
  HState (c 0%nat) (c 1%nat) (c 2%nat) (c 3%nat) (c 4%nat) (c 5%nat) (c 6%nat) (c 7%nat).

(** Big-endian numbers. *)
Definition be_value (l : bytes) : Z := foldl (λ acc c, acc * 256 + byte c) 0 l.
Fixpoint be_encode (n : nat) (z : Z) : bytes :=
  match n with O => [] | S n => be_encode n (z / 256) ++ [zbyte (z `mod` 256)] end.

Fixpoint words (n : nat) (l : bytes) : list Z :=
  match n with O => [] | S n => be_value (take 4 l) :: words n (drop 4 l) end.

(** The message schedule, last word first. *)
Fixpoint schedule (n : nat) (rev_w : list Z) : list Z :=
  match n with
  | O => rev_w
  | S n =>
      let at_ i := default 0 (rev_w !! i) in
      schedule n (w32 (sigma1 (at_ 1%nat) + at_ 6%nat + sigma0 (at_ 14%nat) + at_ 15%nat) :: rev_w)
  end.

Definition hash_round (s : hash_state) (kw : Z * Z) : hash_state :=
  let t1 := w32 (hh s + Sigma1 (he s) + Ch (he s) (hf s) (hg s) + kw.1 + kw.2) in
  let t2 := w32 (Sigma0 (ha s) + Maj (ha s) (hb s) (hc s)) in
  HState (w32 (t1 + t2)) (ha s) (hb s) (hc s) (w32 (hd s + t1)) (he s) (hf s) (hg s).

Definition compress (s : hash_state) (block : bytes) : hash_state :=
  let w := reverse (schedule 48 (reverse (words 16 block))) in
  let r := foldl hash_round s (zip round_constants w) in
  HState (w32 (ha s + ha r)) (w32 (hb s + hb r)) (w32 (hc s + hc r)) (w32 (hd s + hd r))
         (w32 (he s + he r)) (w32 (hf s + hf r)) (w32 (hg s + hg r)) (w32 (hh s + hh r)).

Fixpoint blocks (n : nat) (l : bytes) (s : hash_state) : hash_state :=
  match n with O => s | S n => blocks n (drop 64 l) (compress s (take 64 l)) end.

(** One, zeros up to eight bytes short of a block, the length in bits. *)
Definition padded (l : bytes) : bytes :=
  let zeros := Z.to_nat ((55 - blen l) `mod` 64) in
  l ++ [zbyte 128] ++ replicate zeros (zbyte 0) ++ be_encode 8 (8 * blen l).

(** [sha256.Sum256]. *)
Definition sha256 (l : bytes) : bytes :=
  let p := padded l in
  let s := blocks (length p / 64) p initial_hash in
  concat (be_encode 4 <$> [ha s; hb s; hc s; hd s; he s; hf s; hg s; hh s]).

(** [hex.EncodeToString(sum[:])]. *)
Definition sha256_hex (l : bytes) : string := hex_encode (sha256 l).

Lemma sha256_empty : sha256_hex [] = "e3b0c44298fc1c149afbf4c8996fb92427ae41e4649b934ca495991b7852b855".
Proof. by vm_compute. Qed.
Lemma sha256_abc : sha256_hex (to_bytes "abc") = "ba7816bf8f01cfea414140de5dae2223b00361a396177a9cb410ff61f20015ad".
Proof. by vm_compute. Qed.
(** Two blocks. *)
Lemma sha256_two_blocks :
  sha256_hex (to_bytes "abcdbcdecdefdefgefghfghighijhijkijkljklmklmnlmnomnopnopq")
  = "248d6a61d20638b8e5c026930c3e6039a33ce45964ff2167f6ecedd419db06c1".
Proof. by vm_compute. Qed.

Lemma length_be_encode n z : length (be_encode n z) = n.
Proof. revert z. induction n as [|n IH]; intros z; [done|]. simpl. rewrite length_app, IH. simpl. lia. Qed.

(** The padded message is a whole number of blocks. *)
Lemma length_padded l : (length (padded l) `mod` 64 = 0)%nat.
Proof.
  assert (Z.of_nat (length (padded l)) = blen l + (55 - blen l) `mod` 64 + 9) as Hl.
  { unfold padded, blen. rewrite !length_app, length_replicate, length_be_encode. simpl.
    pose proof (Z.mod_pos_bound (55 - Z.of_nat (length l)) 64). lia. }
  apply Nat2Z.inj. rewrite Nat2Z.inj_mod, Hl. Z.div_mod_to_equations. lia.
Qed.
Lemma length_sha256 l : length (sha256 l) = 32%nat.
Proof. unfold sha256. cbn [fmap list_fmap concat]. by rewrite !length_app, !length_be_encode. Qed.
