(* ===== verification/World.v ===== *)
(** * The world of a job (runner/internal/pipeline/pipeline.go)

    What [Processor.Process] acts on: the file system, the repository behind
    its interface, everything else outside the process, the log writers of the
    running step with the budget they share, the two redactors of a running
    script, and the state of the job.  The heartbeat goroutine is a small state
    machine; what it does between two of the worker's own calls is an input,
    one list of signals per synchronisation point.  Every call to the
    repository and every command is recorded in a trace. *)
From S2P Require Import Prelude GoIO GoString OS Model Command Manifest Runtime Redact Logstream.

(** ** The repository *)
(* src: runner/internal/store/store.go:26-36 Repository *)
Class Repository (R : Type) := {
  LoadSettings : M R Settings;
  RecoverStaleJobs : Z → M R Z;
  ClaimJob : Z → M R Job;
  Heartbeat : string → M R unit;
  BeginStep : string → JobStatus → M R Step;
  FinishStep : Step → bool → StepResult → M R unit;
  AppendLog : log_entry → M R unit;
  RecordImage : string → ImageRecord → M R unit;
  FinishJob : string → JobStatus → string → M R unit
}.

(** A command as it was started, with the file system it found. *)
Record run_info := {
  ri_Path : string; ri_Args : list string; ri_Dir : string; ri_Env : gmap string string;
  ri_Stdin : bytes; ri_Timeout : Z; ri_Isolated : bool; ri_os : os
}.

Inductive event :=
  | EvHeartbeat (ok : bool)
  | EvBegin (status : JobStatus) (step : option Step)
  | EvFinishStep (step : Step) (success : bool) (r : StepResult) (ok : bool)
  | EvLog (e : log_entry) (ok : bool)
  | EvImage (i : ImageRecord) (ok : bool)
  | EvFinishJob (id : string) (status : JobStatus) (failure : string) (ok : bool)
  | EvRun (i : run_info).

(** ** The heartbeat goroutine *)
Inductive heartbeat_state :=
  | HbIdle                  (* not started *)
  | HbLoop                  (* waiting for a tick or for the end of the context *)
  | HbReturned (e : goerr)  (* returned, its error not yet in the channel *)
  | HbSent (e : goerr).     (* its error is in the channel *)

(** What happens meanwhile: the ticker fires, the goroutine notices the end of
    its context or sends its error, the Runner is told to stop. *)
Inductive signal := Tick | Done | Sent | Shutdown.

(* src: runner/internal/pipeline/pipeline.go:70-82 processState *)
Record processState := {
  ps_job : Job; ps_settings : Settings; ps_workspace : string; ps_transient : string; ps_extracted : string;
  ps_artifact : string; ps_release : Release; ps_images : list ResolvedImage; ps_destinations : list string;
  ps_runtime : option RuntimeConfig
}.

Record world (R E : Type) := World {
  w_os : os;
  w_repo : R;
  w_env : E;
  w_trace : list event;
  w_heartbeat : heartbeat_state;
  w_stopped : bool;
  w_cancelled : bool;
  w_signals : list (list signal);
  w_state : processState;
  w_budget : Budget;
  w_out : LogWriter;
  w_err : LogWriter;
  w_redout : exactSecretRedactor unit;
  w_rederr : exactSecretRedactor unit
}.
Arguments World {R E}. Arguments w_os {R E}. Arguments w_repo {R E}. Arguments w_env {R E}. Arguments w_trace {R E}.
Arguments w_heartbeat {R E}. Arguments w_stopped {R E}. Arguments w_cancelled {R E}. Arguments w_signals {R E}. Arguments w_state {R E}.
Arguments w_budget {R E}. Arguments w_out {R E}. Arguments w_err {R E}. Arguments w_redout {R E}. Arguments w_rederr {R E}.

Section world.
Context {R E : Type} `{Repository R}.
Implicit Types w : world R E.

Definition set_os (o : os) (w : world R E) : world R E := World o (w_repo w) (w_env w) (w_trace w) (w_heartbeat w) (w_stopped w) (w_cancelled w) (w_signals w) (w_state w) (w_budget w) (w_out w) (w_err w) (w_redout w) (w_rederr w).
Definition set_repo (r : R) (w : world R E) : world R E := World (w_os w) r (w_env w) (w_trace w) (w_heartbeat w) (w_stopped w) (w_cancelled w) (w_signals w) (w_state w) (w_budget w) (w_out w) (w_err w) (w_redout w) (w_rederr w).
Definition set_env (e : E) (w : world R E) : world R E := World (w_os w) (w_repo w) e (w_trace w) (w_heartbeat w) (w_stopped w) (w_cancelled w) (w_signals w) (w_state w) (w_budget w) (w_out w) (w_err w) (w_redout w) (w_rederr w).
Definition record_event (e : event) (w : world R E) : world R E := World (w_os w) (w_repo w) (w_env w) (w_trace w ++ [e]) (w_heartbeat w) (w_stopped w) (w_cancelled w) (w_signals w) (w_state w) (w_budget w) (w_out w) (w_err w) (w_redout w) (w_rederr w).
Definition set_heartbeat (h : heartbeat_state) (w : world R E) : world R E := World (w_os w) (w_repo w) (w_env w) (w_trace w) h (w_stopped w) (w_cancelled w) (w_signals w) (w_state w) (w_budget w) (w_out w) (w_err w) (w_redout w) (w_rederr w).
Definition cancel (w : world R E) : world R E := World (w_os w) (w_repo w) (w_env w) (w_trace w) (w_heartbeat w) (w_stopped w) true (w_signals w) (w_state w) (w_budget w) (w_out w) (w_err w) (w_redout w) (w_rederr w).
Definition stop (w : world R E) : world R E := World (w_os w) (w_repo w) (w_env w) (w_trace w) (w_heartbeat w) true true (w_signals w) (w_state w) (w_budget w) (w_out w) (w_err w) (w_redout w) (w_rederr w).
(** [context.WithCancel(ctx)]. *)
Definition fresh_context (w : world R E) : world R E := World (w_os w) (w_repo w) (w_env w) (w_trace w) (w_heartbeat w) (w_stopped w) (w_stopped w) (w_signals w) (w_state w) (w_budget w) (w_out w) (w_err w) (w_redout w) (w_rederr w).
Definition set_signals (l : list (list signal)) (w : world R E) : world R E := World (w_os w) (w_repo w) (w_env w) (w_trace w) (w_heartbeat w) (w_stopped w) (w_cancelled w) l (w_state w) (w_budget w) (w_out w) (w_err w) (w_redout w) (w_rederr w).
Definition set_state (s : processState) (w : world R E) : world R E := World (w_os w) (w_repo w) (w_env w) (w_trace w) (w_heartbeat w) (w_stopped w) (w_cancelled w) (w_signals w) s (w_budget w) (w_out w) (w_err w) (w_redout w) (w_rederr w).
Definition set_logs (b : Budget) (out err : LogWriter) (w : world R E) : world R E := World (w_os w) (w_repo w) (w_env w) (w_trace w) (w_heartbeat w) (w_stopped w) (w_cancelled w) (w_signals w) (w_state w) b out err (w_redout w) (w_rederr w).
Definition set_redactors (out err : exactSecretRedactor unit) (w : world R E) : world R E := World (w_os w) (w_repo w) (w_env w) (w_trace w) (w_heartbeat w) (w_stopped w) (w_cancelled w) (w_signals w) (w_state w) (w_budget w) (w_out w) (w_err w) out err.

#[export] Instance world_has_os : HasOS (world R E) := {| get_os := w_os; put_os := set_os |}.

(** A call that only concerns what is outside. *)
Definition on_env {A} (m : M E A) : M (world R E) A := λ w, let '(r, e) := m (w_env w) in (r, set_env e w).
Definition the_state : M (world R E) processState := gets w_state.
Definition update_state (f : processState → processState) : M (world R E) unit := modify (λ w, set_state (f (w_state w)) w).

(** ** What happens between two calls *)

(** One round of the goroutine's loop when the ticker has fired. *)
(* src: runner/internal/pipeline/pipeline.go:645-659 (Processor).heartbeat *)
Definition heartbeat_tick (w : world R E) : world R E :=
  let '(r, s) := if w_cancelled w then (Err (Sentinel Canceled), w_repo w) else Heartbeat (j_ID (ps_job (w_state w))) (w_repo w) in
  let w := record_event (EvHeartbeat (is_ok r)) (set_repo s w) in
  match r with
  | Ok _ => w
  | Err e => set_heartbeat (HbReturned (wrap "job heartbeat: %w" e)) (cancel w)
  end.

(* src: runner/internal/pipeline/pipeline.go:127-130 (Processor).Process *)
Definition on_signal (w : world R E) (s : signal) : world R E :=
  match s, w_heartbeat w with
  | Shutdown, _ => stop w
  | Tick, HbLoop => heartbeat_tick w
  | Done, HbLoop => if w_cancelled w then set_heartbeat (HbReturned (Sentinel Canceled)) w else w
  | Sent, HbReturned e => set_heartbeat (HbSent e) w
  | _, _ => w
  end.

(** A synchronisation point: the signals that arrive before it are handled. *)
Definition pulse : M (world R E) unit := λ w,
  match w_signals w with
  | [] => (Ok (), w)
  | l :: rest => (Ok (), foldl on_signal (set_signals rest w) l)
  end.

(** ** Calls to the repository

    [bound]: the call gets the job's context and fails at once when that is
    cancelled; otherwise it gets a context of its own. *)
Definition repo_call {A} (bound : bool) (m : M R A) (ev : result A → event) : M (world R E) A :=
  let call : M (world R E) A := λ w,
    let '(r, s) := if bound && w_cancelled w then (Err (Sentinel Canceled), w_repo w) else m (w_repo w) in
    (r, record_event (ev r) (set_repo s w)) in
  _ ← pulse; call.

Definition append_log (e : log_entry) : M (world R E) unit :=
  repo_call true (AppendLog e) (λ r, EvLog e (is_ok r)).
Definition record_image (jobID : string) (i : ImageRecord) : M (world R E) unit :=
  repo_call true (RecordImage jobID i) (λ r, EvImage i (is_ok r)).
Definition begin_step (jobID : string) (status : JobStatus) : M (world R E) Step :=
  repo_call true (BeginStep jobID status) (λ r, EvBegin status (match r with Ok s => Some s | Err _ => None end)).
Definition finish_step (step : Step) (success : bool) (r : StepResult) : M (world R E) unit :=
  repo_call false (FinishStep step success r) (λ o, EvFinishStep step success r (is_ok o)).
Definition finish_job (jobID : string) (status : JobStatus) (failure : string) : M (world R E) unit :=
  repo_call false (FinishJob jobID status failure) (λ r, EvFinishJob jobID status failure (is_ok r)).

(** ** Writers *)
#[export] Instance world_sink : Sink (world R E) := λ w e,
  let '(r, w) := append_log e w in (err_of r, w).

(** The log writer of the running step: [true] is its standard output. *)
Definition step_writer (out : bool) : writer (world R E) := λ payload w,
  let '(ret, (lw, b, w)) := Logstream.Write (if out then w_out w else w_err w) (w_budget w) w payload in
  (ret, if out then set_logs b lw (w_err w) w else set_logs b (w_out w) lw w).
Definition Output_of_step : Output (world R E) := {| o_Stdout := Some (step_writer true); o_Stderr := Some (step_writer false) |}.

(** A redactor whose destination is the step's log writer. *)
Definition attach (r : exactSecretRedactor unit) (w : world R E) : exactSecretRedactor (world R E) :=
  {| destination := Some w; secret := secret r; pending := pending r; rerr := rerr r |}.
Definition detach (r : exactSecretRedactor (world R E)) : exactSecretRedactor unit :=
  {| destination := Some (); secret := secret r; pending := pending r; rerr := rerr r |}.
Definition put_redactor (out : bool) (w0 : world R E) (r : exactSecretRedactor (world R E)) : world R E :=
  let w := default w0 (destination r) in
  if out then set_redactors (detach r) (w_rederr w) w else set_redactors (w_redout w) (detach r) w.
Definition redactor_of (out : bool) (w : world R E) : exactSecretRedactor unit := if out then w_redout w else w_rederr w.
Definition destination_writer (out : bool) : Writer (world R E) := λ w payload, step_writer out payload w.

Definition redacting_writer (out : bool) : writer (world R E) := λ payload w,
  let '(ret, r) := @Redact.Write (world R E) (destination_writer out) (attach (redactor_of out w) w) payload in
  (ret, put_redactor out w r).
Definition flush_redactor (out : bool) : M (world R E) (option goerr) := λ w,
  let '(err, r) := @Redact.Flush (world R E) (destination_writer out) (attach (redactor_of out w) w) in
  (Ok err, put_redactor out w r).

(** [fmt.Fprintf(output.Stdout, ...)]: the result is not used. *)
Definition print_line (text : string) : M (world R E) unit := λ w,
  (Ok (), (step_writer true (to_bytes text ++ ["010"%char]) w).2).

(** ** Commands *)
Definition execute (exec : CommandExecutor (world R E)) : CommandExecutor (world R E) := λ spec w,
  exec spec (record_event (EvRun {| ri_Path := Path spec; ri_Args := Args spec; ri_Dir := Dir spec; ri_Env := Env spec;
                                    ri_Stdin := Stdin spec; ri_Timeout := Timeout spec; ri_Isolated := Isolated spec;
                                    ri_os := w_os w |}) w).
End world.
