(* ===== verification/Pipeline.v ===== *)
(** * The release pipeline (runner/internal/pipeline/pipeline.go)

    [Process] takes a claimed job through its steps: a fresh workspace, a
    credential directory below the tmpfs root, the steps of a deployment or of
    a manual rollback, each recorded in the repository, and the final status.
    The container runtime, the registry client, the health checker, the
    extraction and the manifest are the definitions of their files, run in the
    world of World.v. *)
From S2P Require Import Prelude GoIO GoString GoPath OS Model Archive Secrets Command Wire Socket.
From S2P Require Import Files Encoding Sha256 Crypto Manifest Health Runtime Registry Redact Logstream World.

(** ** Checks on the job *)
Definition hex_character (c : ascii) : bool := byte_in 97 102 c || byte_in 65 70 c || digit c.
(* src: runner/internal/pipeline/pipeline.go:31-31 sha256Pattern *)
Definition sha256Pattern : regex := times 64 (Class hex_character).
Definition literal (s : string) : regex := foldr (λ c r, Cat (Class (is_char c)) r) Eps (chars s).
(* src: runner/internal/pipeline/pipeline.go:32-32 imageDigestPattern *)
Definition imageDigestPattern : regex := Cat (literal "sha256:") sha256Pattern.

(* src: runner/internal/pipeline/pipeline.go:805-812 hasPhase *)
Fixpoint hasPhase (scripts : list Script) (phase : string) : bool :=
  match scripts with
  | [] => false
  | script :: scripts => bool_decide (s_Phase script = phase) || hasPhase scripts phase
  end.

(* src: runner/internal/pipeline/pipeline.go:198-205 validTargetCredentialType *)
Definition validTargetCredentialType (value : string) : bool :=
  bool_decide (value ∈ ["SSH_PRIVATE_KEY"; "KUBECONFIG"; "TOKEN"; "OPAQUE_FILE"]).

Definition is_empty (s : string) : bool := bool_decide (s = "").

(* src: runner/internal/pipeline/pipeline.go:168-196 validateOperation *)
Definition validateOperation (job : Job) : result unit :=
  _ ← fail_if (p_AutoRollback (j_Profile job))
        (error_new "automatic rollback is disabled in v0.1; use an explicit digest-verified manual rollback");
  let credential := j_TargetCredential job in
  _ ← (if is_empty (tc_ID credential) then
         fail_if (negb (is_empty (tc_Type credential)) || negb (tc_Version credential =? 0)
                  || negb (is_empty (tc_Ciphertext credential)) || negb (is_empty (tc_AAD credential)))
           (error_new "target credential snapshot is incomplete")
       else fail_if ((tc_Version credential <=? 0) || is_empty (tc_Ciphertext credential) || is_empty (tc_AAD credential)
                     || negb (validTargetCredentialType (tc_Type credential)))
              (error_new "target credential snapshot is invalid"));
  requiredPhase ←
    (if bool_decide (j_Operation job = OperationDeploy) then Ok "DEPLOY"
     else if bool_decide (j_Operation job = OperationRollback) then
       _ ← fail_if (is_empty (j_RollbackSourceReleaseID job) || is_empty (j_RollbackSourceJobID job)
                    || bool_decide (j_RollbackImages job = []))
             (error_new "manual rollback requires an immutable source DEPLOY job with verified image records");
       Ok "ROLLBACK"
     else Err (Errorf "unsupported job operation %q" [FStr (j_Operation job)]));
  fail_if (negb (hasPhase (p_Scripts (j_Profile job)) requiredPhase))
    (Errorf "operation %s requires an approved %s script" [FStr (j_Operation job); FStr requiredPhase]).

(* src: runner/internal/pipeline/pipeline.go:783-803 validateApprovedScript *)
Definition validateApprovedScript (script : Script) : result unit :=
  _ ← fail_if (is_empty (s_ID script) || (s_Version script <=? 0) || is_nil (s_ApprovedAt script))
        (error_new "script is not an approved immutable version");
  _ ← fail_if (negb (is_abs (s_InterpreterPath script))) (error_new "approved script interpreter must be absolute");
  _ ← fail_if (negb (match_string sha256Pattern (s_SHA256 script))) (error_new "approved script SHA256 is invalid");
  _ ← fail_if (negb (equal_fold (sha256_hex (s_Content script)) (s_SHA256 script)))
        (error_new "approved script content does not match its SHA256");
  result_iter (λ argument, fail_if (contains_byte NUL argument) (error_new "approved script argument contains NUL"))
    (s_Args script).

(* src: runner/internal/pipeline/pipeline.go:776-781 shouldCleanup *)
Definition shouldCleanup (profile : Profile) (success : bool) : bool :=
  if negb (p_CleanupWorkspace profile) then false else success || negb (p_KeepFailedWorkspace profile).

Definition name_rune (r : Z) : bool :=
  (97 <=? r) && (r <=? 122) || (65 <=? r) && (r <=? 90) || (48 <=? r) && (r <=? 57) || (r =? 45) || (r =? 95).
(* src: runner/internal/pipeline/pipeline.go:814-828 sanitize *)
Fixpoint sanitize_loop (rs : list (Z * list ascii)) (builder : list ascii) : list ascii :=
  match rs with
  | [] => builder
  | (r, _) :: rs =>
      let builder := if name_rune r then builder ++ encode_rune r else builder in
      if (40 <=? length builder)%nat then builder else sanitize_loop rs builder
  end.
Definition sanitize (value : string) : string :=
  match sanitize_loop (runes value) [] with
  | [] => "release"
  | builder => of_chars builder
  end.

(** A cut at a byte, not at a character. *)
(* src: runner/internal/pipeline/pipeline.go:830-835 truncate *)
Definition truncate (value : string) (maximum : Z) : string :=
  if slen value <=? maximum then value else take_str (Z.to_nat maximum) value.

(** ** Workspaces *)
(* src: runner/internal/pipeline/pipeline.go:726-753 createWorkspace *)
Definition createWorkspace (randoms : list string) (root jobID : string) : M os string :=
  _ ← lift (fail_if (negb (is_abs root)) (error_new "workspace_root must be absolute"));
  _ ← mkdir_all root 488;
  info ← lstat root;
  _ ← lift (fail_if (negb (is_dir info) || is_symlink info) (error_new "workspace_root must be a real directory"));
  workspace ← mkdir_temp root ("job-" +:+ sanitize jobID +:+ "-") randoms;
  changed ← try (chmod workspace 504 true true);
  match changed with
  | Err e => _ ← try (remove workspace); throw e
  | Ok _ => mret workspace
  end.

(* src: runner/internal/pipeline/pipeline.go:755-761 cleanupWorkspace *)
Definition cleanupWorkspace (root workspace : string) : M os unit :=
  let refusing := error_new "refusing to remove workspace outside configured root" in
  relative ← lift (map_err (λ _, refusing) (rel root workspace));
  _ ← lift (fail_if (bool_decide (relative = ".") || contains_byte slash relative || negb (has_prefix relative "job-")) refusing);
  remove_all workspace.

(* src: runner/internal/pipeline/pipeline.go:763-774 cleanupRuntimeCredentials *)
Definition cleanupRuntimeCredentials (workspace : string) : M os unit :=
  result ← join_loop (λ name, wrapM (Wrapf "remove %s: %w" [FStr name]) (remove_all (path_join [workspace; name])))
             [".containerd-hosts"; ".registry-certs"; ".runtime-auth"] None;
  match result with
  | Some e => throw (wrap "remove runtime credentials: %w" e)
  | None => mret ()
  end.

(* src: runner/internal/pipeline/pipeline.go:696-724 safeArtifact *)
Definition safeArtifact (root relative : string) : M os string :=
  _ ← lift (fail_if (negb (is_abs root) || is_empty relative || is_abs relative || contains_byte "\"%char relative)
              (error_new "artifact_root must be absolute and artifact_path must be relative"));
  rootReal ← eval_symlinks root;
  let path := path_join [rootReal; clean relative] in
  let escape := error_new "artifact path escapes artifact root" in
  r ← lift (map_err (λ _, escape) (rel rootReal path));
  _ ← lift (fail_if (escapes r) escape);
  real ← eval_symlinks path;
  _ ← lift (fail_if (negb (bool_decide (real = path))) (error_new "artifact symlinks are rejected"));
  info ← lstat real;
  _ ← lift (fail_if (negb (is_regular info)) (error_new "artifact is not a regular file"));
  mret real.

(* src: runner/internal/pipeline/pipeline.go:555-582 writeTargetCredential *)
Definition writeTargetCredential (path : string) (plaintext : bytes) : M os unit :=
  file ← wrapM (wrap "create target credential handoff: %w") (open_excl path 416);
  written ← try (if bool_decide (plaintext = []) then mret () else write_open file plaintext);
  match written with
  | Err writeErr =>
      _ ← try (close_open file); _ ← try (remove path);
      throw (wrap "write target credential handoff: %w" writeErr)
  | Ok _ =>
      chmodded ← try (fchmod file 416);
      closed ← try (close_open file);
      match errors_join [err_of chmodded; err_of closed] with
      | Some e => _ ← try (remove path); throw (wrap "finalize target credential handoff: %w" e)
      | None => mret ()
      end
  end.

(** ** The processor *)

(** What the code uses of other packages: [url.Parse], the PEM decoder,
    [strconv.Quote], HTTP for the registry and for health checks, TCP, the
    wait between two attempts, the order of a map, and the JSON, YAML, gzip
    and tar decoders. *)
Record Libraries (E : Type) := {
  url_parse : string → result URL;
  pem_certificates : string → bool;
  quote : string → string;
  http : request → M E reply;
  decode_token : bytes → result (string * string);
  new_request : string → string → result unit;
  http_do : HealthCheck → string → M E http_response;
  tcp_dial : string → M E (option goerr);
  wait : Z → M E unit;
  range : gmap string string → list (string * string);
  decode_credential : bytes → result Credential;
  decode_yaml : bytes → result Release;
  docker_manifest : bytes → result (list (list string));
  oci_index : bytes → result (list (gmap string string));
  gzip_reader : bytes → result (bytes * option goerr);
  tar_reader : bytes → option goerr → list tar_item
}.
Arguments url_parse {E}. Arguments pem_certificates {E}. Arguments quote {E}. Arguments http {E}.
Arguments decode_token {E}. Arguments new_request {E}. Arguments http_do {E}. Arguments tcp_dial {E}.
Arguments wait {E}. Arguments range {E}. Arguments decode_credential {E}. Arguments decode_yaml {E}.
Arguments docker_manifest {E}. Arguments oci_index {E}. Arguments gzip_reader {E}. Arguments tar_reader {E}.

(** The repository is the world's; the runtime factory is [Runtime.New]. *)
(* src: runner/internal/pipeline/pipeline.go:35-68 Processor *)
Record Processor (R E : Type) := {
  secretBox : SecretBox;
  executor : CommandExecutor (world R E);
  credentialRoot : string;
  libraries : Libraries E
}.
Arguments secretBox {R E}. Arguments executor {R E}. Arguments credentialRoot {R E}. Arguments libraries {R E}.

Definition maximumTargetCredentialBytes : Z := 1048576.

(** [%d] and [%03d] of an integer. *)
Definition decimal (z : Z) : string := pretty z.
Definition decimal3 (n : nat) : string :=
  let s := pretty n in of_chars (replicate (3 - String.length s) "0"%char) +:+ s.

Section processor.
Context {R E : Type} `{Repository R} `{ErrorText}.
Context (p : Processor R E).
Notation W := (world R E).
Notation lib := (libraries p).
Notation run_command := (execute (executor p)).
Notation output := (@Output_of_step R E _).

(** The value a step returns with its error; a thrown error comes with the
    empty result. *)
Definition outcome : Type := StepResult * option goerr.
Definition failed_step (e : goerr) : outcome := (StepResult_zero, Some e).
Definition metadata (l : list (string * json_value)) (code : Z) : StepResult :=
  {| sr_ExitCode := code; sr_Message := ""; sr_Metadata := Some (list_to_map l) |}.
Definition simple_step (m : M W StepResult) : M W outcome := r ← m; mret (r, None).
Definition step_return (r : result outcome) : outcome := match r with Ok o => o | Err e => failed_step e end.

(** A nil runtime client would be a nil-pointer panic. *)
Definition the_runtime : M W RuntimeConfig :=
  s ← the_state; lift (of_option (External "invalid memory address or nil pointer dereference") (ps_runtime s)).
(** [state.destinations[i]]. *)
Definition destination_at (i : nat) : M W string :=
  s ← the_state; lift (of_option (External "index out of range") (ps_destinations s !! i)).

(* src: runner/internal/pipeline/pipeline.go:599-625 (Processor).restrictedEnv *)
Definition restrictedEnv (s : processState) : gmap string string :=
  let job := ps_job s in
  let rollback := bool_decide (j_Operation job = OperationRollback) in
  list_to_map [
    ("PATH", CommandPath (ps_settings s)); ("HOME", ps_workspace s); ("LANG", "C.UTF-8"); ("LC_ALL", "C.UTF-8");
    ("RELEASEDOCK_JOB_ID", j_ID job); ("RELEASEDOCK_RELEASE_ID", j_ReleaseID job);
    ("RELEASEDOCK_APPLICATION", j_Application job); ("RELEASEDOCK_VERSION", j_Version job);
    ("RELEASEDOCK_ENVIRONMENT", j_Environment job);
    ("RELEASEDOCK_ARTIFACT", if rollback then "" else ps_artifact s);
    ("RELEASEDOCK_PACKAGE_DIRECTORY", if rollback then "" else ps_extracted s);
    ("RELEASEDOCK_IMAGES", join "," (ps_destinations s)); ("RELEASEDOCK_OPERATION", j_Operation job);
    ("RELEASEDOCK_ROLLBACK_SOURCE_RELEASE_ID", if rollback then j_RollbackSourceReleaseID job else "");
    ("RELEASEDOCK_ROLLBACK_SOURCE_JOB_ID", if rollback then j_RollbackSourceJobID job else "");
    ("RELEASEDOCK_CREDENTIAL_TYPE", ""); ("RELEASEDOCK_CREDENTIAL_FILE", "")].

(* src: runner/internal/pipeline/pipeline.go:595-597 (Processor).commandBase *)
Definition commandBase (s : processState) : Spec W :=
  {| Path := ""; Args := []; Dir := ""; Env := restrictedEnv s; Stdin := []; Timeout := p_CommandTimeout (j_Profile (ps_job s));
     Stdout := None; Stderr := None; Isolated := false |}.

(* src: runner/internal/pipeline/pipeline.go:627-643 (Processor).decryptCredential *)
Definition decryptCredential (config : RuntimeConfig) : result Credential :=
  if is_empty (CredentialCiphertext config) then Ok no_credential else
  plaintext ← map_err (wrap "decrypt registry credential: %w")
                (Decrypt (secretBox p) (CredentialCiphertext config) (CredentialAAD config));
  map_err (wrap "decode registry credential: %w") (decode_credential lib plaintext).

Definition registry_client (s : processState) (cred : Credential) : result RegistryClient :=
  let profile := j_Profile (ps_job s) in
  let config := p_Runtime profile in
  NewRegistryClient (url_parse lib) (pem_certificates lib) (RegistryURL config) (RegistryCAPEM config)
    (RegistryInsecure config) cred (p_CommandTimeout profile).
Definition registry_digest (c : RegistryClient) (repository tag : string) : M W string :=
  on_env (Digest (http lib) (url_parse lib) (decode_token lib) c repository tag).

(** [io.Copy] from a reader that stops when the job's context ends. *)
(* src: runner/internal/pipeline/pipeline.go:837-849 (contextReader).Read *)
Definition copy_artifact (input : location) (output : location) (limit : Z) : M W bytes :=
  _ ← pulse;
  cancelled ← gets w_cancelled;
  _ ← lift (fail_if cancelled (Sentinel Canceled));
  '(data, readErr) ← on_os (read_upto input (Z.to_nat limit));
  _ ← (if bool_decide (data = []) then mret () else on_os (write_open output data));
  _ ← lift (of_err readErr);
  mret data.

(** The path of the copy, its digest and its size; a copy that cannot be used
    is removed. *)
Definition staged : Type := (string * string * Z) * option goerr.
Definition not_staged (e : goerr) (written : Z) : staged := (("", "", written), Some e).
(* src: runner/internal/pipeline/pipeline.go:684-693 stageArtifact *)
Definition finish_staging (destination : string) (maximum written : Z) (copied : result bytes) (closed : result unit) : M W staged :=
  match copied, closed with
  | Ok data, Ok _ =>
      if maximum <? written then
        _ ← try (on_os (remove destination));
        mret (not_staged (Errorf "archive exceeds maximum %d bytes" [FInt maximum]) written)
      else mret ((destination, sha256_hex data, written), None)
  | _, _ =>
      _ ← try (on_os (remove destination));
      mret (not_staged (Joined (omap id [err_of copied; err_of closed])) written)
  end.

(* src: runner/internal/pipeline/pipeline.go:667-694 stageArtifact *)
Definition stageArtifact (root relative workspace : string) (maximum : Z) : M W staged :=
  source ← try (on_os (safeArtifact root relative));
  match source with Err e => mret (not_staged e 0) | Ok source =>
  input ← try (on_os (open_read source));
  match input with Err e => mret (not_staged e 0) | Ok input =>
  let destination := path_join [workspace; "release-package"] in
  opened ← try (on_os (open_excl destination 416));
  match opened with Err e => _ ← try (on_os (close_open input)); mret (not_staged e 0) | Ok output =>
  copied ← try (copy_artifact input output (i64 (maximum + 1)));
  written ← gets (λ w, match fs (w_os w) !! output with Some n => node_size n | None => 0 end);
  closed ← try (on_os (close_open output));
  result ← finish_staging destination maximum written copied closed;
  _ ← try (on_os (close_open input));
  mret result
  end end end.

(* src: runner/internal/pipeline/pipeline.go:349-360 (Processor).validateArtifact *)
Definition validateArtifact : M W outcome :=
  s ← the_state;
  let job := ps_job s in
  '((artifact, digest, size), err) ← stageArtifact (ArtifactRoot (ps_settings s)) (j_ArtifactPath job) (ps_workspace s)
                                      (MaxArchiveBytes (p_Extraction (j_Profile job)));
  let result := metadata [("sha256", JStr digest); ("bytes", JInt size)] 0 in
  match err with
  | Some e => mret (result, Some e)
  | None =>
      if negb (match_string sha256Pattern (j_ExpectedSHA256 job)) || negb (equal_fold digest (j_ExpectedSHA256 job))
      then mret (result, Some (Errorf "SHA256 mismatch: expected %s, got %s" [FStr (j_ExpectedSHA256 job); FStr digest]))
      else
        _ ← update_state (λ s, {| ps_job := ps_job s; ps_settings := ps_settings s; ps_workspace := ps_workspace s;
               ps_transient := ps_transient s; ps_extracted := ps_extracted s; ps_artifact := artifact;
               ps_release := ps_release s; ps_images := ps_images s; ps_destinations := ps_destinations s;
               ps_runtime := ps_runtime s |});
        mret (result, None)
  end.

(* src: runner/internal/pipeline/pipeline.go:362-366 (Processor).extractArtifact *)
Definition extractArtifact : M W outcome :=
  s ← the_state;
  '(result, err) ← on_os (Extract (gzip_reader lib) (tar_reader lib) (ps_artifact s) (ps_extracted s)
                            (p_Extraction (j_Profile (ps_job s))));
  mret (metadata [("entries", JInt (Z.of_nat (length (Archive.Files result)))); ("bytes", JInt (ExtractedBytes result))] 0, err).

(** [state.destinations = append(state.destinations, d)]. *)
Definition add_destination (d : string) : M W unit :=
  update_state (λ s, {| ps_job := ps_job s; ps_settings := ps_settings s; ps_workspace := ps_workspace s;
    ps_transient := ps_transient s; ps_extracted := ps_extracted s; ps_artifact := ps_artifact s;
    ps_release := ps_release s; ps_images := ps_images s; ps_destinations := ps_destinations s ++ [d];
    ps_runtime := ps_runtime s |}).
Definition set_release (release : Release) (images : list ResolvedImage) (client : RuntimeConfig) : M W unit :=
  update_state (λ s, {| ps_job := ps_job s; ps_settings := ps_settings s; ps_workspace := ps_workspace s;
    ps_transient := ps_transient s; ps_extracted := ps_extracted s; ps_artifact := ps_artifact s;
    ps_release := release; ps_images := images; ps_destinations := ps_destinations s; ps_runtime := Some client |}).

(** The record of an image; [filepath.Rel] returns the empty string with an error. *)
Definition image_record (s : processState) (image : ResolvedImage) (destination digest : string) : ImageRecord :=
  {| ir_FilePath := match rel (ps_extracted s) (FilePath image) with Ok relative => relative | Err _ => "" end;
     ir_SourceRef := SourceRef image; ir_DestinationRef := destination;
     ir_Repository := Manifest.Repository image; ir_Tag := Manifest.Tag image; ir_Digest := digest |}.

(* src: runner/internal/pipeline/pipeline.go:368-401 (Processor).inspectImages *)
Definition inspectImages : M W outcome := simple_step (
  s ← the_state;
  let job := ps_job s in
  release ← on_os (Manifest.Load (decode_yaml lib) (ps_extracted s) (j_ManifestPath job));
  _ ← lift (fail_if (negb (bool_decide (Application release = j_Application job)) || negb (bool_decide (Version release = j_Version job)))
              (Errorf "manifest identity %s/%s does not match job %s/%s"
                 [FStr (Application release); FStr (Version release); FStr (j_Application job); FStr (j_Version job)]));
  images ← on_os (ResolveImages (docker_manifest lib) (oci_index lib) (tar_reader lib) (ps_extracted s) release
                    (MaxImages (p_Extraction (j_Profile job))));
  client ← New (url_parse lib) (pem_certificates lib) (p_Runtime (j_Profile job));
  _ ← set_release release images client;
  _ ← iterM (λ image,
        destination ← lift (Destination client (Manifest.Repository image) (Manifest.Tag image));
        _ ← add_destination destination;
        record_image (j_ID job) (image_record s image destination "")) images;
  mret (metadata [("images", JInt (Z.of_nat (length images)))] 0)).

(* src: runner/internal/pipeline/pipeline.go:403-411 (Processor).loadImages *)
Definition loadImages : M W outcome := simple_step (
  s ← the_state;
  let base := commandBase s in
  _ ← iterM (λ image, client ← the_runtime; Runtime.Load run_command client (ps_workspace s) (FilePath image) base output) (ps_images s);
  mret StepResult_zero).

(* src: runner/internal/pipeline/pipeline.go:413-421 (Processor).tagImages *)
Definition tagImages : M W outcome := simple_step (
  s ← the_state;
  let base := commandBase s in
  _ ← iterM (λ '(i, image),
        client ← the_runtime; destination ← destination_at i;
        Runtime.Tag run_command client (ps_workspace s) (SourceRef image) destination base output)
        (imap pair (ps_images s));
  mret StepResult_zero).

(* src: runner/internal/pipeline/pipeline.go:423-458 (Processor).pushImages *)
Definition pushImages : M W outcome := simple_step (
  s ← the_state;
  let config := p_Runtime (j_Profile (ps_job s)) in
  credential ← lift (decryptCredential config);
  let base := commandBase s in
  client ← the_runtime;
  _ ← Login run_command (url_parse lib) (quote lib) client (ps_workspace s) (ps_transient s) credential base output;
  registryClient ← lift (registry_client s credential);
  _ ← iterM (λ '(i, image),
        destination ← destination_at i;
        _ ← Push run_command client (ps_workspace s) (ps_transient s) destination base output;
        let repository := trim [slash] (RegistryProject config) +:+ "/" +:+ Manifest.Repository image in
        digest ← registry_digest registryClient repository (Manifest.Tag image);
        record_image (j_ID (ps_job s)) (image_record s image destination digest))
        (imap pair (ps_images s));
  mret StepResult_zero).

(** ** Approved scripts *)
Definition removeCredential (path : string) (removed : bool) : M W bool :=
  if removed then mret true else
  r ← try (on_os (remove path));
  match r with
  | Err e => if errors_is ErrNotExist e then mret true else throw (wrap "remove target credential handoff: %w" e)
  | Ok _ => mret true
  end.

(** With a credential: the handoff file exists while the script runs, and the
    script's output goes through two redactors. *)
(* src: runner/internal/pipeline/pipeline.go:519-552 (Processor).runApprovedScript *)
Definition run_with_credential (s : processState) (spec : Spec W) : M W (ExecResult * option goerr) :=
  let credential := j_TargetCredential (ps_job s) in
  match Decrypt (secretBox p) (tc_Ciphertext credential) (tc_AAD credential) with
  | Err e => mret (no_result, Some (wrap "decrypt target credential: %w" e))
  | Ok plaintext =>
      if bool_decide (plaintext = []) || (maximumTargetCredentialBytes <? blen plaintext) then
        mret (no_result, Some (Errorf "target credential must contain between 1 and %d bytes" [FInt maximumTargetCredentialBytes]))
      else
        let credentialPath := path_join [ps_transient s; CredentialFile] in
        written ← try (on_os (writeTargetCredential credentialPath plaintext));
        match written with
        | Err e => mret (no_result, Some e)
        | Ok _ =>
            let env := <["RELEASEDOCK_CREDENTIAL_FILE" := credentialPath]>
                         (<["RELEASEDOCK_CREDENTIAL_TYPE" := tc_Type credential]> (Env spec)) in
            _ ← modify (set_redactors (newExactSecretRedactor (Some ()) plaintext) (newExactSecretRedactor (Some ()) plaintext));
            let run : M W run_return := λ w,
              let '(ret, w) := run_command
                {| Path := Path spec; Args := Args spec; Dir := Dir spec; Env := env; Stdin := Stdin spec; Timeout := Timeout spec;
                   Stdout := Some (redacting_writer true); Stderr := Some (redacting_writer false); Isolated := Isolated spec |} w in
              (Ok ret, w) in
            '(result, runErr) ← run;
            outErr ← flush_redactor true;
            errErr ← flush_redactor false;
            let flushErr := errors_join [outErr; errErr] in
            removed ← try (removeCredential credentialPath false);
            _ ← try (removeCredential credentialPath (is_ok removed));
            mret (result, errors_join [runErr; flushErr; err_of removed])
        end
  end.

(* src: runner/internal/pipeline/pipeline.go:511-553 (Processor).runApprovedScript *)
Definition runApprovedScript (s : processState) (spec : Spec W) : M W (ExecResult * option goerr) :=
  let env := <["RELEASEDOCK_CREDENTIAL_FILE" := ""]> (<["RELEASEDOCK_CREDENTIAL_TYPE" := ""]> (Env spec)) in
  if is_empty (tc_ID (j_TargetCredential (ps_job s))) then λ w,
    let '(ret, w) := run_command
      {| Path := Path spec; Args := Args spec; Dir := Dir spec; Env := env; Stdin := Stdin spec; Timeout := Timeout spec;
         Stdout := o_Stdout output; Stderr := o_Stderr output; Isolated := Isolated spec |} w in
    (Ok ret, w)
  else
    run_with_credential s {| Path := Path spec; Args := Args spec; Dir := Dir spec; Env := env; Stdin := Stdin spec;
      Timeout := Timeout spec; Stdout := Stdout spec; Stderr := Stderr spec; Isolated := Isolated spec |}.

(** One script of the phase: its exit code with the error. *)
(* src: runner/internal/pipeline/pipeline.go:479-503 (Processor).runScripts *)
Definition runScript (directory phase : string) (index : nat) (script : Script) : M W (Z * option goerr) :=
  s ← the_state;
  match validateApprovedScript script with
  | Err e => mret (0, Some e)
  | Ok _ =>
      let name := "script-" +:+ decimal3 index +:+ "-v" +:+ decimal (s_Version script) in
      let path := path_join [directory; name] in
      stored ← try (on_os (write_file path (s_Content script) 416));
      match stored with
      | Err e => mret (0, Some (wrap "materialize approved script: %w" e))
      | Ok _ =>
          let limit := p_CommandTimeout (j_Profile (ps_job s)) in
          let timeout := if (s_Timeout script <=? 0) || (limit <? s_Timeout script) then limit else s_Timeout script in
          '(result, err) ← runApprovedScript s
             {| Path := s_InterpreterPath script; Args := path :: s_Args script; Dir := ps_workspace s; Env := restrictedEnv s;
                Stdin := []; Timeout := timeout; Stdout := None; Stderr := None; Isolated := true |};
          removed ← try (on_os (remove path));
          match errors_join [err; err_of removed] with
          | Some e => mret (ExitCode result, Some (Wrapf "approved script %s v%d (%s): %w"
                                                     [FStr (s_Name script); FInt (s_Version script); FStr phase] e))
          | None => mret (0, None)
          end
      end
  end.

Fixpoint scripts_loop (directory phase : string) (index : nat) (scripts : list Script) (executed : Z) : M W outcome :=
  match scripts with
  | [] => mret (metadata [("phase", JStr phase); ("scripts", JInt executed)] 0, None)
  | script :: scripts =>
      if negb (bool_decide (s_Phase script = phase)) then scripts_loop directory phase (S index) scripts executed else
      '(code, err) ← runScript directory phase index script;
      match err with
      | Some e => mret ({| sr_ExitCode := code; sr_Message := ""; sr_Metadata := None |}, Some e)
      | None => scripts_loop directory phase (S index) scripts (executed + 1)
      end
  end.

(* src: runner/internal/pipeline/pipeline.go:469-507 (Processor).runScripts *)
Definition runScripts (phase : string) : M W outcome :=
  s ← the_state;
  let directory := path_join [ps_workspace s; ".scripts"] in
  made ← try (on_os (mkdir_all directory 488));
  match made with
  | Err e => mret (failed_step e)
  | Ok _ => scripts_loop directory phase 0 (p_Scripts (j_Profile (ps_job s))) 0
  end.

(* src: runner/internal/pipeline/pipeline.go:460-467 (Processor).deploy *)
Definition deploy : M W outcome :=
  '(_, err) ← runScripts "DEPLOY";
  match err with
  | Some e => mret (failed_step e)
  | None =>
      '(_, err) ← runScripts "POST_DEPLOY";
      mret match err with Some e => failed_step e | None => (StepResult_zero, None) end
  end.

(* src: runner/internal/pipeline/pipeline.go:584-593 (Processor).verify *)
Definition verify : M W outcome := simple_step (
  s ← the_state;
  let checks := p_HealthChecks (j_Profile (ps_job s)) in
  _ ← iterM (λ '(index, check),
        _ ← wrapM (Wrapf "health check %d: %w" [FInt (Z.of_nat index + 1)])
              (on_env (Check (new_request lib) (http_do lib) (tcp_dial lib) (wait lib) (pem_certificates lib) (range lib) check));
        print_line ("health check " +:+ decimal (Z.of_nat index + 1) +:+ " (" +:+ hc_Type check +:+ ") passed"))
        (imap pair checks);
  mret (metadata [("healthChecks", JInt (Z.of_nat (length checks)))] 0)).

(** ** Manual rollback *)

(** One image of the source deployment: its digest still resolves at the
    registry, and it is pinned by that digest. *)
(* src: runner/internal/pipeline/pipeline.go:288-316 (Processor).validateRollbackSource *)
Definition rollback_image (client : RuntimeConfig) (registryClient : RegistryClient) (image : ImageRecord) : M W unit :=
  s ← the_state;
  let job := ps_job s in
  let project := trim [slash] (RegistryProject (p_Runtime (j_Profile job))) in
  _ ← lift (fail_if (negb (match_string imageDigestPattern (ir_Digest image)))
              (Errorf "rollback source image %s has invalid digest %q" [FStr (ir_DestinationRef image); FStr (ir_Digest image)]));
  expectedDestination ← lift (map_err (wrap "validate rollback image destination: %w")
                                (Destination client (ir_Repository image) (ir_Tag image)));
  _ ← lift (fail_if (negb (bool_decide (expectedDestination = ir_DestinationRef image)))
              (Errorf "rollback image destination drift: stored %q, profile resolves %q"
                 [FStr (ir_DestinationRef image); FStr expectedDestination]));
  let normalizedDigest := "sha256:" +:+ to_lower (trim_prefix (ir_Digest image) "sha256:") in
  let repository := project +:+ "/" +:+ trim [slash] (ir_Repository image) in
  registryDigest ← wrapM (Wrapf "verify rollback source image %s: %w" [FStr expectedDestination])
                     (registry_digest registryClient repository normalizedDigest);
  _ ← lift (fail_if (negb (equal_fold registryDigest normalizedDigest))
              (Errorf "rollback source digest mismatch for %s: stored %s, registry %s"
                 [FStr expectedDestination; FStr normalizedDigest; FStr registryDigest]));
  let digestReference := trim_suffix expectedDestination (":" +:+ ir_Tag image) +:+ "@" +:+ normalizedDigest in
  _ ← add_destination digestReference;
  _ ← record_image (j_ID job)
        {| ir_FilePath := ir_FilePath image; ir_SourceRef := ir_SourceRef image; ir_DestinationRef := ir_DestinationRef image;
           ir_Repository := ir_Repository image; ir_Tag := ir_Tag image; ir_Digest := normalizedDigest |};
  print_line ("verified rollback image " +:+ digestReference).

(* src: runner/internal/pipeline/pipeline.go:271-324 (Processor).validateRollbackSource *)
Definition validateRollbackSource : M W outcome := simple_step (
  s ← the_state;
  let job := ps_job s in
  let config := p_Runtime (j_Profile job) in
  client ← New (url_parse lib) (pem_certificates lib) config;
  credential ← lift (decryptCredential config);
  registryClient ← lift (registry_client s credential);
  _ ← iterM (rollback_image client registryClient) (j_RollbackImages job);
  s ← the_state;
  mret (metadata [("sourceReleaseId", JStr (j_RollbackSourceReleaseID job)); ("sourceJobId", JStr (j_RollbackSourceJobID job));
                  ("images", JInt (Z.of_nat (length (ps_destinations s)))); ("digestPinned", JBool true)] 0)).

(** ** Steps *)

(** The log writers of a new step share the job's budget. *)
Definition open_logs (step : Step) : M W unit :=
  modify (λ w, let s := w_state w in
    let writer stream := NewWriter (j_ID (ps_job s)) (step_ID step) stream (LogChunkBytes (ps_settings s)) in
    set_logs (w_budget w) (writer "stdout") (writer "stderr") w).

(* src: runner/internal/pipeline/pipeline.go:334-340 (Processor).withStep *)
Definition step_outcome (o : outcome) (outErr errErr : option goerr) : outcome :=
  let '(result, runErr) := o in
  let runErr := match errors_join [outErr; errErr] with
                | Some logErr => errors_join [runErr; Some (wrap "persist command output: %w" logErr)]
                | None => runErr
                end in
  match runErr with
  | Some e => ((if is_empty (sr_Message result)
                then {| sr_ExitCode := sr_ExitCode result; sr_Message := truncate (error_text e) 2000; sr_Metadata := sr_Metadata result |}
                else result), runErr)
  | None => (result, runErr)
  end.

(* src: runner/internal/pipeline/pipeline.go:326-347 (Processor).withStep *)
Definition withStep (status : JobStatus) (fn : M W outcome) : M W unit :=
  s ← the_state;
  step ← begin_step (j_ID (ps_job s)) status;
  _ ← open_logs step;
  o ← try fn;
  outErr ← gets (λ w, Writer_Err (w_out w));
  errErr ← gets (λ w, Writer_Err (w_err w));
  let '(result, runErr) := step_outcome (step_return o) outErr errErr in
  finished ← try (finish_step step (is_nil runErr) result);
  let runErr := match finished with Ok _ => runErr | Err finishErr => errors_join [runErr; Some finishErr] end in
  lift (of_err runErr).

(** The steps of a job, in order. *)
Definition step_list : Type := list (JobStatus * M W outcome).
(* src: runner/internal/pipeline/pipeline.go:211-236 (Processor).run *)
Definition deploy_steps (job : Job) : step_list :=
  [(StatusValidating, validateArtifact)]
  ++ (if bool_decide (j_Operation job = OperationDeploy) && hasPhase (p_Scripts (j_Profile job)) "PRE_DEPLOY"
      then [(StatusPreCheck, runScripts "PRE_DEPLOY")] else [])
  ++ [(StatusExtracting, extractArtifact); (StatusImageInspect, inspectImages); (StatusImageLoad, loadImages);
      (StatusImageTag, tagImages); (StatusImagePush, pushImages); (StatusDeploying, deploy); (StatusVerifying, verify)].
(* src: runner/internal/pipeline/pipeline.go:249-262 (Processor).runManualRollback *)
Definition rollback_steps : step_list :=
  [(StatusValidating, validateRollbackSource); (StatusRollback, runScripts "ROLLBACK"); (StatusVerifying, verify)].

(* src: runner/internal/pipeline/pipeline.go:237-245 (Processor).run *)
Definition run_steps (steps : step_list) : M W unit :=
  iterM (λ '(status, fn), wrapM (Wrapf "%s: %w" [FStr (status_text status)]) (withStep status fn)) steps.

(* src: runner/internal/pipeline/pipeline.go:248-269 (Processor).runManualRollback *)
Definition runManualRollback : M W unit := run_steps rollback_steps.

(* src: runner/internal/pipeline/pipeline.go:207-246 (Processor).run *)
Definition run : M W unit :=
  s ← the_state;
  if bool_decide (j_Operation (ps_job s) = OperationRollback) then runManualRollback
  else run_steps (deploy_steps (ps_job s)).

(** ** A job *)
(* src: runner/internal/pipeline/pipeline.go:661-665 (Processor).finishFailure *)
Definition finishFailure (jobID : string) (cause : goerr) : M W unit :=
  _ ← try (finish_job jobID StatusFailed (truncate (error_text cause) 4000)); mret ().

Definition terminal_status (job : Job) : JobStatus :=
  if bool_decide (j_Operation job = OperationRollback) then StatusRolledBack else StatusSuccess.

(** The steps, what the heartbeat has sent by then, the runtime credentials,
    and the final status. *)
(* src: runner/internal/pipeline/pipeline.go:136-165 (Processor).Process *)
Definition process_body (job : Job) (transient : string) : M W unit :=
  ran ← try run;
  _ ← pulse;
  hb ← gets w_heartbeat;
  let runErr := match hb with
                | HbSent e => if errors_is Canceled e then err_of ran else errors_join [err_of ran; Some e]
                | _ => err_of ran
                end in
  cleaned ← try (on_os (cleanupRuntimeCredentials transient));
  let runErr := match cleaned with Ok _ => runErr | Err e => errors_join [runErr; Some e] end in
  match runErr with
  | Some e =>
      finished ← try (finish_job (j_ID job) StatusFailed (truncate (error_text e) 4000));
      match finished with
      | Ok _ => throw e
      | Err finishErr => lift (of_err (errors_join [Some e; Some finishErr]))
      end
  | None => finish_job (j_ID job) (terminal_status job) ""
  end.

Definition start_heartbeat : M W unit := modify (λ w, set_heartbeat HbLoop (fresh_context w)).
(** [cancel(); heartbeatWG.Wait()]. *)
(* src: runner/internal/pipeline/pipeline.go:131-134 (Processor).Process *)
Definition stop_heartbeat : M W unit :=
  _ ← modify cancel;
  _ ← pulse;
  modify (λ w, set_heartbeat HbIdle w).

(** The deferred clean-up: its errors are joined to the result. *)
(* src: runner/internal/pipeline/pipeline.go:109-121 (Processor).Process *)
Definition process_cleanup (settings : Settings) (job : Job) (workspace : string) (ran : result unit) : M W unit :=
  removed ← try (on_os (RemoveCredentialJobDirectory (credentialRoot p) (j_ID job)));
  let returnErr := match removed with
                   | Ok _ => err_of ran
                   | Err e => errors_join [err_of ran; Some (wrap "cleanup transient credentials: %w" e)]
                   end in
  _ ← iterM (λ name, _ ← try (on_os (remove_all (path_join [workspace; name]))); mret ())
        [".containerd-hosts"; ".registry-certs"; ".runtime-auth"; CredentialDirectory; ExecutorCredentialDirectory];
  if shouldCleanup (j_Profile job) (is_ok ran) then
    cleaned ← try (on_os (cleanupWorkspace (Model.WorkspaceRoot settings) workspace));
    lift (of_err match cleaned with
                 | Ok _ => returnErr
                 | Err e => errors_join [returnErr; Some (wrap "cleanup workspace: %w" e)]
                 end)
  else lift (of_err returnErr).

Definition initial_state (settings : Settings) (job : Job) (workspace transient : string) : processState :=
  {| ps_job := job; ps_settings := settings; ps_workspace := workspace; ps_transient := transient;
     ps_extracted := path_join [workspace; "package"]; ps_artifact := "";
     ps_release := {| Application := ""; Version := ""; Images := [] |}; ps_images := []; ps_destinations := [];
     ps_runtime := None |}.

(** [randoms]: the names [os.MkdirTemp] tries. *)
(* src: runner/internal/pipeline/pipeline.go:84-166 (Processor).Process *)
Definition Process (randoms : list string) (settings : Settings) (job : option Job) : M W unit :=
  match job with None => throw (error_new "job is required") | Some job =>
  match validateOperation job with Err e => _ ← finishFailure (j_ID job) e; throw e | Ok _ =>
  created ← try (on_os (createWorkspace randoms (Model.WorkspaceRoot settings) (j_ID job)));
  match created with
  | Err e => _ ← finishFailure (j_ID job) (wrap "create isolated workspace: %w" e); throw e
  | Ok workspace =>
  made ← try (on_os (CreateCredentialJobDirectory (credentialRoot p) (j_ID job)));
  match made with
  | Err e =>
      _ ← try (on_os (cleanupWorkspace (Model.WorkspaceRoot settings) workspace));
      _ ← finishFailure (j_ID job) (wrap "create transient credential directory: %w" e);
      throw e
  | Ok transient =>
      _ ← modify (set_state (initial_state settings job workspace transient));
      _ ← modify (λ w, set_logs (NewBudget (p_MaxLogBytes (j_Profile job))) (w_out w) (w_err w) w);
      _ ← start_heartbeat;
      ran ← try (process_body job transient);
      _ ← stop_heartbeat;
      process_cleanup settings job workspace ran
  end end end end.
End processor.
