(* ===== verification/Frame.v ===== *)
(** * What the pipeline may do to its world

    A preorder on worlds, [advances ok]: the trace grows by events that
    satisfy [ok], and the job, its settings and its directories stay as they
    are.  Every operation of World.v and of the container runtime is shown to
    respect it, so that the theorems about the pipeline only look at the calls
    they are about. *)
From S2P Require Import Store.
From S2P Require Import Prelude GoIO GoString GoPath OS Model Archive Secrets Command Wire Socket.
From S2P Require Import Files Encoding Sha256 Crypto Manifest Health Runtime Registry Redact Logstream World Pipeline.

(** ** Invariants through the writers *)
Section writers.
Context `{Writer D} (I : D → Prop) (HI : ∀ d v, I d → I (writer_write d v).2).

Lemma write_fully_inv d v : I d → I (write_fully d v).2.
Proof.
  unfold write_fully. generalize (length v) as fuel. intros fuel. revert d v.
  induction fuel as [|fuel IH]; intros d v Hd; destruct v as [|c v]; try done.
  cbn [write_loop]. pose proof (HI d (c :: v) Hd) as Hd'. destruct (writer_write d (c :: v)) as [[n [e|]] d']; [done|].
  cbn [snd] in Hd'. repeat case_match; try done. by apply IH.
Qed.

Definition dest_ok (r : exactSecretRedactor D) : Prop := ∃ d, destination r = Some d ∧ I d.
Definition opt_ok (o : option D) : Prop := ∃ d, o = Some d ∧ I d.

Lemma redacted_bytes_inv o v : opt_ok o → opt_ok (writeRedactedBytes o v).2.
Proof.
  intros (d & -> & Hd). unfold writeRedactedBytes. pose proof (write_fully_inv d v Hd).
  destruct (write_fully d v) as [e d']. by exists d'.
Qed.
Lemma drain_loop_inv fuel final limit sec pend : ∀ cursor o, opt_ok o → opt_ok (drain_loop fuel final limit sec pend cursor o).2.
Proof.
  induction fuel as [|fuel IH]; intros cursor o Ho; [done|]. cbn [drain_loop]. case_bool_decide; [|done].
  destruct (bytes_index _ _) as [relative|]; [|done]. destruct (_ && _); [done|].
  pose proof (redacted_bytes_inv o (slice pend cursor (cursor + relative)) Ho) as Ho1.
  destruct (writeRedactedBytes o _) as [[e|] o1]; [done|]. cbn [snd] in Ho1.
  pose proof (redacted_bytes_inv o1 targetCredentialRedaction Ho1) as Ho2.
  destruct (writeRedactedBytes o1 _) as [[e|] o2]; [done|]. by apply IH.
Qed.
Lemma drain_inv final r : dest_ok r → dest_ok (drain final r).2.
Proof.
  intros Hr. unfold drain. case_bool_decide; [done|]. case_bool_decide; [done|]. cbv zeta.
  set (limit := if final then _ else _). destruct (_ && _); [done|].
  pose proof (drain_loop_inv (length (pending r)) final limit (secret r) (pending r) 0 (destination r) Hr) as Ho1.
  destruct (drain_loop _ _ _ _ _ _ _) as [[cursor|e] o]; [|done]. cbn [snd] in Ho1.
  set (f := if final then _ else _). pose proof (redacted_bytes_inv o (slice (pending r) cursor f) Ho1) as Ho2.
  destruct (writeRedactedBytes o _) as [[e|] o']; done.
Qed.
Lemma redact_write_inv r v : dest_ok r → dest_ok (Redact.Write r v).2.
Proof.
  intros Hr. unfold Redact.Write. destruct (rerr r); [done|].
  pose proof (drain_inv false (set_pending r (pending r ++ v) (destination r)) Hr) as Hd.
  destruct (drain false _) as [[e|] r']; done.
Qed.
Lemma redact_flush_inv r : dest_ok r → dest_ok (Redact.Flush r).2.
Proof.
  intros Hr. unfold Redact.Flush. destruct (rerr r); [done|]. pose proof (drain_inv true r Hr) as Hd.
  by destruct (drain true r) as [e r'].
Qed.
End writers.

Section sink.
Context `{Sink K} (I : K → Prop) (HI : ∀ s e, I s → I (Logstream.AppendLog s e).2).
Lemma append_chunks_inv fuel : ∀ w s payload, I s → I (appendChunks fuel w s payload).2.
Proof.
  induction fuel as [|fuel IH]; intros w s payload Hs; destruct payload as [|c payload]; try done.
  cbn [appendChunks]. match goal with |- context [Logstream.AppendLog s ?e] => pose proof (HI s e Hs) as Ha; destruct (Logstream.AppendLog s e) as [o s'] end.
  by apply IH.
Qed.
Lemma log_write_inv w b s payload : I s → I (Logstream.Write w b s payload).2.2.
Proof.
  intros Hs. unfold Logstream.Write. destruct (reserve b (blen payload)) as [allowed b'].
  assert (∀ x : LogWriter * K, I x.2 → I ((if (allowed <? blen payload) && negb (truncated b')
    then let '(w0, s0) := appendChunks (length truncationNotice) x.1 x.2 truncationNotice in
         (w0, {| maximum := maximum b'; used := used b'; truncated := true |}, s0)
    else (x.1, b', x.2)).2)) as Hend.
  { intros x Hx. destruct (_ && _); [|done]. pose proof (append_chunks_inv (length truncationNotice) x.1 x.2 truncationNotice Hx) as Hn.
    by destruct (appendChunks _ _ _ _). }
  destruct (0 <? allowed).
  - pose proof (append_chunks_inv (length payload) w s (take (Z.to_nat allowed) payload) Hs) as Hc.
    destruct (appendChunks _ w s _) as [w1 s1]. specialize (Hend (w1, s1) Hc). cbn [fst snd] in Hend.
    destruct (_ && _); [|done]. by destruct (appendChunks _ _ _ _).
  - specialize (Hend (w, s) Hs). cbn [fst snd] in Hend. destruct (_ && _); [|done]. by destruct (appendChunks _ _ _ _).
Qed.
End sink.

(** ** The credential handoff beside other files *)
Lemma file_holds_beside l p content w w' :
  fs w !! l = None → only_file l w w' → file_holds p content w → file_holds p content w'.
Proof.
  intros Hl Ho (loc & Hr & Hc). exists loc. destruct Ho as (Hcwd & Hm & Hn). split.
  - eapply (resolve_changed _ _ w); [|done|done]. eapply only_file_changed; [by split_and!|]. intros n. by rewrite Hl.
  - unfold contents in *. rewrite Hm; [done|]. intros ->. by rewrite Hl in Hc.
Qed.

Lemma writeTargetCredential_beside path plaintext p content w w' :
  writeTargetCredential path plaintext w = (Ok (), w') → file_holds p content w → file_holds p content w'.
Proof.
  unfold writeTargetCredential. intros Hrun Hp. inv_run Hrun. rename x into l.
  apply sys_run in Hrun0 as (m & Hf & ->). inv_ok Hf.
  apply orb_false_iff in Hok0 as [Hv _]. apply bool_decide_eq_false in Hv. rewrite <- eq_None_not_Some in Hv.
  eapply file_holds_beside; [exact Hv| |exact Hp].
  set (wa := ticked _) in *. assert (only_file l w wa) as Ha.
  { split; [done|]. split; [intros k Hk; cbn; by rewrite lookup_insert_ne|]. eexists. cbn. by rewrite lookup_insert_eq. }
  clearbody wa. destruct x0 as [[]|]; [|inv_run Hrun; done].
  assert (only_file l w w1) as Hb.
  { case_bool_decide; [by injection Hrun1 as <-|]. apply write_open_run in Hrun1.
    eapply only_file_alter; [|exact Ha|exact Hrun1]. apply append_node_regular. }
  inv_run Hrun. rename x into changed, x0 into closed. destruct (errors_join _) eqn:Ej; [inv_run Hrun; done|].
  destruct changed as [[]|], closed as [[]|]; try done.
  injection Hrun as <-. apply sys_run in Hrun0 as (m & [= <-] & ->). apply close_open_run in Hrun2 as ->.
  change (only_file l w (ticked (set_fs (alter (set_perm 416 false false) l (fs w1)) w1))).
  eapply only_file_alter; [|exact Hb|reflexivity]. done.
Qed.

(** ** The preorder *)
(** Calls that happen beside the pipeline's own. *)
Definition quiet (e : event) : Prop := match e with EvHeartbeat _ | EvLog _ _ => True | _ => False end.

Definition fixed (s : processState) : Job * Settings * string * string * string :=
  (ps_job s, ps_settings s, ps_workspace s, ps_transient s, ps_extracted s).

(** The runtime client, once made, is the one of the job's profile. *)
Definition client_ok (s : processState) : Prop := ∀ c, ps_runtime s = Some c → c = p_Runtime (j_Profile (ps_job s)).

(** A command executor changes files and what is outside, and otherwise only
    calls the writers it was given. *)
Class LawfulExecutor {R E} (exec : CommandExecutor (world R E)) : Prop :=
  executor_law (I : world R E → Prop) spec :
    (∀ w o e, I w → I (set_os o (set_env e w))) →
    (∀ wr payload w, Stdout spec = Some wr ∨ Stderr spec = Some wr → I w → I (wr payload w).2) →
    ∀ w, I w → I (exec spec w).2.

(** The phases a job may run. *)
Definition job_phases (job : Job) : list string :=
  if bool_decide (j_Operation job = OperationRollback) then ["ROLLBACK"] else ["PRE_DEPLOY"; "DEPLOY"; "POST_DEPLOY"].

(** An approved, immutable version of a script: it has an identifier, a version
    number and the time of its approval, its content has the SHA-256 it was
    approved with, its interpreter is an absolute path, and no argument of it
    holds a NUL. *)
Record approved_version (script : Script) : Prop := {
  av_ID : s_ID script ≠ "";
  av_Version : 0 < s_Version script;
  av_ApprovedAt : s_ApprovedAt script ≠ None;
  av_SHA256 : equal_fold (sha256_hex (s_Content script)) (s_SHA256 script) = true;
  av_Interpreter : is_abs (s_InterpreterPath script) = true;
  av_Args : Forall (λ a, NUL ∉ chars a) (s_Args script)
}.
Lemma validated_version script : validateApprovedScript script = Ok () → approved_version script.
Proof.
  intros H. apply bind_ok in H as (_ & Hid%fail_if_ok & H). apply bind_ok in H as (_ & Hpath%fail_if_ok & H).
  apply bind_ok in H as (_ & _ & H). apply bind_ok in H as (_ & Hsum%fail_if_ok & Hargs).
  apply orb_false_iff in Hid as [[Hid Hv]%orb_false_iff Ha]. split.
  - intros E. by rewrite E in Hid.
  - lia.
  - by destruct (s_ApprovedAt script).
  - by apply negb_false_iff.
  - by apply negb_false_iff.
  - apply result_iter_ok in Hargs. eapply Forall_impl; [exact Hargs|]. intros a Hnul%fail_if_ok. by rewrite <- contains_byte_chars, Hnul.
Qed.

(** A command that runs an approved script of the job: its interpreter on a
    file that holds exactly the approved content, with the approved arguments,
    isolated, in the workspace, within the profile's time limit and with the
    variables the isolated executor accepts. *)
Definition approved_run (job : Job) (workspace : string) (i : run_info) : Prop :=
  ∃ script file, script ∈ p_Scripts (j_Profile job) ∧ s_Phase script ∈ job_phases job
  ∧ approved_version script
  ∧ ri_Isolated i = true ∧ ri_Path i = s_InterpreterPath script ∧ ri_Args i = file :: s_Args script
  ∧ file_holds file (s_Content script) (ri_os i)
  ∧ ri_Dir i = workspace ∧ ri_Stdin i = [] ∧ ri_Timeout i ≤ p_CommandTimeout (j_Profile job)
  ∧ (∀ k v, ri_Env i !! k = Some v → k ∈ isolatedEnvironment).

(** A predicate on the repository that the pipeline's calls preserve; a step is
    never begun under a queued or terminal status. *)
Record keeps {R} `{Repository R} (keep : R → Prop) : Prop := {
  keeps_heartbeat id r : keep r → keep (Heartbeat id r).2;
  keeps_begin id status r : Store.running status = true → keep r → keep (BeginStep id status r).2;
  keeps_finish_step step b x r : keep r → keep (FinishStep step b x r).2;
  keeps_log e r : keep r → keep (World.AppendLog e r).2;
  keeps_image id i r : keep r → keep (RecordImage id i r).2;
  keeps_finish id status failure r : keep r → keep (FinishJob id status failure r).2
}.
Lemma keeps_nothing {R} `{Repository R} : keeps (λ _ : R, True).
Proof. by constructor. Qed.

(** The signals between two worlds have been handled; a shutdown among them
    has stopped the Runner. *)
Definition is_shutdown (s : signal) : bool := match s with Shutdown => true | _ => false end.
Definition shutdown_in (l : list (list signal)) : bool := existsb (existsb is_shutdown) l.
Definition heard {R E} (w w' : world R E) : Prop :=
  ∃ used, w_signals w = used ++ w_signals w' ∧ w_stopped w' = w_stopped w || shutdown_in used.
#[export] Instance heard_preorder {R E} : PreOrder (@heard R E).
Proof.
  split.
  - intros w. exists []. by rewrite orb_false_r.
  - intros w1 w2 w3 (u1 & E1 & S1) (u2 & E2 & S2). exists (u1 ++ u2). rewrite E1, E2, (assoc_L (++)). split; [done|].
    unfold shutdown_in in *. by rewrite existsb_app, orb_assoc, S2, S1.
Qed.

Section frame.
Context {R E : Type} `{Repository R}.
Notation W := (world R E).
Context (ok : event → Prop) (Hquiet : ∀ e, quiet e → ok e).
Context (keep : R → Prop) (Hkeep : keeps keep).

Record effects (w w' : W) : Prop := {
  adv_trace : ∃ new, w_trace w' = w_trace w ++ new ∧ Forall ok new;
  adv_job : fixed (w_state w') = fixed (w_state w);
  adv_client : client_ok (w_state w) → client_ok (w_state w');
  adv_repo : keep (w_repo w) → keep (w_repo w')
}.
Definition advances (w w' : W) : Prop := effects w w' ∧ heard w w'.

#[export] Instance effects_preorder : PreOrder effects.
Proof.
  split.
  - intros w. split; [exists []; by rewrite app_nil_r|done..].
  - intros w1 w2 w3 [(n1 & E1 & F1) J1 C1 K1] [(n2 & E2 & F2) J2 C2 K2]. split; [|congruence|auto..].
    exists (n1 ++ n2). rewrite E2, E1, (assoc_L (++)). split; [done|by apply Forall_app].
Qed.
#[export] Instance advances_preorder : PreOrder advances.
Proof. split; [done|]. intros w1 w2 w3 [H1 G1] [H2 G2]. split; by etrans. Qed.

(** Nothing but files, what is outside, writers and the heartbeat has changed. *)
Definition same_run (w w' : W) : Prop := w_trace w' = w_trace w ∧ w_state w' = w_state w ∧ w_repo w' = w_repo w
  ∧ w_signals w' = w_signals w ∧ w_stopped w' = w_stopped w.
Lemma heard_same (w w' : W) : w_signals w' = w_signals w → w_stopped w' = w_stopped w → heard w w'.
Proof. intros Hg Hs. exists []. by rewrite Hg, Hs, orb_false_r. Qed.
Lemma effects_same w w' : w_trace w' = w_trace w → w_state w' = w_state w → w_repo w' = w_repo w → effects w w'.
Proof. intros Ht Hs Hr. split; [exists []; by rewrite Ht, app_nil_r|by rewrite Hs..|by rewrite Hr]. Qed.
Lemma advances_same w w' : same_run w w' → advances w w'.
Proof. intros (Ht & Hs & Hr & Hg & Hp). split; [by apply effects_same|by apply heard_same]. Qed.
Lemma advances_event w w' e : ok e → w_trace w' = w_trace w ++ [e] → w_state w' = w_state w →
  (keep (w_repo w) → keep (w_repo w')) → heard w w' → advances w w'.
Proof. intros He Ht Hs Hr Hg. split; [|done]. split; [exists [e]; split; [done|by constructor]|by rewrite Hs..|done]. Qed.

(** The worlds of one job. *)
Context (job : Job) (settings : Settings) (workspace transient : string).
Record of_job (w : W) : Prop := {
  oj_fixed : fixed (w_state w) = (job, settings, workspace, transient, path_join [workspace; "package"]);
  oj_client : client_ok (w_state w)
}.
Lemma of_job_advances w w' : advances w w' → of_job w → of_job w'.
Proof. intros [[_ Hf Hc _] _] [Hj Hc0]. split; [congruence|auto]. Qed.

(** [within m]: every run of [m] for the job respects it. *)
Definition within {A} (m : M W A) : Prop := ∀ w, of_job w → advances w (m w).2.

Lemma advances_bind {A B} (m : M W A) (f : A → M W B) w :
  advances w (m w).2 → (∀ a w', m w = (Ok a, w') → advances w' (f a w').2) → advances w ((m ≫= f) w).2.
Proof.
  intros Hm Hf. unfold mbind, M_bind. destruct (m w) as [[a|e] w1] eqn:Em; [|done].
  etrans; [exact Hm|]. by apply Hf.
Qed.
Lemma within_bind {A B} (m : M W A) (f : A → M W B) : within m → (∀ a, within (f a)) → within (m ≫= f).
Proof.
  intros Hm Hf w Hw. apply advances_bind; [auto|]. intros a w' Hr. apply Hf.
  specialize (Hm w Hw). rewrite Hr in Hm. by eapply of_job_advances.
Qed.
Lemma within_ret {A} (a : A) : within (mret a).
Proof. intros w _. by apply advances_same. Qed.
Lemma within_lift {A} (r : result A) : within (lift r).
Proof. intros w _. by apply advances_same. Qed.
Lemma within_throw {A} e : within (throw (A := A) e).
Proof. intros w _. by apply advances_same. Qed.
Lemma within_gets {A} (f : W → A) : within (gets f).
Proof. intros w _. by apply advances_same. Qed.
Lemma within_wrap {A} f (m : M W A) : within m → within (wrapM f m).
Proof. intros Hm w Hw. specialize (Hm w Hw). unfold wrapM. by destruct (m w). Qed.
Lemma within_try {A} (m : M W A) : within m → within (try m).
Proof. intros Hm w Hw. specialize (Hm w Hw). unfold try. by destruct (m w). Qed.
Lemma within_iter {A} (f : A → M W unit) l : (∀ x, within (f x)) → within (iterM f l).
Proof. intros Hf. induction l as [|x l IH]; [apply within_ret|]. by apply within_bind. Qed.
Lemma within_on_os {A} (m : M os A) : within (on_os m).
Proof. intros w _. unfold on_os. destruct (m (get_os w)) as [r o]. by apply advances_same. Qed.
Lemma within_on_env {A} (m : M E A) : within (on_env m).
Proof. intros w _. unfold on_env. destruct (m (w_env w)) as [r e]. by apply advances_same. Qed.
Lemma within_simple (m : M W StepResult) : within m → within (simple_step m).
Proof. intros Hm. apply within_bind; [done|]. intros r. apply within_ret. Qed.
Lemma within_update f : (∀ s, fixed (f s) = fixed s) → (∀ s, ps_job s = job → client_ok s → client_ok (f s)) → within (update_state f).
Proof.
  intros Hf Hc w [Hj _]. split; [|by apply heard_same].
  split; [exists []; split; [by rewrite app_nil_r|done]|apply Hf| |done]. apply Hc. by injection Hj.
Qed.
Lemma within_redactors a b : within (modify (W := W) (set_redactors a b)).
Proof. intros w _. by apply advances_same. Qed.

(** *** Calls to the repository *)
Lemma advances_tick w : advances w (heartbeat_tick w).
Proof.
  unfold heartbeat_tick. assert (keep (w_repo w) → keep (if w_cancelled w then (Err (Sentinel Canceled), w_repo w)
    else Heartbeat (j_ID (ps_job (w_state w))) (w_repo w)).2) as Hk.
  { destruct (w_cancelled w); [done|by apply keeps_heartbeat]. }
  destruct (if w_cancelled w then _ else _) as [r s].
  apply (advances_event _ _ (EvHeartbeat (is_ok r))); [by apply Hquiet|by destruct r..|]. by destruct r; apply heard_same.
Qed.
Lemma signal_effects w s : effects w (on_signal w s)
  ∧ w_signals (on_signal w s) = w_signals w ∧ w_stopped (on_signal w s) = w_stopped w || is_shutdown s.
Proof.
  assert (effects w w ∧ w_signals w = w_signals w ∧ w_stopped w = w_stopped w || false) as Hno by (by rewrite orb_false_r).
  unfold on_signal. destruct s, (w_heartbeat w); try done.
  1: { pose proof (advances_tick w) as [Hf _]. split; [done|]. unfold heartbeat_tick. cbn [is_shutdown]. rewrite orb_false_r.
       destruct (if w_cancelled w then _ else _) as [r s]. by destruct r. }
  1: { destruct (w_cancelled w); [|done]. cbn. rewrite orb_false_r. split; [by apply effects_same|done]. }
  all: cbn; rewrite ?orb_true_r, ?orb_false_r; split; [by apply effects_same|done].
Qed.
Lemma advances_pulse w : advances w (pulse w).2.
Proof.
  unfold pulse. destruct (w_signals w) as [|l rest] eqn:Eg; [done|]. cbn [snd].
  assert (∀ w, effects w (foldl on_signal w l) ∧ w_signals (foldl on_signal w l) = w_signals w
    ∧ w_stopped (foldl on_signal w l) = w_stopped w || existsb is_shutdown l) as Hl.
  { clear w Eg. induction l as [|s l IH]; intros w; cbn; [by rewrite orb_false_r|].
    destruct (signal_effects w s) as (H1 & H2 & H3), (IH (on_signal w s)) as (H4 & H5 & H6).
    split; [by etrans|]. split; [congruence|]. by rewrite H6, H3, orb_assoc. }
  destruct (Hl (set_signals rest w)) as (H1 & H2 & H3). split.
  - etrans; [|exact H1]. by apply effects_same.
  - exists [l]. rewrite H2, H3. split; [done|]. unfold shutdown_in. cbn [existsb]. by rewrite orb_false_r.
Qed.
Lemma advances_repo_call {A} bound (m : M R A) ev w :
  (∀ s, keep s → keep (m s).2) → (∀ r, ok (ev r)) → advances w (repo_call bound m ev w).2.
Proof.
  intros Hm Hev. unfold repo_call. apply advances_bind; [apply advances_pulse|]. intros [] w' _.
  cbv beta zeta. destruct (bound && w_cancelled w'); [apply (advances_event _ _ (ev (Err (Sentinel Canceled)))); try done; by apply heard_same|].
  specialize (Hm (w_repo w')). destruct (m (w_repo w')) as [r s]. apply (advances_event _ _ (ev r)); try done. by apply heard_same.
Qed.
Lemma advances_append_log e w : advances w (append_log e w).2.
Proof. apply advances_repo_call; [by apply keeps_log|]. intros r. by apply Hquiet. Qed.
Lemma within_record_image id i : (∀ b, ok (EvImage i b)) → within (record_image id i).
Proof. intros Hok w _. apply advances_repo_call; [by apply keeps_image|]. intros r. apply Hok. Qed.

(** *** Writers *)
Lemma advances_logs w b l1 l2 : advances w (set_logs b l1 l2 w).
Proof. by apply advances_same. Qed.
Lemma advances_step_writer out payload w : advances w (step_writer out payload w).2.
Proof.
  unfold step_writer.
  pose proof (log_write_inv (advances w)) as Hlog. 
  assert (∀ s e, advances w s → advances w (Logstream.AppendLog s e).2) as HI.
  { intros s e Hs. etrans; [exact Hs|]. unfold Logstream.AppendLog, world_sink. pose proof (advances_append_log e s) as Ha.
    by destruct (append_log e s). }
  specialize (Hlog HI (if out then w_out w else w_err w) (w_budget w) w payload ltac:(done)).
  destruct (Logstream.Write _ _ w payload) as [ret [[lw b] w1]]. cbn [snd] in *.
  destruct out; (etrans; [exact Hlog|apply advances_logs]).
Qed.
Lemma advances_put out w0 r w : dest_ok (advances w) r → advances w (put_redactor out w0 r).
Proof.
  intros (d & Hd & Had). unfold put_redactor. rewrite Hd. cbn [default]. etrans; [exact Had|].
  by destruct out; apply advances_same.
Qed.
Lemma advances_attach r w : dest_ok (advances w) (attach r w).
Proof. by exists w. Qed.
Lemma destination_inv out w d v : advances w d → advances w (@writer_write W (destination_writer out) d v).2.
Proof. intros Hd. etrans; [exact Hd|apply advances_step_writer]. Qed.
Lemma advances_redacting out payload w : advances w (redacting_writer out payload w).2.
Proof.
  unfold redacting_writer.
  pose proof (@redact_write_inv W (destination_writer out) (advances w) (destination_inv out w) _ payload
                (advances_attach (redactor_of out w) w)) as Hw.
  destruct (Redact.Write _ payload) as [ret r]. by apply advances_put.
Qed.
Lemma within_flush out : within (flush_redactor out).
Proof.
  intros w _. unfold flush_redactor.
  pose proof (@redact_flush_inv W (destination_writer out) (advances w) (destination_inv out w) _
                (advances_attach (redactor_of out w) w)) as Hw.
  destruct (Redact.Flush _) as [ret r]. by apply advances_put.
Qed.
Lemma within_print text : within (print_line text).
Proof. intros w _. unfold print_line. apply advances_step_writer. Qed.

(** *** Commands *)
Definition run_of (spec : Spec W) (w : W) : run_info :=
  {| ri_Path := Path spec; ri_Args := Args spec; ri_Dir := Dir spec; ri_Env := Env spec; ri_Stdin := Stdin spec;
     ri_Timeout := Timeout spec; ri_Isolated := Isolated spec; ri_os := w_os w |}.
(** The writers of a step, plain or redacting. *)
Definition step_outputs (spec : Spec W) : Prop :=
  ∀ wr, Stdout spec = Some wr ∨ Stderr spec = Some wr → ∃ out, wr = step_writer out ∨ wr = redacting_writer out.

Lemma advances_execute exec `{!LawfulExecutor exec} spec w :
  step_outputs spec → ok (EvRun (run_of spec w)) → advances w (execute exec spec w).2.
Proof.
  intros Hout Hok. unfold execute. fold (run_of spec w). trans (record_event (EvRun (run_of spec w)) w).
  { eapply advances_event; try done; by apply heard_same. }
  generalize (record_event (EvRun (run_of spec w)) w). intros w0. apply (executor_law (advances w0)); [| |done].
  - intros w1 o e Hw. etrans; [exact Hw|by apply advances_same].
  - intros wr payload w1 Hwr Hw. etrans; [exact Hw|].
    destruct (Hout wr Hwr) as (out & [->| ->]); [apply advances_step_writer|apply advances_redacting].
Qed.

(** *** The runtime client *)
Context (p : Processor R E) `{!LawfulExecutor (executor p)} `{ErrorText}.
Context (Himage : ∀ i b, ok (EvImage i b)).
Notation config := (p_Runtime (j_Profile job)).
Context (Hclient : ∀ i, ri_Isolated i = false → ri_Path i = BinaryPath config → ok (EvRun i)).
Notation run_command := (execute (executor p)).
Notation output := (@Output_of_step R E _).

Lemma step_outputs_plain path args dir env stdin timeout b :
  step_outputs {| Path := path; Args := args; Dir := dir; Env := env; Stdin := stdin; Timeout := timeout;
                  Stdout := o_Stdout output; Stderr := o_Stderr output; Isolated := b |}.
Proof. intros wr [[= <-]|[= <-]]; [by exists true; left|by exists false; left]. Qed.
Lemma step_outputs_redacting path args dir env stdin timeout b :
  step_outputs {| Path := path; Args := args; Dir := dir; Env := env; Stdin := stdin; Timeout := timeout;
                  Stdout := Some (redacting_writer true); Stderr := Some (redacting_writer false); Isolated := b |}.
Proof. intros wr [[= <-]|[= <-]]; [by exists true; right|by exists false; right]. Qed.

Lemma within_run_exec args dir env stdin timeout action :
  within (run_exec run_command {| Path := BinaryPath config; Args := args; Dir := dir; Env := env; Stdin := stdin; Timeout := timeout;
                                  Stdout := o_Stdout output; Stderr := o_Stderr output; Isolated := false |} action).
Proof.
  intros w _. unfold run_exec. set (spec := {| Path := _ |}).
  assert (advances w (run_command spec w).2) as Hadv.
  { apply advances_execute; [done|apply step_outputs_plain|by apply Hclient]. }
  by destruct (run_command spec w) as [[r [e|]] w'].
Qed.

Lemma within_podman c transient' : within (podmanTLSArguments c transient').
Proof.
  unfold podmanTLSArguments. destruct (negb _); [apply within_ret|]. apply within_bind; [|intros; apply within_ret].
  case_bool_decide; [apply within_ret|]. cbv zeta.
  repeat (apply within_bind; [apply within_wrap, within_on_os|intros _]). apply within_ret.
Qed.
Lemma within_hosts up q c transient' cred : within (writeContainerdHosts up q c transient' cred).
Proof.
  unfold writeContainerdHosts. apply within_bind; [apply within_lift|]. intros host. cbv zeta.
  apply within_bind; [apply within_wrap, within_on_os|]. intros _.
  apply within_bind; [case_bool_decide; [apply within_ret|apply within_wrap, within_on_os]|]. intros _. apply within_wrap, within_on_os.
Qed.
Lemma within_Login up q ws tr cred base : Isolated base = false → within (Login run_command up q config ws tr cred base output).
Proof.
  intros Hb. unfold Login. cbv zeta. rewrite Hb. apply within_bind; [apply within_lift|]. intros _.
  case_bool_decide; [apply within_hosts|]. apply within_bind; [apply within_podman|]. intros tls.
  case_bool_decide; [apply within_ret|]. apply within_bind; [apply within_wrap, within_on_os|]. intros _. apply within_run_exec.
Qed.
Lemma within_run_transient ws tr args base stdin action :
  Isolated base = false → within (runWithTransient run_command config ws tr args base output stdin action).
Proof. intros Hb. unfold runWithTransient. rewrite Hb. apply within_run_exec. Qed.
Lemma within_Load ws tar base : Isolated base = false → within (Runtime.Load run_command config ws tar base output).
Proof. apply within_run_transient. Qed.
Lemma within_Tag ws a b base : Isolated base = false → within (Runtime.Tag run_command config ws a b base output).
Proof. intros Hb. apply within_bind; [apply within_lift|]. intros _. by apply within_run_transient. Qed.
Lemma within_Push ws tr d base : Isolated base = false → within (Push run_command config ws tr d base output).
Proof.
  intros Hb. unfold Push. apply within_bind; [|intros args; by apply within_run_transient].
  unfold push_arguments. case_bool_decide; [apply within_bind; [apply within_try, within_on_os|intros; apply within_ret]|].
  case_bool_decide; [apply within_bind; [apply within_podman|intros; apply within_ret]|apply within_ret].
Qed.

(** *** Approved scripts *)
Context (Hscript : ∀ i, approved_run job workspace i → ok (EvRun i)).

Lemma restricted_keys s k v : restrictedEnv s !! k = Some v → k ∈ isolatedEnvironment.
Proof.
  intros Hk%elem_of_list_to_map_2. apply (list_elem_of_fmap_2 fst) in Hk. cbn [fst fmap list_fmap] in Hk.
  revert k Hk. apply Forall_forall. apply (bool_decide_unpack _). by vm_compute.
Qed.

(** The command of a script, before it gets its writers. *)
Definition script_spec (s : processState) (path : string) (timeout : Z) (script : Script) : Spec W :=
  {| Path := s_InterpreterPath script; Args := path :: s_Args script; Dir := ps_workspace s; Env := restrictedEnv s;
     Stdin := []; Timeout := timeout; Stdout := None; Stderr := None; Isolated := true |}.

Section script.
Context (s : processState) (Hs : ps_job s = job) (Hws : ps_workspace s = workspace) (script : Script) (path : string) (timeout : Z).
Context (Hin : script ∈ p_Scripts (j_Profile job)) (Hphase : s_Phase script ∈ job_phases job).
Context (Hvalid : approved_version script) (Htime : timeout ≤ p_CommandTimeout (j_Profile job)).

Lemma script_approved (spec : Spec W) w :
  file_holds path (s_Content script) (w_os w) →
  Path spec = s_InterpreterPath script → Args spec = path :: s_Args script → Dir spec = workspace → Stdin spec = [] →
  Timeout spec = timeout → Isolated spec = true → (∀ k v, Env spec !! k = Some v → k ∈ isolatedEnvironment) →
  ok (EvRun (run_of spec w)).
Proof. intros. apply Hscript. exists script, path. split_and!; try done. cbn. congruence. Qed.

Lemma credential_keys (a b : string) (env : gmap string string) :
  (∀ k v, env !! k = Some v → k ∈ isolatedEnvironment) →
  ∀ k v, <["RELEASEDOCK_CREDENTIAL_FILE" := a]> (<["RELEASEDOCK_CREDENTIAL_TYPE" := b]> env) !! k = Some v → k ∈ isolatedEnvironment.
Proof.
  intros He k v. rewrite !lookup_insert_Some.
  intros [[<- _]|[_ [[<- _]|[_ Hk]]]]; [apply (bool_decide_unpack _); by vm_compute..|by eapply He].
Qed.

Lemma within_removeCredential q b : within (removeCredential q b).
Proof.
  unfold removeCredential. destruct b; [apply within_ret|]. apply within_bind; [apply within_try, within_on_os|].
  intros [u|e]; [apply within_ret|]. destruct (errors_is _ _); [apply within_ret|apply within_throw].
Qed.

(** What follows the command of a script. *)
Lemma within_redacted_end q result runErr : within (
  outErr ← flush_redactor true; errErr ← flush_redactor false;
  removed ← try (removeCredential q false); _ ← try (removeCredential q (is_ok removed));
  mret (result, errors_join [runErr; errors_join [outErr; errErr]; err_of removed]) : M W (ExecResult * option goerr)).
Proof.
  do 2 (apply within_bind; [apply within_flush|intros ?]).
  do 2 (apply within_bind; [apply within_try, within_removeCredential|intros ?]). apply within_ret.
Qed.

Lemma on_os_run {A} (m : M os A) (w : W) a w' : on_os m w = (Ok a, w') → ∃ o, m (w_os w) = (Ok a, o) ∧ w' = set_os o w.
Proof. unfold on_os. cbn. destruct (m (w_os w)) as [r o]. intros [= -> <-]. by exists o. Qed.

Lemma run_with_credential_advances w (env : gmap string string) :
  (∀ k v, env !! k = Some v → k ∈ isolatedEnvironment) →
  of_job w → file_holds path (s_Content script) (w_os w) →
  advances w (run_with_credential p s {| Path := s_InterpreterPath script; Args := path :: s_Args script; Dir := ps_workspace s;
    Env := env; Stdin := []; Timeout := timeout; Stdout := None; Stderr := None; Isolated := true |} w).2.
Proof.
  intros Henv Hw Hfile. unfold run_with_credential. destruct (Decrypt _ _ _) as [plaintext|e]; [|by apply within_ret].
  destruct (_ || _); [by apply within_ret|]. cbv zeta. apply advances_bind; [apply within_try; [apply within_on_os|done]|].
  intros [[]|e] w1 Hrun%(proj1 (try_ok _ _ _ _)); [|apply within_ret; (eapply of_job_advances; [|exact Hw])].
  2: { pose proof (within_try _ (within_on_os (writeTargetCredential (path_join [ps_transient s; CredentialFile]) plaintext)) w Hw) as Ha.
       unfold try in Ha. by rewrite Hrun in Ha. }
  apply on_os_run in Hrun as (o & Hwrite & ->). apply (writeTargetCredential_beside _ _ _ _ _ _ Hwrite) in Hfile.
  assert (of_job (set_os o w)) as Hw1. { eapply of_job_advances; [|exact Hw]. by apply advances_same. }
  apply advances_bind; [by apply within_redactors|]. intros [] w2 [= <-].
  set (w2 := set_redactors _ _ _). assert (of_job w2) as Hw2. { eapply of_job_advances; [|exact Hw1]. by apply advances_same. }
  assert (file_holds path (s_Content script) (w_os w2)) as Hfile2 by done. clearbody w2.
  cbn [Path Args Dir Env Stdin Timeout Isolated]. set (spec := {| Path := s_InterpreterPath script |}).
  assert (advances w2 (run_command spec w2).2) as Hadv.
  { apply advances_execute; [done|apply step_outputs_redacting|]. apply script_approved; try done. by apply credential_keys. }
  apply advances_bind; [by destruct (run_command spec w2)|]. intros [result runErr] w3 Hrun.
  apply within_redacted_end. eapply of_job_advances; [|exact Hw2]. destruct (run_command spec w2) as [ret w4].
  by injection Hrun as _ <-.
Qed.

Lemma runApprovedScript_advances w :
  of_job w → file_holds path (s_Content script) (w_os w) →
  advances w (runApprovedScript p s (script_spec s path timeout script) w).2.
Proof.
  intros Hw Hfile. unfold runApprovedScript. cbv zeta. destruct (is_empty _).
  - cbn [Path Args Dir Env Stdin Timeout Isolated script_spec]. set (spec := {| Path := s_InterpreterPath script |}). assert (advances w (run_command spec w).2) as Hadv.
    { apply advances_execute; [done|apply step_outputs_plain|]. apply script_approved; try done.
      apply credential_keys. apply restricted_keys. }
    by destruct (run_command spec w).
  - apply run_with_credential_advances; [|done..]. apply credential_keys. apply restricted_keys.
Qed.
End script.

Lemma of_job_job w : of_job w → ps_job (w_state w) = job.
Proof. intros [Hf _]. by injection Hf. Qed.
Lemma of_job_workspace w : of_job w → ps_workspace (w_state w) = workspace.
Proof. intros [Hf _]. by injection Hf. Qed.

Lemma within_runScript directory phase index script :
  script ∈ p_Scripts (j_Profile job) → s_Phase script ∈ job_phases job → within (runScript p directory phase index script).
Proof.
  intros Hin Hphase w Hw. unfold runScript. apply advances_bind; [by apply within_gets|]. intros s w' [= <- <-].
  destruct (validateApprovedScript script) as [[]|e] eqn:Hvalid; [apply validated_version in Hvalid|by apply within_ret]. cbv zeta.
  set (path := path_join [directory; _]). apply advances_bind; [apply within_try; [apply within_on_os|done]|].
  intros stored w1 Hrun. pose proof (within_try _ (within_on_os (write_file path (s_Content script) 416)) w Hw) as Ha.
  rewrite Hrun in Ha. cbn [snd] in Ha. apply (proj1 (try_ok _ _ _ _)) in Hrun.
  assert (of_job w1) as Hw1 by (by eapply of_job_advances). destruct stored as [[]|e]; [|by apply within_ret].
  apply on_os_run in Hrun as (o & Hfile%write_file_ok & ->). pose proof (of_job_job w Hw) as Hj. pose proof (of_job_workspace w Hw) as Hws.
  set (limit := p_CommandTimeout _). set (timeout := if _ : bool then limit else _).
  assert (timeout ≤ p_CommandTimeout (j_Profile job)) as Ht.
  { subst timeout limit. rewrite Hj. destruct (_ || _) eqn:Et; [done|]. apply orb_false_iff in Et as [_ Et]. lia. }
  pose proof (runApprovedScript_advances (w_state w) Hws script path timeout Hin Hphase Hvalid Ht (set_os o w) Hw1 Hfile) as H2.
  change {| Path := _; Args := _; Dir := _; Env := _; Stdin := _; Timeout := _; Stdout := _; Stderr := _; Isolated := _ |}
    with (script_spec (w_state w) path timeout script).
  apply advances_bind; [exact H2|]. intros [result err] w2 Hr2. rewrite Hr2 in H2.
  apply (within_bind _ _ (within_try _ (within_on_os _))); [|by eapply of_job_advances].
  intros removed. destruct (errors_join _); apply within_ret.
Qed.

Lemma within_scripts_loop directory phase index scripts n :
  (∀ script, script ∈ scripts → script ∈ p_Scripts (j_Profile job)) → phase ∈ job_phases job →
  within (scripts_loop p directory phase index scripts n).
Proof.
  intros Hin Hphase. revert index n. induction scripts as [|script scripts IH]; intros index n; cbn [scripts_loop]; [apply within_ret|].
  destruct (negb (bool_decide (s_Phase script = phase))) eqn:Hp; [apply IH; set_solver|].
  apply negb_false_iff, bool_decide_eq_true in Hp.
  apply within_bind; [apply within_runScript; [set_solver|by rewrite Hp]|].
  intros [code [e|]]; [apply within_ret|]. apply IH. set_solver.
Qed.

Lemma within_the_state {A} (f : processState → M W A) :
  (∀ w, of_job w → within (f (w_state w))) → within (s ← the_state; f s).
Proof.
  intros Hf w Hw. apply advances_bind; [by apply within_gets|]. intros s w' [= <- <-]. by apply Hf.
Qed.
Lemma within_runScripts phase : phase ∈ job_phases job → within (runScripts p phase).
Proof.
  intros Hphase. apply within_the_state. intros w Hw. cbv zeta. rewrite (of_job_job w Hw).
  apply within_bind; [apply within_try, within_on_os|]. intros [u|e]; [|apply within_ret]. by apply within_scripts_loop.
Qed.

(** *** The other steps *)
Lemma within_copy input out_loc limit : within (copy_artifact input out_loc limit).
Proof.
  apply within_bind; [intros w _; apply advances_pulse|intros _]. apply within_bind; [apply within_gets|intros b].
  apply within_bind; [apply within_lift|intros _]. apply within_bind; [apply within_on_os|intros [data e]].
  apply within_bind; [case_bool_decide; [apply within_ret|apply within_on_os]|intros _].
  apply within_bind; [apply within_lift|intros _]. apply within_ret.
Qed.
Lemma within_finish_staging d max written copied closed : within (finish_staging d max written copied closed).
Proof.
  unfold finish_staging. destruct copied, closed; try (apply within_bind; [apply within_try, within_on_os|intros _; apply within_ret]).
  destruct (_ <? _); [|apply within_ret]. apply within_bind; [apply within_try, within_on_os|intros _; apply within_ret].
Qed.
Lemma within_stage root relative ws max : within (stageArtifact root relative ws max).
Proof.
  unfold stageArtifact. cbv zeta.
  do 3 (apply within_bind; [apply within_try, within_on_os|intros [?|?];
         [|first [apply within_ret|apply within_bind; [apply within_try, within_on_os|intros ?; apply within_ret]]]]).
  apply within_bind; [apply within_try, within_copy|intros copied]. apply within_bind; [apply within_gets|intros written].
  apply within_bind; [apply within_try, within_on_os|intros closed]. apply within_bind; [apply within_finish_staging|intros r].
  apply within_bind; [apply within_try, within_on_os|intros _; apply within_ret].
Qed.
Lemma within_validateArtifact : within validateArtifact.
Proof.
  apply within_the_state. intros w Hw. apply within_bind; [apply within_stage|]. intros [[[artifact digest] size] [e|]]; [apply within_ret|].
  cbv zeta. destruct (_ || _); [apply within_ret|]. apply within_bind; [by apply within_update|]. intros _. apply within_ret.
Qed.
Lemma within_extractArtifact : within (extractArtifact p).
Proof. apply within_the_state. intros w Hw. apply within_bind; [apply within_on_os|]. intros [r e]. apply within_ret. Qed.
Lemma within_add_destination d : within (add_destination d).
Proof. by apply within_update. Qed.
Lemma New_config up pem c (w : W) c' w' : New up pem c w = (Ok c', w') → c' = c.
Proof. unfold New, newClient. intros Hr. inv_run Hr. by injection Hr. Qed.
Lemma within_New up pem c : within (New up pem c).
Proof.
  unfold New, newClient. apply within_bind; [apply within_lift|intros _]. apply within_bind; [apply within_on_os|intros _].
  do 3 (apply within_bind; [apply within_lift|intros _]). apply within_ret.
Qed.
Lemma within_New_bind {A} up pem (f : RuntimeConfig → M W A) :
  within (f config) → within (client ← New up pem config; f client).
Proof.
  intros Hf w Hw. apply advances_bind; [by apply within_New|]. intros c w' Hr.
  pose proof (within_New up pem config w Hw) as Ha. rewrite Hr in Ha. apply New_config in Hr as ->.
  apply Hf. by eapply of_job_advances.
Qed.
Lemma within_inspectImages : within (inspectImages p).
Proof.
  apply within_simple, within_the_state. intros w Hw. cbv zeta. rewrite (of_job_job w Hw).
  apply within_bind; [apply within_on_os|intros release]. apply within_bind; [apply within_lift|intros _].
  apply within_bind; [apply within_on_os|intros images]. apply within_New_bind.
  apply within_bind.
  { apply within_update; [done|]. intros s Hj _ c [= <-]. cbn. by rewrite Hj. }
  intros _. apply within_bind; [|intros _; apply within_ret]. apply within_iter. intros image.
  apply within_bind; [apply within_lift|intros d]. apply within_bind; [apply within_add_destination|intros _].
  by apply within_record_image.
Qed.
Lemma the_runtime_run (w : W) c w' : the_runtime w = (Ok c, w') → w' = w ∧ ps_runtime (w_state w) = Some c.
Proof.
  unfold the_runtime, the_state. intros Hr. apply bindM_ok in Hr as (s & w1 & [= <- <-] & Hr).
  by apply liftM_ok in Hr as [Hr%of_option_ok ->].
Qed.
Lemma within_runtime {A} (f : RuntimeConfig → M W A) : within (f config) → within (c ← the_runtime; f c).
Proof.
  intros Hf w Hw. apply advances_bind.
  - apply (within_the_state (λ s, lift _)); [|done]. intros w1 _. apply within_lift.
  - intros c w' Hr. apply the_runtime_run in Hr as [-> Hr]. rewrite (oj_client w Hw c Hr), (of_job_job w Hw). by apply Hf.
Qed.
Lemma within_destination {A} i (f : string → M W A) : (∀ d, within (f d)) → within (d ← destination_at i; f d).
Proof. intros Hf. apply within_bind; [|done]. apply within_the_state. intros w _. apply within_lift. Qed.

Lemma within_loadImages : within (loadImages p).
Proof.
  apply within_simple, within_the_state. intros w Hw. apply within_bind; [|intros _; apply within_ret].
  apply within_iter. intros image. by apply within_runtime, within_Load.
Qed.
Lemma within_tagImages : within (tagImages p).
Proof.
  apply within_simple, within_the_state. intros w Hw. apply within_bind; [|intros _; apply within_ret].
  apply within_iter. intros [i image]. apply within_runtime, within_destination. intros d. by apply within_Tag.
Qed.
Lemma within_pushImages : within (pushImages p).
Proof.
  apply within_simple, within_the_state. intros w Hw. apply within_bind; [apply within_lift|intros cred].
  apply within_runtime. apply within_bind; [by apply within_Login|intros _]. apply within_bind; [apply within_lift|intros rc].
  apply within_bind; [|intros _; apply within_ret]. apply within_iter. intros [i image]. apply within_destination. intros d.
  apply within_bind; [by apply within_Push|intros _]. apply within_bind; [apply within_on_env|intros digest].
  by apply within_record_image.
Qed.
Lemma within_verify : within (verify p).
Proof.
  apply within_simple, within_the_state. intros w Hw. apply within_bind; [|intros _; apply within_ret].
  apply within_iter. intros [i check]. apply within_bind; [apply within_wrap, within_on_env|intros _]. apply within_print.
Qed.
Lemma within_rollback_image rc image : within (rollback_image p config rc image).
Proof.
  apply within_the_state. intros w Hw. cbv zeta.
  do 3 (apply within_bind; [apply within_lift|intros ?]). apply within_bind; [apply within_wrap, within_on_env|intros d].
  apply within_bind; [apply within_lift|intros _]. apply within_bind; [apply within_add_destination|intros _].
  apply within_bind; [by apply within_record_image|intros _]. apply within_print.
Qed.
Lemma within_validateRollbackSource : within (validateRollbackSource p).
Proof.
  apply within_simple, within_the_state. intros w Hw. cbv zeta. rewrite (of_job_job w Hw). apply within_New_bind.
  do 2 (apply within_bind; [apply within_lift|intros ?]).
  apply within_bind; [apply within_iter; intros image; apply within_rollback_image|intros _].
  apply within_the_state. intros w1 _. apply within_ret.
Qed.
Lemma within_deploy : bool_decide (j_Operation job = OperationRollback) = false → within (deploy p).
Proof.
  intros Hop. assert (∀ x, x ∈ ["DEPLOY"; "POST_DEPLOY"] → x ∈ job_phases job) as Hp.
  { unfold job_phases. rewrite Hop. intros x. rewrite !elem_of_cons. naive_solver. }
  apply within_bind; [apply within_runScripts, Hp; by repeat constructor|]. intros [r [e|]]; [apply within_ret|].
  apply within_bind; [apply within_runScripts, Hp; by repeat constructor|]. intros [r2 e]. apply within_ret.
Qed.

(** The steps of the job. *)
Definition job_steps : @step_list R E := if bool_decide (j_Operation job = OperationRollback) then rollback_steps p else deploy_steps p job.
Lemma job_steps_running : Forall (λ sf : JobStatus * M W outcome, Store.running sf.1 = true) job_steps.
Proof. unfold job_steps, deploy_steps. repeat case_match; repeat constructor. Qed.
Lemma within_steps : Forall (λ sf, within sf.2) job_steps.
Proof.
  unfold job_steps. destruct (bool_decide (j_Operation job = OperationRollback)) eqn:Hop.
  - unfold rollback_steps. rewrite !Forall_cons. split_and!; cbn [snd]; [apply within_validateRollbackSource| |apply within_verify|done].
    apply within_runScripts. unfold job_phases. rewrite Hop. by constructor.
  - unfold deploy_steps. rewrite !Forall_app, !Forall_cons. split_and!; cbn [snd]; try done.
    + apply within_validateArtifact.
    + destruct (_ && _); [|done]. rewrite Forall_cons. split; [|done]. apply within_runScripts. unfold job_phases. rewrite Hop. by constructor.
    + apply within_extractArtifact.
    + apply within_inspectImages.
    + apply within_loadImages.
    + apply within_tagImages.
    + apply within_pushImages.
    + by apply within_deploy.
    + apply within_verify.
Qed.
End frame.
