(* ===== verification/PipelineProofs.v ===== *)
(** * What a job does (runner/internal/pipeline/pipeline.go)

    The calls of [Process] to the repository follow the plan of the job and end
    with exactly one final status; the commands it starts are approved scripts
    of the job or the profile's container runtime. *)
From S2P Require Import Prelude GoIO GoString GoPath OS Model Archive Secrets Command Wire Socket Files.
From S2P Require Import Encoding Sha256 Crypto Manifest Health Runtime Registry Redact Logstream World Pipeline Frame.

(** ** The calls that matter for the protocol *)
Definition major (e : event) : bool :=
  match e with EvBegin _ _ | EvFinishStep _ _ _ _ | EvFinishJob _ _ _ _ => true | _ => false end.
Definition minor (e : event) : Prop := major e = false.
Definition majors (tr : list event) : list event := filter (λ e, major e = true) tr.

(** The steps of a job, as their statuses. *)
Definition plan (job : Job) : list JobStatus :=
  if bool_decide (j_Operation job = OperationRollback) then [StatusValidating; StatusRollback; StatusVerifying]
  else [StatusValidating]
       ++ (if bool_decide (j_Operation job = OperationDeploy) && hasPhase (p_Scripts (j_Profile job)) "PRE_DEPLOY" then [StatusPreCheck] else [])
       ++ [StatusExtracting; StatusImageInspect; StatusImageLoad; StatusImageTag; StatusImagePush; StatusDeploying; StatusVerifying].

(** The calls for a list of steps: each step is begun and finished, with the
    step its beginning returned; the first that is not begun, does not succeed
    or is not recorded ends the list.  The flag: all steps succeeded. *)
Inductive plan_trace : list JobStatus → list event → bool → Prop :=
  | pt_done : plan_trace [] [] true
  | pt_not_begun s ss : plan_trace (s :: ss) [EvBegin s None] false
  | pt_failed s ss step success r accepted : success && accepted = false →
      plan_trace (s :: ss) [EvBegin s (Some step); EvFinishStep step success r accepted] false
  | pt_step s ss step r tr b : plan_trace ss tr b →
      plan_trace (s :: ss) (EvBegin s (Some step) :: EvFinishStep step true r true :: tr) b.

Lemma majors_app t1 t2 : majors (t1 ++ t2) = majors t1 ++ majors t2.
Proof. apply filter_app. Qed.
Lemma majors_minor tr : Forall minor tr → majors tr = [].
Proof. intros Ht. apply list_filter_none. eapply Forall_impl; [exact Ht|]. intros e. unfold minor. by intros ->. Qed.
Lemma quiet_minor e : quiet e → minor e.
Proof. by destruct e. Qed.

Section proofs.
Context {R E : Type} `{Repository R}.
Notation W := (world R E).

(** The new events of a computation, seen as the protocol sees them. *)
Definition calls (w w' : W) (tr : list event) : Prop := ∃ new, w_trace w' = w_trace w ++ new ∧ majors new = tr.
Lemma calls_trans w1 w2 w3 t1 t2 : calls w1 w2 t1 → calls w2 w3 t2 → calls w1 w3 (t1 ++ t2).
Proof.
  intros (n1 & E1 & <-) (n2 & E2 & <-). exists (n1 ++ n2). rewrite E2, E1, (assoc_L (++)). split; [done|apply majors_app].
Qed.
Notation nothing := (λ _ : R, True).
Lemma calls_minor w w' : advances minor nothing w w' → calls w w' [].
Proof. intros [[(n & En & Hn) _ _ _] _]. exists n. split; [done|by apply majors_minor]. Qed.
Lemma calls_same w w' : w_trace w' = w_trace w → calls w w' [].
Proof. intros Ht. exists []. by rewrite Ht, app_nil_r. Qed.

Lemma signals_state l (w : W) : w_state (foldl on_signal w l) = w_state w.
Proof.
  revert w. induction l as [|s l IH]; intros w; [done|]. cbn. rewrite IH. unfold on_signal, heartbeat_tick.
  destruct s, (w_heartbeat w); try done; destruct (w_cancelled w); try done. by destruct (Heartbeat _ _) as [[] ?].
Qed.
Lemma pulse_run (w : W) x w' : pulse w = (x, w') → x = Ok () ∧ calls w w' [] ∧ w_state w' = w_state w.
Proof.
  intros Ep. pose proof (advances_pulse minor quiet_minor nothing keeps_nothing w) as Ha. rewrite Ep in Ha.
  split; [unfold pulse in Ep; destruct (w_signals w); congruence|]. split; [by apply calls_minor|].
  unfold pulse in Ep. destruct (w_signals w); injection Ep as <- <-; [done|]. by rewrite signals_state.
Qed.

Lemma repo_call_calls {A} bound (m : M R A) ev (w : W) r w' :
  (∀ x, major (ev x) = true) → repo_call bound m ev w = (r, w') → calls w w' [ev r] ∧ w_state w' = w_state w.
Proof.
  intros Hev Hr. unfold repo_call, mbind, M_bind in Hr. destruct (pulse w) as [x w1] eqn:Ep.
  apply pulse_run in Ep as (-> & Hc & Hs). cbv beta zeta in Hr.
  match type of Hr with (let '(_, _) := ?m in _) = _ => destruct m as [r0 s] eqn:Er end.
  injection Hr as <- <-. split; [|done]. apply (calls_trans _ w1 _ [] _ Hc). exists [ev r0]. split; [done|].
  unfold majors. rewrite filter_cons_True by apply Hev. done.
Qed.

(** ** One step *)
Context (p : Processor R E) `{!LawfulExecutor (executor p)} `{ErrorText}.
Context (job : Job) (settings : Settings) (workspace transient : string).
Notation of_job := (of_job (R := R) (E := E) job settings workspace transient).
Notation within := (within (R := R) (E := E) minor nothing job settings workspace transient).

(** How a step is recorded: with success exactly if its function returned no
    error and neither of its log writers lost output, and with the exit code and
    the metadata its function returned; a returned result is changed only where a
    failure has no message yet, and becomes that message. *)
Record records (returned : result outcome) (w : W) (ran : bool) (recorded : StepResult) : Prop := {
  rc_ran : ran = true ↔ (∃ r, returned = Ok (r, None)) ∧ Writer_Err (w_out w) = None ∧ Writer_Err (w_err w) = None;
  rc_result r e : returned = Ok (r, e) → sr_ExitCode recorded = sr_ExitCode r ∧ sr_Metadata recorded = sr_Metadata r
    ∧ (ran = true ∨ is_empty (sr_Message r) = false → recorded = r)
}.

(** The run of a step, from world to world: the step is begun, its logs are
    opened, its function runs, and what it returned is recorded.  The flag: it
    succeeded and that was recorded. *)
Inductive step_run (status : JobStatus) (fn : M W outcome) (w : W) : list event → bool → W → Prop :=
  | sr_not_begun e w' :
      begin_step (j_ID job) status w = (Err e, w') → step_run status fn w [EvBegin status None] false w'
  | sr_finished step w1 w2 returned w3 ran recorded finished w' :
      begin_step (j_ID job) status w = (Ok step, w1) → open_logs step w1 = (Ok (), w2) → fn w2 = (returned, w3) →
      records returned w3 ran recorded → finish_step step ran recorded w3 = (finished, w') →
      step_run status fn w [EvBegin status (Some step); EvFinishStep step ran recorded (is_ok finished)] (ran && is_ok finished) w'.

(** The run of the steps, each from where the one before it ended, until one
    fails. *)
Inductive steps_run : step_list → W → list event → bool → W → Prop :=
  | sn_done w : steps_run [] w [] true w
  | sn_failed status fn rest w tr w' : step_run status fn w tr false w' → steps_run ((status, fn) :: rest) w tr false w'
  | sn_step status fn rest w tr1 w1 tr2 b w' :
      step_run status fn w tr1 true w1 → steps_run rest w1 tr2 b w' → steps_run ((status, fn) :: rest) w (tr1 ++ tr2) b w'.

Lemma records_outcome returned w result runErr :
  step_outcome (step_return returned) (Writer_Err (w_out w)) (Writer_Err (w_err w)) = (result, runErr) →
  records returned w (is_nil runErr) result.
Proof.
  unfold step_outcome. intros Ho. split.
  - destruct returned as [[r [e|]]|e], (Writer_Err (w_out w)), (Writer_Err (w_err w)); injection Ho as <- <-; cbn; naive_solver.
  - intros r e ->. cbn in Ho. destruct (match errors_join _ with Some _ => _ | None => _ end); injection Ho as <- <-; [|done].
    destruct (is_empty (sr_Message r)) eqn:Em; [|done]. split_and!; [done..|]. intros [?|?]; done.
Qed.
Lemma steps_run_plan steps w tr b w' : steps_run steps w tr b w' → plan_trace (fst <$> steps) tr b.
Proof.
  induction 1 as [|status fn rest w tr w' Hs|status fn rest w tr1 w1 tr2 b w' Hs _ IH]; cbn [fmap list_fmap fst]; [constructor|..].
  - remember false as b eqn:Hb. destruct Hs; [by apply pt_not_begun|rewrite Hb; by apply pt_failed].
  - remember true as ok eqn:Hok. destruct Hs; [done|]. apply andb_true_iff in Hok as [-> ->]. by apply pt_step.
Qed.

Lemma of_job_same w w' : w_state w' = w_state w → of_job w → of_job w'.
Proof. intros Hs [Hf Hc]. split; [by rewrite Hs|by rewrite Hs]. Qed.

Lemma the_state_bind {A} (f : processState → M W A) (w : W) x : (the_state ≫= f) w = x → f (w_state w) w = x.
Proof. done. Qed.
Lemma gets_bind {A B} (g : W → A) (f : A → M W B) (w : W) x : (gets g ≫= f) w = x → f (g w) w = x.
Proof. done. Qed.
Lemma modify_bind {B} (g : W → W) (f : unit → M W B) (w : W) x : (modify g ≫= f) w = x → f () (g w) = x.
Proof. done. Qed.

Lemma withStep_calls status fn w r w' :
  within fn → of_job w → withStep status fn w = (r, w') →
  of_job w' ∧ ∃ tr, calls w w' tr ∧ step_run status fn w tr (is_ok r) w'.
Proof.
  intros Hfn Hw Hr. unfold withStep in Hr. apply the_state_bind in Hr. unfold mbind at 1, M_bind at 1 in Hr.
  rewrite (of_job_job _ _ _ _ _ Hw) in Hr. destruct (begin_step _ status w) as [begun w1] eqn:Eb.
  pose proof Eb as Hbegun. apply repo_call_calls in Eb as [Hb Hs1]; [|done]. pose proof (of_job_same _ _ Hs1 Hw) as Hw1.
  destruct begun as [step|e]; [|injection Hr as <- <-; split; [done|]; eexists; split; [exact Hb|by econstructor]].
  apply modify_bind in Hr. set (w2 := set_logs _ _ _ w1) in Hr. assert (of_job w2) as Hw2 by (by apply (of_job_same w1)).
  assert (calls w1 w2 []) as Hc2 by (by apply calls_same). assert (open_logs step w1 = (Ok (), w2)) as Hopen by done. clearbody w2.
  unfold mbind at 1, M_bind at 1, try at 1 in Hr. pose proof (Hfn w2 Hw2) as Ha. destruct (fn w2) as [o w3] eqn:Efn; cbn [snd] in Ha.
  pose proof (of_job_advances minor nothing job settings workspace transient _ _ Ha Hw2) as Hw3. apply calls_minor in Ha.
  do 2 apply gets_bind in Hr. destruct (step_outcome _ _ _) as [result runErr] eqn:Ho. apply records_outcome in Ho.
  unfold mbind at 1, M_bind at 1, try at 1 in Hr. destruct (finish_step step (is_nil runErr) result w3) as [finished w4] eqn:Ef.
  pose proof Ef as Hfinished. apply repo_call_calls in Ef as [Hf Hs4]; [|done]. injection Hr as <- <-. split; [by apply (of_job_same w3)|].
  eexists. split; [exact (calls_trans _ _ _ _ _ Hb (calls_trans _ _ _ _ _ Hc2 (calls_trans _ _ _ _ _ Ha Hf)))|].
  pose proof (sr_finished _ _ _ _ _ _ _ _ _ _ _ _ Hbegun Hopen Efn Ho Hfinished) as Hrun. by destruct runErr, finished.
Qed.

Lemma run_steps_calls (steps : @step_list R E) : ∀ w r w',
  Forall (λ sf, within sf.2) steps → of_job w → run_steps steps w = (r, w') →
  of_job w' ∧ ∃ tr, calls w w' tr ∧ steps_run steps w tr (is_ok r) w'.
Proof.
  induction steps as [|[status fn] steps IH]; intros w r w' Hin Hw Hr.
  - injection Hr as <- <-. split; [done|]. exists []. split; [by apply calls_same|constructor].
  - apply Forall_cons in Hin as [Hfn Hin]. unfold run_steps in Hr. cbn [iterM] in Hr. unfold mbind, M_bind, wrapM in Hr.
    destruct (withStep status fn w) as [r1 w1] eqn:Es. apply (withStep_calls _ _ _ _ _ Hfn Hw) in Es as [Hw1 (tr & Hc & Hs)].
    destruct r1 as [[]|e]; cbn [map_err] in Hr.
    + apply IH in Hr as [Hw' (tr' & Hc' & Hp)]; [|done..]. split; [done|]. eexists. split; [by eapply calls_trans|].
      by econstructor.
    + injection Hr as <- <-. split; [done|]. exists tr. split; [done|]. by constructor.
Qed.

Lemma job_steps_plan : fst <$> job_steps job p = plan job.
Proof.
  unfold job_steps, plan, deploy_steps. destruct (bool_decide (j_Operation job = OperationRollback)); [done|].
  by destruct (_ && _).
Qed.
Lemma run_is_steps w : of_job w → run p w = run_steps (job_steps job p) w.
Proof.
  intros Hw. unfold run, job_steps. rewrite <- (of_job_job _ _ _ _ _ Hw). unfold mbind, M_bind, the_state, gets.
  by destruct (bool_decide _).
Qed.
Lemma steps_within_minor : Forall (λ sf, within sf.2) (job_steps job p).
Proof. by apply within_steps; [exact quiet_minor|exact keeps_nothing|..]. Qed.

(** ** The body of a job *)
Lemma on_os_calls {A} (m : M os A) w r w' : on_os m w = (r, w') → calls w w' [] ∧ w_state w' = w_state w.
Proof. unfold on_os. destruct (m (get_os w)) as [x o]. intros [= <- <-]. split; [by apply calls_same|done]. Qed.

(** The final status that a job may get when its steps succeeded or not. *)
Definition final_status (job : Job) (success : bool) (status : JobStatus) (failure : string) : Prop :=
  status = StatusFailed ∨ (status = terminal_status job ∧ success = true ∧ failure = "").

Lemma terminal_not_failed : terminal_status job ≠ StatusFailed.
Proof. unfold terminal_status. by case_bool_decide. Qed.

Lemma process_body_calls transient' w r w' :
  of_job w → process_body p job transient' w = (r, w') →
  ∃ steps success status failure accepted w1,
    calls w w' (steps ++ [EvFinishJob (j_ID job) status failure accepted])
    ∧ steps_run (job_steps job p) w steps success w1 ∧ final_status job success status failure
    ∧ is_ok r = bool_decide (status = terminal_status job) && accepted.
Proof.
  intros Hw Hr. unfold process_body in Hr. unfold mbind at 1, M_bind at 1, try at 1 in Hr.
  destruct (run p w) as [ran w1] eqn:Erun. rewrite (run_is_steps w Hw) in Erun.
  apply run_steps_calls in Erun as [Hw1 (steps & Hc1 & Hp)]; [|apply steps_within_minor|done].
  unfold mbind at 1, M_bind at 1 in Hr. destruct (pulse w1) as [x w2] eqn:Ep. apply pulse_run in Ep as (-> & Hc2 & _).
  apply gets_bind in Hr. set (runErr := match w_heartbeat w2 with HbSent _ => _ | _ => _ end) in Hr.
  assert (runErr = None → is_ok ran = true) as Hnone.
  { subst runErr. destruct (w_heartbeat w2); [by destruct ran..|]. destruct (errors_is _ _); by destruct ran. }
  clearbody runErr. unfold mbind at 1, M_bind at 1, try at 1 in Hr.
  destruct (on_os _ w2) as [cleaned w3] eqn:Eo. apply on_os_calls in Eo as [Hc3 _].
  set (runErr2 := match cleaned with Ok _ => _ | Err _ => _ end) in Hr.
  assert (runErr2 = None → runErr = None) as Hnone2 by (by destruct cleaned, runErr).
  clearbody runErr2. pose proof (calls_trans _ _ _ _ _ Hc1 (calls_trans _ _ _ _ _ Hc2 Hc3)) as Hc. rewrite app_nil_r in Hc.
  assert (bool_decide (StatusFailed = terminal_status job) = false) as Hne.
  { apply bool_decide_eq_false. apply not_eq_sym, terminal_not_failed. }
  destruct runErr2 as [e|].
  - unfold mbind at 1, M_bind at 1, try at 1 in Hr. destruct (finish_job _ _ _ w3) as [finished w4] eqn:Ef.
    apply repo_call_calls in Ef as [Hf _]; [|done]. exists steps, (is_ok ran), StatusFailed. eexists _, (is_ok finished), w1.
    destruct finished; injection Hr as <- <-;
      (split; [by eapply calls_trans|split; [done|split; [by left|by rewrite Hne]]]).
  - apply repo_call_calls in Hr as [Hf _]; [|done]. exists steps, (is_ok ran), (terminal_status job), "", (is_ok r), w1.
    split; [by eapply calls_trans|]. split; [done|]. split; [right; split_and!; auto|]. by rewrite bool_decide_true.
Qed.
End proofs.

(** ** Everything a job does, under a predicate on its events *)
Section everything.
Context {R E : Type} `{Repository R}.
Notation W := (world R E).
Context (ok : event → Prop) (Hquiet : ∀ e, quiet e → ok e).
Context (keep : R → Prop) (Hkeep : keeps keep).

Lemma advances_finishFailure `{ErrorText} id (Hfinish : ∀ a b c d, ok (EvFinishJob a b c d)) cause (w : W) :
  advances ok keep w (finishFailure id cause w).2.
Proof.
  unfold finishFailure. apply advances_bind; [|intros; by apply advances_same].
  unfold try. pose proof (advances_repo_call ok Hquiet keep Hkeep false (FinishJob id StatusFailed (truncate (error_text cause) 4000))
    (λ r, EvFinishJob id StatusFailed (truncate (error_text cause) 4000) (is_ok r)) w
    (λ s, keeps_finish _ Hkeep _ _ _ s) (λ r, Hfinish _ _ _ _)) as Ha.
  unfold finish_job. by destruct (repo_call _ _ _ w).
Qed.
Lemma advances_stop (w : W) : advances ok keep w (stop_heartbeat w).2.
Proof.
  unfold stop_heartbeat. apply advances_bind; [by apply advances_same|]. intros [] w1 _.
  apply advances_bind; [by apply advances_pulse|]. intros [] w2 _. by apply advances_same.
Qed.

Context (p : Processor R E) `{!LawfulExecutor (executor p)} `{ErrorText}.
Context (job : Job) (settings : Settings) (workspace transient : string).
Context (Himage : ∀ i b, ok (EvImage i b)).
Context (Hclient : ∀ i, ri_Isolated i = false → ri_Path i = BinaryPath (p_Runtime (j_Profile job)) → ok (EvRun i)).
Context (Hscript : ∀ i, approved_run job workspace i → ok (EvRun i)).
Context (Hmajor : ∀ e, major e = true → ok e).
Notation within := (within (R := R) (E := E) ok keep job settings workspace transient).

Lemma within_major_call {A} bound (m : M R A) ev :
  (∀ s, keep s → keep (m s).2) → (∀ r, major (ev r) = true) → within (repo_call bound m ev).
Proof. intros Hm Hev w _. apply advances_repo_call; [done..|]. intros r. by apply Hmajor. Qed.
Lemma within_finish_job id status failure : within (finish_job id status failure).
Proof. apply within_major_call; [intros s; by apply keeps_finish|done]. Qed.
Lemma within_withStep status fn : Store.running status = true → within fn → within (withStep status fn).
Proof.
  intros Hrun Hfn. apply within_the_state. intros w Hw.
  apply within_bind; [apply within_major_call; [intros s; by apply keeps_begin|done]|intros step].
  apply within_bind; [intros w1 _; by apply advances_same|intros _]. apply within_bind; [by apply within_try|intros o].
  do 2 (apply within_bind; [apply within_gets|intros ?]). destruct (step_outcome _ _ _) as [result runErr].
  apply within_bind; [apply within_try, within_major_call; [intros s; by apply keeps_finish_step|done]|intros finished]. apply within_lift.
Qed.
Lemma within_run_steps steps :
  Forall (λ sf, Store.running sf.1 = true) steps → Forall (λ sf, within sf.2) steps → within (run_steps steps).
Proof.
  intros Hrun. induction 1 as [|[status fn] steps Hfn _ IH]; [apply within_ret|]. apply Forall_cons in Hrun as [Hr Hrun].
  apply within_bind; [by apply within_wrap, within_withStep|intros _; by apply IH].
Qed.
Lemma within_process_body tr : within (process_body p job tr).
Proof.
  unfold process_body. apply within_bind.
  { apply within_try. intros w Hw. rewrite (run_is_steps p job settings workspace transient w Hw).
    apply within_run_steps; [apply job_steps_running|by apply within_steps|done]. }
  intros ran. apply within_bind; [intros w _; by apply advances_pulse|intros _]. apply within_bind; [apply within_gets|intros hb].
  apply within_bind; [apply within_try, within_on_os|intros cleaned]. 
  destruct (match cleaned with Ok _ => _ | Err _ => _ end) as [e|]; [|apply within_finish_job].
  apply within_bind; [apply within_try, within_finish_job|]. intros [u|f]; [apply within_throw|apply within_lift].
Qed.
End everything.

Section process.
Context {R E : Type} `{Repository R}.
Notation W := (world R E).
Notation nothing := (λ _ : R, True).
Context (p : Processor R E) `{!LawfulExecutor (executor p)} `{ErrorText}.
Context (settings : Settings) (job : Job).

(** The two ways through [Process]: an early failure that is only reported, or
    the body of the job with its clean-up. *)
(** Nothing outside the process has been called yet. *)
Definition untouched (w w1 : W) : Prop :=
  w_trace w1 = w_trace w ∧ w_repo w1 = w_repo w ∧ w_signals w1 = w_signals w ∧ w_stopped w1 = w_stopped w.

Inductive process_run (w : W) (r : result unit) (w' : W) : Prop :=
  | early_failure w1 cause e :
      untouched w w1 → finishFailure (j_ID job) cause w1 = (Ok (), w') → r = Err e → w_heartbeat w1 = w_heartbeat w → process_run w r w'
  | full_run workspace transient w1 ran w2 w3 :
      validateOperation job = Ok () → untouched w w1 → of_job job settings workspace transient w1 →
      process_body p job transient w1 = (ran, w2) → stop_heartbeat w2 = (Ok (), w3) →
      process_cleanup p settings job workspace ran w3 = (r, w') → process_run w r w'.

Lemma finishFailure_returns cause (w : W) : ∃ w', finishFailure (j_ID job) cause w = (Ok (), w').
Proof. unfold finishFailure, mbind, M_bind, try. destruct (finish_job _ _ _ w) as [x w1]. by eexists. Qed.
Lemma stop_returns (w : W) : ∃ w', stop_heartbeat w = (Ok (), w') ∧ calls w w' [].
Proof.
  unfold stop_heartbeat. unfold mbind at 1, M_bind at 1, modify at 1. unfold mbind, M_bind.
  destruct (pulse (cancel w)) as [x w1] eqn:Ep. apply pulse_run in Ep as (-> & Hc & _). eexists. split; [reflexivity|].
  destruct Hc as (n & En & Hn). by exists n.
Qed.

Lemma initial_of_job (w : W) workspace transient :
  w_state w = initial_state settings job workspace transient → of_job job settings workspace transient w.
Proof. intros Hs. split; rewrite Hs; [done|]. by intros c. Qed.

Lemma on_os_try {A B} (m : M os A) (f : result A → M W B) w x :
  (try (on_os m) ≫= f) w = x → ∃ o, f (m (w_os w)).1 (set_os o w) = x ∧ o = (m (w_os w)).2.
Proof. unfold mbind, M_bind, try, on_os. cbn. destruct (m (w_os w)) as [y o]. by exists o. Qed.

Lemma fail_return cause e (w w' : W) r :
  (_ ← finishFailure (j_ID job) cause; throw e : M W unit) w = (r, w') → finishFailure (j_ID job) cause w = (Ok (), w') ∧ r = Err e.
Proof.
  destruct (finishFailure_returns cause w) as [w1 Hf]. unfold mbind, M_bind. rewrite Hf. by intros [= <- <-].
Qed.

Lemma Process_cases randoms w r w' : Process p randoms settings (Some job) w = (r, w') → process_run w r w'.
Proof.
  intros Hr. unfold Process in Hr. destruct (validateOperation job) as [[]|e] eqn:Hv.
  2: { apply fail_return in Hr as [Hf ->]. by eapply early_failure. }
  apply on_os_try in Hr as (o & Hr & _). destruct (createWorkspace _ _ _ _).1 as [workspace|e].
  2: { apply fail_return in Hr as [Hf ->]. by eapply early_failure; [|exact Hf|..]. }
  apply on_os_try in Hr as (o2 & Hr & _). destruct (CreateCredentialJobDirectory _ _ _).1 as [transient|e].
  2: { apply on_os_try in Hr as (o3 & Hr & _). apply fail_return in Hr as [Hf ->]. by eapply early_failure; [|exact Hf|..]. }
  do 3 apply modify_bind in Hr. set (w1 := set_heartbeat _ _) in Hr.
  unfold mbind at 1, M_bind at 1, try at 1 in Hr. destruct (process_body p job transient w1) as [ran w2] eqn:Eb.
  unfold mbind at 1, M_bind at 1 in Hr. destruct (stop_returns w2) as (w3 & Hs & _). rewrite Hs in Hr.
  eapply full_run; [done| | |exact Eb|exact Hs|exact Hr]; [done|]. by apply initial_of_job.
Qed.

Lemma cleanup_names_same workspace names (w : W) :
  ∃ o, iterM (λ name, _ ← try (on_os (remove_all (path_join [workspace; name]))); mret ()) names w = (Ok (), set_os o w).
Proof.
  revert w. induction names as [|x names IH]; intros w; [by exists (w_os w); destruct w|]. cbn [iterM].
  unfold mbind at 1, M_bind at 1, mbind at 1, M_bind at 1, try at 1, on_os at 1. destruct (remove_all _ _) as [y o].
  destruct (IH (set_os o w)) as [o' Ho']. exists o'. exact Ho'.
Qed.
Lemma process_cleanup_run workspace ran (w : W) r w' :
  process_cleanup p settings job workspace ran w = (r, w') → (∃ o, w' = set_os o w) ∧ (is_ok r = true → is_ok ran = true).
Proof.
  intros Hr. unfold process_cleanup in Hr. apply on_os_try in Hr as (o & Hr & _).
  set (removed := (RemoveCredentialJobDirectory _ _ _).1) in Hr. set (returnErr := match removed with Ok _ => _ | Err _ => _ end) in Hr.
  assert (returnErr = None → is_ok ran = true) as Hret by (by destruct removed, ran). clearbody returnErr.
  destruct (cleanup_names_same workspace [".containerd-hosts"; ".registry-certs"; ".runtime-auth"; CredentialDirectory; ExecutorCredentialDirectory]
              (set_os o w)) as [o2 Ho2].
  unfold mbind at 1, M_bind at 1 in Hr. rewrite Ho2 in Hr. destruct (shouldCleanup _ _).
  - apply on_os_try in Hr as (o3 & Hr & _). injection Hr as <- <-. split; [by eexists|].
    destruct (cleanupWorkspace _ _ _).1; destruct returnErr; auto; done.
  - injection Hr as <- <-. split; [by eexists|]. destruct returnErr; auto; done.
Qed.

(** C11: a job follows its plan.  The calls about its steps and its status are
    those of a prefix of the plan of its operation, and then exactly one final
    status, which is the successful one only if every step of the plan
    succeeded; [Process] returns without an error only if that status was
    accepted.  The steps run one from where the other ended, nothing of the job
    outside the process having been done before the first: each is begun, its
    function runs, and it is recorded as successful exactly if the function
    returned no error and no output of it was lost, with the exit code and the
    metadata the function returned; the first that is not begun, fails or is not
    recorded is the last. *)
Theorem job_follows_its_plan randoms w r w' :
  Process p randoms settings (Some job) w = (r, w') →
  ∃ new steps success status failure accepted,
    w_trace w' = w_trace w ++ new
    ∧ majors new = steps ++ [EvFinishJob (j_ID job) status failure accepted]
    ∧ ((steps = [] ∧ success = false)
       ∨ plan_trace (plan job) steps success
         ∧ ∃ workspace transient w1 w2, of_job job settings workspace transient w1 ∧ untouched w w1
             ∧ steps_run job (job_steps job p) w1 steps success w2)
    ∧ final_status job success status failure
    ∧ (is_ok r = true → status = terminal_status job ∧ accepted = true).
Proof.
  intros Hr%Process_cases. destruct Hr as [w1 cause e (Ht & _) Hf ->|workspace transient w1 ran w2 w3 _ Hsame Hw1 Hb Hs Hr].
  - unfold finishFailure, mbind, M_bind, try in Hf. destruct (finish_job _ _ _ w1) as [x w2] eqn:Ej. injection Hf as ->.
    apply repo_call_calls in Ej as [(n & En & Hn) _]; [|done]. rewrite Ht in En.
    eexists n, [], false, StatusFailed, _, _. split_and!; [exact En|exact Hn|by left|by left|done].
  - apply (process_body_calls p job settings workspace transient) in Hb
      as (steps & success & status & failure & accepted & w4 & (n & En & Hn) & Hp & Hfin & Hran); [|done].
    pose proof Hsame as (Ht & _).
    destruct (stop_returns w2) as (w3' & Hs' & (n2 & En2 & Hn2)). rewrite Hs in Hs'. injection Hs' as <-.
    apply process_cleanup_run in Hr as [[o ->] Hok]. exists (n ++ n2), steps, success, status, failure, accepted.
    split; [cbn; by rewrite En2, En, Ht, (assoc_L (++))|]. split; [by rewrite majors_app, Hn, Hn2, app_nil_r|].
    split; [right; split; [rewrite <- (job_steps_plan p); by eapply steps_run_plan|by eexists workspace, transient, w1, w4]|].
    split; [done|]. intros H1%Hok. rewrite Hran in H1. apply andb_true_iff in H1 as [H1 ->].
    by apply bool_decide_eq_true in H1.
Qed.

(** What the repository's calls keep, a job keeps; the signals of its time are
    handled. *)
Lemma Process_effects keep randoms (w : W) :
  keeps keep → let w' := (Process p randoms settings (Some job) w).2 in (keep (w_repo w) → keep (w_repo w')) ∧ heard w w'.
Proof.
  intros Hkeep. cbv zeta. destruct (Process _ _ _ _ w) as [r w'] eqn:Hr. cbn [snd].
  apply Process_cases in Hr as [w1 cause e Hsame Hf ->|workspace transient w1 ran w2 w3 _ Hsame Hw1 Hb Hs Hr];
    destruct Hsame as (_ & <- & Hg1 & Hp1); pose proof (heard_same w w1 Hg1 Hp1) as Hg.
  - pose proof (advances_finishFailure (λ _, True) (λ _ _, I) keep Hkeep (j_ID job) (λ _ _ _ _, I) cause w1) as [[_ _ _ Hk] Hg2].
    rewrite Hf in Hk, Hg2. split; [done|by etrans].
  - pose proof (within_process_body (λ _, True) (λ _ _, I) keep Hkeep p job settings workspace transient (λ _ _, I)
                  (λ _ _ _, I) (λ _ _, I) (λ _ _, I) transient w1 Hw1) as [[_ _ _ Hk] Hg2]. rewrite Hb in Hk, Hg2.
    pose proof (advances_stop (λ _, True) (λ _ _, I) keep Hkeep w2) as [[_ _ _ Hk2] Hg3]. rewrite Hs in Hk2, Hg3.
    apply process_cleanup_run in Hr as [[o ->] _]. split; [by intros Hw; apply Hk2, Hk|]. by do 2 (etrans; [eassumption|]).
Qed.
(** The heartbeat of a job ends with it. *)
Lemma pulse_idle (w : W) x w' : w_heartbeat w = HbIdle → pulse w = (x, w') → w_heartbeat w' = HbIdle.
Proof.
  unfold pulse. intros Hw. destruct (w_signals w) as [|l rest]; intros [= _ <-]; [done|].
  assert (w_heartbeat (set_signals rest w) = HbIdle) as Hi by done. revert Hi. generalize (set_signals rest w) as v.
  induction l as [|s l IH]; intros v Hv; [done|]. cbn. apply IH. unfold on_signal. rewrite Hv. by destruct s.
Qed.
Lemma Process_idle randoms (w : W) :
  w_heartbeat w = HbIdle → w_heartbeat (Process p randoms settings (Some job) w).2 = HbIdle.
Proof.
  intros Hw. destruct (Process _ _ _ _ w) as [r w'] eqn:Hr. cbn [snd].
  apply Process_cases in Hr as [w1 cause e _ Hf _ Hi|workspace transient w1 ran w2 w3 _ _ _ _ Hs Hr].
  - unfold finishFailure, finish_job, repo_call, mbind, M_bind, try in Hf. destruct (pulse w1) as [[[]|x] w2] eqn:Ep;
      apply pulse_idle in Ep; [|by rewrite Hi| |by rewrite Hi]; [|by injection Hf as <-].
    destruct (if _ : bool then _ else _) as [y s]. by injection Hf as <-.
  - unfold stop_heartbeat, mbind, M_bind, modify in Hs. destruct (pulse _) as [[[]|x] w4]; [|done]. injection Hs as <-.
    by apply process_cleanup_run in Hr as [[o ->] _].
Qed.
Lemma Process_keeps keep randoms (w : W) :
  keeps keep → keep (w_repo w) → keep (w_repo (Process p randoms settings (Some job) w).2).
Proof. intros Hkeep. by apply Process_effects. Qed.
Lemma Process_heard randoms (w : W) : heard w (Process p randoms settings (Some job) w).2.
Proof. apply (Process_effects (λ _, True)), keeps_nothing. Qed.

Definition allowed (workspace : string) (e : event) : Prop :=
  match e with
  | EvRun i => approved_run job workspace i ∨ (ri_Isolated i = false ∧ ri_Path i = BinaryPath (p_Runtime (j_Profile job)))
  | _ => True
  end.
Lemma allowed_quiet workspace e : quiet e → allowed workspace e.
Proof. by destruct e. Qed.
Lemma allowed_major workspace e : major e = true → allowed workspace e.
Proof. by destruct e. Qed.

(** C12: the commands of a job.  Every command a job starts is either the container
    runtime of the job's profile, or an approved script of the job: a script of
    the profile for a phase of the operation that has an identifier, a version
    and an approval time and whose content has the SHA-256 it was approved with,
    run isolated by its interpreter, an absolute path, on a file with exactly
    that content, with the approved arguments, none of which holds a NUL, in the
    workspace, within the profile's time limit and with only the variables the
    isolated executor accepts. *)
Theorem job_runs_only_approved_commands randoms w r w' :
  Process p randoms settings (Some job) w = (r, w') →
  ∃ new, w_trace w' = w_trace w ++ new ∧
    ∃ workspace, ∀ i, EvRun i ∈ new →
      approved_run job workspace i ∨ (ri_Isolated i = false ∧ ri_Path i = BinaryPath (p_Runtime (j_Profile job))).
Proof.
  intros Hr%Process_cases. destruct Hr as [w1 cause e (Ht & _) Hf ->|workspace transient w1 ran w2 w3 _ (Ht & _) Hw1 Hb Hs Hr].
  - pose proof (advances_finishFailure (allowed "") (allowed_quiet "") nothing keeps_nothing (j_ID job) (λ _ _ _ _, I) cause w1) as [[(n & En & Hn) _ _ _] _].
    rewrite Hf in En. rewrite Ht in En. exists n. split; [exact En|]. exists "". intros i Hi.
    rewrite Forall_forall in Hn. by apply Hn in Hi.
  - pose proof (within_process_body (allowed workspace) (allowed_quiet workspace) nothing keeps_nothing p job settings workspace transient (λ _ _, I)
                  (λ i H1 H2, or_intror (conj H1 H2)) (λ i Hi, or_introl Hi) (allowed_major workspace) transient w1 Hw1) as [[(n & En & Hn) _ _ _] _].
    rewrite Hb in En. destruct (stop_returns w2) as (w3' & Hs' & _). rewrite Hs in Hs'. injection Hs' as <-.
    pose proof (advances_stop (allowed workspace) (allowed_quiet workspace) nothing keeps_nothing w2) as [[(n2 & En2 & Hn2) _ _ _] _]. rewrite Hs in En2.
    apply process_cleanup_run in Hr as [[o ->] _]. exists (n ++ n2). cbn [snd] in *. split; [cbn; by rewrite En2, En, Ht, (assoc_L (++))|].
    exists workspace. intros i Hi. assert (Forall (allowed workspace) (n ++ n2)) as Hall by (by apply Forall_app).
    rewrite Forall_forall in Hall. by apply Hall in Hi.
Qed.
End process.
