(* ===== verification/Staging.v ===== *)
(** * Artifacts, rollback images and clean-up (runner/internal/pipeline/pipeline.go)

    What a successful validation step leaves: the staged archive is a copy of a
    plain file below the artifact root whose SHA-256 is the one the release was
    approved with; the images of a rollback are pinned by the digests the
    registry confirmed. *)
From S2P Require Import Prelude GoIO GoString GoPath OS Model Archive Secrets Command Wire Socket Files.
From S2P Require Import Encoding Sha256 Crypto Manifest Health Runtime Registry Redact Logstream World Pipeline Frame.

(** ** The artifact's path *)
Lemma path_join_clean l s : Forall normal l → ∃ t, path_join [abs_path l; s] = abs_path t ∧ Forall normal t.
Proof.
  intros Hl. rewrite path_join_abs by done. 
  destruct (clean_abs (abs_path l +:+ String slash s)) as (t & Ht & Hn).
  { apply has_prefix_spec. unfold abs_path. rewrite str_app_assoc. by eexists. }
  exists t. split; [|done]. by rewrite <- Ht, <- path_join_abs.
Qed.

Lemma safeArtifact_keeps root r P : preserves (fsP P) (safeArtifact root r).
Proof. unfold safeArtifact. cbv zeta. keeps. Qed.

(** A plain file below the resolved root, reached without a link. *)
Definition artifact_at (m : filesystem) (root : string) (p : string) (content : bytes) : Prop :=
  ∃ l q n, walk 255 m true [] (split_byte slash root) = Ok l ∧ p = abs_path (l ++ q) ∧ l ++ q ≠ []
    ∧ real_path m (l ++ q) ∧ m !! (l ++ q) = Some n ∧ n_kind n = KReg content.

Lemma safeArtifact_ok root r w p w' :
  no_root (fs w) → safeArtifact root r w = (Ok p, w') →
  fs w' = fs w ∧ cwd w' = cwd w ∧ ∃ content, artifact_at (fs w) root p content.
Proof.
  intros Hroot Hrun. unfold safeArtifact in Hrun. cbv zeta in Hrun. inv_run Hrun.
  injection Hrun as <- <-. do 3 apply orb_false_iff in Hrun0 as [Hrun0 ?]. apply negb_false_iff in Hrun0.
  apply negb_false_iff, bool_decide_eq_true in Hrun5. apply negb_false_iff in Hrun7. subst x3.
  apply eval_walk in Hrun1 as (-> & l & -> & Hwalk); [|done].
  pose proof (walk_real_path _ _ _ _ _ Hroot (Forall_nil_2 _) (real_dir_nil _) (split_byte_free _ _) Hwalk) as [Hl _ _].
  destruct (path_join_clean l (clean r)) as (t & Ht & Hnt); [done|]. rewrite Ht in *.
  destruct (not_escaping_prefix l t x1) as [q ->]; [done..|].
  apply lstat_run in Hrun6 as (Hfs2 & Hc2 & loc & Hres & Hn).
  set (w0 := ticked (set_fs (fs w) w)) in *. assert (fs w0 = fs w ∧ cwd w0 = cwd w) as [Hf0 Hc0] by done. clearbody w0.
  rewrite <- Hf0, <- Hc0 in *. clear Hf0 Hc0 w. rename w0 into w.
  assert (l ++ q ≠ []) as Hne.
  { intros Hnil. rewrite Hnil in *. apply eval_run in Hrun4 as (Hfs1 & _); [|done..].
    rewrite resolve_abs in Hres by done. rewrite walk_nil in Hres. injection Hres as <-. rewrite Hfs1 in Hn.
    unfold no_root in Hroot. by rewrite Hroot in Hn. }
  apply eval_symlinks_fixed in Hrun4 as Hfix; [|done..]. destruct Hfix as (Hrp & _ & Hfs1).
  apply eval_run in Hrun4 as (_ & Hc1 & _); [|done|apply is_abs_abs_path]. rewrite Hfs2, Hc2, Hfs1, Hc1 in *. split; [done|]. split; [done|].
  destruct (n_kind x5) as [content| | |] eqn:Hk; try (unfold is_regular in Hrun7; by rewrite Hk in Hrun7).
  assert (loc = l ++ q) as ->.
  { pose proof Hrp as [Hnorm Hpar _]. destruct (l ++ q) as [|y u _] eqn:Elq using rev_ind; [done|].
    rewrite parent_snoc in Hpar. rewrite resolve_child in Hres by (done || by rewrite Hfs1). by injection Hres as ->. }
  by exists content, l, q, x5.
Qed.

(** ** The copy *)
Lemma resolve_real_file t n content w :
  t ≠ [] → real_path (fs w) t → fs w !! t = Some n → n_kind n = KReg content → resolve true (abs_path t) w = Ok t.
Proof.
  intros Hne [Hnorm Hpar _] Hn Hk. destruct t as [|x r _] using rev_ind; [done|]. rewrite parent_snoc in Hpar.
  assert (resolve false (abs_path (r ++ [x])) w = Ok (r ++ [x])) as Hr by (by apply resolve_child).
  unfold resolve in *. rewrite bool_decide_false in * by done. eapply walk_follow; [done|apply split_byte_free|exact Hr|].
  intros n' Hn'. rewrite Hn in Hn'. injection Hn' as <-. unfold is_symlink. by rewrite Hk.
Qed.

Lemma open_read_run p w loc w' : open_read p w = (Ok loc, w') →
  fs w' = fs w ∧ cwd w' = cwd w ∧ resolve true p w = Ok loc.
Proof. intros (m & Hf & ->)%sys_run. inv_ok Hf. done. Qed.

Lemma read_upto_run loc k w data w' : read_upto loc k w = (Ok (data, None), w') →
  fs w' = fs w ∧ cwd w' = cwd w ∧ ∃ c, contents loc w = Ok c ∧ data = take k c.
Proof.
  unfold read_upto. destruct (faults w (tick w)) as [[e n]|]; [done|].
  destruct (contents loc w) as [c|e]; [|done]. intros [= <- <-]. split_and!; [done..|]. by exists c.
Qed.

Section staging.
Context {R E : Type} `{Repository R}.
Notation W := (world R E).

Lemma signals_os l (w : W) : w_os (foldl on_signal w l) = w_os w.
Proof.
  revert w. induction l as [|s l IH]; intros w; [done|]. cbn. rewrite IH. unfold on_signal, heartbeat_tick.
  destruct s, (w_heartbeat w); try done; destruct (w_cancelled w); try done. by destruct (Heartbeat _ _) as [[] ?].
Qed.
Lemma pulse_os (w : W) x w' : pulse w = (x, w') → w_os w' = w_os w.
Proof. unfold pulse. destruct (w_signals w); intros [= <- <-]; [done|]. by rewrite signals_os. Qed.

Lemma try_on_os_bind {A B} (m : M os A) (f : result A → M W B) w x :
  (try (on_os m) ≫= f) w = x → ∃ r o, m (w_os w) = (r, o) ∧ f r (set_os o w) = x.
Proof. unfold mbind, M_bind, try, on_os. cbn. destruct (m (w_os w)) as [r o]. by exists r, o. Qed.

(** The copying itself: the bytes read and what the new file holds. *)
Lemma copy_run input output limit a (w0 : os) (w : W) data w' :
  created_file a output [] w0 (w_os w) → copy_artifact input output limit w = (Ok data, w') →
  created_file a output data w0 (w_os w') ∧ ∃ c, contents input (w_os w) = Ok c ∧ data = take (Z.to_nat limit) c.
Proof.
  intros Hcr Hrun. unfold copy_artifact in Hrun. apply bindM_ok in Hrun as (u & wp & Hp & Hrun). apply pulse_os in Hp.
  rewrite <- Hp in *. clear Hp w. rename wp into w. inv_run Hrun.
  injection Hrun0 as <- <-. injection Hrun as <- <-. destruct b; [done|].
  apply on_os_run in Hrun2 as (o1 & Hread & ->). apply read_upto_run in Hread as (Hf & Hc & c & Hcont & ->).
  split; [|by exists c]. pose proof (created_same _ _ _ _ _ _ Hcr Hf Hc) as Hcr1. case_bool_decide as Hd.
  - rewrite Hd. injection Hrun3 as _ <-. exact Hcr1.
  - apply on_os_run in Hrun3 as (o2 & Hw & ->). destruct x1. exact (created_write _ _ _ _ _ _ _ Hcr1 Hw).
Qed.

Lemma node_size_kind n c : n_kind n = KReg c → node_size n = blen c.
Proof. unfold node_size. by intros ->. Qed.

Lemma finish_staging_run d max written copied closed (w : W) a dg sz w' :
  finish_staging d max written copied closed w = (Ok ((a, dg, sz), None), w') →
  ∃ data, copied = Ok data ∧ closed = Ok () ∧ w' = w ∧ written ≤ max ∧ a = d ∧ dg = sha256_hex data ∧ sz = written.
Proof.
  unfold finish_staging. intros Hr. destruct copied as [data|e], closed as [[]|e2]; try (inv_run Hr; by injection Hr).
  destruct (max <? written) eqn:Hm; [inv_run Hr; by injection Hr|]. injection Hr as <- <- <- <-.
  exists data. split_and!; try done. lia.
Qed.

Lemma artifact_content m root p content : artifact_at m root p content →
  ∃ t n, t ≠ [] ∧ p = abs_path t ∧ real_path m t ∧ m !! t = Some n ∧ n_kind n = KReg content.
Proof. intros (l & q & n & _ & ? & ? & ? & ? & ?). by exists (l ++ q), n. Qed.

(** A successful staging. *)
Lemma stageArtifact_ok root relative ws maximum (w : W) artifact digest size w' :
  no_root (fs (w_os w)) → int64_min ≤ maximum < int64_max →
  stageArtifact root relative ws maximum w = (Ok ((artifact, digest, size), None), w') →
  ∃ source content, artifact_at (fs (w_os w)) root source content
    ∧ artifact = path_join [ws; "release-package"] ∧ file_holds artifact content (w_os w')
    ∧ digest = sha256_hex content ∧ size = blen content ∧ blen content ≤ maximum.
Proof.
  intros Hroot Hmax Hrun. unfold stageArtifact in Hrun. cbv zeta in Hrun.
  apply try_on_os_bind in Hrun as ([source|e] & o1 & Hsafe & Hrun); [|done].
  apply safeArtifact_ok in Hsafe as (Hf1 & Hc1 & content & Hat); [|done].
  apply try_on_os_bind in Hrun as ([input|e] & o2 & Hopen & Hrun); [|done].
  apply open_read_run in Hopen as (Hf2 & Hc2 & Hres). cbn [w_os set_os] in *.
  destruct (artifact_content _ _ _ _ Hat) as (t & n & Hne & -> & Hrp & Hn & Hk). rewrite <- Hf1 in Hrp, Hn.
  rewrite (resolve_real_file t n content) in Hres by done. injection Hres as <-.
  apply try_on_os_bind in Hrun as ([output|e] & o3 & Hcreate & Hrun); [|inv_run Hrun; by injection Hrun].
  apply open_excl_created in Hcreate. cbn [w_os set_os] in *.
  unfold mbind at 1, M_bind at 1, try at 1 in Hrun. destruct (copy_artifact _ _ _ _) as [copied w4] eqn:Hcopy.
  apply bindM_ok in Hrun as (written & w4' & Hwr & Hrun). injection Hwr as Hwr <-.
  apply try_on_os_bind in Hrun as (closed & o5 & Hclose & Hrun). apply bindM_ok in Hrun as ([[[a dg] sz] err] & w6 & Hfin & Hrun).
  apply try_on_os_bind in Hrun as (c2 & o7 & Hclose2 & Hrun). injection Hrun as -> -> -> -> <-.
  apply finish_staging_run in Hfin as (data & -> & -> & -> & Hle & -> & -> & ->).
  apply (copy_run _ _ _ (path_join [ws; "release-package"]) o2) in Hcopy as (Hcr & c & Hcont & Hdata); [|done].
  assert (c = content) as ->.
  { destruct Hcreate as (_ & Hv & _ & Ho & _). unfold contents in Hcont. cbn [w_os set_os] in Hcont.
    rewrite Ho in Hcont by (intros ->; by rewrite Hf2, Hn in Hv). rewrite Hf2, Hn in Hcont. rewrite Hk in Hcont. by injection Hcont. }
  assert (written = blen data) as ->.
  { destruct Hcr as (_ & _ & _ & _ & n' & Hl & Hk'). rewrite Hl in Hwr. by rewrite <- Hwr, (node_size_kind _ _ Hk'). }
  assert (data = content) as ->.
  { rewrite i64_id in Hdata by (unfold in_i64 in *; lia). subst data. apply take_ge.
    unfold blen in Hle. rewrite length_take in Hle. lia. }
  exists (abs_path t), content. split_and!; try done. apply created_holds with output o2.
  apply close_open_any in Hclose as [Hfa Hca], Hclose2 as [Hfb Hcb]. cbn [w_os set_os] in *.
  eapply created_same; [exact Hcr|congruence..].
Qed.

Lemma validateArtifact_run (w : W) res w' :
  validateArtifact w = (Ok (res, None), w') →
  ∃ artifact digest size w1,
    stageArtifact (ArtifactRoot (ps_settings (w_state w))) (j_ArtifactPath (ps_job (w_state w))) (ps_workspace (w_state w))
      (MaxArchiveBytes (p_Extraction (j_Profile (ps_job (w_state w))))) w = (Ok ((artifact, digest, size), None), w1)
    ∧ match_string sha256Pattern (j_ExpectedSHA256 (ps_job (w_state w))) = true
    ∧ equal_fold digest (j_ExpectedSHA256 (ps_job (w_state w))) = true
    ∧ w_os w' = w_os w1 ∧ ps_artifact (w_state w') = artifact.
Proof.
  unfold validateArtifact. intros Hr. apply bindM_ok in Hr as (s & w0 & [= <- <-] & Hr).
  apply bindM_ok in Hr as ([[[artifact digest] size] err] & w1 & Hst & Hr). cbv zeta in Hr. destruct err as [e|]; [done|].
  destruct (_ || _) eqn:Hd; [done|]. apply orb_false_iff in Hd as [Hp%negb_false_iff He%negb_false_iff].
  exists artifact, digest, size, w1. inv_run Hr. injection Hr as _ <-. by injection Hrun as _ <-.
Qed.

(** C20: the artifact that is staged.  When the validation step succeeds, the
    job's artifact is a copy in the workspace of a plain file that lies below
    the artifact root and is reached without a symbolic link; its content is
    within the size limit and has the SHA-256 the release was approved with. *)
Theorem staged_artifact_verified (w : W) res w' :
  let s := w_state w in let limit := MaxArchiveBytes (p_Extraction (j_Profile (ps_job s))) in
  no_root (fs (w_os w)) → int64_min ≤ limit < int64_max →
  validateArtifact w = (Ok (res, None), w') →
  ∃ source content,
    artifact_at (fs (w_os w)) (ArtifactRoot (ps_settings s)) source content
    ∧ file_holds (ps_artifact (w_state w')) content (w_os w')
    ∧ ps_artifact (w_state w') = path_join [ps_workspace s; "release-package"]
    ∧ blen content ≤ limit
    ∧ match_string sha256Pattern (j_ExpectedSHA256 (ps_job s)) = true
    ∧ equal_fold (sha256_hex content) (j_ExpectedSHA256 (ps_job s)) = true.
Proof.
  cbv zeta. intros Hroot Hlimit (artifact & digest & size & w1 & Hst & Hp & He & Hos & Hart)%validateArtifact_run.
  apply stageArtifact_ok in Hst as (source & content & Hat & -> & Hfile & -> & -> & Hle); [|done..].
  exists source, content. rewrite Hos, Hart. done.
Qed.

(** ** Rollback images *)
Lemma repo_call_state {A} bound (m : M R A) ev (w : W) : w_state (repo_call bound m ev w).2 = w_state w.
Proof.
  unfold repo_call, mbind, M_bind. destruct (pulse w) as [x w1] eqn:Ep.
  assert (x = Ok () ∧ w_state w1 = w_state w) as [-> <-].
  { unfold pulse in Ep. destruct (w_signals w) as [|l rest]; injection Ep as <- <-; [done|]. split; [done|].
    change (w_state w) with (w_state (set_signals rest w)). generalize (set_signals rest w). clear.
    induction l as [|s l IH]; intros w; [done|]. cbn. rewrite IH. unfold on_signal, heartbeat_tick.
    destruct s, (w_heartbeat w); try done; destruct (w_cancelled w); try done. by destruct (Heartbeat _ _) as [[] ?]. }
  cbv beta zeta. destruct (bound && _); [done|]. by destruct (m _).
Qed.
Lemma print_line_state text (w : W) : w_state (print_line text w).2 = w_state w.
Proof.
  unfold print_line, step_writer. set (payload := to_bytes text ++ _).
  assert (∀ (s : W) e, w_state s = w_state w → w_state (Logstream.AppendLog s e).2 = w_state w) as HI.
  { intros s e Hs. unfold Logstream.AppendLog, world_sink. pose proof (repo_call_state true (AppendLog e) (λ r, EvLog e (is_ok r)) s) as Hc.
    unfold append_log. destruct (repo_call _ _ _ s). by rewrite <- Hs. }
  pose proof (log_write_inv (λ w', w_state w' = w_state w) HI (w_out w) (w_budget w) w payload eq_refl) as Hl.
  destruct (Logstream.Write _ _ w payload) as [ret [[lw b] w1]]. exact Hl.
Qed.
End staging.

Section rollback.
Context {R E : Type} `{Repository R} `{ErrorText}.
Notation W := (world R E).
Context (p : Processor R E).

(** The reference [d] pins the image by a digest that the registry confirmed
    for the very repository the stored destination names. *)
Definition pinned (config : RuntimeConfig) (client : RegistryClient) (image : ImageRecord) (d : string) : Prop :=
  let digest := "sha256:" +:+ to_lower (trim_prefix (ir_Digest image) "sha256:") in
  Destination config (ir_Repository image) (ir_Tag image) = Ok (ir_DestinationRef image)
  ∧ match_string imageDigestPattern (ir_Digest image) = true
  ∧ d = trim_suffix (ir_DestinationRef image) (":" +:+ ir_Tag image) +:+ "@" +:+ digest
  ∧ ∃ answer e e',
      Digest (http (libraries p)) (url_parse (libraries p)) (decode_token (libraries p)) client
        (trim [slash] (RegistryProject config) +:+ "/" +:+ trim [slash] (ir_Repository image)) digest e = (Ok answer, e')
      ∧ equal_fold answer digest = true.

Lemma rollback_image_run config client image (w : W) w' :
  config = p_Runtime (j_Profile (ps_job (w_state w))) →
  rollback_image p config client image w = (Ok (), w') →
  ∃ d, pinned config client image d ∧ ps_destinations (w_state w') = ps_destinations (w_state w) ++ [d]
       ∧ ps_job (w_state w') = ps_job (w_state w).
Proof.
  intros -> Hr. unfold rollback_image in Hr. apply bindM_ok in Hr as (s & w0 & [= <- <-] & Hr). cbv zeta in Hr.
  inv_run Hr. apply negb_false_iff in Hrun, Hrun1, Hrun3. apply bool_decide_eq_true in Hrun1 as ->.
  unfold registry_digest, on_env in Hrun2.
  match type of Hrun2 with (let '(_, _) := ?m in _) = _ => destruct m as [r e'] eqn:Hdig end. injection Hrun2 as -> <-.
  eexists. split; [split_and!; [exact Hrun0|exact Hrun|reflexivity|by eauto]|].
  injection Hrun4 as _ <-. pose proof (f_equal (λ x : _ * W, w_state x.2) Hrun5) as H5. pose proof (f_equal (λ x : _ * W, w_state x.2) Hr) as H6.
  cbn beta in H5, H6. unfold record_image in H5. rewrite repo_call_state in H5. rewrite print_line_state in H6. cbn [snd] in H5, H6.
  by rewrite <- H6, <- H5.
Qed.

Lemma rollback_images_run config client images : ∀ (w : W) w',
  config = p_Runtime (j_Profile (ps_job (w_state w))) →
  iterM (rollback_image p config client) images w = (Ok (), w') →
  ∃ pins, Forall2 (pinned config client) images pins ∧ ps_destinations (w_state w') = ps_destinations (w_state w) ++ pins.
Proof.
  induction images as [|image images IH]; intros w w' Hc Hr; cbn [iterM] in Hr.
  - injection Hr as <-. exists []. by rewrite app_nil_r.
  - apply bindM_ok in Hr as ([] & w1 & Hi & Hr). apply rollback_image_run in Hi as (d & Hd & Hds & Hj); [|done].
    apply IH in Hr as (pins & Hp & Hds'); [|by rewrite Hj]. exists (d :: pins). split; [by constructor|].
    by rewrite Hds', Hds, <- (assoc_L (++)).
Qed.

(** The images of a rollback.  When the validation step of a manual rollback
    succeeds, every image of the source deployment is pinned, in order, by the
    digest that was recorded for it: the profile still resolves it to the same
    destination, and the registry answered with that digest. *)
Lemma rollback_images_pinned (w : W) res w' :
  let job := ps_job (w_state w) in let config := p_Runtime (j_Profile job) in
  validateRollbackSource p w = (Ok (res, None), w') →
  ∃ client pins,
    Forall2 (pinned config client) (j_RollbackImages job) pins
    ∧ u_Scheme (baseURL client) ∈ ["http"; "https"]
    ∧ ps_destinations (w_state w') = ps_destinations (w_state w) ++ pins.
Proof.
  cbv zeta. intros Hr. unfold validateRollbackSource, simple_step in Hr. apply bindM_ok in Hr as (r & w1 & Hr & Hend).
  injection Hend as _ <-. apply bindM_ok in Hr as (s & w0 & [= <- <-] & Hr). cbv zeta in Hr.
  apply bindM_ok in Hr as (config & w2 & Hnew & Hr). pose proof (New_config _ _ _ _ _ _ Hnew) as ->.
  assert (w_state w2 = w_state w) as Hs2.
  { unfold New, newClient in Hnew. inv_run Hnew. injection Hnew as <-. by apply on_os_run in Hrun0 as (o & _ & ->). }
  apply bindM_ok in Hr as (cred & w3 & [= _ <-] & Hr). apply bindM_ok in Hr as (client & w4 & [= Hcl <-] & Hr).
  apply bindM_ok in Hr as ([] & w5 & Himg & Hr). apply rollback_images_run in Himg as (pins & Hp & Hd); [|by rewrite Hs2].
  apply bindM_ok in Hr as (s & w6 & [= <- <-] & [= _ <-]). exists client, pins. rewrite Hs2 in Hd. split; [done|]. split; [|done].
  unfold registry_client, NewRegistryClient in Hcl. cbv zeta in Hcl. inv_ok Hcl.
  apply orb_false_iff in Hok0 as [Hok0 _]. apply orb_false_iff in Hok0 as [Hok0%negb_false_iff _].
  unfold http_scheme in Hok0. cbn. apply orb_true_iff in Hok0. rewrite !bool_decide_eq_true in Hok0.
  rewrite !elem_of_cons. tauto.
Qed.
End rollback.
