(* ===== verification/PipelineDemo.v ===== *)
(** * Jobs evaluated from end to end

    A concrete Runner: a small file tree, a repository that accepts every call,
    an executor whose commands print a line, a registry that knows one digest
    and a target credential sealed with the toy AEAD of Crypto.v.  A deployment
    and a manual rollback run through all their steps. *)
From S2P Require Import Prelude GoIO GoString GoPath OS Model Archive Secrets Command Wire Socket Files Encoding.
From S2P Require Import Sha256 Crypto Manifest Health Runtime Registry Redact Logstream World Pipeline Frame PipelineProofs Staging.

Module demo.
#[local] Instance plain_errors : ErrorText := λ e, "failed".

#[local] Instance node_eq_dec : EqDecision node.
Proof. solve_decision. Defined.

(** The repository counts its steps. *)
#[local] Instance counting_repository : Repository Z := {|
  LoadSettings := throw (Sentinel ErrNoRows); RecoverStaleJobs _ := mret 0; ClaimJob _ := throw (Sentinel ErrNoJob);
  Heartbeat _ := mret ();
  BeginStep id status := λ n, (Ok {| step_ID := n; step_JobID := id; step_Name := status; step_Number := n |}, n + 1);
  FinishStep _ _ _ := mret (); World.AppendLog _ := mret (); RecordImage _ _ := mret (); FinishJob _ _ _ := mret () |}.

Definition node_of (uid perm : Z) (k : kind) : node :=
  {| n_kind := k; n_uid := uid; n_gid := 8; n_perm := perm; n_setgid := false; n_sticky := false |}.
Definition tree : filesystem :=
  <[["usr"] := node_of 0 493 KDir]> (<[["usr"; "bin"] := node_of 0 493 KDir]>
  (<[["usr"; "bin"; "docker"] := node_of 0 493 (KReg [])]>
  (<[["srv"] := node_of 7 493 KDir]> (<[["srv"; "ws"] := node_of 7 493 KDir]> (<[["srv"; "art"] := node_of 7 493 KDir]>
  (<[["srv"; "art"; "app.tgz"] := node_of 7 420 (KReg (to_bytes "abc"))]>
  (<[["run"] := node_of 0 493 KDir]> (<[["run"; "c"] := node_of 7 456 KDir]> ∅)))))))).
Definition host : os :=
  {| fs := tree; cwd := []; euid := 7; egid := 8; umask := 18; faults := λ _, None; tick := 0 |}.

Definition registry_answer {E} : request → M E reply := λ _ u,
  (Ok {| rp_status := 200; rp_challenge := ""; rp_digest := "sha256:" +:+ of_chars (replicate 64 "0"%char); rp_body := [] |}, u).
Definition parsed (s : string) : URL :=
  let h := if has_prefix s "//" then drop_str 2 s else "reg" in
  {| u_Scheme := "https"; u_Host := h; u_Hostname := h; u_User := false; u_Path := ""; u_Query := ∅; u_Fragment := "" |}.
Definition package (_ : bytes) (_ : option goerr) : list tar_item :=
  let entry name := TarEntry {| h_Name := name; h_Typeflag := TypeReg; h_Size := 1; h_Linkname := "" |} ["x"%char] None in
  [entry "manifest.yaml"; entry "images/app.tar"; entry "manifest.json"].
Definition libs {E} : Libraries E := {|
  url_parse s := Ok (parsed s); pem_certificates _ := true; quote s := s; http := registry_answer;
  decode_token _ := Err (External "json"); new_request _ _ := Ok (); http_do _ _ := throw (External "http");
  tcp_dial _ := mret None; wait _ := mret (); range := map_to_list; decode_credential _ := Ok no_credential;
  decode_yaml _ := Ok {| Application := "app"; Version := "1"; Images := [] |};
  docker_manifest _ := Ok [["registry.local/team/app:1"]]; oci_index _ := Ok []; gzip_reader b := Ok (b, None); tar_reader := package |}.

Definition printing : CommandExecutor (world Z unit) := λ spec w,
  (({| ExitCode := 0; Duration := 1 |}, None),
   match Stdout spec with Some wr => (wr (to_bytes ("run " +:+ Path spec)) w).2 | None => w end).
#[local] Instance printing_lawful : LawfulExecutor printing.
Proof. intros I spec _ Hwr w Hw. unfold printing. cbn. destruct (Stdout spec) as [wr|] eqn:E; [apply Hwr; auto|done]. Qed.

Definition runner : Processor Z unit :=
  {| secretBox := {| aead := toy_aead |}; executor := printing; credentialRoot := "/run/c"; libraries := libs |}.

Definition settings : Settings := {|
  PollInterval := 1; LockRetry := 1; SettingsRefresh := 1; HeartbeatInterval := 1; StaleJobAfter := 1;
  Model.WorkspaceRoot := "/srv/ws"; ArtifactRoot := "/srv/art"; CommandPath := "/usr/bin"; LogChunkBytes := 1024 |}.
Definition script (phase : string) : Script := {|
  s_ID := "s1"; s_Name := "roll out"; s_Version := 1; s_Phase := phase; s_InterpreterPath := "/bin/sh";
  s_SHA256 := sha256_hex (to_bytes "echo"); s_Content := to_bytes "echo"; s_Args := ["--now"]; s_Timeout := 5; s_ApprovedAt := Some 1 |}.
Definition profile : Profile := {|
  p_ID := "p"; p_Name := "p";
  p_Extraction := {| MaxArchiveBytes := 100; MaxExtractedBytes := 100; MaxFiles := 10; MaxImages := 5; AllowSymlinks := false |};
  p_Runtime := {| Kind := "docker"; BinaryPath := "/usr/bin/docker"; Namespace := ""; RegistryURL := "https://reg"; RegistryHost := "reg";
                  RegistryProject := "prod"; RegistryInsecure := false; RegistryCAPEM := ""; CredentialAAD := ""; CredentialCiphertext := "" |};
  p_HealthChecks := []; p_Scripts := [script "DEPLOY"; script "ROLLBACK"]; p_CommandTimeout := 10; p_MaxLogBytes := 1000;
  p_AutoRollback := false; p_CleanupWorkspace := true; p_KeepFailedWorkspace := false |}.
Definition sealed : string :=
  match Encrypt {| aead := toy_aead |} (Ok (to_bytes "ab")) (to_bytes "key") "c" with Ok e => e | Err _ => "" end.
Definition job (operation : string) : Job := {|
  j_ID := "7"; j_ReleaseID := "r"; j_RollbackSourceReleaseID := "r0"; j_RollbackSourceJobID := "6"; j_Application := "app"; j_Version := "1";
  j_Environment := "prod"; j_LockKey := "k"; j_ArtifactPath := "app.tgz"; j_ExpectedSHA256 := sha256_hex (to_bytes "abc");
  j_ManifestPath := ""; j_Operation := operation; j_Attempt := 1; j_Profile := profile;
  j_TargetCredential := {| tc_ID := "tc"; tc_Type := "TOKEN"; tc_Version := 1; tc_Ciphertext := sealed; tc_AAD := "c" |};
  j_RollbackImages := [{| ir_FilePath := "images/app.tar"; ir_SourceRef := "reg/team/app:1"; ir_DestinationRef := "reg/prod/team/app:1";
                          ir_Repository := "team/app"; ir_Tag := "1"; ir_Digest := "sha256:" +:+ of_chars (replicate 64 "0"%char) |}] |}.

Definition no_logs (stream : string) : LogWriter := NewWriter "" 0 stream 1024.
Definition idle_redactor : exactSecretRedactor unit := newExactSecretRedactor None [].
(** The ticker fires once before every call. *)
Definition start (operation : string) : world Z unit :=
  World host 1 () [] HbIdle false false (replicate 20 [Tick]) (initial_state settings (job operation) "/srv/ws" "/run/c")
    (NewBudget 1000) (no_logs "stdout") (no_logs "stderr") idle_redactor idle_redactor.

Definition run_job (operation : string) : result unit * world Z unit :=
  Process runner ["1"] settings (Some (job operation)) (start operation).

Definition step_names (tr : list event) : list JobStatus :=
  omap (λ e, match e with EvFinishStep s true _ true => Some (step_Name s) | EvFinishJob _ s _ true => Some s | _ => None end) tr.
Definition commands (tr : list event) : list (list string) :=
  omap (λ e, match e with EvRun i => Some (ri_Path i :: ri_Args i) | _ => None end) tr.

(** Both jobs succeed, start the expected commands and leave the files as they
    were. *)
Example a_deployment :
  let '(r, w) := run_job "DEPLOY" in
  r = Ok () ∧ bool_decide (fs (w_os w) = tree) = true
  ∧ step_names (w_trace w) = [StatusValidating; StatusExtracting; StatusImageInspect; StatusImageLoad; StatusImageTag;
                              StatusImagePush; StatusDeploying; StatusVerifying; StatusSuccess]
  ∧ commands (w_trace w) = [
      ["/usr/bin/docker"; "load"; "--input"; "/srv/ws/job-7-1/package/images/app.tar"];
      ["/usr/bin/docker"; "tag"; "registry.local/team/app:1"; "reg/prod/team/app:1"];
      ["/usr/bin/docker"; "push"; "reg/prod/team/app:1"];
      ["/bin/sh"; "/srv/ws/job-7-1/.scripts/script-000-v1"; "--now"]].
Proof. vm_compute. done. Qed.
Example a_rollback :
  let '(r, w) := run_job "ROLLBACK" in
  r = Ok () ∧ bool_decide (fs (w_os w) = tree) = true
  ∧ step_names (w_trace w) = [StatusValidating; StatusRollback; StatusVerifying; StatusRolledBack]
  ∧ commands (w_trace w) = [["/bin/sh"; "/srv/ws/job-7-1/.scripts/script-001-v1"; "--now"]].
Proof. vm_compute. done. Qed.
Example no_credentials_in_logs :
  existsb (λ e, match e with EvLog l _ => negb (is_nil (bytes_index (le_payload l) (to_bytes "key"))) | _ => false end)
    (w_trace (run_job "DEPLOY").2) = false.
Proof. by vm_compute. Qed.

Lemma job_follows_its_plan_witness :
  ∃ r w', Process runner ["1"] settings (Some (job "DEPLOY")) (start "DEPLOY") = (r, w') ∧ is_ok r = true
  ∧ ∃ new steps success status failure accepted,
      w_trace w' = w_trace (start "DEPLOY") ++ new
      ∧ majors new = steps ++ [EvFinishJob (j_ID (job "DEPLOY")) status failure accepted]
      ∧ ((steps = [] ∧ success = false)
         ∨ plan_trace (plan (job "DEPLOY")) steps success
           ∧ ∃ workspace transient w1 w2, of_job (job "DEPLOY") settings workspace transient w1 ∧ untouched (start "DEPLOY") w1
               ∧ steps_run (job "DEPLOY") (job_steps (job "DEPLOY") runner) w1 steps success w2)
      ∧ final_status (job "DEPLOY") success status failure
      ∧ (is_ok r = true → status = terminal_status (job "DEPLOY") ∧ accepted = true).
Proof.
  assert (is_ok (Process runner ["1"] settings (Some (job "DEPLOY")) (start "DEPLOY")).1 = true) as Hok by (by vm_compute).
  destruct (Process runner ["1"] settings (Some (job "DEPLOY")) (start "DEPLOY")) as [r w'] eqn:E.
  exists r, w'. split; [reflexivity|]. split; [exact Hok|].
  exact (job_follows_its_plan runner settings (job "DEPLOY") ["1"] (start "DEPLOY") r w' E).
Defined.

Lemma job_runs_only_approved_commands_witness :
  ∃ r w', Process runner ["1"] settings (Some (job "ROLLBACK")) (start "ROLLBACK") = (r, w') ∧ is_ok r = true
  ∧ ∃ new, w_trace w' = w_trace (start "ROLLBACK") ++ new
      ∧ ∃ workspace, ∀ i, EvRun i ∈ new → approved_run (job "ROLLBACK") workspace i
          ∨ (ri_Isolated i = false ∧ ri_Path i = BinaryPath (p_Runtime (j_Profile (job "ROLLBACK")))).
Proof.
  assert (is_ok (Process runner ["1"] settings (Some (job "ROLLBACK")) (start "ROLLBACK")).1 = true) as Hok by (by vm_compute).
  destruct (Process runner ["1"] settings (Some (job "ROLLBACK")) (start "ROLLBACK")) as [r w'] eqn:E.
  exists r, w'. split; [reflexivity|]. split; [exact Hok|].
  exact (job_runs_only_approved_commands runner settings (job "ROLLBACK") ["1"] (start "ROLLBACK") r w' E).
Defined.

Lemma staged_artifact_verified_witness :
  ∃ res w' source content, validateArtifact (start "DEPLOY") = (Ok (res, None), w')
  ∧ artifact_at tree "/srv/art" source content ∧ file_holds (ps_artifact (w_state w')) content (w_os w')
  ∧ equal_fold (sha256_hex content) (sha256_hex (to_bytes "abc")) = true.
Proof.
  destruct (validateArtifact (start "DEPLOY")) as [[[res [e|]]|e] w'] eqn:E; [by vm_compute in E| |by vm_compute in E].
  assert (no_root (fs (w_os (start "DEPLOY")))) as Hroot by reflexivity.
  assert (int64_min ≤ 100 < int64_max) as Hlimit by (unfold int64_min, int64_max; lia).
  destruct (staged_artifact_verified (start "DEPLOY") res w' Hroot Hlimit E) as (source & content & Hat & Hfile & _ & _ & _ & Hsum).
  exists res, w', source, content. split; [reflexivity|]. split; [exact Hat|]. split; [exact Hfile|exact Hsum].
Defined.

(** A failure text is cut at a byte: the cut can leave half a character, which
    is not UTF-8 any more (here the three bytes of U+AC00 cut after two). *)
Lemma truncate_splits_a_character :
  let text := of_chars (zbyte <$> [234; 176; 128]) in
  map fst (runes text) = [44032] ∧ map fst (runes (Pipeline.truncate text 2)) = [RuneError; RuneError].
Proof. by vm_compute. Qed.
End demo.
