(* ===== verification/PgRepository.v ===== *)
(** * The repository of a running Runner (runner/internal/store/store.go)

    The interface of World.v implemented by the queries of Store.v.  A Runner
    is not alone: before each of its calls the database may change as other
    Runners, the backend and administrators let it ([pg_others]), and a query
    with SKIP LOCKED may find rows that others hold ([pg_skipped]). *)
From S2P Require Import Db Store.
From S2P Require Import Queue StoreProofs QueueSafety.
From S2P Require Import Prelude GoIO GoString OS Model Logstream World.
From S2P Require Import Frame.
From stdpp Require Import relations.

Record pg := Pg {
  pg_db : db;
  pg_store : PGStore;
  pg_calls : nat;
  pg_others : nat → db → db;
  pg_skipped : nat → gset string
}.

(** One call: what the others did, then the queries with the pool's identity. *)
Definition on_pg {A} (f : PGStore → gset string → M db A) : M pg A := λ r,
  let n := pg_calls r in
  let '(a, d) := f (pg_store r) (pg_skipped r n) (pg_others r n (pg_db r)) in
  (a, Pg d (pg_store r) (S n) (pg_others r) (pg_skipped r)).

Definition log_row_of (e : log_entry) : log_row :=
  {| lg_job := le_job e; lg_step := le_step e; lg_stream := le_stream e; lg_sequence := le_sequence e; lg_payload := le_payload e |}.

Section repository.
Context (decode_health : string → result (list HealthCheck)) (decode_args : string → result (list string)).
Context `{ErrorText}.

#[export] Instance pg_repository : Repository pg := {|
  World.LoadSettings := on_pg (λ _ _, Store.LoadSettings);
  World.RecoverStaleJobs d := on_pg (λ _ skipped, Store.RecoverStaleJobs skipped d);
  World.ClaimJob d := on_pg (λ s skipped, Store.ClaimJob decode_health decode_args s skipped d);
  World.Heartbeat id := on_pg (λ s _, Store.Heartbeat s id);
  World.BeginStep id status := on_pg (λ s _, Store.BeginStep s id status);
  World.FinishStep step b r := on_pg (λ s _, Store.FinishStep s step b r);
  World.AppendLog e := on_pg (λ s _, Store.AppendLog s (log_row_of e));
  World.RecordImage id i := on_pg (λ s _, Store.RecordImage s id i);
  World.FinishJob id status failure := on_pg (λ s _, Store.FinishJob s id status failure) |}.

(** [RegisterRunner] stores the identity in the pool's record. *)
Definition pg_register (uuid : result string) (identity name address : string) : M pg bool := λ r,
  let '(x, r') := on_pg (λ s _, Store.RegisterRunner s uuid identity name address) r in
  match x with
  | Ok (active, s) => (Ok active, Pg (pg_db r') s (pg_calls r') (pg_others r') (pg_skipped r'))
  | Err e => (Err e, r')
  end.
Definition pg_beat : M pg bool := on_pg (λ s _, Store.HeartbeatRunner s).

(** ** What any number of calls does to the tables *)
Notation db_step := (db_step decode_health decode_args).
Notation run_call := (run_call decode_health decode_args).

(** The others are Runners, backends and administrators too. *)
Definition lawful_others (f : nat → db → db) : Prop := ∀ n d, rtc db_step (tabs d) (tabs (f n d)).

(** [r] was reached from the tables [t] by steps of the system. *)
Definition since (t : tables) (r : pg) : Prop := lawful_others (pg_others r) ∧ rtc db_step t (tabs (pg_db r)).

Lemma on_pg_since (c : PGStore → gset string → call) {A} (f : PGStore → gset string → M db A) t r :
  (∀ s skipped, call_allowed (c s skipped)) →
  (∀ s skipped d, tabs (run_call (c s skipped) d).2 = tabs (f s skipped d).2) →
  since t r → since t (on_pg f r).2.
Proof.
  intros Hc Hf [Ho Ht]. unfold on_pg. set (d := pg_others r (pg_calls r) (pg_db r)).
  specialize (Hf (pg_store r) (pg_skipped r (pg_calls r)) d). set (c0 := c _ _) in Hf.
  destruct (f _ _ d) as [a d']; cbn [snd] in *. split; [done|]. cbn [pg_db]. rewrite <- Hf.
  etrans; [exact Ht|]. etrans; [apply Ho|]. apply rtc_once. apply step_call; [apply Hc|done].
Qed.

Lemma query_tabs {A} g (f : Z → tables → A) d : tabs (wrapM g (pool (query f)) d).2 = tabs d.
Proof. unfold wrapM, pool, query, statement. cbn. by destruct (db_faults d _). Qed.
Lemma LoadSettings_tabs d : tabs (Store.LoadSettings d).2 = tabs d.
Proof.
  unfold Store.LoadSettings, mbind at 1, M_bind at 1. pose proof (query_tabs (wrap "load runner settings: %w") (λ _ t, settings t) d) as Hq.
  destruct (wrapM _ (pool _) d) as [[row|e] d']; [|done]. cbn [snd] in Hq. destruct row as [x|]; [|done].
  unfold mbind, M_bind, lift. cbn [of_option]. by destruct (map_err _ (validateSettings _)).
Qed.
Lemma LoadSettings_since t r : since t r → since t (World.LoadSettings r).2.
Proof.
  intros [Ho Ht]. cbn. unfold on_pg. pose proof (LoadSettings_tabs (pg_others r (pg_calls r) (pg_db r))) as Hl.
  destruct (Store.LoadSettings _) as [a d']. cbn [snd] in *. split; [done|]. cbn. rewrite Hl. etrans; [exact Ht|apply Ho].
Qed.

Lemma RecoverStaleJobs_since d t r : since t r → since t (World.RecoverStaleJobs d r).2.
Proof. apply (on_pg_since (λ _ skipped, CallRecover skipped d)); [done|intros; apply outcome_tabs]. Qed.
Lemma ClaimJob_since d t r : since t r → since t (World.ClaimJob d r).2.
Proof. apply (on_pg_since (λ s skipped, CallClaim s skipped d)); [done|intros; apply outcome_tabs]. Qed.
Lemma pg_beat_since t r : since t r → since t (pg_beat r).2.
Proof. apply (on_pg_since (λ s _, CallBeat s)); [done|intros; apply outcome_tabs]. Qed.
Lemma pg_register_since uuid i n a t r : since t r → since t (pg_register uuid i n a r).2.
Proof.
  intros Hr. unfold pg_register.
  pose proof (on_pg_since (λ s _, CallRegister s uuid i n a) (λ s _, Store.RegisterRunner s uuid i n a) t r
                (λ _ _, I) (λ _ _ _, outcome_tabs _ _) Hr) as Hs.
  by destruct (on_pg _ r) as [[[active s]|e] r'].
Qed.

(** The calls of a job only take steps of the system. *)
Lemma pg_keeps t : keeps (since t).
Proof.
  constructor.
  - intros id r. apply (on_pg_since (λ s _, CallHeartbeat s id)); [done|intros; apply outcome_tabs].
  - intros id status r Hs. apply (on_pg_since (λ s _, CallBegin s id status)); [done|intros; apply outcome_tabs].
  - intros step b x r. apply (on_pg_since (λ s _, CallFinishStep s step b x)); [done|intros; apply outcome_tabs].
  - intros e r. apply (on_pg_since (λ s _, CallLog s (log_row_of e))); [done|intros; apply outcome_tabs].
  - intros id i r. apply (on_pg_since (λ s _, CallImage s id i)); [done|intros; apply outcome_tabs].
  - intros id status failure r. apply (on_pg_since (λ s _, CallFinish s id status failure)); [done|intros; apply outcome_tabs].
Qed.
End repository.
