(* ===== verification/Main.v ===== *)
(** * The two programs (runner/cmd/runner/main.go, runner/cmd/executor/main.go)

    The Runner: its bootstrap configuration, the start-up checks in their
    order, and the loop that refreshes the settings, recovers stale jobs, beats
    in the inventory, claims jobs and hands them to the pipeline, until it is
    told to stop.  The executor: who may serve, and on which socket.  What the
    programs read of the machine are inputs ([machine]); a loop that is still
    running after [rounds] rounds is returned as [Running]. *)
From S2P Require Import Db Store PgRepository.
From S2P Require Import Prelude GoIO GoString GoPath OS Model Archive Secrets Command Wire Socket.
From S2P Require Import Files Encoding Crypto Manifest Health Runtime Registry Redact Logstream World Pipeline.

(* src: runner/internal/config/config.go:8-11 Bootstrap *)
Record Bootstrap := { PostgresDSN : string; EncryptionKey : string }.

(* src: runner/internal/config/config.go:15-25 Load *)
Definition Load (lookup_env : string → option string) : result Bootstrap :=
  let required name := match lookup_env name with
                       | Some value => if is_empty value then Err (error_new (name +:+ " is required")) else Ok value
                       | None => Err (error_new (name +:+ " is required"))
                       end in
  dsn ← required "POSTGRES_DSN";
  key ← required "ENCRYPTION_KEY";
  Ok {| PostgresDSN := dsn; EncryptionKey := key |}.

Definition DefaultWorkspaceRoot : string := "/var/lib/releasedock/workspaces".

(* src: runner/cmd/runner/main.go:176-181 validateExecutorWorkspace *)
Definition validateExecutorWorkspace (workspaceRoot : string) : result unit :=
  fail_if (negb (bool_decide (clean workspaceRoot = DefaultWorkspaceRoot)))
    (Errorf "workspace_root must be %s for the isolated executor boundary" [FStr DefaultWorkspaceRoot]).

(* src: runner/cmd/runner/main.go:183-193 runnerIdentity *)
Definition runnerIdentity (hostname : result string) : result (string * string * string) :=
  hostname ← map_err (wrap "read runner hostname: %w") hostname;
  let hostname := trim_space hostname in
  _ ← fail_if (is_empty hostname) (error_new "runner hostname is empty");
  Ok ("host:" +:+ hostname, "releasedock-runner@" +:+ hostname, hostname).

(** [random]: the six bytes of [rand.Read]. *)
(* src: runner/cmd/runner/main.go:195-205 newWorkerID *)
Definition newWorkerID (hostname : result string) (pid : Z) (random : result bytes) : result string :=
  hostname ← map_err (wrap "read hostname: %w") hostname;
  random ← map_err (wrap "generate worker id: %w") random;
  Ok (hostname +:+ "-" +:+ decimal pid +:+ "-" +:+ hex_encode random).

(** The sixteen random bytes with the version and the variant of a UUID. *)
Definition set_bits (mask bits : Z) (c : ascii) : ascii := zbyte (Z.lor (Z.land (byte c) mask) bits).
(* src: runner/internal/store/store.go:814-823 randomUUID *)
Definition randomUUID (random : result bytes) : result string :=
  value ← map_err (wrap "generate runner id: %w") random;
  let value := alter (set_bits 63 128) 8%nat (alter (set_bits 15 64) 6%nat value) in
  let part i j := hex_encode (slice value i j) in
  Ok (join "-" [part 0%nat 4%nat; part 4%nat 6%nat; part 6%nat 8%nat; part 8%nat 10%nat; part 10%nat 16%nat]).

(** ** The Runner *)

(** The time between two readings of the clock; [time.Duration] saturates. *)
Definition elapsed (from now : Z) : Z := (now - from) `max` int64_min `min` int64_max.

(** What the Runner reads of its machine.  [open_pool] is [store.Open]'s
    connection, [flock] the answer of the kernel to the host lock; [clock] is
    [time.Now]; [timer_first] says whether a [select] with both the timer and
    the end of the context ready takes the timer; [temp_names] are the names
    [os.MkdirTemp] tries. *)
Record machine (E : Type) := {
  lookup_env : string → option string;
  hostname : result string;
  pid : Z;
  worker_random : result bytes;
  uuid_random : result bytes;
  open_pool : string → result unit;
  new_cipher : bytes → result bytes;
  new_gcm : bytes → result AEAD;
  flock : result bool;
  clock : E → Z * E;
  timer_first : E → bool * E;
  temp_names : E → list string * E;
  command_executor : CommandExecutor (world pg E);
  libs : Libraries E
}.
Arguments lookup_env {E}. Arguments hostname {E}. Arguments pid {E}. Arguments worker_random {E}. Arguments uuid_random {E}.
Arguments open_pool {E}. Arguments new_cipher {E}. Arguments new_gcm {E}. Arguments flock {E}. Arguments clock {E}.
Arguments timer_first {E}. Arguments temp_names {E}. Arguments command_executor {E}. Arguments libs {E}.

(** The variables of the loop. *)
Record loop_state := {
  lv_settings : Settings; lv_active : bool; lv_last_refresh : Z; lv_last_beat : Z
}.
Inductive loop_result :=
  | Running (s : loop_state)
  | Returned.

Section runner.
Context {E : Type} (m : machine E).
Context (decode_health : string → result (list HealthCheck)) (decode_args : string → result (list string)).
Context `{ErrorText}.
Notation W := (world pg E).
Notation repository := (pg_repository decode_health decode_args).

(** What is read cannot fail. *)
Definition reads {A} (f : E → A * E) : M W A := on_env (λ e, let '(a, e) := f e in (Ok a, e)).

(** A call with [rootCtx]: it fails at once when the Runner was told to stop. *)
Definition root_call {A} (call : M pg A) : M W A :=
  let answer : M W A := λ w,
    if w_stopped w then (Err (Sentinel Canceled), w) else let '(r, s) := call (w_repo w) in (r, set_repo s w) in
  _ ← pulse (H := repository); answer.

(** [store.Open]: the connection, and the pool's record. *)
(* src: runner/internal/store/store.go:106-121 Open *)
Definition open_store (dsn workerID : string) : M W unit :=
  _ ← lift (open_pool m dsn);
  modify (λ w, let r := w_repo w in
    set_repo (Pg (pg_db r) {| Store.workerID := workerID; Store.runnerIdentity := "" |} (pg_calls r) (pg_others r) (pg_skipped r)) w).

(** The [select] on the poll timer: [true] when the Runner stops. *)
(* src: runner/cmd/runner/main.go:167-173 run *)
Definition wait_poll : M W bool :=
  _ ← pulse (H := repository);
  stopped ← gets w_stopped;
  if (stopped : bool) then timer ← reads (timer_first m); mret (negb timer) else mret false.

(* src: runner/cmd/runner/main.go:113-129 run *)
Definition refresh (s : loop_state) : M W loop_state :=
  now ← reads (clock m);
  if negb (SettingsRefresh (lv_settings s) <=? elapsed (lv_last_refresh s) now) then mret s else
  refreshed ← try (root_call (World.LoadSettings (Repository := repository)));
  let settings := match refreshed with
                  | Ok x => if is_ok (validateExecutorWorkspace (Model.WorkspaceRoot x)) then x else lv_settings s
                  | Err _ => lv_settings s
                  end in
  _ ← try (root_call (World.RecoverStaleJobs (Repository := repository) (StaleJobAfter settings)));
  now ← reads (clock m);
  mret {| lv_settings := settings; lv_active := lv_active s; lv_last_refresh := now; lv_last_beat := lv_last_beat s |}.

(* src: runner/cmd/runner/main.go:130-138 run *)
Definition beat (s : loop_state) : M W loop_state :=
  now ← reads (clock m);
  if negb (HeartbeatInterval (lv_settings s) <=? elapsed (lv_last_beat s) now) then mret s else
  beaten ← try (root_call pg_beat);
  let active := match beaten with Ok a => a | Err _ => lv_active s end in
  now ← reads (clock m);
  mret {| lv_settings := lv_settings s; lv_active := active; lv_last_refresh := lv_last_refresh s; lv_last_beat := now |}.

Definition poll (s : loop_state) : M W loop_result :=
  stopped ← wait_poll; mret (if (stopped : bool) then Returned else Running s).

(* src: runner/cmd/runner/main.go:139-174 run *)
Definition work (p : Processor pg E) (s : loop_state) : M W loop_result :=
  if negb (lv_active s) then poll s else
  claimed ← try (root_call (World.ClaimJob (Repository := repository) (LockRetry (lv_settings s))));
  match claimed with
  | Ok job =>
      names ← reads (temp_names m);
      _ ← try (Process (H := repository) p names (lv_settings s) (Some job));
      mret (Running s)
  | Err e =>
      poll (if errors_is ErrInactive e
            then {| lv_settings := lv_settings s; lv_active := false; lv_last_refresh := lv_last_refresh s; lv_last_beat := lv_last_beat s |}
            else s)
  end.

(** One round of the loop. *)
(* src: runner/cmd/runner/main.go:112-174 run *)
Definition round (p : Processor pg E) (s : loop_state) : M W loop_result :=
  s ← refresh s; s ← beat s; work p s.

(* src: runner/cmd/runner/main.go:112-174 run *)
Fixpoint loop (rounds : nat) (p : Processor pg E) (s : loop_state) : M W loop_result :=
  match rounds with
  | O => mret (Running s)
  | S rounds =>
      r ← round p s;
      match r with
      | Running s => loop rounds p s
      | Returned => mret Returned
      end
  end.

(** Everything before the loop. *)
(* src: runner/cmd/runner/main.go:45-111 run *)
Definition start : M W (Processor pg E * loop_state) :=
  bootstrap ← lift (Load (lookup_env m));
  box ← lift (NewSecretBox (new_cipher m) (new_gcm m) (EncryptionKey bootstrap));
  workerID ← lift (newWorkerID (hostname m) (pid m) (worker_random m));
  _ ← open_store (PostgresDSN bootstrap) workerID;
  '(identity, name, address) ← lift (runnerIdentity (hostname m));
  active ← root_call (pg_register (randomUUID (uuid_random m)) identity name address);
  settings ← root_call (World.LoadSettings (Repository := repository));
  _ ← lift (validateExecutorWorkspace (Model.WorkspaceRoot settings));
  _ ← on_os (AcquireRunnerHostLock (flock m) DefaultCredentialRoot);
  _ ← on_os (PrepareRunnerCredentialRoot DefaultCredentialRoot);
  _ ← on_os (ScavengeWorkspaceSecrets (Model.WorkspaceRoot settings));
  let processor := {| secretBox := box; executor := command_executor m; credentialRoot := DefaultCredentialRoot;
                      libraries := libs m |} in
  _ ← wrapM (wrap "recover stale jobs: %w") (root_call (World.RecoverStaleJobs (Repository := repository) (StaleJobAfter settings)));
  lastRefresh ← reads (clock m);
  lastBeat ← reads (clock m);
  mret (processor, {| lv_settings := settings; lv_active := active; lv_last_refresh := lastRefresh; lv_last_beat := lastBeat |}).

(* src: runner/cmd/runner/main.go:45-175 run *)
Definition run (rounds : nat) : M W loop_result :=
  '(p, s) ← start; loop rounds p s.
End runner.

(** ** The executor *)

(** [net.FileListener] on the inherited descriptor: the address of a Unix
    listener, [Some None] for a listener of another kind. *)
Record activation := {
  ac_file : bool;                                (* os.NewFile returned a file *)
  ac_listener : result (option string)
}.

(* src: runner/cmd/executor/main.go:73-93 activatedListener *)
Definition activatedListener (a : activation) : result unit :=
  _ ← fail_if (negb (ac_file a)) (error_new "systemd executor socket descriptor is unavailable");
  listener ← map_err (wrap "open systemd executor socket: %w") (ac_listener a);
  address ← of_option (error_new "systemd executor socket is not Unix domain socket") listener;
  fail_if (negb (bool_decide (address = DefaultSocketPath))) (Errorf "executor socket must be %s" [FStr DefaultSocketPath]).

(** [lookup]: the UID field of [user.Lookup]. *)
(* src: runner/cmd/executor/main.go:95-105 lookupSystemUID *)
Definition lookupSystemUID (lookup : string → result string) (name : string) : result Z :=
  uid ← lookup name;
  of_option (Wrapf "parse UID for %s: %w" [FStr name] (External "invalid syntax")) (parse_uint 32 uid).

Section executor.
Context (range : gmap string string → list (string * string)).
Context {D : Type} `{Writer D, Codec wireRequest, Codec wireFrame, ErrorText}.

(** The program; [accept] is the one connection, [local] the process runner. *)
(* src: runner/cmd/executor/main.go:37-68 run *)
Definition executor_run (lookup : string → result string) (a : activation) (local : CommandExecutor (@session D))
    (ctx_done : bool) (accept : result (option (result Z * reader * D))) : M os unit :=
  let serve server : M os unit := λ o,
    let '(e, o) := Serve range server local ctx_done accept o in (of_err e, o) in
  o ← gets id;
  _ ← lift (fail_if (euid o =? 0) (error_new "releasedock-executor refuses to run as root"));
  runnerUID ← lift (map_err (wrap "resolve Runner account: %w") (lookupSystemUID lookup "releasedock-runner"));
  _ ← lift (fail_if (euid o `mod` 2 ^ 32 =? runnerUID) (error_new "executor and Runner must use different operating-system users"));
  _ ← PrepareExecutorCredentialRoot DefaultExecutorCredentialRoot;
  _ ← lift (activatedListener a);
  server ← lift (NewServer DefaultWorkspaceRoot runnerUID true);
  serve server.
End executor.
