(* ===== verification/MainProofs.v ===== *)
(** * The Runner and the executor as whole programs (theorems about Main.v)

    Compositions: the Runner's loop over the pipeline and the job queue, a
    second Runner on the same host, the end of the loop, and the executor
    program around its server. *)
From S2P Require Import Db Store PgRepository Queue StoreProofs QueueSafety.
From S2P Require Import Prelude GoIO GoString GoPath OS Model Archive Secrets Command Wire Socket.
From S2P Require Import Files Encoding Crypto Manifest Health Runtime Registry Redact Logstream World Pipeline.
From S2P Require Import Frame PipelineProofs Main.
From stdpp Require Import relations.
Open Scope Z_scope.

Section runner.
Context {E : Type} (m : machine E).
Context (decode_health : string → result (list HealthCheck)) (decode_args : string → result (list string)).
Context `{ErrorText}.
Notation W := (world pg E).
Notation repository := (pg_repository decode_health decode_args).
#[local] Existing Instance pg_repository.
Notation run := (run m decode_health decode_args).
Notation start := (start m decode_health decode_args).
Notation loop := (loop m decode_health decode_args).
Notation root_call := (root_call decode_health decode_args).

(** ** The queue under a running Runner *)
Section queue.
Context (t : tables).
Notation since := (since decode_health decode_args t).
Definition repo_since (w : W) : Prop := since (w_repo w).

Lemma pulse_since : preserves repo_since (pulse (H := repository)).
Proof.
  apply preserves_state. intros w Hw.
  pose proof (advances_pulse (R := pg) (H := repository) (λ _, True) (λ _ _, I) since (pg_keeps _ _ t) w) as [[_ _ _ Hk] _].
  by apply Hk.
Qed.
Lemma root_call_since {A} (c : M pg A) : (∀ r, since r → since (c r).2) → preserves repo_since (root_call c).
Proof.
  intros Hc. apply preserves_bind; [apply pulse_since|intros _]. apply preserves_state. intros w Hw.
  cbv beta. destruct (w_stopped w); [done|]. specialize (Hc (w_repo w) Hw). unfold repo_since.
  by destruct (c (w_repo w)).
Qed.
Lemma on_os_since {A} (c : M os A) : preserves repo_since (on_os c : M W A).
Proof. apply preserves_state. intros w Hw. unfold on_os. by destruct (c (get_os w)). Qed.
Lemma on_env_since {A} (c : M E A) : preserves repo_since (on_env c : M W A).
Proof. apply preserves_state. intros w Hw. unfold on_env. by destruct (c (w_env w)). Qed.
Lemma reads_since {A} (f : E → A * E) : preserves repo_since (reads f).
Proof. apply on_env_since. Qed.
Lemma poll_since s : preserves repo_since (poll m decode_health decode_args s).
Proof.
  apply preserves_bind; [|intros b; apply preserves_ret].
  apply preserves_bind; [apply pulse_since|intros _]. apply preserves_bind; [apply preserves_gets|intros b].
  destruct b; [|apply preserves_ret]. apply preserves_bind; [apply reads_since|intros x; apply preserves_ret].
Qed.
Lemma refresh_since s : preserves repo_since (refresh m decode_health decode_args s).
Proof.
  apply preserves_bind; [apply reads_since|intros now]. destruct (negb _); [apply preserves_ret|].
  apply preserves_bind; [apply preserves_try, root_call_since; intros r; apply LoadSettings_since|intros x].
  apply preserves_bind; [apply preserves_try, root_call_since; intros r; apply RecoverStaleJobs_since|intros _].
  apply preserves_bind; [apply reads_since|intros n; apply preserves_ret].
Qed.
Lemma beat_since s : preserves repo_since (Main.beat m decode_health decode_args s).
Proof.
  apply preserves_bind; [apply reads_since|intros now]. destruct (negb _); [apply preserves_ret|].
  apply preserves_bind; [apply preserves_try, root_call_since; intros r; apply pg_beat_since|intros x].
  apply preserves_bind; [apply reads_since|intros n; apply preserves_ret].
Qed.

Lemma work_since (p : Processor pg E) `{!LawfulExecutor (executor p)} s : preserves repo_since (work m decode_health decode_args p s).
Proof.
  unfold work. destruct (negb _); [apply poll_since|].
  apply preserves_bind; [apply preserves_try, root_call_since; intros r; apply ClaimJob_since|intros [job|e]; [|apply poll_since]].
  apply preserves_bind; [apply reads_since|intros names]. apply preserves_bind; [|intros x; apply preserves_ret].
  apply preserves_try, preserves_state. intros w Hw. unfold repo_since. apply Process_keeps; [done|apply pg_keeps|done].
Qed.
Lemma loop_since (p : Processor pg E) `{!LawfulExecutor (executor p)} rounds s : preserves repo_since (loop rounds p s).
Proof.
  revert s. induction rounds as [|rounds IH]; intros s; [apply preserves_ret|].
  apply preserves_bind; [|intros [s'|]; [apply IH|apply preserves_ret]].
  apply preserves_bind; [apply refresh_since|intros s1]. apply preserves_bind; [apply beat_since|intros s2]. by apply work_since.
Qed.
Lemma open_store_since dsn id : preserves repo_since (open_store m dsn id).
Proof. apply preserves_bind; [apply preserves_lift|intros _]. by apply preserves_state. Qed.

Context `{!LawfulExecutor (command_executor m)}.
Lemma start_since : triple repo_since start (λ r w, executor r.1 = command_executor m ∧ repo_since w) repo_since.
Proof.
  unfold start.
  repeat first
    [ apply (triple_bind _ _ _ (λ _, repo_since));
        [first [apply preserves_lift|apply open_store_since|apply on_os_since|apply reads_since
               |apply root_call_since; intros r; first [apply pg_register_since|apply LoadSettings_since|apply RecoverStaleJobs_since]
               |apply preserves_wrap, root_call_since; intros r; apply RecoverStaleJobs_since]|]; intros ?
    | case_match ].
  all: by apply triple_ret.
Qed.
Lemma run_since rounds : preserves repo_since (run rounds).
Proof.
  apply (triple_bind _ _ _ (λ r w, executor r.1 = command_executor m ∧ repo_since w)); [apply start_since|].
  intros [p s] w [Hp Hw]. cbn [fst] in Hp. assert (LawfulExecutor (executor p)) as Hlaw by (by rewrite Hp).
  by apply loop_since.
Qed.
End queue.

(** C23: the whole Runner, composed with the queue.  Whatever it does from its
    start on, over any number of rounds, with any jobs, commands, database
    failures and any other Runners, backends and administrators acting between
    its calls, the tables only change by steps of the queue's system: they stay
    reachable, so that every invariant of the queue holds throughout. *)
Theorem runner_keeps_the_queue rounds (w : W) r w' :
  LawfulExecutor (command_executor m) → lawful_others decode_health decode_args (pg_others (w_repo w)) →
  reachable decode_health decode_args (tabs (pg_db (w_repo w))) → run rounds w = (r, w') →
  rtc (db_step decode_health decode_args) (tabs (pg_db (w_repo w))) (tabs (pg_db (w_repo w')))
  ∧ reachable decode_health decode_args (tabs (pg_db (w_repo w'))).
Proof.
  intros Hlaw Ho (t0 & H0 & Hs) Hr.
  pose proof (proj1 (preserves_state _ _) (run_since (tabs (pg_db (w_repo w))) rounds) w (conj Ho (rtc_refl _ _))) as [_ Ht].
  rewrite Hr in Ht. cbn [snd] in Ht. split; [done|]. exists t0. split; [done|]. by etrans.
Qed.

(** ** A second Runner on the host *)

(** Only the Runners' inventory differs. *)
Definition inventory_only (t t' : tables) : Prop := t' = set_runners (λ _, runners t') t.
Lemma inventory_refl t : inventory_only t t.
Proof. unfold inventory_only. by destruct t. Qed.
Lemma inventory_trans t1 t2 t3 : inventory_only t1 t2 → inventory_only t2 t3 → inventory_only t1 t3.
Proof. unfold inventory_only. intros -> H2. rewrite H2. done. Qed.
Lemma RegisterRunner_inventory s uuid i n a d : inventory_only (tabs d) (tabs (Store.RegisterRunner s uuid i n a d).2).
Proof.
  unfold Store.RegisterRunner, mbind, M_bind, lift, wrapM, pool, statement, inventory_only.
  destruct (fail_if _ _), uuid; try apply inventory_refl. cbn [db_aborted ticked_db].
  destruct (db_faults _ _); [apply inventory_refl|]. by destruct (runners (tabs d) !! i).
Qed.

Section second.
Context (w0 : W).
Definition harmless (w : W) : Prop :=
  w_heartbeat w = HbIdle ∧ w_trace w = w_trace w0 ∧ files_kept (fs (w_os w0)) (fs (w_os w))
  ∧ pg_others (w_repo w) = pg_others (w_repo w0)
  ∧ ((∀ n d, pg_others (w_repo w0) n d = d) → inventory_only (tabs (pg_db (w_repo w0))) (tabs (pg_db (w_repo w)))).

Lemma idle_signals l (w : W) : w_heartbeat w = HbIdle →
  let w' := foldl (on_signal (H := repository)) w l in
  w_heartbeat w' = HbIdle ∧ w_trace w' = w_trace w ∧ w_os w' = w_os w ∧ w_repo w' = w_repo w ∧ w_env w' = w_env w.
Proof.
  revert w. induction l as [|s l IH]; intros w Hw; [done|]. cbn [foldl]. assert (∃ b c, on_signal (H := repository) w s
    = World (w_os w) (w_repo w) (w_env w) (w_trace w) HbIdle b c (w_signals w) (w_state w) (w_budget w) (w_out w) (w_err w) (w_redout w) (w_rederr w)) as (b & c & ->).
  { unfold on_signal, stop. rewrite Hw. destruct w, s; cbn in *; subst; by eexists _, _. }
  match goal with |- context [foldl _ ?x l] => exact (IH x eq_refl) end.
Qed.
Lemma pulse_harmless : preserves harmless (pulse (H := repository)).
Proof.
  apply preserves_state. intros w (Hi & Ht & Hf & Ho & Hd). unfold pulse. destruct (w_signals w) as [|l rest]; [done|]. cbn [snd].
  destruct (idle_signals l (set_signals rest w) Hi) as (H1 & H2 & H3 & H4 & _). unfold harmless. by rewrite H2, H3, H4.
Qed.
(** A call that changes the inventory at most. *)
Definition inventory_call {A} (c : M pg A) : Prop := ∀ r, let r' := (c r).2 in
  pg_others r' = pg_others r ∧ ((∀ n d, pg_others r n d = d) → inventory_only (tabs (pg_db r)) (tabs (pg_db r'))).
Lemma root_call_harmless {A} (c : M pg A) : inventory_call c → preserves harmless (root_call c).
Proof.
  intros Hc. apply preserves_bind; [apply pulse_harmless|intros _]. apply preserves_state. intros w Hw. cbv beta.
  destruct (w_stopped w); [done|]. destruct Hw as (Hi & Ht & Hf & Ho & Hd). destruct (Hc (w_repo w)) as [H1 H2].
  destruct (c (w_repo w)) as [r x]. cbn [snd] in *. split_and!; [done..|cbn; congruence|]. cbn. intros Hq.
  eapply inventory_trans; [by apply Hd|]. apply H2. by rewrite Ho.
Qed.
Lemma settings_inventory : inventory_call (World.LoadSettings (Repository := repository)).
Proof.
  intros r. cbn. unfold on_pg. pose proof (LoadSettings_tabs (pg_others r (pg_calls r) (pg_db r))) as Hl.
  destruct (Store.LoadSettings _) as [a d]. cbn in *. split; [done|]. intros Hq. rewrite Hl, Hq. apply inventory_refl.
Qed.
Lemma register_inventory uuid i n a : inventory_call (pg_register uuid i n a).
Proof.
  intros r. unfold pg_register, on_pg.
  pose proof (RegisterRunner_inventory (pg_store r) uuid i n a (pg_others r (pg_calls r) (pg_db r))) as Hl.
  destruct (Store.RegisterRunner _ _ _ _ _ _) as [[[active s]|e] d]; cbn in *; (split; [done|]; intros Hq; by rewrite Hq in Hl).
Qed.
Lemma start_busy : flock m = Ok false → triple harmless start (λ _ _, False) harmless.
Proof.
  intros Hbusy. unfold start.
  do 3 (apply (triple_bind _ _ _ (λ _, harmless)); [apply preserves_lift|intros ?]).
  apply (triple_bind _ _ _ (λ _, harmless)).
  { apply preserves_bind; [apply preserves_lift|intros _]. apply preserves_state. intros w (? & ? & ? & ? & ?). by split_and!. }
  intros _. apply (triple_bind _ _ _ (λ _, harmless)); [apply preserves_lift|intros [[identity name] address]].
  apply (triple_bind _ _ _ (λ _, harmless)); [apply root_call_harmless, register_inventory|intros active].
  apply (triple_bind _ _ _ (λ _, harmless)); [apply root_call_harmless, settings_inventory|intros settings].
  apply (triple_bind _ _ _ (λ _, harmless)); [apply preserves_lift|intros _].
  apply (triple_bind _ _ _ (λ _ _, False)); [|by intros ? ? ?].
  intros w (Hi & Ht & Hf & Ho & Hd). unfold on_os. rewrite Hbusy. cbn [get_os world_has_os].
  pose proof (proj1 (preserves_state _ _) (host_lock_keeps (Ok false) DefaultCredentialRoot (fs (w_os w0))) (w_os w) Hf) as Hk.
  destruct (AcquireRunnerHostLock _ _ (w_os w)) as [[u|e] o] eqn:Eo; [by apply host_lock_busy in Eo|]. by split_and!.
Qed.
End second.


(** ** The end of the loop *)

(** The calls of a round, computed. *)
Definition pulsed (w : W) : W := (pulse (H := repository) w).2.
Lemma pulsed_heard (w : W) : heard w (pulsed w).
Proof. by destruct (advances_pulse (H := repository) (λ _, True) (λ _ _, I) (λ _, True) (keeps_nothing (H := repository)) w). Qed.
Lemma pulsed_consumes (w : W) : w_signals (pulsed w) = drop 1 (w_signals w).
Proof.
  unfold pulsed, pulse. destruct (w_signals w) as [|l rest] eqn:Eg; [done|]. cbn [snd drop].
  assert (∀ w : W, w_signals (foldl (on_signal (H := repository)) w l) = w_signals w) as ->; [|done].
  clear w Eg. induction l as [|s l IH]; intros w; [done|]. cbn. rewrite IH.
  by destruct (signal_effects (H := repository) (λ _, True) (λ _ _, I) (λ _, True) (keeps_nothing (H := repository)) w s) as (_ & Hs & _).
Qed.

Lemma root_call_run {A} (c : M pg A) (w : W) :
  root_call c w = if w_stopped (pulsed w) then (Err (Sentinel Canceled), pulsed w)
                  else let '(r, s) := c (w_repo (pulsed w)) in (r, set_repo s (pulsed w)).
Proof.
  unfold root_call, pulsed, mbind, M_bind, pulse. by destruct (w_signals w).
Qed.
Lemma poll_run s (w : W) :
  poll m decode_health decode_args s w =
    if w_stopped (pulsed w)
    then let '(timer, e) := timer_first m (w_env (pulsed w)) in (Ok (if negb timer then Returned else Running s), set_env e (pulsed w))
    else (Ok (Running s), pulsed w).
Proof.
  unfold poll, wait_poll, pulsed, mbind, M_bind, gets, pulse. destruct (w_signals w); cbn;
    (match goal with |- context [w_stopped ?x] => destruct (w_stopped x) end; [|done]); unfold reads, on_env;
    by destruct (timer_first m _).
Qed.

Lemma heard_stopped (w w' : W) : heard w w' → w_stopped w = true → w_stopped w' = true.
Proof. intros (used & _ & ->) ->. done. Qed.
Lemma heard_pending (w w' : W) : heard w w' →
  w_stopped w || shutdown_in (w_signals w) = w_stopped w' || shutdown_in (w_signals w').
Proof. intros (used & -> & ->). unfold shutdown_in. by rewrite existsb_app, orb_assoc. Qed.
Lemma heard_shorter (w w' : W) : heard w w' → (length (w_signals w') ≤ length (w_signals w))%nat.
Proof. intros (used & -> & _). rewrite length_app. lia. Qed.

(** Signals are heard, and no heartbeat of a job is left. *)
Definition heeds (w w' : W) : Prop := heard w w' ∧ (w_heartbeat w = HbIdle → w_heartbeat w' = HbIdle).
#[local] Instance heeds_preorder : PreOrder heeds.
Proof. split; [intros w; by split|]. intros w1 w2 w3 [H1 I1] [H2 I2]. split; [by etrans|by auto]. Qed.
Lemma heeds_same (w w' : W) :
  w_signals w' = w_signals w → w_stopped w' = w_stopped w → w_heartbeat w' = w_heartbeat w → heeds w w'.
Proof. intros ?? Hh. split; [by apply heard_same|by rewrite Hh]. Qed.
Lemma pulsed_idle (w : W) : w_heartbeat w = HbIdle →
  w_heartbeat (pulsed w) = HbIdle ∧ w_trace (pulsed w) = w_trace w ∧ w_os (pulsed w) = w_os w ∧ w_repo (pulsed w) = w_repo w ∧ w_env (pulsed w) = w_env w.
Proof. intros Hi. unfold pulsed, pulse. destruct (w_signals w) as [|l rest]; [done|]. by apply (idle_signals l (set_signals rest w)). Qed.
Lemma pulsed_heeds w : heeds w (pulsed w).
Proof. split; [apply pulsed_heard|intros Hi; by apply pulsed_idle]. Qed.

(** A computation that returns and only heeds. *)
Definition settles {A} (c : M W A) : Prop := ∀ w, ∃ a w', c w = (Ok a, w') ∧ heeds w w'.
Lemma settles_bind {A B} (c : M W A) (f : A → M W B) : settles c → (∀ a, settles (f a)) → settles (c ≫= f).
Proof.
  intros Hc Hf w. destruct (Hc w) as (a & w1 & H1 & G1), (Hf a w1) as (b & w2 & H2 & G2). exists b, w2.
  unfold mbind, M_bind. rewrite H1. split; [done|by etrans].
Qed.
Lemma settles_ret {A} (a : A) : settles (mret a : M W A).
Proof. intros w. by exists a, w. Qed.
Lemma settles_try_root {A} (c : M pg A) : settles (try (root_call c)).
Proof.
  intros w. unfold try. rewrite root_call_run. pose proof (pulsed_heeds w) as Hg. destruct (w_stopped (pulsed w)); [by eexists _, _|].
  destruct (c _) as [r x]. eexists _, _. split; [done|]. etrans; [exact Hg|]. by apply heeds_same.
Qed.
Lemma settles_reads {A} (f : E → A * E) : settles (reads f).
Proof. intros w. unfold reads, on_env. destruct (f (w_env w)) as [a e]. eexists _, _. split; [done|]. by apply heeds_same. Qed.
Lemma settles_refresh s : settles (refresh m decode_health decode_args s).
Proof.
  apply settles_bind; [apply settles_reads|intros now]. destruct (negb _); [apply settles_ret|].
  do 2 (apply settles_bind; [apply settles_try_root|intros ?]). apply settles_bind; [apply settles_reads|intros ?]. apply settles_ret.
Qed.
Lemma settles_beat s : settles (Main.beat m decode_health decode_args s).
Proof.
  apply settles_bind; [apply settles_reads|intros now]. destruct (negb _); [apply settles_ret|].
  apply settles_bind; [apply settles_try_root|intros ?]. apply settles_bind; [apply settles_reads|intros ?]. apply settles_ret.
Qed.

Lemma poll_ends s w : ∃ r w', poll m decode_health decode_args s w = (Ok r, w') ∧ heeds (pulsed w) w'.
Proof.
  rewrite poll_run. destruct (w_stopped (pulsed w)); [|by eexists _, _].
  destruct (timer_first m _) as [b e]. eexists _, _. split; [done|]. by apply heeds_same.
Qed.
Lemma work_ends (p : Processor pg E) `{!LawfulExecutor (executor p)} s w :
  ∃ r w', work m decode_health decode_args p s w = (Ok r, w') ∧ heeds (pulsed w) w'.
Proof.
  unfold work. destruct (negb _); [apply poll_ends|]. unfold mbind at 1, M_bind at 1, try at 1. rewrite root_call_run.
  assert (∀ s w1, heeds (pulsed w) w1 → ∃ r w', poll m decode_health decode_args s w1 = (Ok r, w') ∧ heeds (pulsed w) w') as Hpoll.
  { intros s1 w1 Hg. destruct (poll_ends s1 w1) as (r & w' & Hr & Hg1). exists r, w'. split; [done|].
    etrans; [exact Hg|]. etrans; [apply pulsed_heeds|exact Hg1]. }
  destruct (w_stopped (pulsed w)); [by apply Hpoll|]. destruct (World.ClaimJob _ _) as [[job|e] x]; [|apply Hpoll; by apply heeds_same].
  unfold mbind at 1, M_bind at 1, reads, on_env. destruct (temp_names m _) as [names env]. cbv beta iota zeta.
  unfold mbind, M_bind, try. set (w1 := set_env env _).
  pose proof (Process_heard (H := repository) p (lv_settings s) job names w1) as Hg.
  pose proof (Process_idle (H := repository) p (lv_settings s) job names w1) as Hi. destruct (Process _ _ _ _ w1) as [ran w2].
  eexists _, _. split; [done|]. etrans; [by apply (heeds_same _ w1)|by split].
Qed.
Lemma round_ends (p : Processor pg E) `{!LawfulExecutor (executor p)} s w :
  ∃ r w', Main.round m decode_health decode_args p s w = (Ok r, w') ∧ heeds w w'
    ∧ (w_signals w ≠ [] → (length (w_signals w') < length (w_signals w))%nat).
Proof.
  unfold Main.round. destruct (settles_refresh s w) as (s1 & w1 & H1 & G1). unfold mbind at 1, M_bind at 1. rewrite H1.
  destruct (settles_beat s1 w1) as (s2 & w2 & H2 & G2). unfold mbind, M_bind. rewrite H2.
  destruct (work_ends p s2 w2) as (r & w3 & H3 & G3). exists r, w3. assert (heeds w w2) as G12 by (by etrans).
  split; [done|]. split; [etrans; [exact G12|]; etrans; [apply pulsed_heeds|exact G3]|].
  intros Hne. apply proj1, heard_shorter in G3. rewrite pulsed_consumes, length_drop in G3. apply proj1, heard_shorter in G12.
  destruct (w_signals w); [done|]. simpl in *. lia.
Qed.

(** ** After the order to stop

    The [select] of a poll chooses at random between the timer and the order;
    [patience] bounds how often in a row it will take the timer. *)
Section patience.
Context (patience : E → nat) (Hclock : ∀ e, (patience (clock m e).2 ≤ patience e)%nat).
Context (Hselect : ∀ e, (timer_first m e).1 = true → (patience (timer_first m e).2 < patience e)%nat).

(** Nothing is done: no call about a job, no statement, no command, no file. *)
Definition left_alone (w w' : W) : Prop := w_repo w' = w_repo w ∧ w_trace w' = w_trace w ∧ w_os w' = w_os w.
Definition told (w : W) : Prop := w_stopped w = true ∧ w_heartbeat w = HbIdle.
Definition waits (w w' : W) : Prop := told w' ∧ left_alone w w' ∧ (patience (w_env w') ≤ patience (w_env w))%nat.
Lemma waits_trans w1 w2 w3 : waits w1 w2 → waits w2 w3 → waits w1 w3.
Proof.
  intros (_ & (R1 & T1 & O1) & P1) (Ht & (R2 & T2 & O2) & P2). split; [done|]. split; [split_and!; congruence|lia].
Qed.
Lemma waits_pulsed w : told w → waits w (pulsed w).
Proof.
  intros [Hs Hi]. destruct (pulsed_idle w Hi) as (H1 & H2 & H3 & H4 & H5).
  split; [split; [by apply (heard_stopped w), Hs; apply pulsed_heard|done]|]. split; [by split_and!|by rewrite H5].
Qed.

Definition idles {A} (c : M W A) : Prop := ∀ w, told w → ∃ a w', c w = (Ok a, w') ∧ waits w w'.
Lemma idles_bind {A B} (c : M W A) (f : A → M W B) : idles c → (∀ a, idles (f a)) → idles (c ≫= f).
Proof.
  intros Hc Hf w Hw. destruct (Hc w Hw) as (a & w1 & H1 & G1), (Hf a w1 (proj1 G1)) as (b & w2 & H2 & G2). exists b, w2.
  unfold mbind, M_bind. rewrite H1. split; [done|by eapply waits_trans].
Qed.
Lemma idles_ret {A} (a : A) : idles (mret a : M W A).
Proof. intros w Hw. by exists a, w. Qed.
Lemma idles_clock : idles (reads (clock m)).
Proof.
  intros w Hw. pose proof (Hclock (w_env w)) as Hp. unfold reads, on_env. destruct (clock m (w_env w)) as [a e]. by eexists _, _.
Qed.
Lemma told_root {A} (c : M pg A) w : told w → root_call c w = (Err (Sentinel Canceled), pulsed w).
Proof. intros Hw. rewrite root_call_run. by rewrite (proj1 (proj1 (waits_pulsed w Hw))). Qed.
Lemma idles_try_root {A} (c : M pg A) : idles (try (root_call c)).
Proof. intros w Hw. unfold try. rewrite told_root by done. eexists _, _. split; [done|by apply waits_pulsed]. Qed.
Lemma idles_refresh s : idles (refresh m decode_health decode_args s).
Proof.
  apply idles_bind; [apply idles_clock|intros now]. destruct (negb _); [apply idles_ret|].
  do 2 (apply idles_bind; [apply idles_try_root|intros ?]). apply idles_bind; [apply idles_clock|intros ?]. apply idles_ret.
Qed.
Lemma idles_beat s : idles (Main.beat m decode_health decode_args s).
Proof.
  apply idles_bind; [apply idles_clock|intros now]. destruct (negb _); [apply idles_ret|].
  apply idles_bind; [apply idles_try_root|intros ?]. apply idles_bind; [apply idles_clock|intros ?]. apply idles_ret.
Qed.
(** A round returns, or its [select] took the timer. *)
Definition gives_up (w : W) (r : loop_result) (w' : W) : Prop :=
  left_alone w w' ∧ (r = Returned ∨ told w' ∧ (patience (w_env w') < patience (w_env w))%nat).
Lemma gives_up_later w w1 r w' : waits w w1 → gives_up w1 r w' → gives_up w r w'.
Proof.
  intros (_ & (R1 & T1 & O1) & P1) [(R2 & T2 & O2) Hr]. split; [split_and!; congruence|].
  destruct Hr as [->|[Ht Hp]]; [by left|right; split; [done|lia]].
Qed.
Lemma poll_told s w : told w → ∃ r w', poll m decode_health decode_args s w = (Ok r, w') ∧ gives_up w r w'.
Proof.
  intros Hw. rewrite poll_run. pose proof (waits_pulsed w Hw) as Hg. pose proof Hg as (Ht & _). pose proof Ht as [Hs Hi]. rewrite Hs.
  pose proof (Hselect (w_env (pulsed w))) as Hlt. destruct (timer_first m _) as [[] e]; cbn in Hlt; eexists _, _;
    (split; [done|apply (gives_up_later _ _ _ _ Hg)]); (split; [done|]); [right; split; [done|by apply Hlt]|by left].
Qed.
Lemma work_told (p : Processor pg E) s w : told w → ∃ r w', work m decode_health decode_args p s w = (Ok r, w') ∧ gives_up w r w'.
Proof.
  intros Hw. unfold work. destruct (negb _); [by apply poll_told|]. unfold mbind at 1, M_bind at 1, try at 1. rewrite told_root by done.
  pose proof (waits_pulsed w Hw) as Hg. cbv beta iota.
  match goal with |- context [poll _ _ _ ?x (pulsed w)] => destruct (poll_told x (pulsed w) (proj1 Hg)) as (r & w' & Hr & Hu) end.
  exists r, w'. split; [done|by eapply gives_up_later].
Qed.
Lemma round_told (p : Processor pg E) s w : told w → ∃ r w', Main.round m decode_health decode_args p s w = (Ok r, w') ∧ gives_up w r w'.
Proof.
  intros Hw. unfold Main.round. destruct (idles_refresh s w Hw) as (s1 & w1 & H1 & G1). unfold mbind at 1, M_bind at 1. rewrite H1.
  destruct (idles_beat s1 w1 (proj1 G1)) as (s2 & w2 & H2 & G2). unfold mbind, M_bind. rewrite H2.
  destruct (work_told p s2 w2 (proj1 G2)) as (r & w3 & H3 & G3). exists r, w3. split; [done|]. by do 2 (eapply gives_up_later; [eassumption|]).
Qed.

Lemma loop_step (p : Processor pg E) n s w : loop (S n) p s w =
  match Main.round m decode_health decode_args p s w with
  | (Ok (Running s), w) => loop n p s w
  | (Ok Returned, w) => (Ok Returned, w)
  | (Err e, w) => (Err e, w)
  end.
Proof. cbn [Main.loop]. unfold mbind, M_bind. by destruct (Main.round _ _ _ _ _ _) as [[[]|] ?]. Qed.
Lemma loop_told (p : Processor pg E) n s w : told w → (patience (w_env w) < n)%nat →
  ∃ w', loop n p s w = (Ok Returned, w') ∧ left_alone w w'.
Proof.
  revert s w. induction n as [|n IH]; intros s w Hw Hp; [lia|]. rewrite loop_step.
  destruct (round_told p s w Hw) as (r & w1 & -> & Ha & Hr). destruct r as [s1|]; [|by exists w1].
  destruct Hr as [|[Ht Hlt]]; [done|]. destruct (IH s1 w1 Ht ltac:(lia)) as (w' & Hw' & Ha'). exists w'. split; [done|].
  destruct Ha as (R1 & T1 & O1), Ha' as (R2 & T2 & O2). split_and!; congruence.
Qed.
End patience.

(** The order is heard, if the loop has not returned with it. *)
Lemma loop_hears (p : Processor pg E) `{!LawfulExecutor (executor p)} n : ∀ s w,
  w_heartbeat w = HbIdle → w_stopped w || shutdown_in (w_signals w) = true → (length (w_signals w) ≤ n)%nat →
  ∃ rounds r w1, (rounds ≤ n)%nat ∧ (w_stopped w = true → rounds = 0%nat) ∧ loop rounds p s w = (Ok r, w1)
    ∧ match r with Returned => (0 < rounds)%nat | Running _ => told w1 end.
Proof.
  induction n as [|n IH]; intros s w Hi Hp Hlen; (destruct (w_stopped w) eqn:Es;
    [exists 0%nat, (Running s), w; split_and!; [lia|done..]|]); [by destruct (w_signals w); [|simpl in Hlen; lia]|].
  destruct (round_ends p s w) as (r & w1 & H1 & [G1 I1] & L1). rewrite <- Es, (heard_pending w w1 G1) in Hp.
  destruct r as [s1|]; [|exists 1%nat, Returned, w1; rewrite loop_step, H1; split_and!; [lia|done..|lia]].
  destruct (IH s1 w1 (I1 Hi) Hp) as (rounds & r & w2 & Hr & _ & Hl & Ht).
  { apply heard_shorter in G1. destruct (w_signals w); [simpl in *; lia|]. specialize (L1 ltac:(done)). lia. }
  exists (S rounds), r, w2. rewrite loop_step, H1. split_and!; [lia|done|done|]. destruct r; [done|lia].
Qed.

(** C37: a Runner that is told to stop returns.  When the signals still to come
    contain the order to stop, whatever job is running, whatever the database
    answers and however the calls fail, then within as many rounds as there are
    synchronisation points to come (at once, when it was told already)
    the loop has returned without an error or heard the order.  From then on it
    claims no job, makes no statement, starts no command and changes no file,
    and it returns as soon as the [select] of a poll takes the order and not the
    timer that is ready as well; Go chooses between the two at random, and the
    rounds are bounded by how often in a row ([patience]) the timer is chosen. *)
Theorem shutdown_ends_the_loop (p : Processor pg E) (patience : E → nat) s w :
  LawfulExecutor (executor p) → w_heartbeat w = HbIdle → w_stopped w || shutdown_in (w_signals w) = true →
  (∀ e, (patience (clock m e).2 ≤ patience e)%nat) →
  (∀ e, (timer_first m e).1 = true → (patience (timer_first m e).2 < patience e)%nat) →
  ∃ rounds r w1, (rounds ≤ length (w_signals w))%nat ∧ (w_stopped w = true → rounds = 0%nat) ∧ loop rounds p s w = (Ok r, w1)
    ∧ match r with
      | Returned => (0 < rounds)%nat
      | Running s1 => w_stopped w1 = true ∧ ∃ w', loop (S (patience (w_env w1))) p s1 w1 = (Ok Returned, w') ∧ left_alone w1 w'
      end.
Proof.
  intros Hlaw Hi Hp Hclock Hselect. destruct (loop_hears p (length (w_signals w)) s w Hi Hp (Nat.le_refl _)) as (rounds & r & w1 & H1 & H2 & H3 & Ht).
  exists rounds, r, w1. split_and!; [done..|]. destruct r as [s1|]; [|done]. split; [apply Ht|].
  apply (loop_told patience Hclock Hselect); [done|lia].
Qed.
End runner.

(** ** The executor program *)
Section executor.
Context (range : gmap string string → list (string * string)).
Context {D : Type} `{Writer D, Codec wireRequest, Codec wireFrame, ErrorText}.
Notation session := (@session D).

(** What holds when the program serves its connection. *)
Record serving (lookup : string → result string) (a : activation) (o o1 : os) (s : Server) : Prop := {
  sv_account : lookupSystemUID lookup "releasedock-runner" = Ok (RunnerUID s);
  sv_not_root : euid o ≠ 0;
  sv_separate : euid o `mod` 2 ^ 32 ≠ RunnerUID s;
  sv_socket : ac_listener a = Ok (Some DefaultSocketPath);
  sv_server : NewServer DefaultWorkspaceRoot (RunnerUID s) true = Ok s;
  sv_private : ∃ l uid gid, owned_dir (fs o) DefaultExecutorCredentialRoot uid gid 448 false l
    ∧ only_removed l (fs o) (fs o1) ∧ ∀ x q, fs o1 !! (l ++ x :: q) = None
}.

Lemma activated a u : activatedListener a = Ok u → ac_listener a = Ok (Some DefaultSocketPath).
Proof.
  unfold activatedListener. intros Ha. inv_ok Ha. subst. apply negb_false_iff, bool_decide_eq_true in Ha. by subst.
Qed.

(** C38: the executor program.  Its process runner is never called with anything
    but an approved command of the Runner: the program runs neither as root nor
    as the Runner's own user, serves the fixed socket, has emptied its private
    credential root before it accepts the connection, answers only the Runner's
    account, and the request has passed the whole validation against the file
    system.  Two process runners that agree on such commands cannot be told
    apart. *)
Theorem executor_runs_only_approved lookup a (local1 local2 : CommandExecutor session) ctx_done accept o :
  range_ok range → fs_wf (fs o) →
  (∀ s o1 r d request rest (spec ran : Spec session) w,
     serving lookup a o o1 s → accept = Ok (Some (Ok (RunnerUID s), r, d)) →
     readPacket r maxRequestBytes = Ok (request, rest) →
     approved s (fs o1) request spec → runs_as s spec ran → local1 ran w = local2 ran w) →
  executor_run range lookup a local1 ctx_done accept o = executor_run range lookup a local2 ctx_done accept o.
Proof.
  intros Hrange Hwf Hagree. unfold executor_run, mbind, M_bind, gets, lift. cbn [id].
  destruct (euid o =? 0) eqn:Eroot; [done|]. cbn [fail_if]. apply Z.eqb_neq in Eroot.
  destruct (lookupSystemUID lookup _) as [uid|e] eqn:Euid; [|done]. cbn [map_err].
  destruct (_ `mod` _ =? uid) eqn:Esame; [done|]. cbn [fail_if]. apply Z.eqb_neq in Esame.
  pose proof (PrepareExecutorCredentialRoot_ok DefaultExecutorCredentialRoot (fs o) ltac:(by vm_compute) Hwf o eq_refl) as Hprep.
  destruct (PrepareExecutorCredentialRoot _ o) as [[[]|e] o1]; [|done].
  destruct (activatedListener a) as [u|e] eqn:Ea; [|done]. apply activated in Ea.
  destruct (NewServer _ uid true) as [s|e] eqn:Es; [|done].
  assert (RunnerUID s = uid) as Hs by (unfold NewServer in Es; inv_ok Es; by simplify_eq).
  assert (serving lookup a o o1 s) as Hserve by (split; rewrite ?Hs; done).
  destruct Hprep as (l & uid' & gid & _ & Hrem & _).
  unfold Serve. destruct accept as [[[[peer r] d]|]|e]; [|done..].
  rewrite (handle_runs_only_approved range s local1 local2 peer r d o1); [done|done| | |].
  - by eapply NewServer_ok.
  - unfold no_root. destruct (fs o1 !! []) as [n|] eqn:En; [|done]. apply (or_sub _ _ _ Hrem) in En. by destruct Hwf as [Hn _]; rewrite Hn in En.
  - intros request rest spec ran w -> Hread Hap Hran. by eapply Hagree.
Qed.
End executor.
