(* ===== verification/MainDemo.v ===== *)
(** * Whole programs evaluated

    A Runner on a small machine, from its start over the claim of a queued
    job, all its steps and its final status in the database, to the order to
    stop; a second Runner that finds the host lock taken; the executor program
    with one request. *)
From S2P Require Import Db Store PgRepository Queue StoreProofs QueueSafety.
From S2P Require Import Prelude GoIO GoString GoPath OS Model Archive Secrets Command Wire Socket.
From S2P Require Import Files Encoding Sha256 Crypto Manifest Health Runtime Registry Redact Logstream World Pipeline.
From S2P Require Import Frame PipelineProofs PipelineDemo Main MainProofs.
From stdpp Require Import relations.
Open Scope Z_scope.

Module program.
#[local] Instance plain_errors : ErrorText := λ e, "failed".

(** ** The machine *)
Definition put_path (p : list string) (n : node) (m : filesystem) : filesystem := <[p := n]> m.
Definition machine_tree : filesystem :=
  put_path ["usr"] (PipelineDemo.demo.node_of 0 493 KDir) $ put_path ["usr"; "bin"] (PipelineDemo.demo.node_of 0 493 KDir) $
  put_path ["usr"; "bin"; "docker"] (PipelineDemo.demo.node_of 0 493 (KReg [])) $
  put_path ["srv"] (PipelineDemo.demo.node_of 0 493 KDir) $ put_path ["srv"; "art"] (PipelineDemo.demo.node_of 0 493 KDir) $
  put_path ["srv"; "art"; "app.tgz"] (PipelineDemo.demo.node_of 7 420 (KReg (to_bytes "abc"))) $
  put_path ["var"] (PipelineDemo.demo.node_of 0 493 KDir) $ put_path ["var"; "lib"] (PipelineDemo.demo.node_of 0 493 KDir) $
  put_path ["var"; "lib"; "releasedock"] (PipelineDemo.demo.node_of 0 493 KDir) $
  put_path ["var"; "lib"; "releasedock"; "workspaces"]
    {| n_kind := KDir; n_uid := 7; n_gid := 8; n_perm := 488; n_setgid := true; n_sticky := false |} $
  put_path ["run"] (PipelineDemo.demo.node_of 0 493 KDir) $
  put_path ["run"; "releasedock-credentials"] (PipelineDemo.demo.node_of 7 456 KDir) ∅.
Definition machine_os : os :=
  {| fs := machine_tree; cwd := []; euid := 7; egid := 8; umask := 18; faults := λ _, None; tick := 0 |}.

Definition printing_command : CommandExecutor (world pg nat) := λ spec w,
  (({| ExitCode := 0; Duration := 1 |}, None),
   match Stdout spec with Some wr => (wr (to_bytes ("run " +:+ Path spec)) w).2 | None => w end).
#[local] Instance printing_command_lawful : LawfulExecutor printing_command.
Proof. intros I spec _ Hwr w Hw. unfold printing_command. cbn. destruct (Stdout spec) as [wr|] eqn:E; [apply Hwr; auto|done]. Qed.

(** The environment: how often in a row the [select] of a poll still takes the
    timer when the order to stop is ready as well. *)
Definition host_machine (lock : bool) : machine nat := {|
  lookup_env name := if bool_decide (name = "POSTGRES_DSN") then Some "postgres://db"
                     else if bool_decide (name = "ENCRYPTION_KEY") then Some (of_chars (replicate 64 "0"%char)) else None;
  hostname := Ok "host-1"; pid := 42; worker_random := Ok (replicate 6 "a"%char); uuid_random := Ok (replicate 16 "b"%char);
  open_pool _ := Ok (); new_cipher b := Ok b; new_gcm _ := Ok toy_aead; flock := Ok lock;
  clock u := (0, u); timer_first u := ((0 <? u)%nat, Nat.pred u); temp_names u := (["1"], u);
  command_executor := printing_command; libs := PipelineDemo.demo.libs |}.

(** ** The database *)
Definition health_json (_ : string) : result (list HealthCheck) := Ok [].
Definition args_json (_ : string) : result (list string) := Ok ["--now"].
Definition profile_of : profile_row := {|
  pr_name := "p"; pr_extraction := p_Extraction PipelineDemo.demo.profile; pr_kind := "docker"; pr_binary := "/usr/bin/docker"; pr_namespace := "";
  pr_url := "https://reg"; pr_host := "reg"; pr_project := "prod"; pr_insecure := false; pr_ca := ""; pr_credential := None;
  pr_health := "[]"; pr_timeout := 10; pr_max_log := 1000; pr_auto_rollback := false; pr_cleanup := true;
  pr_keep_failed := false; pr_active := true; pr_revoked := false;
  pr_info := {| pi_application := "app"; pi_environment := "prod"; pi_enabled := true; pi_approval := false; pi_labels := [];
                pi_target_credential := None; pi_created := 0 |} |}.
Definition script_of : script_row := {|
  sc_profile := "p"; sc_order := 1; sc_id := "s1"; sc_name := "roll out"; sc_version := 1; sc_phase := "DEPLOY";
  sc_interpreter := "/bin/sh"; sc_sha256 := sha256_hex (to_bytes "echo"); sc_content := to_bytes "echo"; sc_args := "";
  sc_timeout := Some 5; sc_approved := Some 1; sc_revoked := false; sc_type := "DEPLOY"; sc_active := true |}.
Definition settings_of : settings_row := {|
  se_poll := 1; se_lock_retry := 1; se_refresh := 1000; se_heartbeat := 1000; se_stale := 60000;
  se_workspace := DefaultWorkspaceRoot; se_artifact := "/srv/art"; se_command := "/usr/bin"; se_chunk := 1024 |}.
Definition job_of : job_row := {|
  jr_release := "r"; jr_rb_release := None; jr_rb_job := None; jr_cred_id := Some "tc"; jr_cred_version := Some 1;
  jr_application := "app"; jr_version := "1"; jr_environment := "prod"; jr_lock_key := "app/prod"; jr_artifact := "app.tgz";
  jr_sha256 := sha256_hex (to_bytes "abc"); jr_manifest := ""; jr_operation := "DEPLOY"; jr_attempts := 0; jr_profile := "p";
  jr_status := StatusQueued; jr_available := 0; jr_priority := 0; jr_created := 0; jr_labels := []; jr_locked_by := None;
  jr_heartbeat := None; jr_failure := None; jr_started := None; jr_finished := None;
  jr_info := {| ji_artifact := "a1"; ji_retry_of := None; ji_created_by := "alice" |} |}.
Definition sealed_credential : string :=
  match Encrypt {| aead := toy_aead |} (Ok (to_bytes "ab")) (to_bytes "key") "target-credential:tc:v1" with Ok e => e | Err _ => "" end.
Definition release_of : release_info :=
  ReleaseInfo "p" "1.0.0" "" "alice" 0
    (Request "DEPLOY" None None None None None) (Decided "" None None None)
    {| qi_preset := None; qi_quick := false; qi_auto := false; qi_release := None; qi_job := None |}.
Definition no_jobs : tables := {|
  jobs := ∅; releases := {[ "r" := ReleaseRow "QUEUED" "app" "prod" release_of ]};
  locks := ∅; runners := ∅; steps := ∅; logs := []; images := ∅; heads := ∅;
  credentials := {[ ("tc", 1) := {| cr_type := "TOKEN"; cr_ciphertext := sealed_credential; cr_usable := true |} ]};
  profiles := {[ "p" := profile_of ]}; scripts := [script_of]; settings := Some settings_of |}.
Definition one_job : tables := put_job "7" job_of no_jobs.

Definition database : pg := {|
  pg_db := {| tabs := one_job; now := 100000; db_faults := λ _, None; db_tick := 0; db_aborted := false |};
  pg_store := {| Store.workerID := ""; Store.runnerIdentity := "" |}; pg_calls := 0; pg_others _ d := d; pg_skipped _ := ∅ |}.

(** The order to stop comes after 60 synchronisation points. *)
Definition boot : world pg nat :=
  World machine_os database 3%nat [] HbIdle false false (replicate 60 [Tick] ++ [[Shutdown]])
    (initial_state PipelineDemo.demo.settings (PipelineDemo.demo.job "DEPLOY") "" "") (NewBudget 0) (PipelineDemo.demo.no_logs "stdout") (PipelineDemo.demo.no_logs "stderr") PipelineDemo.demo.idle_redactor PipelineDemo.demo.idle_redactor.

Definition run_host (lock : bool) (rounds : nat) : result loop_result * world pg nat :=
  Main.run (host_machine lock) health_json args_json rounds boot.

Definition status_of (id : string) (w : world pg nat) : option JobStatus := jr_status <$> jobs (tabs (pg_db (w_repo w))) !! id.
Definition is_returned (r : result loop_result) : bool := match r with Ok Returned => true | _ => false end.

(** The queued job is claimed, runs through all its steps, is recorded as a
    success and becomes the deployed version; the lock of its target is free
    again; then the Runner stops. *)
Example a_runner :
  let '(r, w) := run_host true 80 in
  is_returned r = true ∧ status_of "7" w = Some StatusSuccess
  ∧ heads (tabs (pg_db (w_repo w))) !! ("app", "prod") = Some {| hd_release := "r"; hd_job := "7" |}
  ∧ locks (tabs (pg_db (w_repo w))) !! "app/prod" = None
  ∧ PipelineDemo.demo.step_names (w_trace w) = [StatusValidating; StatusExtracting; StatusImageInspect; StatusImageLoad;
      StatusImageTag; StatusImagePush; StatusDeploying; StatusVerifying; StatusSuccess].
Proof. vm_compute. done. Qed.

Lemma one_job_reachable : reachable health_json args_json one_job.
Proof. exists no_jobs. split; [done|]. apply rtc_once. by apply step_enqueue. Qed.
Lemma no_others : lawful_others health_json args_json (pg_others database).
Proof. intros n d. reflexivity. Qed.

Lemma runner_keeps_the_queue_witness :
  ∃ r w', run_host true 80 = (r, w')
  ∧ rtc (db_step health_json args_json) one_job (tabs (pg_db (w_repo w'))) ∧ reachable health_json args_json (tabs (pg_db (w_repo w'))).
Proof.
  unfold run_host. destruct (Main.run (host_machine true) health_json args_json 80 boot) as [r w'] eqn:Hr. exists r, w'. split; [reflexivity|].
  exact (runner_keeps_the_queue (host_machine true) health_json args_json 80 boot r w' printing_command_lawful no_others one_job_reachable Hr).
Defined.

Example a_second_runner :
  let '(r, w) := run_host false 5 in
  is_ok r = false ∧ size (runners (tabs (pg_db (w_repo w)))) = 1%nat ∧ status_of "7" w = Some StatusQueued.
Proof. by vm_compute. Qed.

(** A loop that starts with a pending order to stop; at the end the timer is
    taken three times. *)
Definition any_processor : Processor pg nat :=
  {| secretBox := {| aead := toy_aead |}; executor := printing_command; credentialRoot := "/run/c"; libraries := PipelineDemo.demo.libs |}.
Definition first_state : loop_state :=
  {| lv_settings := PipelineDemo.demo.settings; lv_active := true; lv_last_refresh := 0; lv_last_beat := 0 |}.
Lemma shutdown_ends_the_loop_witness :
  w_stopped boot || shutdown_in (w_signals boot) = true
  ∧ ∃ rounds r w1, (rounds ≤ 61)%nat
      ∧ (w_stopped boot = true → rounds = 0%nat)
      ∧ Main.loop (host_machine true) health_json args_json rounds any_processor first_state boot = (Ok r, w1)
      ∧ match r with
        | Returned => (0 < rounds)%nat
        | Running s1 => w_stopped w1 = true
            ∧ ∃ w', Main.loop (host_machine true) health_json args_json (S (w_env w1)) any_processor s1 w1 = (Ok Returned, w') ∧ left_alone w1 w'
        end.
Proof.
  split; [reflexivity|].
  apply (shutdown_ends_the_loop (host_machine true) health_json args_json any_processor id first_state boot printing_command_lawful eq_refl eq_refl
           (λ e, Nat.le_refl e)).
  intros e He. apply Nat.ltb_lt in He. cbn. unfold id. lia.
Defined.
Example the_timer_taken_three_times :
  let loop n := Main.loop (host_machine true) health_json args_json n any_processor first_state (stop boot) in
  is_returned (loop 3%nat).1 = false ∧ is_returned (loop 4%nat).1 = true.
Proof. by vm_compute. Qed.

(** ** The executor *)
Definition executor_tree : filesystem :=
  put_path ["run"] (PipelineDemo.demo.node_of 0 493 KDir) $
  put_path ["run"; "releasedock-executor-private"]
    {| n_kind := KDir; n_uid := 9; n_gid := 8; n_perm := 448; n_setgid := false; n_sticky := false |} $
  put_path ["run"; "releasedock-executor-private"; "old"]
    {| n_kind := KReg []; n_uid := 9; n_gid := 8; n_perm := 384; n_setgid := false; n_sticky := false |} ∅.
Definition executor_os : os :=
  {| fs := executor_tree; cwd := []; euid := 9; egid := 8; umask := 18; faults := λ _, None; tick := 0 |}.
Definition account (_ : string) : result string := Ok "7".
Definition activated_socket : activation := {| ac_file := true; ac_listener := Ok (Some DefaultSocketPath) |}.
Definition serve_with (local : CommandExecutor (@session bytes)) : result unit * os :=
  executor_run map_to_list (H0 := exec_codec) (H1 := demo_codec) (H2 := exec_text) account activated_socket local false
    (Ok (Some (Ok 7, exec_input, []))) executor_os.

Lemma executor_runs_only_approved_witness :
  fs executor_os !! ["run"; "releasedock-executor-private"; "old"] ≠ None
  ∧ (serve_with exec_local).1 = Ok () ∧ fs (serve_with exec_local).2 !! ["run"; "releasedock-executor-private"; "old"] = None
  ∧ serve_with exec_local = serve_with exec_local'.
Proof.
  split; [vm_compute; discriminate|]. split; [vm_compute; reflexivity|]. split; [vm_compute; reflexivity|].
  unfold serve_with. apply (executor_runs_only_approved map_to_list (H0 := exec_codec) (H1 := demo_codec) (H2 := exec_text)).
  - exact map_to_list_range.
  - apply wf_check_ok. vm_compute. reflexivity.
  - intros s o1 r d request rest spec ran w _ _ _ Hap Hran. unfold exec_local'.
    assert (Isolated ran = false) as ->; [|reflexivity].
    destruct Hap as (_ & (_ & _ & _ & _ & Hiso) & _). by destruct Hran as [-> | ->].
Defined.
End program.
