(* ===== verification/Backend.v ===== *)
(** * The backend's database and requests (backend/internal/server, internal/store)

    The tables the release handlers work on: those of the job queue, shared with
    the Runner ([bt_queue]), and the inventory the backend keeps beside them;
    requests, replies and audit records.  Of the inventory only the columns the
    handlers read are kept.

    The validating triggers of the schema only refuse a statement: they are
    failures of the schedule [db_faults].  The one trigger that writes,
    [sync_release_job_status], and the unique keys are part of the statements. *)
From S2P Require Import Prelude GoIO GoString OS Model Db Store.

(** ** Rows *)
Record artifact_row := {
  ar_release : string; ar_filename : string; ar_path : string; ar_media : string; ar_size : Z;
  ar_sha256 : string; ar_by : string; ar_created : Z
}.
Record application_row := { ap_code : string; ap_active : bool }.
Record environment_row := { en_application : string; en_code : string; en_protected : bool; en_active : bool }.
Record preset_row := {
  ps_name : string; ps_prefix : string; ps_application : string; ps_environment : string; ps_profile : string;
  ps_active : bool; ps_auto : bool; ps_revoked : bool; ps_updated : Z
}.
(** [app_settings]: the [cs_] columns are the keys of approval_config. *)
Record config_row := {
  cs_approval : bool; cs_protected : option string; cs_allow_self : option bool; cs_require_comment : option bool;
  cs_storage : string; cs_max_bytes : Z
}.
Record audit_row := { au_actor : option string; au_action : string; au_type : string; au_resource : string; au_outcome : string }.

Record btables := BTables {
  bt_queue : tables;
  artifacts : gmap string artifact_row;
  applications : gmap string application_row;
  environments : gmap string environment_row;
  presets : gmap string preset_row;
  config : option config_row;
  audits : list audit_row
}.
Abbreviation bdb := (dbase btables).

Definition set_queue f (t : btables) := BTables (f (bt_queue t)) (artifacts t) (applications t) (environments t) (presets t) (config t) (audits t).
Definition set_artifacts f (t : btables) := BTables (bt_queue t) (f (artifacts t)) (applications t) (environments t) (presets t) (config t) (audits t).
Definition set_presets f (t : btables) := BTables (bt_queue t) (artifacts t) (applications t) (environments t) (f (presets t)) (config t) (audits t).
Definition set_audits f (t : btables) := BTables (bt_queue t) (artifacts t) (applications t) (environments t) (presets t) (config t) (f (audits t)).

(** Updates of a release row. *)
Definition set_info f (r : release_row) := ReleaseRow (re_status r) (re_application r) (re_environment r) (f (re_info r)).
Definition set_request f : release_row → release_row := set_info (λ i,
  ReleaseInfo (ri_profile i) (ri_version i) (ri_notes i) (ri_created_by i) (ri_created i) (f (ri_request i)) (ri_decision i) (ri_quick i)).
Definition set_decision f : release_row → release_row := set_info (λ i,
  ReleaseInfo (ri_profile i) (ri_version i) (ri_notes i) (ri_created_by i) (ri_created i) (ri_request i) (f (ri_decision i)) (ri_quick i)).
Definition request_of (r : release_row) : request_info := ri_request (re_info r).
Definition decision_of (r : release_row) : decision_info := ri_decision (re_info r).
Definition quick_of (r : release_row) : quick_info := ri_quick (re_info r).

Definition the_release (id : string) (t : btables) : option release_row := releases (bt_queue t) !! id.
Definition update_release (f : release_row → release_row) (id : string) (t : btables) : btables :=
  set_queue (set_releases (alter f id)) t.

(** ** Requests and replies *)

(** A request of an authenticated user: the id in its path, the identifiers
    [secure.NewID] draws for it, whether it came as a retry, and the answer of
    [pg_try_advisory_xact_lock]. *)
Record request := {
  hr_user : string; hr_id : string; hr_newid : nat → string; hr_retry : bool; hr_acquired : bool
}.

(* src: backend/internal/server/server.go:414-416 writeError *)
Definition writeError (status : Z) (code message : string) : goerr := Errorf message [FInt status; FStr code].
Definition reply_error {A} (status : Z) (code message : string) : M bdb A := throw (writeError status code message).
Definition reject_if (cond : bool) (status : Z) (code message : string) : M bdb unit :=
  lift (fail_if cond (writeError status code message)).
(** [if err != nil { writeError(...); return }]. *)
Definition or_error {A} (status : Z) (code message : string) : M bdb A → M bdb A := wrapM (λ _, writeError status code message).

(** The errors of [Audit] are ignored. *)
(* src: backend/internal/store/store.go:248-253 (Store).Audit *)
Definition Audit (actor action resourceType resource outcome : string) : M bdb unit :=
  _ ← try (pool (statement (λ _ t, ((), set_audits (λ l, l ++ [{|
        au_actor := null_if_empty actor; au_action := action; au_type := resourceType; au_resource := resource; au_outcome := outcome |}]) t))));
  mret ().

(** ** What PostgreSQL computes for the queries *)

(** [upper], [lower] for the ASCII codes and identifiers they are applied to. *)
Definition sql_upper (s : string) : string := of_chars (upper_byte <$> chars s).
Definition sql_lower (s : string) : string := of_chars (lower_byte <$> chars s).
Definition sql_space : list ascii := ["009"%char; "010"%char; "011"%char; "012"%char; "013"%char; " "%char].

(** [regexp_split_to_array(s, '[[:space:]]*,[[:space:]]*')]. *)
Fixpoint strip_separators (first : bool) (l : list string) : list string :=
  match l with
  | [] => []
  | w :: l =>
      let w := if first then w else trim_left sql_space w in
      (if bool_decide (l = []) then w else trim_right sql_space w) :: strip_separators false l
  end.
Definition split_commas (s : string) : list string := strip_separators true (split_byte ","%char s).

(** The approval a target asks for. *)
(* src: backend/internal/server/releases.go:735-735 workflowRequired *)
Definition approval_required (c : config_row) (p : profile_row) (e : environment_row) : bool :=
  cs_approval c && (pi_approval (pr_info p) || en_protected e
    || bool_decide (sql_upper (en_code e) ∈ split_commas (sql_upper (default "" (cs_protected c))))).
Definition under_review (status : string) : bool := bool_decide (status ∈ ["PENDING_REVIEW"; "UNDER_REVIEW"]).

(** [p.active AND p.enabled AND p.revoked_at IS NULL]. *)
Definition profile_enabled (p : profile_row) : bool := pr_active p && pi_enabled (pr_info p) && negb (pr_revoked p).
Definition profile_matches (p : profile_row) (r : release_row) : bool :=
  bool_decide (pi_application (pr_info p) = re_application r) && bool_decide (pi_environment (pr_info p) = re_environment r).
Definition active (j : job_row) : bool := negb (terminal (jr_status j)).

(** [ORDER BY created_at DESC, id DESC LIMIT 1]. *)
Definition newer {A} (created : A → Z) (a b : string * A) : Prop :=
  created b.2 < created a.2 ∨ (created b.2 = created a.2 ∧ string_le b.1 a.1).
#[export] Instance newer_dec {A} (created : A → Z) a b : Decision (newer created a b).
Proof. unfold newer, string_le. apply _. Defined.
Definition newest {A} (created : A → Z) (l : list (string * A)) : option (string * A) := head (merge_sort (newer created) l).

(** The jobs of a target, the newest one, and that of a release. *)
Definition on_target (app env : string) (t : tables) (kj : string * job_row) : bool :=
  match releases t !! jr_release kj.2 with
  | Some r => bool_decide (re_application r = app) && bool_decide (re_environment r = env)
  | None => false
  end.
Definition latest_target (app env : string) (t : tables) : option (string * job_row) :=
  newest jr_created (filter (λ kj, on_target app env t kj = true) (map_to_list (jobs t))).
Definition latest_job (id : string) (t : tables) : option (string * job_row) :=
  newest jr_created (filter (λ kj : string * job_row, jr_release kj.2 = id) (map_to_list (jobs t))).
(** The newest uploaded artifact. *)
Definition latest_artifact (id : string) (t : btables) : option (string * artifact_row) :=
  newest ar_created (filter (λ ka : string * artifact_row, ar_release ka.2 = id ∧ ar_path ka.2 ≠ "") (map_to_list (artifacts t))).
