(* ===== verification/Releases.v ===== *)
(** * Release workflow (backend/internal/server/releases.go, presets.go)

    Submitting a release, retries, approval decisions and rollbacks: each handler
    is one transaction on the tables of Backend.v.  An error of a handler carries
    the HTTP status, code and message of its reply ([writeError]) and rolls the
    transaction back. *)
From S2P Require Import Prelude GoIO GoString OS Model Db Store Backend.

(** ** Identifiers *)
Definition uuid_dash (i : nat) : bool := bool_decide (i ∈ [8; 13; 18; 23])%nat.

(** The code ranges over code points; a byte above 127 fails at its own index. *)
(* src: backend/internal/server/releases.go:383-399 validUUID *)
Definition validUUID (value : string) : bool :=
  (slen value =? 36) &&
  forallb (λ ic : nat * ascii, if uuid_dash ic.1 then is_char "-"%char ic.2
                               else byte_in 48 57 ic.2 || byte_in 97 102 ic.2 || byte_in 65 70 ic.2)
    (imap (λ i c, (i, c)) (chars value)).

(* src: backend/internal/server/releases.go:847-852 releaseTargetLockKey *)
Definition releaseTargetLockKey (applicationID environmentID : string) : result string :=
  if negb (validUUID applicationID) || negb (validUUID environmentID)
  then Err (error_new "invalid release target identifiers")
  else Ok (to_lower applicationID +:+ ":" +:+ to_lower environmentID).

(* src: backend/internal/server/presets.go:546-551 sameNullableString *)
Definition sameNullableString (left right : option string) : bool :=
  match left, right with
  | None, None => true
  | Some l, Some r => bool_decide (l = r)
  | _, _ => false
  end.

(** ** What a target needs before a job is queued *)
(* src: backend/internal/server/releases.go:739-748 requiredScriptForOperation *)
Definition requiredScriptForOperation (operation : string) : option (string * string) :=
  if bool_decide (operation = "DEPLOY") then Some ("DEPLOY", "DEPLOY")
  else if bool_decide (operation = "ROLLBACK") then Some ("ROLLBACK", "ROLLBACK") else None.

Definition script_usable (profileID phase scriptType : string) (s : script_row) : bool :=
  bool_decide (sc_profile s = profileID) && bool_decide (sc_phase s = phase) && bool_decide (sc_type s = scriptType)
  && sc_active s && bool_decide (is_Some (sc_approved s)) && negb (sc_revoked s).
Definition dependencies_ready (profileID phase scriptType : string) (t : tables) : bool :=
  match profiles t !! profileID with
  | Some p => profile_enabled p && bool_decide (pr_kind p ∈ ["docker"; "podman"; "containerd"]) && has_prefix (pr_binary p) "/"
              && negb (empty_str (pr_url p)) && negb (empty_str (pr_host p)) && negb (empty_str (pr_project p))
              && match pr_credential p with Some (usable, _, _) => usable | None => false end
              && existsb (script_usable profileID phase scriptType) (scripts t)
  | None => false
  end.

(* src: backend/internal/server/releases.go:754-771 deploymentDependenciesReady *)
Definition deploymentDependenciesReady (profileID operation : string) : M bdb bool :=
  match requiredScriptForOperation operation with
  | None => throw (error_new "unsupported release operation")
  | Some (phase, scriptType) => query (λ _ t, dependencies_ready profileID phase scriptType (bt_queue t))
  end.

(** The rows of Store.v are those with a worker_id. *)
(* src: backend/internal/server/releases.go:773-783 matchingRunnerAvailable *)
Definition matchingRunnerAvailable (requiredLabels : list string) : M bdb bool :=
  query (λ n t, existsb (λ kr : string * runner_row,
    ru_active kr.2 && ru_managed kr.2 && match ru_heartbeat kr.2 with Some h => n - 60000 <=? h | None => false end
    && forallb (λ l, bool_decide (l ∈ ru_labels kr.2)) requiredLabels) (map_to_list (runners (bt_queue t)))).

Definition active_on (fold : string → string) (lockKey : string) (kj : string * job_row) : bool :=
  active kj.2 && bool_decide (fold (jr_lock_key kj.2) = fold lockKey).

(* src: backend/internal/server/releases.go:785-789 activeTargetJobExists *)
Definition activeTargetJobExists (lockKey : string) : M bdb bool :=
  query (λ _ t, existsb (active_on id lockKey) (map_to_list (jobs (bt_queue t)))).

(** [true]: the target is busy. *)
(* src: backend/internal/server/releases.go:798-817 lockReleaseTargetForJob *)
Definition lockReleaseTargetForJob (rq : request) (lockKey : string) : M bdb bool :=
  targetLockAcquired ← query (λ _ _, hr_acquired rq);
  if negb targetLockAcquired then mret true
  else query (λ _ t, existsb (active_on sql_lower lockKey) (map_to_list (jobs (bt_queue t)))).

(** The version of the usable credential of an id. *)
Definition usable_credential (id : string) (t : tables) : option Z :=
  head (omap (λ kc : (string * Z) * credential_row,
    if bool_decide (kc.1.1 = id) && cr_usable kc.2 then Some kc.1.2 else None) (map_to_list (credentials t))).

(* src: backend/internal/server/releases.go:819-832 loadTargetCredentialSnapshot *)
Definition loadTargetCredentialSnapshot (profileID : string) : M bdb (option string * option Z) :=
  row ← query (λ _ t, pi_target_credential ∘ pr_info <$> profiles (bt_queue t) !! profileID);
  credentialID ← lift (of_option (Sentinel ErrNoRows) row);
  match credentialID with
  | None => mret (None, None)
  | Some id =>
      version ← wrapM (λ _, error_new "deployment target credential is inactive or revoked")
        (v ← query (λ _ t, usable_credential id (bt_queue t)); lift (of_option (Sentinel ErrNoRows) v));
      mret (Some id, Some version)
  end.

(* src: backend/internal/server/releases.go:834-845 releaseCanQueue *)
Definition releaseCanQueue (status : string) (approvalRequired : bool) : bool :=
  if bool_decide (status ∈ ["UPLOADED"; "APPROVED"; "DRAFT"]) then true
  else if bool_decide (status ∈ ["PENDING_REVIEW"; "UNDER_REVIEW"; "REJECTED"]) then negb approvalRequired
  else false.

(** ** The history of a target *)
(* src: backend/internal/server/releases.go:854-873 latestFailedDeployJob *)
Definition latestFailedDeployJob (releaseID : string) : M bdb string :=
  row ← query (λ _ t,
    target ← the_release releaseID t;
    Some (kj ← latest_target (re_application target) (re_environment target) (bt_queue t);
          if bool_decide (jr_release kj.2 = releaseID) && bool_decide (jr_operation kj.2 = OperationDeploy)
             && bool_decide (jr_status kj.2 = StatusFailed) then Some kj.1 else None));
  jobID ← lift (of_option (Sentinel ErrNoRows) row);
  lift (of_option (error_new "release is not the latest failed deployment attempt") jobID).

(* src: backend/internal/server/releases.go:875-879 rollbackPlan *)
Record rollbackPlan := { SourceReleaseID : string; SourceJobID : string; Mode : string }.

(** The row of the query: the head, its basis job, the target's latest job. *)
Definition verified_job (id release : string) (t : tables) : option job_row :=
  j ← jobs t !! id;
  if bool_decide (jr_release j = release) && bool_decide (jr_operation j = OperationDeploy)
     && bool_decide (jr_status j = StatusSuccess) then Some j else None.
Record plan_row := { pl_head : head_row; pl_basis : job_row; pl_latest_id : string; pl_latest : job_row }.
Definition plan_query (releaseID : string) (t : btables) : option plan_row :=
  target ← the_release releaseID t;
  h ← heads (bt_queue t) !! (re_application target, re_environment target);
  basis ← verified_job (hd_job h) (hd_release h) (bt_queue t);
  latest ← latest_target (re_application target) (re_environment target) (bt_queue t);
  Some {| pl_head := h; pl_basis := basis; pl_latest_id := latest.1; pl_latest := latest.2 |}.

Definition attempt (j : job_row) (operation : string) (status : JobStatus) : bool :=
  bool_decide (jr_operation j = operation) && bool_decide (jr_status j = status).
Definition from_source (j : job_row) (release job : string) : bool :=
  bool_decide (jr_rb_release j = Some release) && bool_decide (jr_rb_job j = Some job).

Definition plan_of (releaseID : string) (allowFailedRollbackRetry : bool) (x : plan_row) : result rollbackPlan :=
  let h := pl_head x in
  let latest := pl_latest x in
  if bool_decide (releaseID = hd_release h) then
    match jr_rb_release (pl_basis x), jr_rb_job (pl_basis x) with
    | Some priorHeadID, Some priorHeadJobID =>
        let eligible := bool_decide (pl_latest_id x = hd_job h)
          || attempt latest OperationRollback StatusRolledBack && from_source latest (hd_release h) (hd_job h) in
        let eligible := eligible || allowFailedRollbackRetry && bool_decide (jr_release latest = releaseID)
          && attempt latest OperationRollback StatusFailed && from_source latest priorHeadID priorHeadJobID in
        _ ← fail_if (negb eligible) (error_new "the current deployment is shadowed by a newer deployment attempt");
        Ok {| SourceReleaseID := priorHeadID; SourceJobID := priorHeadJobID; Mode := "HEAD" |}
    | _, _ => Err (error_new "the current deployment has no previous verified release")
    end
  else
    let eligible := bool_decide (jr_release latest = releaseID) && attempt latest OperationDeploy StatusFailed in
    let eligible := eligible || allowFailedRollbackRetry && bool_decide (jr_release latest = releaseID)
      && attempt latest OperationRollback StatusFailed && from_source latest (hd_release h) (hd_job h) in
    _ ← fail_if (negb eligible) (error_new "release is not the latest failed deployment attempt");
    Ok {| SourceReleaseID := hd_release h; SourceJobID := hd_job h; Mode := "FAILED_RECOVERY" |}.

(* src: backend/internal/server/releases.go:881-920 resolveRollbackPlan *)
Definition resolveRollbackPlan (releaseID : string) (allowFailedRollbackRetry : bool) : M bdb rollbackPlan :=
  row ← query (λ _ t, plan_query releaseID t);
  x ← lift (of_option (Sentinel ErrNoRows) row);
  lift (plan_of releaseID allowFailedRollbackRetry x).

(** ** The release as it is shown *)
Record select_row := {
  sr_id : string; sr_row : release_row; sr_artifact : option (string * artifact_row); sr_required : bool;
  sr_started : option Z; sr_finished : option Z; sr_rollback : bool; sr_retry : bool
}.
Record release_item := { it_row : select_row; it_approval : string; it_steps : list (Z * step_row) }.

(** The two flags of the query. *)
Definition rollback_eligible (id app env : string) (t : tables) : bool :=
  match heads t !! (app, env) with
  | None => false
  | Some h =>
      match latest_target app env t with
      | None => false
      | Some (lid, latest) =>
          if bool_decide (hd_release h = id) then
            match jobs t !! hd_job h with
            | Some basis => bool_decide (is_Some (jr_rb_release basis))
                && (bool_decide (lid = hd_job h)
                    || attempt latest OperationRollback StatusRolledBack && from_source latest (hd_release h) (hd_job h))
            | None => false
            end
          else bool_decide (jr_release latest = id) && attempt latest OperationDeploy StatusFailed
      end
  end.
Definition retry_eligible (id : string) (r : release_row) (t : tables) : bool :=
  bool_decide (re_status r = "FAILED") &&
  match latest_target (re_application r) (re_environment r) t with
  | Some (_, latest) => bool_decide (jr_release latest = id) && bool_decide (jr_status latest = StatusFailed)
  | None => false
  end.

(** [ORDER BY s.id]. *)
Definition step_before (a b : Z * step_row) : Prop := a.1 ≤ b.1.
#[export] Instance step_before_dec a b : Decision (step_before a b).
Proof. unfold step_before. apply _. Defined.
(* src: backend/internal/server/releases.go:245-264 (Server).loadReleaseSteps *)
Definition loadReleaseSteps (releaseID : string) (t : btables) : list (Z * step_row) :=
  merge_sort step_before (filter (λ ks : Z * step_row,
    jr_release <$> jobs (bt_queue t) !! st_job ks.2 = Some releaseID) (map_to_list (steps (bt_queue t)))).

(* src: backend/internal/server/releases.go:63-95 releaseSelect *)
Definition releaseSelect (id : string) (t : btables) : option select_row :=
  r ← the_release id t;
  _ ← applications t !! re_application r;
  e ← environments t !! re_environment r;
  p ← profiles (bt_queue t) !! ri_profile (re_info r);
  c ← config t;
  let j := latest_job id (bt_queue t) in
  Some {| sr_id := id; sr_row := r; sr_artifact := latest_artifact id t;
    sr_required := under_review (re_status r) || approval_required c p e;
    sr_started := j ≫= jr_started ∘ snd; sr_finished := j ≫= jr_finished ∘ snd;
    sr_rollback := rollback_eligible id (re_application r) (re_environment r) (bt_queue t);
    sr_retry := retry_eligible id r (bt_queue t) |}.

(* src: backend/internal/server/releases.go:114-147 scanRelease *)
Definition scanRelease (x : select_row) (l : list (Z * step_row)) : release_item :=
  let status := re_status (sr_row x) in
  let approvalStatus :=
    if negb (sr_required x) then ""
    else if under_review status then "PENDING"
    else if bool_decide (status = "APPROVED") then "APPROVED"
    else if bool_decide (status = "REJECTED") then "REJECTED" else "" in
  {| it_row := x; it_approval := approvalStatus; it_steps := l |}.

Inductive reply :=
  | Shown (status : Z) (item : release_item)
  | NoContent.

(** The images of the reply are left out. *)
(* src: backend/internal/server/releases.go:228-243 (Server).getReleaseByID *)
Definition getReleaseByID (id : string) (statusCode : Z) : M bdb reply :=
  row ← or_error 500 "database_error" "could not load release" (pool (query (λ _ t, releaseSelect id t)));
  x ← lift (of_option (writeError 404 "not_found" "release not found") row);
  l ← try (pool (query (λ _ t, loadReleaseSteps id t)));
  mret (Shown statusCode (scanRelease x (match l with Ok l => l | Err _ => [] end))).

(** ** Handlers *)

(** What a transaction leaves to do once it is committed: the reply if the commit
    fails, the audit records, and the reply. *)
Record commit := Commit { co_error : goerr; co_audit : list (string * string); co_reply : result Z }.
Definition respond (rq : request) (c : commit) : M bdb reply :=
  _ ← iterM (λ a : string * string, Audit (hr_user rq) a.1 "release" (hr_id rq) a.2) (co_audit c);
  st ← lift (co_reply c);
  getReleaseByID (hr_id rq) st.
Definition in_transaction (rq : request) (begin_error : goerr) (body : M bdb commit) : M bdb reply :=
  c ← transaction_with (λ _, begin_error) (λ c _, co_error c) body;
  respond rq c.

(** The joined rows of a release and its target. *)
Record target_row := {
  tg_row : release_row; tg_app : application_row; tg_env : environment_row; tg_profile : profile_row;
  tg_artifact : option (string * artifact_row)
}.
Definition target_query (id : string) (t : btables) : option target_row :=
  r ← the_release id t;
  a ← applications t !! re_application r;
  e ← environments t !! re_environment r;
  p ← profiles (bt_queue t) !! ri_profile (re_info r);
  Some {| tg_row := r; tg_app := a; tg_env := e; tg_profile := p; tg_artifact := latest_artifact id t |}.
Definition target_active (x : target_row) : bool :=
  ap_active (tg_app x) && en_active (tg_env x) && profile_enabled (tg_profile x).

(** A new job; the columns it does not name have the defaults of the schema. *)
Record job_target := {
  jt_profile : string; jt_application : string; jt_version : string; jt_environment : string; jt_lock_key : string;
  jt_artifact : string * artifact_row; jt_labels : list string
}.
Definition new_job (release operation : string) (g : job_target) (source : option string * option string)
    (retry : option string) (credential : option string * option Z) (user : string) (n : Z) : job_row := {|
  jr_release := release; jr_rb_release := source.1; jr_rb_job := source.2; jr_cred_id := credential.1;
  jr_cred_version := credential.2; jr_application := jt_application g; jr_version := jt_version g;
  jr_environment := jt_environment g; jr_lock_key := jt_lock_key g; jr_artifact := ar_path (jt_artifact g).2;
  jr_sha256 := ar_sha256 (jt_artifact g).2; jr_manifest := "manifest.yaml"; jr_operation := operation; jr_attempts := 0;
  jr_profile := jt_profile g; jr_status := StatusQueued; jr_available := n; jr_priority := 0; jr_created := n;
  jr_labels := jt_labels g; jr_locked_by := None; jr_heartbeat := None; jr_failure := None; jr_started := None;
  jr_finished := None; jr_info := {| ji_artifact := (jt_artifact g).1; ji_retry_of := retry; ji_created_by := user |} |}.

(** [INSERT INTO release_jobs]: the primary key, one active job per release and
    per lock key; the trigger copies the status to the release. *)
Definition insert_job (id : string) (j : job_row) (t : btables) : result (unit * btables) :=
  let js := map_to_list (jobs (bt_queue t)) in
  if bool_decide (is_Some (jobs (bt_queue t) !! id))
     || existsb (λ kj : string * job_row, active kj.2 && bool_decide (jr_release kj.2 = jr_release j)) js
     || existsb (active_on sql_lower (jr_lock_key j)) js
  then Err (External "duplicate key value violates unique constraint")
  else Ok ((), update_release (set_release_status (status_text (jr_status j))) (jr_release j)
                 (set_queue (set_jobs (insert id j)) t)).

Definition cleared_decision : decision_info := Decided "" None None None.

Section handlers.
(** The text of an error; the SQLSTATE of an error of the server (pgconn). *)
Context `{ErrorText} (pg_code : goerr → option string).

(* src: backend/internal/server/releases.go:929-932 isSerializationFailure *)
Definition isSerializationFailure (e : goerr) : bool :=
  match pg_code e with Some c => bool_decide (c = "40001") || bool_decide (c = "40P01") | None => false end.

Definition dependencies_checked (profileID operation code message : string) : M bdb unit :=
  ready ← try (deploymentDependenciesReady profileID operation);
  reject_if (match ready with Ok b => negb b | Err _ => true end) 409 code message.
Definition runner_checked (labels : list string) (message : string) : M bdb unit :=
  ready ← or_error 500 "database_error" "could not validate runner availability" (matchingRunnerAvailable labels);
  reject_if (negb ready) 409 "runner_unavailable" message.
Definition target_locked (rq : request) (lockKey message : string) : M bdb unit :=
  busy ← or_error 500 "database_error" message (lockReleaseTargetForJob rq lockKey);
  reject_if busy 409 "job_conflict" "release target already has an active deployment job".
Definition credential_snapshot (profileID : string) : M bdb (option string * option Z) :=
  wrapM (λ e, writeError 409 "target_credential_not_ready" (error_text e)) (loadTargetCredentialSnapshot profileID).

(** A request whose basis is gone is reset, and the reset is committed. *)
Definition reset_retry (r : release_row) : release_row :=
  set_release_status "FAILED"
    (set_decision (λ _, Decided "Retry request invalidated because a newer deployment attempt exists" None None None)
    (set_request (λ q, Request (rq_operation q) (rq_release q) (rq_job q) None None (rq_base q)) r)).
Definition invalidate_retry (rq : request) (persisted : option string) (stale : goerr) : M bdb (commit + option string) :=
  match persisted with
  | None => throw stale
  | Some _ =>
      _ ← wrapM (λ _, stale) (statement (λ _ t, ((), update_release reset_retry (hr_id rq) t)));
      mret (inl (Commit stale [("release.retry.invalidate", "failure")] (Err stale)))
  end.

(** [inl]: the request became invalid. *)
(* src: backend/internal/server/releases.go:974-991 (Server).enqueueRelease *)
Definition retry_source (rq : request) (persisted : option string) : M bdb (commit + option string) :=
  let stale := writeError 409 "retry_target_stale" "only the latest failed deployment attempt can be retried" in
  if hr_retry rq || bool_decide (is_Some persisted) then
    latest ← try (latestFailedDeployJob (hr_id rq));
    match latest with
    | Ok latestJobID =>
        if match persisted with Some p => bool_decide (latestJobID = p) | None => true end
        then mret (inr (Some latestJobID)) else invalidate_retry rq persisted stale
    | Err _ => invalidate_retry rq persisted stale
    end
  else mret (inr persisted).

Definition ask_review (retry : option string) (user : string) (r : release_row) : release_row :=
  set_release_status "PENDING_REVIEW" (set_decision (λ _, cleared_decision)
    (set_request (λ q, Request (rq_operation q) (rq_release q) (rq_job q) retry
                         (if bool_decide (is_Some retry) then Some user else rq_by q) (rq_base q)) r)).

(* src: backend/internal/server/releases.go:1010-1026 (Server).enqueueRelease *)
Definition submit_review (rq : request) (status : string) (retry : option string) : M bdb commit :=
  _ ← reject_if (negb (bool_decide (status ∈ ["UPLOADED"; "DRAFT"; "REJECTED"]))
                 && negb (bool_decide (is_Some retry) && bool_decide (status = "FAILED")))
        409 "invalid_state" "release is already in the approval or deployment process";
  _ ← or_error 500 "database_error" "could not submit for review"
        (statement (λ _ t, ((), update_release (ask_review retry (hr_user rq)) (hr_id rq) t)));
  mret (Commit (writeError 500 "database_error" "could not submit for review") [("release.submit_review", "success")] (Ok 200)).

Definition clear_retry (r : release_row) : release_row :=
  set_release_status "QUEUED"
    (set_request (λ q, Request (rq_operation q) (rq_release q) (rq_job q) None (rq_by q) (rq_base q)) r).

(* src: backend/internal/server/releases.go:1027-1094 (Server).enqueueRelease *)
Definition queue_deploy (rq : request) (x : target_row) (artifact : string * artifact_row) (retry : option string)
    (required : bool) : M bdb commit :=
  let id := hr_id rq in
  let r := tg_row x in
  let q := quick_of r in
  let status := re_status r in
  _ ← reject_if (negb (releaseCanQueue status required) && negb (bool_decide (is_Some retry) && bool_decide (status = "FAILED")))
        409 "invalid_state" "release is not ready to deploy";
  _ ← runner_checked (pi_labels (pr_info (tg_profile x))) "no active online runner matches the deployment profile labels";
  lockKey ← lift (map_err (λ _, writeError 500 "database_error" "release target identifiers are invalid")
                   (releaseTargetLockKey (re_application r) (re_environment r)));
  _ ← target_locked rq lockKey "could not validate the deployment target lock";
  credential ← credential_snapshot (ri_profile (re_info r));
  head ← or_error 500 "database_error" "could not snapshot the current deployment head"
           (query (λ _ t, heads (bt_queue t) !! (re_application r, re_environment r)));
  let prior := (hd_release <$> head, hd_job <$> head) in
  _ ← reject_if (qi_quick q && (negb (sameNullableString (qi_release q) prior.1) || negb (sameNullableString (qi_job q) prior.2)))
        409 "deployment_head_changed" "the deployed version changed after preflight; create a new quick release";
  let jobCreatorID := if qi_quick q then ri_created_by (re_info r) else hr_user rq in
  let source := if qi_quick q then (qi_release q, qi_job q) else prior in
  let g := {| jt_profile := ri_profile (re_info r); jt_application := ap_code (tg_app x); jt_version := ri_version (re_info r);
              jt_environment := en_code (tg_env x); jt_lock_key := lockKey; jt_artifact := artifact;
              jt_labels := pi_labels (pr_info (tg_profile x)) |} in
  let conflict := writeError 409 "job_conflict" "release already has an active deployment job" in
  _ ← wrapM (λ _, conflict) (checked (λ n t,
        insert_job (hr_newid rq 0) (new_job id OperationDeploy g source retry credential jobCreatorID n) t));
  _ ← wrapM (λ _, conflict) (statement (λ _ t, ((), update_release clear_retry id t)));
  mret (Commit conflict [(if bool_decide (is_Some retry) then "release.retry" else "release.enqueue", "success")] (Ok 200)).

(* src: backend/internal/server/releases.go:953-1094 (Server).enqueueRelease *)
Definition enqueue_transaction (rq : request) : M bdb commit :=
  row ← or_error 500 "database_error" "could not submit release"
          (query (λ _ t, x ← target_query (hr_id rq) t; c ← config t; Some (x, c)));
  '(x, c) ← lift (of_option (writeError 404 "not_found" "release not found") row);
  let r := tg_row x in
  let status := re_status r in
  let required := approval_required c (tg_profile x) (tg_env x) in
  artifact ← lift (of_option (writeError 409 "artifact_content_required" "uploaded artifact content is required before submission")
                    (tg_artifact x));
  _ ← reject_if (hr_retry rq && negb (bool_decide (status = "FAILED")))
        409 "retry_requires_failed" "only a failed release job can be retried";
  source ← retry_source rq (rq_retry (request_of r));
  match source with
  | inl c => mret c
  | inr retry =>
      _ ← reject_if (negb (hr_retry rq) && bool_decide (status = "FAILED"))
            409 "retry_required" "use the explicit retry action for a failed release";
      _ ← reject_if (negb (profile_matches (tg_profile x) r))
            409 "release_target_drift" "deployment profile no longer matches the release application and environment";
      _ ← reject_if (negb (target_active x))
            409 "release_target_inactive" "application, environment, and deployment profile must be active";
      _ ← dependencies_checked (ri_profile (re_info r)) "DEPLOY"
            "deployment_profile_not_ready" "an active registry credential and approved DEPLOY script are required";
      if required && negb (bool_decide (status = "APPROVED")) then submit_review rq status retry
      else queue_deploy rq x artifact retry required
  end.

(** ** Creating and changing a release *)
(* src: backend/internal/server/releases.go:24-30 releaseInput *)
Record releaseInput := { ApplicationID : string; EnvironmentID : string; ProfileID : string; Version : string; Notes : string }.

Definition path_bytes : list ascii := [NUL; "013"%char; "010"%char; "/"%char; "092"%char].

(* src: backend/internal/server/releases.go:32-44 validateReleaseInput *)
Definition validateReleaseInput (input : releaseInput) : result unit :=
  _ ← fail_if (empty_str (ApplicationID input) || empty_str (EnvironmentID input) || empty_str (ProfileID input))
        (error_new "applicationId, environmentId, and deploymentProfileId are required");
  let version := trim_space (Version input) in
  _ ← fail_if (empty_str version || (128 <? slen version) || contains_any version path_bytes)
        (error_new "version is required, must not exceed 128 characters, and cannot contain path separators");
  fail_if (16384 <? slen (Notes input)) (error_new "notes must not exceed 16 KiB").

(** [UNIQUE(application_id, environment_id, version)], of the rows other than [id]. *)
Definition version_taken (id app env version : string) (t : btables) : bool :=
  existsb (λ kr : string * release_row, negb (bool_decide (kr.1 = id)) && bool_decide (re_application kr.2 = app)
    && bool_decide (re_environment kr.2 = env) && bool_decide (ri_version (re_info kr.2) = version))
    (map_to_list (releases (bt_queue t))).
Definition no_quick : quick_info := {| qi_preset := None; qi_quick := false; qi_auto := false; qi_release := None; qi_job := None |}.
Definition plain_request : request_info := Request OperationDeploy None None None None None.
Definition draft (app env profile version notes user : string) (q : quick_info) (n : Z) : release_row :=
  ReleaseRow "DRAFT" app env (ReleaseInfo profile version notes user n plain_request cleared_decision q).
Definition insert_release (id : string) (r : release_row) (t : btables) : result (unit * btables) :=
  if bool_decide (is_Some (the_release id t)) || version_taken id (re_application r) (re_environment r) (ri_version (re_info r)) t
  then Err (External "duplicate key value violates unique constraint")
  else Ok ((), set_queue (set_releases (insert id r)) t).

(** The profile is usable for the application and environment. *)
Definition profile_bound (profile app env : string) (t : btables) : bool :=
  match profiles (bt_queue t) !! profile, applications t !! app, environments t !! env with
  | Some p, Some a, Some e => bool_decide (pi_application (pr_info p) = app) && bool_decide (pi_environment (pr_info p) = env)
                              && profile_enabled p && ap_active a && en_active e
  | _, _, _ => false
  end.

(* src: backend/internal/server/releases.go:170-185 (Server).insertRelease *)
Definition insertRelease (rq : request) (input : releaseInput) : M bdb string :=
  let id := hr_newid rq 0 in
  let version := trim_space (Version input) in
  rows ← wrapM (λ _, error_new "release version already exists for this application and environment") (pool (checked (λ n t,
    if profile_bound (ProfileID input) (ApplicationID input) (EnvironmentID input) t then
      (x ← insert_release id (draft (ApplicationID input) (EnvironmentID input) (ProfileID input) version (Notes input)
                                          (hr_user rq) no_quick n) t; Ok (true, x.2))
    else Ok (false, t))));
  _ ← lift (fail_if (negb rows) (error_new "deployment profile does not match the selected application and environment"));
  _ ← Audit (hr_user rq) "release.create" "release" id "success";
  mret id.

(** The JSON request; the multipart one is in Artifacts.v. *)
(* src: backend/internal/server/releases.go:154-168 (Server).createRelease *)
Definition createRelease (rq : request) (input : releaseInput) : M bdb reply :=
  _ ← wrapM (λ e, writeError 400 "invalid_release" (error_text e)) (lift (validateReleaseInput input));
  id ← wrapM (λ e, writeError 409 "release_conflict" (error_text e)) (insertRelease rq input);
  getReleaseByID id 201.

Definition editable (status : string) : bool := bool_decide (status ∈ ["DRAFT"; "UPLOADED"; "REJECTED"]).
Definition edit (profile version notes : string) : release_row → release_row := set_info (λ i,
  ReleaseInfo profile version notes (ri_created_by i) (ri_created i) (ri_request i) (ri_decision i) (ri_quick i)).
Definition edit_release (id profile version notes : string) (t : btables) : result (bool * btables) :=
  match the_release id t, profiles (bt_queue t) !! profile with
  | Some r, Some p =>
      if editable (re_status r) && profile_matches p r && negb (pr_revoked p) then
        if version_taken id (re_application r) (re_environment r) version t
        then Err (External "duplicate key value violates unique constraint")
        else Ok (true, update_release (edit profile version notes) id t)
      else Ok (false, t)
  | _, _ => Ok (false, t)
  end.

(* src: backend/internal/server/releases.go:283-309 (Server).updateRelease *)
Definition updateRelease (rq : request) (version notes profile : string) : M bdb reply :=
  _ ← reject_if (empty_str (trim_space version) || empty_str profile) 400 "invalid_release" "version and deploymentProfileId are required";
  rows ← or_error 409 "release_conflict" "release version conflicts or profile is invalid"
           (pool (checked (λ _ t, edit_release (hr_id rq) profile (trim_space version) notes t)));
  _ ← reject_if (negb rows) 409 "invalid_state" "only draft, uploaded, or rejected releases can be changed";
  _ ← Audit (hr_user rq) "release.update" "release" (hr_id rq) "success";
  getReleaseByID (hr_id rq) 200.

(** ** Quick releases: queueing without a second submission *)
(* src: backend/internal/server/presets.go:461-463 quickQueueFailure *)
Definition quickQueueFailure (code message : string) : goerr := Errorf message [FStr code].
(* src: backend/internal/server/presets.go:575-586 writeQuickQueueError *)
Definition writeQuickQueueError (fallbackCode fallbackMessage : string) (e : goerr) : goerr :=
  match e with
  | Errorf message [FStr code] => writeError (if bool_decide (code = "not_found") then 404 else 409) code message
  | _ => writeError 500 fallbackCode fallbackMessage
  end.
(** A quick release that waits for its review. *)
Definition quick_review : release_row → release_row := λ r, set_release_status "PENDING_REVIEW" (set_decision (λ _, cleared_decision) r).
Definition queue_reject (cond : bool) (code message : string) : M bdb unit := lift (fail_if cond (quickQueueFailure code message)).

(** The query joins the head's release and job. *)
(* src: backend/internal/server/presets.go:553-573 validateAndLockQuickHead *)
Definition validateAndLockQuickHead (applicationID environmentID : string) (frozenReleaseID frozenJobID : option string) : M bdb unit :=
  head ← query (λ _ t,
    h ← heads (bt_queue t) !! (applicationID, environmentID);
    _ ← the_release (hd_release h) t;
    _ ← jobs (bt_queue t) !! hd_job h;
    Some h);
  queue_reject (negb (sameNullableString frozenReleaseID (hd_release <$> head)) || negb (sameNullableString frozenJobID (hd_job <$> head)))
    "deployment_head_changed" "the deployed version changed after preflight; run preflight again".

(* src: backend/internal/server/presets.go:465-544 (Server).queueQuickDeployTx *)
Definition queueQuickDeployTx (rq : request) (releaseID expectedStatus : string) : M bdb string :=
  row ← query (λ _ t, target_query releaseID t);
  x ← lift (of_option (quickQueueFailure "not_found" "quick release not found") row);
  let r := tg_row x in
  let q := quick_of r in
  let profileID := ri_profile (re_info r) in
  _ ← queue_reject (negb (qi_quick q) || negb (bool_decide (re_status r = expectedStatus)))
        "invalid_state" "quick release is not in the expected state";
  artifact ← lift (of_option (quickQueueFailure "artifact_content_required" "uploaded artifact content is required before deployment") (tg_artifact x));
  _ ← queue_reject (negb (profile_matches (tg_profile x) r)) "release_target_drift" "deployment profile no longer matches the release target";
  _ ← queue_reject (negb (target_active x)) "release_target_inactive" "release target is inactive";
  ready ← deploymentDependenciesReady profileID "DEPLOY";
  _ ← queue_reject (negb ready) "deployment_profile_not_ready" "an active registry credential and approved DEPLOY script are required";
  ready ← matchingRunnerAvailable (pi_labels (pr_info (tg_profile x)));
  _ ← queue_reject (negb ready) "runner_unavailable" "no active online runner matches the deployment profile labels";
  lockKey ← lift (releaseTargetLockKey (re_application r) (re_environment r));
  busy ← lockReleaseTargetForJob rq lockKey;
  _ ← queue_reject busy "job_conflict" "release target already has an active deployment job";
  credential ← wrapM (λ e, quickQueueFailure "target_credential_not_ready" (error_text e)) (loadTargetCredentialSnapshot profileID);
  _ ← validateAndLockQuickHead (re_application r) (re_environment r) (qi_release q) (qi_job q);
  let g := {| jt_profile := profileID; jt_application := ap_code (tg_app x); jt_version := ri_version (re_info r);
              jt_environment := en_code (tg_env x); jt_lock_key := lockKey; jt_artifact := artifact;
              jt_labels := pi_labels (pr_info (tg_profile x)) |} in
  let jobID := hr_newid rq 0 in
  _ ← wrapM (λ _, quickQueueFailure "job_conflict" "release target already has an active deployment job") (checked (λ n t,
        insert_job jobID (new_job releaseID OperationDeploy g (qi_release q, qi_job q) None credential (ri_created_by (re_info r)) n) t));
  mret jobID.

(** ** Decisions *)
Inductive actor_column := reviewed_by | approved_by | rejected_by.
Definition sign (column : actor_column) (user note : string) (d : decision_info) : decision_info :=
  match column with
  | reviewed_by => Decided note (Some user) (de_approved d) (de_rejected d)
  | approved_by => Decided note (de_reviewed d) (Some user) (de_rejected d)
  | rejected_by => Decided note (de_reviewed d) (de_approved d) (Some user)
  end.
(** Who asked for the operation. *)
Definition requester (r : release_row) : string := default (ri_created_by (re_info r)) (rq_by (request_of r)).

Record decision_row := { dc_row : release_row; dc_env : environment_row; dc_profile : profile_row; dc_config : config_row }.
Definition decision_query (id : string) (t : btables) : option decision_row :=
  r ← the_release id t;
  p ← profiles (bt_queue t) !! ri_profile (re_info r);
  e ← environments t !! re_environment r;
  c ← config t;
  Some {| dc_row := r; dc_env := e; dc_profile := p; dc_config := c |}.

(** The profile a rollback runs with, and whether it fits the target. *)
Definition source_profile (id : string) (t : btables) : option (string * bool) :=
  r ← the_release id t;
  source ← rq_release (request_of r);
  basis ← rq_job (request_of r);
  s ← the_release source t;
  p ← profiles (bt_queue t) !! ri_profile (re_info s);
  _ ← verified_job basis source (bt_queue t);
  if bool_decide (re_application s = re_application r) && bool_decide (re_environment s = re_environment r)
  then Some (ri_profile (re_info s), profile_matches p r) else None.

(** The checks of an approval. *)
(* src: backend/internal/server/releases.go:1153-1200 (Server).decision *)
Definition approval_checks (rq : request) (x : decision_row) : M bdb unit :=
  let r := dc_row x in
  let q := request_of r in
  _ ← reject_if (bool_decide (requester r = hr_user rq) && negb (default false (cs_allow_self (dc_config x))))
        403 "self_approval_forbidden" "the release requester cannot approve their own release";
  _ ← match rq_retry q with
      | None => mret ()
      | Some source =>
          latest ← try (latestFailedDeployJob (hr_id rq));
          reject_if (match latest with Ok l => negb (bool_decide (l = source)) | Err _ => true end)
            409 "retry_target_stale" "a newer deployment attempt exists; recreate the retry request"
      end;
  let rollback := bool_decide (rq_operation q = OperationRollback) in
  profile ← (if rollback then
      _ ← reject_if (bool_decide (rq_release q = None) || bool_decide (rq_job q = None))
            409 "rollback_source_invalid" "rollback approval has no source release";
      plan ← try (resolveRollbackPlan (hr_id rq) true);
      _ ← reject_if (match plan with
                     | Ok p => negb (bool_decide (rq_release q = Some (SourceReleaseID p)) && bool_decide (rq_job q = Some (SourceJobID p)))
                     | Err _ => true end)
            409 "rollback_target_stale" "the verified deployment head changed; recreate the rollback request";
      or_error 409 "rollback_source_invalid" "rollback source release is no longer valid"
        (s ← query (λ _ t, source_profile (hr_id rq) t); lift (of_option (Sentinel ErrNoRows) s))
    else mret (ri_profile (re_info r), profile_matches (dc_profile x) r));
  _ ← reject_if (negb profile.2) 409 "release_target_drift" "deployment profile no longer matches the release application and environment";
  dependencies_checked profile.1 (if rollback then OperationRollback else OperationDeploy)
    "deployment_profile_not_ready" "an active registry credential and approved operation script are required".

(** The row update of a decision. *)
Definition decide_release (column : actor_column) (user note targetStatus : string) (clearRollback clearRetry : bool)
    (r : release_row) : release_row :=
  set_release_status targetStatus (set_decision (sign column user note)
    (set_request (λ q, Request (if clearRollback then OperationDeploy else rq_operation q)
       (if clearRollback then None else rq_release q) (if clearRollback then None else rq_job q)
       (if clearRetry then None else rq_retry q)
       (if clearRollback || clearRetry then None else rq_by q) (if clearRollback || clearRetry then None else rq_base q)) r)).
(** [UPDATE ... WHERE id = $1 AND status = ANY(allowed)]: the rows changed. *)
Definition update_in_status (allowed : list string) (f : release_row → release_row) (id : string) (t : btables) : bool * btables :=
  match the_release id t with
  | Some r => if bool_decide (re_status r ∈ allowed) then (true, update_release f id t) else (false, t)
  | None => (false, t)
  end.

(* src: backend/internal/server/releases.go:1211-1229 (Server).decision *)
Definition approve_and_queue (rq : request) (allowed : list string) (note action : string) : M bdb commit :=
  let conflict := writeError 409 "approval_conflict" "approval could not be applied because deployment inputs changed" in
  rows ← wrapM (λ _, conflict) (statement (λ _ t, update_in_status allowed
           (λ r, set_release_status "APPROVED" (set_decision (sign approved_by (hr_user rq) note) r)) (hr_id rq) t));
  _ ← lift (fail_if (negb rows) conflict);
  _ ← wrapM (writeQuickQueueError "database_error" "approved quick release could not be queued") (queueQuickDeployTx rq (hr_id rq) "APPROVED");
  mret (Commit (writeError 409 "approval_conflict" "approval and automatic deployment conflicted with another request")
          [(action, "success"); ("release.enqueue.auto", "success")] (Ok 200)).

(* src: backend/internal/server/releases.go:1110-1263 (Server).decision *)
Definition decision_transaction (rq : request) (newStatus : string) (column : actor_column) (allowed : list string)
    (action comment : string) : M bdb commit :=
  row ← wrapM (λ e, if isSerializationFailure e
                    then writeError 409 "approval_conflict" "approval was already handled by another request"
                    else writeError 500 "database_error" "could not validate approval")
          (query (λ _ t, decision_query (hr_id rq) t));
  x ← lift (of_option (writeError 404 "not_found" "release not found") row);
  let r := dc_row x in
  let q := request_of r in
  let c := dc_config x in
  _ ← reject_if (negb (under_review (re_status r) || approval_required c (dc_profile x) (dc_env x)))
        409 "approval_disabled" "approval workflow is disabled for this release";
  _ ← (if bool_decide (newStatus = "APPROVED") then approval_checks rq x else mret ());
  _ ← reject_if (bool_decide (newStatus = "REJECTED") && empty_str (trim_space comment) && default true (cs_require_comment c))
        400 "reject_comment_required" "a rejection comment is required";
  _ ← reject_if (negb (bool_decide (re_status r ∈ allowed))) 409 "invalid_state" "release is not in an allowed approval state";
  if bool_decide (newStatus = "APPROVED") && qi_quick (quick_of r) && qi_auto (quick_of r)
     && bool_decide (rq_operation q = OperationDeploy) && bool_decide (rq_retry q = None)
  then approve_and_queue rq allowed comment action
  else
    let rejected := bool_decide (newStatus = "REJECTED") in
    let clearRollback := rejected && bool_decide (rq_operation q = OperationRollback) in
    let clearRetry := rejected && bool_decide (is_Some (rq_retry q)) in
    targetStatus ← (if clearRollback then
        match rq_base q with
        | Some s => if bool_decide (s ∈ ["SUCCESS"; "FAILED"]) then mret s
                    else reply_error 409 "rollback_request_invalid" "rollback request has no terminal base status"
        | None => reply_error 409 "rollback_request_invalid" "rollback request has no terminal base status"
        end
      else mret newStatus);
    rows ← or_error 500 "database_error" "could not update approval" (statement (λ _ t, update_in_status allowed
             (decide_release column (hr_user rq) comment targetStatus clearRollback clearRetry) (hr_id rq) t));
    _ ← reject_if (negb rows) 409 "invalid_state" "release is not in an allowed approval state";
    mret (Commit (writeError 409 "approval_conflict" "approval could not be committed because deployment inputs changed")
            [(action, "success")] (Ok 200)).

(* src: backend/internal/server/releases.go:1110-1263 (Server).decision *)
Definition decision (rq : request) (newStatus : string) (column : actor_column) (allowed : list string)
    (action comment : string) : M bdb reply :=
  _ ← reject_if (4096 <? slen comment) 400 "invalid_comment" "comment is too long";
  in_transaction rq (writeError 500 "database_error" "could not update approval")
    (decision_transaction rq newStatus column allowed action comment).

(* src: backend/internal/server/releases.go:1101-1103 (Server).reviewRelease *)
Definition reviewRelease (rq : request) (comment : string) : M bdb reply :=
  decision rq "UNDER_REVIEW" reviewed_by ["PENDING_REVIEW"] "release.review" comment.
(* src: backend/internal/server/releases.go:1104-1106 (Server).approveRelease *)
Definition approveRelease (rq : request) (comment : string) : M bdb reply :=
  decision rq "APPROVED" approved_by ["PENDING_REVIEW"; "UNDER_REVIEW"] "release.approve" comment.
(* src: backend/internal/server/releases.go:1107-1109 (Server).rejectRelease *)
Definition rejectRelease (rq : request) (comment : string) : M bdb reply :=
  decision rq "REJECTED" rejected_by ["PENDING_REVIEW"; "UNDER_REVIEW"] "release.reject" comment.

(** ** Rollbacks *)
Record current_row := { cu_row : release_row; cu_app : application_row; cu_env : environment_row }.
Definition current_query (id : string) (t : btables) : option current_row :=
  r ← the_release id t;
  a ← applications t !! re_application r;
  e ← environments t !! re_environment r;
  Some {| cu_row := r; cu_app := a; cu_env := e |}.

(** The artifact and the profile a rollback deploys again. *)
Record source_row := { so_row : release_row; so_profile : profile_row; so_artifact : string * artifact_row; so_required : bool }.
Definition source_query (source job app env : string) (t : btables) : option source_row :=
  s ← the_release source t;
  p ← profiles (bt_queue t) !! ri_profile (re_info s);
  _ ← verified_job job source (bt_queue t);
  e ← environments t !! env;
  c ← config t;
  a ← latest_artifact source t;
  if bool_decide (re_application s = app) && bool_decide (re_environment s = env)
  then Some {| so_row := s; so_profile := p; so_artifact := a; so_required := approval_required c p e |} else None.

Definition reset_rollback (base : string) (r : release_row) : release_row :=
  set_release_status base
    (set_decision (λ _, Decided "Rollback request invalidated because the verified deployment head changed" None None None)
    (set_request (λ q, Request OperationDeploy None None (rq_retry q) None None) r)).
Definition final_status (s : string) : bool := bool_decide (s ∈ ["SUCCESS"; "FAILED"]).

(* src: backend/internal/server/releases.go:1325-1338 (Server).rollbackRelease *)
Definition rollback_plan_or_reset (rq : request) (isExistingRequest : bool) (base : option string) : M bdb (commit + rollbackPlan) :=
  plan ← try (resolveRollbackPlan (hr_id rq) (hr_retry rq || isExistingRequest));
  match plan with
  | Ok plan => mret (inr plan)
  | Err planErr =>
      let stale := writeError 409 "rollback_target_stale" (error_text planErr) in
      match base with
      | Some b => if isExistingRequest && final_status b then
                    _ ← wrapM (λ _, stale) (statement (λ _ t, ((), update_release (reset_rollback b) (hr_id rq) t)));
                    mret (inl (Commit stale [("release.rollback.invalidate", "failure")] (Err stale)))
                  else throw stale
      | None => throw stale
      end
  end.

Definition ask_rollback (plan : rollbackPlan) (user status : string) (r : release_row) : release_row :=
  set_release_status "PENDING_REVIEW" (set_decision (λ _, cleared_decision)
    (set_request (λ q, Request OperationRollback (Some (SourceReleaseID plan)) (Some (SourceJobID plan)) (rq_retry q)
                         (Some user) (Some (default status (rq_base q)))) r)).
Definition start_rollback (plan : rollbackPlan) (user base : string) (r : release_row) : release_row :=
  set_release_status "ROLLBACK"
    (set_request (λ q, Request OperationRollback (Some (SourceReleaseID plan)) (Some (SourceJobID plan)) (rq_retry q)
                         (Some (default user (rq_by q))) (Some (default base (rq_base q)))) r).

(* src: backend/internal/server/releases.go:1379-1437 (Server).rollbackRelease *)
Definition queue_rollback (rq : request) (x : current_row) (s : source_row) (plan : rollbackPlan) (lockKey : string)
    (isExistingRequest : bool) : M bdb commit :=
  let id := hr_id rq in
  let status := re_status (cu_row x) in
  let profileID := ri_profile (re_info (so_row s)) in
  if so_required s && negb (bool_decide (status = "APPROVED")) then
    _ ← reject_if isExistingRequest 409 "approval_required" "rollback request is awaiting review and approval";
    let conflict := writeError 409 "rollback_request_conflict" "rollback request could not be submitted for approval" in
    rows ← wrapM (λ _, conflict) (statement (λ _ t, update_in_status [status] (ask_rollback plan (hr_user rq) status) id t));
    _ ← lift (fail_if (negb rows) conflict);
    mret (Commit (writeError 409 "rollback_request_conflict" "rollback request could not be committed")
            [("release.rollback.submit_review", "success")] (Ok 200))
  else
    _ ← runner_checked (pi_labels (pr_info (so_profile s))) "no active online runner matches the rollback profile labels";
    let baseStatus := default status (rq_base (request_of (cu_row x))) in
    _ ← reject_if (negb (final_status baseStatus)) 409 "rollback_request_invalid" "rollback request has no terminal base status";
    credential ← credential_snapshot profileID;
    let g := {| jt_profile := profileID; jt_application := ap_code (cu_app x); jt_version := ri_version (re_info (so_row s));
                jt_environment := en_code (cu_env x); jt_lock_key := lockKey; jt_artifact := so_artifact s;
                jt_labels := pi_labels (pr_info (so_profile s)) |} in
    _ ← or_error 409 "job_conflict" "release already has an active job" (checked (λ n t,
          insert_job (hr_newid rq 0) (new_job id OperationRollback g (Some (SourceReleaseID plan), Some (SourceJobID plan)) None
            credential (hr_user rq) n) t));
    _ ← or_error 500 "database_error" "could not queue rollback"
          (statement (λ _ t, ((), update_release (start_rollback plan (hr_user rq) baseStatus) id t)));
    mret (Commit (writeError 500 "database_error" "could not queue rollback")
            [(if hr_retry rq then "release.rollback.retry" else "release.rollback", "success")] (Ok 200)).

(* src: backend/internal/server/releases.go:1274-1437 (Server).rollbackRelease *)
Definition rollback_transaction (rq : request) : M bdb commit :=
  row ← or_error 500 "database_error" "could not prepare rollback" (query (λ _ t, current_query (hr_id rq) t));
  x ← lift (of_option (writeError 404 "not_found" "release not found") row);
  let r := cu_row x in
  let q := request_of r in
  let status := re_status r in
  let rollback := bool_decide (rq_operation q = OperationRollback) in
  _ ← reject_if (hr_retry rq && negb (bool_decide (status = "FAILED")))
        409 "retry_requires_failed" "only a failed rollback job can be retried";
  _ ← reject_if (negb (hr_retry rq) && bool_decide (status = "FAILED") && rollback)
        409 "retry_required" "use the explicit retry action for a failed rollback";
  _ ← reject_if (negb (ap_active (cu_app x) && en_active (cu_env x)))
        409 "release_target_inactive" "application and environment must be active";
  let isExistingRequest := rollback && bool_decide (status ∈ ["PENDING_REVIEW"; "UNDER_REVIEW"; "APPROVED"]) in
  _ ← reject_if (negb (final_status status) && negb isExistingRequest) 409 "invalid_state" "release is not ready for rollback";
  lockKey ← lift (map_err (λ _, writeError 500 "database_error" "release target identifiers are invalid")
                   (releaseTargetLockKey (re_application r) (re_environment r)));
  _ ← target_locked rq lockKey "could not lock the deployment target";
  p ← rollback_plan_or_reset rq isExistingRequest (rq_base q);
  match p with
  | inl c => mret c
  | inr plan =>
      let pinned := isExistingRequest || hr_retry rq && rollback && bool_decide (is_Some (rq_release q)) in
      _ ← reject_if (pinned && (bool_decide (rq_release q = None) || bool_decide (rq_job q = None)))
            409 "rollback_source_invalid" "rollback request has no source release";
      _ ← reject_if (pinned && negb (bool_decide (rq_release q = Some (SourceReleaseID plan))
                                     && bool_decide (rq_job q = Some (SourceJobID plan))))
            409 "rollback_target_stale" "the verified deployment head changed; recreate the rollback request";
      row ← or_error 500 "database_error" "could not validate rollback source"
              (query (λ _ t, source_query (SourceReleaseID plan) (SourceJobID plan) (re_application r) (re_environment r) t));
      s ← lift (of_option (writeError 409 "rollback_source_invalid" "rollback source artifact is no longer available") row);
      _ ← reject_if (negb (profile_matches (so_profile s) r))
            409 "release_target_drift" "rollback profile no longer matches the release application and environment";
      _ ← dependencies_checked (ri_profile (re_info (so_row s))) OperationRollback
            "rollback_profile_not_ready" "an active registry credential and approved ROLLBACK script are required";
      queue_rollback rq x s plan lockKey isExistingRequest
  end.

(* src: backend/internal/server/releases.go:1265-1274 (Server).rollbackRelease *)
Definition rollbackRelease (rq : request) : M bdb reply :=
  in_transaction rq (writeError 500 "database_error" "could not prepare rollback") (rollback_transaction rq).

(** The first query runs on the pool; its error is ignored. *)
(* src: backend/internal/server/releases.go:938-953 (Server).enqueueRelease *)
Definition enqueueRelease (rq : request) : M bdb reply :=
  requested ← try (pool (query (λ _ t, rq_operation ∘ request_of <$> the_release (hr_id rq) t)));
  match requested with
  | Ok (Some op) => if bool_decide (op = OperationRollback) then rollbackRelease rq
                    else in_transaction rq (writeError 500 "database_error" "could not submit release") (enqueue_transaction rq)
  | _ => in_transaction rq (writeError 500 "database_error" "could not submit release") (enqueue_transaction rq)
  end.

Definition as_retry (rq : request) : request :=
  {| hr_user := hr_user rq; hr_id := hr_id rq; hr_newid := hr_newid rq; hr_retry := true; hr_acquired := hr_acquired rq |}.
(* src: backend/internal/server/releases.go:934-936 (Server).retryRelease *)
Definition retryRelease (rq : request) : M bdb reply := enqueueRelease (as_retry rq).
End handlers.
