(* ===== verification/Workflow.v ===== *)
(** * The release workflow as a state machine (specification of Releases.v)

    [workflow rq n t t']: what one transaction of a release handler may do to
    the tables.  Every rule names the checks the change rests on; ReleaseProofs.v
    shows that the handlers do nothing else.

    A deployment is only queued for a release that does not ask for a rollback -
    as far as the code makes sure of it: [enqueueRelease] reads the operation
    before its transaction, ignores the error of that read, and the transaction
    ([submission]) does not look again. *)
From S2P Require Import Prelude GoIO GoString OS Model Db Store Backend Releases.

(** A target: its release, profile, application, environment and settings. *)
Record target (t : btables) (id : string) (r : release_row) (p : profile_row) (a : application_row) (e : environment_row) : Prop := {
  tr_release : the_release id t = Some r;
  tr_profile : profiles (bt_queue t) !! ri_profile (re_info r) = Some p;
  tr_app : applications t !! re_application r = Some a;
  tr_env : environments t !! re_environment r = Some e
}.

(** The deployed version, as a job snapshots it. *)
Definition head_pair (app env : string) (t : btables) : option string * option string :=
  let h := heads (bt_queue t) !! (app, env) in (hd_release <$> h, hd_job <$> h).

(** The foreign keys of the head do not hold. *)
Definition dangling_head (app env : string) (t : btables) : Prop :=
  ∃ h, heads (bt_queue t) !! (app, env) = Some h ∧ (the_release (hd_release h) t = None ∨ jobs (bt_queue t) !! hd_job h = None).
Definition snapshot (app env : string) (t : btables) (source : option string * option string) : Prop :=
  source = head_pair app env t ∨ source = (None, None) ∧ dangling_head app env t.

(** The latest job of the release's target is this release's failed deployment. *)
Definition failed_attempt (id jobID : string) (t : btables) : Prop :=
  ∃ r j, the_release id t = Some r ∧ latest_target (re_application r) (re_environment r) (bt_queue t) = Some (jobID, j)
    ∧ jr_release j = id ∧ jr_operation j = OperationDeploy ∧ jr_status j = StatusFailed.

(** A job a deployment may queue: [retry] is the failed job it replaces. *)
Inductive deploy_job (t : btables) (n : Z) (id user : string) (retry : option string) (r : release_row) : job_row → Prop :=
  | a_deploy_job p a e artifact lockKey source credential :
      target t id r p a e → ap_active a = true → en_active e = true → profile_enabled p = true → profile_matches p r = true →
      latest_artifact id t = Some artifact →
      dependencies_ready (ri_profile (re_info r)) "DEPLOY" "DEPLOY" (bt_queue t) = true →
      releaseTargetLockKey (re_application r) (re_environment r) = Ok lockKey →
      snapshot (re_application r) (re_environment r) t source →
      deploy_job t n id user retry r (new_job id OperationDeploy
        {| jt_profile := ri_profile (re_info r); jt_application := ap_code a; jt_version := ri_version (re_info r);
           jt_environment := en_code e; jt_lock_key := lockKey; jt_artifact := artifact; jt_labels := pi_labels (pr_info p) |}
        source retry credential user n).

(** The approval a job of profile [profile] for release [r] asks for. *)
Definition needs_approval (t : btables) (profile : string) (r : release_row) : Prop :=
  ∃ c p e, config t = Some c ∧ profiles (bt_queue t) !! profile = Some p ∧ environments t !! re_environment r = Some e
    ∧ approval_required c p e = true.

(** A rollback's plan, and the job it queues. *)
Definition planned (t : btables) (id : string) (retry : bool) (plan : rollbackPlan) : Prop :=
  ∃ x, plan_query id t = Some x ∧ plan_of id retry x = Ok plan.
Inductive rollback_job (t : btables) (n : Z) (id user : string) (plan : rollbackPlan) (r : release_row) : job_row → Prop :=
  | a_rollback_job a e s lockKey credential :
      the_release id t = Some r → applications t !! re_application r = Some a → environments t !! re_environment r = Some e →
      ap_active a = true → en_active e = true →
      source_query (SourceReleaseID plan) (SourceJobID plan) (re_application r) (re_environment r) t = Some s →
      profile_matches (so_profile s) r = true →
      dependencies_ready (ri_profile (re_info (so_row s))) "ROLLBACK" "ROLLBACK" (bt_queue t) = true →
      releaseTargetLockKey (re_application r) (re_environment r) = Ok lockKey →
      rollback_job t n id user plan r (new_job id OperationRollback
        {| jt_profile := ri_profile (re_info (so_row s)); jt_application := ap_code a; jt_version := ri_version (re_info (so_row s));
           jt_environment := en_code e; jt_lock_key := lockKey; jt_artifact := so_artifact s; jt_labels := pi_labels (pr_info (so_profile s)) |}
        (Some (SourceReleaseID plan), Some (SourceJobID plan)) None credential user n).

Definition is_rollback (r : release_row) : bool := bool_decide (rq_operation (request_of r) = OperationRollback).
(** A rollback request that is decided on, or approved. *)
Definition awaiting (status : string) : bool := bool_decide (status ∈ ["PENDING_REVIEW"; "UNDER_REVIEW"; "APPROVED"]).
Definition existing (r : release_row) : bool := is_rollback r && awaiting (re_status r).

(** The checks of an approval by [user]. *)
Record approvable (t : btables) (id user : string) (r : release_row) : Prop := {
  av_release : the_release id t = Some r;
  av_config : ∃ c, config t = Some c ∧ (requester r = user → cs_allow_self c = Some true);
  av_status : under_review (re_status r) = true;
  av_retry job : rq_retry (request_of r) = Some job → failed_attempt id job t;
  av_rollback : is_rollback r = true →
    ∃ plan, planned t id true plan ∧ rq_release (request_of r) = Some (SourceReleaseID plan)
            ∧ rq_job (request_of r) = Some (SourceJobID plan)
}.
Definition approved (user note : string) (r : release_row) : release_row :=
  set_release_status "APPROVED" (set_decision (sign approved_by user note) r).

(** What the transaction of a submission may do to release [r], whose operation
    it does not read. *)
Inductive submission (rq : request) (n : Z) (t : btables) (r : release_row) : btables → Prop :=
  (** A release asks for a review before it is deployed. *)
  | s_submit retry :
      the_release (hr_id rq) t = Some r → needs_approval t (ri_profile (re_info r)) r →
      (editable (re_status r) = true ∨ re_status r = "FAILED" ∧ is_Some retry) →
      (∀ job, retry = Some job → failed_attempt (hr_id rq) job t) →
      submission rq n t r (update_release (ask_review retry (hr_user rq)) (hr_id rq) t)
  | s_forget_retry :
      the_release (hr_id rq) t = Some r → is_Some (rq_retry (request_of r)) →
      submission rq n t r (update_release reset_retry (hr_id rq) t)
  | s_deploy retry user j t1 :
      the_release (hr_id rq) t = Some r →
      (needs_approval t (ri_profile (re_info r)) r → re_status r = "APPROVED") →
      (re_status r ∈ ["UPLOADED"; "APPROVED"; "DRAFT"; "PENDING_REVIEW"; "UNDER_REVIEW"; "REJECTED"]
       ∨ re_status r = "FAILED" ∧ is_Some retry) →
      (∀ job, retry = Some job → failed_attempt (hr_id rq) job t) →
      deploy_job t n (hr_id rq) user retry r j → insert_job (hr_newid rq 0) j t = Ok ((), t1) →
      submission rq n t r (update_release clear_retry (hr_id rq) t1).

Inductive workflow (rq : request) (n : Z) (t : btables) : btables → Prop :=
  | w_submission r t' : is_rollback r = false → submission rq n t r t' → workflow rq n t t'
  | w_review r note :
      the_release (hr_id rq) t = Some r → re_status r = "PENDING_REVIEW" →
      workflow rq n t (update_release (decide_release reviewed_by (hr_user rq) note "UNDER_REVIEW" false false) (hr_id rq) t)
  | w_approve r note :
      approvable t (hr_id rq) (hr_user rq) r →
      workflow rq n t (update_release (decide_release approved_by (hr_user rq) note "APPROVED" false false) (hr_id rq) t)
  | w_approve_deploy r note j t1 t2 :
      approvable t (hr_id rq) (hr_user rq) r → is_rollback r = false → rq_retry (request_of r) = None →
      t1 = update_release (approved (hr_user rq) note) (hr_id rq) t →
      deploy_job t1 n (hr_id rq) (ri_created_by (re_info r)) None (approved (hr_user rq) note r) j →
      insert_job (hr_newid rq 0) j t1 = Ok ((), t2) →
      workflow rq n t t2
  | w_reject r note status :
      the_release (hr_id rq) t = Some r → under_review (re_status r) = true →
      status = (if is_rollback r then default "" (rq_base (request_of r)) else "REJECTED") →
      (is_rollback r = true → final_status status = true) →
      workflow rq n t (update_release (decide_release rejected_by (hr_user rq) note status (is_rollback r)
                                         (bool_decide (is_Some (rq_retry (request_of r))))) (hr_id rq) t)
  | w_ask_rollback r retry plan s :
      the_release (hr_id rq) t = Some r → final_status (re_status r) = true → planned t (hr_id rq) retry plan →
      source_query (SourceReleaseID plan) (SourceJobID plan) (re_application r) (re_environment r) t = Some s →
      workflow rq n t (update_release (ask_rollback plan (hr_user rq) (re_status r)) (hr_id rq) t)
  | w_forget_rollback r base :
      the_release (hr_id rq) t = Some r → existing r = true → rq_base (request_of r) = Some base → final_status base = true →
      workflow rq n t (update_release (reset_rollback base) (hr_id rq) t)
  | w_rollback r retry plan base j t1 :
      the_release (hr_id rq) t = Some r →
      (needs_approval t (jr_profile j) r → re_status r = "APPROVED") →
      (final_status (re_status r) = true ∨ existing r = true) →
      (existing r = true →
         rq_release (request_of r) = Some (SourceReleaseID plan) ∧ rq_job (request_of r) = Some (SourceJobID plan)) →
      planned t (hr_id rq) retry plan → rollback_job t n (hr_id rq) (hr_user rq) plan r j →
      insert_job (hr_newid rq 0) j t = Ok ((), t1) → final_status base = true →
      workflow rq n t (update_release (start_rollback plan (hr_user rq) base) (hr_id rq) t1)
  (** A new quick release is submitted, or queued when its target needs no approval. *)
  | w_quick_review r :
      the_release (hr_id rq) t = Some r → re_status r = "UPLOADED" →
      workflow rq n t (update_release quick_review (hr_id rq) t)
  | w_quick_deploy r j t1 :
      the_release (hr_id rq) t = Some r → re_status r = "UPLOADED" →
      ¬ needs_approval t (ri_profile (re_info r)) r →
      deploy_job t n (hr_id rq) (ri_created_by (re_info r)) None r j → insert_job (hr_newid rq 0) j t = Ok ((), t1) →
      workflow rq n t t1.
