(* ===== verification/ReleaseProofs.v ===== *)
(** * The release handlers follow the workflow (theorems about Releases.v) *)
From S2P Require Import Prelude GoIO GoString OS Model Db Store Backend Releases Workflow.

(** Read the conditions of boolean checks. *)
Ltac run := repeat (cbv beta zeta; unfold or_error, reject_if, reply_error, queue_reject; run_step).
(** Read a query's row. *)
Ltac row H := repeat (let x := fresh "x" in let Hx := fresh "Hx" in apply bind_Some in H as (x & Hx & H)); try injection H as <-.

Lemma the_release_updated f id r t : the_release id t = Some r → the_release id (update_release f id t) = Some (f r).
Proof. unfold the_release, update_release. simpl. intros Hr. by rewrite lookup_alter_eq, Hr. Qed.

Section spec.
Context `{ErrorText} (pg_code : goerr → option string).
Implicit Types (rq : request) (t : btables) (n : Z).

Lemma latestFailedDeployJob_spec id t n :
  runs t n (latestFailedDeployJob id) (λ job t', t' = t ∧ failed_attempt id job t).
Proof.
  unfold latestFailedDeployJob. run. apply runs_lift. intros job Hj. inv_ok Hj. split; [done|].
  apply bind_Some in Hok as (r & Hr & [= <-]). apply bind_Some in Hj as ([k j] & Hl & Hj). simpl in *.
  destruct (_ && _) eqn:Hc; [|done]. injection Hj as <-. bools. by exists r, j.
Qed.

Lemma deploymentDependenciesReady_spec p op t n :
  runs t n (deploymentDependenciesReady p op) (λ b t', t' = t ∧ (b = true → dependencies_ready p op op (bt_queue t) = true)).
Proof.
  unfold deploymentDependenciesReady, requiredScriptForOperation. case_bool_decide; [|case_bool_decide]; subst.
  - apply runs_query. auto.
  - apply runs_query. auto.
  - apply runs_throw.
Qed.
Lemma reads_dependencies p op t n : reads t n (deploymentDependenciesReady p op).
Proof. unfold deploymentDependenciesReady. destruct (requiredScriptForOperation op) as [[]|]; auto with reads_db. Qed.
Lemma reads_failed_job id t n : reads t n (latestFailedDeployJob id).
Proof. unfold latestFailedDeployJob. auto with reads_db. Qed.
Lemma reads_plan id b t n : reads t n (resolveRollbackPlan id b).
Proof. unfold resolveRollbackPlan. auto with reads_db. Qed.

Lemma dependencies_checked_spec p op code msg t n :
  runs t n (dependencies_checked p op code msg) (λ _ t', t' = t ∧ dependencies_ready p op op (bt_queue t) = true).
Proof.
  unfold dependencies_checked. apply (runs_try_bind _ _ _ _ (λ b, b = true → dependencies_ready p op op (bt_queue t) = true)).
  - apply reads_dependencies.
  - eapply runs_conseq; [apply deploymentDependenciesReady_spec|]. naive_solver.
  - intros r Hr. apply runs_lift. intros u Hu. inv_ok Hu. destruct r as [b|]; [|done]. bools. split; [done|]. by apply (Hr b).
Qed.

Lemma runner_checked_spec labels msg t n : runs t n (runner_checked labels msg) (λ _ t', t' = t).
Proof. unfold runner_checked, matchingRunnerAvailable. run. by apply runs_lift. Qed.

Lemma lock_spec rq key t n :
  runs t n (lockReleaseTargetForJob rq key) (λ b t', t' = t ∧ (b = false → existsb (active_on sql_lower key) (map_to_list (jobs (bt_queue t))) = false)).
Proof. unfold lockReleaseTargetForJob. run. case_match; [by apply runs_ret|]. by apply runs_query. Qed.
Lemma target_locked_spec rq key msg t n :
  runs t n (target_locked rq key msg) (λ _ t', t' = t).
Proof.
  unfold target_locked. run. eapply runs_bind; [apply lock_spec|]. intros b t' [-> _]. by apply runs_lift.
Qed.

Lemma credential_spec p t n : runs t n (loadTargetCredentialSnapshot p) (λ _ t', t' = t).
Proof.
  unfold loadTargetCredentialSnapshot. run. destruct a as [id|]; [|by apply runs_ret]. by run.
Qed.
Lemma credential_snapshot_spec p t n : runs t n (credential_snapshot p) (λ _ t', t' = t).
Proof. apply runs_wrap, credential_spec. Qed.

Lemma plan_spec id b t n : runs t n (resolveRollbackPlan id b) (λ plan t', t' = t ∧ planned t id b plan).
Proof. unfold resolveRollbackPlan. run. apply runs_lift. intros plan Hp. split; [done|]. by exists a. Qed.

Lemma target_query_ok id t x :
  target_query id t = Some x →
  target t id (tg_row x) (tg_profile x) (tg_app x) (tg_env x) ∧ tg_artifact x = latest_artifact id t.
Proof. intros Hx. row Hx. by split; [constructor|]. Qed.

Lemma same_nullable l r : sameNullableString l r = true ↔ l = r.
Proof. destruct l, r; simpl; rewrite ?bool_decide_eq_true; naive_solver. Qed.

Lemma quick_source (quick : bool) (base head : option string * option string) :
  quick && (negb (sameNullableString base.1 head.1) || negb (sameNullableString base.2 head.2)) = false →
  (if quick then base else head) = head.
Proof.
  destruct quick; [|done]. simpl. intros Hb. bools. destruct base, head. simpl in *.
  f_equal; by apply same_nullable.
Qed.

Lemma queueable status required retry :
  negb (releaseCanQueue status required) && negb (bool_decide (is_Some retry) && bool_decide (status = "FAILED")) = false →
  status ∈ ["UPLOADED"; "APPROVED"; "DRAFT"; "PENDING_REVIEW"; "UNDER_REVIEW"; "REJECTED"] ∨ status = "FAILED" ∧ is_Some (retry : option string).
Proof.
  intros [Hb|Hb]%andb_false_iff; bools; [left|by right]. unfold releaseCanQueue in Hb.
  repeat case_bool_decide; set_solver.
Qed.

Lemma invalidate_retry_spec rq r persisted stale t n :
  the_release (hr_id rq) t = Some r → persisted = rq_retry (request_of r) →
  runs t n (invalidate_retry rq persisted stale) (λ s t', ∃ c, s = inl c ∧ submission rq n t r t').
Proof.
  intros Hr Hp. unfold invalidate_retry. destruct persisted; [|apply runs_throw]. run. eexists. split; [done|].
  eapply s_forget_retry; [done|]. by rewrite <- Hp.
Qed.
Lemma retry_source_spec rq r t n :
  the_release (hr_id rq) t = Some r →
  runs t n (retry_source rq (rq_retry (request_of r))) (λ s t',
    match s with inl _ => submission rq n t r t'
               | inr retry => t' = t ∧ (hr_retry rq = true → is_Some retry) ∧ ∀ job, retry = Some job → failed_attempt (hr_id rq) job t end).
Proof.
  intros Hr. unfold retry_source. cbv zeta. destruct (_ || _) eqn:Hd; [|run; bools].
  - apply (runs_try_bind _ _ _ _ (λ job, failed_attempt (hr_id rq) job t)); [apply reads_failed_job| |].
    { eapply runs_conseq; [apply latestFailedDeployJob_spec|]. naive_solver. }
    intros [job|e] Hj.
    + match goal with |- runs _ _ (if ?b then _ else _) _ => destruct b end.
      * run. naive_solver.
      * eapply runs_conseq; [by eapply invalidate_retry_spec|]. naive_solver.
    + eapply runs_conseq; [by eapply invalidate_retry_spec|]. naive_solver.
  - split; [done|]. split; [congruence|]. intros job Hj. destruct H1. by eexists.
Qed.

Lemma submit_review_spec rq r retry t n :
  the_release (hr_id rq) t = Some r → needs_approval t (ri_profile (re_info r)) r →
  (∀ job, retry = Some job → failed_attempt (hr_id rq) job t) →
  runs t n (submit_review rq (re_status r) retry) (λ _ t', submission rq n t r t').
Proof.
  intros Hr Ha Hf. unfold submit_review. run. eapply s_submit; [done..| |done].
  apply andb_false_iff in Hok as [Hb|Hb]; bools; [left|by right].
  unfold editable. apply bool_decide_eq_true. set_solver.
Qed.

Lemma queue_deploy_spec rq x artifact retry c t n :
  target_query (hr_id rq) t = Some x → tg_artifact x = Some artifact → config t = Some c →
  profile_matches (tg_profile x) (tg_row x) = true → target_active x = true →
  dependencies_ready (ri_profile (re_info (tg_row x))) "DEPLOY" "DEPLOY" (bt_queue t) = true →
  (∀ job, retry = Some job → failed_attempt (hr_id rq) job t) →
  (approval_required c (tg_profile x) (tg_env x) = true → re_status (tg_row x) = "APPROVED") →
  runs t n (queue_deploy rq x artifact retry (approval_required c (tg_profile x) (tg_env x))) (λ _ t', submission rq n t (tg_row x) t').
Proof.
  intros Hx Ha Hc Hm Hact Hd Hf Happ. destruct (target_query_ok _ _ _ Hx) as [Ht Hart].
  unfold queue_deploy. run.
  eapply runs_bind; [apply runner_checked_spec|]. intros _ t' ->. run.
  eapply runs_bind; [apply target_locked_spec|]. intros _ t' ->.
  eapply runs_bind; [apply credential_snapshot_spec|]. intros cred t' ->. run.
  eapply runs_bind; [eapply runs_checked; intros u t1 Hins; exact Hins|].
  intros [] t1 Hins. cbv beta in Hins. run.
  pose proof (quick_source (qi_quick (quick_of (tg_row x))) (qi_release (quick_of (tg_row x)), qi_job (quick_of (tg_row x))) _ Hok1) as Hs.
  rewrite Hs in Hins. unfold target_active in Hact. bools.
  eapply s_deploy; [by apply Ht| |by eapply queueable|done| |exact Hins].
  2: { apply a_deploy_job; try done; [congruence|by left]. }
  intros (c' & p & e & Hc' & Hp & He & Hreq). apply Happ. destruct Ht. by simplify_eq.
Qed.

Lemma enqueue_spec rq t n : runs t n (enqueue_transaction rq) (λ _ t', ∃ r, the_release (hr_id rq) t = Some r ∧ submission rq n t r t').
Proof.
  unfold enqueue_transaction. run. destruct a as [x c].
  apply bind_Some in Hok as (? & Hx & (? & Hc & [= -> ->])%bind_Some). run.
  assert (the_release (hr_id rq) t = Some (tg_row x)) as Hrow by by eapply target_query_ok.
  eapply runs_bind; [by eapply retry_source_spec|].
  intros [com|retry] t'; [intros; run; by exists (tg_row x)|]. intros (-> & Hre & Hf). run.
  eapply runs_bind; [apply dependencies_checked_spec|]. intros _ t' [-> Hd]. bools.
  match goal with |- runs _ _ ?m _ => apply (runs_conseq _ _ m (λ _ t', submission rq n t (tg_row x) t')) end; [|eauto].
  match goal with |- runs _ _ (if ?b then _ else _) _ => destruct b eqn:Hb end.
  - bools. apply submit_review_spec; [done| |done].
    destruct (target_query_ok _ _ _ Hx) as [[] _]. exists c, (tg_profile x), (tg_env x). done.
  - apply queue_deploy_spec; try done.
    + apply andb_false_iff in Hb as [Hb|Hb]; [congruence|bools; done].
Qed.

(** ** Decisions *)
Lemma decision_query_ok id t x :
  decision_query id t = Some x →
  the_release id t = Some (dc_row x) ∧ profiles (bt_queue t) !! ri_profile (re_info (dc_row x)) = Some (dc_profile x)
  ∧ environments t !! re_environment (dc_row x) = Some (dc_env x) ∧ config t = Some (dc_config x).
Proof. intros Hx. by row Hx. Qed.

Lemma update_in_status_true allowed f id t r :
  the_release id t = Some r → re_status r ∈ allowed → update_in_status allowed f id t = (true, update_release f id t).
Proof. intros Hr Hs. unfold update_in_status. by rewrite Hr, bool_decide_true. Qed.

Lemma approval_checks_spec rq x t n :
  decision_query (hr_id rq) t = Some x →
  runs t n (approval_checks rq x) (λ _ t', t' = t ∧
    (re_status (dc_row x) ∈ ["PENDING_REVIEW"; "UNDER_REVIEW"] → approvable t (hr_id rq) (hr_user rq) (dc_row x))).
Proof.
  intros Hx. destruct (decision_query_ok _ _ _ Hx) as (Hr & Hp & He & Hc). unfold approval_checks. run.
  eapply (runs_bind _ _ _ _ (λ _ t', t' = t ∧ ∀ job, rq_retry (request_of (dc_row x)) = Some job → failed_attempt (hr_id rq) job t)).
  { destruct (rq_retry _) as [job|]; [|by run].
    apply (runs_try_bind _ _ _ _ (λ job, failed_attempt (hr_id rq) job t)); [apply reads_failed_job| |].
    { eapply runs_conseq; [apply latestFailedDeployJob_spec|]. naive_solver. }
    intros [l|e] Hl; apply runs_lift; intros [] Hk; inv_ok Hk; [|done]. bools. subst.
    split; [done|]. intros ? [= <-]. auto. }
  intros _ t' [-> Hretry].
  eapply (runs_bind _ _ _ _ (λ _ t', t' = t ∧ (is_rollback (dc_row x) = true → ∃ plan, planned t (hr_id rq) true plan
    ∧ rq_release (request_of (dc_row x)) = Some (SourceReleaseID plan) ∧ rq_job (request_of (dc_row x)) = Some (SourceJobID plan)))).
  { fold (is_rollback (dc_row x)). destruct (is_rollback (dc_row x)); [|by run]. run.
    apply (runs_try_bind _ _ _ _ (λ plan, planned t (hr_id rq) true plan)); [apply reads_plan| |].
    { eapply runs_conseq; [apply plan_spec|]. naive_solver. }
    intros r Hplan. run. destruct r as [plan|e]; [|done]. bools. apply runs_wrap. run. apply runs_lift. intros s Hs.
    split; [done|]. intros _. exists plan. split; [by apply Hplan|done]. }
  intros [] t' [-> Hrb]. run. eapply runs_conseq; [apply dependencies_checked_spec|].
  intros _ t' [-> _]. split; [done|]. intros Hs. constructor; try done; [|by apply bool_decide_eq_true].
  eexists. split; [exact Hc|]. intros Hself.
  apply andb_false_iff in Hok as [Hb|Hb]; bools; [done|]. by destruct (cs_allow_self (dc_config x)) as [[]|].
Qed.

Lemma quick_head_spec app env a b t n :
  runs t n (validateAndLockQuickHead app env a b) (λ _ t', t' = t ∧ snapshot app env t (a, b)).
Proof.
  unfold validateAndLockQuickHead. run. apply runs_lift. intros [] Hk. inv_ok Hk. bools. split; [done|].
  repeat match goal with H : sameNullableString _ _ = true |- _ => apply same_nullable in H end. subst.
  unfold snapshot, dangling_head, head_pair. destruct (heads (bt_queue t) !! (app, env)) as [h|] eqn:Eh; [simpl|by left].
  destruct (the_release (hd_release h) t) eqn:Er; simpl; [|right; eauto].
  destruct (jobs (bt_queue t) !! hd_job h) eqn:Ej; simpl; [by left|right; eauto].
Qed.

Lemma queue_quick_spec rq id r status t n :
  the_release id t = Some r →
  runs t n (queueQuickDeployTx rq id status) (λ _ t', re_status r = status ∧ ∃ j, deploy_job t n id (ri_created_by (re_info r)) None r j
    ∧ insert_job (hr_newid rq 0) j t = Ok ((), t')).
Proof.
  intros Hr. unfold queueQuickDeployTx, matchingRunnerAvailable. run. destruct (target_query_ok _ _ _ Hok) as [Ht Hart].
  assert (tg_row a = r) as Er by (destruct Ht; congruence). rewrite Er in *.
  eapply runs_bind; [apply deploymentDependenciesReady_spec|]. intros ready t' [-> Hd]. run.
  eapply runs_bind; [apply lock_spec|]. intros busy t' [-> _]. run.
  eapply runs_bind; [apply credential_spec|]. intros cred t' ->. run.
  eapply runs_bind; [apply quick_head_spec|]. intros _ t' [-> Hs]. run.
  eapply runs_bind; [eapply runs_checked; intros u t1 Hins; exact Hins|].
  intros [] t1 Hins. cbv beta in Hins. run. unfold target_active in *. bools.
  split; [done|]. eexists. split; [|exact Hins]. apply a_deploy_job; try done; [congruence|auto].
Qed.

Lemma approve_and_queue_spec rq r allowed note action t n :
  approvable t (hr_id rq) (hr_user rq) r → re_status r ∈ allowed → is_rollback r = false → rq_retry (request_of r) = None →
  runs t n (approve_and_queue rq allowed note action) (λ _ t', workflow rq n t t').
Proof.
  intros Ha Hs Hrb Hre. pose proof (av_release _ _ _ _ Ha) as Hr. unfold approve_and_queue. run.
  rewrite (update_in_status_true _ _ _ _ _ Hr Hs). simpl. run.
  eapply runs_bind; [apply (queue_quick_spec rq (hr_id rq) (approved (hr_user rq) note r))|].
  { by apply the_release_updated. }
  intros _ t' (_ & j & Hj & Hins). run. by eapply w_approve_deploy.
Qed.

Lemma deploy_request r : rq_operation (request_of r) = OperationDeploy → is_rollback r = false.
Proof. unfold is_rollback. by intros ->. Qed.
Lemma update_run rq (allowed : list string) f r t n :
  the_release (hr_id rq) t = Some r → re_status r ∈ allowed → workflow rq n t (update_release f (hr_id rq) t) →
  workflow rq n t (update_in_status allowed f (hr_id rq) t).2.
Proof. intros Hr Hs Hw. by rewrite (update_in_status_true _ _ _ _ _ Hr Hs). Qed.

Lemma review_spec rq comment t n :
  runs t n (decision_transaction pg_code rq "UNDER_REVIEW" reviewed_by ["PENDING_REVIEW"] "release.review" comment)
    (λ _ t', workflow rq n t t').
Proof.
  unfold decision_transaction. run. destruct (decision_query_ok _ _ _ Hok) as (Hr & _). simpl. run. bools.
  eapply update_run; [done..|]. eapply w_review; [done|]. set_solver.
Qed.

Lemma approve_spec rq comment t n :
  runs t n (decision_transaction pg_code rq "APPROVED" approved_by ["PENDING_REVIEW"; "UNDER_REVIEW"] "release.approve" comment)
    (λ _ t', workflow rq n t t').
Proof.
  unfold decision_transaction. run. destruct (decision_query_ok _ _ _ Hok) as (Hr & _).
  change (bool_decide ("APPROVED" = "APPROVED")) with true. cbv iota.
  eapply runs_bind; [by apply approval_checks_spec|]. intros [] t' [-> Ha]. run. bools. specialize (Ha ltac:(assumption)).
  match goal with |- runs _ _ (if ?b then _ else _) _ => destruct b eqn:Hb end.
  - simpl in Hb. bools. apply (approve_and_queue_spec rq (dc_row a)); try done. by apply deploy_request.
  - simpl. run. bools. eapply update_run; [done..|]. by eapply w_approve.
Qed.

Lemma reject_spec rq comment t n :
  runs t n (decision_transaction pg_code rq "REJECTED" rejected_by ["PENDING_REVIEW"; "UNDER_REVIEW"] "release.reject" comment)
    (λ _ t', workflow rq n t t').
Proof.
  unfold decision_transaction. run. destruct (decision_query_ok _ _ _ Hok) as (Hr & _).
  change (bool_decide ("REJECTED" = "APPROVED")) with false. change (bool_decide ("REJECTED" = "REJECTED")) with true.
  cbv iota. simpl andb. cbv iota. fold (is_rollback (dc_row a)). run. bools.
  eapply (runs_bind _ _ _ _ (λ s t', t' = t ∧ s = (if is_rollback (dc_row a) then default "" (rq_base (request_of (dc_row a))) else "REJECTED")
    ∧ (is_rollback (dc_row a) = true → final_status s = true))).
  { destruct (is_rollback (dc_row a)); [|by run]. destruct (rq_base (request_of (dc_row a))) as [b|]; [|by run].
    destruct (bool_decide (b ∈ _)) eqn:Hb; [|by run]. by run. }
  intros s t' (-> & Hs & Hf). run. bools. eapply update_run; [done..|]. eapply w_reject; [done| |done|done].
  by apply bool_decide_eq_true.
Qed.

(** ** Rollbacks *)
Lemma rollback_plan_or_reset_spec rq r t n :
  the_release (hr_id rq) t = Some r →
  runs t n (rollback_plan_or_reset rq (existing r) (rq_base (request_of r))) (λ s t',
    match s with inl _ => workflow rq n t t' | inr plan => t' = t ∧ ∃ retry, planned t (hr_id rq) retry plan end).
Proof.
  intros Hr. unfold rollback_plan_or_reset.
  apply (runs_try_bind _ _ _ _ (λ plan, planned t (hr_id rq) (hr_retry rq || existing r) plan)); [apply reads_plan| |].
  { eapply runs_conseq; [apply plan_spec|]. naive_solver. }
  intros [plan|e] Hp; [run; eauto|]. cbv zeta. destruct (rq_base (request_of r)) as [b|] eqn:Hb; [|apply runs_throw].
  destruct (_ && _) eqn:Hx; [|apply runs_throw]. run.
  apply andb_true_iff in Hx as [He Hf]. by eapply w_forget_rollback.
Qed.

Lemma queue_rollback_spec rq x s plan retry lockKey t n :
  current_query (hr_id rq) t = Some x →
  source_query (SourceReleaseID plan) (SourceJobID plan) (re_application (cu_row x)) (re_environment (cu_row x)) t = Some s →
  ap_active (cu_app x) = true → en_active (cu_env x) = true → profile_matches (so_profile s) (cu_row x) = true →
  dependencies_ready (ri_profile (re_info (so_row s))) "ROLLBACK" "ROLLBACK" (bt_queue t) = true →
  releaseTargetLockKey (re_application (cu_row x)) (re_environment (cu_row x)) = Ok lockKey →
  planned t (hr_id rq) retry plan →
  (final_status (re_status (cu_row x)) = true ∨ existing (cu_row x) = true) →
  (existing (cu_row x) = true → rq_release (request_of (cu_row x)) = Some (SourceReleaseID plan)
                                ∧ rq_job (request_of (cu_row x)) = Some (SourceJobID plan)) →
  runs t n (queue_rollback rq x s plan lockKey (existing (cu_row x))) (λ _ t', workflow rq n t t').
Proof.
  intros Hx Hs Ha He Hm Hd Hk Hp Hst Hpin. unfold queue_rollback. run.
  assert (the_release (hr_id rq) t = Some (cu_row x) ∧ applications t !! re_application (cu_row x) = Some (cu_app x)
          ∧ environments t !! re_environment (cu_row x) = Some (cu_env x)) as (Hr & Happ & Henv) by by row Hx.
  match goal with |- runs _ _ (if ?b then _ else _) _ => destruct b eqn:Hb end.
  - run. bools. eapply update_run; [done|set_solver|]. eapply w_ask_rollback; [done| |done..].
    destruct Hst; [done|congruence].
  - eapply runs_bind; [apply runner_checked_spec|]. intros _ t' ->. run.
    eapply runs_bind; [apply credential_snapshot_spec|]. intros cred t' ->. run.
    eapply runs_bind; [eapply runs_checked; intros u t1 Hins; exact Hins|].
    intros [] t1 Hins. cbv beta in Hins. run. bools.
    eapply w_rollback; [done| |exact Hst|exact Hpin|done| |exact Hins|done].
    + intros (c' & p & e & Hc' & Hprof & He' & Hreq). simpl in Hprof.
      apply andb_false_iff in Hb as [Hb|Hb]; [exfalso|by bools].
      row Hs. simpl in *. destruct (_ && _) in Hs; [|done]. injection Hs as <-. simpl in *. congruence.
    + by apply a_rollback_job.
Qed.

Lemma rollback_spec rq t n : runs t n (rollback_transaction rq) (λ _ t', workflow rq n t t').
Proof.
  unfold rollback_transaction. run. fold (is_rollback (cu_row a)). fold (awaiting (re_status (cu_row a))). fold (existing (cu_row a)).
  eapply runs_bind; [apply target_locked_spec|]. intros _ t' ->.
  eapply runs_bind; [eapply rollback_plan_or_reset_spec; by row Hok|].
  intros [com|plan] t'; [intros; by run|]. intros (-> & retry & Hp). run.
  eapply runs_bind; [apply dependencies_checked_spec|]. intros _ t' [-> Hd]. bools.
  eapply queue_rollback_spec; try done.
  - apply andb_false_iff in Hok3 as [Hf|Hf]; apply negb_false_iff in Hf; [by left|by right].
  - intros He. rewrite He in Hok6. simpl in Hok6. by bools.
Qed.
End spec.
