(* ===== verification/Artifacts.v ===== *)
(** * Release artifacts (backend/internal/server/releases.go)

    Uploads are written below the storage root and recorded in one transaction:
    the handlers act on the database and on the file system ([server]).  A commit
    that reports an error may have been applied all the same ([commit_lost]). *)
From S2P Require Import Prelude GoIO GoString GoPath OS Files Encoding Sha256 Model Db Store Backend Releases.

Record server := Server { sv_db : bdb; sv_os : os }.
Definition on_db {A} (m : M bdb A) : M server A := λ w, let '(r, d) := m (sv_db w) in (r, Server d (sv_os w)).
Definition on_files {A} (m : M os A) : M server A := λ w, let '(r, o) := m (sv_os w) in (r, Server (sv_db w) o).

(** [if err != nil { return errors.New(text) }]. *)
Definition or_fail {A} (text : string) : M server A → M server A := wrapM (λ _, error_new text).
Definition fail_when (cond : bool) (text : string) : M server unit := lift (fail_if cond (error_new text)).
(** Calls whose errors are only logged. *)
Definition attempt_all (l : list (M os unit)) : M server unit := iterM (λ m, _ ← try (on_files m); mret ()) l.

(** ** Names *)
(* src: backend/internal/server/releases.go:380-382 safeArtifactName *)
Definition safeArtifactName (name : string) : bool :=
  bool_decide (name = base name) && negb (contains_any name path_bytes)
  && (has_suffix (to_lower name) ".tar" || has_suffix (to_lower name) ".tar.gz").

(* src: backend/internal/server/releases.go:400-409 artifactRelativePath *)
Definition artifactRelativePath (releaseID artifactID extension : string) : result string :=
  _ ← fail_if (negb (validUUID releaseID) || negb (validUUID artifactID)
               || negb (bool_decide (extension = ".tar")) && negb (bool_decide (extension = ".tar.gz")))
        (error_new "invalid artifact storage identifier");
  let relative := path_join [releaseID; artifactID +:+ extension] in
  _ ← fail_if (is_abs relative || contains_byte "092"%char relative) (error_new "unsafe artifact storage path");
  Ok relative.

(* src: backend/internal/server/releases.go:410-416 validSHA256 *)
Definition validSHA256 (value : string) : bool :=
  (slen value =? 64) && match hex_decode value with Some _ => true | None => false end && bool_decide (value = to_lower value).

(* src: backend/internal/server/releases.go:710-731 removeStoredArtifact *)
Definition removeStoredArtifact (root relative : string) : M os unit :=
  _ ← lift (fail_if (negb (is_abs root) || empty_str relative || is_abs relative || contains_byte "092"%char relative)
        (error_new "unsafe artifact path"));
  let root := clean root in
  let target := path_join [root; clean relative] in
  r ← lift (map_err (λ _, error_new "artifact path escapes storage root") (rel root target));
  _ ← lift (fail_if (escapes r) (error_new "artifact path escapes storage root"));
  info ← try (lstat target);
  match info with
  | Err e => if errors_is ErrNotExist e then mret () else throw e
  | Ok n =>
      _ ← lift (fail_if (negb (is_regular n)) (error_new "artifact is not a regular file"));
      remove target
  end.

(* src: backend/internal/server/releases.go:576-587 syncDirectory *)
Definition syncDirectory (path : string) : M os unit :=
  directory ← open_read path;
  syncErr ← try (sync_open directory);
  closeErr ← try (close_open directory);
  match syncErr with Err e => throw e | Ok _ => lift closeErr end.

(** ** Rows *)
Definition delete_placeholders (releaseID : string) (t : btables) : btables :=
  set_artifacts (filter (λ ka : string * artifact_row, ¬ (ar_release ka.2 = releaseID ∧ ar_path ka.2 = ""))) t.
(** The primary key, and the trigger [guard_release_artifact_insert]. *)
Definition insert_artifact (id : string) (a : artifact_row) (t : btables) : result (unit * btables) :=
  if bool_decide (is_Some (artifacts t !! id))
     || match the_release (ar_release a) t with Some r => negb (editable (re_status r)) | None => true end
     || empty_str (ar_path a) && bool_decide (is_Some (latest_artifact (ar_release a) t))
  then Err (External "release cannot accept artifacts in its current state")
  else Ok ((), set_artifacts (insert id a) t).

(** [DELETE FROM releases]: its jobs and artifacts go with it; the other rows
    that refer to them refuse it. *)
Definition release_job (id : string) (t : btables) (job : option string) : bool :=
  match job ≫= λ k, jobs (bt_queue t) !! k with Some j => bool_decide (jr_release j = id) | None => false end.
Definition release_referenced (id : string) (t : btables) : bool :=
  existsb (λ kh : (string * string) * head_row, bool_decide (hd_release kh.2 = id) || release_job id t (Some (hd_job kh.2)))
    (map_to_list (heads (bt_queue t)))
  || existsb (λ kr : string * release_row, negb (bool_decide (kr.1 = id)) &&
       (bool_decide (rq_release (request_of kr.2) = Some id) || release_job id t (rq_job (request_of kr.2))
        || release_job id t (rq_retry (request_of kr.2))
        || bool_decide (qi_release (quick_of kr.2) = Some id) || release_job id t (qi_job (quick_of kr.2))))
       (map_to_list (releases (bt_queue t)))
  || existsb (λ kj : string * job_row, negb (bool_decide (jr_release kj.2 = id)) &&
       (bool_decide (jr_rb_release kj.2 = Some id) || release_job id t (jr_rb_job kj.2) || release_job id t (ji_retry_of (jr_info kj.2))
        || match artifacts t !! ji_artifact (jr_info kj.2) with Some a => bool_decide (ar_release a = id) | None => false end))
       (map_to_list (jobs (bt_queue t))).
Definition delete_job_rows (id : string) (q : tables) : tables :=
  let gone := filter (λ kj : string * job_row, jr_release kj.2 = id) (jobs q) in
  let kept job := bool_decide (gone !! job = None) in
  Tables (filter (λ kj : string * job_row, jr_release kj.2 ≠ id) (jobs q)) (delete id (releases q))
    (filter (λ kl : string * lock_row, kept (lo_job kl.2) = true) (locks q)) (runners q)
    (filter (λ ks : Z * step_row, kept (st_job ks.2) = true) (steps q)) (filter (λ l, kept (lg_job l) = true) (logs q))
    (filter (λ ki : (string * string) * image_row, kept ki.1.1 = true) (images q)) (heads q) (credentials q) (profiles q) (scripts q) (settings q).
Definition delete_release_row (id : string) (t : btables) : result (unit * btables) :=
  if release_referenced id t then Err (External "update or delete violates foreign key constraint")
  else Ok ((), set_artifacts (filter (λ ka : string * artifact_row, ar_release ka.2 ≠ id)) (set_queue (delete_job_rows id) t)).

Section artifacts.
(** Which failing commits were applied, when a query for one timed out, and the
    SQLSTATE of an error of the database server. *)
Context (commit_lost : nat → bool) (visible_timeout : nat → bool) (pg_code : goerr → option string) `{ErrorText}.

(** [Begin] ... [Commit]; the caller inspects the error of the commit. *)
Definition rollback_text : string := "commit unexpectedly resulted in rollback".
Definition transact {A} (begin_error : goerr) (body : M server A) : M server (A * result unit) := λ w,
  let d := sv_db w in
  match db_faults d (db_tick d) with
  | Some text => (Err begin_error, Server (ticked_db (tabs d) false d) (sv_os w))
  | None =>
      match body (Server (ticked_db (tabs d) false d) (sv_os w)) with
      | (Ok a, w') =>
          let d' := sv_db w' in
          if db_aborted d' then (Ok (a, Err (External rollback_text)), Server (ticked_db (tabs d) false d') (sv_os w')) else
          match db_faults d' (db_tick d') with
          | Some text => (Ok (a, Err (External text)),
              Server (ticked_db (if commit_lost (db_tick d') then tabs d' else tabs d) false d') (sv_os w'))
          | None => (Ok (a, Ok ()), Server (ticked_db (tabs d') false d') (sv_os w'))
          end
      | (Err e, w') => (Err e, Server (ticked_db (tabs d) false (sv_db w')) (sv_os w'))
      end
  end.

(* src: backend/internal/server/releases.go:562-568 commitDefinitelyRolledBack *)
Definition commitDefinitelyRolledBack (e : goerr) : bool :=
  match e with External text => bool_decide (text = rollback_text) | _ => false end || bool_decide (is_Some (pg_code e)).

(** An uploaded file: what can be read of it, and the error after that. *)
Record upload := { up_name : string; up_media : string; up_content : bytes; up_error : option goerr }.
Record persistedArtifactResult := { pa_id : string; pa_row : artifact_row; pa_target : string; pa_directory : string }.

(** [io.Copy] of at most [limit] bytes to the file and the hash. *)
Definition copy_upload (u : upload) (limit : Z) (output : location) : M os bytes :=
  let data := take (Z.to_nat limit) (up_content u) in
  _ ← write_open output data;
  match up_error u with
  | Some e => if blen (up_content u) <? limit then throw e else mret data
  | None => mret data
  end.

(** The partial file, up to its final name. *)
(* src: backend/internal/server/releases.go:665-682 (Server).persistArtifactTx *)
Definition store_content (u : upload) (maximum : Z) (partial target : string) : M server bytes :=
  output ← or_fail "artifact storage file could not be created" (on_files (open_excl partial 416));
  copied ← try (on_files (copy_upload u (i64 (maximum + 1)) output));
  size ← gets (λ w, match fs (sv_os w) !! output with Some n => node_size n | None => 0 end);
  synced ← try (on_files (sync_open output));
  closed ← try (on_files (close_open output));
  _ ← fail_when (negb (is_ok copied && is_ok synced && is_ok closed) || (maximum <? size))
        "artifact exceeds the configured limit or could not be written";
  info ← try (on_files (lstat target));
  _ ← fail_when (match info with Err e => negb (errors_is ErrNotExist e) | Ok _ => true end)
        "artifact storage target already exists or cannot be checked";
  _ ← or_fail "artifact could not be atomically committed to storage" (on_files (rename partial target));
  lift copied.

(* src: backend/internal/server/releases.go:683-698 (Server).persistArtifactTx *)
Definition record_content (releaseID id directory : string) (a : artifact_row) : M server unit :=
  _ ← or_fail "artifact storage file could not be synchronized" (on_files (syncDirectory directory));
  _ ← or_fail "stale artifact metadata could not be removed" (on_db (statement (λ _ t, ((), delete_placeholders releaseID t))));
  _ ← or_fail "release not found or cannot accept artifacts" (on_db (checked (λ n t,
        insert_artifact id {| ar_release := ar_release a; ar_filename := ar_filename a; ar_path := ar_path a; ar_media := ar_media a;
                              ar_size := ar_size a; ar_sha256 := ar_sha256 a; ar_by := ar_by a; ar_created := n |} t)));
  rows ← or_fail "artifact metadata could not be committed" (on_db (statement (λ _ t,
           update_in_status ["DRAFT"; "UPLOADED"; "REJECTED"] (set_release_status "UPLOADED") releaseID t)));
  fail_when (negb rows) "artifact metadata could not be committed".

(** The release may take content, under these settings. *)
(* src: backend/internal/server/releases.go:590-613 (Server).persistArtifactTx *)
Definition accepts_content (releaseID : string) (allowQuickInitial : bool) : M server config_row :=
  row ← or_fail "release state could not be locked" (on_db (query (λ _ t, the_release releaseID t)));
  r ← lift (of_option (error_new "release not found or cannot accept artifacts") row);
  _ ← fail_when (negb (editable (re_status r))) "release not found or cannot accept artifacts";
  _ ← fail_when (qi_quick (quick_of r) && negb allowQuickInitial) "quick release artifacts are immutable; create a new quick release instead";
  row ← or_fail "artifact storage settings are unavailable" (on_db (query (λ _ t, config t)));
  cfg ← lift (of_option (error_new "artifact storage settings are unavailable") row);
  _ ← fail_when (negb (is_abs (cs_storage cfg))) "artifact storage root must be absolute";
  mret cfg.

(* src: backend/internal/server/releases.go:614-633 (Server).persistArtifactTx *)
Definition storage_directory (storage releaseID : string) : M server string :=
  _ ← or_fail "artifact storage root is unavailable" (on_files (mkdir_all storage 488));
  root ← or_fail "artifact storage root is unavailable" (on_files (eval_symlinks storage));
  let directory := path_join [root; releaseID] in
  _ ← or_fail "artifact storage directory is unavailable" (on_files (mkdir_all directory 488));
  info ← or_fail "artifact storage directory is not a real directory" (on_files (lstat directory));
  _ ← fail_when (negb (is_dir info)) "artifact storage directory is not a real directory";
  _ ← or_fail "artifact storage directory could not be synchronized" (on_files (syncDirectory root));
  mret directory.

(** [id] and [token] are the random names.  After the directory exists, an error
    removes what was created; the partial file goes in any case. *)
(* src: backend/internal/server/releases.go:589-708 (Server).persistArtifactTx *)
Definition persistArtifactTx (user id : string) (token : result string) (releaseID : string) (u : upload) (allowQuickInitial : bool)
    : M server persistedArtifactResult :=
  cfg ← accepts_content releaseID allowQuickInitial;
  directory ← storage_directory (cs_storage cfg) releaseID;
  let ext := if has_suffix (to_lower (up_name u)) ".tar.gz" then ".tar.gz" else ".tar" in
  let target := path_join [directory; id +:+ ext] in
  relativePath ← lift (artifactRelativePath releaseID id ext);
  token ← or_fail "artifact staging name could not be created" (lift token);
  let partial := target +:+ ".partial-" +:+ token in
  stored ← try (store_content u (cs_max_bytes cfg) partial target);
  match stored with
  | Err e => _ ← attempt_all [remove partial; remove directory]; throw e
  | Ok data =>
      let a := {| ar_release := releaseID; ar_filename := up_name u; ar_path := relativePath; ar_media := up_media u;
                  ar_size := blen data; ar_sha256 := sha256_hex data; ar_by := user; ar_created := 0 |} in
      recorded ← try (record_content releaseID id directory a);
      match recorded with
      | Err e => _ ← attempt_all [remove partial; remove target; remove directory]; throw e
      | Ok _ =>
          _ ← attempt_all [remove partial];
          mret {| pa_id := id; pa_row := a; pa_target := target; pa_directory := directory |}
      end
  end.

(* src: backend/internal/server/releases.go:699-706 (Server).persistArtifactTx *)
Definition cleanup (x : persistedArtifactResult) : M server unit := attempt_all [remove (pa_target x); remove (pa_directory x)].

(** Three attempts, at most two seconds. *)
(* src: backend/internal/server/releases.go:541-560 (Server).artifactCommitVisible *)
Fixpoint artifactCommitVisible (attempts : nat) (artifactID : string) : M server (bool * option goerr) :=
  row ← try (on_db (pool (query (λ _ t, bool_decide (is_Some (artifacts t !! artifactID))))));
  match row with
  | Ok true => mret (true, None)
  | _ =>
      let lastErr := err_of row in
      match attempts with
      | O | S O => mret (false, lastErr)
      | S attempts =>
          tick ← gets (λ w, db_tick (sv_db w));
          if visible_timeout tick then mret (false, Some (Sentinel DeadlineExceeded)) else artifactCommitVisible attempts artifactID
      end
  end.

(** After a commit that reported an error. *)
(* src: backend/internal/server/releases.go:523-535 (Server).persistArtifact *)
Definition reconcile (x : persistedArtifactResult) (e : goerr) : M server unit :=
  '(visible, _) ← artifactCommitVisible 3 (pa_id x);
  if (visible : bool) then mret ()
  else if commitDefinitelyRolledBack e then
    _ ← cleanup x; throw (error_new "artifact metadata could not be committed")
  else throw (error_new "artifact commit result is unknown; stored content was preserved for recovery").

(* src: backend/internal/server/releases.go:507-539 (Server).persistArtifact *)
Definition persistArtifact (rq : request) (token : result string) (releaseID : string) (u : upload) : M server persistedArtifactResult :=
  _ ← fail_when (negb (safeArtifactName (up_name u))) "only .tar and .tar.gz files with safe filenames are accepted";
  _ ← fail_when (negb (validUUID releaseID)) "release ID is invalid";
  '(x, committed) ← transact (error_new "artifact storage transaction could not be started")
                      (persistArtifactTx (hr_user rq) (hr_newid rq 1) token releaseID u false);
  _ ← match committed with Ok _ => lift (Ok ()) | Err e => reconcile x e end;
  _ ← on_db (Audit (hr_user rq) "artifact.upload" "artifact" (pa_id x) "success");
  mret x.

(** ** Handlers; [form] is what net/http parses of the multipart request *)
Inductive answer := Uploaded (a : persistedArtifactResult) | Metadata (id : string) | Answered (r : reply).

(* src: backend/internal/server/releases.go:487-506 (Server).uploadArtifact *)
Definition uploadArtifact (rq : request) (token : result string) (form : result upload) : M server answer :=
  row ← on_db (or_error 500 "database_error" "could not load storage settings" (pool (query (λ _ t, config t))));
  _ ← lift (of_option (writeError 500 "database_error" "could not load storage settings") row);
  u ← lift (map_err (λ _, writeError 400 "invalid_upload" "multipart field artifact is required") form);
  x ← wrapM (λ e, writeError 400 "invalid_artifact" (error_text e)) (persistArtifact rq token (hr_id rq) u);
  mret (Uploaded x).

(** [ORDER BY created_at LIMIT 1]. *)
Definition older (a b : string * profile_row) : Prop := pi_created (pr_info a.2) ≤ pi_created (pr_info b.2).
#[export] Instance older_dec a b : Decision (older a b).
Proof. unfold older. apply _. Defined.
Definition default_profile (app env : string) (t : btables) : option string :=
  fst <$> head (merge_sort older (filter (λ kp : string * profile_row,
    pi_application (pr_info kp.2) = app ∧ pi_environment (pr_info kp.2) = env ∧ profile_enabled kp.2 = true)
    (map_to_list (profiles (bt_queue t))))).

(* src: backend/internal/server/releases.go:187-223 (Server).createMultipartRelease *)
Definition createMultipartRelease (rq : request) (token : result string) (parsed : result unit) (input : releaseInput)
    (form : result upload) : M server answer :=
  row ← on_db (or_error 500 "database_error" "could not load storage settings" (pool (query (λ _ t, config t))));
  _ ← lift (of_option (writeError 500 "database_error" "could not load storage settings") row);
  _ ← lift (map_err (λ _, writeError 400 "invalid_upload" "invalid or oversized multipart request") parsed);
  profile ← (if empty_str (ProfileID input) then
               p ← try (on_db (pool (query (λ _ t, default_profile (ApplicationID input) (EnvironmentID input) t))));
               mret (match p with Ok (Some p) => p | _ => "" end)
             else mret (ProfileID input));
  let input := {| ApplicationID := ApplicationID input; EnvironmentID := EnvironmentID input; ProfileID := profile;
                  Version := Version input; Notes := Notes input |} in
  _ ← wrapM (λ e, writeError 400 "invalid_release" (error_text e)) (lift (validateReleaseInput input));
  u ← lift (map_err (λ _, writeError 400 "artifact_required" "artifact file is required") form);
  id ← on_db (wrapM (λ e, writeError 409 "release_conflict" (error_text e)) (insertRelease rq input));
  stored ← try (persistArtifact rq token id u);
  match stored with
  | Err e =>
      _ ← try (on_db (pool (checked (λ _ t, match the_release id t with Some _ => delete_release_row id t | None => Ok ((), t) end))));
      throw (writeError 400 "invalid_artifact" (error_text e))
  | Ok _ => r ← on_db (getReleaseByID id 201); mret (Answered r)
  end.

(* src: backend/internal/server/releases.go:373-378 artifactMetadataInput *)
Record artifactMetadataInput := { Filename : string; MediaType : string; SizeBytes : Z; SHA256 : string }.

(* src: backend/internal/server/releases.go:438-485 (Server).createArtifactMetadata *)
Definition createArtifactMetadata (rq : request) (input : artifactMetadataInput) : M bdb answer :=
  row ← or_error 500 "database_error" "could not load storage settings" (pool (query (λ _ t, config t)));
  cfg ← lift (of_option (writeError 500 "database_error" "could not load storage settings") row);
  _ ← reject_if (negb (safeArtifactName (Filename input)) || (SizeBytes input <? 0) || (cs_max_bytes cfg <? SizeBytes input)
                 || negb (validSHA256 (SHA256 input)))
        400 "invalid_artifact" "artifact must be a .tar or .tar.gz with valid size and lowercase SHA-256";
  let refused := writeError 400 "invalid_artifact" "release not found or cannot accept artifacts" in
  let id := hr_newid rq 1 in
  _ ← transaction_with (λ _, writeError 500 "database_error" "could not create artifact metadata") (λ _ _, refused) (
    row ← wrapM (λ _, refused) (query (λ _ t, the_release (hr_id rq) t));
    _ ← lift (fail_if (match row with Some r => negb (editable (re_status r)) | None => true end) refused);
    uploaded ← or_error 500 "database_error" "could not validate artifact state"
                 (query (λ _ t, bool_decide (is_Some (latest_artifact (hr_id rq) t))));
    _ ← reject_if uploaded 409 "artifact_content_exists" "metadata-only artifacts cannot be added after content upload";
    wrapM (λ _, refused) (checked (λ n t, insert_artifact id {| ar_release := hr_id rq; ar_filename := Filename input; ar_path := "";
      ar_media := MediaType input; ar_size := SizeBytes input; ar_sha256 := SHA256 input; ar_by := hr_user rq; ar_created := n |} t)));
  _ ← Audit (hr_user rq) "artifact.metadata.create" "artifact" id "success";
  mret (Metadata id).

(** The row goes with its artifacts; their paths are kept for the cleanup. *)
(* src: backend/internal/server/releases.go:313-357 (Server).deleteRelease *)
Definition delete_transaction (rq : request) : M bdb (string * list string) :=
  let failed := writeError 500 "database_error" "could not delete release" in
  row ← wrapM (λ _, failed) (query (λ _ t, the_release (hr_id rq) t));
  r ← lift (of_option (writeError 404 "not_found" "release not found") row);
  _ ← reject_if (negb (editable (re_status r))) 409 "invalid_state" "only draft, uploaded, or rejected releases can be deleted";
  cfg ← or_error 500 "database_error" "could not load storage settings" (query (λ _ t, config t));
  cfg ← lift (of_option (writeError 500 "database_error" "could not load storage settings") cfg);
  paths ← wrapM (λ _, failed) (query (λ _ t, filter (λ p, p ≠ "") (omap (λ ka : string * artifact_row,
            if bool_decide (ar_release ka.2 = hr_id rq) then Some (ar_path ka.2) else None) (map_to_list (artifacts t)))));
  _ ← or_error 409 "invalid_state" "release cannot be deleted" (checked (λ _ t, delete_release_row (hr_id rq) t));
  mret (cs_storage cfg, paths).

(** The stored files are removed after the commit; an error is only logged. *)
(* src: backend/internal/server/releases.go:311-371 (Server).deleteRelease *)
Definition deleteRelease (rq : request) : M server answer :=
  '(storageRoot, paths) ← on_db (transaction_with (λ _, writeError 500 "database_error" "could not delete release")
      (λ _ _, writeError 500 "database_error" "release deletion could not be committed") (delete_transaction rq));
  _ ← attempt_all (removeStoredArtifact storageRoot <$> paths);
  _ ← on_db (Audit (hr_user rq) "release.delete" "release" (hr_id rq) "success");
  mret (Answered NoContent).
End artifacts.
