(* ===== verification/Semver.v ===== *)
(** * Versions and artifact names (backend/internal/server/presets.go)

    Strict semantic versions without build metadata, their precedence, and the
    names of quick-release artifacts.  The submatches of the two regular
    expressions are unambiguous: a number holds neither a dot nor a hyphen, and
    a name is split at the last ["-v"] before its version. *)
From S2P Require Import Prelude GoIO GoString.

(** ** The regular expressions *)
Definition is_c (c : ascii) : regex := Class (is_char c).
Definition numeric_re : regex := Alt (is_c "0"%char) (Cat (Class (byte_in 49 57)) (Star (Class digit))).
Definition pre_char (c : ascii) : bool := digit c || upper_alpha c || lower_alpha c || is_char "-"%char c.
Definition pre_ident_re : regex := plus (Class pre_char).
Definition pre_re : regex := Cat pre_ident_re (Star (Cat (is_c "."%char) pre_ident_re)).
Definition core_re : regex := Cat numeric_re (Cat (is_c "."%char) (Cat numeric_re (Cat (is_c "."%char) numeric_re))).
(** [semVersionPattern]. *)
(* src: backend/internal/server/presets.go:19-19 semVersionPattern *)
Definition semVersionPattern : regex := Cat core_re (opt (Cat (is_c "-"%char) pre_re)).

Definition prefix_end (c : ascii) : bool := digit c || lower_alpha c.
Definition prefix_char (c : ascii) : bool := prefix_end c || is_char "-"%char c.
Definition prefix_re : regex := Cat (Class prefix_end) (opt (Cat (upto 62 (Class prefix_char)) (Class prefix_end))).

(** Up to the first byte [c], and after it. *)
Fixpoint cut (c : ascii) (l : list ascii) : list ascii * list ascii :=
  match l with
  | [] => ([], [])
  | d :: l => if is_char c d then ([], l) else let '(a, b) := cut c l in (d :: a, b)
  end.

(** ** Versions *)
(* src: backend/internal/server/presets.go:41-44 semVersionIdentifier *)
Record semVersionIdentifier := { value : string; numeric : bool }.
(* src: backend/internal/server/presets.go:46-51 semVersion *)
Record semVersion := { major : string; minor : string; patch : string; prerelease : list semVersionIdentifier }.

Fixpoint parse_identifiers (l : list string) : result (list semVersionIdentifier) :=
  match l with
  | [] => Ok []
  | v :: l =>
      let n := forallb digit (chars v) in
      _ ← fail_if (n && (1 <? slen v) && has_prefix v "0") (error_new "numeric pre-release identifiers cannot contain leading zeroes");
      ids ← parse_identifiers l;
      Ok ({| value := v; numeric := n |} :: ids)
  end.

(* src: backend/internal/server/presets.go:53-76 parseSemVersion *)
Definition parseSemVersion (v : string) : result semVersion :=
  _ ← fail_if (negb (match_string semVersionPattern v)) (error_new "version must be strict SemVer without build metadata");
  let '(a, l) := cut "."%char (chars v) in
  let '(b, l) := cut "."%char l in
  let '(c, pre) := cut "-"%char l in
  ids ← (if bool_decide (pre = []) then Ok [] else parse_identifiers (split_byte "."%char (of_chars pre)));
  Ok {| major := of_chars a; minor := of_chars b; patch := of_chars c; prerelease := ids |}.

(** [strings.Compare]. *)
Definition string_compare (s t : string) : Z :=
  if bool_decide (s = t) then 0 else if bytes_le (chars s) (chars t) then -1 else 1.

(* src: backend/internal/server/presets.go:78-86 compareNumericIdentifier *)
Definition compareNumericIdentifier (left right : string) : Z :=
  if slen left <? slen right then -1 else if slen right <? slen left then 1 else string_compare left right.

Fixpoint first_difference (l : list Z) : option Z :=
  match l with
  | [] => None
  | c :: l => if c =? 0 then first_difference l else Some c
  end.
Definition compare_identifier (left right : semVersionIdentifier) : Z :=
  match numeric left, numeric right with
  | true, true => compareNumericIdentifier (value left) (value right)
  | true, false => -1
  | false, true => 1
  | false, false => string_compare (value left) (value right)
  end.

(* src: backend/internal/server/presets.go:97-138 compareSemVersions *)
Definition compare_parsed (l r : semVersion) : Z :=
  match first_difference [compareNumericIdentifier (major l) (major r); compareNumericIdentifier (minor l) (minor r);
                          compareNumericIdentifier (patch l) (patch r)] with
  | Some c => c
  | None =>
      match prerelease l, prerelease r with
      | [], [] => 0
      | [], _ => 1
      | _, [] => -1
      | p, q =>
          match first_difference (zip_with compare_identifier p q) with
          | Some c => c
          | None => if (length p <? length q)%nat then -1 else if (length q <? length p)%nat then 1 else 0
          end
      end
  end.

(* src: backend/internal/server/presets.go:88-139 compareSemVersions *)
Definition compareSemVersions (left right : string) : result Z :=
  l ← parseSemVersion left;
  r ← parseSemVersion right;
  Ok (compare_parsed l r).

(** [Err (code, error)]. *)
(* src: backend/internal/server/presets.go:141-156 validateQuickUpgrade *)
Definition validateQuickUpgrade (currentVersion : option string) (nextVersion : string) : option (string * goerr) :=
  match currentVersion with
  | None => None
  | Some current =>
      match parseSemVersion current with
      | Err _ => Some ("current_version_not_semver",
          error_new "current deployed version is not strict SemVer; use Operations mode or the audited recovery flow")
      | Ok _ =>
          match compareSemVersions nextVersion current with
          | Err e => Some ("invalid_artifact_filename", e)
          | Ok c => if c <=? 0 then Some ("quick_upgrade_required",
                      error_new "Quick Deploy only accepts a version newer than the currently deployed version") else None
          end
      end
  end.

(** ** Artifact names *)
(* src: backend/internal/server/presets.go:21-25 parsedQuickArtifact *)
Record parsedQuickArtifact := { pq_Filename : string; pq_ArtifactPrefix : string; pq_Version : string }.

(** The longest prefix wins, as the greedy quantifiers prefer. *)
Fixpoint split_name (n : nat) (l : list ascii) : option (list ascii * list ascii) :=
  let rest := drop n l in
  if match_chars prefix_re (take n l) && bool_decide (take 2 rest = ["-"%char; "v"%char]) && match_chars semVersionPattern (drop 2 rest)
  then Some (take n l, drop 2 rest)
  else match n with O => None | S n => split_name n l end.
(** [quickArtifactFilenamePattern] and its submatches. *)
(* src: backend/internal/server/presets.go:18-18 quickArtifactFilenamePattern *)
Definition quick_submatch (filename : string) : option (string * string) :=
  if has_suffix filename ".tar.gz" then
    let l := chars (trim_suffix filename ".tar.gz") in
    '(p, v) ← split_name (length l) l; Some (of_chars p, of_chars v)
  else None.

(* src: backend/internal/server/presets.go:27-39 parseQuickArtifactFilename *)
Definition parseQuickArtifactFilename (filename : string) : result parsedQuickArtifact :=
  let bad := error_new "filename must match artifact-prefix-v<semver>.tar.gz" in
  _ ← fail_if (bool_decide (filename = "") || (256 <? slen filename) || negb (bool_decide (trim_space filename = filename))) bad;
  '(prefix, version) ← of_option bad (quick_submatch filename);
  _ ← fail_if (128 <? slen version) bad;
  _ ← parseSemVersion version;
  Ok {| pq_Filename := filename; pq_ArtifactPrefix := prefix; pq_Version := version |}.

(* src: backend/internal/server/presets.go:158-163 validArtifactPrefix *)
Definition validArtifactPrefix (prefix : string) : bool :=
  negb ((slen prefix <? 1) || (64 <? slen prefix)) && bool_decide (is_Some (quick_submatch (prefix +:+ "-v0.0.0.tar.gz"))).

Example parse_a : parseQuickArtifactFilename "shop-api-v1.2.0-rc.1.tar.gz"
  = Ok {| pq_Filename := "shop-api-v1.2.0-rc.1.tar.gz"; pq_ArtifactPrefix := "shop-api"; pq_Version := "1.2.0-rc.1" |}.
Proof. reflexivity. Qed.
Example compare_a : compareSemVersions "1.10.0" "1.9.9" = Ok 1 ∧ compareSemVersions "1.0.0-rc.1" "1.0.0" = Ok (-1)
  ∧ compareSemVersions "1.0.0-rc.2" "1.0.0-rc.10" = Ok (-1) ∧ compareSemVersions "1.0.0-alpha" "1.0.0-alpha.1" = Ok (-1).
Proof. split_and!; vm_compute; reflexivity. Qed.
