(* ===== verification/Quick.v ===== *)
(** * Presets and quick deploy (backend/internal/server/presets.go)

    A preset binds an artifact prefix to a target.  A quick release names its
    artifact after prefix and version: one request creates the release, stores
    the artifact and submits or queues it, in one transaction. *)
From S2P Require Import Prelude GoIO GoString GoPath OS Files Model Db Store Backend Releases Artifacts Semver.

(** ** Presets *)
(* src: backend/internal/server/presets.go:165-173 deploymentPresetInput *)
Record deploymentPresetInput := {
  pi_Name : string; pi_ArtifactPrefix : string; pi_ApplicationID : string; pi_EnvironmentID : string;
  pi_DeploymentProfileID : string; pi_Active : option bool; pi_AutoDeployAfterApproval : option bool
}.

(* src: backend/internal/server/presets.go:175-186 validateDeploymentPreset *)
Definition validateDeploymentPreset (input : deploymentPresetInput) : result unit :=
  _ ← fail_if (empty_str (trim_space (pi_Name input)) || (200 <? slen (trim_space (pi_Name input))))
        (error_new "name is required and must not exceed 200 characters");
  _ ← fail_if (negb (bool_decide (pi_ArtifactPrefix input = to_lower (trim_space (pi_ArtifactPrefix input))))
               || negb (validArtifactPrefix (pi_ArtifactPrefix input)))
        (error_new "artifactPrefix must contain 1 to 64 lowercase letters, digits, or internal hyphens");
  fail_if (negb (validUUID (pi_ApplicationID input)) || negb (validUUID (pi_EnvironmentID input)) || negb (validUUID (pi_DeploymentProfileID input)))
    (error_new "applicationId, environmentId, and deploymentProfileId must be UUIDs").

(** [deployment_presets_active_prefix_idx], of the rows other than [id]; the
    trigger [validate_deployment_preset_binding]; the column's CHECK. *)
Definition prefix_taken (id prefix : string) (t : btables) : bool :=
  existsb (λ kp : string * preset_row, negb (bool_decide (kp.1 = id)) && negb (ps_revoked kp.2) && bool_decide (ps_prefix kp.2 = prefix))
    (map_to_list (presets t)).
Definition preset_bound (application environment profile : string) (t : btables) : bool :=
  match applications t !! application, environments t !! environment, profiles (bt_queue t) !! profile with
  | Some _, Some e, Some p => bool_decide (en_application e = application) && bool_decide (pi_application (pr_info p) = application)
                              && bool_decide (pi_environment (pr_info p) = environment)
  | _, _, _ => false
  end.
Definition preset_conflict : goerr := External "preset constraint".
Definition put_preset (id : string) (p : preset_row) (t : btables) : result btables :=
  if negb (match_string prefix_re (ps_prefix p)) || negb (ps_revoked p) && prefix_taken id (ps_prefix p) t || negb (preset_bound (ps_application p) (ps_environment p) (ps_profile p) t)
  then Err preset_conflict else Ok (set_presets (insert id p) t).

(** The reply shows the row. *)
(* src: backend/internal/server/presets.go:288-299 (Server).getDeploymentPresetByID *)
Definition getDeploymentPresetByID (id : string) : M bdb preset_row :=
  row ← or_error 500 "database_error" "could not load deployment preset" (pool (query (λ _ t,
          p ← presets t !! id;
          _ ← applications t !! ps_application p;
          _ ← environments t !! ps_environment p;
          _ ← profiles (bt_queue t) !! ps_profile p;
          if ps_revoked p then None else Some p)));
  lift (of_option (writeError 404 "not_found" "deployment preset not found") row).

Section presets.
Context `{ErrorText}.

(* src: backend/internal/server/presets.go:256-282 (Server).createDeploymentPreset *)
Definition createDeploymentPreset (rq : request) (input : deploymentPresetInput) : M bdb preset_row :=
  _ ← wrapM (λ e, writeError 400 "invalid_deployment_preset" (error_text e)) (lift (validateDeploymentPreset input));
  let id := hr_newid rq 0 in
  _ ← or_error 409 "deployment_preset_conflict" "artifact prefix already exists or the application, environment, and profile binding is invalid"
    (pool (checked (λ n t,
      if bool_decide (is_Some (presets t !! id)) then Err preset_conflict else
      t' ← put_preset id {| ps_name := trim_space (pi_Name input); ps_prefix := pi_ArtifactPrefix input;
             ps_application := pi_ApplicationID input; ps_environment := pi_EnvironmentID input; ps_profile := pi_DeploymentProfileID input;
             ps_active := default true (pi_Active input); ps_auto := default true (pi_AutoDeployAfterApproval input);
             ps_revoked := false; ps_updated := n |} t;
      Ok ((), t'))));
  _ ← Audit (hr_user rq) "deployment_preset.create" "deployment_preset" id "success";
  getDeploymentPresetByID id.

(* src: backend/internal/server/presets.go:301-323 (Server).updateDeploymentPreset *)
Definition updateDeploymentPreset (rq : request) (input : deploymentPresetInput) : M bdb preset_row :=
  _ ← wrapM (λ e, writeError 400 "invalid_deployment_preset" (error_text e)) (lift (validateDeploymentPreset input));
  let id := hr_id rq in
  rows ← or_error 409 "deployment_preset_conflict" "artifact prefix already exists or the application, environment, and profile binding is invalid"
    (pool (checked (λ n t, match presets t !! id with
      | Some p =>
          if ps_revoked p then Ok (false, t) else
          t' ← put_preset id {| ps_name := trim_space (pi_Name input); ps_prefix := pi_ArtifactPrefix input;
                 ps_application := pi_ApplicationID input; ps_environment := pi_EnvironmentID input; ps_profile := pi_DeploymentProfileID input;
                 ps_active := default (ps_active p) (pi_Active input); ps_auto := default (ps_auto p) (pi_AutoDeployAfterApproval input);
                 ps_revoked := false; ps_updated := n |} t;
          Ok (true, t')
      | None => Ok (false, t)
      end)));
  _ ← reject_if (negb rows) 404 "not_found" "deployment preset not found";
  _ ← Audit (hr_user rq) "deployment_preset.update" "deployment_preset" id "success";
  getDeploymentPresetByID id.

(* src: backend/internal/server/presets.go:325-339 (Server).deleteDeploymentPreset *)
Definition deleteDeploymentPreset (rq : request) : M bdb unit :=
  rows ← or_error 500 "database_error" "could not revoke deployment preset" (pool (statement (λ n t, match presets t !! hr_id rq with
      | Some p => if ps_revoked p then (false, t)
                  else (true, set_presets (insert (hr_id rq) {| ps_name := ps_name p; ps_prefix := ps_prefix p;
                         ps_application := ps_application p; ps_environment := ps_environment p; ps_profile := ps_profile p;
                         ps_active := false; ps_auto := ps_auto p; ps_revoked := true; ps_updated := n |}) t)
      | None => (false, t)
      end)));
  _ ← reject_if (negb rows) 404 "not_found" "deployment preset not found";
  Audit (hr_user rq) "deployment_preset.revoke" "deployment_preset" (hr_id rq) "success".

(** ** The target of a prefix *)

(** The columns of the joined rows. *)
(* src: backend/internal/server/presets.go:341-359 resolvedDeploymentPreset *)
Record resolvedDeploymentPreset := {
  rp_id : string; rp_preset : preset_row; rp_app : application_row; rp_env : environment_row; rp_profile : profile_row;
  rp_required : bool; rp_current : option string
}.
Definition resolve_row (id : string) (current : option string) (t : btables) : option resolvedDeploymentPreset :=
  ps ← presets t !! id;
  a ← applications t !! ps_application ps;
  e ← environments t !! ps_environment ps;
  p ← profiles (bt_queue t) !! ps_profile ps;
  c ← config t;
  if ps_active ps && negb (ps_revoked ps) && preset_bound (ps_application ps) (ps_environment ps) (ps_profile ps) t
     && ap_active a && en_active e && profile_enabled p
  then Some {| rp_id := id; rp_preset := ps; rp_app := a; rp_env := e; rp_profile := p;
               rp_required := approval_required c p e; rp_current := current |}
  else None.
(** The version of the head's release. *)
Definition head_version (application environment : string) (t : btables) : option string :=
  h ← heads (bt_queue t) !! (application, environment); r ← the_release (hd_release h) t; Some (ri_version (re_info r)).
Definition with_prefix (prefix : string) (t : btables) : option (string * preset_row) :=
  head (filter (λ kp : string * preset_row, ps_prefix kp.2 = prefix ∧ ps_active kp.2 = true ∧ ps_revoked kp.2 = false) (map_to_list (presets t))).

(* src: backend/internal/server/presets.go:361-384 (Server).resolveDeploymentPreset *)
Definition resolveDeploymentPreset (prefix : string) : M bdb (option resolvedDeploymentPreset) :=
  pool (query (λ _ t, kp ← with_prefix prefix t;
    resolve_row kp.1 (head_version (ps_application kp.2) (ps_environment kp.2) t) t)).

(** The reply of a preflight. *)
Record preflight := { pf_parsed : parsedQuickArtifact; pf_resolved : resolvedDeploymentPreset; pf_action : string; pf_ready : bool; pf_runner : bool }.
Definition version_exists (application environment version : string) (t : btables) : bool :=
  existsb (λ kr : string * release_row, bool_decide (re_application kr.2 = application) && bool_decide (re_environment kr.2 = environment)
    && bool_decide (ri_version (re_info kr.2) = version)) (map_to_list (releases (bt_queue t))).

(* src: backend/internal/server/presets.go:386-439 (Server).preflightQuickRelease *)
Definition preflightQuickRelease (filename : string) : M bdb preflight :=
  parsed ← wrapM (λ e, writeError 400 "invalid_artifact_filename" (error_text e)) (lift (parseQuickArtifactFilename filename));
  row ← or_error 500 "database_error" "could not resolve deployment preset" (resolveDeploymentPreset (pq_ArtifactPrefix parsed));
  x ← lift (of_option (writeError 404 "deployment_preset_not_found" "no active deployment preset matches the artifact prefix") row);
  let ps := rp_preset x in
  exists_ ← or_error 500 "database_error" "could not validate release version"
              (pool (query (λ _ t, version_exists (ps_application ps) (ps_environment ps) (pq_Version parsed) t)));
  _ ← reject_if exists_ 409 "release_version_exists" "this version already exists for the resolved service and environment";
  _ ← match validateQuickUpgrade (rp_current x) (pq_Version parsed) with
      | Some (code, e) => reply_error 409 code (error_text e)
      | None => mret ()
      end;
  ready ← try (pool (deploymentDependenciesReady (ps_profile ps) "DEPLOY"));
  available ← try (pool (matchingRunnerAvailable (pi_labels (pr_info (rp_profile x)))));
  match ready, available with
  | Ok ready, Ok available =>
      mret {| pf_parsed := parsed; pf_resolved := x; pf_action := if rp_required x then "APPROVAL" else "DEPLOY";
              pf_ready := ready; pf_runner := available |}
  | _, _ => reply_error 500 "database_error" "could not validate deployment readiness"
  end.
End presets.

(** ** Quick releases *)

(** What net/http and mime parse of the multipart request: the form, its values,
    the file and the media type and parameters of its disposition. *)
Record quick_form := {
  qf_values : gmap string (list string); qf_file : result upload; qf_disposition : result (string * gmap string string)
}.
Inductive form_error := TooLarge | Malformed.

(** [filename] of the file header, and the disposition. *)
(* src: backend/internal/server/presets.go:441-452 rawMultipartFilename *)
Definition rawMultipartFilename (headerFilename : string) (disposition : result (string * gmap string string)) : result string :=
  let bad := error_new "artifact content disposition is invalid" in
  '(mediaType, parameters) ← map_err (λ _, bad) disposition;
  _ ← fail_if (negb (bool_decide (to_lower mediaType = "form-data")) || negb (bool_decide (default "" (parameters !! "name") = "artifact"))) bad;
  let filename := default "" (parameters !! "filename") in
  _ ← fail_if (empty_str filename || negb (bool_decide (filename = headerFilename)) || negb (bool_decide (filename = base filename))
               || contains_any filename path_bytes)
        (error_new "artifact filename must not contain a path");
  Ok filename.

(** The query of the transaction. *)
Definition quick_target (prefix id : string) (updated : Z) (t : btables) : option resolvedDeploymentPreset :=
  ps ← presets t !! id;
  if bool_decide (ps_prefix ps = prefix) && bool_decide (ps_updated ps = updated) then resolve_row id None t else None.
Definition quick_head (application environment : string) (t : btables) : option (string * string * string) :=
  h ← heads (bt_queue t) !! (application, environment);
  r ← the_release (hd_release h) t;
  _ ← jobs (bt_queue t) !! hd_job h;
  Some (hd_release h, hd_job h, ri_version (re_info r)).

Definition as_release (rq : request) (id : string) (first : nat) : request :=
  {| hr_user := hr_user rq; hr_id := id; hr_newid := λ n, hr_newid rq (first + n)%nat; hr_retry := hr_retry rq; hr_acquired := hr_acquired rq |}.

Section quick.
Context (commit_lost : nat → bool) (visible_timeout : nat → bool) (pg_code : goerr → option string) `{ErrorText}.
Context (parse_time : string → result Z).

(** The snapshot the form carries: the preset, its version and the deployed version. *)
(* src: backend/internal/server/presets.go:616-632 (Server).quickRelease *)
Definition form_snapshot (values : gmap string (list string)) : result (string * Z * string) :=
  match values !! "expectedPresetId", values !! "expectedPresetUpdatedAt", values !! "expectedCurrentVersion" with
  | Some [presetID], Some [updated], Some [version] =>
      _ ← fail_if (negb (validUUID presetID)) (writeError 400 "preflight_snapshot_required"
            "expectedPresetId, expectedPresetUpdatedAt, and expectedCurrentVersion must come from preflight");
      at_ ← map_err (λ _, writeError 400 "preflight_snapshot_required"
              "expectedPresetUpdatedAt must be an RFC 3339 timestamp from preflight") (parse_time updated);
      Ok (presetID, at_, version)
  | _, _, _ => Err (writeError 400 "preflight_snapshot_required"
                 "expectedPresetId, expectedPresetUpdatedAt, and expectedCurrentVersion must come from preflight")
  end.

(** The deployed version is the one the preflight showed. *)
(* src: backend/internal/server/presets.go:708-730 (Server).quickRelease *)
Definition quick_basis (head : option (string * string * string)) (expectedCurrentVersion : string)
    : result (option string * option string * option string) :=
  let changed := writeError 409 "deployment_head_changed" "the deployed version changed after preflight; run preflight again" in
  match head with
  | None => _ ← fail_if (negb (bool_decide (expectedCurrentVersion = ""))) changed; Ok (None, None, None)
  | Some (release, job, version) =>
      _ ← fail_if (negb (bool_decide (version = expectedCurrentVersion))) changed;
      Ok (Some release, Some job, Some version)
  end.

(** Submit the release for review, or queue its job. *)
(* src: backend/internal/server/presets.go:756-789 (Server).quickRelease *)
Definition quick_submit (rq : request) (id lockKey : string) (x : resolvedDeploymentPreset) (base : option string * option string)
    : M bdb string :=
  ready ← or_error 500 "database_error" "could not validate deployment profile" (deploymentDependenciesReady (ps_profile (rp_preset x)) "DEPLOY");
  _ ← reject_if (negb ready) 409 "deployment_profile_not_ready" "an active registry credential and approved DEPLOY script are required";
  if rp_required x then
    busy ← or_error 500 "database_error" "could not lock the deployment target" (lockReleaseTargetForJob rq lockKey);
    _ ← reject_if busy 409 "job_conflict" "release target already has an active deployment job";
    _ ← wrapM (writeQuickQueueError "database_error" "could not validate the deployment head")
          (validateAndLockQuickHead (ps_application (rp_preset x)) (ps_environment (rp_preset x)) base.1 base.2);
    let conflict := writeError 409 "quick_release_conflict" "quick release could not be submitted for review" in
    rows ← wrapM (λ _, conflict) (statement (λ _ t, update_in_status ["UPLOADED"] quick_review id t));
    _ ← lift (fail_if (negb rows) conflict);
    mret "release.submit_review"
  else
    _ ← wrapM (writeQuickQueueError "database_error" "quick release could not be queued") (queueQuickDeployTx (as_release rq id 2) id "UPLOADED");
    mret "release.enqueue".

(** The checks of the target, up to the new release. *)
(* src: backend/internal/server/presets.go:656-740 (Server).quickRelease *)
Definition quick_prepare (rq : request) (parsed : parsedQuickArtifact) (snapshot : string * Z * string) (notes : string)
    : M bdb (resolvedDeploymentPreset * string * (option string * option string)) :=
  let '(presetID, updated, expectedCurrentVersion) := snapshot in
  row ← or_error 500 "database_error" "could not lock deployment preset"
          (query (λ _ t, quick_target (pq_ArtifactPrefix parsed) presetID updated t));
  x ← lift (of_option (writeError 409 "deployment_preset_unavailable" "no active deployment preset matches the artifact prefix") row);
  let application := ps_application (rp_preset x) in
  let environment := ps_environment (rp_preset x) in
  taken ← or_error 500 "database_error" "could not validate release version"
            (query (λ _ t, version_exists application environment (pq_Version parsed) t));
  _ ← reject_if taken 409 "release_conflict" "this version already exists for the resolved service and environment";
  lockKey ← lift (map_err (λ _, writeError 500 "database_error" "resolved deployment target is invalid")
                   (releaseTargetLockKey application environment));
  busy ← or_error 500 "database_error" "could not validate the deployment target lock" (activeTargetJobExists lockKey);
  _ ← reject_if busy 409 "job_conflict" "release target already has an active deployment job";
  head ← or_error 500 "database_error" "could not lock the current deployment head" (query (λ _ t, quick_head application environment t));
  '(baseRelease, baseJob, currentVersion) ← lift (quick_basis head expectedCurrentVersion);
  _ ← match validateQuickUpgrade currentVersion (pq_Version parsed) with
      | Some (code, e) => reply_error 409 code (error_text e)
      | None => mret ()
      end;
  let quick := {| qi_preset := Some presetID; qi_quick := true; qi_auto := ps_auto (rp_preset x);
                  qi_release := baseRelease; qi_job := baseJob |} in
  _ ← or_error 409 "release_conflict" "this version already exists for the resolved service and environment" (checked (λ n t,
        insert_release (hr_newid rq 0) (draft application environment (ps_profile (rp_preset x)) (pq_Version parsed) notes (hr_user rq) quick n) t));
  mret (x, lockKey, (baseRelease, baseJob)).

(* src: backend/internal/server/presets.go:650-789 (Server).quickRelease *)
Definition quick_transaction (rq : request) (token : result string) (parsed : parsedQuickArtifact) (snapshot : string * Z * string)
    (notes : string) (u : upload) : M server (persistedArtifactResult * string) :=
  '(x, lockKey, base) ← on_db (quick_prepare rq parsed snapshot notes);
  let id := hr_newid rq 0 in
  artifact ← wrapM (λ e, if contains (error_text e) "exceeds the configured limit" then writeError 413 "artifact_too_large" (error_text e)
                         else writeError 400 "invalid_artifact" (error_text e))
               (persistArtifactTx (hr_user rq) (hr_newid rq 1) token id u true);
  action ← try (on_db (quick_submit rq id lockKey x base));
  match action with
  | Ok action => mret (artifact, action)
  | Err e => _ ← cleanup artifact; throw e
  end.

(* src: backend/internal/server/presets.go:588-813 (Server).quickRelease *)
Definition quickRelease (rq : request) (permitted : bool) (form : form_error + quick_form) (token : result string) : M server answer :=
  _ ← on_db (reject_if (negb permitted) 403 "permission_denied" "releases.submit permission is required for quick deployment");
  row ← on_db (or_error 500 "database_error" "could not load artifact settings" (pool (query (λ _ t, config t))));
  _ ← lift (of_option (writeError 500 "database_error" "could not load artifact settings") row);
  form ← lift (match form with
               | inl TooLarge => Err (writeError 413 "artifact_too_large" "multipart request exceeds the configured artifact limit")
               | inl Malformed => Err (writeError 400 "invalid_upload" "invalid multipart request")
               | inr f => Ok f end);
  let notes := match qf_values form !! "notes" with Some (v :: _) => v | _ => "" end in
  _ ← on_db (reject_if (16384 <? slen notes) 400 "invalid_release" "notes must not exceed 16 KiB");
  snapshot ← lift (form_snapshot (qf_values form));
  u ← lift (map_err (λ _, writeError 400 "artifact_required" "multipart field artifact is required") (qf_file form));
  filename ← lift (map_err (λ e, writeError 400 "invalid_artifact_filename" (error_text e))
                    (rawMultipartFilename (up_name u) (qf_disposition form)));
  parsed ← lift (map_err (λ e, writeError 400 "invalid_artifact_filename" (error_text e)) (parseQuickArtifactFilename filename));
  '(x, committed) ← transact commit_lost (writeError 500 "database_error" "could not start quick release")
                      (quick_transaction rq token parsed snapshot notes u);
  let '(artifact, action) := (x : persistedArtifactResult * string) in
  let id := hr_newid rq 0 in
  _ ← match committed with
      | Ok _ => mret ()
      | Err e =>
          '(visible, _) ← artifactCommitVisible visible_timeout 3 (pa_id artifact);
          if (visible : bool) then mret ()
          else if commitDefinitelyRolledBack pg_code e then
            _ ← cleanup artifact;
            throw (writeError 409 "quick_release_conflict" "quick release changed concurrently; retry the upload")
          else throw (writeError 500 "commit_result_unknown" "quick release commit result is unknown; artifact was preserved for recovery")
      end;
  _ ← on_db (Audit (hr_user rq) "release.quick.create" "release" id "success");
  _ ← on_db (Audit (hr_user rq) "artifact.upload" "artifact" (pa_id artifact) "success");
  _ ← on_db (Audit (hr_user rq) action "release" id "success");
  r ← on_db (getReleaseByID id 201);
  mret (Answered r).
End quick.
