(* ===== verification/Consistency.v ===== *)
(** * Consistent releases and jobs (theorems about Workflow.v)

    What the backend and the Runners keep true of their shared tables: the
    releases are well formed, every job is bound to the target of its release and
    to a verified source, a target has at most one active job, and the release of
    an active job shows it.  Each change the workflow allows preserves it. *)
From S2P Require Import Prelude GoIO GoString OS Model Db Store Queue StoreProofs QueueSafety StoreFrame Backend Releases Workflow ReleaseProofs Artifacts.
From stdpp Require Import relations.

(** ** Releases *)

(** The statuses of a release whose job is active. *)
Definition live_statuses : list string :=
  ["QUEUED"; "VALIDATING"; "PRE_CHECK"; "EXTRACTING"; "IMAGE_INSPECT"; "IMAGE_LOAD"; "IMAGE_TAG"; "IMAGE_PUSH"; "DEPLOYING";
   "VERIFYING"; "ROLLBACK"].
Definition live (status : string) : bool := bool_decide (status ∈ live_statuses).
Definition release_statuses : list string :=
  ["DRAFT"; "UPLOADED"; "PENDING_REVIEW"; "UNDER_REVIEW"; "APPROVED"; "REJECTED"] ++ live_statuses ++ ["ROLLED_BACK"; "SUCCESS"; "FAILED"].

Record release_ok (r : release_row) : Prop := {
  rk_status : re_status r ∈ release_statuses;
  rk_operation : rq_operation (request_of r) ∈ [OperationDeploy; OperationRollback];
  rk_rollback : is_rollback r = true →
    is_Some (rq_release (request_of r)) ∧ is_Some (rq_job (request_of r)) ∧ is_Some (rq_by (request_of r)) ∧ is_Some (rq_base (request_of r));
  rk_editable : editable (re_status r) = true → is_rollback r = false;
  rk_base b : rq_base (request_of r) = Some b → final_status b = true;
  rk_retry : is_Some (rq_retry (request_of r)) → is_rollback r = false ∧ awaiting (re_status r) = true;
  rk_approved : re_status r = "APPROVED" → ∃ user, de_approved (decision_of r) = Some user ∧ user ≠ requester r
}.

(** Membership in a list of literals. *)
Ltac listed := refine (proj1 (bool_decide_eq_true _) _); reflexivity.

Lemma live_text s : live (status_text s) = negb (terminal s).
Proof. by destruct s. Qed.
Lemma status_text_ok s : status_text s ∈ release_statuses.
Proof. destruct s; listed. Qed.

(** Statuses are told apart by evaluation. *)
Definition idle_statuses : list string := ["DRAFT"; "UPLOADED"; "PENDING_REVIEW"; "UNDER_REVIEW"; "APPROVED"; "REJECTED"; "ROLLED_BACK"; "SUCCESS"; "FAILED"].
Lemma not_live s : s ∈ idle_statuses → live s = false.
Proof. unfold idle_statuses. set_unfold. intuition subst; reflexivity. Qed.
Lemma editable_idle s : editable s = true → live s = false ∧ awaiting s = false.
Proof. unfold editable. intros Hs%bool_decide_eq_true. set_unfold. intuition subst; reflexivity. Qed.
Lemma final_idle s : final_status s = true → live s = false ∧ awaiting s = false ∧ s ∈ release_statuses.
Proof.
  unfold final_status. intros Hs%bool_decide_eq_true. set_unfold. destruct Hs as [Hs|[Hs|Hs]]; [..|done]; subst.
  - split_and!; [done..|listed].
  - split_and!; [done..|listed].
Qed.
Lemma awaiting_idle s : awaiting s = true → live s = false.
Proof. unfold awaiting. intros Hs%bool_decide_eq_true. set_unfold. intuition subst; reflexivity. Qed.
Lemma review_awaiting s : under_review s = true → awaiting s = true.
Proof. unfold under_review, awaiting. rewrite !bool_decide_eq_true. set_solver. Qed.

(** ** Jobs, heads and targets *)

(** A successful deployment of a target. *)
Definition verified (t : tables) (app env release job : string) : Prop :=
  ∃ j r, verified_job job release t = Some j ∧ releases t !! release = Some r ∧ re_application r = app ∧ re_environment r = env.

(** The source of a job: the version before a deployment, or the one to restore. *)
Definition source_ok (t : tables) (j : job_row) (r : release_row) : Prop :=
  match jr_rb_release j, jr_rb_job j with
  | Some release, Some job => verified t (re_application r) (re_environment r) release job
  | None, None => jr_operation j = OperationDeploy
  | _, _ => False
  end.
Definition job_ok (t : tables) (j : job_row) : Prop :=
  ∃ r, releases t !! jr_release j = Some r
    ∧ releaseTargetLockKey (re_application r) (re_environment r) = Ok (jr_lock_key j)
    ∧ source_ok t j r ∧ jr_operation j ∈ [OperationDeploy; OperationRollback].

Record sound (t : tables) : Prop := {
  so_queue : tables_inv t;
  so_releases id r : releases t !! id = Some r → release_ok r;
  so_jobs id j : jobs t !! id = Some j → job_ok t j;
  so_heads app env h : heads t !! (app, env) = Some h → verified t app env (hd_release h) (hd_job h);
  so_active id1 j1 id2 j2 : jobs t !! id1 = Some j1 → jobs t !! id2 = Some j2 → active j1 = true → active j2 = true →
    sql_lower (jr_lock_key j1) = sql_lower (jr_lock_key j2) → id1 = id2;
  so_live id j r : jobs t !! id = Some j → active j = true → releases t !! jr_release j = Some r → live (re_status r) = true
}.

(** No job of the release is active. *)
Definition idle (t : tables) (id : string) : Prop := ∀ k j, jobs t !! k = Some j → jr_release j = id → active j = false.
Lemma sound_idle t id r : sound t → releases t !! id = Some r → live (re_status r) = false → idle t id.
Proof.
  intros Ht Hr Hl k j Hj <-. destruct (active j) eqn:Ha; [|done]. by rewrite (so_live _ Ht _ _ _ Hj Ha Hr) in Hl.
Qed.

Lemma verified_job_ok job release t j :
  verified_job job release t = Some j ↔
  jobs t !! job = Some j ∧ jr_release j = release ∧ jr_operation j = OperationDeploy ∧ jr_status j = StatusSuccess.
Proof.
  unfold verified_job. destruct (jobs t !! job) as [j'|]; simpl; [|naive_solver].
  destruct (_ && _) eqn:Hb; [bools; naive_solver|]. split; [done|]. intros ([= ->] & Hr & Ho & Hs).
  rewrite !bool_decide_true in Hb by done. done.
Qed.

(** Releases that keep their targets. *)
Definition same_target (r r' : release_row) : Prop := re_application r' = re_application r ∧ re_environment r' = re_environment r.
Definition keeps_targets (t t' : tables) : Prop := ∀ id r, releases t !! id = Some r → ∃ r', releases t' !! id = Some r' ∧ same_target r r'.

Lemma verified_mono t t' app env release job :
  keeps_terminal t t' → keeps_targets t t' → verified t app env release job → verified t' app env release job.
Proof.
  intros Hk Ht (j & r & Hj & Hr & <- & <-). apply verified_job_ok in Hj as (Hj & Hrel & Ho & Hs).
  destruct (Ht _ _ Hr) as (r' & Hr' & Ha & He). exists j, r'. split_and!; [|done..].
  apply verified_job_ok. split_and!; [|done..]. apply Hk; [done|]. by rewrite Hs.
Qed.
Lemma source_mono t t' j r r' :
  keeps_terminal t t' → keeps_targets t t' → same_target r r' → source_ok t j r → source_ok t' j r'.
Proof.
  intros Hk Ht [Ha He]. unfold source_ok. rewrite Ha, He. repeat case_match; [|done..]. by apply verified_mono.
Qed.
Lemma job_ok_mono t t' j : keeps_terminal t t' → keeps_targets t t' → job_ok t j → job_ok t' j.
Proof.
  intros Hk Ht (r & Hr & Hkey & Hs & Ho). destruct (Ht _ _ Hr) as (r' & Hr' & Hsame). exists r'.
  split; [done|]. split; [by destruct Hsame as [-> ->]|]. split; [by eapply source_mono|done].
Qed.

(** ** Changing one release *)
Lemma tables_inv_releases f t : tables_inv t → tables_inv (set_releases f t).
Proof. intros [Hq Hu]. constructor; [exact Hq|exact Hu]. Qed.
Lemma keeps_alter f id t r :
  releases t !! id = Some r → same_target r (f r) → keeps_targets t (set_releases (alter f id) t).
Proof.
  intros Hr Hf id' r' Hr'. simpl. destruct (decide (id = id')) as [<-|Hne].
  - assert (r' = r) as -> by congruence. rewrite lookup_alter_eq, Hr. by exists (f r).
  - rewrite lookup_alter_ne by done. by exists r'.
Qed.

Lemma sound_release f id t r :
  sound t → releases t !! id = Some r → same_target r (f r) → release_ok (f r) →
  (live (re_status r) = false ∨ live (re_status (f r)) = true) → sound (set_releases (alter f id) t).
Proof.
  intros Ht Hr Hf Hok Hl. pose proof (keeps_alter f id t r Hr Hf) as Hk.
  assert (keeps_terminal t (set_releases (alter f id) t)) as Hkt by by intros k x.
  constructor.
  - apply tables_inv_releases, Ht.
  - intros id' r'. simpl. destruct (decide (id = id')) as [<-|Hne].
    + rewrite lookup_alter_eq, Hr. by intros [= <-].
    + rewrite lookup_alter_ne by done. apply Ht.
  - intros k j Hj. eapply job_ok_mono; [done..|]. by eapply so_jobs.
  - intros app env h Hh. eapply verified_mono; [done..|]. by apply (so_heads _ Ht).
  - apply Ht.
  - intros k j r' Hj Ha. simpl. destruct (decide (id = jr_release j)) as [->|Hne].
    + rewrite lookup_alter_eq, Hr. intros [= <-]. destruct Hl as [Hl|Hl]; [|done].
      by rewrite (sound_idle _ _ _ Ht Hr Hl _ _ Hj eq_refl) in Ha.
    + rewrite lookup_alter_ne by done. by apply (so_live _ Ht k).
Qed.

(** ** Queueing a job *)
Lemma insert_job_ok id j t t1 :
  insert_job id j t = Ok ((), t1) →
  jobs (bt_queue t) !! id = None
  ∧ (∀ k j', jobs (bt_queue t) !! k = Some j' → active j' = true →
       jr_release j' ≠ jr_release j ∧ sql_lower (jr_lock_key j') ≠ sql_lower (jr_lock_key j))
  ∧ t1 = update_release (set_release_status (status_text (jr_status j))) (jr_release j) (set_queue (put_job id j) t).
Proof.
  unfold insert_job. destruct (_ || _) eqn:Hb; [done|]. intros [= <-]. bools. split; [by apply eq_None_not_Some|]. split; [|done].
  intros k j' Hj Ha. assert ((k, j') ∈ map_to_list (jobs (bt_queue t))) as Hin by by apply elem_of_map_to_list.
  assert (∀ f : string * job_row → bool, existsb f (map_to_list (jobs (bt_queue t))) = false → f (k, j') = false) as Hex.
  { intros f Hf. destruct (f (k, j')) eqn:E; [|done]. rewrite <- Hf. symmetry. apply existsb_exists. exists (k, j').
    split; [by apply list_elem_of_In|done]. }
  pose proof (Hex _ H1) as H1'. pose proof (Hex _ H0) as H0'. simpl in H1', H0'. unfold active_on in H0'. simpl in H0'.
  rewrite Ha in *. simpl in *. bools. done.
Qed.

Lemma keeps_put_new id j t : jobs t !! id = None → keeps_terminal t (put_job id j t).
Proof. intros Hid k x Hk _. simpl. rewrite lookup_insert_ne; [done|congruence]. Qed.

Lemma sound_queue f id j t r :
  sound t → jobs t !! id = None →
  (∀ k j', jobs t !! k = Some j' → active j' = true → sql_lower (jr_lock_key j') ≠ sql_lower (jr_lock_key j)) →
  jr_status j = StatusQueued → jr_locked_by j = None → job_ok t j →
  releases t !! jr_release j = Some r → same_target r (f r) → release_ok (f r) → live (re_status (f r)) = true →
  sound (set_releases (alter f (jr_release j)) (put_job id j t)).
Proof.
  intros Ht Hid Hfree Hs Hlock Hj Hr Hf Hok Hlive.
  pose proof (keeps_alter f _ t r Hr Hf) as Hk. pose proof (keeps_put_new id j t Hid) as Hkt.
  assert (keeps_targets t (set_releases (alter f (jr_release j)) (put_job id j t))) as Hk' by exact Hk.
  constructor.
  - apply tables_inv_releases. constructor.
    + rewrite abs_put_job. apply inv_enqueue; [apply Ht| |by unfold abs_phase; simpl; unfold abs_phase; rewrite Hs].
      simpl. by rewrite lookup_fmap, Hid.
    + apply queued_put; [apply Ht|done].
  - intros id' r'. simpl. destruct (decide (jr_release j = id')) as [<-|Hne].
    + rewrite lookup_alter_eq, Hr. by intros [= <-].
    + rewrite lookup_alter_ne by done. apply Ht.
  - intros k j'. simpl. intros [[<- <-]|[_ Hj']]%lookup_insert_Some; [by eapply job_ok_mono|].
    eapply job_ok_mono; [done..|]. by eapply so_jobs.
  - intros app env h Hh. eapply verified_mono; [done..|]. by apply (so_heads _ Ht).
  - intros id1 j1 id2 j2. simpl. intros [[<- <-]|[_ H1]]%lookup_insert_Some [[<- <-]|[_ H2]]%lookup_insert_Some A1 A2 E; [done| | |by eapply so_active].
    + by destruct (Hfree _ _ H2 A2).
    + by destruct (Hfree _ _ H1 A1).
  - intros k j' r'. simpl. intros Hj' Ha. destruct (decide (jr_release j = jr_release j')) as [<-|Hne].
    + rewrite lookup_alter_eq, Hr. by intros [= <-].
    + rewrite lookup_alter_ne by done. apply lookup_insert_Some in Hj' as [[<- <-]|[_ Hj']]; [done|]. by apply (so_live _ Ht k).
Qed.

(** ** The changes of the workflow *)

(** Nobody may approve their own request. *)
Definition four_eyes (t : btables) : Prop := ∀ c, config t = Some c → cs_allow_self c ≠ Some true.

Ltac row_ok Hr :=
  let K := fresh in pose proof Hr as K; destruct K as [?Hst ?Hop ?Hrb ?Hed ?Hbase ?Hretry ?Happ];
  constructor; unfold is_rollback, request_of, decision_of, requester in *; simpl in *;
  try done; try congruence; try listed; try (by intros []).

Lemma ask_review_ok retry user r :
  release_ok r → is_rollback r = false → release_ok (ask_review retry user r).
Proof. intros Hr Hd. row_ok Hr. Qed.
Lemma reset_retry_ok r : release_ok r → is_rollback r = false → release_ok (reset_retry r).
Proof. intros Hr Hd. row_ok Hr. Qed.
Lemma reset_rollback_ok base r : release_ok r → existing r = true → final_status base = true → release_ok (reset_rollback base r).
Proof.
  intros Hr [Hd Ha]%andb_true_iff Hf. destruct (final_idle _ Hf) as (_ & Hna & Hs). row_ok Hr.
  - intros (?Hr & _)%Hretry. congruence.
  - intros ->. done.
Qed.
Lemma clear_retry_ok r : release_ok r → release_ok (clear_retry r).
Proof. intros Hr. row_ok Hr. Qed.
Lemma review_ok user note r : release_ok r → re_status r = "PENDING_REVIEW" → release_ok (decide_release reviewed_by user note "UNDER_REVIEW" false false r).
Proof. intros Hr Hs. row_ok Hr. intros [? _]%Hretry. done. Qed.
Lemma approve_ok user note r :
  release_ok r → requester r ≠ user → release_ok (decide_release approved_by user note "APPROVED" false false r).
Proof. intros Hr Hu. row_ok Hr; [intros [? _]%Hretry; done|]. intros _. exists user. split; [done|]. by apply not_eq_sym. Qed.
Lemma reject_ok user note r :
  release_ok r → (is_rollback r = true → final_status (default "" (rq_base (request_of r))) = true) →
  release_ok (decide_release rejected_by user note (if is_rollback r then default "" (rq_base (request_of r)) else "REJECTED")
                (is_rollback r) (bool_decide (is_Some (rq_retry (request_of r)))) r).
Proof.
  intros Hr Hf. destruct (is_rollback r) eqn:Hd.
  - destruct (final_idle _ (Hf eq_refl)) as (_ & Hna & Hs). row_ok Hr.
    + destruct (bool_decide (is_Some _)) eqn:Hb; [by intros []|]. intros [? _]%Hretry. congruence.
    + intros E. rewrite E in Hna. done.
  - destruct (bool_decide (is_Some (rq_retry (request_of r)))) eqn:Hb; row_ok Hr.
    by apply bool_decide_eq_false in Hb.
Qed.
Lemma ask_rollback_ok plan user r :
  release_ok r → final_status (re_status r) = true → release_ok (ask_rollback plan user (re_status r) r).
Proof.
  intros Hr Hf. destruct (final_idle _ Hf) as (_ & Hna & Hs). row_ok Hr; eauto.
  - intros b. destruct (rq_base _) as [b'|]; simpl; intros [= <-]; auto.
  - intros [? ?]%Hretry. congruence.
Qed.
Lemma start_rollback_ok plan user base r :
  release_ok r → final_status base = true → (final_status (re_status r) = true ∨ existing r = true) → release_ok (start_rollback plan user base r).
Proof.
  intros Hr Hf Hfin. row_ok Hr; eauto.
  - intros b. destruct (rq_base _) as [b'|]; simpl; intros [= <-]; auto.
  - intros [Hd Ha]%Hretry. destruct Hfin as [(_ & Hna & _)%final_idle|[Hd' _]%andb_true_iff]; [congruence|].
    unfold is_rollback, request_of in *. congruence.
Qed.
Lemma queued_approved_ok user note r :
  release_ok r → rq_retry (request_of r) = None → release_ok (set_release_status "QUEUED" (approved user note r)).
Proof. intros Hr Hn. row_ok Hr. by rewrite Hn; intros []. Qed.
Lemma approved_ok user note r :
  release_ok r → awaiting (re_status r) = true → requester r ≠ user → release_ok (approved user note r).
Proof.
  intros Hr Ha Hu. row_ok Hr; [by intros [? _]%Hretry|]. intros _. exists user. split; [done|]. by apply not_eq_sym.
Qed.

Lemma quick_review_ok r : release_ok r → re_status r = "UPLOADED" → release_ok (quick_review r).
Proof. intros Hr Hs. row_ok Hr. by intros [? _]%Hretry. Qed.
Lemma quick_queued_ok r : release_ok r → re_status r = "UPLOADED" → release_ok (set_release_status "QUEUED" r).
Proof. intros Hr Hs. row_ok Hr. rewrite Hs in Hretry. by intros [_ ?]%Hretry. Qed.

(** ** The jobs of the workflow *)
Lemma verified_releases f t app env release job :
  keeps_targets t (set_releases f t) → verified t app env release job → verified (set_releases f t) app env release job.
Proof. intros Hk. apply verified_mono; [|done]. by intros k x. Qed.

Lemma deploy_job_ok t n id user retry r j :
  sound (bt_queue t) → the_release id t = Some r → deploy_job t n id user retry r j →
  job_ok (bt_queue t) j ∧ jr_release j = id ∧ jr_status j = StatusQueued ∧ jr_locked_by j = None.
Proof.
  intros Ht Hr [p a e artifact lockKey source cred _ _ _ _ _ _ _ Hkey Hsnap]. split; [|done]. exists r.
  split; [exact Hr|]. split; [done|]. split; [|simpl; listed]. unfold source_ok. simpl.
  destruct Hsnap as [->|[-> _]]; [|done]. unfold head_pair.
  destruct (heads (bt_queue t) !! _) as [h|] eqn:Hh; simpl; [|done]. by apply (so_heads _ Ht).
Qed.

Lemma source_query_ok source job app env t s :
  source_query source job app env t = Some s → verified (bt_queue t) app env source job.
Proof.
  intros Hs. unfold source_query in Hs. repeat (let x := fresh "x" in let Hx := fresh "Hx" in apply bind_Some in Hs as (x & Hx & Hs)).
  destruct (_ && _) eqn:Hb; [|done]. bools. by exists x1, x.
Qed.
Lemma rollback_job_ok t n id user plan r j :
  rollback_job t n id user plan r j →
  job_ok (bt_queue t) j ∧ jr_release j = id ∧ jr_status j = StatusQueued ∧ jr_locked_by j = None.
Proof.
  intros [a e s lockKey cred Hr _ _ _ _ Hs _ _ Hkey]. split; [|done]. exists r.
  split; [exact Hr|]. split; [done|]. split; [|simpl; listed]. unfold source_ok. simpl. by eapply source_query_ok.
Qed.

Lemma queued_then g id j t t1 :
  insert_job id j t = Ok ((), t1) → jr_status j = StatusQueued →
  bt_queue (update_release g (jr_release j) t1)
  = set_releases (alter (g ∘ set_release_status "QUEUED") (jr_release j)) (put_job id j (bt_queue t)).
Proof.
  intros (_ & _ & ->)%insert_job_ok Hs. unfold update_release, set_queue, set_releases. simpl. by rewrite alter_alter_eq, Hs.
Qed.


Lemma sound_job f id j t t1 r :
  sound (bt_queue t) → insert_job id j t = Ok ((), t1) →
  job_ok (bt_queue t) j → jr_status j = StatusQueued → jr_locked_by j = None →
  the_release (jr_release j) t = Some r → same_target r (f r) → release_ok (f r) → live (re_status (f r)) = true →
  sound (set_releases (alter f (jr_release j)) (put_job id j (bt_queue t))).
Proof.
  intros Ht (Hid & Hfree & _)%insert_job_ok Hj Hs Hl Hr Hf Hok Hlive. eapply sound_queue; try done. intros k j' Hk Ha. by eapply Hfree.
Qed.

Lemma sound_workflow rq n t t' : four_eyes t → sound (bt_queue t) → workflow rq n t t' → sound (bt_queue t').
Proof.
  intros Hstrict Ht Hw.
  destruct Hw as [r t' Hd [retry Hr Hn Hst Hf|Hr Hre|retry user j t1 Hr Hn Hst Hf Hj Hi]|r note Hr Hs|r note Ha
    |r note j t1 t2 Ha Hd Hre -> Hj Hi|r note status Hr Hu -> Hf|r retry plan s Hr Hfin Hp Hsrc|r base Hr He Hb Hf
    |r retry plan base j t1 Hr Hn Hst Hpin Hp Hj Hi Hf|r Hr Hs|r j t1 Hr Hs Hn Hj Hi].
  - pose proof (so_releases _ Ht _ _ Hr) as Hok. eapply sound_release; [done|exact Hr|done|by apply ask_review_ok|left].
    destruct Hst as [[? _]%editable_idle|[-> _]]; done.
  - pose proof (so_releases _ Ht _ _ Hr) as Hok. eapply sound_release; [done|exact Hr|done|by apply reset_retry_ok|left].
    apply awaiting_idle. by apply Hok.
  - pose proof (so_releases _ Ht _ _ Hr) as Hok. destruct (deploy_job_ok _ _ _ _ _ _ _ Ht Hr Hj) as (Hjok & Hid & Hs & Hl).
    rewrite <- Hid in *. rewrite (queued_then _ _ _ _ _ Hi Hs). eapply sound_job; [done|exact Hi|done..|by apply clear_retry_ok in Hok|done].
  - pose proof (so_releases _ Ht _ _ Hr) as Hok. eapply sound_release; [done|exact Hr|done|by apply review_ok|left]. by rewrite Hs.
  - destruct Ha as [Hr (c & Hc & Hself) Hu _ _]. pose proof (so_releases _ Ht _ _ Hr) as Hok.
    eapply sound_release; [done|exact Hr|done|apply approve_ok; [done|]|left].
    + intros E. by destruct (Hstrict _ Hc (Hself E)).
    + by apply awaiting_idle, review_awaiting.
  - destruct Ha as [Hr (c & Hc & Hself) Hu _ _]. pose proof (so_releases _ Ht _ _ Hr) as Hok.
    pose proof (review_awaiting _ Hu) as Haw.
    set (t1 := update_release (approved (hr_user rq) note) (hr_id rq) t) in *.
    assert (sound (bt_queue t1)) as Ht1.
    { eapply sound_release; [done|exact Hr|done|apply approved_ok; [done..|]|left; by apply awaiting_idle].
      intros E. by destruct (Hstrict _ Hc (Hself E)). }
    pose proof (the_release_updated (approved (hr_user rq) note) _ _ _ Hr) as Hr1. fold t1 in Hr1.
    destruct (deploy_job_ok _ _ _ _ _ _ _ Ht1 Hr1 Hj) as (Hjok & Hid & Hs & Hl).
    rewrite <- Hid in Hr1. pose proof (insert_job_ok _ _ _ _ Hi) as (_ & _ & E). rewrite Hs in E. rewrite E.
    eapply (sound_job _ _ _ t1); [done|exact Hi|done..|by apply queued_approved_ok|done].
  - pose proof (so_releases _ Ht _ _ Hr) as Hok. pose proof (review_awaiting _ Hu) as Haw.
    eapply sound_release; [done|exact Hr|done| |left; by apply awaiting_idle].
    apply reject_ok; [done|]. intros E. specialize (Hf E). by rewrite E in Hf.
  - pose proof (so_releases _ Ht _ _ Hr) as Hok.
    eapply sound_release; [done|exact Hr|done|by apply ask_rollback_ok|left; by apply final_idle].
  - pose proof (so_releases _ Ht _ _ Hr) as Hok.
    eapply sound_release; [done|exact Hr|done|by apply reset_rollback_ok|left]. apply awaiting_idle. by apply andb_true_iff in He as [_ ?].
  - pose proof (so_releases _ Ht _ _ Hr) as Hok. destruct (rollback_job_ok _ _ _ _ _ _ _ Hj) as (Hjok & Hid & Hs & Hl).
    rewrite <- Hid in *. rewrite (queued_then _ _ _ _ _ Hi Hs).
    eapply sound_job; [done|exact Hi|done..| |done]. by apply (start_rollback_ok plan (hr_user rq) base) in Hok.
  - pose proof (so_releases _ Ht _ _ Hr) as Hok. eapply sound_release; [done|exact Hr|done|by apply quick_review_ok|left]. by rewrite Hs.
  - pose proof (so_releases _ Ht _ _ Hr) as Hok. destruct (deploy_job_ok _ _ _ _ _ _ _ Ht Hr Hj) as (Hjok & Hid & Hq & Hl).
    rewrite <- Hid in Hr. pose proof (insert_job_ok _ _ _ _ Hi) as (_ & _ & E). rewrite Hq in E. rewrite E.
    eapply (sound_job _ _ _ t); [done|exact Hi|done..|by apply quick_queued_ok|done].
Qed.

(** ** Calls of a Runner *)
Lemma runner_status_ok s r : release_ok r → live (re_status r) = true → release_ok (set_release_status (status_text s) r).
Proof.
  intros Hr Hl. row_ok Hr.
  - apply status_text_ok.
  - by destruct s.
  - intros [_ Ha%awaiting_idle]%Hretry. congruence.
  - by destruct s.
Qed.
Lemma same_release_key t j1 j2 : job_ok t j1 → job_ok t j2 → jr_release j1 = jr_release j2 → jr_lock_key j1 = jr_lock_key j2.
Proof. intros (r1 & H1 & K1 & _) (r2 & H2 & K2 & _) E. rewrite E in H1. simplify_eq. congruence. Qed.
Lemma one_active_release t id1 j1 id2 j2 :
  sound t → jobs t !! id1 = Some j1 → jobs t !! id2 = Some j2 → active j1 = true → active j2 = true →
  jr_release j1 = jr_release j2 → id1 = id2.
Proof.
  intros Ht H1 H2 A1 A2 E. eapply so_active; [done..|]. f_equal. eapply same_release_key; [by eapply so_jobs..|done].
Qed.

Section runner.
Context (t t' : tables) (Hinv : tables_inv t') (Hk : keeps_terminal t t') (Hrel : runner_rel t t') (Hsync : synced t t').

Lemma runner_targets : keeps_targets t t'.
Proof.
  intros id r Hr. destruct (fmap_lookup_eq release_static (releases t') (releases t) id r) as (r' & Hr' & E);
    [symmetry; apply Hrel|done|]. exists r'. apply release_static_columns in E as (Ea & Ee & _). done.
Qed.
Lemma runner_job id j' :
  jobs t' !! id = Some j' → ∃ j, jobs t !! id = Some j ∧ static j = static j' ∧ (active j' = true → active j = true).
Proof.
  intros Hj. destruct (fmap_lookup_eq _ _ _ _ _ (rr_jobs _ _ Hrel) Hj) as (j & Hj0 & E). exists j. split_and!; [done..|].
  unfold active. intros Ha. destruct (terminal (jr_status j)) eqn:Et; [|done]. pose proof (Hk _ _ Hj0 Et). simplify_eq. by rewrite Et in Ha.
Qed.
Lemma runner_head app env h : sound t → heads t' !! (app, env) = Some h → verified t' app env (hd_release h) (hd_job h).
Proof.
  intros Ht Hh. destruct (rr_heads _ _ Hrel _ _ Hh) as [Hold|(jid & j & r & Hj & Hr & [= -> ->] & Hn)].
  { eapply verified_mono; [done|exact runner_targets|]. by apply (so_heads _ Ht). }
  destruct Hn as [[Ho ->]|(Ho & E1 & E2)]; simpl.
  - destruct (runner_targets _ _ Hr) as (r' & Hr' & Ha & He).
    destruct (inv_head _ (ti_queue _ Hinv) _ _ Hh) as (q & Hq & Hp & Hop & Hqr). simpl in Hq, Hqr. rewrite lookup_fmap in Hq.
    destruct (jobs t' !! jid) as [j'|] eqn:Ej'; [|done]. injection Hq as <-. exists j', r'. split_and!; [|done..].
    apply verified_job_ok. split_and!; [done..|]. simpl in Hp. unfold abs_phase in Hp. by destruct (jr_status j').
  - destruct (so_jobs _ Ht _ _ Hj) as (r0 & Hr0 & _ & Hs & _). rewrite Hr0 in Hr. injection Hr as ->.
    unfold source_ok in Hs. rewrite E1, E2 in Hs. eapply verified_mono; [done|exact runner_targets|done].
Qed.

Lemma sound_runner : sound t → sound t'.
Proof.
  intros Ht. pose proof runner_targets as Hkt. constructor.
  - done.
  - intros id r' Hr'. destruct (Hsync _ _ Hr') as [Hold|(jid & j & s & Hj & Hn & <- & Hst & _)]; [by eapply so_releases|].
    destruct (fmap_lookup_eq _ _ _ _ _ (rr_releases _ _ Hrel) Hr') as (r & Hr & E).
    assert (r' = set_release_status (status_text s) r) as ->.
    { apply release_static_columns in E as (? & ? & ?). destruct r, r'. unfold set_release_status. simpl in *. by subst. }
    apply runner_status_ok; [by eapply so_releases|]. eapply so_live; [done|exact Hj| |done]. unfold active. by rewrite Hn.
  - intros id j' (j & Hj & Es & _)%runner_job. destruct (so_jobs _ Ht _ _ Hj) as (r & Hr & Hkey & Hsrc & Hop).
    apply static_columns in Es as (E1 & E2 & E3 & E4 & E5 & _). destruct (Hkt _ _ Hr) as (r' & Hr' & Hsame). exists r'.
    rewrite <- E1, <- E4, <- E5. destruct Hsame as [Ha He]. rewrite Ha, He. split_and!; [done..| |done].
    unfold source_ok. rewrite <- E2, <- E3, <- E5. by eapply (source_mono t t' j r r').
  - intros app env h. by apply runner_head.
  - intros id1 j1 id2 j2 (i1 & H1 & E1 & A1)%runner_job (i2 & H2 & E2 & A2)%runner_job B1 B2.
    apply static_columns in E1 as (_ & _ & _ & E1 & _). apply static_columns in E2 as (_ & _ & _ & E2 & _). rewrite <- E1, <- E2.
    eapply so_active; eauto.
  - intros id j' r' Hj' Ha Hr'. destruct (runner_job _ _ Hj') as (j & Hj & Es & A). specialize (A Ha).
    apply static_columns in Es as (E1 & _). rewrite <- E1 in Hr'.
    destruct (Hsync _ _ Hr') as [Hold|(jid & jj & s & Hjj & Hn & Hid & Hst & Hterm)]; [by eapply so_live|].
    rewrite Hst, live_text. destruct (terminal s) eqn:Es; [|done]. destruct (Hterm eq_refl) as (x & Hx & Htx).
    assert (jid = id) as ->. { eapply one_active_release; [done..| |done|done]. unfold active. by rewrite Hn. }
    simplify_eq. unfold active in Ha. by rewrite Htx in Ha.
Qed.
End runner.

Lemma kept_job_row id t k j : jobs (delete_job_rows id t) !! k = Some j ↔ jobs t !! k = Some j ∧ jr_release j ≠ id.
Proof. unfold delete_job_rows. simpl. by rewrite map_lookup_filter_Some. Qed.

(** ** What a request of the backend may change

    [change who]: one step of a request of user [who] on the tables, a rule of the
    workflow or one of the other writes, which queue no job.  Every change keeps
    the tables consistent. *)

Inductive write (who : string) (t : btables) : btables → Prop :=
  | ch_create id app env profile version notes q n t' :
      insert_release id (draft app env profile version notes who q n) t = Ok ((), t') → write who t t'
  | ch_edit id profile version notes t' : edit_release id profile version notes t = Ok (true, t') → write who t t'
  | ch_upload id r : the_release id t = Some r → editable (re_status r) = true → write who t (update_release (set_release_status "UPLOADED") id t)
  | ch_delete id t' : delete_release_row id t = Ok ((), t') → write who t t'
  | ch_other a p l : write who t (BTables (bt_queue t) a (applications t) (environments t) p (config t) l).
Inductive change (who : string) (t t' : btables) : Prop :=
  | ch_workflow rq n : hr_user rq = who → workflow rq n t t' → change who t t'
  | ch_write : write who t t' → change who t t'.
Lemma writes_change who t t' : rtc (write who) t t' → rtc (change who) t t'.
Proof. apply rtc_subrel. intros t1 t2. apply ch_write. Qed.
Lemma write_jobs who t t' id j : write who t t' → jobs (bt_queue t') !! id = Some j → jobs (bt_queue t) !! id = Some j.
Proof.
  intros [? ? ? ? ? ? ? ? t1 Hi|? ? ? ? t1 He|? ? ? ?|? t1 Hd|? ? ?]; try done.
  - unfold insert_release in Hi. by destruct (_ || _); simplify_eq.
  - unfold edit_release in He. by repeat case_match; simplify_eq.
  - unfold delete_release_row in Hd. destruct (release_referenced _ _); simplify_eq. by intros [? _]%kept_job_row.
Qed.

(** ** Settings *)
Lemma insert_job_config id j t t1 : insert_job id j t = Ok ((), t1) → config t1 = config t.
Proof. by intros (_ & _ & ->)%insert_job_ok. Qed.
Lemma change_config who t t' : change who t t' → config t' = config t.
Proof.
  destruct 1 as [rq n _ Hw|[id app env profile version notes q n t1 Hi|id profile version notes t1 He| |id t1 Hd|]]; try done.
  - destruct Hw as [? ? _ []| | | | | | | | |]; try done; simplify_eq; simpl; by match goal with H : insert_job _ _ _ = _ |- _ => apply insert_job_config in H end.
  - unfold insert_release in Hi. destruct (_ || _); by simplify_eq.
  - unfold edit_release in He. repeat case_match; by simplify_eq.
  - unfold delete_release_row in Hd. destruct (release_referenced _ _); by simplify_eq.
Qed.
Lemma changes_four_eyes who t t' : four_eyes t → rtc (change who) t t' → four_eyes t'.
Proof. intros Ht. induction 1 as [|t t1 t' H1 _ IH]; [done|]. apply IH. intros c. rewrite (change_config _ _ _ H1). apply Ht. Qed.

(** ** A new release *)
Lemma draft_ok app env profile version notes user q n : release_ok (draft app env profile version notes user q n).
Proof. constructor; unfold is_rollback; simpl; try done; try listed; by intros []. Qed.
Lemma sound_create id r t :
  sound t → releases t !! id = None → release_ok r → sound (set_releases (insert id r) t).
Proof.
  intros Ht Hid Hok.
  assert (keeps_targets t (set_releases (insert id r) t)) as Hk.
  { intros k x Hk. exists x. simpl. rewrite lookup_insert_ne by congruence. done. }
  assert (keeps_terminal t (set_releases (insert id r) t)) as Hkt by by intros k x.
  constructor.
  - apply tables_inv_releases, Ht.
  - intros k x. simpl. intros [[<- <-]|[_ Hx]]%lookup_insert_Some; [done|by eapply so_releases].
  - intros k j Hj. eapply job_ok_mono; [done..|]. by eapply so_jobs.
  - intros a e h Hh. eapply verified_mono; [done..|]. by apply (so_heads _ Ht).
  - apply Ht.
  - intros k j x Hj Ha. simpl. destruct (so_jobs _ Ht _ _ Hj) as (x0 & Hx0 & _).
    rewrite lookup_insert_ne by congruence. by apply (so_live _ Ht k).
Qed.

(** ** A changed or uploaded release *)
Lemma edit_ok profile version notes r : release_ok r → release_ok (edit profile version notes r).
Proof. intros Hr. row_ok Hr. Qed.
Lemma uploaded_ok r : release_ok r → editable (re_status r) = true → release_ok (set_release_status "UPLOADED" r).
Proof. intros Hr He. pose proof (editable_idle _ He) as [_ Ha]. row_ok Hr; auto. intros [_ ?]%Hretry. congruence. Qed.

(** ** A deleted release *)
Section delete.
Context (id : string) (t : btables) (Hfree : release_referenced id t = false).
Let q := bt_queue t.
Let q' := delete_job_rows id q.

Lemma existsb_none {A} (f : A → bool) l x : existsb f l = false → x ∈ l → f x = false.
Proof. intros Hf Hx. destruct (f x) eqn:E; [|done]. rewrite <- Hf. symmetry. apply existsb_exists. exists x. by rewrite <- list_elem_of_In. Qed.

Lemma kept_job k j : jobs q' !! k = Some j ↔ jobs q !! k = Some j ∧ jr_release j ≠ id.
Proof. apply kept_job_row. Qed.
Lemma kept_release k r : releases q' !! k = Some r ↔ k ≠ id ∧ releases q !! k = Some r.
Proof. unfold q', delete_job_rows. simpl. rewrite lookup_delete_Some. naive_solver. Qed.
Lemma kept_lock k l j : jobs q !! lo_job l = Some j → locks q' !! k = Some l ↔ locks q !! k = Some l ∧ jr_release j ≠ id.
Proof.
  intros Hj. unfold q', delete_job_rows. simpl. rewrite map_lookup_filter_Some. simpl. rewrite bool_decide_eq_true, map_lookup_filter_None.
  naive_solver.
Qed.

Lemma head_kept k h : heads q !! k = Some h → hd_release h ≠ id ∧ ∀ j, jobs q !! hd_job h = Some j → jr_release j ≠ id.
Proof.
  intros Hh. unfold release_referenced in Hfree. apply orb_false_iff in Hfree as [[H1 _]%orb_false_iff _].
  pose proof (existsb_none _ _ (k, h) H1 ltac:(by apply elem_of_map_to_list)) as Hx. simpl in Hx. bools. split; [done|].
  intros j Hj. unfold release_job in *. simpl in *. unfold q in Hj. rewrite Hj in *. by bools.
Qed.
Lemma source_kept k j :
  jobs q !! k = Some j → jr_release j ≠ id → jr_rb_release j ≠ Some id ∧ ∀ s x, jr_rb_job j = Some s → jobs q !! s = Some x → jr_release x ≠ id.
Proof.
  intros Hj Hne. unfold release_referenced in Hfree. apply orb_false_iff in Hfree as [_ H1].
  pose proof (existsb_none _ _ (k, j) H1 ltac:(by apply elem_of_map_to_list)) as Hx. simpl in Hx.
  rewrite (bool_decide_false _ Hne) in Hx. simpl in Hx. bools. split; [done|].
  intros s x Hs Hx'. unfold release_job in *. simpl in *. rewrite Hs in *. simpl in *. unfold q in Hx'. rewrite Hx' in *. by bools.
Qed.

Lemma verified_kept app env release job : release ≠ id → verified q app env release job → verified q' app env release job.
Proof.
  intros Hne (j & r & (Hj & Hr & Hrest)%verified_job_ok & Hrel & Ht). exists j, r. split; [|split; [by apply kept_release|done]].
  apply verified_job_ok. split; [|done]. apply kept_job. split; [done|congruence].
Qed.

Lemma deleted_inv : tables_inv q → tables_inv q'.
Proof.
  intros [Hq Hu]. constructor; [constructor|].
  - intros k i w Hl. change (q_locks (abs q')) with (abs_lock <$> locks q') in Hl. rewrite lookup_fmap in Hl. destruct (locks q' !! k) as [l|] eqn:El; [|done].
    injection Hl as <- <-. assert (locks q !! k = Some l) as Hl0.
    { unfold q', delete_job_rows in El. simpl in El. by apply map_lookup_filter_Some in El as [? _]. }
    destruct (inv_lock _ Hq k (lo_job l) (lo_worker l)) as (x & Hx & Hkey & Hp); [by apply abs_locks_lookup|].
    simpl in Hx. rewrite lookup_fmap in Hx. destruct (jobs q !! lo_job l) as [j|] eqn:Ej; [|done]. injection Hx as <-.
    exists (abs_job j). split; [|done]. apply abs_jobs_lookup, kept_job. split; [done|]. by apply (kept_lock k l j).
  - intros i x w Hx Hp. change (q_jobs (abs q')) with (abs_job <$> jobs q') in Hx. rewrite lookup_fmap in Hx. destruct (jobs q' !! i) as [j|] eqn:Ej; [|done]. injection Hx as <-.
    apply kept_job in Ej as [Ej Hne]. destruct (inv_running _ Hq i (abs_job j) w) as (w' & -> & Hl); [by apply abs_jobs_lookup|done|].
    exists w'. split; [done|]. change (q_locks (abs q')) with (abs_lock <$> locks q'). simpl in Hl. rewrite lookup_fmap in Hl |- *. destruct (locks q !! jr_lock_key j) as [l|] eqn:El; [|done].
    injection Hl as <- <-. assert (locks q' !! jr_lock_key j = Some l) as E by by apply (kept_lock _ _ j). simpl q_key. by rewrite E.
  - intros k h Hh. simpl in Hh. change (heads q') with (heads q) in Hh. destruct (inv_head _ Hq k h Hh) as (x & Hx & Hrest).
    simpl in Hx. rewrite lookup_fmap in Hx. destruct (jobs q !! hd_job h) as [j|] eqn:Ej; [|done]. injection Hx as <-.
    exists (abs_job j). split; [|done]. apply abs_jobs_lookup, kept_job. split; [done|]. by apply (proj2 (head_kept _ _ Hh)).
  - intros i j [Hj _]%kept_job. by apply (Hu i).
Qed.

Lemma sound_delete : sound q → sound q'.
Proof.
  intros Ht. constructor.
  - apply deleted_inv, Ht.
  - intros k r [_ Hr]%kept_release. by eapply so_releases.
  - intros k j [Hj Hne]%kept_job. destruct (so_jobs _ Ht _ _ Hj) as (r & Hr & Hkey & Hs & Hop). exists r.
    split; [by apply kept_release|]. split_and!; [done| |done]. unfold source_ok in *.
    destruct (source_kept _ _ Hj Hne) as [Hs1 Hs2]. repeat case_match; try done. apply verified_kept; [congruence|done].
  - intros app env h Hh. change (heads q') with (heads q) in Hh. apply verified_kept; [by apply (head_kept _ _ Hh)|]. by apply (so_heads _ Ht).
  - intros id1 j1 id2 j2 [H1 _]%kept_job [H2 _]%kept_job. by eapply so_active.
  - intros k j r [Hj _]%kept_job Ha [_ Hr]%kept_release. by eapply so_live.
Qed.
End delete.

Lemma sound_change who t t' : four_eyes t → sound (bt_queue t) → change who t t' → sound (bt_queue t').
Proof.
  intros Hs Ht. destruct 1 as [rq n _ Hw|[id app env profile version notes q n t1 Hi|id profile version notes t1 He|id r Hr He|id t1 Hd|]]; try done.
  - by eapply sound_workflow.
  - unfold insert_release in Hi. destruct (_ || _) eqn:Hb; [done|]. injection Hi as <-. bools.
    apply sound_create; [done| |apply draft_ok]. by apply eq_None_not_Some.
  - unfold edit_release in He. destruct (the_release id t) as [r|] eqn:Hr; [|done]. destruct (profiles _ !! _) as [p|]; [|done].
    destruct (_ && _) eqn:Hb; [|done]. destruct (version_taken _ _ _ _ _); [done|]. injection He as <-. bools.
    pose proof (so_releases _ Ht _ _ Hr) as Hok. eapply sound_release; [done|exact Hr|done|by apply edit_ok|left].
    by apply editable_idle.
  - pose proof (so_releases _ Ht _ _ Hr) as Hok. eapply sound_release; [done|exact Hr|done|by apply uploaded_ok|left].
    by apply editable_idle.
  - unfold delete_release_row in Hd. destruct (release_referenced id t) eqn:Hf; [done|]. injection Hd as <-. by apply sound_delete.
Qed.
Lemma sound_changes who t t' : four_eyes t → sound (bt_queue t) → rtc (change who) t t' → sound (bt_queue t').
Proof.
  intros Hs Ht H. induction H as [|t t1 t' H1 _ IH]; [done|]. apply IH; [|by eapply sound_change].
  eapply changes_four_eyes; [done|]. by apply rtc_once.
Qed.
