(* ===== verification/Requests.v ===== *)
(** * The requests of the backend (theorems about the handlers)

    Every request changes the tables only by the steps of Consistency.v, however it
    ends: with statements and commits that fail, and commits that are applied
    although they report an error. *)
From S2P Require Import Prelude GoIO GoString OS Files Model Db Store Queue StoreProofs QueueSafety Backend Releases Workflow StoreFrame ReleaseProofs Artifacts Semver Quick Consistency.
From stdpp Require Import relations.

(** ** Handlers on the database and the files *)
Section server.
Context (R : btables → btables → Prop) `{!PreOrder R}.

Definition stored (w : server) : btables := tabs (sv_db w).
Definition serves {A} (m : M server A) : Prop := ∀ w, R (stored w) (stored (m w).2).

Lemma serves_same {A} (m : M server A) : (∀ w, sv_db (m w).2 = sv_db w) → serves m.
Proof. intros Hm w. unfold stored. by rewrite Hm. Qed.
Lemma serves_ret {A} (a : A) : serves (mret a).
Proof. by apply serves_same. Qed.
Lemma serves_throw {A} e : serves (@throw server A e).
Proof. by apply serves_same. Qed.
Lemma serves_lift {A} (r : result A) : serves (lift r).
Proof. by apply serves_same. Qed.
Lemma serves_gets {A} (f : server → A) : serves (gets f).
Proof. by apply serves_same. Qed.
Lemma serves_bind {A B} (m : M server A) (k : A → M server B) : serves m → (∀ a, serves (k a)) → serves (m ≫= k).
Proof.
  intros Hm Hk w. unfold mbind, M_bind. specialize (Hm w). destruct (m w) as [[a|e] w1]; [|done]. etrans; [exact Hm|apply Hk].
Qed.
Lemma serves_wrap {A} g (m : M server A) : serves m → serves (wrapM g m).
Proof. intros Hm w. unfold wrapM. specialize (Hm w). by destruct (m w). Qed.
Lemma serves_try {A} (m : M server A) : serves m → serves (try m).
Proof. intros Hm w. unfold try. specialize (Hm w). by destruct (m w). Qed.
Lemma serves_iter {A} (f : A → M server unit) l : (∀ x, serves (f x)) → serves (iterM f l).
Proof. intros Hf. induction l as [|x l IH]; simpl; [apply serves_ret|]. by apply serves_bind. Qed.
Lemma serves_db {A} (m : M bdb A) : each R m → serves (on_db m).
Proof. intros Hm w. unfold on_db, stored. specialize (Hm (sv_db w)). by destruct (m (sv_db w)). Qed.
Lemma serves_files {A} (m : M os A) : serves (on_files m).
Proof. apply serves_same. intros w. unfold on_files. by destruct (m (sv_os w)). Qed.
Lemma serves_all l : serves (attempt_all l).
Proof. apply serves_iter. intros m. apply serves_bind; [apply serves_try, serves_files|intros; apply serves_ret]. Qed.
Lemma serves_when c s : serves (fail_when c s).
Proof. apply serves_lift. Qed.
Lemma serves_transact {A} cl e (body : M server A) :
  (∀ w a w', body w = (Ok a, w') → R (stored w) (stored w')) → serves (transact cl e body).
Proof.
  intros Hb w. unfold transact. destruct (db_faults _ _); [done|].
  destruct (body _) as [[a|e'] w'] eqn:E; [|done]. apply Hb in E. unfold stored in *. simpl in *.
  destruct (db_aborted _); [done|]. destruct (db_faults _ (db_tick (sv_db w'))); simpl; [|done]. by destruct (cl _).
Qed.
Lemma serves_ok {A} (m : M server A) w a w' : serves m → m w = (Ok a, w') → R (stored w) (stored w').
Proof. intros Hm E. specialize (Hm w). by rewrite E in Hm. Qed.
End server.

(** A transaction whose effect is known. *)
Lemma each_effect (R : btables → btables → Prop) `{!PreOrder R} {A} b c (body : M bdb A) :
  (∀ t n, runs t n body (λ _ t', R t t')) → each R (transaction_with b c body).
Proof.
  intros Hb w. destruct (transaction_with b c body w) as [r w'] eqn:E. simpl.
  destruct (transaction_cases _ _ _ _ _ _ E) as [[-> _]|(a & w1 & _ & E1 & -> & _)]; [done|].
  destruct (Hb (tabs w) (now w) (ticked_db (tabs w) false w) _ _ eq_refl eq_refl E1). done.
Qed.

Ltac serves_step :=
  lazymatch goal with
  | |- serves ?R (_ ≫= _) => apply (serves_bind R); [|intros ?]
  | |- serves ?R (wrapM _ _) => apply (serves_wrap R)
  | |- serves ?R (or_fail _ _) => apply (serves_wrap R)
  | |- serves ?R (try _) => apply (serves_try R)
  | |- serves ?R (on_db _) => apply (serves_db R)
  | |- serves ?R (on_files _) => apply (serves_files R)
  | |- serves ?R (attempt_all _) => apply (serves_all R)
  | |- serves ?R (cleanup _) => apply (serves_all R)
  | |- serves ?R (fail_when _ _) => apply (serves_when R)
  | |- serves ?R (lift _) => apply (serves_lift R)
  | |- serves ?R (gets _) => apply (serves_gets R)
  | |- serves ?R (throw _) => apply (serves_throw R)
  | |- serves ?R (mret _) => apply (serves_ret R)
  | |- serves _ (match ?x with _ => _ end) => destruct x
  | |- serves _ (match ?x with _ => _ end _) => destruct x
  end.
Ltac serves_steps := repeat (cbv beta zeta; serves_step).

Abbreviation changes who := (rtc (change who)).
Abbreviation writes who := (rtc (write who)).
Create HintDb change_db.

Lemma other_audits who t f : writes who t (set_audits f t).
Proof. apply rtc_once, ch_other. Qed.
Lemma other_artifacts who t f : writes who t (set_artifacts f t).
Proof. apply rtc_once, ch_other. Qed.
Lemma other_presets who t f : writes who t (set_presets f t).
Proof. apply rtc_once, ch_other. Qed.
#[export] Hint Resolve other_audits other_artifacts other_presets : change_db.

(** Audits, and nothing else: the queue, the settings and the targets stay. *)
Record audits_only (t t' : btables) : Prop := {
  ao_queue : bt_queue t' = bt_queue t; ao_config : config t' = config t; ao_environments : environments t' = environments t
}.
#[export] Instance audits_only_preorder : PreOrder audits_only.
Proof. split; [by split|]. intros t1 t2 t3 [] []. split; congruence. Qed.

Section audits.
Context (R : btables → btables → Prop) `{!PreOrder R} (Ha : ∀ t f, R t (set_audits f t)).
Lemma each_audited user action type id outcome : each R (Audit user action type id outcome).
Proof. unfold Audit. each_steps. apply Ha. Qed.
Lemma each_shown id st : each R (getReleaseByID id st).
Proof. unfold getReleaseByID, or_error. each_steps. Qed.
Lemma each_responded rq c : each R (respond rq c).
Proof. unfold respond. each_steps; [apply each_audited|apply (each_shown _)]. Qed.
End audits.
Lemma each_audit who user action type id outcome : each (writes who) (Audit user action type id outcome).
Proof. apply (each_audited _). intros. apply other_audits. Qed.
Lemma serves_mono (R R' : btables → btables → Prop) {A} (m : M server A) : (∀ t t', R t t' → R' t t') → serves R m → serves R' m.
Proof. intros Hr Hm w. apply Hr, Hm. Qed.

(** ** Release handlers *)
Section handlers.
Context (commit_lost visible_timeout : nat → bool) (pg_code : goerr → option string) `{ErrorText} (parse_time : string → result Z).

Lemma each_insert_release rq input : each (writes (hr_user rq)) (insertRelease rq input).
Proof.
  unfold insertRelease. each_steps; [|apply each_audit].
  match goal with E : (if ?b then _ else _) = _ |- _ => destruct b end; [|by simplify_eq].
  match goal with E : _ = Ok _ |- _ => apply bind_ok in E as ([[] t1] & Hi & [= <- <-]) end.
  eapply rtc_once, ch_create. exact Hi.
Qed.
Lemma each_create rq input : each (writes (hr_user rq)) (createRelease rq input).
Proof. unfold createRelease. each_steps; [apply each_insert_release|apply (each_shown _)]. Qed.
Lemma each_update rq version notes profile : each (writes (hr_user rq)) (updateRelease rq version notes profile).
Proof.
  unfold updateRelease, or_error, reject_if. each_steps; try apply each_audit; try apply (each_shown _).
  match goal with E : edit_release _ _ _ _ _ = Ok (?b, _) |- _ => destruct b end; [by eapply rtc_once, ch_edit|]. unfold edit_release in *. repeat case_match; by simplify_eq.
Qed.
Lemma each_metadata rq input : each (writes (hr_user rq)) (createArtifactMetadata rq input).
Proof.
  unfold createArtifactMetadata, or_error, reject_if. each_steps; try apply each_audit.
  unfold insert_artifact in *. case_match; simplify_eq. auto with change_db.
Qed.

(** *** Requests with one step of the workflow

    [acts P m]: [m] makes one step [P] or none, and then writes audits. *)
Definition acted (who : string) (P : Z → btables → btables → Prop) (t t' : btables) : Prop :=
  ∃ t1, (t1 = t ∨ ∃ n, P n t t1) ∧ writes who t1 t' ∧ audits_only t1 t'.
Definition acts (who : string) (P : Z → btables → btables → Prop) {A} (m : M bdb A) : Prop := ∀ w, acted who P (tabs w) (tabs (m w).2).

Lemma acts_transaction rq P be body : (∀ t n, runs t n body (λ _ t', P n t t')) → acts (hr_user rq) P (in_transaction rq be body).
Proof.
  intros Hb w. unfold in_transaction, mbind, M_bind. destruct (transaction_with _ _ _ w) as [r w'] eqn:E.
  assert (tabs w' = tabs w ∨ ∃ n, P n (tabs w) (tabs w')) as Hw.
  { destruct (transaction_cases _ _ _ _ _ _ E) as [[-> _]|(a & w1 & _ & E1 & -> & _)]; [by left|right].
    destruct (Hb (tabs w) (now w) (ticked_db (tabs w) false w) _ _ eq_refl eq_refl E1) as [Hw _]. by eexists. }
  exists (tabs w'). split; [done|]. destruct r as [c|e]; [|done]. split.
  - apply (each_responded (writes (hr_user rq))). intros. apply other_audits.
  - by apply (each_responded audits_only).
Qed.
Lemma acts_lift_bind who P {A B} (r : result A) (k : A → M bdb B) : (∀ a, acts who P (k a)) → acts who P (lift r ≫= k).
Proof. intros Hk w. destruct r as [a|e]; [apply Hk|]. exists (tabs w). split; [by left|done]. Qed.
Lemma acts_decision rq status column allowed action comment :
  (∀ t n, runs t n (decision_transaction pg_code rq status column allowed action comment) (λ _ t', workflow rq n t t')) →
  acts (hr_user rq) (workflow rq) (decision pg_code rq status column allowed action comment).
Proof. intros Hd. unfold decision, reject_if. apply acts_lift_bind. intros []. by apply acts_transaction. Qed.
Lemma review_acts rq comment : acts (hr_user rq) (workflow rq) (reviewRelease pg_code rq comment).
Proof. apply acts_decision. intros t n. apply review_spec. Qed.
Lemma approve_acts rq comment : acts (hr_user rq) (workflow rq) (approveRelease pg_code rq comment).
Proof. apply acts_decision. intros t n. apply approve_spec. Qed.
Lemma reject_acts rq comment : acts (hr_user rq) (workflow rq) (rejectRelease pg_code rq comment).
Proof. apply acts_decision. intros t n. apply reject_spec. Qed.
Lemma rollback_acts rq : acts (hr_user rq) (workflow rq) (rollbackRelease rq).
Proof. apply acts_transaction. intros t n. apply rollback_spec. Qed.

(** The read before the transaction of [enqueueRelease] is answered.  When it is
    not, a rollback request can be [overlooked]: submitted as a deployment. *)
Definition answered (w : bdb) : Prop := db_faults w (S (db_tick w)) = None.
Definition overlooked (rq : request) (n : Z) (t t' : btables) : Prop :=
  ∃ r, the_release (hr_id rq) t = Some r ∧ is_rollback r = true ∧ submission rq n t r t'.
Definition submits (rq : request) (lost : Prop) (n : Z) (t t' : btables) : Prop := workflow rq n t t' ∨ lost ∧ overlooked rq n t t'.

Lemma acted_mono who (P Q : Z → btables → btables → Prop) t t' : (∀ n t1, P n t t1 → Q n t t1) → acted who P t t' → acted who Q t t'.
Proof. intros Hpq (t1 & [->|(n & Hp)] & H1). - exists t. split; [by left|done]. - exists t1. split; [right; exists n; auto|done]. Qed.
Lemma enqueue_acts rq w : acted (hr_user rq) (submits rq (¬ answered w)) (tabs w) (tabs (enqueueRelease rq w).2).
Proof.
  set (tx := in_transaction rq (writeError 500 "database_error" "could not submit release") (enqueue_transaction rq)).
  assert (acts (hr_user rq) (λ n t t', ∃ r, the_release (hr_id rq) t = Some r ∧ submission rq n t r t') tx) as Htx.
  { apply acts_transaction. intros t n. by apply enqueue_spec. }
  unfold enqueueRelease. unfold mbind at 1, M_bind at 1, try at 1, pool at 1, query, statement. cbn. unfold answered. fold tx.
  destruct (db_faults w (S (db_tick w))) as [text|] eqn:Ha; cbn.
  - set (w1 := ticked_db _ _ _). eapply acted_mono; [|apply (Htx w1)]. intros n t1 (r & Hr & Hs).
    destruct (is_rollback r) eqn:Hb; [right; split; [done|by exists r]|left; by eapply w_submission].
  - destruct (the_release (hr_id rq) (tabs w)) as [r|] eqn:Hr; simpl.
    + case_bool_decide as Hop; set (w1 := ticked_db _ _ _).
      * eapply acted_mono; [|apply (rollback_acts rq w1)]. by left.
      * eapply acted_mono; [|apply (Htx w1)]. intros n t1 (r' & Hr' & Hs). change (tabs w1) with (tabs w) in *. simplify_eq.
        left. eapply w_submission; [|exact Hs]. unfold is_rollback. by apply bool_decide_eq_false.
    + set (w1 := ticked_db _ _ _). eapply acted_mono; [|apply (Htx w1)]. intros n t1 (r' & Hr' & Hs). change (tabs w1) with (tabs w) in *. congruence.
Qed.

(** ** Uploads and deletions *)
Lemma update_uploaded who id t : writes who t (update_in_status ["DRAFT"; "UPLOADED"; "REJECTED"] (set_release_status "UPLOADED") id t).2.
Proof.
  unfold update_in_status. destruct (the_release id t) as [r|] eqn:Hr; [|done]. case_bool_decide as Hs; [|done].
  simpl. eapply rtc_once, ch_upload; [done|]. by apply bool_decide_eq_true.
Qed.
Lemma insert_artifact_change who id a t u t' : insert_artifact id a t = Ok (u, t') → writes who t t'.
Proof. unfold insert_artifact. destruct (_ || _); [done|]. intros [= _ <-]. apply other_artifacts. Qed.
Lemma serves_persist who user id token release u quick : serves (writes who) (persistArtifactTx user id token release u quick).
Proof.
  unfold persistArtifactTx, accepts_content, storage_directory, store_content, record_content. serves_steps; each_steps.
  - unfold delete_placeholders. apply other_artifacts.
  - by eapply insert_artifact_change.
  - apply update_uploaded.
Qed.
Lemma serves_visible who n id : serves (writes who) (artifactCommitVisible visible_timeout n id).
Proof. induction n as [|n IH]; simpl; serves_steps; each_steps; auto. Qed.
Lemma serves_persisted rq token id u : serves (writes (hr_user rq)) (persistArtifact commit_lost visible_timeout pg_code rq token id u).
Proof.
  unfold persistArtifact, reconcile. serves_steps; try (apply serves_visible || apply each_audit).
  apply serves_transact; [apply _|]. intros w x w' E. eapply serves_ok; [|exact E]. apply serves_persist.
Qed.
Lemma serves_upload rq token form : serves (writes (hr_user rq)) (uploadArtifact commit_lost visible_timeout pg_code rq token form).
Proof. unfold uploadArtifact, or_error. serves_steps; each_steps. apply serves_persisted. Qed.
Lemma delete_change who id t u t' : delete_release_row id t = Ok (u, t') → writes who t t'.
Proof. intros Hd. destruct u. eapply rtc_once, ch_delete. exact Hd. Qed.
Lemma serves_multipart rq token parsed input form :
  serves (writes (hr_user rq)) (createMultipartRelease commit_lost visible_timeout pg_code rq token parsed input form).
Proof.
  unfold createMultipartRelease, or_error. serves_steps; each_steps; try (apply serves_persisted || apply each_insert_release || apply (each_shown _)).
  match goal with E : _ = Ok _ |- _ => destruct (the_release _ _); [by eapply delete_change|by simplify_eq] end.
Qed.
Lemma serves_delete rq : serves (writes (hr_user rq)) (deleteRelease rq).
Proof.
  unfold deleteRelease, delete_transaction, or_error, reject_if. serves_steps; each_steps; [by eapply delete_change|apply each_audit].
Qed.

(** ** Presets *)
Lemma put_preset_change who id p t t' : put_preset id p t = Ok t' → writes who t t'.
Proof. unfold put_preset. destruct (_ || _); [done|]. intros [= <-]. apply other_presets. Qed.
Lemma each_preset_shown who id : each (writes who) (getDeploymentPresetByID id).
Proof. unfold getDeploymentPresetByID, or_error. each_steps. Qed.
Lemma each_create_preset rq input : each (writes (hr_user rq)) (createDeploymentPreset rq input).
Proof.
  unfold createDeploymentPreset, or_error. each_steps; try (apply each_audit || apply each_preset_shown).
  match goal with E : _ = Ok _ |- _ => destruct (bool_decide _); [done|]; apply bind_ok in E as (t1 & Hp & [= _ <-]) end.
  by eapply put_preset_change.
Qed.
Lemma each_update_preset rq input : each (writes (hr_user rq)) (updateDeploymentPreset rq input).
Proof.
  unfold updateDeploymentPreset, or_error, reject_if. each_steps; try (apply each_audit || apply each_preset_shown).
  match goal with E : _ = Ok _ |- _ => destruct (presets _ !! _) as [p|]; [|by simplify_eq]; destruct (ps_revoked p); [by simplify_eq|];
    apply bind_ok in E as (t1 & Hp & [= _ <-]) end.
  by eapply put_preset_change.
Qed.
Lemma each_delete_preset rq : each (writes (hr_user rq)) (deleteDeploymentPreset rq).
Proof.
  unfold deleteDeploymentPreset, or_error, reject_if. each_steps; try apply each_audit.
  destruct (presets _ !! _) as [p|]; [|done]. destruct (ps_revoked p); [done|]. apply other_presets.
Qed.

(** ** Quick releases *)

(** What a quick release leaves as it was, and the job it may queue: one of a
    target that asks for no approval, with the deployed version as its source. *)
Definition heads_sound (t : btables) : Prop := ∀ app env, ¬ dangling_head app env t.
Definition quick_job (t t' : btables) (j : job_row) : Prop :=
  jr_operation j = OperationDeploy ∧
  ∃ r, the_release (jr_release j) t' = Some r ∧ ¬ needs_approval t (jr_profile j) r ∧
    (heads_sound t → (jr_rb_release j, jr_rb_job j) = head_pair (re_application r) (re_environment r) t).
Definition same_binding (r r' : release_row) : Prop := same_target r r' ∧ ri_profile (re_info r') = ri_profile (re_info r).
Record quick_step (t t' : btables) : Prop := {
  qk_config : config t' = config t;
  qk_profiles : profiles (bt_queue t') = profiles (bt_queue t);
  qk_environments : environments t' = environments t;
  qk_heads : heads (bt_queue t') = heads (bt_queue t);
  qk_release id r : the_release id t = Some r → ∃ r', the_release id t' = Some r' ∧ same_binding r r';
  qk_jobs id : is_Some (jobs (bt_queue t) !! id) → is_Some (jobs (bt_queue t') !! id);
  qk_new id j : jobs (bt_queue t') !! id = Some j → jobs (bt_queue t) !! id = Some j ∨ quick_job t t' j
}.
Lemma quick_needs_approval t t' profile r r' : quick_step t t' → same_binding r r' → needs_approval t' profile r' ↔ needs_approval t profile r.
Proof. intros [A B C _ _ _ _] [[_ He] _]. unfold needs_approval. by rewrite A, B, C, He. Qed.
Lemma quick_heads_sound t t' : quick_step t t' → heads_sound t → heads_sound t'.
Proof.
  intros [_ _ _ D F G _] Hs app env (h & Hh & Hn). rewrite D in Hh. apply (Hs app env). exists h. split; [done|].
  destruct Hn as [Hn|Hn]; [left|right]; apply eq_None_not_Some; intros [x Hx].
  - destruct (F _ _ Hx) as (r' & Hr' & _). congruence.
  - destruct (G (hd_job h)) as [y Hy]; [by eexists|congruence].
Qed.
Lemma quick_job_later t t1 t' j : quick_step t1 t' → quick_job t t1 j → quick_job t t' j.
Proof.
  intros H1 (Ho & r & Hr & Hn & Hs). split; [done|]. destruct (qk_release _ _ H1 _ _ Hr) as (r' & Hr' & [[Ea Ee] Ep]). exists r'. split; [done|].
  rewrite Ea, Ee. split; [|done]. intros (c & p & e & Hc & Hp & He & Hreq). apply Hn. exists c, p, e. by rewrite <- Ee.
Qed.
Lemma quick_job_earlier t t1 t' j : quick_step t t1 → quick_job t1 t' j → quick_job t t' j.
Proof.
  intros H1 (Ho & r & Hr & Hn & Hs). split; [done|]. exists r. split; [done|]. split.
  - intros Hneed. apply Hn. by eapply (quick_needs_approval t t1 _ r r H1).
  - intros Hsound. rewrite (Hs (quick_heads_sound _ _ H1 Hsound)). unfold head_pair. by rewrite (qk_heads _ _ H1).
Qed.
#[export] Instance quick_step_preorder : PreOrder quick_step.
Proof.
  split.
  - intros t. split; try done; [|auto]. intros id r Hr. by exists r.
  - intros t1 t2 t3 H12 H23. pose proof H12 as [A1 B1 C1 D1 F1 G1 N1]. pose proof H23 as [A2 B2 C2 D2 F2 G2 N2].
    split; [congruence..| |auto|].
    + intros id r Hr. destruct (F1 _ _ Hr) as (r1 & Hr1 & [[] ?]). destruct (F2 _ _ Hr1) as (r2 & Hr2 & [[] ?]). exists r2.
      split; [done|]. split; [split|]; congruence.
    + intros id j Hj. destruct (N2 _ _ Hj) as [Hj1|Hq]; [|right; by eapply quick_job_earlier]. destruct (N1 _ _ Hj1) as [?|Hq]; [by left|].
      right. by eapply quick_job_later.
Qed.
(** The steps of a quick release. *)
Lemma quick_tables t a p l : quick_step t (BTables (bt_queue t) a (applications t) (environments t) p (config t) l).
Proof. split; try done; [|by left]. intros id r Hr. by exists r. Qed.
Lemma quick_update t f id : (∀ r, same_binding r (f r)) → quick_step t (update_release f id t).
Proof.
  intros Hf. split; simpl; [done..| |done|by left]. intros id' r Hr. unfold the_release, update_release in *. simpl in *.
  destruct (decide (id = id')) as [<-|Hne]; [|rewrite lookup_alter_ne by done; by exists r].
  rewrite lookup_alter_eq, Hr. simpl. by exists (f r).
Qed.
Lemma quick_in_status allowed f id t : (∀ r, same_binding r (f r)) → quick_step t (update_in_status allowed f id t).2.
Proof. intros Hf. unfold update_in_status. destruct (the_release id t); [|done]. case_bool_decide; [|done]. by apply quick_update. Qed.
Lemma quick_insert_release id r t t1 : insert_release id r t = Ok ((), t1) → quick_step t t1.
Proof.
  unfold insert_release. destruct (_ || _) eqn:Hb; [done|]. intros [= <-]. bools.
  split; simpl; [done..| |done|by left]. intros id' r' Hr'. exists r'. split; [|done]. unfold the_release, set_queue, set_releases in *. simpl.
  rewrite lookup_insert_ne; [done|]. intros <-.
  match goal with Hn : ¬ is_Some _ |- _ => apply Hn; by eexists end.
Qed.
Lemma quick_insert_job n id user r t jid j t1 :
  the_release id t = Some r → ¬ needs_approval t (ri_profile (re_info r)) r → deploy_job t n id user None r j →
  insert_job jid j t = Ok ((), t1) → quick_step t t1.
Proof.
  intros Hr Hn Hj Hi. pose proof Hi as (Hid & _ & ->)%insert_job_ok. assert (jr_release j = id) as Hrel by by destruct Hj.
  split; simpl; [done..| | |].
  - intros id' r' Hr'. unfold the_release in *. simpl. destruct (decide (jr_release j = id')) as [<-|Hne]; [|rewrite lookup_alter_ne by done; by exists r'].
    rewrite lookup_alter_eq, Hr'. simpl. by eexists.
  - intros k Hk. apply lookup_insert_is_Some'. by right.
  - intros k x. intros [[_ <-]|[_ ?]]%lookup_insert_Some; [right|by left]. split; [by destruct Hj|].
    exists (set_release_status (status_text (jr_status j)) r). split.
    { rewrite Hrel. unfold the_release in *. simpl. by rewrite lookup_alter_eq, Hr. }
    destruct Hj as [p a e artifact lockKey source credential _ _ _ _ _ _ _ _ Hs]. split; [exact Hn|]. intros Hsound. simpl.
    destruct Hs as [Hs|[_ Hd]]; [|by destruct (Hsound _ _ Hd)]. by destruct source.
Qed.
Lemma persist_quick user id token release u quick : serves quick_step (persistArtifactTx user id token release u quick).
Proof.
  unfold persistArtifactTx, accepts_content, storage_directory, store_content, record_content. serves_steps; each_steps.
  - unfold delete_placeholders. apply quick_tables.
  - unfold insert_artifact in *. destruct (_ || _) in *; [done|]. simplify_eq. apply quick_tables.
  - by apply quick_in_status.
Qed.
Lemma visible_quick n id : serves quick_step (artifactCommitVisible visible_timeout n id).
Proof. induction n as [|n IH]; simpl; serves_steps; each_steps; auto. Qed.

(** The steps of a quick release, as the workflow and as [quick_step] see them. *)
Definition quick_change (who : string) (t t' : btables) : Prop := changes who t t' ∧ quick_step t t'.
#[export] Instance quick_change_preorder who : PreOrder (quick_change who).
Proof. split; [by split|]. intros t1 t2 t3 [] []. split; by etrans. Qed.
Lemma quick_prepare_spec rq parsed snapshot notes t n :
  runs t n (quick_prepare rq parsed snapshot notes) (λ out t', quick_change (hr_user rq) t t' ∧ ∃ r, the_release (hr_newid rq 0) t' = Some r
    ∧ (rp_required out.1.1 = false → ¬ needs_approval t' (ri_profile (re_info r)) r)).
Proof.
  unfold quick_prepare, activeTargetJobExists. destruct snapshot as [[presetID updated] version]. run. rename a into x.
  destruct a3 as [[baseRelease baseJob] current].
  eapply (runs_bind _ _ _ _ (λ _ t', t' = t)); [by destruct (validateQuickUpgrade _ _) as [[code e]|]; run|]. intros _ t' ->. run.
  eapply runs_bind; [eapply runs_checked; intros u t1 Hins; exact Hins|]. intros [] t1 Hins. cbv beta in Hins. run.
  split; [split; [by eapply rtc_once, ch_write, ch_create|by eapply quick_insert_release]|].
  unfold insert_release in Hins. destruct (_ || _); [done|]. injection Hins as <-.
  eexists. split; [unfold the_release, set_queue, set_releases; simpl; apply lookup_insert_eq|]. simpl.
  intros Hreq (c & p & e & Hc & Hp & He & Happ). simpl in *.
  unfold quick_target, resolve_row in Hok. row Hok. destruct (_ && _) in Hok; [|done]. row Hok. destruct (_ && _) in Hok; [|done].
  injection Hok as <-. simpl in *. congruence.
Qed.

Lemma quick_submit_spec rq id lockKey x base r t n :
  the_release id t = Some r → (rp_required x = false → ¬ needs_approval t (ri_profile (re_info r)) r) →
  runs t n (quick_submit rq id lockKey x base) (λ _ t', quick_change (hr_user rq) t t').
Proof.
  intros Hr Hn. unfold quick_submit. run. eapply runs_bind; [apply deploymentDependenciesReady_spec|]. intros ready t' [-> _]. run.
  destruct (rp_required x).
  - run. eapply runs_bind; [apply lock_spec|]. intros busy t' [-> _]. run.
    eapply runs_bind; [apply quick_head_spec|]. intros _ t' [-> _]. run. split; [|by apply quick_in_status].
    unfold update_in_status. rewrite Hr. case_bool_decide as Hs; [|done]. simpl.
    apply rtc_once. eapply (ch_workflow _ _ _ (as_release rq id 2) n eq_refl), w_quick_review; [exact Hr|]. set_solver.
  - run. eapply runs_bind; [by apply (queue_quick_spec (as_release rq id 2) id r)|]. intros _ t' (Hs & j & Hj & Hins). run.
    specialize (Hn eq_refl). split; [|by eapply quick_insert_job].
    apply rtc_once. eapply (ch_workflow _ _ _ (as_release rq id 2) n eq_refl), w_quick_deploy; [exact Hr|done|done|exact Hj|exact Hins].
Qed.

(** What a statement inside a larger transaction does. *)
Lemma on_db_runs {A} (m : M bdb A) Q w a w' :
  (∀ n, runs (stored w) n m Q) → on_db m w = (Ok a, w') → Q a (stored w').
Proof.
  intros Hm E. unfold on_db in E. destruct (m (sv_db w)) as [r d] eqn:Em. injection E as -> <-.
  by destruct (Hm (now (sv_db w)) _ _ _ eq_refl eq_refl Em).
Qed.
Lemma quick_transaction_changes rq token parsed snapshot notes u w a w' :
  quick_transaction rq token parsed snapshot notes u w = (Ok a, w') → quick_change (hr_user rq) (stored w) (stored w').
Proof.
  unfold quick_transaction. intros E. apply bindM_ok in E as ([[x lockKey] base] & w1 & E1 & E).
  apply (on_db_runs _ _ _ _ _ (λ n, quick_prepare_spec rq parsed snapshot notes _ n)) in E1 as (H1 & r & Hr & Hn).
  apply bindM_ok in E as (artifact & w2 & E2%wrapM_ok & E).
  pose proof (serves_ok _ _ _ _ _ (persist_quick _ _ _ _ _ _) E2) as Hb.
  assert (quick_change (hr_user rq) (stored w1) (stored w2)) as H2.
  { split; [|done]. by apply writes_change, (serves_ok _ _ _ _ _ (serves_persist (hr_user rq) _ _ _ _ _ _) E2). }
  destruct (qk_release _ _ Hb _ _ Hr) as (r2 & Hr2 & Hsame).
  apply bindM_ok in E as (action & w3 & E3 & E). apply (proj1 (try_ok _ _ _ _)) in E3. etrans; [exact H1|]. etrans; [exact H2|].
  destruct action as [action|e].
  - injection E as _ <-. eapply (on_db_runs _ (λ _ t', quick_change (hr_user rq) (stored w2) t')); [|exact E3].
    intros n. apply (quick_submit_spec _ _ _ _ _ r2); [done|]. intros Hreq Hneed. simpl in Hn. apply (Hn Hreq).
    rewrite (proj2 Hsame) in Hneed. by apply (quick_needs_approval _ _ _ _ _ Hb Hsame).
  - apply bindM_ok in E as (? & ? & _ & [=]).
Qed.
Lemma each_quick_audit who user action type id outcome : each (quick_change who) (Audit user action type id outcome).
Proof. apply (each_audited _). intros t f. split; [apply writes_change, other_audits|apply quick_tables]. Qed.
Lemma serves_quick rq permitted form token :
  serves (quick_change (hr_user rq)) (quickRelease commit_lost visible_timeout pg_code parse_time rq permitted form token).
Proof.
  unfold quickRelease, or_error, reject_if. serves_steps; each_steps; try (apply each_quick_audit || apply (each_shown _)).
  - apply serves_transact; [apply _|]. intros w x w' E. by eapply quick_transaction_changes.
  - intros w'. split; [apply writes_change, serves_visible|apply visible_quick].
Qed.
End handlers.

(** ** Requests *)
Inductive api :=
  | Create (input : releaseInput)
  | CreateUpload (token : result string) (parsed : result unit) (input : releaseInput) (form : result upload)
  | Change (version notes profile : string)
  | Upload (token : result string) (form : result upload)
  | Describe (input : artifactMetadataInput)
  | Delete
  | Submit
  | Retry
  | Review (comment : string)
  | Approve (comment : string)
  | Reject (comment : string)
  | Rollback
  | Quick (permitted : bool) (form : form_error + quick_form) (token : result string)
  | CreatePreset (input : deploymentPresetInput)
  | ChangePreset (input : deploymentPresetInput)
  | RevokePreset.

Section requests.
Context (commit_lost visible_timeout : nat → bool) (pg_code : goerr → option string) `{ErrorText} (parse_time : string → result Z).

Definition served {A} (m : M server A) : M server unit := _ ← m; mret ().
Definition serve (rq : request) (c : api) : M server unit :=
  match c with
  | Create input => served (on_db (createRelease rq input))
  | CreateUpload token parsed input form => served (createMultipartRelease commit_lost visible_timeout pg_code rq token parsed input form)
  | Change version notes profile => served (on_db (updateRelease rq version notes profile))
  | Upload token form => served (uploadArtifact commit_lost visible_timeout pg_code rq token form)
  | Describe input => served (on_db (createArtifactMetadata rq input))
  | Delete => served (deleteRelease rq)
  | Submit => served (on_db (enqueueRelease rq))
  | Retry => served (on_db (retryRelease rq))
  | Review comment => served (on_db (reviewRelease pg_code rq comment))
  | Approve comment => served (on_db (approveRelease pg_code rq comment))
  | Reject comment => served (on_db (rejectRelease pg_code rq comment))
  | Rollback => served (on_db (rollbackRelease rq))
  | Quick permitted form token => served (quickRelease commit_lost visible_timeout pg_code parse_time rq permitted form token)
  | CreatePreset input => served (on_db (createDeploymentPreset rq input))
  | ChangePreset input => served (on_db (updateDeploymentPreset rq input))
  | RevokePreset => served (on_db (deleteDeploymentPreset rq))
  end.

(** A submission decides between a deployment and a rollback by a read that
    precedes its transaction, and takes an error for "no rollback". *)
Definition routed (c : api) (w : server) : Prop :=
  match c with Submit | Retry => answered (sv_db w) | _ => True end.
(** The requests whose transaction takes one step of the workflow. *)
Definition acting (c : api) : bool := match c with Submit | Retry | Review _ | Approve _ | Reject _ | Rollback => true | _ => false end.
Definition asked (rq : request) (c : api) : request := match c with Retry => as_retry rq | _ => rq end.
Definition step_of (rq : request) (c : api) (w : server) : Z → btables → btables → Prop := submits (asked rq c) (¬ routed c w).

Lemma served_stored {A} (m : M server A) w : stored (served m w).2 = stored (m w).2.
Proof. unfold served, mbind, M_bind. by destruct (m w) as [[?|?] ?]. Qed.
Lemma serves_served R `{!PreOrder R} {A} (m : M server A) : serves R m → serves R (served m).
Proof. intros Hm w. rewrite served_stored. apply Hm. Qed.
Lemma on_db_stored {A} (m : M bdb A) w : stored (on_db m w).2 = tabs (m (sv_db w)).2.
Proof. unfold on_db, stored. by destruct (m (sv_db w)). Qed.
Lemma acting_requests rq c w : acting c = true → acted (hr_user rq) (step_of rq c w) (stored w) (stored (serve rq c w).2).
Proof.
  intros Hc. destruct c; try done; simpl; rewrite served_stored, on_db_stored.
  - apply (enqueue_acts pg_code rq).
  - apply (enqueue_acts pg_code (as_retry rq)).
  - eapply acted_mono; [|apply review_acts]. by left.
  - eapply acted_mono; [|apply approve_acts]. by left.
  - eapply acted_mono; [|apply reject_acts]. by left.
  - eapply acted_mono; [|apply rollback_acts]. by left.
Qed.
Definition is_quick (c : api) : bool := match c with Quick _ _ _ => true | _ => false end.
Lemma writing_requests rq c w : acting c = false → is_quick c = false → writes (hr_user rq) (stored w) (stored (serve rq c w).2).
Proof.
  intros Hc Hq. destruct c; try done; simpl; apply (serves_served _); serves_steps;
    auto using each_create, each_update, each_metadata, each_create_preset,
      each_update_preset, each_delete_preset, serves_multipart, serves_upload, serves_delete.
Qed.
Lemma quick_requests rq c w : is_quick c = true → quick_change (hr_user rq) (stored w) (stored (serve rq c w).2).
Proof. intros Hq. destruct c; try done. simpl. apply (serves_served _), serves_quick. Qed.

(** A request changes the database only by steps of the workflow and the other
    writes of [change], however it ends; a submission that does not learn the
    operation may overlook a rollback. *)
Lemma requests_follow rq c w :
  rtc (change (hr_user rq)) (stored w) (stored (serve rq c w).2) ∨
  ¬ routed c w ∧ ∃ n t1, overlooked (asked rq c) n (stored w) t1 ∧ rtc (change (hr_user rq)) t1 (stored (serve rq c w).2).
Proof.
  destruct (acting c) eqn:Hc.
  - destruct (acting_requests rq c w Hc) as (t1 & [->|(n & [Hw|[Hl Ho]])] & Hwr & _).
    + left. by apply writes_change.
    + left. eapply rtc_l; [|by apply writes_change]. eapply ch_workflow; [|exact Hw]. by destruct c.
    + right. split; [done|]. exists n, t1. split; [done|by apply writes_change].
  - left. destruct (is_quick c) eqn:Hq; [by apply quick_requests|by apply writes_change, writing_requests].
Qed.
Lemma requests_follow_workflow rq c w : routed c w → rtc (change (hr_user rq)) (stored w) (stored (serve rq c w).2).
Proof. intros Hr. by destruct (requests_follow rq c w) as [?|[? _]]. Qed.
End requests.
