(* ===== verification/System.v ===== *)
(** * Backend and Runners together

    One database, any number of requests and Runner calls one after the other,
    and administrators changing settings.  The properties hold in every database
    the system can reach. *)
From S2P Require Import Prelude GoIO GoString OS Files Model Db Store Queue StoreProofs QueueSafety Backend Releases Workflow StoreFrame ReleaseProofs Artifacts Semver Quick Consistency Requests.
From stdpp Require Import relations.

(** ** The jobs a request queues *)
Definition source_of (j : job_row) : option string * option string := (jr_rb_release j, jr_rb_job j).

(** The approval of release [r] that a job for a target which asks for one rests
    on: it was given, or is given now by [who], and is recorded in [r']; never by
    the requester. *)
Definition cleared (who : string) (r r' : release_row) : Prop :=
  ∃ approver, approver ≠ requester r ∧ de_approved (decision_of r') = Some approver ∧
    (re_status r = "APPROVED" ∧ de_approved (decision_of r) = Some approver ∨ under_review (re_status r) = true ∧ approver = who).
(** The deployed version before a deployment, and the planned one of a rollback. *)
Definition sourced (id : string) (t : btables) (r : release_row) (j : job_row) : Prop :=
  jr_operation j = OperationDeploy ∧ source_of j = head_pair (re_application r) (re_environment r) t ∨
  jr_operation j = OperationRollback ∧ ∃ retry plan, planned t id retry plan ∧ source_of j = (Some (SourceReleaseID plan), Some (SourceJobID plan)).
Definition queued (who id : string) (t t' : btables) (j : job_row) : Prop :=
  jr_release j = id ∧ ∃ r r', the_release id t = Some r ∧ the_release id t' = Some r' ∧ same_target r r' ∧
    (needs_approval t (jr_profile j) r → cleared who r r') ∧ sourced id t r j.

Lemma sound_heads t : sound (bt_queue t) → heads_sound t.
Proof.
  intros Ht app env (h & Hh & Hn). destruct (so_heads _ Ht _ _ _ Hh) as (j & r & (Hj & _)%verified_job_ok & Hr & _).
  unfold the_release in Hn. destruct Hn; congruence.
Qed.
Lemma deploy_sourced t n id user retry r j : heads_sound t → deploy_job t n id user retry r j → sourced id t r j.
Proof.
  intros Ht [p a e artifact lockKey source cred _ _ _ _ _ _ _ _ Hs]. left. split; [done|]. destruct Hs as [Hs|[_ Hd]]; [|by destruct (Ht _ _ Hd)].
  unfold source_of. simpl. by destruct source.
Qed.
Lemma inserted_row id j t t1 r :
  insert_job id j t = Ok ((), t1) → the_release (jr_release j) t = Some r →
  the_release (jr_release j) t1 = Some (set_release_status (status_text (jr_status j)) r).
Proof. intros (_ & _ & ->)%insert_job_ok Hr. by apply the_release_updated. Qed.
Lemma inserted_job id0 j0 t t1 id j : insert_job id0 j0 t = Ok ((), t1) → jobs (bt_queue t1) !! id = Some j → jobs (bt_queue t) !! id = Some j ∨ j = j0.
Proof. intros (_ & _ & ->)%insert_job_ok. simpl. intros [[_ ->]|[_ ?]]%lookup_insert_Some; auto. Qed.
(** The approval of a release that is "APPROVED" stays recorded. *)
Lemma recorded who t id r r' :
  sound (bt_queue t) → the_release id t = Some r → decision_of r' = decision_of r → re_status r = "APPROVED" → cleared who r r'.
Proof.
  intros Ht Hr Hd Hs. destruct (rk_approved _ (so_releases _ Ht _ _ Hr) Hs) as (u & Hu & Hne). exists u. rewrite Hd. auto.
Qed.

Section step_jobs.
Context (rq : request) (n : Z) (t : btables) (Hf : four_eyes t) (Ht : sound (bt_queue t)).
Lemma submission_job r t' id j :
  submission rq n t r t' → jobs (bt_queue t') !! id = Some j → jobs (bt_queue t) !! id = Some j ∨ queued (hr_user rq) (hr_id rq) t t' j.
Proof.
  intros [retry _ _ _ _|_ _|retry user j0 t1 Hr Hn _ _ Hj0 Hi] Hj; try by left.
  destruct (inserted_job _ _ _ _ _ _ Hi Hj) as [|E]; [by left|right]. subst j0. destruct (deploy_job_ok _ _ _ _ _ _ _ Ht Hr Hj0) as (_ & Hid & _).
  split; [done|]. eexists r, _. split; [done|]. split; [apply the_release_updated; rewrite <- Hid; eapply inserted_row; [done|by rewrite Hid]|].
  split; [done|]. split; [|by eapply deploy_sourced; [apply sound_heads|]]. intros Hneed.
  eapply recorded; [done..|]. apply Hn. by destruct Hj0.
Qed.
Lemma workflow_job t' id j :
  workflow rq n t t' → jobs (bt_queue t') !! id = Some j → jobs (bt_queue t) !! id = Some j ∨ queued (hr_user rq) (hr_id rq) t t' j.
Proof.
  intros Hw Hj. destruct Hw as [r t' _ Hs| | |r note j0 t1 t2 Ha Hd Hre -> Hj0 Hi| | | |r retry plan base j0 t1 Hr Hn _ _ Hp Hj0 Hi _| |r j0 t1 Hr Hs Hn Hj0 Hi];
    try by left.
  - by eapply submission_job.
  - destruct Ha as [Hr (c & Hc & Hself) Hu _ _]. destruct (inserted_job _ _ _ _ _ _ Hi Hj) as [|E]; [by left|right]. subst j0.
    assert (jr_release j = hr_id rq) as Hid by by destruct Hj0. split; [done|]. eexists r, _. split; [done|].
    split; [rewrite <- Hid; eapply inserted_row; [done|]; rewrite Hid; by apply the_release_updated|]. split; [done|]. split.
    + intros _. exists (hr_user rq). split; [|auto]. intros E. by destruct (Hf _ Hc (Hself (eq_sym E))).
    + assert (sourced (hr_id rq) (update_release (approved (hr_user rq) note) (hr_id rq) t) (approved (hr_user rq) note r) j) as [Hsrc|[Hop _]].
      * eapply deploy_sourced; [|done]. intros app env (h & Hh & Hd'). apply (sound_heads _ Ht app env). exists h. split; [done|].
        destruct Hd' as [Hd'|?]; [left|by right]. unfold the_release, update_release in *. simpl in *. by apply lookup_alter_None in Hd'.
      * by left.
      * by destruct Hj0.
  - destruct (inserted_job _ _ _ _ _ _ Hi Hj) as [|E]; [by left|right]. subst j0. destruct (rollback_job_ok _ _ _ _ _ _ _ Hj0) as (_ & Hid & _).
    split; [done|]. eexists r, _. split; [done|]. split; [apply the_release_updated; rewrite <- Hid; eapply inserted_row; [done|by rewrite Hid]|].
    split; [done|]. split; [intros Hneed; eapply recorded; auto; done|]. right. split; [by destruct Hj0|]. exists retry, plan. split; [done|by destruct Hj0].
  - destruct (inserted_job _ _ _ _ _ _ Hi Hj) as [|E]; [by left|right]. subst j0. assert (jr_release j = hr_id rq) as Hid by by destruct Hj0.
    split; [done|]. eexists r, _. split; [done|]. split; [rewrite <- Hid; eapply inserted_row; [done|by rewrite Hid]|].
    split; [done|]. split; [|by eapply deploy_sourced; [apply sound_heads|]]. intros Hneed. destruct Hn. by destruct Hj0.
Qed.
End step_jobs.

Section system.
Context (commit_lost visible_timeout : nat → bool) (pg_code : goerr → option string) `{ErrorText} (parse_time : string → result Z).
Context (decode_health : string → result (list HealthCheck)) (decode_args : string → result (list string)).
Local Abbreviation serve := (serve commit_lost visible_timeout pg_code parse_time).
Local Abbreviation run_call := (run_call decode_health decode_args).

(** Requests whose submissions learn the operation of their release ([routed]),
    however they end; calls of Runners; and administrators, who may change
    everything but the workflow's tables, and may not allow self approval. *)
Inductive system_step (t : btables) : btables → Prop :=
  | sys_request rq c w : stored w = t → routed c w → system_step t (stored (serve rq c w).2)
  | sys_runner c w : call_allowed c → tabs w = bt_queue t → system_step t (set_queue (λ _, tabs (run_call c w).2) t)
  | sys_admin t' :
      jobs (bt_queue t') = jobs (bt_queue t) → releases (bt_queue t') = releases (bt_queue t) →
      locks (bt_queue t') = locks (bt_queue t) → heads (bt_queue t') = heads (bt_queue t) → four_eyes t' → system_step t t'.
Definition origin (t : btables) : Prop :=
  jobs (bt_queue t) = ∅ ∧ releases (bt_queue t) = ∅ ∧ locks (bt_queue t) = ∅ ∧ heads (bt_queue t) = ∅ ∧ four_eyes t.
Definition reached (t : btables) : Prop := ∃ t0, origin t0 ∧ rtc system_step t0 t.

Lemma sound_frame t t' :
  jobs t' = jobs t → releases t' = releases t → locks t' = locks t → heads t' = heads t → sound t → sound t'.
Proof.
  intros Hj Hr Hl Hh Ht. assert (keeps_terminal t t') as K by by intros id j; rewrite Hj.
  assert (keeps_targets t t') as KT by by intros id r Hx; exists r; rewrite Hr.
  constructor.
  - destruct (so_queue _ Ht) as [Hq Hu]. assert (abs t' = abs t) as E by (unfold abs; by rewrite Hj, Hl, Hh).
    constructor; [by rewrite E|]. intros id j. rewrite Hj. apply Hu.
  - intros id r. rewrite Hr. apply Ht.
  - intros id j. rewrite Hj. intros Hx. eapply job_ok_mono; [done..|]. by eapply so_jobs.
  - intros app env h. rewrite Hh. intros Hx. eapply verified_mono; [done..|]. by apply (so_heads _ Ht).
  - intros id1 j1 id2 j2. rewrite Hj. apply Ht.
  - intros id j r. rewrite Hj, Hr. apply Ht.
Qed.
Lemma step_sound t t' : four_eyes t → sound (bt_queue t) → system_step t t' → four_eyes t' ∧ sound (bt_queue t').
Proof.
  intros Hf Ht [rq c w <- Hc|c w Hc Hw|t1 Hj Hr Hl Hh Hf'].
  - pose proof (requests_follow_workflow commit_lost visible_timeout pg_code parse_time rq c w Hc) as Hs.
    split; [by eapply changes_four_eyes|by eapply sound_changes].
  - split; [exact Hf|]. simpl. rewrite <- Hw in Ht. pose proof (call_ok decode_health decode_args c w Hc (so_queue _ Ht)) as Hok.
    eapply sound_runner; [eapply ok_inv; [apply Ht|done]|apply Hok| | |done].
    + apply runner_call_rel.
    + by apply runner_call_synced.
  - split; [done|]. by eapply sound_frame.
Qed.
Lemma origin_sound t : origin t → sound (bt_queue t).
Proof.
  intros (Hj & Hr & Hl & Hh & _). constructor; [by apply initial_inv|..]; intros *; rewrite ?Hj, ?Hr, ?Hh; set_solver.
Qed.
Lemma reached_sound t : reached t → four_eyes t ∧ sound (bt_queue t).
Proof.
  intros (t0 & H0 & Hs). assert (four_eyes t0 ∧ sound (bt_queue t0)) as [Hf Ht] by (split; [apply H0|by apply origin_sound]).
  clear H0. induction Hs as [|t0 t1 t Hs _ IH]; [done|]. destruct (step_sound _ _ Hf Ht Hs). auto.
Qed.

(** ** Properties of every reached database *)

(** C2: The handlers refine the workflow: whatever a request asks for and however it ends (refused, failed at any
    statement, its commit lost), what it leaves in the database is: for a submission, retry, decision or rollback one step of
    the abstract workflow or none, taken on the stored tables, and then audits; for a quick release some steps of the
    workflow; for every other request writes that queue no job. One exception is stated with it: a submission or retry whose
    first read is not answered ([routed] fails) does not learn that its release asks for a rollback, and may take the step
    of a deployment for it. *)
Theorem requests_refine_workflow rq c w :
  let t := stored w in let t' := stored (serve rq c w).2 in
  if acting c then
    ∃ t1, (t1 = t ∨ ∃ n, workflow (asked rq c) n t t1 ∨ ¬ routed c w ∧ overlooked (asked rq c) n t t1)
      ∧ rtc (write (hr_user rq)) t1 t' ∧ bt_queue t' = bt_queue t1
  else if is_quick c then rtc (change (hr_user rq)) t t' else rtc (write (hr_user rq)) t t'.
Proof.
  cbv zeta. destruct (acting c) eqn:Hc; [|destruct (is_quick c) eqn:Hq].
  - destruct (acting_requests commit_lost visible_timeout pg_code parse_time rq c w Hc) as (t1 & Hstep & Hw & [Hb _ _]). by exists t1.
  - by apply quick_requests.
  - by apply writing_requests.
Qed.

(** C32: A release is well formed in every database that requests (whose submissions
    learn the operation of their release), calls of Runners and changes of settings
    can reach: its status and operation are those the
    console knows; only a rollback request names a source, and it always names a
    source release, a source job, who asked and the final status to fall back to;
    a release that may still be edited asks for no rollback, and a retry is only
    pending while the request waits for its approval or its execution. *)
Theorem releases_well_typed t id r :
  reached t → the_release id t = Some r →
  re_status r ∈ release_statuses ∧ rq_operation (request_of r) ∈ [OperationDeploy; OperationRollback]
  ∧ (is_rollback r = true → is_Some (rq_release (request_of r)) ∧ is_Some (rq_job (request_of r)) ∧ is_Some (rq_by (request_of r))
       ∧ is_Some (rq_base (request_of r)))
  ∧ (editable (re_status r) = true → is_rollback r = false)
  ∧ (∀ b, rq_base (request_of r) = Some b → final_status b = true)
  ∧ (is_Some (rq_retry (request_of r)) → is_rollback r = false ∧ awaiting (re_status r) = true).
Proof. intros [_ Ht]%reached_sound Hr. by destruct (so_releases _ Ht _ _ Hr). Qed.

(** C4: A target has at most one active job, over all its releases, in every database that requests (whose submissions
    learn the operation of their release), calls of Runners and changes of settings can reach. *)
Theorem one_active_job_per_target t id1 j1 r1 id2 j2 r2 :
  reached t → jobs (bt_queue t) !! id1 = Some j1 → jobs (bt_queue t) !! id2 = Some j2 → active j1 = true → active j2 = true →
  the_release (jr_release j1) t = Some r1 → the_release (jr_release j2) t = Some r2 →
  re_application r1 = re_application r2 → re_environment r1 = re_environment r2 → id1 = id2.
Proof.
  intros [_ Ht]%reached_sound H1 H2 A1 A2 R1 R2 Ea Ee. eapply (so_active _ Ht); [done..|].
  destruct (so_jobs _ Ht _ _ H1) as (r1' & R1' & K1 & _). destruct (so_jobs _ Ht _ _ H2) as (r2' & R2' & K2 & _).
  unfold the_release in *. simplify_eq. rewrite Ea, Ee in K1. rewrite K1 in K2. by injection K2 as ->.
Qed.

(** While a job of a release is active the release shows it: it cannot be
    edited, uploaded to, submitted, reviewed or rolled back. *)
Lemma active_releases_frozen t id j r :
  reached t → jobs (bt_queue t) !! id = Some j → active j = true → the_release (jr_release j) t = Some r →
  re_status r ∈ live_statuses ∧ editable (re_status r) = false ∧ awaiting (re_status r) = false ∧ final_status (re_status r) = false
  ∧ rq_retry (request_of r) = None.
Proof.
  intros [_ Ht]%reached_sound Hj Ha Hr. pose proof (so_live _ Ht _ _ _ Hj Ha Hr) as Hl. pose proof (so_releases _ Ht _ _ Hr) as Hok.
  assert (∀ (f : string → bool), (∀ s, f s = true → live s = false) → f (re_status r) = false) as Hno.
  { intros f Hf. destruct (f (re_status r)) eqn:E; [|done]. apply Hf in E. congruence. }
  split_and!; [by apply bool_decide_eq_true in Hl| | | |].
  - apply Hno. intros s Hs. by apply editable_idle.
  - apply Hno. apply awaiting_idle.
  - apply Hno. intros s Hs. by apply final_idle.
  - destruct (rq_retry (request_of r)) eqn:E; [|done]. destruct (rk_retry _ Hok) as [_ Haw%awaiting_idle]; [by rewrite E|congruence].
Qed.

(** The job a request has queued, in every reached database. *)
Lemma request_job rq c w id j :
  reached (stored w) → jobs (bt_queue (stored w)) !! id = None → jobs (bt_queue (stored (serve rq c w).2)) !! id = Some j →
  acting c = true ∧ queued (hr_user rq) (hr_id rq) (stored w) (stored (serve rq c w).2) j ∨
  is_quick c = true ∧ quick_job (stored w) (stored (serve rq c w).2) j.
Proof.
  intros [Hf Ht]%reached_sound Hn Hj. destruct (acting c) eqn:Hc; [left; split; [done|]|right; destruct (is_quick c) eqn:Hq; [split; [done|]|exfalso]].
  - destruct (acting_requests commit_lost visible_timeout pg_code parse_time rq c w Hc) as (t1 & Hstep & _ & [Hb _ _]). rewrite Hb in Hj.
    assert (hr_id (asked rq c) = hr_id rq ∧ hr_user (asked rq c) = hr_user rq) as [Ei Eu] by by destruct c.
    unfold queued, the_release. rewrite Hb. destruct Hstep as [->|(n & [Hw|(_ & r & Hr & _ & Hs)])]; [congruence| |].
    + destruct (workflow_job _ _ _ Hf Ht _ _ _ Hw Hj) as [?|Hq]; [congruence|]. by rewrite Ei, Eu in Hq.
    + destruct (submission_job _ _ _ Ht _ _ _ _ Hs Hj) as [?|Hq]; [congruence|]. by rewrite Ei, Eu in Hq.
  - destruct (quick_requests commit_lost visible_timeout pg_code parse_time rq c w Hq) as [_ Hstep].
    destruct (qk_new _ _ Hstep _ _ Hj) as [?|?]; [congruence|done].
  - pose proof (writing_requests commit_lost visible_timeout pg_code parse_time rq c w Hc Hq) as Hw.
    enough (∀ t t', rtc (write (hr_user rq)) t t' → jobs (bt_queue t') !! id = Some j → jobs (bt_queue t) !! id = Some j) as Hback by (apply (Hback _ _ Hw) in Hj; congruence).
    clear. intros t t'. induction 1 as [|t t1 t' H1 _ IH]; [done|]. intros Hj. eapply write_jobs; [done|auto].
Qed.

(** C17: Every job remembers a version that was verified. In every database the system reaches, the source a rollback
    restores, and the version before a deployment, is a successful deployment of the job's own target; a job without a source
    is a deployment. And the deployment a request queues has for its source exactly the version deployed on its target when
    the request came (so none only where nothing was deployed), the rollback exactly the planned one. *)
Theorem job_sources_verified t :
  reached t →
  (∀ id j r, jobs (bt_queue t) !! id = Some j → the_release (jr_release j) t = Some r →
    (jr_operation j = OperationDeploy ∧ source_of j = (None, None)) ∨
    ∃ release job, source_of j = (Some release, Some job) ∧ verified (bt_queue t) (re_application r) (re_environment r) release job) ∧
  (∀ rq c w id j, stored w = t → jobs (bt_queue t) !! id = None → jobs (bt_queue (stored (serve rq c w).2)) !! id = Some j →
    ∃ r, the_release (jr_release j) (stored (serve rq c w).2) = Some r ∧
      (jr_operation j = OperationDeploy ∧ source_of j = head_pair (re_application r) (re_environment r) t ∨
       jr_operation j = OperationRollback ∧ ∃ retry plan, planned t (hr_id rq) retry plan
         ∧ source_of j = (Some (SourceReleaseID plan), Some (SourceJobID plan)))).
Proof.
  intros Hreach. pose proof Hreach as [_ Ht]%reached_sound. split.
  - intros id j r Hj Hr. destruct (so_jobs _ Ht _ _ Hj) as (r' & Hr' & _ & Hs & _).
    unfold the_release in Hr. simplify_eq. unfold source_ok in Hs. unfold source_of. destruct (jr_rb_release j), (jr_rb_job j); try done; eauto 10.
  - intros rq c w id j <- Hn Hj. destruct (request_job rq c w id j Hreach Hn Hj) as [[_ (Hid & r & r' & _ & Hr' & [Ea Ee] & _ & Hs)]|[_ (Ho & r & Hr & _ & Hs)]].
    + exists r'. rewrite Hid, Ea, Ee. split; [done|exact Hs].
    + exists r. split; [done|]. left. split; [done|]. by apply Hs, sound_heads.
Qed.

(** A rollback is planned only to a successful deployment of the same target:
    the one before the current version, or the current one after a failed attempt. *)
Lemma rollback_plans_verified t id retry plan r :
  reached t → planned t id retry plan → the_release id t = Some r →
  verified (bt_queue t) (re_application r) (re_environment r) (SourceReleaseID plan) (SourceJobID plan).
Proof.
  intros [_ Ht]%reached_sound (x & Hx & Hp) Hr. row Hx. rewrite Hr in Hx0. injection Hx0 as ->. simpl in *.
  unfold plan_of in Hp. simpl in Hp. case_bool_decide as Hid.
  - apply verified_job_ok in Hx2 as (Hj & Hrel & _).
    destruct (so_jobs _ Ht _ _ Hj) as (r' & Hr' & _ & Hs & _). unfold the_release in Hr. rewrite Hrel, <- Hid in Hr'. simplify_eq.
    unfold source_ok in Hs. destruct (jr_rb_release x2), (jr_rb_job x2); try done. by inv_ok Hp.
  - inv_ok Hp. simpl. by apply (so_heads _ Ht).
Qed.

(** The button and the handler agree: the list shows a release as ready for a
    rollback exactly when planning a rollback of it succeeds. *)
Lemma rollback_flag_exact t id r :
  reached t → the_release id t = Some r →
  rollback_eligible id (re_application r) (re_environment r) (bt_queue t) = true ↔ ∃ plan, planned t id false plan.
Proof.
  intros [_ Ht]%reached_sound Hr. unfold planned, plan_query, rollback_eligible. rewrite Hr. simpl.
  destruct (heads (bt_queue t) !! _) as [h|] eqn:Hh; simpl; [|naive_solver].
  destruct (so_heads _ Ht _ _ _ Hh) as (basis & rb & Hb & Hrb & _). rewrite Hb. simpl.
  apply verified_job_ok in Hb as (Hj & Hrel & _). rewrite Hj.
  destruct (latest_target _ _ _) as [[lid latest]|]; simpl; [|naive_solver].
  destruct (so_jobs _ Ht _ _ Hj) as (rj & _ & _ & Hs & _). unfold source_ok in Hs.
  set (x := {| pl_head := h; pl_basis := basis; pl_latest_id := lid; pl_latest := latest |}).
  trans (is_ok (plan_of id false x) = true).
  2: { destruct (plan_of id false x) eqn:E; simpl; split; eauto; [done|]. intros (? & ? & [= <-] & ?). congruence. }
  unfold plan_of, x. simpl. rewrite !orb_false_r, (bool_decide_ext (hd_release h = id) (id = hd_release h)) by naive_solver.
  case_bool_decide.
  - destruct (jr_rb_release basis), (jr_rb_job basis); try done. simpl. by destruct (_ || _).
  - by destruct (_ && _).
Qed.

(** C3: No deployment or rollback of a target that asks for approval is queued without one, where nobody may approve their
    own request. A job that appears during a request - however it ends, and whatever its reads have missed - belongs to the
    request's release, and if the target asks for an approval then the release was stored as approved by somebody other than
    its requester when the request came, or was under review and the request is itself that approval; the approver is recorded
    on the release. Only a quick release queues the job of another, new release, and only where no approval is asked for. *)
Theorem queued_jobs_approved rq c w id j :
  let t := stored w in let t' := stored (serve rq c w).2 in
  reached t → jobs (bt_queue t) !! id = None → jobs (bt_queue t') !! id = Some j →
  (jr_release j = hr_id rq ∧ ∃ r r', the_release (hr_id rq) t = Some r ∧ the_release (hr_id rq) t' = Some r' ∧
     (needs_approval t (jr_profile j) r → ∃ approver, approver ≠ requester r ∧ de_approved (decision_of r') = Some approver ∧
        (re_status r = "APPROVED" ∧ de_approved (decision_of r) = Some approver ∨ under_review (re_status r) = true ∧ approver = hr_user rq))) ∨
  (is_quick c = true ∧ ∃ r', the_release (jr_release j) t' = Some r' ∧ ¬ needs_approval t (jr_profile j) r').
Proof.
  cbv zeta. intros Hreach Hn Hj. destruct (request_job rq c w id j Hreach Hn Hj) as [[_ (Hid & r & r' & Hr & Hr' & _ & Hcl & _)]|[Hq (_ & r & Hr & Hno & _)]].
  - left. split; [done|]. by exists r, r'.
  - right. split; [done|]. by exists r.
Qed.

(** ** Deletions *)
Definition same_jobs (t t' : btables) : Prop := jobs (bt_queue t') = jobs (bt_queue t).
#[local] Instance same_jobs_preorder : PreOrder same_jobs.
Proof. split; [done|]. unfold same_jobs. congruence. Qed.

Definition deletes (id : string) (t t' : btables) : Prop :=
  same_jobs t t' ∨ ∃ r, the_release id t = Some r ∧ editable (re_status r) = true
    ∧ jobs (bt_queue t') = jobs (delete_job_rows id (bt_queue t)).
Lemma delete_transaction_spec rq t n :
  runs t n (delete_transaction rq) (λ _ t', ∃ r, the_release (hr_id rq) t = Some r ∧ editable (re_status r) = true
    ∧ jobs (bt_queue t') = jobs (delete_job_rows (hr_id rq) (bt_queue t))).
Proof.
  unfold delete_transaction. run. eapply runs_bind; [eapply runs_checked; intros u t1 Hd; exact Hd|].
  intros [] t1 Hd. cbv beta in Hd. run. bools. exists a. split_and!; [done..|].
  unfold delete_release_row in Hd. destruct (release_referenced _ _); by simplify_eq.
Qed.
Lemma deleteRelease_deletes rq w : deletes (hr_id rq) (stored w) (stored (deleteRelease rq w).2).
Proof.
  unfold deleteRelease. set (tx := transaction_with _ _ _). set (k := λ x : string * list string, _).
  assert (∀ x, serves same_jobs (k x)) as Hk.
  { intros [root paths]. unfold k. serves_steps. unfold Audit. each_steps. done. }
  unfold mbind, M_bind, on_db. destruct (tx (sv_db w)) as [r d] eqn:E. unfold tx in E.
  assert (deletes (hr_id rq) (stored w) (tabs d)) as Hd.
  { destruct (transaction_cases _ _ _ _ _ _ E) as [[Ht _]|(a & w1 & _ & E1 & Ht & _)]; [left; unfold same_jobs; by rewrite Ht|].
    right. rewrite Ht.
    exact (proj1 (delete_transaction_spec rq (stored w) (now (sv_db w)) (ticked_db (tabs (sv_db w)) false (sv_db w)) _ _ eq_refl eq_refl E1)). }
  destruct r as [x|e]; [|exact Hd]. specialize (Hk x (Server d (sv_os w))). unfold deletes, same_jobs, stored in *. simpl in *.
  destruct Hd as [Hd|(r & Hr & He & Hq)]; [left; congruence|]. right. exists r. split_and!; [done..|congruence].
Qed.

(** Deleting a release never removes an active job: its files and rows stay
    for the Runner that works on them. *)
Lemma deletion_spares_active_jobs rq w id j :
  reached (stored w) → jobs (bt_queue (stored w)) !! id = Some j → active j = true →
  jobs (bt_queue (stored (serve rq Requests.Delete w).2)) !! id = Some j.
Proof.
  intros [_ Ht]%reached_sound Hj Ha. simpl.
  assert (stored (served (deleteRelease rq) w).2 = stored (deleteRelease rq w).2) as ->.
  { unfold served, mbind, M_bind. by destruct (deleteRelease rq w) as [[?|?] ?]. }
  destruct (deleteRelease_deletes rq w) as [Hs|(r & Hr & He & Hq)]; [by rewrite Hs|].
  rewrite Hq. apply kept_job. split; [done|]. intros Hid. rewrite <- Hid in Hr.
  pose proof (so_live _ Ht _ _ _ Hj Ha Hr) as Hl. apply editable_idle in He as [He _]. congruence.
Qed.
End system.
