(* ===== verification/SystemDemo.v ===== *)
(** * A run of the whole system (witnesses of System.v)

    Two releases of one protected target: the first is uploaded, submitted,
    approved, queued and deployed; the second fails, and a rollback of it is asked
    for, approved and queued.  Every state is computed by the handlers and the
    Runner's queries. *)
From S2P Require Import Prelude GoIO GoString OS Files Model Db Store Queue StoreProofs QueueSafety Backend Releases Workflow StoreFrame ReleaseProofs Artifacts Semver Quick Consistency Requests System.
From stdpp Require Import relations.
Open Scope Z_scope.

Module scenario.
#[local] Instance text : ErrorText := λ _, "error".
Definition uuid (n : string) : string := "00000000-0000-4000-8000-0000000000" +:+ n.
Definition app : string := uuid "a1".
Definition env : string := uuid "e1".
Definition health : string → result (list HealthCheck) := λ _, Ok [].
Definition args : string → result (list string) := λ _, Ok [].
Definition no_code : goerr → option string := λ _, None.
Definition never : nat → bool := λ _, false.
Definition time_of : string → result Z := λ _, Ok 5%Z.

Definition profile : profile_row := {|
  pr_name := "default";
  pr_extraction := {| MaxArchiveBytes := 1000; MaxExtractedBytes := 1000; MaxFiles := 10; MaxImages := 3; AllowSymlinks := false |};
  pr_kind := "docker"; pr_binary := "/usr/bin/docker"; pr_namespace := ""; pr_url := "https://registry";
  pr_host := "registry"; pr_project := "apps"; pr_insecure := false; pr_ca := ""; pr_credential := Some (true, "aad", "sealed");
  pr_health := "[]"; pr_timeout := 60; pr_max_log := 1000; pr_auto_rollback := false; pr_cleanup := true;
  pr_keep_failed := false; pr_active := true; pr_revoked := false;
  pr_info := {| pi_application := app; pi_environment := env; pi_enabled := true; pi_approval := false; pi_labels := ["linux"];
                pi_target_credential := None; pi_created := 0 |} |}.
Definition script_of (phase : string) : script_row := {|
  sc_profile := uuid "b1"; sc_order := 1; sc_id := phase; sc_name := phase; sc_version := 1; sc_phase := phase;
  sc_interpreter := "/bin/sh"; sc_sha256 := "cd"; sc_content := []; sc_args := "[]"; sc_timeout := None;
  sc_approved := Some 1; sc_revoked := false; sc_type := phase; sc_active := true |}.
Definition inventory : tables := {|
  jobs := ∅; releases := ∅; locks := ∅;
  runners := {[ "host-1" := {| ru_name := "r"; ru_address := "a"; ru_labels := ["linux"]; ru_active := true; ru_managed := true;
                               ru_heartbeat := Some 100000 |} ]};
  steps := ∅; logs := []; images := ∅; heads := ∅; credentials := ∅; profiles := {[ uuid "b1" := profile ]};
  scripts := [script_of "DEPLOY"; script_of "ROLLBACK"]; settings := None |}.
Definition s0 : btables := {|
  bt_queue := inventory; artifacts := ∅; applications := {[ app := {| ap_code := "shop"; ap_active := true |} ]};
  environments := {[ env := {| en_application := app; en_code := "prod"; en_protected := true; en_active := true |} ]};
  presets := {[ uuid "c1" := {| ps_name := "shop"; ps_prefix := "shop"; ps_application := app; ps_environment := env;
    ps_profile := uuid "b1"; ps_active := true; ps_auto := true; ps_revoked := false; ps_updated := 5 |} ]};
  config := Some {| cs_approval := true; cs_protected := None; cs_allow_self := Some false; cs_require_comment := None;
                    cs_storage := "/data"; cs_max_bytes := 100 |};
  audits := [] |}.

Definition disk : os := {|
  fs := <[["data"] := {| n_kind := KDir; n_uid := 0; n_gid := 0; n_perm := 493; n_setgid := false; n_sticky := false |}]> ∅;
  cwd := []; euid := 0; egid := 0; umask := 18; faults := λ _, None; tick := 0 |}.
Definition at_time (n : Z) (t : btables) : server :=
  Server {| tabs := t; now := n; db_faults := λ _, None; db_tick := 0; db_aborted := false |} disk.
Definition by_user (user id : string) (new : nat → string) : request :=
  {| hr_user := user; hr_id := id; hr_newid := new; hr_retry := false; hr_acquired := true |}.
Definition ids (a b : string) (n : nat) : string := match n with O => uuid a | _ => uuid b end.

Definition ask (n : Z) (rq : request) (c : api) (t : btables) : btables := stored (serve never never no_code time_of rq c (at_time n t)).2.
Definition store : PGStore := {| workerID := "w1"; runnerIdentity := "host-1" |}.
Definition runs_call (n : Z) (c : call) (t : btables) : btables := set_queue (λ _, tabs (run_call health args c (demo.at_time n (bt_queue t))).2) t.

Definition input (version : string) : releaseInput :=
  {| ApplicationID := app; EnvironmentID := env; ProfileID := uuid "b1"; Version := version; Notes := "" |}.
Definition file : upload := {| up_name := "shop.tar.gz"; up_media := "application/gzip"; up_content := to_bytes "content"; up_error := None |}.

(** Version 1: created and uploaded by alice, approved by bob, deployed. *)
Definition s1 : btables := ask 1000 (by_user "alice" "" (ids "11" "f1")) (Create (input "1.0.0")) s0.
Definition s2 : btables := ask 1001 (by_user "alice" (uuid "11") (ids "" "f1")) (Upload (Ok "t1") (Ok file)) s1.
Definition s3 : btables := ask 1002 (by_user "alice" (uuid "11") (ids "" "")) Submit s2.
Definition s4 : btables := ask 1003 (by_user "bob" (uuid "11") (ids "" "")) (Approve "fine") s3.
Definition s5 : btables := ask 100004 (by_user "alice" (uuid "11") (ids "d1" "")) Submit s4.
Definition s6 : btables := runs_call 110000 (CallClaim store ∅ 1000000000) s5.
Definition s7 : btables := runs_call 111000 (CallFinish store (uuid "d1") StatusSuccess "") s6.
(** Version 2 fails; its rollback is asked for and approved. *)
Definition s8 : btables := ask 112000 (by_user "alice" "" (ids "12" "f2")) (Create (input "2.0.0")) s7.
Definition s9 : btables := ask 112001 (by_user "alice" (uuid "12") (ids "" "f2")) (Upload (Ok "t2") (Ok file)) s8.
Definition s10 : btables := ask 112002 (by_user "alice" (uuid "12") (ids "" "")) Submit s9.
Definition s11 : btables := ask 112003 (by_user "bob" (uuid "12") (ids "" "")) (Approve "fine") s10.
Definition s12 : btables := ask 112004 (by_user "alice" (uuid "12") (ids "d2" "")) Submit s11.
Definition s13 : btables := runs_call 113000 (CallClaim store ∅ 1000000000) s12.
Definition s14 : btables := runs_call 114000 (CallFinish store (uuid "d2") StatusFailed "exit 1") s13.
Definition s15 : btables := ask 115000 (by_user "alice" (uuid "12") (ids "d3" "")) Rollback s14.
Definition s16 : btables := ask 115001 (by_user "bob" (uuid "12") (ids "" "")) (Approve "back") s15.
Definition s17 : btables := ask 115002 (by_user "alice" (uuid "12") (ids "d3" "")) Rollback s16.

Local Abbreviation reached := (reached never never no_code time_of health args).
Lemma ask_reached n rq c t : routed c (at_time n t) → reached t → reached (ask n rq c t).
Proof. intros Hc (t0 & H0 & Hs). exists t0. split; [done|]. eapply rtc_r; [exact Hs|]. by apply sys_request. Qed.
Lemma call_reached n c t : call_allowed c → reached t → reached (runs_call n c t).
Proof. intros Hc (t0 & H0 & Hs). exists t0. split; [done|]. eapply rtc_r; [exact Hs|]. by apply sys_runner. Qed.
Lemma s0_reached : reached s0.
Proof. exists s0. split; [|done]. split_and!; try done. intros c [= <-]. done. Qed.
Ltac reach H := first [apply ask_reached; [done|exact H]|apply call_reached; [done|exact H]].
Lemma s5_reached : reached s5.
Proof. do 5 (apply ask_reached; [done|]). exact s0_reached. Qed.
Lemma s7_reached : reached s7.
Proof. do 2 (apply call_reached; [done|]). exact s5_reached. Qed.
Lemma s12_reached : reached s12.
Proof. do 5 (apply ask_reached; [done|]). exact s7_reached. Qed.
Lemma s14_reached : reached s14.
Proof. do 2 (apply call_reached; [done|]). exact s12_reached. Qed.
Lemma s15_reached : reached s15.
Proof. apply ask_reached; [done|]. exact s14_reached. Qed.
Lemma s16_reached : reached s16.
Proof. apply ask_reached; [done|]. exact s15_reached. Qed.
Lemma reached_at n t : reached t → reached (stored (at_time n t)).
Proof. done. Qed.
Lemma s17_reached : reached s17.
Proof. apply ask_reached; [done|]. exact s16_reached. Qed.

(** The rows of the scenario. *)
Definition release_at (id : string) (t : btables) : release_row := default (draft "" "" "" "" "" "" no_quick 0) (the_release (uuid id) t).
Definition job_at (id : string) (t : btables) : job_row := default demo.job (jobs (bt_queue t) !! uuid id).

Lemma releases_well_typed_witness :
  is_rollback (release_at "12" s16) = true ∧ is_Some (rq_job (request_of (release_at "12" s16))).
Proof.
  assert (the_release (uuid "12") s16 = Some (release_at "12" s16)) as Hr by (vm_compute; reflexivity).
  destruct (releases_well_typed _ _ _ _ _ _ s16 (uuid "12") _ s16_reached Hr) as (_ & _ & Hrb & _).
  assert (is_rollback (release_at "12" s16) = true) as E by (vm_compute; reflexivity).
  split; [exact E|]. exact (proj1 (proj2 (Hrb E))).
Defined.

(** The job of the rollback and itself. *)
Lemma one_active_job_per_target_witness :
  active (job_at "d3" s17) = true ∧ uuid "d3" = uuid "d3".
Proof.
  assert (active (job_at "d3" s17) = true) as Ha by (vm_compute; reflexivity). split; [exact Ha|].
  apply (one_active_job_per_target _ _ _ _ _ _ s17 (uuid "d3") (job_at "d3" s17) (release_at "12" s17) (uuid "d3") (job_at "d3" s17)
           (release_at "12" s17) s17_reached); try (vm_compute; reflexivity); exact Ha.
Defined.

(** Alice queues the rollback that bob approved: it restores version 1, which
    the failed deployment had replaced. *)
Definition queued_by : request := by_user "alice" (uuid "12") (ids "d3" "").
Definition before : server := at_time 115002 s16.
Lemma before_reached : reached (stored before).
Proof. exact s16_reached. Qed.
Lemma d3_new : jobs (bt_queue (stored before)) !! uuid "d3" = None.
Proof. vm_compute. reflexivity. Qed.
Lemma d3_queued : jobs (bt_queue (stored (serve never never no_code time_of queued_by Rollback before).2)) !! uuid "d3" = Some (job_at "d3" s17).
Proof. vm_compute. reflexivity. Qed.
Lemma planned_release j plan x : source_of j = (Some (SourceReleaseID plan), Some (SourceJobID plan)) → jr_rb_release j = Some x → SourceReleaseID plan = x.
Proof. unfold source_of. congruence. Qed.
Lemma d3_source : jr_rb_release (job_at "d3" s17) = Some (uuid "11").
Proof. vm_compute. reflexivity. Qed.
Lemma job_sources_verified_witness :
  jr_operation (job_at "d3" s17) = OperationRollback ∧
  (∃ release job, source_of (job_at "d3" s17) = (Some release, Some job) ∧ verified (bt_queue s17) app env release job) ∧
  ∃ retry plan, planned (stored before) (uuid "12") retry plan ∧ SourceReleaseID plan = uuid "11".
Proof.
  assert (jobs (bt_queue s17) !! uuid "d3" = Some (job_at "d3" s17)) as Hj by (vm_compute; reflexivity).
  assert (the_release (jr_release (job_at "d3" s17)) s17 = Some (release_at "12" s17)) as Hr by (vm_compute; reflexivity).
  assert (jr_operation (job_at "d3" s17) = OperationRollback) as Ho by (vm_compute; reflexivity). split; [exact Ho|]. split.
  - destruct (proj1 (job_sources_verified _ _ _ _ _ _ s17 s17_reached) _ _ _ Hj Hr) as [(Hd & _)|H]; [|exact H].
    rewrite Ho in Hd. discriminate.
  - destruct (proj2 (job_sources_verified never never no_code time_of health args (stored before) before_reached)
      queued_by Rollback before (uuid "d3") (job_at "d3" s17) eq_refl d3_new d3_queued) as (r & _ & [[Hd _]|(_ & retry & plan & Hp & Hs)]).
    + rewrite Ho in Hd. discriminate.
    + exists retry, plan. split; [exact Hp|]. exact (planned_release _ _ _ Hs d3_source).
Defined.
Lemma queued_jobs_approved_witness :
  jr_release (job_at "d3" s17) = uuid "12" ∧
  ∃ r r', the_release (uuid "12") (stored before) = Some r ∧
    the_release (uuid "12") (stored (serve never never no_code time_of queued_by Rollback before).2) = Some r' ∧
    (needs_approval (stored before) (jr_profile (job_at "d3" s17)) r → ∃ approver, approver ≠ requester r ∧ de_approved (decision_of r') = Some approver).
Proof.
  destruct (queued_jobs_approved never never no_code time_of health args queued_by Rollback before (uuid "d3") (job_at "d3" s17)
    before_reached d3_new d3_queued) as [(Hid & r & r' & Hr & Hr' & Ha)|[Hq _]]; [|discriminate Hq].
  split; [exact Hid|]. exists r, r'. split; [exact Hr|]. split; [exact Hr'|]. intros Hn. destruct (Ha Hn) as (approver & Hne & Hd & _).
  exists approver. split; [exact Hne|exact Hd].
Defined.

(** ** A submission that does not learn the operation *)
Definition lost_read : server :=
  Server {| tabs := s16; now := 115002; db_faults := λ k, if bool_decide (k = 1%nat) then Some "connection reset" else None;
            db_tick := 0; db_aborted := false |} disk.

(** A submission whose first read fails takes the release for a deployment: here
    the approved request is a rollback of version 2 to version 1, and the
    submission queues a deployment of version 2 instead. *)
Lemma unread_rollback_is_deployed :
  reached s16 ∧ re_status (release_at "12" s16) = "APPROVED" ∧ is_rollback (release_at "12" s16) = true
  ∧ jobs (bt_queue (stored lost_read)) !! uuid "d3" = None
  ∧ ∃ j, jobs (bt_queue (stored (serve never never no_code time_of queued_by Submit lost_read).2)) !! uuid "d3" = Some j
      ∧ jr_release j = uuid "12" ∧ jr_operation j = OperationDeploy ∧ jr_version j = "2.0.0" ∧ active j = true.
Proof.
  split; [exact s16_reached|]. split; [vm_compute; reflexivity|]. split; [vm_compute; reflexivity|]. split; [vm_compute; reflexivity|].
  exists (default demo.job (jobs (bt_queue (stored (serve never never no_code time_of queued_by Submit lost_read).2)) !! uuid "d3")).
  split_and!; vm_compute; reflexivity.
Qed.
End scenario.
