(* ===== verification/SemverProofs.v ===== *)
(** * Versions and artifact names (theorems about Semver.v)

    The comparison of versions as texts is the precedence of their meaning,
    which the first section specifies, and an artifact's name determines prefix
    and version. *)
From S2P Require Import Prelude GoIO GoString Encoding Semver.

(** ** Precedence of semantic versions (specification of Semver.v)

    The order of Semantic Versioning 2.0.0, section 11, on the meaning of a
    version: numbers are compared as numbers, words byte by byte, a number is
    below a word, a shorter list of identifiers below a longer one it starts, and
    a pre-release below its release. *)

(** ** Comparisons that are total orders *)
Class TotalOrder {A} (cmp : A → A → comparison) : Prop := {
  to_refl a : cmp a a = Eq;
  to_eq a b : cmp a b = Eq → a = b;
  to_sym a b : cmp b a = CompOpp (cmp a b);
  to_trans a b c : cmp a b = Lt → cmp b c = Lt → cmp a c = Lt
}.

#[export] Instance Z_total : TotalOrder Z.compare.
Proof.
  split; [apply Z.compare_refl|apply Z.compare_eq|apply Z.compare_antisym|]. intros a b c. rewrite !Z.compare_lt_iff. lia.
Qed.

(** The first that decides. *)
Definition andthen (c d : comparison) : comparison := match c with Eq => d | _ => c end.

Fixpoint lex {A} (cmp : A → A → comparison) (l k : list A) : comparison :=
  match l, k with
  | [], [] => Eq
  | [], _ => Lt
  | _, [] => Gt
  | a :: l, b :: k => andthen (cmp a b) (lex cmp l k)
  end.

Lemma gt_lt {A} (cmp : A → A → comparison) `{!TotalOrder cmp} a b : cmp a b = Gt ↔ cmp b a = Lt.
Proof. rewrite (to_sym b a). destruct (cmp b a); naive_solver. Qed.
Lemma andthen_lt {A} (cmp : A → A → comparison) `{!TotalOrder cmp} a b d : andthen (cmp a b) d = Lt ↔ cmp a b = Lt ∨ a = b ∧ d = Lt.
Proof.
  destruct (cmp a b) eqn:E; simpl; [apply to_eq in E; naive_solver|naive_solver|]. split; [done|]. intros [|[-> _]]; [done|]. by rewrite to_refl in E.
Qed.

#[export] Instance lex_total {A} (cmp : A → A → comparison) : TotalOrder cmp → TotalOrder (lex cmp).
Proof.
  intros Ht. split.
  - intros l. induction l as [|a l IH]; simpl; [done|]. by rewrite to_refl.
  - intros l. induction l as [|a l IH]; intros [|b k]; simpl; try done. destruct (cmp a b) eqn:E; simpl; try done.
    intros Hl. apply to_eq in E as ->. by rewrite (IH k).
  - intros l. induction l as [|a l IH]; intros [|b k]; simpl; try done. rewrite (to_sym a b), IH. by destruct (cmp a b).
  - intros l. induction l as [|a l IH]; intros [|b k] [|c m]; simpl; try done. rewrite !andthen_lt by done.
    intros [H1|[-> H1]] [H2|[-> H2]]; [left; by eapply to_trans|by left|by left|right; split; [done|by eapply IH]].
Qed.

(** ** Versions *)
Definition byte_compare (a b : ascii) : comparison := byte a ?= byte b.
#[export] Instance byte_total : TotalOrder byte_compare.
Proof.
  unfold byte_compare. split.
  - intros a. apply Z.compare_refl.
  - intros a b H%Z.compare_eq. unfold byte in H. rewrite <- (Strings.Ascii.ascii_N_embedding a), <- (Strings.Ascii.ascii_N_embedding b).
    f_equal. lia.
  - intros a b. apply Z.compare_antisym.
  - intros a b c. rewrite !Z.compare_lt_iff. lia.
Qed.

Inductive identifier := Number (n : Z) | Word (w : list ascii).
Definition identifier_compare (a b : identifier) : comparison :=
  match a, b with
  | Number m, Number n => m ?= n
  | Number _, Word _ => Lt
  | Word _, Number _ => Gt
  | Word v, Word w => lex byte_compare v w
  end.
#[export] Instance identifier_total : TotalOrder identifier_compare.
Proof.
  split.
  - intros [n|w]; simpl; [apply Z.compare_refl|apply (to_refl (cmp := lex byte_compare))].
  - intros [m|v] [n|w]; simpl; try done; intros E; f_equal; [by apply Z.compare_eq|by apply (to_eq (cmp := lex byte_compare))].
  - intros [m|v] [n|w]; simpl; try done; [apply Z.compare_antisym|apply (to_sym (cmp := lex byte_compare))].
  - intros [m|v] [n|w] [o|u]; simpl; try done; [apply (to_trans (cmp := Z.compare))|apply (to_trans (cmp := lex byte_compare))].
Qed.

(** A release is above its pre-releases. *)
Definition pre_compare (p q : list identifier) : comparison :=
  match p, q with
  | [], [] => Eq
  | [], _ => Gt
  | _, [] => Lt
  | _, _ => lex identifier_compare p q
  end.
#[export] Instance pre_total : TotalOrder pre_compare.
Proof.
  split.
  - intros [|a l]; [done|]. apply (to_refl (cmp := lex identifier_compare)).
  - intros [|a l] [|b k]; try done. apply (to_eq (cmp := lex identifier_compare)).
  - intros [|a l] [|b k]; try done. apply (to_sym (cmp := lex identifier_compare)).
  - intros [|a l] [|b k] [|c m]; try done. apply (to_trans (cmp := lex identifier_compare)).
Qed.

Record precedence := Precedence { core : list Z; pre : list identifier }.
Definition precedes (a b : precedence) : comparison := andthen (lex Z.compare (core a) (core b)) (pre_compare (pre a) (pre b)).
#[export] Instance precedes_total : TotalOrder precedes.
Proof.
  unfold precedes. split.
  - intros a. by rewrite !to_refl.
  - intros [a p] [b q]. simpl. destruct (lex _ a b) eqn:E; simpl; try done. intros Hp. apply (to_eq (cmp := lex Z.compare)) in E as ->.
    by rewrite (to_eq (cmp := pre_compare) p q).
  - intros [a p] [b q]. simpl. rewrite (to_sym (cmp := lex Z.compare) a b), (to_sym (cmp := pre_compare) p q). by destruct (lex _ a b).
  - intros [a p] [b q] [c r]. simpl. rewrite !andthen_lt by apply _.
    intros [H1|[-> H1]] [H2|[-> H2]]; [left; by eapply to_trans|by left|by left|right; split; [done|by eapply to_trans]].
Qed.

(** ** Comparison results *)
Definition sign (c : comparison) : Z := match c with Lt => -1 | Eq => 0 | Gt => 1 end.
Lemma sign_zero c : sign c = 0 ↔ c = Eq.
Proof. by destruct c. Qed.

Lemma bytes_le_lex s t : bytes_le s t = negb (bool_decide (lex byte_compare s t = Gt)).
Proof.
  revert t. induction s as [|a s IH]; intros [|b t]; simpl; try done. rewrite IH. unfold byte_compare.
  destruct (Z.compare_spec (byte a) (byte b)) as [E|E|E]; simpl.
  - rewrite E, Z.ltb_irrefl, Z.eqb_refl. done.
  - by rewrite (proj2 (Z.ltb_lt _ _) E).
  - rewrite (proj2 (Z.ltb_ge _ _)), (proj2 (Z.eqb_neq _ _)) by lia. done.
Qed.
Lemma string_compare_lex s t : string_compare s t = sign (lex byte_compare (chars s) (chars t)).
Proof.
  unfold string_compare. case_bool_decide as E; [subst; by rewrite (to_refl (cmp := lex byte_compare))|].
  rewrite bytes_le_lex. destruct (lex byte_compare (chars s) (chars t)) eqn:Hl; simpl; try done.
  apply (to_eq (cmp := lex byte_compare)) in Hl. by apply chars_inj in Hl.
Qed.

(** ** Numbers without leading zeros *)
Definition canonical (l : list ascii) : Prop :=
  Forall (λ c, digit c = true) l ∧ ∃ c k, l = c :: k ∧ (k = [] ∨ 49 ≤ byte c).

Lemma digit_range c : digit c = true → 48 ≤ byte c ≤ 57.
Proof. unfold digit, byte_in. rewrite andb_true_iff, !Z.leb_le. done. Qed.

Lemma digits_bound z l : Forall (λ c, digit c = true) l →
  z * 10 ^ Z.of_nat (length l) ≤ foldl (λ z c, 10 * z + (byte c - 48)) z l < (z + 1) * 10 ^ Z.of_nat (length l).
Proof.
  intros Hl. revert z. induction Hl as [|c l Hc%digit_range _ IH]; intros z; simpl; [lia|].
  specialize (IH (10 * z + (byte c - 48))). rewrite Nat2Z.inj_succ, Z.pow_succ_r by lia.
  assert (0 < 10 ^ Z.of_nat (length l)) by (apply Z.pow_pos_nonneg; lia). nia.
Qed.
Lemma digits_lex z1 z2 l k :
  length l = length k → Forall (λ c, digit c = true) l → Forall (λ c, digit c = true) k →
  (foldl (λ z c, 10 * z + (byte c - 48)) z1 l ?= foldl (λ z c, 10 * z + (byte c - 48)) z2 k) = andthen (z1 ?= z2) (lex byte_compare l k).
Proof.
  revert z1 z2 k. induction l as [|a l IH]; intros z1 z2 [|b k] Hlen Hl Hk; simpl in *; try done; [by destruct (z1 ?= z2)|].
  apply Forall_cons in Hl as [Ha%digit_range Hl]. apply Forall_cons in Hk as [Hb%digit_range Hk]. rewrite IH by auto.
  unfold byte_compare. destruct (Z.compare_spec z1 z2) as [->|E|E]; simpl.
  - f_equal. destruct (Z.compare_spec (byte a) (byte b)) as [E|E|E]; [rewrite E; apply Z.compare_refl|apply Z.compare_lt_iff; lia|apply Z.compare_gt_iff; lia].
  - assert ((10 * z1 + (byte a - 48) ?= 10 * z2 + (byte b - 48)) = Lt) as -> by (apply Z.compare_lt_iff; lia). done.
  - assert ((10 * z1 + (byte a - 48) ?= 10 * z2 + (byte b - 48)) = Gt) as -> by (apply Z.compare_gt_iff; lia). done.
Qed.

Lemma shorter_smaller l k : canonical l → canonical k → (length l < length k)%nat → digits_value l < digits_value k.
Proof.
  intros [Hl (d & l' & El & _)] [Hk (c & m & -> & Hc)] Hlen. unfold digits_value. pose proof (digits_bound 0 l Hl) as [_ H1].
  apply Forall_cons in Hk as [Hd%digit_range Hm]. simpl in *. destruct Hc as [->|Hc]; [subst l; simpl in Hlen; lia|].
  pose proof (digits_bound (byte c - 48) m Hm) as [H2 _]. rewrite Z.add_0_l in H1 by lia.
  assert (10 ^ Z.of_nat (length l) ≤ 10 ^ Z.of_nat (length m)) by (apply Z.pow_le_mono_r; lia).
  assert (0 < 10 ^ Z.of_nat (length m)) by (apply Z.pow_pos_nonneg; lia). simpl in *.
  replace (10 * 0 + (byte c - 48)) with (byte c - 48) by lia. nia.
Qed.

Lemma numeric_compare s t :
  canonical (chars s) → canonical (chars t) →
  compareNumericIdentifier s t = sign (digits_value (chars s) ?= digits_value (chars t)).
Proof.
  intros Hs Ht. unfold compareNumericIdentifier. rewrite !slen_chars.
  destruct (Z.ltb_spec (Z.of_nat (length (chars s))) (Z.of_nat (length (chars t)))) as [Hlt|Hge].
  { assert ((digits_value (chars s) ?= digits_value (chars t)) = Lt) as -> by (apply Z.compare_lt_iff, shorter_smaller; [done..|lia]). done. }
  destruct (Z.ltb_spec (Z.of_nat (length (chars t))) (Z.of_nat (length (chars s)))) as [Hlt|Hge'].
  { assert ((digits_value (chars s) ?= digits_value (chars t)) = Gt) as -> by (apply Z.compare_gt_iff, shorter_smaller; [done..|lia]). done. }
  rewrite string_compare_lex. unfold digits_value. rewrite digits_lex; [done|lia|apply Hs|apply Ht].
Qed.

Lemma canonical_inj l k : canonical l → canonical k → digits_value l = digits_value k → l = k.
Proof.
  intros Hl Hk E. destruct (lt_eq_lt_dec (length l) (length k)) as [[Hlt|Heq]|Hlt].
  - pose proof (shorter_smaller _ _ Hl Hk Hlt). lia.
  - pose proof (digits_lex 0 0 l k Heq (proj1 Hl) (proj1 Hk)) as Hd. unfold digits_value in E. rewrite E, Z.compare_refl in Hd. simpl in Hd.
    by apply (to_eq (cmp := lex byte_compare)).
  - pose proof (shorter_smaller _ _ Hk Hl Hlt). lia.
Qed.

(** ** What the regular expressions accept *)
Lemma class_one p l : matches (Class p) l → ∃ c, l = [c] ∧ p c = true.
Proof. inversion 1; subst; eauto. Qed.
Lemma cat_split a b l : matches (Cat a b) l → ∃ x y, l = x ++ y ∧ matches a x ∧ matches b y.
Proof. inversion 1; subst; eauto. Qed.
Lemma alt_split a b l : matches (Alt a b) l → matches a l ∨ matches b l.
Proof. inversion 1; subst; auto. Qed.
Lemma eps_nil l : matches Eps l → l = [].
Proof. by inversion 1. Qed.
Lemma char_one c l : matches (is_c c) l → l = [c].
Proof. intros (d & -> & Hd)%class_one. apply bool_decide_eq_true in Hd. by subst. Qed.
Lemma star_class p l : matches (Star (Class p)) l → Forall (λ c, p c = true) l.
Proof. intros H%matches_alphabet. exact H. Qed.

Lemma numeric_canonical l : matches numeric_re l → canonical l.
Proof.
  intros [->%char_one|(x & y & -> & (c & -> & Hc)%class_one & Hy%star_class)%cat_split]%alt_split.
  - split; [by repeat constructor|]. exists "0"%char, []. auto.
  - apply andb_true_iff in Hc as [H1%Z.leb_le H2%Z.leb_le]. split.
    + apply Forall_app. split; [|done]. constructor; [|constructor]. unfold digit, byte_in. rewrite andb_true_iff, !Z.leb_le. lia.
    + exists c, y. auto.
Qed.

(** ** Cutting at a byte *)
Lemma cut_at c l k : c ∉ l → cut c (l ++ c :: k) = (l, k).
Proof.
  induction l as [|d l IH]; simpl; unfold is_char; intros Hc.
  - by rewrite bool_decide_true.
  - apply not_elem_of_cons in Hc as [Hd Hc]. rewrite bool_decide_false by done. by rewrite IH.
Qed.
Lemma cut_none c l : c ∉ l → cut c l = (l, []).
Proof.
  induction l as [|d l IH]; simpl; unfold is_char; intros Hc; [done|].
  apply not_elem_of_cons in Hc as [Hd Hc]. rewrite bool_decide_false by done. by rewrite IH.
Qed.
Lemma digits_free c l : digit c = false → Forall (λ c, digit c = true) l → c ∉ l.
Proof. intros Hc Hl Hin. rewrite Forall_forall in Hl. apply Hl in Hin. congruence. Qed.

(** ** Parsed versions *)
Definition tail (pre : list ascii) : list ascii := match pre with [] => [] | _ => "-"%char :: pre end.
Lemma sem_split v :
  match_string semVersionPattern v = true →
  ∃ a b c pre, chars v = a ++ "."%char :: b ++ "."%char :: c ++ tail pre ∧ canonical a ∧ canonical b ∧ canonical c
    ∧ (pre = [] ∨ matches pre_re pre).
Proof.
  intros (core & rest & Hv & Hcore & Hrest)%match_string_ok%cat_split.
  apply cat_split in Hcore as (a & x & -> & Ha & (? & y & -> & ->%char_one & (b & z & -> & Hb & (? & c & -> & ->%char_one & Hc)%cat_split)%cat_split)%cat_split).
  assert (∃ pre, rest = tail pre ∧ (pre = [] ∨ matches pre_re pre)) as (pre & -> & Hpre).
  { apply alt_split in Hrest as [->%eps_nil|(? & pre & -> & ->%char_one & Hp)%cat_split]; [exists []; auto|]. exists pre. split; [|by right].
    destruct pre; [|done]. apply cat_split in Hp as ([|] & ? & E & (? & ? & Ew & (? & -> & _)%class_one & _)%cat_split & _); simplify_list_eq. }
  exists a, b, c, pre. split; [rewrite Hv; by rewrite <- !app_assoc|]. auto using numeric_canonical.
Qed.

(** The identifiers of a pre-release are not empty. *)
Lemma ident_shape w : matches pre_ident_re w → w ≠ [] ∧ "."%char ∉ w.
Proof.
  intros Hw. split.
  - apply cat_split in Hw as (? & ? & -> & (c & -> & _)%class_one & _). done.
  - apply matches_alphabet in Hw. rewrite Forall_forall in Hw. intros Hin%Hw. done.
Qed.
Lemma free_chars c l : c ∉ l → free_of c (of_chars l).
Proof.
  intros Hc. unfold free_of. destruct (contains_byte c (of_chars l)) eqn:E; [|done]. apply contains_byte_chars in E. by rewrite chars_of_chars in E.
Qed.
Lemma of_chars_nil l : of_chars l = "" → l = [].
Proof. intros E. apply (f_equal chars) in E. by rewrite chars_of_chars in E. Qed.
Lemma idents_star w rest :
  matches (Star (Cat (is_c "."%char) pre_ident_re)) rest → w ≠ [] → "."%char ∉ w → Forall (λ s, s ≠ "") (split_byte "."%char (of_chars (w ++ rest))).
Proof.
  intros Hm. remember (Star _) as r eqn:Er. revert w. induction Hm as [| | | | |a|a l k Hl _ _ IH]; intros w Hw Hd; try discriminate Er; injection Er as ->.
  - rewrite app_nil_r, split_byte_single by by apply free_chars. constructor; [|constructor]. by intros ?%of_chars_nil.
  - apply cat_split in Hl as (? & w' & -> & ->%char_one & [Hw' Hd']%ident_shape). rewrite <- app_assoc, of_chars_app. simpl.
    rewrite split_byte_app by by apply free_chars. constructor; [by intros ?%of_chars_nil|]. by apply IH.
Qed.
Lemma idents_nonempty pre : matches pre_re pre → Forall (λ s, s ≠ "") (split_byte "."%char (of_chars pre)).
Proof. intros (w & rest & -> & [Hw Hd]%ident_shape & Hr)%cat_split. by apply idents_star. Qed.

(** A numeric identifier has no leading zero. *)
Definition ident_ok (i : semVersionIdentifier) : Prop :=
  numeric i = forallb digit (chars (value i)) ∧ (numeric i = true → canonical (chars (value i))).
Lemma parse_identifiers_ok l ids :
  parse_identifiers l = Ok ids → Forall (λ s, s ≠ "") l → value <$> ids = l ∧ Forall ident_ok ids.
Proof.
  revert ids. induction l as [|v l IH]; intros ids Hp Hl; simpl in Hp; [injection Hp as <-; by split|].
  inv_ok Hp. apply Forall_cons in Hl as [Hv Hl].
  match goal with E : parse_identifiers l = Ok ?x |- _ => destruct (IH _ E Hl) as [IH1 IH2] end.
  split; [by simpl; rewrite IH1|]. constructor; [|done]. split; [done|]. simpl. intros Hn.
  assert (Forall (λ c, digit c = true) (chars v)) as Hd.
  { apply Forall_forall. intros c Hc. by eapply forallb_forall, list_elem_of_In. }
  split; [done|]. destruct v as [|c v]; [done|]. exists c, (chars v). split; [done|]. apply Forall_cons in Hd as [Hc%digit_range _].
  rewrite Hn, andb_true_l in Hok. apply andb_false_iff in Hok as [Hs|Hz].
  - left. rewrite slen_cons in Hs. apply Z.ltb_ge in Hs. pose proof (slen_nonneg v). destruct v as [|d v]; [reflexivity|]. rewrite slen_cons in Hs. pose proof (slen_nonneg v). lia.
  - right. destruct (decide (c = "0"%char)) as [->|Hne]; [exfalso; simpl in Hz; by destruct v|]. assert (byte c ≠ 48); [|lia]. intros E. apply Hne.
    rewrite <- (zbyte_byte c), E. done.
Qed.

Lemma numeric_dotless l : canonical l → "."%char ∉ l ∧ "-"%char ∉ l.
Proof. intros [Hl _]. by split; apply digits_free. Qed.

(** The text of a parsed version. *)
Definition print_pre (ids : list semVersionIdentifier) : string :=
  match ids with [] => "" | _ => String "-" (join "." (value <$> ids)) end.
Definition print (p : semVersion) : string := major p +:+ String "." (minor p +:+ String "." (patch p +:+ print_pre (prerelease p))).
Record version_ok (p : semVersion) : Prop := {
  vo_major : canonical (chars (major p)); vo_minor : canonical (chars (minor p)); vo_patch : canonical (chars (patch p));
  vo_pre : Forall ident_ok (prerelease p)
}.

Lemma parse_ok v p : parseSemVersion v = Ok p → print p = v ∧ version_ok p.
Proof.
  intros Hp. unfold parseSemVersion in Hp. apply bind_ok in Hp as (? & Hok%fail_if_ok & Hp). apply negb_false_iff in Hok.
  destruct (sem_split _ Hok) as (a & b & c & pre & Hv & Ha & Hb & Hc & Hpre).
  pose proof (numeric_dotless _ Ha) as [Ha1 _]. pose proof (numeric_dotless _ Hb) as [Hb1 _]. pose proof (numeric_dotless _ Hc) as [_ Hc1].
  rewrite Hv, cut_at in Hp by done. cbv beta iota in Hp. rewrite cut_at in Hp by done. cbv beta iota in Hp.
  assert (cut "-"%char (c ++ tail pre) = (c, pre)) as Hcut.
  { destruct pre; simpl; [by rewrite app_nil_r, cut_none|by rewrite cut_at]. }
  rewrite Hcut in Hp. inv_ok Hp. rename x0 into ids.
  assert (print_pre ids = of_chars (tail pre) ∧ Forall ident_ok ids) as [Htext Hids].
  { case_bool_decide as Hn; [subst; inv_ok Hok0; by subst|].
    destruct Hpre as [->|Hpre]; [done|]. destruct (parse_identifiers_ok _ _ Hok0 (idents_nonempty _ Hpre)) as [E Hi]. split; [|done].
    unfold print_pre. destruct ids as [|i ids]; [simpl in E; by destruct (split_byte_not_nil "."%char (of_chars pre))|].
    rewrite E, split_join. by destruct pre. }
  split; [|by constructor; simpl; rewrite ?chars_of_chars].
  unfold print. simpl. rewrite Htext. apply chars_inj. rewrite Hv.
  repeat (rewrite chars_app || rewrite chars_of_chars || (simpl; f_equal)); done.
Qed.

(** ** The meaning of a parsed version *)
Definition ident (i : semVersionIdentifier) : identifier :=
  if numeric i then Number (digits_value (chars (value i))) else Word (chars (value i)).
Definition meaning (p : semVersion) : precedence :=
  Precedence (digits_value ∘ chars <$> [major p; minor p; patch p]) (ident <$> prerelease p).

Lemma compare_ident i j : ident_ok i → ident_ok j → compare_identifier i j = sign (identifier_compare (ident i) (ident j)).
Proof.
  intros [_ Hi] [_ Hj]. unfold compare_identifier, ident. destruct (numeric i), (numeric j); try done.
  - apply numeric_compare; auto.
  - apply string_compare_lex.
Qed.
Lemma compare_idents p q :
  Forall ident_ok p → Forall ident_ok q →
  match first_difference (zip_with compare_identifier p q) with
  | Some c => c
  | None => if (length p <? length q)%nat then -1 else if (length q <? length p)%nat then 1 else 0
  end = sign (lex identifier_compare (ident <$> p) (ident <$> q)).
Proof.
  intros Hp. revert q. induction Hp as [|i p Hi _ IH]; intros q Hq; destruct Hq as [|j q Hj Hq]; try done.
  simpl. rewrite compare_ident by done. specialize (IH q Hq). destruct (identifier_compare (ident i) (ident j)); [exact IH|done|done].
Qed.
Lemma compare_parsed_sign l r : version_ok l → version_ok r → compare_parsed l r = sign (precedes (meaning l) (meaning r)).
Proof.
  intros [l1 l2 l3 l4] [r1 r2 r3 r4]. unfold compare_parsed, precedes. simpl. rewrite !numeric_compare by done.
  destruct (_ ?= _); [|done|done]. destruct (_ ?= _); [|done|done]. destruct (_ ?= _); [simpl|done|done].
  pose proof (compare_idents _ _ l4 r4) as Hc. destruct (prerelease l), (prerelease r); done.
Qed.

Lemma ident_inj i j : ident_ok i → ident_ok j → ident i = ident j → value i = value j.
Proof.
  intros [_ Hi] [_ Hj]. unfold ident. destruct (numeric i), (numeric j); intros [= E]; apply chars_inj; [|done]. apply canonical_inj; auto.
Qed.
Lemma idents_inj p q : Forall ident_ok p → Forall ident_ok q → ident <$> p = ident <$> q → value <$> p = value <$> q.
Proof.
  intros Hp. revert q. induction Hp as [|i p Hi _ IH]; intros q Hq; destruct Hq as [|j q Hj Hq]; simpl; try done.
  intros [= E1 E2]. f_equal; [by apply ident_inj|by apply IH].
Qed.
Lemma meaning_inj p q : version_ok p → version_ok q → meaning p = meaning q → print p = print q.
Proof.
  intros [p1 p2 p3 p4] [q1 q2 q3 q4] [= E1 E2 E3 E4]. apply idents_inj in E4; [|done..].
  assert (print_pre (prerelease p) = print_pre (prerelease q)) as Hpre.
  { unfold print_pre. rewrite E4. destruct (prerelease p), (prerelease q); done. }
  assert (major p = major q ∧ minor p = minor q ∧ patch p = patch q) as (Ea & Eb & Ec).
  { split_and!; by apply chars_inj, canonical_inj. }
  unfold print. by rewrite Ea, Eb, Ec, Hpre.
Qed.

(** ** Theorems *)
(** C26: the comparison of two versions the parser accepts, done on texts, is the precedence of Semantic Versioning on their
    numbers and words; it is zero for equal texts only. *)
Theorem compare_is_precedence v w p q :
  parseSemVersion v = Ok p → parseSemVersion w = Ok q →
  compareSemVersions v w = Ok (sign (precedes (meaning p) (meaning q))) ∧ (compareSemVersions v w = Ok 0 ↔ v = w).
Proof.
  intros Hp Hq. pose proof (parse_ok _ _ Hp) as [Ev Vp]. pose proof (parse_ok _ _ Hq) as [Ew Vq].
  assert (compareSemVersions v w = Ok (sign (precedes (meaning p) (meaning q)))) as Hc.
  { unfold compareSemVersions. rewrite Hp, Hq. simpl. by rewrite compare_parsed_sign. }
  split; [done|]. rewrite Hc. split.
  - intros [= Hs%sign_zero%to_eq]. rewrite <- Ev, <- Ew. by apply meaning_inj.
  - intros ->. assert (p = q) as -> by congruence. by rewrite to_refl.
Qed.
Lemma compare_is_precedence_witness :
  compareSemVersions "1.10.0-rc.2" "1.10.0-rc.10" = Ok (-1) ∧ (compareSemVersions "1.2.3" "1.2.3" = Ok 0 ↔ "1.2.3" = "1.2.3").
Proof.
  split.
  - exact (proj1 (compare_is_precedence "1.10.0-rc.2" "1.10.0-rc.10"
      {| major := "1"; minor := "10"; patch := "0"; prerelease := [{| value := "rc"; numeric := false |}; {| value := "2"; numeric := true |}] |}
      {| major := "1"; minor := "10"; patch := "0"; prerelease := [{| value := "rc"; numeric := false |}; {| value := "10"; numeric := true |}] |}
      eq_refl eq_refl)).
  - exact (proj2 (compare_is_precedence "1.2.3" "1.2.3" {| major := "1"; minor := "2"; patch := "3"; prerelease := [] |}
      {| major := "1"; minor := "2"; patch := "3"; prerelease := [] |} eq_refl eq_refl)).
Defined.

(** A version accepted for Quick Deploy over the one deployed. *)
Definition upgrade (current next : string) : Prop := validateQuickUpgrade (Some current) next = None.
Lemma upgrade_parses v w : upgrade v w → ∃ p q, parseSemVersion v = Ok p ∧ parseSemVersion w = Ok q ∧ precedes (meaning p) (meaning q) = Lt.
Proof.
  unfold upgrade, validateQuickUpgrade, compareSemVersions. destruct (parseSemVersion v) as [p|] eqn:Hp; [|done].
  destruct (parseSemVersion w) as [q|] eqn:Hq; [|done]. simpl. pose proof (parse_ok _ _ Hp) as [_ Vp]. pose proof (parse_ok _ _ Hq) as [_ Vq].
  rewrite compare_parsed_sign by done. intros Hu. exists p, q. split_and!; [done..|]. rewrite (to_sym (cmp := precedes) (meaning q)).
  by destruct (precedes (meaning q) (meaning p)).
Qed.
(** Along any sequence of Quick Deploys over a target (each version accepted over the one before) the versions strictly
    increase in precedence: an earlier version is never accepted again, and never equal to a later one. *)
Lemma quick_upgrades_increase v w :
  tc upgrade v w → v ≠ w ∧ ¬ upgrade w v ∧
  ∃ p q, parseSemVersion v = Ok p ∧ parseSemVersion w = Ok q ∧ precedes (meaning p) (meaning q) = Lt.
Proof.
  intros Hs. assert (∃ p q, parseSemVersion v = Ok p ∧ parseSemVersion w = Ok q ∧ precedes (meaning p) (meaning q) = Lt) as Hl.
  { induction Hs as [v w Hu|u v w Hu _ (q & r & Hq & Hr & Hl)]; [by apply upgrade_parses|].
    destruct (upgrade_parses _ _ Hu) as (p & q' & Hp & Hq' & Hl'). rewrite Hq in Hq'. injection Hq' as <-.
    exists p, r. split_and!; [done..|]. by eapply to_trans. }
  destruct Hl as (p & q & Hp & Hq & Hl). split_and!; [| |by exists p, q].
  - intros ->. rewrite Hp in Hq. injection Hq as <-. by rewrite to_refl in Hl.
  - intros (q' & p' & Hq' & Hp' & Hl')%upgrade_parses. assert (q' = q ∧ p' = p) as [-> ->] by (split; congruence).
    rewrite (to_sym (cmp := precedes)), Hl in Hl'. done.
Qed.

(** ** Names of artifacts *)
Definition artifact_name (prefix version : string) : string := prefix +:+ String "-" (String "v" (version +:+ ".tar.gz")).

Lemma has_suffix_app s t : has_suffix (s +:+ t) t = true.
Proof. apply bool_decide_eq_true. rewrite chars_app. by exists (chars s). Qed.
Lemma chars_cons c s : chars (String c s) = c :: chars s.
Proof. done. Qed.
Lemma trim_suffix_app s t : trim_suffix (s +:+ t) t = s.
Proof.
  unfold trim_suffix, take_str. rewrite has_suffix_app, <- !length_chars, chars_app, length_app.
  apply chars_inj. rewrite chars_of_chars, take_app_length'; [done|lia].
Qed.
Lemma has_suffix_spec s t : has_suffix s t = true → s = trim_suffix s t +:+ t.
Proof.
  intros Hs. pose proof Hs as [k Hk]%bool_decide_eq_true. assert (s = of_chars k +:+ t) as ->.
  { apply chars_inj. by rewrite chars_app, chars_of_chars. }
  by rewrite trim_suffix_app.
Qed.

(** Plain names: one byte above the space and below 128 per code point. *)
Definition plain (c : ascii) : bool := (33 <=? byte c) && (byte c <? 128).
Lemma runes_plain l : forallb plain l = true → runes_loop (length l) l = (λ c, (byte c, [c])) <$> l.
Proof.
  induction l as [|c l IH]; simpl; [done|]. intros [Hc Hl]%andb_true_iff. apply andb_true_iff in Hc as [_ Hc]. rewrite Hc. simpl.
  by rewrite drop_0, IH.
Qed.
Lemma drop_while_none {A} (p : A → bool) l : Forall (λ x, p x = false) l → drop_while p l = l.
Proof. destruct 1 as [|x l Hx]; simpl; [done|]. by rewrite Hx. Qed.
Lemma trim_plain s : forallb plain (chars s) = true → trim_space s = s.
Proof.
  intros Hs. unfold trim_space, runes, drop_while_end. rewrite <- length_chars, runes_plain by done.
  assert (Forall (λ x : Z * list ascii, is_space x.1 = false) ((λ c, (byte c, [c])) <$> chars s)) as Hn.
  { rewrite Forall_fmap, Forall_forall. intros c Hc%list_elem_of_In. eapply forallb_forall in Hs; [|done].
    apply andb_true_iff in Hs as [H1%Z.leb_le H2%Z.ltb_lt]. unfold is_space. simpl. lia. }
  rewrite (drop_while_none _ ((λ c, (byte c, [c])) <$> chars s)) by done. rewrite drop_while_none by by rewrite Forall_reverse.
  rewrite reverse_involutive. apply chars_inj. rewrite chars_of_chars. clear. induction (chars s) as [|c l IH]; [done|]. simpl. f_equal. exact IH.
Qed.

(** Where a name may be split. *)
Definition splits (n : nat) (l : list ascii) : bool :=
  match_chars prefix_re (take n l) && bool_decide (take 2 (drop n l) = ["-"%char; "v"%char]) && match_chars semVersionPattern (drop 2 (drop n l)).
Lemma split_name_eq n l :
  split_name n l = if splits n l then Some (take n l, drop 2 (drop n l)) else match n with O => None | S n => split_name n l end.
Proof. by destruct n. Qed.
Lemma splits_ok n l :
  splits n l = true → l = take n l ++ "-"%char :: "v"%char :: drop 2 (drop n l)
    ∧ match_chars prefix_re (take n l) = true ∧ match_chars semVersionPattern (drop 2 (drop n l)) = true.
Proof.
  intros [[Hp H2]%andb_true_iff Hv]%andb_true_iff. apply bool_decide_eq_true in H2. split; [|done].
  rewrite <- (take_drop n l) at 1. f_equal. by rewrite <- (take_drop 2 (drop n l)) at 1; rewrite H2.
Qed.
Lemma split_name_sound n l p v :
  split_name n l = Some (p, v) → l = p ++ "-"%char :: "v"%char :: v ∧ match_chars prefix_re p = true ∧ match_chars semVersionPattern v = true.
Proof.
  induction n as [|n IH]; rewrite split_name_eq; (destruct (splits _ l) eqn:E; [|done || apply IH]); intros [= <- <-]; by apply splits_ok.
Qed.
(** The version holds no ["-v"]: the split is the only one. *)
Definition unambiguous (v : list ascii) : Prop := ∀ k, take 2 (drop k v) ≠ ["-"%char; "v"%char].
Lemma split_name_complete n p v :
  match_chars prefix_re p = true → match_chars semVersionPattern v = true → unambiguous v → (length p ≤ n)%nat →
  split_name n (p ++ "-"%char :: "v"%char :: v) = Some (p, v).
Proof.
  intros Hp Hv Hu Hn. induction Hn as [|n Hn IH]; rewrite split_name_eq.
  - unfold splits. rewrite take_app_length, drop_app_length. cbn [skipn firstn]. rewrite take_0, drop_0, Hp, Hv, bool_decide_true by done. done.
  - assert (splits (S n) (p ++ "-"%char :: "v"%char :: v) = false) as ->; [|exact IH].
    unfold splits. rewrite (bool_decide_false (take 2 _ = _)), andb_false_r; [done|].
    rewrite drop_app_ge by lia. destruct (S n - length p)%nat as [|[|k]] eqn:Ek; [lia|done|apply Hu].
Qed.

Definition plain_re_ok (r : regex) : Prop := ∀ c, alphabet r c = true → plain c = true.
Lemma match_plain r l : plain_re_ok r → match_chars r l = true → forallb plain l = true.
Proof.
  intros Hr Hm%match_chars_ok%matches_alphabet. apply forallb_forall. intros c Hc%list_elem_of_In. rewrite Forall_forall in Hm. auto.
Qed.
Lemma plain_all r : forallb (λ n, implb (alphabet r (zbyte (Z.of_nat n))) (plain (zbyte (Z.of_nat n)))) (seq 0 256) = true → plain_re_ok r.
Proof.
  intros H c Hc. rewrite forallb_forall in H. specialize (H (Z.to_nat (byte c))).
  assert (0 ≤ byte c < 256) as Hb by apply byte_range. rewrite Z2Nat.id in H by lia. rewrite zbyte_byte, Hc in H. apply H, in_seq. lia.
Qed.
Lemma prefix_plain : plain_re_ok prefix_re.
Proof. apply plain_all. by vm_compute. Qed.
Lemma semver_plain : plain_re_ok semVersionPattern.
Proof. apply plain_all. by vm_compute. Qed.

Lemma submatch_name prefix version :
  match_string prefix_re prefix = true → match_string semVersionPattern version = true → unambiguous (chars version) →
  quick_submatch (artifact_name prefix version) = Some (prefix, version).
Proof.
  intros Hp Hv Hu. unfold quick_submatch, artifact_name.
  replace (prefix +:+ String "-" (String "v" (version +:+ ".tar.gz"))) with ((prefix +:+ String "-" (String "v" version)) +:+ ".tar.gz")
    by by rewrite str_app_assoc.
  rewrite has_suffix_app, trim_suffix_app, chars_app, !chars_cons. rewrite split_name_complete by (done || (rewrite length_app; lia)). simpl.
  by rewrite !of_chars_chars.
Qed.
Lemma plain_app l k : forallb plain l = true → forallb plain k = true → forallb plain (l ++ k) = true.
Proof. rewrite forallb_app. by intros -> ->. Qed.
Lemma name_plain prefix version :
  match_string prefix_re prefix = true → match_string semVersionPattern version = true → trim_space (artifact_name prefix version) = artifact_name prefix version.
Proof.
  intros Hp%(match_plain _ _ prefix_plain) Hv%(match_plain _ _ semver_plain). apply trim_plain. unfold artifact_name.
  rewrite chars_app, !chars_cons, chars_app. apply plain_app; [done|]. exact (plain_app (chars version) (chars ".tar.gz") Hv eq_refl).
Qed.
Lemma parse_matches v p : parseSemVersion v = Ok p → match_string semVersionPattern v = true.
Proof. unfold parseSemVersion. intros (? & Hm%fail_if_ok & _)%bind_ok. by apply negb_false_iff in Hm. Qed.

(** The name of an artifact and its parts determine each other: the name built from a preset's prefix and a version whose
    text holds no ["-v"] parses back to both, and whatever name the parser accepts is the one built from the parts it gives. *)
Lemma artifact_names_roundtrip prefix version p :
  match_string prefix_re prefix = true → parseSemVersion version = Ok p → unambiguous (chars version) →
  slen version ≤ 128 → slen (artifact_name prefix version) ≤ 256 →
  parseQuickArtifactFilename (artifact_name prefix version)
    = Ok {| pq_Filename := artifact_name prefix version; pq_ArtifactPrefix := prefix; pq_Version := version |} ∧
  (∀ f a, parseQuickArtifactFilename f = Ok a →
    pq_Filename a = f ∧ f = artifact_name (pq_ArtifactPrefix a) (pq_Version a) ∧ match_string prefix_re (pq_ArtifactPrefix a) = true).
Proof.
  intros Hp Hv Hu Hl Hn. pose proof (parse_matches _ _ Hv) as Hm. split.
  - unfold parseQuickArtifactFilename. rewrite name_plain, submatch_name by done.
    rewrite bool_decide_false, (bool_decide_true (_ = _)) by (done || by destruct prefix).
    assert ((256 <? slen (artifact_name prefix version)) = false ∧ (128 <? slen version) = false) as [-> E] by lia.
    simpl. by rewrite E, Hv.
  - intros f a. unfold parseQuickArtifactFilename. intros (? & _ & Hf)%bind_ok. apply bind_ok in Hf as ([pre ver] & Hs%of_option_ok & Hf).
    apply bind_ok in Hf as (? & _ & Hf). apply bind_ok in Hf as (? & _ & [= <-]). simpl. unfold quick_submatch in Hs.
    destruct (has_suffix f ".tar.gz") eqn:Hx; [|done]. apply has_suffix_spec in Hx. set (g := trim_suffix f ".tar.gz") in *.
    destruct (split_name _ _) as [[pp vv]|] eqn:Hsp; [|done]. simpl in Hs. injection Hs as <- <-. apply split_name_sound in Hsp as (Hg & Hpp & _).
    split_and!; [done| |unfold match_string; by rewrite chars_of_chars]. rewrite Hx. unfold artifact_name. apply chars_inj.
    by rewrite chars_app, Hg, !chars_app, !chars_cons, chars_app, !chars_of_chars, <- app_assoc.
Qed.

(** The check of a preset's prefix tries it in a name, so it also accepts a
    prefix that continues as a version; the column's CHECK refuses it. *)
Example valid_prefix_wide : validArtifactPrefix "a-v1.0.0" = true ∧ match_string prefix_re "a-v1.0.0" = false.
Proof. split; vm_compute; reflexivity. Qed.
