(* ===== verification/LocalExec.v ===== *)
(** * Commands of simple mode (backend/internal/localexec/exec.go)

    The API process runs the commands an administrator has registered.  The
    guards are a copy of the Runner's (Command.v); the process is a parameter. *)
From S2P Require Import Prelude GoIO GoString GoPath OS Command.

(** 24 hours, in nanoseconds. *)
(* src: backend/internal/localexec/exec.go:33-33 MaxTimeout *)
Definition MaxTimeout : Z := 86400000000000.

(* src: backend/internal/localexec/exec.go:35-43 Spec *)
Record lx_Spec (W : Type) := {
  lx_Path : string; lx_Args : list string; lx_Dir : string; lx_Env : gmap string string; lx_Timeout : Z;
  lx_Stdout : writer W; lx_Stderr : writer W
}.
Arguments lx_Path {W}. Arguments lx_Args {W}. Arguments lx_Dir {W}. Arguments lx_Env {W}. Arguments lx_Timeout {W}.
Arguments lx_Stdout {W}. Arguments lx_Stderr {W}.

(* src: backend/internal/localexec/exec.go:45-49 Result *)
Record lx_Result := { lx_ExitCode : Z; lx_Duration : Z; lx_TimedOut : bool }.
Definition not_run : lx_Result := {| lx_ExitCode := -1; lx_Duration := 0; lx_TimedOut := false |}.

(** The text of the code is the Runner's. *)
(* src: backend/internal/localexec/exec.go:30-30 environmentName *)
Definition lx_environmentName : regex := environmentName.
(* src: backend/internal/localexec/exec.go:159-176 restrictedEnvironment *)
Definition lx_restrictedEnvironment (values : gmap string string) (order : list (string * string)) : result (list string) :=
  keys ← environment_keys order;
  Ok ((λ key, key +:+ "=" +:+ default "" (values !! key)) <$> sort_strings keys).

(* src: backend/internal/localexec/exec.go:87-94 ValidateArgs *)
Definition ValidateArgs (args : list string) : result unit :=
  result_iter (λ arg, fail_if (contains_byte NUL arg) (error_new "command arguments must not contain NUL")) args.

Definition clean_abs (p : string) : bool := is_abs p && bool_decide (clean p = p).

Section run.
Context {W : Type} (stat_path lstat_path : string → M W node).

(* src: backend/internal/localexec/exec.go:54-66 ValidateCommandPath *)
Definition ValidateCommandPath (path : string) : M W unit :=
  _ ← lift (fail_if (negb (clean_abs path)) (error_new "command path must be an absolute, cleaned path"));
  info ← wrapM (wrap "inspect command: %w") (stat_path path);
  lift (fail_if (negb (is_regular info) || (Z.land (n_perm info) 73 =? 0)) (error_new "command path must be an executable regular file")).

(* src: backend/internal/localexec/exec.go:69-84 ValidateDir *)
Definition ValidateDir (dir : string) : M W unit :=
  _ ← lift (fail_if (negb (clean_abs dir)) (error_new "working directory must be an absolute, cleaned path"));
  info ← wrapM (wrap "inspect working directory: %w") (lstat_path dir);
  _ ← lift (fail_if (is_symlink info) (error_new "working directory must not be a symbolic link"));
  lift (fail_if (negb (is_dir info)) (error_new "working directory must be a directory")).

(** What [cmd.Run] does with the prepared command and its environment, and how
    long it takes; the order in which Go visits a map. *)
Context (process : lx_Spec W → list string → W → (process_end * Z) * W) (range : gmap string string → list (string * string)).

(** The environment of the command, when its guards let it start. *)
Definition lx_prepare (spec : lx_Spec W) : M W (list string) :=
  _ ← ValidateCommandPath (lx_Path spec);
  _ ← ValidateDir (lx_Dir spec);
  _ ← lift (ValidateArgs (lx_Args spec));
  _ ← lift (fail_if ((lx_Timeout spec <=? 0) || (MaxTimeout <? lx_Timeout spec))
        (Errorf "command timeout must be between 1s and %s" [FInt MaxTimeout]));
  lift (lx_restrictedEnvironment (lx_Env spec) (range (lx_Env spec))).

Definition lx_outcome (spec : lx_Spec W) (ending : process_end) (duration : Z) : lx_Result * option goerr :=
  let result code timed := {| lx_ExitCode := code; lx_Duration := duration; lx_TimedOut := timed |} in
  match ending with
  | Finished => (result 0 false, None)
  | TimedOut code => (result (exit_code_of code) true, Some (Errorf "command exceeded timeout %s" [FInt (lx_Timeout spec)]))
  | Cancelled code => (result (exit_code_of code) false, Some (Sentinel Canceled))
  | Failed code e => (result (exit_code_of code) false, Some (Wrapf "command exited with code %d: %w" [FInt (exit_code_of code)] e))
  end.

(* src: backend/internal/localexec/exec.go:99-157 Run *)
Definition lx_Run (spec : lx_Spec W) (w : W) : (lx_Result * option goerr) * W :=
  match lx_prepare spec w with
  | (Err e, w) => ((not_run, Some e), w)
  | (Ok environment, w) =>
      let '((ending, duration), w) := process spec environment w in
      (lx_outcome spec ending duration, w)
  end.
End run.

(** ** The guards follow the Runner's *)
Section mirror.
Context {W : Type} (stat_path lstat_path : string → M W node) (range : gmap string string → list (string * string)).

Definition as_runner (spec : lx_Spec W) : Spec W := {|
  Path := lx_Path spec; Args := lx_Args spec; Dir := lx_Dir spec; Env := lx_Env spec; Stdin := []; Timeout := lx_Timeout spec;
  Stdout := Some (lx_Stdout spec); Stderr := Some (lx_Stderr spec); Isolated := false |}.
(** Simple mode also notes whether the time ran out. *)
Definition as_return (r : lx_Result * option goerr) : run_return :=
  ({| ExitCode := lx_ExitCode r.1; Duration := lx_Duration r.1 |}, r.2).

(** What the guards establish: [w1] is the world after the look at the command. *)
Definition guarded (spec : lx_Spec W) (w w1 : W) : Prop :=
  clean_abs (lx_Path spec) = true ∧ clean_abs (lx_Dir spec) = true
  ∧ (∃ n, stat_path (lx_Path spec) w = (Ok n, w1) ∧ is_regular n = true ∧ Z.land (n_perm n) 73 ≠ 0)
  ∧ (∃ n w2, lstat_path (lx_Dir spec) w1 = (Ok n, w2) ∧ is_dir n = true)
  ∧ Forall (λ a, contains_byte NUL a = false) (lx_Args spec)
  ∧ 0 < lx_Timeout spec ≤ MaxTimeout.
Lemma ValidateCommandPath_ok path w w1 :
  ValidateCommandPath stat_path path w = (Ok (), w1) →
  clean_abs path = true ∧ ∃ n, stat_path path w = (Ok n, w1) ∧ is_regular n = true ∧ Z.land (n_perm n) 73 ≠ 0.
Proof.
  intros H. unfold ValidateCommandPath in H. inv_run H. bools. split; [done|]. eexists. split_and!; [done|done|lia].
Qed.
Lemma ValidateDir_ok dir w w1 :
  ValidateDir lstat_path dir w = (Ok (), w1) → clean_abs dir = true ∧ ∃ n, lstat_path dir w = (Ok n, w1) ∧ is_dir n = true.
Proof. intros H. unfold ValidateDir in H. inv_run H. bools. split; [done|]. by eexists. Qed.
Lemma lx_prepare_ok spec w env w' :
  lx_prepare stat_path lstat_path range spec w = (Ok env, w') →
  lx_restrictedEnvironment (lx_Env spec) (range (lx_Env spec)) = Ok env ∧ ∃ w1, guarded spec w w1.
Proof.
  intros H. unfold lx_prepare in H. inv_run H. split; [done|]. exists w0. destruct x, x0, x1.
  apply ValidateCommandPath_ok in Hrun as [? ?]. apply ValidateDir_ok in Hrun0 as [? (n & ? & ?)].
  unfold ValidateArgs in Hrun1. apply result_iter_ok in Hrun1. bools.
  split_and!; [done..|by eauto| |lia|lia]. eapply Forall_impl; [exact Hrun1|]. intros a Ha. by apply fail_if_ok in Ha.
Qed.

(** C28: simple mode starts no command that the Runner's own executor would refuse: when the API process starts one, the path is
    an absolute, cleaned path of an executable regular file, its directory is a real one, no argument holds a NUL, the time is
    at most a day, and the Runner would start it too, with the same environment and the same reading of how it ended. *)
Theorem local_commands_guarded (process : lx_Spec W → list string → W → (process_end * Z) * W) runner spec w env w2 :
  lx_prepare stat_path lstat_path range spec w = (Ok env, w2) →
  (∀ w, runner (as_runner spec) env w = process spec env w) →
  lx_Run stat_path lstat_path process range spec w
    = (let '((ending, duration), w3) := process spec env w2 in (lx_outcome spec ending duration, w3)) ∧
  ∃ w1, guarded spec w w1 ∧
    RunnerRun stat_path runner range (as_runner spec) w
    = (let '((ending, duration), w3) := process spec env w1 in (as_return (lx_outcome spec ending duration), w3)).
Proof.
  intros Hp Hr. split; [unfold lx_Run; by rewrite Hp|]. apply lx_prepare_ok in Hp as [Henv (w1 & Hg)]. exists w1. split; [done|].
  destruct Hg as ([Hp _]%andb_true_iff & [Hd _]%andb_true_iff & (n & Hn & Hreg & Hx) & _ & _ & Ht).
  unfold RunnerRun. simpl. rewrite Hp, Hn. simpl. rewrite Hreg, (proj2 (Z.eqb_neq _ _) Hx). simpl.
  rewrite Hd, bool_decide_false by (intros E; by rewrite E in Hd). simpl. rewrite (proj2 (Z.leb_gt _ _)) by lia.
  unfold restrictedEnvironment. unfold lx_restrictedEnvironment in Henv. rewrite Henv, Hr.
  destruct (process spec env w1) as [[[| | |] d] w3]; done.
Qed.
End mirror.

(** An executable in a directory, over the file system of OS.v. *)
Module local_demo.
Definition disk : os := {|
  fs := <[["d"] := {| n_kind := KDir; n_uid := 0; n_gid := 0; n_perm := 493; n_setgid := false; n_sticky := false |}]>
       (<[["d"; "x"] := {| n_kind := KReg []; n_uid := 0; n_gid := 0; n_perm := 493; n_setgid := false; n_sticky := false |}]> ∅);
  cwd := []; euid := 0; egid := 0; umask := 18; faults := λ _, None; tick := 0 |}.
Definition spec : lx_Spec os := {|
  lx_Path := "/d/x"; lx_Args := ["a b"]; lx_Dir := "/d"; lx_Env := {[ "HOME" := "/d" ]}; lx_Timeout := 1000;
  lx_Stdout := λ b w, ((blen b, None), w); lx_Stderr := λ b w, ((blen b, None), w) |}.
Lemma local_commands_guarded_witness :
  (RunnerRun stat (λ _ _ w, ((Failed (Some 3) (External "exit status 3"), 7), w)) map_to_list (as_runner spec) disk).1.1 = {| ExitCode := 3; Duration := 7 |}.
Proof.
  destruct (lx_prepare stat lstat map_to_list spec disk) as [[env|e] w2] eqn:Hp; [|vm_compute in Hp; discriminate Hp].
  destruct (local_commands_guarded stat lstat map_to_list (λ _ _ w, ((Failed (Some 3) (External "exit status 3"), 7), w))
              (λ _ _ w, ((Failed (Some 3) (External "exit status 3"), 7), w)) spec disk env w2 Hp (λ _, eq_refl)) as [_ (w1 & _ & E)].
  exact (f_equal (λ x, x.1.1) E).
Defined.
End local_demo.
