(* ===== verification/Vault.v ===== *)
(** * The backend's secrets (backend/internal/secure, backend/internal/config)

    Sealed credentials, tokens and identifiers of the backend, the parsing of
    its environment, and what the Runner (Crypto.v) makes of the backend's
    secrets.  Random bytes are arguments. *)
From S2P Require Import Prelude GoIO GoString OS Encoding Sha256 Crypto Model Db Store Backend Releases.

(** ** Sealed values *)
(* src: backend/internal/secure/crypto.go:16-16 envelopeVersion *)
Definition envelopeVersion : string := "v1".
(* src: backend/internal/secure/crypto.go:18-20 Vault *)
Record Vault := { vault_aead : AEAD }.

Section vault.
(** [aes.NewCipher] and [cipher.NewGCM]. *)
Context (new_cipher : bytes → result bytes) (new_gcm : bytes → result AEAD).
(* src: backend/internal/secure/crypto.go:22-35 NewVault *)
Definition NewVault (key : bytes) : result Vault :=
  _ ← fail_if (negb (length key =? 32)%nat) (error_new "AES-256-GCM requires a 32-byte key");
  block ← new_cipher key;
  a ← new_gcm block;
  Ok {| vault_aead := a |}.
End vault.

(* src: backend/internal/secure/crypto.go:37-48 (Vault).Encrypt *)
Definition VaultEncrypt (v : Vault) (random : result bytes) (plaintext context : string) : result string :=
  if empty_str plaintext then Ok "" else
  nonce ← map_err (wrap "generate nonce: %w") random;
  let ciphertext := Seal (vault_aead v) nonce (to_bytes plaintext) (to_bytes context) in
  Ok (envelopeVersion +:+ ":" +:+ raw_base64_encode (nonce ++ ciphertext)).

(** [strings.SplitN(s, ":", 2)]: before and after the first colon. *)
Fixpoint split_colon (s : string) : option (string * string) :=
  match s with
  | EmptyString => None
  | String c s => if is_char ":"%char c then Some ("", s) else '(a, b) ← split_colon s; Some (String c a, b)
  end.
(* src: backend/internal/secure/crypto.go:50-71 (Vault).Decrypt *)
Definition VaultDecrypt (v : Vault) (envelope context : string) : result string :=
  let a := vault_aead v in
  if empty_str envelope then Ok "" else
  parts ← of_option (error_new "unsupported ciphertext envelope") (split_colon envelope);
  _ ← fail_if (negb (bool_decide (parts.1 = envelopeVersion))) (error_new "unsupported ciphertext envelope");
  payload ← of_option (error_new "invalid ciphertext encoding") (raw_base64_decode parts.2);
  _ ← fail_if (length payload <? NonceSize a + Overhead a)%nat (error_new "invalid ciphertext length");
  plaintext ← of_option (error_new "ciphertext authentication failed")
                (Open a (take (NonceSize a) payload) (drop (NonceSize a) payload) (to_bytes context));
  Ok (of_chars plaintext).

(* src: backend/internal/server/admin_resources.go:269-269 registryAAD *)
Definition registryAAD (id : string) (version : Z) : string := "credential:" +:+ id +:+ ":v" +:+ pretty version.
(* src: backend/internal/server/admin_resources.go:447-449 targetCredentialAAD *)
Definition targetCredentialAAD (id : string) (version : Z) : string := "target-credential:" +:+ id +:+ ":v" +:+ pretty version.

(** ** Tokens and identifiers *)
(** [base64.RawURLEncoding]. *)
Definition to_url (c : ascii) : ascii := if is_char "+"%char c then "-"%char else if is_char "/"%char c then "_"%char else c.
Definition from_url (c : ascii) : ascii :=
  if is_char "-"%char c then "+"%char else if is_char "_"%char c then "/"%char
  else if is_char "+"%char c || is_char "/"%char c then "!"%char else c.
Definition raw_url_encode (b : bytes) : string := of_chars (to_url <$> chars (raw_base64_encode b)).
Definition raw_url_decode (s : string) : option bytes := raw_base64_decode (of_chars (from_url <$> chars s)).

(* src: backend/internal/secure/crypto.go:73-82 RandomToken *)
Definition RandomToken (n : Z) (random : result bytes) : result string :=
  _ ← fail_if (n <? 16) (error_new "token entropy must be at least 128 bits");
  b ← random;
  Ok (raw_url_encode b).
(* src: backend/internal/secure/crypto.go:84-87 TokenHash *)
Definition TokenHash (token : string) : bytes := sha256 (to_bytes token).
(* src: backend/internal/secure/crypto.go:89-92 ConstantTimeHashEqual *)
Definition ConstantTimeHashEqual (got : bytes) (token : string) : bool := bool_decide (got = TokenHash token).

Definition byte_and_or (m o : Z) (c : ascii) : ascii := zbyte (Z.lor (Z.land (byte c) m) o).
(* src: backend/internal/secure/id.go:9-18 NewID *)
Definition NewID (random : result bytes) : result string :=
  b ← random;
  let b := alter (byte_and_or 63 128) 8%nat (alter (byte_and_or 15 64) 6%nat b) in
  let part i j := hex_encode (slice b i j) in
  Ok (part 0 4 +:+ "-" +:+ part 4 6 +:+ "-" +:+ part 6 8 +:+ "-" +:+ part 8 10 +:+ "-" +:+ part 10 16)%nat.

(** ** The environment *)
(* src: backend/internal/config/config.go:55-70 ParseEncryptionKey *)
Definition ParseEncryptionKey (value : string) : result bytes :=
  let value := trim_space value in
  _ ← fail_if (empty_str value) (error_new "ENCRYPTION_KEY is required");
  let is_key o := match o with Some key => (length key =? 32)%nat | None => false end in
  match base64_decode value, raw_base64_decode value, hex_decode value with
  | a, b, c =>
      of_option (error_new "ENCRYPTION_KEY must be exactly 32 bytes encoded as base64 or 64 hex characters")
        (if is_key a then a else if is_key b then b else if is_key c then c else None)
  end.

(** [strconv.Atoi]. *)
Definition atoi (s : string) : option Z :=
  let '(sign, digits) := match s with String "-" r => (-1, r) | String "+" r => (1, r) | _ => (1, s) end in
  n ← parse_uint 64 digits;
  let z := sign * n in if (int64_min <=? z) && (z <=? int64_max) then Some z else None.

(* src: backend/internal/config/config.go:15-21 Runtime *)
Record RuntimeConfig := {
  PostgresDSN : string; BootstrapAdmin : string; BootstrapAdminPassword : string; rt_EncryptionKey : bytes; rt_Port : Z
}.
(* src: backend/internal/config/config.go:23-52 Load *)
Definition LoadConfig (getenv : string → string) : result RuntimeConfig :=
  let dsn := trim_space (getenv "POSTGRES_DSN") in
  let admin := trim_space (getenv "BOOTSTRAP_ADMIN") in
  let password := getenv "BOOTSTRAP_ADMIN_PASSWORD" in
  let rawPort := trim_space (getenv "PORT") in
  port ← (if empty_str rawPort then Ok 8080 else
          of_option (error_new "PORT must be an integer between 1 and 65535")
            (port ← atoi rawPort; if (port <? 1) || (65535 <? port) then None else Some port));
  _ ← fail_if (empty_str dsn) (error_new "POSTGRES_DSN is required");
  _ ← fail_if (empty_str admin) (error_new "BOOTSTRAP_ADMIN is required");
  _ ← fail_if (slen password <? 12) (error_new "BOOTSTRAP_ADMIN_PASSWORD must contain at least 12 characters");
  key ← ParseEncryptionKey (getenv "ENCRYPTION_KEY");
  Ok {| PostgresDSN := dsn; BootstrapAdmin := admin; BootstrapAdminPassword := password; rt_EncryptionKey := key; rt_Port := port |}.

(** ** One key, one format *)
Lemma empty_str_false s : s ≠ "" → empty_str s = false.
Proof. intros H. by apply bool_decide_eq_false. Qed.
Lemma decodeKey_parse value key : ParseEncryptionKey value = Ok key ↔ decodeKey value = Ok key.
Proof.
  unfold ParseEncryptionKey, decodeKey, key_decoders. cbv zeta. generalize (trim_space value) as v. intros v.
  unfold empty_str. case_bool_decide as Hv; [subst; by vm_compute|]. cbn [fail_if mbind result_bind decode_key_loop].
  destruct (base64_decode v) as [a|]; [destruct (length a =? 32)%nat; [done|]|];
    (destruct (raw_base64_decode v) as [b|]; [destruct (length b =? 32)%nat; [done|]|]);
    (destruct (hex_decode v) as [c|]; [destruct (length c =? 32)%nat|]; done).
Qed.
Lemma split_colon_v1 text : split_colon (envelopeVersion +:+ ":" +:+ text) = Some (envelopeVersion, text).
Proof. done. Qed.
Lemma vault_envelope v nonce plaintext context :
  plaintext ≠ "" →
  VaultEncrypt v (Ok nonce) plaintext context
  = Ok (envelopePrefix +:+ raw_base64_encode (nonce ++ Seal (vault_aead v) nonce (to_bytes plaintext) (to_bytes context))).
Proof. intros Hp. unfold VaultEncrypt. by rewrite empty_str_false. Qed.

Lemma split_colon_spec s a b : split_colon s = Some (a, b) → s = a +:+ ":" +:+ b.
Proof.
  revert a. induction s as [|c s IH]; intros a; simpl; [done|]. unfold is_char. case_bool_decide as Hc.
  - intros [= <- <-]. by subst.
  - destruct (split_colon s) as [[x y]|]; [|done]. intros [= <- <-]. simpl. by rewrite (IH x).
Qed.
Lemma split_colon_prefix text : has_prefix text envelopePrefix = true ↔ ∃ r, split_colon text = Some (envelopeVersion, r) .
Proof.
  rewrite has_prefix_spec. split.
  - intros [t ->]. by exists t.
  - intros [r Hr%split_colon_spec]. by exists r.
Qed.

Lemma same_open a envelope context s :
  envelope ≠ "" →
  VaultDecrypt {| vault_aead := a |} envelope context = Ok s ↔ Decrypt {| aead := a |} envelope context = Ok (to_bytes s).
Proof.
  intros He. unfold VaultDecrypt, Decrypt. simpl. rewrite empty_str_false by done. destruct (has_prefix envelope envelopePrefix) eqn:Hp.
  - apply split_colon_prefix in Hp as [r Hr]. pose proof (split_colon_spec _ _ _ Hr) as ->. rewrite Hr.
    change (envelopeVersion +:+ ":" +:+ r) with (envelopePrefix +:+ r). rewrite trim_prefix_app. simpl.
    destruct (raw_base64_decode r) as [p|]; [simpl|done]. destruct (_ <? _)%nat; [done|]. simpl.
    destruct (Open _ _ _ _) as [q|]; [simpl|done]. split; [intros [= <-]; unfold to_bytes; f_equal; symmetry; apply chars_of_chars|].
    intros [= ->]. f_equal. apply of_chars_chars.
  - simpl. split; [|done]. intros H. exfalso. destruct (split_colon envelope) as [[x y]|] eqn:E; [simpl in H|done].
    case_bool_decide as Hx; [|done]. subst. by rewrite (proj2 (split_colon_prefix envelope)) in Hp by eauto.
Qed.

(** C27: what the backend seals, the Runner opens.  Both programs read the same 32-byte key from the same text of
    ENCRYPTION_KEY; every stored envelope opens to the same secret in both or in neither; and the secret of a target
    credential, sealed by the backend for its id and version and loaded by the Runner with a claimed job, decrypts there
    to exactly what was typed in. *)
Theorem backend_secrets_open_in_runner value a nonce secret id version e c (w w' : db) c' row :
  AEADSpec a → length nonce = NonceSize a → secret ≠ "" →
  VaultEncrypt {| vault_aead := a |} (Ok nonce) secret (targetCredentialAAD id version) = Ok e →
  credentials (tabs w) !! (id, version) = Some row → cr_ciphertext row = e →
  tc_ID c = id → tc_Version c = version → id ≠ "" →
  loadTargetCredential c w = (Ok c', w') →
  (∀ key, ParseEncryptionKey value = Ok key ↔ decodeKey value = Ok key) ∧
  (∀ envelope context s, envelope ≠ "" →
     VaultDecrypt {| vault_aead := a |} envelope context = Ok s ↔ Decrypt {| aead := a |} envelope context = Ok (to_bytes s)) ∧
  VaultDecrypt {| vault_aead := a |} e (targetCredentialAAD id version) = Ok secret ∧
  Decrypt {| aead := a |} (tc_Ciphertext c') (tc_AAD c') = Ok (to_bytes secret).
Proof.
  intros Ha Hn Hs He Hrow Hc <- <- Hid Hl. rewrite vault_envelope in He by done. injection He as <-. cbn [vault_aead] in Hc.
  split; [intros key; apply decodeKey_parse|]. split; [intros *; apply same_open|].
  assert (Decrypt {| aead := a |} (cr_ciphertext row) (targetCredentialAAD (tc_ID c) (tc_Version c)) = Ok (to_bytes secret)) as Hd.
  { rewrite Hc. eapply decrypt_sealed; [done..|]. apply raw_base64_roundtrip. }
  split; [rewrite <- Hc; apply same_open; [by rewrite Hc|done]|].
  unfold loadTargetCredential in Hl. rewrite empty_str_false in Hl by done. simpl in Hl. inv_run Hl.
  destruct (query_run _ _ _ _ Hrun0) as (-> & _). rewrite Hrow in Hl. destruct (cr_usable row); [|done]. injection Hl as <- _. exact Hd.
Qed.
Lemma backend_secrets_open_in_runner_witness :
  ∃ e c', VaultEncrypt {| vault_aead := toy_aead |} (Ok (to_bytes "ab")) "ssh-key" (targetCredentialAAD "id-1" 3) = Ok e
    ∧ Decrypt {| aead := toy_aead |} (tc_Ciphertext c') (tc_AAD c') = Ok (to_bytes "ssh-key").
Proof.
  destruct (VaultEncrypt {| vault_aead := toy_aead |} (Ok (to_bytes "ab")) "ssh-key" (targetCredentialAAD "id-1" 3)) as [e|] eqn:He;
    [|vm_compute in He; discriminate He].
  pose (row := {| cr_type := "SSH_KEY"; cr_ciphertext := e; cr_usable := true |}).
  pose (c := {| tc_ID := "id-1"; tc_Type := ""; tc_Version := 3; tc_Ciphertext := ""; tc_AAD := "" |}).
  pose (w := DB (Tables ∅ ∅ ∅ ∅ ∅ [] ∅ ∅ {[ ("id-1", 3) := row ]} ∅ [] None) 0 (λ _, None) 0 false : db).
  destruct (loadTargetCredential c w) as [[c'|e'] w'] eqn:Hl; [|vm_compute in Hl; discriminate Hl].
  exists e, c'. split; [reflexivity|].
  refine (proj2 (proj2 (proj2 (backend_secrets_open_in_runner "" toy_aead (to_bytes "ab") "ssh-key" "id-1" 3 e c w w' c' row
    toy_spec eq_refl _ He _ eq_refl eq_refl eq_refl _ Hl)))); [done|reflexivity|done].
Defined.
