(* ===== verification/SimpleConfig.v ===== *)
(** * Settings of simple mode (backend/internal/server/simple_config.go)

    Targets, the command a run executes, the stages after it and the checks of
    an administrator's input (also from admin_simple.go). *)
From S2P Require Import Prelude GoIO GoString GoPath OS Files Command LocalExec Model Db Store Backend.

(** [strings.ReplaceAll] for a text to replace that is not empty. *)
Fixpoint replace_loop (fuel : nat) (old new s : string) : string :=
  match fuel, s with
  | S fuel, String c r =>
      if has_prefix s old then new +:+ replace_loop fuel old new (drop_str (String.length old) s)
      else String c (replace_loop fuel old new r)
  | _, _ => ""
  end.
Definition replace_all (s old new : string) : string := replace_loop (String.length s) old new s.

(* src: backend/internal/server/simple_config.go:18-18 artifactPlaceholder *)
Definition artifactPlaceholder : string := "{{artifact}}".
Definition commandModePerTarget : string := "PER_TARGET".
Definition commandModeShared : string := "SHARED".
Definition stageScopeEach : string := "EACH".
Definition stageScopeOnce : string := "ONCE".
Definition stageStatusNone : string := "NONE".
Definition stageStatusSkipped : string := "SKIPPED".
Definition stageStatusSuccess : string := "SUCCESS".
Definition second : Z := 1000000000.

(** ** Rows *)
(* src: backend/internal/server/simple_config.go:41-67 simpleSettings *)
Record simpleSettings := {
  cfg_DefaultUIMode : string; cfg_CommandMode : string; cfg_SharedPath : string; cfg_SharedArgs : list string;
  cfg_SharedDir : string; cfg_SharedTimeout : Z; cfg_UploadRoot : string;
  cfg_ReplicationEnabled : bool; cfg_ReplicationRegistry : string; cfg_ReplicationPolicyID : Z; cfg_ReplicationPolicy : string;
  cfg_ReplicationTimeout : Z; cfg_ReplicationScope : string;
  cfg_AppDeployEnabled : bool; cfg_AppDeployScope : string; cfg_AppDeployPath : string; cfg_AppDeployArgs : list string;
  cfg_AppDeployDir : string; cfg_AppDeployTimeout : Z
}.
(* src: backend/internal/server/admin_simple.go:15-26 simpleTarget *)
Record simpleTarget := {
  tgt_ID : string; tgt_Name : string; tgt_Description : string; tgt_UploadDir : string; tgt_CommandPath : string;
  tgt_CommandArgs : list string; tgt_WorkingDir : string; tgt_TimeoutSeconds : Z; tgt_MaxUploadBytes : Z; tgt_Active : bool
}.

(** ** Stages *)
(* src: backend/internal/server/simple_config.go:102-104 stageRuns *)
Definition stageRuns (scope : string) (batchLast : bool) : bool := negb (bool_decide (scope = stageScopeOnce)) || batchLast.
(* src: backend/internal/server/simple_config.go:112-117 appDeployStageRuns *)
Definition appDeployStageRuns (scope : string) (batchLast : bool) (replicationStatus : string) : bool :=
  if bool_decide (replicationStatus = stageStatusSkipped) then false else stageRuns scope batchLast.
(* src: backend/internal/server/simple_config.go:128-130 stageHeldForIncompleteUpload *)
Definition stageHeldForIncompleteUpload (scope : string) (uploadIncomplete : bool) : bool :=
  bool_decide (scope = stageScopeOnce) && uploadIncomplete.
(* src: backend/internal/server/simple.go:1540-1542 stageFailed *)
Definition stageFailed (status : string) : bool :=
  negb (bool_decide (status = stageStatusNone)) && negb (bool_decide (status = stageStatusSkipped))
  && negb (bool_decide (status = stageStatusSuccess)).

(* src: backend/internal/server/simple_config.go:136-141 outcomeWithHeldStages *)
Definition outcomeWithHeldStages (status message : string) (held : bool) : string * string :=
  if negb held || negb (bool_decide (status = "SUCCESS")) then (status, message)
  else ("FAILED", "배포 명령은 성공했으나 같은 업로드의 다른 패키지가 배포되지 않아 업로드당 한 번 실행하는 단계(복제·앱 배포)를 실행하지 않았습니다").
Section outcome.
Context `{ErrorText}.
(* src: backend/internal/server/simple_config.go:151-156 outcomeWithoutStageSettings *)
Definition outcomeWithoutStageSettings (status message : string) (err : option goerr) : string * string :=
  match err with
  | Some e => if bool_decide (status = "SUCCESS")
      then ("FAILED", "배포 명령은 성공했으나 배포 후 단계 설정을 읽지 못해 복제와 앱 배포를 실행하지 못했습니다: " +:+ error_text e)
      else (status, message)
  | None => (status, message)
  end.
End outcome.

(** ** The command of a run *)
(** Times in nanoseconds. *)
(* src: backend/internal/server/simple_config.go:160-166 resolvedCommand *)
Record resolvedCommand := { cmd_Source : string; cmd_Path : string; cmd_Args : list string; cmd_Dir : string; cmd_Timeout : Z }.

(* src: backend/internal/server/simple_config.go:172-207 resolveCommand *)
Definition resolveCommand (cfg : simpleSettings) (target : simpleTarget) : result resolvedCommand :=
  let or_upload dir := if empty_str dir then tgt_UploadDir target else dir in
  if bool_decide (cfg_CommandMode cfg = commandModeShared) then
    _ ← fail_if (empty_str (cfg_SharedPath cfg)) (error_new "공통 명령이 설정되지 않았습니다");
    Ok {| cmd_Source := commandModeShared; cmd_Path := cfg_SharedPath cfg; cmd_Args := cfg_SharedArgs cfg;
          cmd_Dir := or_upload (cfg_SharedDir cfg); cmd_Timeout := cfg_SharedTimeout cfg * second |}
  else
    _ ← fail_if (empty_str (tgt_CommandPath target)) (error_new "이 대상에 실행할 명령이 설정되지 않았습니다");
    let timeout := if tgt_TimeoutSeconds target <=? 0 then 600 else tgt_TimeoutSeconds target in
    Ok {| cmd_Source := commandModePerTarget; cmd_Path := tgt_CommandPath target; cmd_Args := tgt_CommandArgs target;
          cmd_Dir := or_upload (tgt_WorkingDir target); cmd_Timeout := timeout * second |}.

(* src: backend/internal/server/simple_config.go:212-218 expandArgs *)
Definition expandArgs (args : list string) (artifactPath : string) : list string :=
  (λ arg, replace_all arg artifactPlaceholder artifactPath) <$> args.

(** ** Directories *)
(* src: backend/internal/server/admin.go:53-53 managedDataRoot *)
Definition managedDataRoot : string := "/var/lib/releasedock".

(* src: backend/internal/server/simple_config.go:223-234 normalizeUploadDir *)
Definition normalizeUploadDir (root value : string) : result string :=
  let dir := clean (trim_space value) in
  _ ← fail_if (negb (is_abs dir) || bool_decide (dir = sep)) (error_new "업로드 경로는 루트가 아닌 절대 경로여야 합니다");
  let outside := Errorf "업로드 경로는 %s 하위여야 합니다" [FStr (clean root)] in
  relative ← map_err (λ _, outside) (rel (clean root) dir);
  _ ← fail_if (escapes relative) outside;
  Ok dir.
(* src: backend/internal/server/simple_config.go:239-249 normalizeUploadRoot *)
Definition normalizeUploadRoot (value : string) : result string :=
  let dir := clean (trim_space value) in
  _ ← fail_if (negb (is_abs dir) || bool_decide (dir = sep)) (error_new "업로드 루트는 루트가 아닌 절대 경로여야 합니다");
  let outside := error_new "업로드 루트는 /var/lib/releasedock 하위여야 합니다" in
  relative ← map_err (λ _, outside) (rel managedDataRoot dir);
  _ ← fail_if (bool_decide (relative = ".") || escapes relative) outside;
  Ok dir.
(* src: backend/internal/server/simple_config.go:253-268 ensureUploadDir *)
Definition ensureUploadDir (dir : string) : M os unit :=
  _ ← wrapM (wrap "업로드 경로를 만들 수 없습니다: %w") (mkdir_all dir 488);
  info ← wrapM (wrap "업로드 경로를 확인할 수 없습니다: %w") (lstat dir);
  _ ← lift (fail_if (is_symlink info) (error_new "업로드 경로는 심볼릭 링크일 수 없습니다"));
  lift (fail_if (negb (is_dir info)) (error_new "업로드 경로가 디렉터리가 아닙니다")).

(* src: backend/internal/server/simple_config.go:272-291 validateCommandFields *)
Definition validateCommandFields (commandPath : string) (args : list string) (workingDir : string) (timeoutSeconds : Z) : M os unit :=
  _ ← wrapM (wrap "실행 명령: %w") (ValidateCommandPath stat commandPath);
  _ ← lift (ValidateArgs args);
  _ ← lift (fail_if (64 <? length args)%nat (error_new "명령 인자는 64개를 넘을 수 없습니다"));
  _ ← (if empty_str workingDir then mret () else wrapM (wrap "작업 디렉터리: %w") (ValidateDir lstat workingDir));
  lift (fail_if ((timeoutSeconds <? 1) || (86400 <? timeoutSeconds)) (error_new "제한 시간은 1초 이상 86400초 이하여야 합니다")).

(** ** An administrator's input *)
(* src: backend/internal/server/admin_simple.go:41-51 simpleTargetInput *)
Record simpleTargetInput := {
  ti_Name : string; ti_Description : string; ti_UploadDir : string; ti_CommandPath : string; ti_CommandArgs : string;
  ti_WorkingDir : string; ti_TimeoutSeconds : option Z; ti_MaxUploadBytes : option Z; ti_Active : option bool
}.
(* src: backend/internal/server/admin_simple.go:56-66 splitCommandArgs *)
Definition splitCommandArgs (raw : string) : list string :=
  filter (λ line, trim_space line ≠ "") (trim_right ["013"%char] <$> split_byte "010"%char raw).
(* src: backend/internal/server/admin_simple.go:68-68 joinCommandArgs *)
Definition joinCommandArgs (args : list string) : string := join (String "010" "") args.

(* src: backend/internal/server/admin_simple.go:73-119 normalizeSimpleTarget *)
Definition normalizeSimpleTarget (cfg : simpleSettings) (input : simpleTargetInput) : M os simpleTarget :=
  let name := trim_space (ti_Name input) in
  let description := trim_space (ti_Description input) in
  let path := trim_space (ti_CommandPath input) in
  let dir := trim_space (ti_WorkingDir input) in
  let args := splitCommandArgs (ti_CommandArgs input) in
  let active := default true (ti_Active input) in
  _ ← lift (fail_if (empty_str name || (200 <? slen name)) (error_new "이름은 1~200자여야 합니다"));
  _ ← lift (fail_if (1000 <? slen description) (error_new "설명은 1000자를 넘을 수 없습니다"));
  upload ← lift (normalizeUploadDir (cfg_UploadRoot cfg) (ti_UploadDir input));
  let timeout := default 600 (ti_TimeoutSeconds input) in
  let maximum := default 10737418240 (ti_MaxUploadBytes input) in
  _ ← lift (fail_if ((maximum <? 1048576) || (1099511627776 <? maximum)) (error_new "최대 업로드 크기는 1 MiB 이상 1 TiB 이하여야 합니다"));
  _ ← (if negb (empty_str path) then validateCommandFields path args dir timeout
       else lift (fail_if (bool_decide (cfg_CommandMode cfg = commandModePerTarget) && active)
                   (error_new "서비스별 명령 모드에서는 활성 대상에 실행 명령이 필요합니다")));
  _ ← ensureUploadDir upload;
  mret {| tgt_ID := ""; tgt_Name := name; tgt_Description := description; tgt_UploadDir := upload; tgt_CommandPath := path;
          tgt_CommandArgs := args; tgt_WorkingDir := dir; tgt_TimeoutSeconds := timeout; tgt_MaxUploadBytes := maximum; tgt_Active := active |}.

(* src: backend/internal/server/admin_simple.go:273-279 normalizeStageScope *)
Definition normalizeStageScope (value : string) : result string :=
  let scope := to_upper (trim_space value) in
  _ ← fail_if (negb (bool_decide (scope = stageScopeEach)) && negb (bool_decide (scope = stageScopeOnce)))
        (error_new "실행 범위는 EACH 또는 ONCE여야 합니다");
  Ok scope.

Example expand_a : expandArgs ["-f"; "{{artifact}}"; "x={{artifact}};y"] "/d/a b.tar" = ["-f"; "/d/a b.tar"; "x=/d/a b.tar;y"].
Proof. reflexivity. Qed.
