(* ===== verification/SimpleStore.v ===== *)
(** * The tables of simple mode (backend/internal/server/simple.go, admin_simple.go)

    Targets, runs, their logs and settings, and each SQL statement as its effect
    on them, with the constraints and the trigger of migrations 017, 022 and 024:
    one run in flight per target, finished runs and the origin of a run never
    change.  Users are left out: their ids are plain texts. *)
From S2P Require Import Prelude GoIO GoString GoPath OS Files Command LocalExec Model Db Store Backend SimpleConfig.

(** What a run was created with: the trigger keeps it. *)
Record run_origin := {
  ro_target : string; ro_actor : string; ro_filename : string; ro_path : string; ro_size : Z; ro_sha256 : string;
  ro_source : string; ro_command : string; ro_args : list string; ro_timeout : Z; ro_batch : string; ro_last : bool; ro_created : Z
}.
(** The columns of its outcome. *)
Record run_outcome := {
  oc_exit : option Z; oc_error : string; oc_replication : string; oc_execution : option Z; oc_replication_error : string;
  oc_app : string; oc_app_error : string
}.
Record run_row := {
  rn_origin : run_origin; rn_status : string; rn_outcome : run_outcome; rn_log_bytes : Z; rn_started : option Z; rn_finished : option Z
}.
Record target_row := { tr_target : simpleTarget; tr_revoked : bool }.
Record registry_row := {
  rg_name : string; rg_endpoint : string; rg_username : string; rg_insecure : bool; rg_version : Z; rg_ciphertext : string; rg_usable : bool
}.
Record log_line := { ll_run : string; ll_stream : string; ll_payload : bytes }.

(** [sm_logs] in the order of their serial ids, [sm_serial] for the next row. *)
Record simple_tables := SimpleTables {
  sm_settings : option simpleSettings; sm_targets : gmap string target_row; sm_runs : gmap string run_row;
  sm_logs : list (Z * log_line); sm_serial : Z; sm_registries : gmap string registry_row; sm_audits : list audit_row
}.
Abbreviation sdb := (dbase simple_tables).

Definition set_targets f (t : simple_tables) :=
  SimpleTables (sm_settings t) (f (sm_targets t)) (sm_runs t) (sm_logs t) (sm_serial t) (sm_registries t) (sm_audits t).
Definition set_runs f (t : simple_tables) :=
  SimpleTables (sm_settings t) (sm_targets t) (f (sm_runs t)) (sm_logs t) (sm_serial t) (sm_registries t) (sm_audits t).
Definition set_settings (c : simpleSettings) (t : simple_tables) :=
  SimpleTables (Some c) (sm_targets t) (sm_runs t) (sm_logs t) (sm_serial t) (sm_registries t) (sm_audits t).

(** ** Runs *)
Definition in_flight (status : string) : bool := bool_decide (status ∈ ["PENDING"; "RUNNING"]).
Definition run_finished (status : string) : bool := bool_decide (status ∈ ["SUCCESS"; "FAILED"; "TIMEOUT"]).
Definition busy (target : string) (t : simple_tables) : bool :=
  existsb (λ kr : string * run_row, in_flight (rn_status kr.2) && bool_decide (ro_target (rn_origin kr.2) = target)) (map_to_list (sm_runs t)).
Definition no_outcome : run_outcome := {|
  oc_exit := None; oc_error := ""; oc_replication := stageStatusNone; oc_execution := None; oc_replication_error := "";
  oc_app := stageStatusNone; oc_app_error := "" |}.

Definition unique_violation : goerr := External "duplicate key value violates unique constraint (SQLSTATE 23505)".
Definition check_violation : goerr := External "new row violates check constraint (SQLSTATE 23514)".
(** The primary key, the reference to the target, [simple_runs_active_target_idx] and the checks. *)
Definition insert_run (id : string) (o : run_origin) (t : simple_tables) : result (unit * simple_tables) :=
  if bool_decide (is_Some (sm_runs t !! id)) || busy (ro_target o) t then Err unique_violation else
  if bool_decide (sm_targets t !! ro_target o = None) || (ro_size o <? 0) || (ro_timeout o <? 1) || (86400 <? ro_timeout o)
     || negb (bool_decide (ro_source o ∈ [commandModePerTarget; commandModeShared])) then Err check_violation else
  Ok ((), set_runs (<[id := {| rn_origin := o; rn_status := "PENDING"; rn_outcome := no_outcome; rn_log_bytes := 0;
                               rn_started := None; rn_finished := None |}]>) t).

(** [UPDATE simple_runs ... WHERE id=$1 AND cond]: whether a row matched;
    [guard_simple_run_transition] refuses to touch a finished run. *)
Definition update_run (id : string) (cond : run_row → bool) (f : run_row → run_row) (t : simple_tables) : result (bool * simple_tables) :=
  match sm_runs t !! id with
  | Some r =>
      if negb (cond r) then Ok (false, t) else
      if run_finished (rn_status r) then Err (External "simple run is already terminal")
      else Ok (true, set_runs (<[id := f r]>) t)
  | None => Ok (false, t)
  end.
Definition pending (r : run_row) : bool := bool_decide (rn_status r = "PENDING").
Definition set_status (status : string) (r : run_row) : run_row :=
  {| rn_origin := rn_origin r; rn_status := status; rn_outcome := rn_outcome r; rn_log_bytes := rn_log_bytes r;
     rn_started := rn_started r; rn_finished := rn_finished r |}.
Definition set_started (n : Z) (r : run_row) : run_row :=
  {| rn_origin := rn_origin r; rn_status := rn_status r; rn_outcome := rn_outcome r; rn_log_bytes := rn_log_bytes r;
     rn_started := Some n; rn_finished := rn_finished r |}.
Definition set_failed (n : Z) (reason : string) (r : run_row) : run_row :=
  let o := rn_outcome r in
  {| rn_origin := rn_origin r; rn_status := "FAILED";
     rn_outcome := {| oc_exit := oc_exit o; oc_error := reason; oc_replication := oc_replication o; oc_execution := oc_execution o;
                      oc_replication_error := oc_replication_error o; oc_app := oc_app o; oc_app_error := oc_app_error o |};
     rn_log_bytes := rn_log_bytes r; rn_started := rn_started r; rn_finished := Some n |}.
Definition set_outcome (n : Z) (status : string) (o : run_outcome) (r : run_row) : run_row :=
  {| rn_origin := rn_origin r; rn_status := status; rn_outcome := o; rn_log_bytes := rn_log_bytes r;
     rn_started := rn_started r; rn_finished := Some n |}.
Definition add_log_bytes (n : Z) (r : run_row) : run_row :=
  {| rn_origin := rn_origin r; rn_status := rn_status r; rn_outcome := rn_outcome r; rn_log_bytes := rn_log_bytes r + n;
     rn_started := rn_started r; rn_finished := rn_finished r |}.

(** [INSERT INTO simple_run_logs]. *)
Definition insert_log (l : log_line) (t : simple_tables) : result (unit * simple_tables) :=
  if bool_decide (sm_runs t !! ll_run l = None) || negb (bool_decide (ll_stream l ∈ ["stdout"; "stderr"; "system"])) then Err check_violation
  else Ok ((), SimpleTables (sm_settings t) (sm_targets t) (sm_runs t) (sm_logs t ++ [(sm_serial t, l)]) (sm_serial t + 1)
                 (sm_registries t) (sm_audits t)).

(** ** Targets *)
Definition live_target (r : target_row) : bool := tgt_Active (tr_target r) && negb (tr_revoked r).
(** [scanSimpleTarget]: the last column is [active AND revoked_at IS NULL]. *)
(* src: backend/internal/server/admin_simple.go:31-39 scanSimpleTarget *)
Definition scanSimpleTarget (id : string) (r : target_row) : simpleTarget :=
  let x := tr_target r in
  {| tgt_ID := id; tgt_Name := tgt_Name x; tgt_Description := tgt_Description x; tgt_UploadDir := tgt_UploadDir x;
     tgt_CommandPath := tgt_CommandPath x; tgt_CommandArgs := tgt_CommandArgs x; tgt_WorkingDir := tgt_WorkingDir x;
     tgt_TimeoutSeconds := tgt_TimeoutSeconds x; tgt_MaxUploadBytes := tgt_MaxUploadBytes x; tgt_Active := live_target r |}.

(** [simple_targets_active_name_idx], [simple_targets_active_dir_idx] and the
    checks of a row, for the targets other than [id]. *)
Definition sql_key (name : string) : string := sql_lower (trim [" "%char] name).
Definition target_conflict (id : string) (x : simpleTarget) (t : simple_tables) : bool :=
  existsb (λ kt : string * target_row, negb (bool_decide (kt.1 = id)) && negb (tr_revoked kt.2) &&
      (bool_decide (sql_key (tgt_Name (tr_target kt.2)) = sql_key (tgt_Name x))
       || bool_decide (tgt_UploadDir (tr_target kt.2) = tgt_UploadDir x))) (map_to_list (sm_targets t)).
Definition slashed (s : string) : bool := empty_str s || has_prefix s "/".
Definition target_checks (x : simpleTarget) : bool :=
  has_prefix (tgt_UploadDir x) "/" && slashed (tgt_CommandPath x) && slashed (tgt_WorkingDir x)
  && (1 <=? tgt_TimeoutSeconds x) && (tgt_TimeoutSeconds x <=? 86400) && (0 <? tgt_MaxUploadBytes x).
Definition put_target (id : string) (x : simpleTarget) (t : simple_tables) : result simple_tables :=
  if negb (target_checks x) then Err check_violation else
  if target_conflict id x t then Err unique_violation else
  Ok (set_targets (<[id := {| tr_target := x; tr_revoked := false |}]>) t).

(** ** Statements on the pool *)
Definition run_sql {A} (f : Z → simple_tables → result (A * simple_tables)) : M sdb A := pool (checked f).
Definition read_sql {A} (f : simple_tables → A) : M sdb A := pool (query (λ _, f)).
(** The error of an audit record is ignored. *)
Definition audit (actor action resourceType resource outcome : string) : M sdb unit :=
  _ ← try (pool (statement (λ n t, ((), SimpleTables (sm_settings t) (sm_targets t) (sm_runs t) (sm_logs t) (sm_serial t) (sm_registries t)
              (sm_audits t ++ [{| au_actor := null_if_empty actor; au_action := action; au_type := resourceType; au_resource := resource; au_outcome := outcome |}])))));
  mret ().
