(* ===== verification/SimpleLog.v ===== *)
(** * The log of a run (backend/internal/server/simple.go)

    The command's output is stored line by line within a budget, beside a
    reserve for the server's own lines; names of files for downloads and
    staging. *)
From S2P Require Import Prelude GoIO GoString GoPath OS Files Command LocalExec Encoding Model Db Store Backend SimpleConfig SimpleStore Vault.

(** ** The budget *)
(* src: backend/internal/server/simple.go:39-39 maxSimpleRunLogBytes *)
Definition maxSimpleRunLogBytes : Z := 8388608.
(* src: backend/internal/server/simple.go:46-46 maxSimpleRunSystemLogBytes *)
Definition maxSimpleRunSystemLogBytes : Z := 65536.
(* src: backend/internal/server/simple.go:50-50 streamSystem *)
Definition streamSystem : string := "system".

(* src: backend/internal/server/simple.go:767-770 logBudget *)
Record logBudget := { lb_command : Z; lb_system : Z }.
(* src: backend/internal/server/simple.go:772-774 newLogBudget *)
Definition newLogBudget : logBudget := {| lb_command := maxSimpleRunLogBytes; lb_system := maxSimpleRunSystemLogBytes |}.
(* src: backend/internal/server/simple.go:779-779 emptyLineCost *)
Definition emptyLineCost : Z := 1.

Definition is_system (stream : string) : bool := bool_decide (stream = streamSystem).
Definition remaining (b : logBudget) (stream : string) : Z := if is_system stream then lb_system b else lb_command b.
Definition set_remaining (stream : string) (n : Z) (b : logBudget) : logBudget :=
  if is_system stream then {| lb_command := lb_command b; lb_system := n |} else {| lb_command := n; lb_system := lb_system b |}.
(** [(allowed, store, exhausted)] and the budget left. *)
(* src: backend/internal/server/simple.go:789-812 (logBudget).take *)
Definition take_budget (b : logBudget) (stream : string) (size : Z) : (Z * bool * bool) * logBudget :=
  let left := remaining b stream in
  if left <=? 0 then ((0, false, false), b) else
  let size := Z.max size 0 in
  let charge := if size =? 0 then emptyLineCost else size in
  let charge := if left <? charge then left else charge in
  let left := left - charge in
  ((if 0 <? size then charge else 0, true, negb (is_system stream) && (left =? 0)), set_remaining stream left b).

(** [utf8.RuneStart]. *)
Definition rune_start (c : ascii) : bool := negb (cont c).
Fixpoint step_back (steps : nat) (payload : bytes) (allowed : nat) : nat :=
  match steps, allowed with
  | S steps, S n => match payload !! allowed with
      | Some c => if rune_start c then allowed else step_back steps payload n
      | None => allowed
      end
  | _, _ => allowed
  end.
(* src: backend/internal/server/simple.go:862-870 trimToRuneBoundary *)
Definition trimToRuneBoundary (payload : bytes) (allowed : Z) : bytes :=
  if blen payload <=? allowed then payload else take (step_back 3 payload (Z.to_nat allowed)) payload.

(** ** The logger *)
(* src: backend/internal/server/simple.go:816-823 simpleRunLogger *)
Record logger := Logger { lg_run_id : string; lg_budget : logBudget; lg_pending : gmap string bytes }.
Definition set_budget (b : logBudget) (l : logger) : logger := Logger (lg_run_id l) b (lg_pending l).
Definition set_pending (p : gmap string bytes) (l : logger) : logger := Logger (lg_run_id l) (lg_budget l) p.

(* src: backend/internal/server/simple.go:831-831 logCapReachedNotice *)
Definition logCapReachedNotice : string := "로그 저장 한도에 도달하여 이후 명령 출력은 기록하지 않습니다".

(** The notice is a system line, which never exhausts the command's budget
    ([take_budget_spec] in SimpleFrame.v): the recursion is one call deep. *)
(* src: backend/internal/server/simple.go:833-851 (simpleRunLogger).append *)
Fixpoint append_line (depth : nat) (l : logger) (stream : string) (payload : bytes) : M sdb logger :=
  let '((allowed, store, exhausted), b) := take_budget (lg_budget l) stream (blen payload) in
  let l := set_budget b l in
  if negb store then mret l else
  let payload := trimToRuneBoundary payload allowed in
  stored ← try (run_sql (λ _, insert_log {| ll_run := lg_run_id l; ll_stream := stream; ll_payload := payload |}));
  match stored with
  | Err _ => mret l
  | Ok _ =>
      _ ← try (run_sql (λ _, update_run (lg_run_id l) (λ _, true) (add_log_bytes (blen payload))));
      match depth with
      | S depth => if exhausted : bool then append_line depth l streamSystem (to_bytes logCapReachedNotice) else mret l
      | O => mret l
      end
  end.
(* src: backend/internal/server/simple.go:833-851 (simpleRunLogger).append *)
Definition append (l : logger) (stream : string) (payload : bytes) : M sdb logger := append_line 1 l stream payload.

(* src: backend/internal/server/simple.go:872-876 (simpleRunLogger).system *)
Definition log_system (l : logger) (message : string) : M sdb logger := append l streamSystem (to_bytes message).

Definition LF : ascii := "010"%char.
(* src: backend/internal/server/simple.go:922-927 trimCR *)
Definition trimCR (data : bytes) : bytes :=
  match reverse data with c :: r => if is_char "013"%char c then reverse r else data | [] => data end.
(** The lines that are complete, and what follows the last. *)
Fixpoint split_lines (buffer : bytes) : list bytes * bytes :=
  match buffer with
  | [] => ([], [])
  | c :: buffer =>
      let '(ls, rest) := split_lines buffer in
      if is_char LF c then ([] :: ls, rest)
      else match ls with [] => ([], c :: rest) | x :: ls => ((c :: x) :: ls, rest) end
  end.
Fixpoint append_all (l : logger) (stream : string) (lines : list bytes) : M sdb logger :=
  match lines with
  | [] => mret l
  | x :: lines => l ← append l stream (trimCR x); append_all l stream lines
  end.
(* src: backend/internal/server/simple.go:880-900 (simpleRunLogger).write *)
Definition log_write (l : logger) (stream : string) (chunk : bytes) : M sdb logger :=
  let '(lines, buffer) := split_lines (default [] (lg_pending l !! stream) ++ chunk) in
  l ← append_all l stream lines;
  if 65536 <? blen buffer then
    l ← append l stream buffer;
    mret (set_pending (<[stream := []]> (lg_pending l)) l)
  else mret (set_pending (<[stream := buffer]> (lg_pending l)) l).

(** The order in which Go visits the map is an argument. *)
Fixpoint flush_streams (l : logger) (streams : list string) : M sdb logger :=
  match streams with
  | [] => mret l
  | stream :: streams =>
      let buffer := default [] (lg_pending l !! stream) in
      l ← (if bool_decide (buffer = []) then mret l else append l stream buffer);
      flush_streams (set_pending (<[stream := []]> (lg_pending l)) l) streams
  end.
(* src: backend/internal/server/simple.go:902-911 (simpleRunLogger).flush *)
Definition log_flush (range : gmap string bytes → list string) (l : logger) : M sdb logger := flush_streams l (range (lg_pending l)).

(** ** Reading a log *)
(** The rows of a result: each is scanned or fails; [rows.Err()] at the end. *)
Definition truncated_notice : string := "[releasedock] 로그를 끝까지 읽지 못해 이 파일은 잘려 있습니다: ".
Section reading.
Context `{ErrorText}.
(* src: backend/internal/server/simple.go:1369-1389 writeSimpleRunLog *)
Fixpoint write_rows (rows : list (result (string * bytes))) (err : option goerr) : bytes :=
  let notice e := to_bytes truncated_notice ++ to_bytes (error_text e) ++ [LF] in
  match rows with
  | [] => match err with Some e => notice e | None => [] end
  | Err e :: _ => notice e
  | Ok (stream, payload) :: rows =>
      (if bool_decide (stream = "stderr") then to_bytes "[stderr] " else []) ++ payload ++ [LF] ++ write_rows rows err
  end.
End reading.

(** ** Names *)
Definition safe_rune (keepUnicode : bool) (r : Z) : bool :=
  (97 <=? r) && (r <=? 122) || (65 <=? r) && (r <=? 90) || (48 <=? r) && (r <=? 57) || (r =? 46) || (r =? 95)
  || keepUnicode && (127 <? r).
Fixpoint sanitize (keepUnicode : bool) (limit : Z) (rs : list Z) (rev_out : list Z) : list Z :=
  match rs with
  | [] => reverse rev_out
  | r :: rs =>
      let dash := negb (safe_rune keepUnicode r) in
      if dash && match rev_out with c :: _ => c =? 45 | [] => false end then sanitize keepUnicode limit rs rev_out else
      let out := (if dash then 45 else r) :: rev_out in
      if limit <=? Z.of_nat (length out) then reverse out else sanitize keepUnicode limit rs out
  end.
(* src: backend/internal/server/simple.go:1426-1445 sanitizeNameSegment *)
Definition sanitizeNameSegment (value : string) (limit : Z) (keepUnicode : bool) : string :=
  trim ["-"%char; "."%char] (of_chars (concat (encode_rune <$> sanitize keepUnicode limit (runes value).*1 []))).
(* src: backend/internal/server/simple.go:1408-1421 runLogDownloadName *)
Definition runLogDownloadName (filename status runID : string) (keepUnicode : bool) : string :=
  let name := sanitizeNameSegment filename 60 keepUnicode in
  let outcome := sanitizeNameSegment status 16 false in
  let id := sanitizeNameSegment runID 40 false in
  let parts := "releasedock" :: (if empty_str name then [] else [name]) ++ (if empty_str outcome then [] else [outcome]) in
  join "-" (parts ++ [if empty_str id then "run" else id]) +:+ ".log".

(** [%02X]. *)
Definition upper_hex (c : ascii) : list ascii := upper_byte <$> [hex_digit (byte c / 16); hex_digit (byte c mod 16)].
Definition unreserved (c : ascii) : bool :=
  lower_alpha c || upper_alpha c || digit c || is_char "."%char c || is_char "_"%char c || is_char "-"%char c.
(* src: backend/internal/server/simple.go:1450-1460 encodeExtendedHeaderValue *)
Definition encodeExtendedHeaderValue (value : string) : string :=
  of_chars (concat ((λ c, if unreserved c then [c] else "%"%char :: upper_hex c) <$> chars value)).
(** [%q]: the ASCII name holds nothing to escape ([log_download_header_safe] in SimpleUpload.v). *)
Definition quoted (s : string) : string := String "034" (s +:+ String "034" "").
(* src: backend/internal/server/simple.go:1398-1402 runLogDisposition *)
Definition runLogDisposition (filename status runID : string) : string :=
  "attachment; filename=" +:+ quoted (runLogDownloadName filename status runID false) +:+ "; filename*=UTF-8''"
  +:+ encodeExtendedHeaderValue (runLogDownloadName filename status runID true).

(** [strings.LastIndex]: what precedes and follows the last occurrence. *)
Fixpoint last_cut (sub l : list ascii) : option (list ascii * list ascii) :=
  match l with
  | [] => if bool_decide (sub = []) then Some ([], []) else None
  | c :: r =>
      match last_cut sub r with
      | Some (a, b) => Some (c :: a, b)
      | None => if bool_decide (take (length sub) l = sub) then Some ([], drop (length sub) l) else None
      end
  end.
(* src: backend/internal/server/simple.go:516-516 stagedUploadMarker *)
Definition stagedUploadMarker : string := ".partial-".
Definition stagedUploadBytes : Z := 16.
(** [EncodedLen(stagedUploadBytes)]. *)
Definition staged_token_length : Z := (stagedUploadBytes * 8 + 5) / 6.
(* src: backend/internal/server/simple.go:523-534 isStagedUploadName *)
Definition isStagedUploadName (name : string) : bool :=
  match last_cut (chars stagedUploadMarker) (chars name) with
  | Some (a, token) =>
      negb (bool_decide (a = [])) && (blen token =? staged_token_length)
      && match raw_url_decode (of_chars token) with Some _ => true | None => false end
  | None => false
  end.

(** ** The fields of an upload *)
(* src: backend/internal/server/simple.go:232-235 uploadBatch *)
Record uploadBatch := { bt_ID : string; bt_Last : bool }.
(** [strconv.ParseBool]. *)
Definition parse_bool (s : string) : option bool :=
  if bool_decide (s ∈ ["1"; "t"; "T"; "TRUE"; "true"; "True"]) then Some true
  else if bool_decide (s ∈ ["0"; "f"; "F"; "FALSE"; "false"; "False"]) then Some false else None.
Definition batch_rune (r : Z) : bool :=
  (97 <=? r) && (r <=? 122) || (65 <=? r) && (r <=? 90) || (48 <=? r) && (r <=? 57) || (r =? 45) || (r =? 95).
(* src: backend/internal/server/simple.go:242-261 readUploadBatch *)
Definition readUploadBatch (value : string → string) : uploadBatch :=
  let id := trim_space (value "batchId") in
  let raw := trim_space (value "batchLast") in
  {| bt_ID := if (slen id <=? 64) && forallb batch_rune (runes id).*1 then id else "";
     bt_Last := if empty_str raw then true else default true (parse_bool raw) |}.

Example staged_a : isStagedUploadName "shop.tar.gz.partial-AAAAAAAAAAAAAAAAAAAAAA" = true ∧ isStagedUploadName "shop.tar.gz" = false
  ∧ isStagedUploadName ".partial-AAAAAAAAAAAAAAAAAAAAAA" = false ∧ isStagedUploadName "a.partial-notes.tar" = false.
Proof. split_and!; vm_compute; reflexivity. Qed.
Example disposition_a : runLogDownloadName "shop api.tar" "SUCCESS" "1-2" false = "releasedock-shop-api.tar-SUCCESS-1-2.log".
Proof. vm_compute. reflexivity. Qed.
