(* ===== verification/Simple.v ===== *)
(** * Simple mode (backend/internal/server/simple.go)

    One request stores a package and starts the configured command; the run goes
    on after the reply.  The handlers act on the database, the file system and the
    count of running commands ([api]); a run also holds its logger and reads the
    clock ([exec]).  Commands and Harbor are parameters. *)
From S2P Require Import Prelude GoIO GoString GoPath OS Files Command LocalExec Encoding Sha256 Model Db Store Backend Releases Artifacts Crypto Vault SimpleConfig SimpleStore SimpleLog.

Record api := Api { ap_db : sdb; ap_os : os; ap_active : Z }.
Definition on_sql {A} (m : M sdb A) : M api A := λ w, let '(r, d) := m (ap_db w) in (r, Api d (ap_os w) (ap_active w)).
Definition on_disk {A} (m : M os A) : M api A := λ w, let '(r, o) := m (ap_os w) in (r, Api (ap_db w) o (ap_active w)).
Definition refuse_if (cond : bool) (status : Z) (code message : string) : M api unit := lift (fail_if cond (writeError status code message)).
Definition or_reply {A} (status : Z) (code message : string) : M api A → M api A := wrapM (λ _, writeError status code message).

(** ** The limit of running commands *)
(* src: backend/internal/server/simple.go:54-54 maxSimpleConcurrentRuns *)
Definition maxSimpleConcurrentRuns : Z := 4.
(* src: backend/internal/server/simple.go:56-64 (Server).acquireSimpleRun *)
Definition acquireSimpleRun : M api bool := λ w,
  if maxSimpleConcurrentRuns <=? ap_active w then (Ok false, w) else (Ok true, Api (ap_db w) (ap_os w) (ap_active w + 1)).
(* src: backend/internal/server/simple.go:66-72 (Server).releaseSimpleRun *)
Definition releaseSimpleRun : M api unit := λ w,
  (Ok (), if 0 <? ap_active w then Api (ap_db w) (ap_os w) (ap_active w - 1) else w).

(** ** Start of the process *)
Definition restart_reason : string := "서버가 재시작되어 실행 결과를 확인할 수 없습니다".
Definition fail_interrupted (n : Z) (t : simple_tables) : simple_tables :=
  set_runs (fmap (λ r, if in_flight (rn_status r) then set_failed n restart_reason r else r)) t.
(* src: backend/internal/server/simple.go:77-88 (Server).RecoverSimpleRuns *)
Definition RecoverSimpleRuns : M api unit :=
  _ ← try (on_sql (pool (statement (λ n t, ((), fail_interrupted n t))))); mret ().

(** The entries of one directory, one removal per staged file. *)
Fixpoint remove_staged (dir : string) (items : list (string * node)) : M os Z :=
  match items with
  | [] => mret 0
  | (name, n) :: items =>
      if negb (is_regular n) || negb (isStagedUploadName name) then remove_staged dir items else
      removed ← try (remove (path_join [dir; name]));
      k ← remove_staged dir items;
      mret (match removed with
            | Err e => if errors_is ErrNotExist e then 1 + k else k
            | Ok _ => 1 + k
            end)
  end.
(* src: backend/internal/server/simple.go:124-149 (Server).removeStagedUploads *)
Fixpoint removeStagedUploads (dirs : list string) : M os Z :=
  match dirs with
  | [] => mret 0
  | dir :: dirs =>
      items ← try (read_dir_entries dir);
      n ← (match items with Ok items => remove_staged dir items | Err _ => mret 0 end);
      k ← removeStagedUploads dirs;
      mret (n + k)
  end.
(* src: backend/internal/server/simple.go:97-119 (Server).RemoveStagedSimpleUploads *)
Definition RemoveStagedSimpleUploads : M api unit :=
  dirs ← try (on_sql (read_sql (λ t, remove_dups ((λ kt : string * target_row, tgt_UploadDir (tr_target kt.2)) <$> map_to_list (sm_targets t)))));
  match dirs with
  | Ok dirs => _ ← on_disk (removeStagedUploads dirs); mret ()
  | Err _ => mret ()
  end.

(** ** Settings and targets *)
(* src: backend/internal/server/simple_config.go:69-71 loadSimpleSettings *)
Definition loadSimpleSettings : M sdb simpleSettings :=
  row ← read_sql sm_settings;
  lift (of_option (Sentinel ErrNoRows) row).

Definition live_targets (t : simple_tables) : list (string * target_row) :=
  filter (λ kt : string * target_row, live_target kt.2 = true) (map_to_list (sm_targets t)).
Definition read_target (f : simple_tables → option (string * target_row)) : M sdb simpleTarget :=
  row ← read_sql f;
  kt ← lift (of_option (Sentinel ErrNoRows) row);
  mret (scanSimpleTarget kt.1 kt.2).
Definition target_at (id : string) (t : simple_tables) : option (string * target_row) :=
  r ← sm_targets t !! id; if live_target r then Some (id, r) else None.
(** The two error variables of the package, told apart by their texts. *)
Definition is_error (text : string) (e : goerr) : bool := match e with Errorf f [] => bool_decide (f = text) | _ => false end.
Definition ambiguous_text : string := "simple target is ambiguous".
Definition missing_text : string := "upload has no artifact part".
(* src: backend/internal/server/simple.go:1249-1249 errSimpleTargetAmbiguous *)
Definition errSimpleTargetAmbiguous : goerr := error_new ambiguous_text.
(* src: backend/internal/server/simple.go:1254-1272 (Server).resolveSimpleTarget *)
Definition resolveSimpleTarget (targetID : string) : M sdb simpleTarget :=
  if negb (empty_str (trim_space targetID)) then read_target (target_at targetID) else
  count ← read_sql (λ t, length (live_targets t));
  if (count =? 0)%nat then throw (Sentinel ErrNoRows) else
  if (1 <? count)%nat then throw errSimpleTargetAmbiguous else
  read_target (λ t, head (live_targets t)).

(** ** The multipart stream

    What the reader yields under the limit of [MaxBytesReader]: the parts, and
    the error that ends them ([EOF] after the last). *)
Record part := { pt_form : string; pt_file : string; pt_body : upload }.
Record form_stream := { fo_parts : list part; fo_end : goerr }.
(* src: backend/internal/server/simple.go:277-277 simpleUploadFields *)
Definition simpleUploadFields : Type := gmap string string.
Definition maxSimpleUploadFieldBytes : Z := 4096.
Definition maxSimpleUploadFields : nat := 8.
(* src: backend/internal/server/simple.go:284-293 (simpleUploadFields).read *)
Definition read_field (f : simpleUploadFields) (p : part) : simpleUploadFields :=
  if negb (empty_str (pt_file p)) || empty_str (pt_form p) || (maxSimpleUploadFields <=? size f)%nat then f else
  let u := pt_body p in
  match up_error u with
  | Some _ => if blen (up_content u) <? maxSimpleUploadFieldBytes then f
              else <[pt_form p := of_chars (take (Z.to_nat maxSimpleUploadFieldBytes) (up_content u))]> f
  | None => <[pt_form p := of_chars (take (Z.to_nat maxSimpleUploadFieldBytes) (up_content u))]> f
  end.
Definition errMissingArtifact : goerr := error_new missing_text.
(** The package with the fields before it and the parts after it. *)
(* src: backend/internal/server/simple.go:302-317 nextSimpleArtifactPart *)
Fixpoint nextSimpleArtifactPart (parts : list part) (ending : goerr) (fields : simpleUploadFields)
    : result (part * simpleUploadFields * list part) :=
  match parts with
  | [] => Err (if errors_is EOF ending then errMissingArtifact else ending)
  | p :: parts =>
      if bool_decide (pt_form p = "artifact") && negb (empty_str (pt_file p)) then Ok (p, fields, parts)
      else nextSimpleArtifactPart parts ending (read_field fields p)
  end.
(* src: backend/internal/server/simple.go:323-332 readSimpleUploadFields *)
Definition readSimpleUploadFields (parts : list part) (fields : simpleUploadFields) : simpleUploadFields := foldl read_field fields parts.

(** ** Staged uploads *)
(* src: backend/internal/server/simple.go:503-509 stagedArtifact *)
Record stagedArtifact := { sa_path : string; sa_partial : string; sa_size : Z; sa_checksum : string }.
(* src: backend/internal/server/simple.go:599-607 (stagedArtifact).discard *)
Definition discard (a : stagedArtifact) : M os unit :=
  if empty_str (sa_partial a) then mret () else _ ← try (remove (sa_partial a)); mret ().

(** Writing and hashing the upload; [random] names it. *)
Definition stage_content (u : upload) (partial : string) (maxBytes : Z) : M os bytes :=
  output ← wrapM (λ _, error_new "업로드 파일을 만들 수 없습니다") (open_excl partial 416);
  copied ← try (copy_upload u (i64 (maxBytes + 1)) output);
  synced ← try (sync_open output);
  closed ← try (close_open output);
  _ ← lift (fail_if (negb (is_ok copied && is_ok synced && is_ok closed)) (error_new "업로드 파일을 저장할 수 없습니다"));
  data ← lift copied;
  _ ← lift (fail_if (maxBytes <? blen data) (Errorf "패키지가 허용 크기(%d bytes)를 초과했습니다" [FInt maxBytes]));
  mret data.
(* src: backend/internal/server/simple.go:540-582 (Server).stageSimpleArtifact *)
Definition stageSimpleArtifact (directory filename : string) (u : upload) (maxBytes : Z) (random : result bytes) : M os stagedArtifact :=
  _ ← ensureUploadDir directory;
  root ← wrapM (λ _, error_new "업로드 경로를 확인할 수 없습니다") (eval_symlinks directory);
  let target := path_join [root; filename] in
  _ ← lift (fail_if (negb (bool_decide (dir target = clean root))) (error_new "업로드 경로를 벗어나는 파일 이름입니다"));
  token ← lift (map_err (λ _, error_new "임시 파일 이름을 만들 수 없습니다") (RandomToken stagedUploadBytes random));
  let partial := target +:+ stagedUploadMarker +:+ token in
  stored ← try (stage_content u partial maxBytes);
  match stored with
  | Err e => _ ← discard {| sa_path := target; sa_partial := partial; sa_size := 0; sa_checksum := "" |}; throw e
  | Ok data => mret {| sa_path := target; sa_partial := partial; sa_size := blen data; sa_checksum := sha256_hex data |}
  end.
(** The artifact after the attempt, and the error. *)
(* src: backend/internal/server/simple.go:586-595 (stagedArtifact).commit *)
Definition commit_staged (a : stagedArtifact) : M os (stagedArtifact * option goerr) :=
  renamed ← try (rename (sa_partial a) (sa_path a));
  match renamed with
  | Err _ => mret (a, Some (error_new "업로드 파일을 확정할 수 없습니다"))
  | Ok _ =>
      let a := {| sa_path := sa_path a; sa_partial := ""; sa_size := sa_size a; sa_checksum := sa_checksum a |} in
      synced ← try (syncDirectory (dir (sa_path a)));
      mret (a, match synced with Err _ => Some (error_new "업로드 경로를 동기화할 수 없습니다") | Ok _ => None end)
  end.

(* src: backend/internal/server/simple.go:489-495 (Server).failSimpleRun *)
Definition failSimpleRun (runID reason : string) : M sdb unit :=
  _ ← try (run_sql (λ n, update_run runID pending (set_failed n reason))); mret ().

(** ** Creating a run *)
(** What the goroutine of a run is started with. *)
Record run_start := {
  rs_id : string; rs_command : resolvedCommand; rs_args : list string; rs_path : string; rs_size : Z; rs_filename : string;
  rs_checksum : string; rs_target : simpleTarget; rs_actor : string; rs_batch : uploadBatch
}.
Section create.
Context (pg_code : goerr → option string) `{ErrorText}.
(* src: backend/internal/server/simple.go:32-35 isUniqueViolation *)
Definition isUniqueViolation (e : goerr) : bool := bool_decide (pg_code e = Some "23505").

(** The checks before anything is stored: target, command and package. *)
(* src: backend/internal/server/simple.go:338-394 (Server).createSimpleRun *)
Definition accept_upload (targetID : string) (form : result form_stream)
    : M api (simpleTarget * resolvedCommand * (part * simpleUploadFields * list part) * string) :=
  cfg ← or_reply 500 "database_error" "could not load simple settings" (on_sql loadSimpleSettings);
  target ← wrapM (λ e, if is_error ambiguous_text e then writeError 400 "target_required" "배포 대상이 여러 개이므로 대상을 선택해야 합니다"
                       else if errors_is ErrNoRows e then writeError 404 "not_found" "배포 대상을 찾을 수 없습니다"
                       else writeError 500 "database_error" "could not load simple target")
             (on_sql (resolveSimpleTarget targetID));
  command ← wrapM (λ e, writeError 409 "command_not_configured" (error_text e)) (lift (resolveCommand cfg target));
  _ ← wrapM (λ e, writeError 409 "command_not_executable" (error_text e))
        (on_disk (validateCommandFields (cmd_Path command) (cmd_Args command) (cmd_Dir command) (Z.quot (cmd_Timeout command) second)));
  let unreadable := writeError 400 "invalid_upload" "패키지 업로드를 읽을 수 없습니다" in
  parts ← lift (map_err (λ _, unreadable) form);
  file ← lift (map_err (λ e, if is_error missing_text e then writeError 400 "invalid_upload" "artifact 파일이 필요합니다" else unreadable)
                (nextSimpleArtifactPart (fo_parts parts) (fo_end parts) ∅));
  let filename := base (trim_space (pt_file file.1.1)) in
  _ ← refuse_if (negb (safeArtifactName filename)) 400 "invalid_filename" "파일 이름은 경로 없이 .tar 또는 .tar.gz로 끝나야 합니다";
  mret (target, command, file, filename).

(** The record of the run, once the package is on the disk. *)
(* src: backend/internal/server/simple.go:427-454 (Server).createSimpleRun *)
Definition record_run (user : string) (newid : result string) (target : simpleTarget) (command : resolvedCommand) (filename : string)
    (staged : stagedArtifact) (batch : uploadBatch) : M api run_start :=
  runID ← lift (map_err (λ _, writeError 500 "id_error" "could not allocate an identifier") newid);
  let args := expandArgs (cmd_Args command) (sa_path staged) in
  _ ← wrapM (λ e, if isUniqueViolation e then writeError 409 "simple_run_active" "이 대상에서 이미 실행 중인 작업이 있습니다"
                  else writeError 500 "database_error" "실행 기록을 저장하지 못했습니다")
        (on_sql (run_sql (λ n, insert_run runID {|
           ro_target := tgt_ID target; ro_actor := user; ro_filename := filename; ro_path := sa_path staged; ro_size := sa_size staged;
           ro_sha256 := sa_checksum staged; ro_source := cmd_Source command; ro_command := cmd_Path command; ro_args := args;
           ro_timeout := Z.quot (cmd_Timeout command) second; ro_batch := bt_ID batch; ro_last := bt_Last batch; ro_created := n |})));
  mret {| rs_id := runID; rs_command := command; rs_args := args; rs_path := sa_path staged; rs_size := sa_size staged;
          rs_filename := filename; rs_checksum := sa_checksum staged; rs_target := target; rs_actor := user; rs_batch := batch |}.

(** The package takes its own name, or the run fails. *)
(* src: backend/internal/server/simple.go:456-463 (Server).createSimpleRun *)
Definition publish_run (x : run_start) (staged : stagedArtifact) : M api (stagedArtifact * result unit) :=
  '(staged, err) ← on_disk (commit_staged staged);
  match err with
  | Some e => _ ← on_sql (failSimpleRun (rs_id x) (error_text e)); mret (staged, Err (writeError 500 "upload_failed" (error_text e)))
  | None => mret (staged, Ok ())
  end.

(** [Ok x]: the goroutine [executeSimpleRun x] was started; its slot is still
    taken.  Every other return gives the slot back and discards what was staged. *)
(* src: backend/internal/server/simple.go:337-483 (Server).createSimpleRun *)
Definition createSimpleRun (user targetID : string) (newid : result string) (random : result bytes) (form : result form_stream) : M api run_start :=
  '(target, command, (file, fields, parts), filename) ← accept_upload targetID form;
  acquired ← acquireSimpleRun;
  _ ← refuse_if (negb acquired) 429 "simple_run_limit" "동시에 실행할 수 있는 작업 수를 초과했습니다";
  staged ← try (on_disk (stageSimpleArtifact (tgt_UploadDir target) filename (pt_body file) (tgt_MaxUploadBytes target) random));
  match staged with
  | Err e => _ ← releaseSimpleRun; throw (writeError 400 "upload_failed" (error_text e))
  | Ok staged =>
      let fields := readSimpleUploadFields parts fields in
      let batch := readUploadBatch (λ k, default "" (fields !! k)) in
      recorded ← try (record_run user newid target command filename staged batch);
      match recorded with
      | Err e => _ ← on_disk (discard staged); _ ← releaseSimpleRun; throw e
      | Ok x =>
          '(staged, published) ← publish_run x staged;
          match published with
          | Err e => _ ← on_disk (discard staged); _ ← releaseSimpleRun; throw e
          | Ok _ => _ ← on_sql (audit user "simple_run.create" "simple_run" (rs_id x) "success"); mret x
          end
      end
  end.
End create.
