(* ===== verification/SimpleRun.v ===== *)
(** * Executing a simple run (backend/internal/server/simple.go, harbor.go)

    The goroutine of a run: the command, the replication of its images by Harbor
    and the deployment of the application, and the outcome that is recorded.
    Harbor's answers, the processes and the passing of time are parameters. *)
From S2P Require Import Prelude GoIO GoString GoPath OS Files Command LocalExec Encoding Model Db Store Backend Releases Artifacts Crypto Vault SimpleConfig SimpleStore SimpleLog Simple.

(** The run's view of the world: the logger, the clock in nanoseconds and the
    number of calls made to Harbor. *)
Record exec := Exec { ex_api : api; ex_log : logger; ex_clock : Z; ex_calls : nat }.
Definition set_api (a : api) (w : exec) : exec := Exec a (ex_log w) (ex_clock w) (ex_calls w).
Definition on_api {A} (m : M api A) : M exec A := λ w, let '(r, a) := m (ex_api w) in (r, set_api a w).
Definition with_log (f : logger → M sdb logger) : M exec unit := λ w,
  let a := ex_api w in
  let '(r, d) := f (ex_log w) (ap_db a) in
  (Ok (), Exec (Api d (ap_os a) (ap_active a)) (match r with Ok l => l | Err _ => ex_log w end) (ex_clock w) (ex_calls w)).
Definition start_log (id : string) : M exec unit := modify (λ w, Exec (ex_api w) (Logger id newLogBudget ∅) (ex_clock w) (ex_calls w)).
Definition say (message : string) : M exec unit := with_log (λ l, log_system l message).
Definition sleep (d : Z) : M exec unit := modify (λ w, Exec (ex_api w) (ex_log w) (ex_clock w + d) (ex_calls w)).
Definition time_now : M exec Z := gets ex_clock.
(** [simpleRunStream]. *)
(* src: backend/internal/server/simple.go:934-937 (simpleRunStream).Write *)
Definition stream_writer (stream : string) : writer exec := λ chunk w,
  ((blen chunk, None), (with_log (λ l, log_write l stream chunk) w).2).

(** ** Harbor (harbor.go) *)
(* src: backend/internal/server/harbor.go:20-27 harborRegistry *)
Record harborRegistry := { hr_ID : string; hr_Name : string; hr_Endpoint : string; hr_Username : string; hr_Password : string; hr_Insecure : bool }.
Record harbor_request := { hq_method : string; hq_url : string; hq_user : string; hq_password : string; hq_insecure : bool; hq_policy : option Z }.
Record harbor_response := { hp_status : Z; hp_location : string; hp_body : bytes }.
(* src: backend/internal/server/harbor.go:237-244 replicationExecution *)
Record replicationExecution := { re_Status : string; re_Total : Z; re_Succeed : Z; re_Failed : Z; re_StatusTx : string }.

(* src: backend/internal/server/harbor.go:265-276 replicationTerminal *)
Definition replicationTerminal (status : string) : bool * bool :=
  let s := to_lower (trim_space status) in
  if bool_decide (s ∈ ["succeed"; "succeeded"; "success"]) then (true, true)
  else if bool_decide (s ∈ ["failed"; "error"]) then (true, false)
  else if bool_decide (s = "stopped") then (true, false) else (false, false).

(** [Duration.Round], of a duration that is not negative. *)
Definition round_to (unit d : Z) : Z := let r := d mod unit in if 2 * r <? unit then d - r else d + unit - r.
Definition millisecond : Z := 1000000.

Section run.
(** [Duration.String]. *)
Context (duration_text : Z → string) `{ErrorText}.
(** net/url: scheme and host; what Harbor answers to a call, after how long; the
    JSON decoders; the vault's cipher. *)
Context (parse_url : string → result (string * string)).
Context (harbor : nat → harbor_request → Z * result harbor_response).
Context (decode_credential : string → option (string * string)) (decode_id : bytes → option Z)
        (decode_execution : bytes → result replicationExecution) (vault : Vault).
(** The processes; the order in which Go visits a map. *)
Context (process : lx_Spec exec → list string → exec → (process_end * Z) * exec)
        (range : gmap string string → list (string * string)) (range_pending : gmap string bytes → list string).

(* src: backend/internal/server/harbor.go:42-69 (Server).loadHarborRegistry *)
Definition loadHarborRegistry (registryID : string) : M sdb harborRegistry :=
  row ← read_sql (λ t, r ← sm_registries t !! registryID; if rg_usable r then Some r else None);
  r ← lift (of_option (Sentinel ErrNoRows) row);
  plaintext ← wrapM (wrap "decrypt registry credential: %w") (lift (VaultDecrypt vault (rg_ciphertext r) (registryAAD registryID (rg_version r))));
  credential ← lift (of_option (error_new "stored registry credential is invalid") (decode_credential plaintext));
  mret {| hr_ID := registryID; hr_Name := rg_name r; hr_Endpoint := rg_endpoint r;
          hr_Username := if empty_str credential.1 then rg_username r else credential.1; hr_Password := credential.2;
          hr_Insecure := rg_insecure r |}.

(* src: backend/internal/server/harbor.go:93-99 harborURL *)
Definition harborURL (endpoint path : string) : result string :=
  let invalid := Errorf "registry endpoint is invalid: %q" [FStr endpoint] in
  u ← map_err (λ _, invalid) (parse_url (trim_right ["/"%char] (trim_space endpoint)));
  _ ← fail_if (empty_str u.2 || negb (bool_decide (u.1 = "http")) && negb (bool_decide (u.1 = "https"))) invalid;
  Ok (u.1 +:+ "://" +:+ u.2 +:+ path).
(** The response with the address that was called. *)
(* src: backend/internal/server/harbor.go:101-127 (Server).harborRequest *)
Definition harborRequest (reg : harborRegistry) (method path : string) (policy : option Z) : M exec (harbor_response * string) :=
  target ← lift (harborURL (hr_Endpoint reg) path);
  answer ← ((λ w, let '(elapsed, r) := harbor (ex_calls w) {| hq_method := method; hq_url := target; hq_user := hr_Username reg;
                       hq_password := hr_Password reg; hq_insecure := hr_Insecure reg; hq_policy := policy |} in
            (r, Exec (ex_api w) (ex_log w) (ex_clock w + Z.max 0 elapsed) (S (ex_calls w)))) : M exec harbor_response);
  mret (answer, target).
Definition success_code (status : Z) : bool := (200 <=? status) && (status <? 300).
(* src: backend/internal/server/harbor.go:133-155 harborError *)
Definition harborError (action requestURL : string) (resp : harbor_response) : goerr :=
  let trimmed := trim_space (of_chars (take 2048 (hp_body resp))) in
  let trimmed := if 300 <? slen trimmed then take_str 300 trimmed +:+ "…" else trimmed in
  if bool_decide (hp_status resp ∈ [401; 403]) then
    Errorf "%s: Harbor 인증이 거부되었습니다 (HTTP %d, %s). Robot 계정에 replication 조회/실행 권한이 있는지 확인하십시오"
      [FStr action; FInt (hp_status resp); FStr requestURL]
  else if hp_status resp =? 404 then
    Errorf "%s: Harbor API 경로를 찾을 수 없습니다 (HTTP 404, %s). 레지스트리 Endpoint 가 Harbor 포털 주소인지, 앞단 프록시가 /api/ 를 통과시키는지, Harbor 가 v2 API(/api/v2.0)를 제공하는 버전인지 확인하십시오"
      [FStr action; FStr requestURL]
  else if empty_str trimmed then
    Errorf "%s: Harbor 가 HTTP %d 로 응답했습니다 (%s)" [FStr action; FInt (hp_status resp); FStr requestURL]
  else Errorf "%s: Harbor 가 HTTP %d 로 응답했습니다 (%s): %s" [FStr action; FInt (hp_status resp); FStr requestURL; FStr trimmed].

(** The number after the last slash of the Location header. *)
Definition location_id (location : string) : option Z :=
  '(_, tail) ← last_cut ["/"%char] (chars location);
  atoi (trim_space (of_chars tail)).
(* src: backend/internal/server/harbor.go:207-235 (Server).startReplication *)
Definition startReplication (reg : harborRegistry) (policyID : Z) : M exec Z :=
  '(resp, url) ← wrapM (wrap "Harbor 에 연결하지 못했습니다: %w") (harborRequest reg "POST" "/api/v2.0/replication/executions" (Some policyID));
  _ ← lift (fail_if (negb (success_code (hp_status resp))) (harborError "복제 실행" url resp));
  mret (match location_id (hp_location resp) with
        | Some id => id
        | None => match decode_id (take 1048576 (hp_body resp)) with Some id => if 0 <? id then id else 0 | None => 0 end
        end).
(* src: backend/internal/server/harbor.go:246-261 (Server).replicationExecution *)
Definition replication_execution (reg : harborRegistry) (executionID : Z) : M exec replicationExecution :=
  '(resp, url) ← harborRequest reg "GET" ("/api/v2.0/replication/executions/" +:+ pretty executionID) None;
  _ ← lift (fail_if (negb (success_code (hp_status resp))) (harborError "복제 상태 조회" url resp));
  lift (decode_execution (take 1048576 (hp_body resp))).

(** ** Replication *)
Definition stage_result : Type := string * Z * string.
(** [None]: the fuel is used up. *)
Fixpoint await_replication (fuel : nat) (reg : harborRegistry) (executionID deadline started timeout : Z) (lastReported : string)
    : M exec (option stage_result) :=
  match fuel with
  | O => mret None
  | S fuel =>
      now ← time_now;
      if deadline <? now then
        let message := "복제가 제한 시간 " +:+ duration_text timeout +:+ " 안에 끝나지 않았습니다 (execution " +:+ pretty executionID +:+ ")" in
        _ ← say ("[replication] " +:+ message); mret (Some ("TIMEOUT", executionID, message))
      else
        _ ← sleep (3 * second);
        r ← try (replication_execution reg executionID);
        match r with
        | Err _ => await_replication fuel reg executionID deadline started timeout lastReported
        | Ok execution =>
            let status := re_Status execution in
            _ ← (if bool_decide (status = lastReported) then mret () else
                 say ("[replication] " +:+ status +:+ " (성공 " +:+ pretty (re_Succeed execution) +:+ " / 실패 " +:+ pretty (re_Failed execution)
                      +:+ " / 전체 " +:+ pretty (re_Total execution) +:+ ")"));
            let '(done, ok) := replicationTerminal status in
            if negb done then await_replication fuel reg executionID deadline started timeout status else
            finished ← time_now;
            if ok : bool then _ ← say ("[replication] 성공 (" +:+ duration_text (round_to second (finished - started)) +:+ ")"); mret (Some ("SUCCESS", executionID, ""))
            else
              let message := "복제가 " +:+ status +:+ " 상태로 끝났습니다 (실패 " +:+ pretty (re_Failed execution) +:+ "건)"
                             +:+ (if empty_str (re_StatusTx execution) then "" else ": " +:+ re_StatusTx execution) in
              _ ← say ("[replication] " +:+ message); mret (Some ("FAILED", executionID, message))
        end
  end.
(** Every round sleeps three seconds: the deadline bounds their number. *)
Definition replication_rounds (timeout : Z) : nat := S (S (Z.to_nat (timeout / (3 * second)))).
(* src: backend/internal/server/simple.go:1466-1536 (Server).runReplication *)
Definition runReplication (cfg : simpleSettings) : M exec (option stage_result) :=
  registry ← try (on_api (on_sql (loadHarborRegistry (cfg_ReplicationRegistry cfg))));
  match registry with
  | Err e =>
      let message := "복제 레지스트리를 사용할 수 없습니다: " +:+ error_text e in
      _ ← say ("[replication] " +:+ message); mret (Some ("FAILED", 0, message))
  | Ok reg =>
      let label := if empty_str (cfg_ReplicationPolicy cfg) then "#" +:+ pretty (cfg_ReplicationPolicyID cfg) else cfg_ReplicationPolicy cfg in
      _ ← say ("[replication] " +:+ hr_Name reg +:+ " 규칙 " +:+ label +:+ " 시작");
      started ← try (startReplication reg (cfg_ReplicationPolicyID cfg));
      match started with
      | Err e => _ ← say ("[replication] 실패: " +:+ error_text e); mret (Some ("FAILED", 0, error_text e))
      | Ok executionID =>
          if executionID =? 0 then
            _ ← say "[replication] 요청은 접수됐으나 실행 ID를 확인하지 못해 상태를 추적하지 않습니다"; mret (Some ("SUCCESS", 0, ""))
          else
            let timeout := cfg_ReplicationTimeout cfg * second in
            let timeout := if timeout <=? 0 then 900 * second else timeout in
            now ← time_now;
            await_replication (replication_rounds timeout) reg executionID (now + timeout) now timeout ""
      end
  end.

(** ** Commands *)
Definition standard_env (runID dir : string) (target : simpleTarget) (artifact filename checksum actor : string) : gmap string string :=
  list_to_map [("PATH", "/usr/local/sbin:/usr/local/bin:/usr/sbin:/usr/bin:/sbin:/bin"); ("HOME", dir); ("LANG", "C.UTF-8"); ("LC_ALL", "C.UTF-8");
    ("RELEASEDOCK_RUN_ID", runID); ("RELEASEDOCK_TARGET", tgt_Name target); ("ARTIFACT", artifact); ("ARTIFACT_DIR", tgt_UploadDir target);
    ("ARTIFACT_NAME", filename); ("ARTIFACT_SHA256", checksum); ("ACTOR", actor)].
Definition run_command (spec : lx_Spec exec) : M exec (lx_Result * option goerr) := λ w,
  let on {A} (m : string → M os A) p := on_api (on_disk (m p)) in
  let '(r, w) := lx_Run (on stat) (on lstat) process range spec w in (Ok r, w).
Definition flush : M exec unit := with_log (log_flush range_pending).

(* src: backend/internal/server/simple.go:1548-1602 (Server).runAppDeploy *)
Definition runAppDeploy (cfg : simpleSettings) (x : run_start) : M exec (string * string) :=
  valid ← try (on_api (on_disk (validateCommandFields (cfg_AppDeployPath cfg) (cfg_AppDeployArgs cfg) (cfg_AppDeployDir cfg) (cfg_AppDeployTimeout cfg))));
  match valid with
  | Err e =>
      let message := "앱 배포 명령 설정이 올바르지 않습니다: " +:+ error_text e in
      _ ← say ("[app-deploy] " +:+ message); mret ("FAILED", message)
  | Ok _ =>
      let dir := if empty_str (cfg_AppDeployDir cfg) then tgt_UploadDir (rs_target x) else cfg_AppDeployDir cfg in
      let args := expandArgs (cfg_AppDeployArgs cfg) (rs_path x) in
      _ ← say ("[app-deploy] $ " +:+ cfg_AppDeployPath cfg +:+ " " +:+ join " " args);
      started ← time_now;
      '(result, runErr) ← run_command {|
         lx_Path := cfg_AppDeployPath cfg; lx_Args := args; lx_Dir := dir; lx_Timeout := cfg_AppDeployTimeout cfg * second;
         lx_Env := <["RELEASEDOCK_STAGE" := "app-deploy"]>
                     (standard_env (rs_id x) dir (rs_target x) (rs_path x) (rs_filename x) (rs_checksum x) (rs_actor x));
         lx_Stdout := stream_writer "stdout"; lx_Stderr := stream_writer "stderr" |};
      _ ← flush;
      ended ← time_now;
      let elapsed := round_to millisecond (lx_Duration result) in
      let elapsed := if elapsed =? 0 then round_to millisecond (ended - started) else elapsed in
      if lx_TimedOut result then
        let message := "제한 시간 " +:+ pretty (cfg_AppDeployTimeout cfg) +:+ "초를 초과하여 종료했습니다" in
        _ ← say ("[app-deploy] " +:+ message); mret ("TIMEOUT", message)
      else match runErr with
      | Some e => _ ← say ("[app-deploy] 실패 exit=" +:+ pretty (lx_ExitCode result) +:+ ": " +:+ error_text e); mret ("FAILED", error_text e)
      | None => _ ← say ("[app-deploy] 성공 (" +:+ duration_text elapsed +:+ ")"); mret ("SUCCESS", "")
      end
  end.

(** ** The stages after the command *)
(* src: backend/internal/server/simple.go:751-760 (Server).uploadHasFailedPackages *)
Definition uploadHasFailedPackages (batchID runID : string) : M sdb bool :=
  others ← try (read_sql (λ t, length (filter (λ kr : string * run_row,
             ro_batch (rn_origin kr.2) = batchID ∧ kr.1 ≠ runID ∧ rn_status kr.2 ≠ "SUCCESS") (map_to_list (sm_runs t)))));
  mret (match others with Ok n => (0 <? n)%nat | Err _ => true end).

Record verdict := {
  vd_status : string; vd_message : string; vd_replication : string; vd_execution : Z; vd_replication_error : string;
  vd_app : string; vd_app_error : string; vd_held : bool
}.
Definition unstaged (status message : string) : verdict := {|
  vd_status := status; vd_message := message; vd_replication := stageStatusNone; vd_execution := 0; vd_replication_error := "";
  vd_app := stageStatusNone; vd_app_error := ""; vd_held := false |}.
(** [runReplication] with its loop run to the end ([replication_ends]). *)
Definition replicate (cfg : simpleSettings) : M exec stage_result :=
  r ← runReplication cfg;
  mret (default ("FAILED", 0, "") r).

(** The replication: its outcome, and whether it was held. *)
(* src: backend/internal/server/simple.go:681-694 (Server).executeSimpleRun *)
Definition replication_stage (cfg : simpleSettings) (batchLast incomplete : bool) : M exec (stage_result * bool) :=
  if cfg_ReplicationEnabled cfg && negb (empty_str (cfg_ReplicationRegistry cfg)) && (0 <? cfg_ReplicationPolicyID cfg) then
    r ← (if negb (stageRuns (cfg_ReplicationScope cfg) batchLast) then
           _ ← say "[replication] 업로드당 한 번만 실행하도록 설정되어 있어 마지막 파일에서 실행합니다";
           mret ((stageStatusSkipped, 0, ""), false)
         else if stageHeldForIncompleteUpload (cfg_ReplicationScope cfg) incomplete then
           _ ← say "[replication] 같은 업로드의 다른 패키지가 배포되지 않아 복제를 실행하지 않았습니다";
           mret ((stageStatusSkipped, 0, ""), true)
         else s ← replicate cfg; mret (s, false));
    _ ← flush;
    mret r
  else mret ((stageStatusNone, 0, ""), false).
(* src: backend/internal/server/simple.go:704-722 (Server).executeSimpleRun *)
Definition app_stage (cfg : simpleSettings) (x : run_start) (incomplete : bool) (replication : string) (replicationHeld : bool)
    : M exec ((string * string) * bool) :=
  r ← (if stageHeldForIncompleteUpload (cfg_AppDeployScope cfg) incomplete then
         _ ← say "[app-deploy] 같은 업로드의 다른 패키지가 배포되지 않아 앱 배포를 실행하지 않았습니다";
         mret ((stageStatusSkipped, ""), true)
       else if negb (appDeployStageRuns (cfg_AppDeployScope cfg) (bt_Last (rs_batch x)) replication) then
         _ ← say (if replicationHeld then "[app-deploy] 복제를 실행하지 않았으므로 앱 배포도 실행하지 않았습니다"
                  else if bool_decide (replication = stageStatusSkipped)
                  then "[app-deploy] 복제를 마지막 파일에서 실행하므로 앱 배포도 마지막 파일에서 실행합니다"
                  else "[app-deploy] 업로드당 한 번만 실행하도록 설정되어 있어 마지막 파일에서 실행합니다");
         mret ((stageStatusSkipped, ""), false)
       else s ← runAppDeploy cfg x; mret (s, false));
  _ ← flush;
  mret r.
(* src: backend/internal/server/simple.go:676-728 (Server).executeSimpleRun *)
Definition run_stages (cfg : simpleSettings) (x : run_start) (message : string) : M exec verdict :=
  let batch := rs_batch x in
  incomplete ← (if negb (empty_str (bt_ID batch)) && bt_Last batch then on_api (on_sql (uploadHasFailedPackages (bt_ID batch) (rs_id x))) else mret false);
  '((replication, execution, replication_error), replicationHeld) ← replication_stage cfg (bt_Last batch) incomplete;
  let v status message app app_error held := {|
    vd_status := status; vd_message := message; vd_replication := replication; vd_execution := execution; vd_replication_error := replication_error;
    vd_app := app; vd_app_error := app_error; vd_held := held |} in
  if stageFailed replication then
    mret (v "FAILED" ("배포 명령은 성공했으나 복제에 실패했습니다: " +:+ replication_error) stageStatusNone "" replicationHeld)
  else if cfg_AppDeployEnabled cfg && negb (empty_str (cfg_AppDeployPath cfg)) then
    '((app, app_error), appHeld) ← app_stage cfg x incomplete replication replicationHeld;
    if stageFailed app then
      mret (v "FAILED" ("배포 명령과 복제는 성공했으나 앱 배포에 실패했습니다: " +:+ app_error) app app_error (replicationHeld || appHeld))
    else mret (v "SUCCESS" message app app_error (replicationHeld || appHeld))
  else mret (v "SUCCESS" message stageStatusNone "" replicationHeld).

(** The settings are read at the end of the command. *)
(* src: backend/internal/server/simple.go:670-729 (Server).executeSimpleRun *)
Definition after_command (x : run_start) (status message : string) : M exec verdict :=
  settings ← try (on_api (on_sql loadSimpleSettings));
  v ← (match settings with
       | Err e =>
           _ ← say ("[post-deploy] 배포 후 단계 설정을 읽지 못해 복제와 앱 배포를 실행하지 못했습니다: " +:+ error_text e);
           let '(status, message) := outcomeWithoutStageSettings status message (Some e) in mret (unstaged status message)
       | Ok cfg => if bool_decide (status = "SUCCESS") then run_stages cfg x message else mret (unstaged status message)
       end);
  let '(status, message) := outcomeWithHeldStages (vd_status v) (vd_message v) (vd_held v) in
  mret {| vd_status := status; vd_message := message; vd_replication := vd_replication v; vd_execution := vd_execution v;
          vd_replication_error := vd_replication_error v; vd_app := vd_app v; vd_app_error := vd_app_error v; vd_held := vd_held v |}.

Definition command_status (command : resolvedCommand) (r : lx_Result * option goerr) : string * string :=
  if lx_TimedOut r.1 then ("TIMEOUT", "제한 시간 " +:+ duration_text (cmd_Timeout command) +:+ "를 초과하여 종료했습니다")
  else match r.2 with Some e => ("FAILED", error_text e) | None => ("SUCCESS", "") end.
Definition outcome_of (exit : Z) (v : verdict) : run_outcome := {|
  oc_exit := Some exit; oc_error := vd_message v; oc_replication := vd_replication v;
  oc_execution := if vd_execution v =? 0 then None else Some (vd_execution v); oc_replication_error := vd_replication_error v;
  oc_app := vd_app v; oc_app_error := vd_app_error v |}.

(** The command of the run, with its log. *)
(* src: backend/internal/server/simple.go:619-656 (Server).executeSimpleRun *)
Definition deploy_command (x : run_start) : M exec (lx_Result * string * string) :=
  let command := rs_command x in
  _ ← start_log (rs_id x);
  _ ← say ("$ " +:+ cmd_Path command +:+ " " +:+ join " " (rs_args x));
  r ← run_command {|
    lx_Path := cmd_Path command; lx_Args := rs_args x; lx_Dir := cmd_Dir command; lx_Timeout := cmd_Timeout command;
    lx_Env := standard_env (rs_id x) (cmd_Dir command) (rs_target x) (rs_path x) (rs_filename x) (rs_checksum x) (rs_actor x);
    lx_Stdout := stream_writer "stdout"; lx_Stderr := stream_writer "stderr" |};
  _ ← flush;
  let '(status, message) := command_status command r in
  _ ← say ("exit=" +:+ pretty (lx_ExitCode r.1) +:+ " status=" +:+ status +:+ " duration=" +:+ duration_text (round_to millisecond (lx_Duration r.1)));
  _ ← flush;
  mret (r.1, status, message).

(* src: backend/internal/server/simple.go:612-742 (Server).executeSimpleRun *)
Definition executeSimpleRun (x : run_start) : M exec unit :=
  started ← try (on_api (on_sql (run_sql (λ n, update_run (rs_id x) pending (λ r, set_started n (set_status "RUNNING" r))))));
  match started with
  | Err _ => mret ()
  | Ok _ =>
      '(result, status, message) ← deploy_command x;
      v ← after_command x status message;
      _ ← try (on_api (on_sql (run_sql (λ n, update_run (rs_id x) (λ _, true) (set_outcome n (vd_status v) (outcome_of (lx_ExitCode result) v))))));
      on_api (on_sql (audit (rs_actor x) ("simple_run." +:+ to_lower (vd_status v)) "simple_run" (rs_id x) (to_lower (vd_status v))))
  end.
(** The goroutine: the slot is given back in the end. *)
(* src: backend/internal/server/simple.go:472-475 (Server).createSimpleRun *)
Definition run_goroutine (x : run_start) : M exec unit :=
  _ ← try (executeSimpleRun x);
  on_api releaseSimpleRun.
End run.
