(* ===== verification/SimpleFrame.v ===== *)
(** * What a run may do to its log and its world (theorems about SimpleLog.v and SimpleRun.v)

    First the logger.  Then the rest of a run: an invariant over the tables, the run's logger and the running commands is
    kept by everything between the start of a run's command and its outcome, as
    soon as the logger's operations keep it: every other call reads, waits or
    works on files. *)
From S2P Require Import Prelude GoIO GoString GoPath OS Model Db Command Store Encoding Crypto Files Backend Releases Artifacts LocalExec Vault SimpleConfig SimpleStore SimpleLog Simple SimpleRun.

(** ** The log of a run stays within its budget (theorems about SimpleLog.v)

    What the logger may do to the tables, and that nothing of the output is lost
    or reordered while the budget lasts. *)

(** ** Costs *)
(** A stored line takes its bytes, and at least one. *)
Definition line_cost (p : bytes) : Z := Z.max 1 (blen p).
Fixpoint cost (system : bool) (l : list log_line) : Z :=
  match l with
  | [] => 0
  | x :: l => (if bool_decide (is_system (ll_stream x) = system) then line_cost (ll_payload x) else 0) + cost system l
  end.
Fixpoint stored_bytes (l : list log_line) : Z := match l with [] => 0 | x :: l => blen (ll_payload x) + stored_bytes l end.

Lemma cost_app s l k : cost s (l ++ k) = cost s l + cost s k.
Proof. induction l as [|x l IH]; simpl; lia. Qed.
Lemma stored_payload_app l k : stored_bytes (l ++ k) = stored_bytes l + stored_bytes k.
Proof. induction l as [|x l IH]; simpl; lia. Qed.
Lemma payload_nonneg (b : bytes) : 0 ≤ blen b.
Proof. unfold blen. lia. Qed.
Lemma stored_bytes_cost l : 0 ≤ stored_bytes l ≤ cost true l + cost false l.
Proof.
  induction l as [|x l IH]; simpl; [lia|]. unfold line_cost. pose proof (payload_nonneg (ll_payload x)).
  destruct (is_system (ll_stream x)); simpl; lia.
Qed.

Lemma trim_le p n : 0 ≤ n → blen (trimToRuneBoundary p n) ≤ n.
Proof.
  intros Hn. unfold trimToRuneBoundary. destruct (Z.leb_spec (blen p) n); [done|]. unfold blen. rewrite length_take.
  assert (∀ k m, (step_back k p m ≤ m)%nat) as Hs; [|specialize (Hs 3%nat (Z.to_nat n)); lia].
  intros k. induction k as [|k IH]; intros m; simpl; [destruct m; lia|]. destruct m as [|m]; [lia|].
  destruct (p !! S m) as [c|]; [destruct (rune_start c); [lia|]|lia]. specialize (IH m). lia.
Qed.

(** ** What the budget grants *)
Definition room (b : logBudget) : Prop := 0 ≤ lb_command b ∧ 0 ≤ lb_system b.
Definition left_for (system : bool) (b : logBudget) : Z := if system then lb_system b else lb_command b.
Lemma take_budget_spec b stream size allowed store exhausted b' :
  take_budget b stream size = ((allowed, store, exhausted), b') → room b → 0 ≤ size →
  room b' ∧ 0 ≤ allowed ≤ size ∧ (exhausted = true → is_system stream = false) ∧
  (if store then left_for (is_system stream) b' + Z.max 1 allowed ≤ left_for (is_system stream) b else b' = b) ∧
  (∀ s, s ≠ is_system stream → left_for s b' = left_for s b).
Proof.
  unfold take_budget, room, remaining, set_remaining, emptyLineCost, left_for. intros Ht [Hc Hs] Hsize.
  rewrite Z.max_l in Ht by lia. destruct (is_system stream); simpl in Ht;
    repeat match goal with H : context [if ?b then _ else _] |- _ => destruct b eqn:? end;
    simplify_eq; simpl; split_and!; try (intros [] ?); done || lia.
Qed.

(** ** Statements of the logger *)
Lemma run_sql_cases {A} (f : Z → simple_tables → result (A * simple_tables)) (w : sdb) r w' :
  run_sql f w = (r, w') →
  now w' = now w ∧ match r with Ok a => f (now w) (tabs w) = Ok (a, tabs w') | Err _ => tabs w' = tabs w end.
Proof.
  unfold run_sql, pool, checked. simpl. destruct (db_faults w (S (db_tick w))); simpl; [by intros [= <- <-]|].
  destruct (f (now w) (tabs w)) as [[a t]|e]; simpl; by intros [= <- <-].
Qed.

Definition run_lines (id : string) (t : simple_tables) : list log_line := filter (λ x, ll_run x = id) (sm_logs t).*2.

(** What has been stored for a run, and what the logger may still store; [n]
    bytes are not yet counted in the row. *)
Record within_by (n : Z) (id : string) (l : logger) (t : simple_tables) : Prop := {
  wi_id : lg_run_id l = id;
  wi_room : room (lg_budget l);
  wi_cost s : cost s (run_lines id t) + left_for s (lg_budget l) ≤ left_for s newLogBudget;
  wi_bytes r : sm_runs t !! id = Some r → rn_log_bytes r + n ≤ stored_bytes (run_lines id t)
}.
Abbreviation within := (within_by 0).

Lemma within_insert id l t x b :
  within id l t → room b → ll_run x = id →
  left_for (is_system (ll_stream x)) b + line_cost (ll_payload x) ≤ left_for (is_system (ll_stream x)) (lg_budget l) →
  (∀ s, s ≠ is_system (ll_stream x) → left_for s b = left_for s (lg_budget l)) →
  within_by (blen (ll_payload x)) id (set_budget b l) (SimpleTables (sm_settings t) (sm_targets t) (sm_runs t) (sm_logs t ++ [(sm_serial t, x)]) (sm_serial t + 1)
                 (sm_registries t) (sm_audits t)).
Proof.
  intros [Hi _ Hcost Hb] Hr Hx Hle Ho. set (t' := SimpleTables _ _ _ _ _ _ _).
  assert (run_lines id t' = run_lines id t ++ [x]) as Hl.
  { unfold run_lines. simpl. rewrite fmap_app, filter_app. simpl. by rewrite filter_cons_True. }
  constructor; rewrite ?Hl; simpl; [done|done| |].
  - intros s. specialize (Hcost s). rewrite cost_app. simpl. case_bool_decide as E; [subst s; lia|]. rewrite Ho by done. lia.
  - intros r Hr0. specialize (Hb r Hr0). rewrite stored_payload_app. simpl. lia.
Qed.
Lemma run_lines_update id id' t c f u t' : update_run id c f t = Ok (u, t') → run_lines id' t' = run_lines id' t.
Proof. unfold update_run. intros H. repeat case_match; simplify_eq; done. Qed.
Lemma update_run_row id c f t u t' k r :
  update_run id c f t = Ok (u, t') → sm_runs t' !! k = Some r →
  sm_runs t !! k = Some r ∨ (k = id ∧ ∃ r0, sm_runs t !! id = Some r0 ∧ c r0 = true ∧ run_finished (rn_status r0) = false ∧ r = f r0).
Proof.
  unfold update_run. intros H Hr. destruct (sm_runs t !! id) as [r0|] eqn:E; [|simplify_eq; by left].
  destruct (negb (c r0)) eqn:Ec; [simplify_eq; by left|]. destruct (run_finished (rn_status r0)) eqn:Ef; [done|]. simplify_eq.
  unfold set_runs in Hr. simpl in Hr. apply lookup_insert_Some in Hr as [[<- <-]|[_ Hr]]; [|by left]. right. bools. by eauto 6.
Qed.

Definition log_triple (id : string) (l : logger) (m : M sdb logger) : Prop :=
  triple (λ w, within id l (tabs w)) m (λ l' w, within id l' (tabs w)) (λ _, False).
Lemma log_triple_ret id l : log_triple id l (mret l).
Proof. by apply triple_ret. Qed.
Lemma log_triple_bind id l m k : log_triple id l m → (∀ l', log_triple id l' (k l')) → log_triple id l (m ≫= k).
Proof. intros Hm Hk. by eapply triple_bind; [exact Hm|]. Qed.
Lemma within_budget id l b t :
  within id l t → room b → (∀ s, left_for s b ≤ left_for s (lg_budget l)) → within id (set_budget b l) t.
Proof. intros [Hi Hr Hc Hb] ? Hle. constructor; simpl; [done..| |done]. intros s. specialize (Hc s). specialize (Hle s). lia. Qed.
Lemma within_pending id l p t : within id l t → within id (set_pending p l) t.
Proof. by intros []. Qed.

Lemma within_counted n id l t u t' :
  0 ≤ n → within_by n id l t → update_run id (λ _, true) (add_log_bytes n) t = Ok (u, t') → within id l t'.
Proof.
  intros Hn [Hi Hr Hc Hb] Hu. constructor; rewrite ?(run_lines_update _ id _ _ _ _ _ Hu); [done..|]. intros r Hr'.
  destruct (update_run_row _ _ _ _ _ _ _ _ Hu Hr') as [H|(_ & r0 & H & _ & _ & ->)]; specialize (Hb _ H); simpl; lia.
Qed.
Lemma within_weaken n id l t : 0 ≤ n → within_by n id l t → within id l t.
Proof. intros Hn [Hi Hr Hc Hb]. constructor; [done..|]. intros r H. specialize (Hb r H). lia. Qed.

Lemma insert_within id l b stream p :
  room b → left_for (is_system stream) b + line_cost p ≤ left_for (is_system stream) (lg_budget l) →
  (∀ s, s ≠ is_system stream → left_for s b = left_for s (lg_budget l)) →
  triple (λ w : sdb, within id l (tabs w))
    (try (run_sql (λ _, insert_log {| ll_run := lg_run_id l; ll_stream := stream; ll_payload := p |})))
    (λ r w, match r with Ok _ => within_by (blen p) id (set_budget b l) (tabs w) | Err _ => within id (set_budget b l) (tabs w) end)
    (λ _, False).
Proof.
  intros Hr Hle Ho w Hw. unfold try. destruct (run_sql _ w) as [r w1] eqn:E. apply run_sql_cases in E as [_ E].
  destruct r as [[]|e].
  - unfold insert_log in E. destruct (_ || _); [done|]. injection E as <-.
    apply (within_insert id l _ {| ll_run := lg_run_id l; ll_stream := stream; ll_payload := p |}); try done. by apply Hw.
  - rewrite E. apply within_budget; [done..|]. intros s. destruct (decide (s = is_system stream)) as [->|Hs]; [|by rewrite Ho].
    unfold line_cost in Hle. lia.
Qed.
Lemma count_within id l n : 0 ≤ n →
  triple (λ w : sdb, within_by n id l (tabs w)) (try (run_sql (λ _, update_run id (λ _, true) (add_log_bytes n))))
    (λ _ w, within id l (tabs w)) (λ _, False).
Proof.
  intros Hn w Hw. unfold try. destruct (run_sql _ w) as [r w1] eqn:E. apply run_sql_cases in E as [_ E].
  destruct r as [u|e]; [by eapply within_counted|]. rewrite E. by eapply within_weaken.
Qed.

Lemma append_line_within id depth l stream payload : log_triple id l (append_line depth l stream payload).
Proof.
  revert l stream payload. induction depth as [|depth IH]; intros l stream payload w Hw.
  all: destruct (take_budget (lg_budget l) stream (blen payload)) as [[[allowed store] exhausted] b] eqn:Ht.
  all: destruct (take_budget_spec _ _ _ _ _ _ _ Ht (wi_room _ _ _ _ Hw) (payload_nonneg _)) as (Hroom & Ha & _ & Hle & Ho).
  all: pose proof (trim_le payload allowed (proj1 Ha)) as Htrim; pose proof (payload_nonneg (trimToRuneBoundary payload allowed)) as Hn.
  all: revert w Hw; cbn [append_line]; rewrite Ht; (destruct store; cbn [negb]; [|subst b; destruct l; exact (log_triple_ret id _)]).
  all: eapply triple_bind; [apply (insert_within id l b); [done|unfold line_cost; lia|done]|].
  all: intros [[]|e]; [|by apply triple_ret].
  all: intros w Hw; pose proof (wi_id _ _ _ _ Hw) as Hid; revert w Hw; cbn [set_budget lg_run_id] in *; rewrite Hid.
  all: eapply triple_bind; [by apply count_within|intros u].
  - by apply triple_ret.
  - destruct exhausted; [apply IH|by apply triple_ret].
Qed.
Lemma append_within id l stream payload : log_triple id l (append l stream payload).
Proof. apply append_line_within. Qed.
Lemma append_all_within id stream lines l : log_triple id l (append_all l stream lines).
Proof.
  revert l. induction lines as [|x lines IH]; intros l; [apply log_triple_ret|]. apply log_triple_bind; [apply append_within|done].
Qed.
Lemma set_pending_within id l p m : log_triple id l m → triple (λ w : sdb, within id l (tabs w)) (l' ← m; mret (set_pending (p l') l')) (λ l' w, within id l' (tabs w)) (λ _, False).
Proof. intros Hm. eapply triple_bind; [exact Hm|]. intros l'. apply triple_ret. intros w. apply within_pending. Qed.
Lemma write_within id l stream chunk : log_triple id l (log_write l stream chunk).
Proof.
  unfold log_write. destruct (split_lines _) as [lines buffer]. apply log_triple_bind; [apply append_all_within|intros l'].
  destruct (65536 <? blen buffer).
  - apply (set_pending_within id l' (λ l, <[stream := []]> (lg_pending l))). apply append_within.
  - apply (triple_ret _ (set_pending _ l')). intros w. apply within_pending.
Qed.
Lemma flush_within id range l : log_triple id l (log_flush range l).
Proof.
  unfold log_flush. generalize (range (lg_pending l)) as streams. intros streams. revert l.
  induction streams as [|stream streams IH]; intros l; [apply log_triple_ret|]. cbn [flush_streams].
  apply log_triple_bind; [case_bool_decide; [apply log_triple_ret|apply append_within]|]. intros l' w Hw. apply IH. by apply within_pending.
Qed.

(** ** Runs and their records *)
Definition single (t : simple_tables) : Prop := ∀ k1 k2 r1 r2,
  sm_runs t !! k1 = Some r1 → sm_runs t !! k2 = Some r2 → in_flight (rn_status r1) = true → in_flight (rn_status r2) = true →
  ro_target (rn_origin r1) = ro_target (rn_origin r2) → k1 = k2.
(** No run disappears or changes its origin, a finished one not at all; a target
    keeps its one run in flight; the log only grows. *)
Record runs_rel (t t' : simple_tables) : Prop := {
  ru_kept k r : sm_runs t !! k = Some r →
    ∃ r', sm_runs t' !! k = Some r' ∧ rn_origin r' = rn_origin r ∧ (run_finished (rn_status r) = true → r' = r);
  ru_single : single t → single t';
  ru_logs : sm_logs t `prefix_of` sm_logs t'
}.
#[export] Instance runs_rel_preorder : PreOrder runs_rel.
Proof.
  split.
  - intros t. constructor; [|done|done]. intros k r Hr. by exists r.
  - intros t1 t2 t3 H1 H2. constructor.
    + intros k r Hr. destruct (ru_kept _ _ H1 _ _ Hr) as (r2 & Hr2 & Ho2 & Hf2).
      destruct (ru_kept _ _ H2 _ _ Hr2) as (r3 & Hr3 & Ho3 & Hf3). exists r3. split_and!; [done|congruence|].
      intros Hf. specialize (Hf2 Hf). subst r2. auto.
    + intros Hs. apply (ru_single _ _ H2), (ru_single _ _ H1), Hs.
    + etrans; [by eapply ru_logs|by apply ru_logs].
Qed.
Lemma rel_no_runs t t' : sm_runs t' = sm_runs t → sm_logs t `prefix_of` sm_logs t' → runs_rel t t'.
Proof. intros Hr Hl. constructor; [|unfold single; by rewrite Hr|done]. intros k r Hk. rewrite Hr. by exists r. Qed.

Lemma rel_insert_log x t u t' : insert_log x t = Ok (u, t') → runs_rel t t'.
Proof. unfold insert_log. destruct (_ || _); [done|]. intros [= _ <-]. apply rel_no_runs; [done|]. simpl. by apply prefix_app_r. Qed.
Lemma finished_not_in_flight s : run_finished s = true → in_flight s = false.
Proof. unfold run_finished, in_flight. intros H%bool_decide_eq_true. apply bool_decide_eq_false. set_solver. Qed.
Lemma rel_update id c f t u t' :
  (∀ r, sm_runs t !! id = Some r → c r = true →
    rn_origin (f r) = rn_origin r ∧ (run_finished (rn_status r) = false → in_flight (rn_status (f r)) = true → in_flight (rn_status r) = true)) →
  update_run id c f t = Ok (u, t') → runs_rel t t'.
Proof.
  unfold update_run. intros Hf Hu. destruct (sm_runs t !! id) as [r|] eqn:E; [|simplify_eq; done].
  destruct (negb (c r)) eqn:Ec; [simplify_eq; done|]. apply negb_false_iff in Ec.
  destruct (run_finished (rn_status r)) eqn:Hfin; [done|]. simplify_eq.
  destruct (Hf _ eq_refl Ec) as [Ho Hi]. specialize (Hi Hfin). constructor; [| |done].
  - intros k r0 Hr0. simpl. destruct (decide (id = k)) as [<-|Hne].
    + rewrite lookup_insert_eq. rewrite E in Hr0. injection Hr0 as <-. exists (f r). split_and!; [done..|]. by rewrite Hfin.
    + rewrite lookup_insert_ne by done. by exists r0.
  - intros Hs k1 k2 r1 r2. simpl. intros H1 H2 F1 F2 Ht.
    apply lookup_insert_Some in H1 as [[<- <-]|[Hn1 H1]]; apply lookup_insert_Some in H2 as [[<- <-]|[Hn2 H2]]; [done| | |].
    + eapply Hs; [exact E|exact H2|auto|done|congruence].
    + eapply Hs; [exact H1|exact E|done|auto|congruence].
    + by eapply Hs.
Qed.
Lemma rel_insert_run id o t u t' : insert_run id o t = Ok (u, t') → runs_rel t t'.
Proof.
  unfold insert_run. destruct (_ || busy _ _) eqn:Hb; [done|]. apply orb_false_iff in Hb as [Hn%bool_decide_eq_false Hb].
  rewrite <- eq_None_not_Some in Hn. destruct (_ || _ || _ || _ || _) eqn:Hc; [done|]. intros [= _ <-].
  assert (∀ k r, sm_runs t !! k = Some r → in_flight (rn_status r) = true → ro_target (rn_origin r) ≠ ro_target o) as Hfree.
  { intros k r Hr Hf Ht. apply not_true_iff_false in Hb. apply Hb. apply existsb_In. exists (k, r).
    split; [by apply elem_of_map_to_list|]. simpl. rewrite Hf, bool_decide_true by done. done. }
  constructor; [| |done].
  - intros k r Hr. simpl. exists r. rewrite lookup_insert_ne by congruence. done.
  - intros Hs k1 k2 r1 r2. simpl. intros H1 H2 F1 F2 Ht.
    apply lookup_insert_Some in H1 as [[<- <-]|[Hn1 H1]]; apply lookup_insert_Some in H2 as [[<- <-]|[Hn2 H2]]; [done| | |by eapply Hs].
    + exfalso. by eapply (Hfree k2).
    + exfalso. by eapply (Hfree k1).
Qed.
Lemma rel_interrupted n t : runs_rel t (fail_interrupted n t).
Proof.
  constructor; [| |done].
  - intros k r Hr. simpl. rewrite lookup_fmap, Hr. simpl. eexists. split; [done|].
    destruct (in_flight (rn_status r)) eqn:Hf; [|done]. split; [done|]. intros Hfin%finished_not_in_flight. congruence.
  - intros _ k1 k2 r1 r2 H1 _ F1 _ _. simpl in H1. rewrite lookup_fmap in H1.
    destruct (sm_runs t !! k1) as [r|]; [|done]. injection H1 as <-. by destruct (in_flight (rn_status r)) eqn:Hf; [|congruence].
Qed.
Lemma rel_add_bytes id n t u t' : update_run id (λ _, true) (add_log_bytes n) t = Ok (u, t') → runs_rel t t'.
Proof. by apply rel_update. Qed.

(** ** The logger *)
Section logger.
Context (R : simple_tables → simple_tables → Prop) `{!PreOrder R}.
Context (Hinsert : ∀ x t u t', insert_log x t = Ok (u, t') → R t t').
Context (Hcount : ∀ id n t u t', update_run id (λ _, true) (add_log_bytes n) t = Ok (u, t') → R t t').
Lemma each_append l stream payload : each R (append l stream payload).
Proof.
  unfold append. generalize 1%nat as depth. intros depth. revert l stream payload.
  induction depth as [|depth IH]; intros l stream payload; cbn [append_line]; destruct (take_budget _ _ _) as [[[? store] exhausted] b].
  all: unfold run_sql; each_steps; eauto.
Qed.
Lemma each_append_all stream lines l : each R (append_all l stream lines).
Proof. revert l. induction lines as [|x lines IH]; intros l; simpl; each_steps; [apply each_append|apply IH]. Qed.
Lemma each_write l stream chunk : each R (log_write l stream chunk).
Proof. unfold log_write. each_steps; apply each_append_all || apply each_append. Qed.
Lemma each_flush range l : each R (log_flush range l).
Proof.
  unfold log_flush. generalize (range (lg_pending l)) as streams. intros streams. revert l.
  induction streams as [|s streams IH]; intros l; cbn [flush_streams]; each_steps; [apply each_append|apply IH].
Qed.
End logger.

Definition for_run (id : string) (m : M sdb logger) : Prop := ∀ w l' w', m w = (Ok l', w') → lg_run_id l' = id.
Lemma for_run_ret l : for_run (lg_run_id l) (mret l).
Proof. by intros w l' w' [= <- _]. Qed.
Lemma for_run_bind {A} id (m : M sdb A) k : (∀ a, for_run id (k a)) → for_run id (m ≫= k).
Proof. intros Hk w l' w' H. apply bindM_ok in H as (a & w1 & _ & H). by eapply Hk. Qed.
Lemma for_run_seq id m k : for_run id m → (∀ l, lg_run_id l = id → for_run id (k l)) → for_run id (m ≫= k).
Proof. intros Hm Hk w l' w' H. apply bindM_ok in H as (l & w1 & H1 & H). apply Hm in H1. by eapply Hk. Qed.
Lemma append_for_run l stream payload : for_run (lg_run_id l) (append l stream payload).
Proof.
  unfold append. generalize 1%nat as depth. intros depth. revert l stream payload.
  induction depth as [|depth IH]; intros l stream payload; cbn [append_line]; destruct (take_budget _ _ _) as [[[? store] exhausted] b].
  all: destruct store; [|apply (for_run_ret (set_budget _ _))]; apply for_run_bind; intros [[]|e]; [|apply (for_run_ret (set_budget _ _))].
  all: apply for_run_bind; intros ?.
  { apply (for_run_ret (set_budget _ _)). }
  destruct exhausted; [apply (IH (set_budget _ _))|apply (for_run_ret (set_budget _ _))].
Qed.
Lemma append_all_for_run stream lines l : for_run (lg_run_id l) (append_all l stream lines).
Proof.
  revert l. induction lines as [|x lines IH]; intros l; [apply for_run_ret|]. apply for_run_seq; [apply append_for_run|]. intros l' <-. apply IH.
Qed.

(** ** The processes *)
Section frame.
Context (range_pending : gmap string bytes → list string).

Inductive logger_op : (logger → M sdb logger) → Prop :=
  | op_system message : logger_op (λ l, log_system l message)
  | op_write stream chunk : logger_op (λ l, log_write l stream chunk)
  | op_flush : logger_op (log_flush range_pending).
Lemma op_within f id l : logger_op f → log_triple id l (f l).
Proof. intros []; [apply append_within|apply write_within|apply flush_within]. Qed.
Lemma op_for_run f l : logger_op f → for_run (lg_run_id l) (f l).
Proof.
  intros [message|stream chunk|]; [apply append_for_run| |].
  - unfold log_write. destruct (split_lines _) as [lines buffer]. apply for_run_seq; [apply append_all_for_run|]. intros l' <-.
    destruct (_ <? _); [|apply (for_run_ret (set_pending _ _))]. apply for_run_seq; [apply append_for_run|]. intros l2 <-. apply (for_run_ret (set_pending _ _)).
  - unfold log_flush. generalize (range_pending (lg_pending l)) as streams. intros streams. revert l.
    induction streams as [|s streams IH]; intros l; cbn [flush_streams]; [apply for_run_ret|].
    apply for_run_seq; [case_bool_decide; [apply for_run_ret|apply append_for_run]|]. intros l' <-. apply (IH (set_pending _ l')).
Qed.
Lemma op_each (R : simple_tables → simple_tables → Prop) `{!PreOrder R} f l :
  (∀ x t u t', insert_log x t = Ok (u, t') → R t t') →
  (∀ id n t u t', update_run id (λ _, true) (add_log_bytes n) t = Ok (u, t') → R t t') → logger_op f → each R (f l).
Proof. intros Hi Hc []; [by apply each_append|by apply each_write|by apply each_flush]. Qed.

(** A property of the tables that lines and their count keep. *)
Lemma op_keeps (P : simple_tables → Prop) id f l (a : Z) :
  (∀ x t u t', insert_log x t = Ok (u, t') → P t → P t') →
  (∀ id n t u t', update_run id (λ _, true) (add_log_bytes n) t = Ok (u, t') → P t → P t') → logger_op f →
  triple (λ w : sdb, lg_run_id l = id ∧ P (tabs w)) (f l) (λ l' w, lg_run_id l' = id ∧ P (tabs w)) (λ w, lg_run_id l = id ∧ P (tabs w)).
Proof.
  intros Hi Hc Hf w [Hid Hw]. assert (PreOrder (λ t t', P t → P t')) as Hpre by (split; [by intros t|intros t1 t2 t3; auto]).
  pose proof (op_each (λ t t', P t → P t') f l Hi Hc Hf w Hw) as H1. pose proof (op_for_run f l Hf w) as H2.
  destruct (f l w) as [[l'|e] w']; simpl in *; [|done]. split; [|done]. rewrite <- Hid. by eapply H2.
Qed.

(** What happens beside the run: files, time, and other runs. *)
Record outside (w w' : exec) : Prop := {
  os_log : ex_log w' = ex_log w;
  os_active : ap_active (ex_api w') = ap_active (ex_api w);
  os_runs : runs_rel (tabs (ap_db (ex_api w))) (tabs (ap_db (ex_api w')));
  os_row : sm_runs (tabs (ap_db (ex_api w'))) !! lg_run_id (ex_log w) = sm_runs (tabs (ap_db (ex_api w))) !! lg_run_id (ex_log w);
  os_lines : run_lines (lg_run_id (ex_log w)) (tabs (ap_db (ex_api w'))) = run_lines (lg_run_id (ex_log w)) (tabs (ap_db (ex_api w)))
}.
(** A process writes through its writers; the rest happens outside. *)
Class LawfulProcess (process : lx_Spec exec → list string → exec → (process_end * Z) * exec) : Prop := {
  process_keeps spec environment (I : exec → Prop) :
    (∀ w w', outside w w' → I w → I w') → (∀ chunk w, I w → I (lx_Stdout spec chunk w).2) →
    (∀ chunk w, I w → I (lx_Stderr spec chunk w).2) → ∀ w, I w → I (process spec environment w).2
}.

(** ** An invariant of a run *)
Context (J : simple_tables → logger → Z → Prop).
Definition view (w : exec) : Prop := J (tabs (ap_db (ex_api w))) (ex_log w) (ap_active (ex_api w)).
Context (J_log : ∀ f l a, logger_op f → triple (λ w : sdb, J (tabs w) l a) (f l) (λ l' w, J (tabs w) l' a) (λ w, J (tabs w) l a)).
Context (J_outside : ∀ w w', outside w w' → view w → view w').

Lemma with_log_keeps f : logger_op f → preserves view (with_log f).
Proof.
  intros Hf w Hw. unfold with_log. pose proof (J_log f (ex_log w) (ap_active (ex_api w)) Hf (ap_db (ex_api w)) Hw) as H.
  by destruct (f (ex_log w) (ap_db (ex_api w))) as [[l|e] d].
Qed.
Lemma on_disk_keeps {A} (m : M os A) : preserves view (on_api (on_disk m)).
Proof. apply preserves_state. intros w Hw. unfold on_api, on_disk. by destruct (m _) as [r o]. Qed.
Lemma reads_keeps {A} (m : M sdb A) : (∀ t n, reads t n m) → preserves view (on_api (on_sql m)).
Proof.
  intros Hm. apply preserves_state. intros w Hw. unfold on_api, on_sql. set (d := ap_db (ex_api w)).
  destruct (Hm (tabs d) (now d) d eq_refl eq_refl) as [Ht _]. destruct (m d) as [r d'] eqn:E. unfold view in *. simpl in *. by rewrite Ht.
Qed.
Lemma read_sql_reads {A} (f : simple_tables → A) t n : reads t n (read_sql f).
Proof.
  intros w <- <-. unfold read_sql, pool, query, statement. simpl. by destruct (db_faults w (S (db_tick w))).
Qed.
Lemma say_keeps message : preserves view (say message).
Proof. apply with_log_keeps, op_system. Qed.
Lemma flush_keeps : preserves view (flush range_pending).
Proof. apply with_log_keeps, op_flush. Qed.
Lemma sleep_keeps d : preserves view (sleep d).
Proof. by apply preserves_state. Qed.
Lemma time_now_keeps : preserves view time_now.
Proof. apply preserves_gets. Qed.

(** ** The parts of a run *)
Context (duration_text : Z → string) `{ErrorText} (parse_url : string → result (string * string)).
Context (harbor : nat → harbor_request → Z * result harbor_response).
Context (decode_credential : string → option (string * string)) (decode_id : bytes → option Z)
        (decode_execution : bytes → result replicationExecution) (vault : Vault).
Context (process : lx_Spec exec → list string → exec → (process_end * Z) * exec) `{!LawfulProcess process}
        (range : gmap string string → list (string * string)).

Lemma stream_keeps stream chunk w : view w → view (stream_writer stream chunk w).2.
Proof. intros Hw. exact (proj1 (preserves_state _ _) (with_log_keeps _ (op_write stream chunk)) w Hw). Qed.
Lemma prepare_keeps stat_path lstat_path spec :
  (∀ p, preserves view (stat_path p)) → (∀ p, preserves view (lstat_path p)) → preserves view (lx_prepare stat_path lstat_path range spec).
Proof.
  intros. unfold lx_prepare, ValidateCommandPath, ValidateDir.
  repeat first [apply preserves_lift|apply preserves_wrap|apply preserves_bind; [|intros ?]|done].
Qed.
Lemma run_command_keeps spec :
  (∃ s, lx_Stdout spec = stream_writer s) → (∃ s, lx_Stderr spec = stream_writer s) → preserves view (run_command process range spec).
Proof.
  intros [so Hso] [se Hse]. apply preserves_state. intros w Hw. unfold run_command. cbv zeta. unfold lx_Run.
  pose proof (prepare_keeps (λ p, on_api (on_disk (stat p))) (λ p, on_api (on_disk (lstat p))) spec
    (λ p, on_disk_keeps _) (λ p, on_disk_keeps _)) as Hp.
  pose proof (proj1 (preserves_state _ _) Hp w Hw) as Hp'. clear Hp.
  destruct (lx_prepare _ _ _ _ w) as [[env|e] w1]; [|exact Hp'].
  assert (view (process spec env w1).2) as H1.
  { apply process_keeps; [done| | |exact Hp']; rewrite ?Hso, ?Hse; apply stream_keeps. }
  by destruct (process spec env w1) as [[ending d] w2].
Qed.
Lemma harborRequest_keeps reg method path policy : preserves view (harborRequest parse_url harbor reg method path policy).
Proof.
  unfold harborRequest. apply preserves_bind; [apply preserves_lift|intros ?]. apply preserves_bind; [|intros ?; apply preserves_ret].
  apply preserves_state. intros w Hw. by destruct (harbor _ _).
Qed.
Lemma loadHarborRegistry_reads id t n : reads t n (loadHarborRegistry decode_credential vault id).
Proof. unfold loadHarborRegistry. repeat first [apply reads_bind; [|intros ?]|apply reads_lift|apply reads_wrap|apply read_sql_reads]; done. Qed.
Lemma loadSimpleSettings_reads t n : reads t n loadSimpleSettings.
Proof. unfold loadSimpleSettings. apply reads_bind; [apply read_sql_reads|intros ?; apply reads_lift]. Qed.
Lemma reads_try {A} (m : M sdb A) t n : reads t n m → reads t n (try m).
Proof. intros Hm w Ht Hn. destruct (Hm w Ht Hn). unfold try. by destruct (m w). Qed.
Lemma uploadHasFailedPackages_reads b id t n : reads t n (uploadHasFailedPackages b id).
Proof. unfold uploadHasFailedPackages. apply reads_bind; [apply reads_try, read_sql_reads|done]. Qed.

(** Down to the calls of other parts. *)
Ltac keeps_step := lazymatch goal with
  | |- preserves _ (mret _) => apply preserves_ret
  | |- preserves _ (lift _) => apply preserves_lift
  | |- preserves _ (wrapM _ _) => apply preserves_wrap
  | |- preserves _ (try _) => apply preserves_try
  | |- preserves _ (_ ≫= _) => apply preserves_bind; [|intros ?]
  | |- preserves _ (say _) => apply say_keeps
  | |- preserves _ (flush _) => apply flush_keeps
  | |- preserves _ (sleep _) => apply sleep_keeps
  | |- preserves _ time_now => apply time_now_keeps
  | |- preserves _ (on_api (on_disk _)) => apply on_disk_keeps
  | |- preserves _ (harborRequest _ _ _ _ _ _) => apply harborRequest_keeps
  | |- preserves _ (run_command _ _ _) => apply run_command_keeps; [by eexists|by eexists]
  | |- preserves _ (match ?x with _ => _ end) => destruct x
  end.
Ltac run_keeps := repeat (cbv beta zeta; keeps_step).

Lemma startReplication_keeps reg policy : preserves view (startReplication parse_url harbor decode_id reg policy).
Proof. unfold startReplication. run_keeps. Qed.
Lemma replication_execution_keeps reg id : preserves view (replication_execution parse_url harbor decode_execution reg id).
Proof. unfold replication_execution. run_keeps. Qed.
Lemma await_keeps fuel reg id deadline started timeout last :
  preserves view (await_replication duration_text parse_url harbor decode_execution fuel reg id deadline started timeout last).
Proof.
  revert last. induction fuel as [|fuel IH]; intros last; cbn [await_replication]; run_keeps; first [apply IH|apply replication_execution_keeps].
Qed.
Lemma replicate_keeps cfg :
  preserves view (replicate duration_text parse_url harbor decode_credential decode_id decode_execution vault cfg).
Proof.
  unfold replicate, runReplication. run_keeps; try apply await_keeps; try apply startReplication_keeps.
  apply reads_keeps, loadHarborRegistry_reads.
Qed.
Lemma runAppDeploy_keeps cfg x : preserves view (runAppDeploy duration_text process range range_pending cfg x).
Proof. unfold runAppDeploy. run_keeps. Qed.
Lemma run_stages_keeps cfg x message :
  preserves view (run_stages duration_text parse_url harbor decode_credential decode_id decode_execution vault process range range_pending cfg x message).
Proof.
  unfold run_stages, replication_stage, app_stage. run_keeps; try apply replicate_keeps; try apply runAppDeploy_keeps.
  apply reads_keeps, uploadHasFailedPackages_reads.
Qed.
Lemma after_command_keeps x status message :
  preserves view (after_command duration_text parse_url harbor decode_credential decode_id decode_execution vault process range range_pending x status message).
Proof.
  unfold after_command. run_keeps; try apply run_stages_keeps. apply reads_keeps, loadSimpleSettings_reads.
Qed.
(** The command of a run, once its log is started. *)
Lemma deploy_command_keeps x w :
  view (start_log (rs_id x) w).2 → view (deploy_command duration_text process range range_pending x w).2.
Proof.
  intros Hw. unfold deploy_command. unfold mbind at 1, M_bind at 1. cbv [start_log modify] in *. simpl in Hw.
  apply preserves_state; [|exact Hw]. run_keeps.
Qed.

(** A whole run: [I0] before it, [K] after it, the invariant in between. *)
Notation deploy := (deploy_command duration_text process range range_pending).
Notation after := (after_command duration_text parse_url harbor decode_credential decode_id decode_execution vault process range range_pending).
Notation execute := (executeSimpleRun duration_text parse_url harbor decode_credential decode_id decode_execution vault process range range_pending).
(** The world once the run is recorded as running. *)
Definition run_started (x : run_start) (w : exec) : exec :=
  (on_api (on_sql (run_sql (λ n, update_run (rs_id x) pending (λ r, set_started n (set_status "RUNNING" r))))) w).2.
Lemma execute_ends (I0 K : simple_tables → Z → Prop) x w :
  (∀ t a n u t', I0 t a → update_run (rs_id x) pending (λ r, set_started n (set_status "RUNNING" r)) t = Ok (u, t') →
     J t' (Logger (rs_id x) newLogBudget ∅) a) →
  (∀ t a, I0 t a → K t a) → (∀ t l a, J t l a → K t a) →
  (∀ w2 w3 result status message v n u t', deploy x (run_started x w) = (Ok (result, status, message), w2) → after x status message w2 = (Ok v, w3) → view w3 →
     update_run (rs_id x) (λ _, true) (set_outcome n (vd_status v) (outcome_of (lx_ExitCode result) v)) (tabs (ap_db (ex_api w3))) = Ok (u, t') →
     K t' (ap_active (ex_api w3))) →
  (∀ t t' a, K t a → sm_runs t' = sm_runs t → sm_logs t' = sm_logs t → K t' a) →
  I0 (tabs (ap_db (ex_api w))) (ap_active (ex_api w)) →
  K (tabs (ap_db (ex_api (execute x w).2))) (ap_active (ex_api (execute x w).2)).
Proof.
  intros Hstart H0 HJ Hend Haudit Hw. set (KW := λ w : exec, K (tabs (ap_db (ex_api w))) (ap_active (ex_api w))).
  change (KW (execute x w).2). unfold executeSimpleRun. unfold mbind at 1, M_bind at 1, try at 1. unfold run_started in Hend.
  unfold on_api at 1, on_sql at 1. unfold on_api at 1, on_sql at 1 in Hend.
  destruct (run_sql _ (ap_db (ex_api w))) as [[u|e] d] eqn:E; apply run_sql_cases in E as [_ E].
  2:{ unfold KW. simpl. rewrite E. by apply H0. }
  cbv beta iota zeta. cbn [snd] in Hend. set (w1 := set_api _ w) in *. assert (view (start_log (rs_id x) w1).2) as H1 by (by eapply Hstart).
  apply deploy_command_keeps in H1. unfold mbind at 1, M_bind at 1.
  destruct (deploy x w1) as [[[[result status] message]|e] w2] eqn:Ed; simpl in H1; [|by eapply HJ].
  cbv beta iota zeta. unfold mbind at 1, M_bind at 1. pose proof (proj1 (preserves_state _ _) (after_command_keeps x status message) w2 H1) as H2.
  destruct (after x status message w2) as [[v|e] w3] eqn:Ea; simpl in H2; [|by eapply HJ].
  unfold mbind at 1, M_bind at 1, try at 1, on_api at 1, on_sql at 1. destruct (run_sql _ (ap_db (ex_api w3))) as [r d3] eqn:Er.
  apply run_sql_cases in Er as [_ Er]. cbv beta iota zeta.
  assert (KW (set_api (Api d3 (ap_os (ex_api w3)) (ap_active (ex_api w3))) w3)) as H3.
  { unfold KW. simpl. destruct r as [u'|e]; [by eapply Hend|]. rewrite Er. by eapply HJ. }
  revert H3. generalize (set_api (Api d3 (ap_os (ex_api w3)) (ap_active (ex_api w3))) w3). clear -Haudit. intros w3 H3.
  unfold KW, audit, on_api, on_sql, mbind, M_bind, try, pool, statement in *. simpl.
  destruct (db_faults _ _); simpl; [done|]. by apply (Haudit _ _ _ H3).
Qed.
End frame.
