(* ===== verification/SimpleProofs.v ===== *)
(** * Runs of simple mode (theorems about Simple.v and SimpleRun.v)

    The log budget of a run, what a recorded success means, the end of a
    replication, and the records and slots under any requests and runs. *)
From S2P Require Import Prelude GoIO GoString GoPath OS Files Command LocalExec Encoding Model Db Store Backend Releases Artifacts Crypto Vault SimpleConfig SimpleStore SimpleLog Simple SimpleRun SimpleFrame.

(** ** A replication *)
Section replication.
Context (duration_text : Z → string) `{ErrorText} (parse_url : string → result (string * string)).
Context (harbor : nat → harbor_request → Z * result harbor_response).
Context (decode_credential : string → option (string * string)) (decode_id : bytes → option Z)
        (decode_execution : bytes → result replicationExecution) (vault : Vault).
Notation replicate' := (replicate duration_text parse_url harbor decode_credential decode_id decode_execution vault).
Definition stage_end (s : string) : Prop := s ∈ ["SUCCESS"; "FAILED"; "TIMEOUT"].
Lemma await_status fuel reg id deadline started timeout last w s w' :
  await_replication duration_text parse_url harbor decode_execution fuel reg id deadline started timeout last w = (Ok (Some s), w') → stage_end s.1.1.
Proof.
  revert last w. induction fuel as [|fuel IH]; intros last w Hrun; cbn [await_replication] in Hrun; [done|].
  inv_run Hrun. destruct (deadline <? x); inv_run Hrun; [injection Hrun as <- _; unfold stage_end; set_solver|].
  destruct x1 as [execution|e]; [|by eapply IH]. inv_run Hrun.
  destruct (negb a); [by eapply IH|]. inv_run Hrun. destruct b; inv_run Hrun; injection Hrun as <- _; unfold stage_end; set_solver.
Qed.
Lemma replicate_status cfg w s w' : replicate' cfg w = (Ok s, w') → stage_end s.1.1.
Proof.
  intros Hrun. unfold replicate in Hrun. inv_run Hrun. injection Hrun as <- _. destruct x as [s'|]; [|simpl; unfold stage_end; set_solver].
  unfold runReplication in Hrun0. inv_run Hrun0. destruct x as [reg|e]; inv_run Hrun0; [|injection Hrun0 as <- _; unfold stage_end; set_solver].
  destruct x0 as [id|e]; [|inv_run Hrun0; injection Hrun0 as <- _; unfold stage_end; set_solver].
  destruct (id =? 0); inv_run Hrun0; [injection Hrun0 as <- _; unfold stage_end; set_solver|]. by eapply await_status.
Qed.
Notation await := (await_replication duration_text parse_url harbor decode_execution).

(** *** What Harbor has answered

    The calls to Harbor are numbered; [harbor_call]: the answer to call [n] of
    the registry, with a code of success. *)
Definition harbor_call (reg : harborRegistry) (method path : string) (policy : option Z) (n : nat) (resp : harbor_response) : Prop :=
  ∃ url elapsed, harborURL parse_url (hr_Endpoint reg) path = Ok url ∧
    harbor n {| hq_method := method; hq_url := url; hq_user := hr_Username reg; hq_password := hr_Password reg; hq_insecure := hr_Insecure reg;
                hq_policy := policy |} = (elapsed, Ok resp) ∧ success_code (hp_status resp) = true.
(** The id of the execution that an answer to the trigger names, 0 when it names none. *)
Definition answered_id (resp : harbor_response) : Z :=
  match location_id (hp_location resp) with
  | Some id => id
  | None => Z.max 0 (default 0 (decode_id (take 1048576 (hp_body resp))))
  end.
(** Harbor's answer to a poll: the execution has ended, and succeeded. *)
Definition reported (reg : harborRegistry) (id : Z) (n : nat) : Prop :=
  ∃ resp execution, harbor_call reg "GET" ("/api/v2.0/replication/executions/" +:+ pretty id) None n resp
    ∧ decode_execution (take 1048576 (hp_body resp)) = Ok execution ∧ replicationTerminal (re_Status execution) = (true, true).
(** The replication as Harbor knows it, by calls numbered from [calls] on: the
    trigger of the configured policy was accepted as execution [id], and a poll
    reported its success - unless the answer named no execution. *)
Definition replicated (cfg : simpleSettings) (calls : nat) (id : Z) : Prop :=
  ∃ reg n resp, (∃ d d', loadHarborRegistry decode_credential vault (cfg_ReplicationRegistry cfg) d = (Ok reg, d')) ∧ (calls ≤ n)%nat
    ∧ harbor_call reg "POST" "/api/v2.0/replication/executions" (Some (cfg_ReplicationPolicyID cfg)) n resp ∧ answered_id resp = id
    ∧ (id = 0 ∨ ∃ later, (n < later)%nat ∧ reported reg id later).

Definition counts {A} (m : M exec A) : Prop := ∀ w, (ex_calls w ≤ ex_calls (m w).2)%nat.
Lemma counts_run {A} (m : M exec A) w r w' : counts m → m w = (r, w') → (ex_calls w ≤ ex_calls w')%nat.
Proof. intros Hm E. specialize (Hm w). by rewrite E in Hm. Qed.
Lemma counts_say message : counts (say message).
Proof. intros w. unfold say, with_log. by destruct (log_system _ _ _). Qed.
Lemma counts_on_api {A} (m : M api A) : counts (on_api m).
Proof. intros w. unfold on_api. by destruct (m _). Qed.
Lemma request_run reg method path policy w r w' :
  harborRequest parse_url harbor reg method path policy w = (r, w') →
  (ex_calls w ≤ ex_calls w')%nat ∧ ∀ resp url, r = Ok (resp, url) → success_code (hp_status resp) = true →
    harbor_call reg method path policy (ex_calls w) resp ∧ ex_calls w' = S (ex_calls w).
Proof.
  unfold harborRequest, mbind, M_bind, lift. destruct (harborURL _ _ _) as [u|e] eqn:Eu; simpl; [|by intros [= <- <-]].
  destruct (harbor _ _) as [elapsed [resp|e]] eqn:Eh; intros [= <- <-]; (split; [simpl; lia|]); [|done].
  intros resp' url [= -> <-] Hs. split; [|done]. by exists u, elapsed.
Qed.
Lemma execution_run reg id w r w' :
  replication_execution parse_url harbor decode_execution reg id w = (r, w') →
  (ex_calls w ≤ ex_calls w')%nat ∧ ∀ execution, r = Ok execution → replicationTerminal (re_Status execution) = (true, true) → reported reg id (ex_calls w).
Proof.
  unfold replication_execution. unfold mbind at 1, M_bind at 1.
  destruct (harborRequest _ _ _ _ _ _ w) as [[[resp url]|e] w1] eqn:Er; apply request_run in Er as [Hc Hr]; [|by intros [= <- <-]].
  unfold mbind, M_bind, lift, fail_if. destruct (negb (success_code (hp_status resp))) eqn:Es; intros [= <- <-]; [done|].
  split; [done|]. intros execution He Ht. apply negb_false_iff in Es. destruct (Hr _ _ eq_refl Es) as [Hcall _]. by exists resp, execution.
Qed.
Lemma start_run reg policy w id w' :
  startReplication parse_url harbor decode_id reg policy w = (Ok id, w') →
  ∃ resp, harbor_call reg "POST" "/api/v2.0/replication/executions" (Some policy) (ex_calls w) resp ∧ answered_id resp = id ∧ ex_calls w' = S (ex_calls w).
Proof.
  intros Hrun. unfold startReplication in Hrun. apply bindM_ok in Hrun as ([resp url] & w1 & Hreq%wrapM_ok & Hrun). apply request_run in Hreq as [_ Hr].
  apply bindM_ok in Hrun as (u & w2 & [Hok%fail_if_ok ->]%liftM_ok & [= <- <-]). apply negb_false_iff in Hok.
  destruct (Hr _ _ eq_refl Hok) as [Hcall Hc]. exists resp. split; [done|]. split; [|done].
  unfold answered_id. destruct (location_id _); [done|]. destruct (decode_id _) as [k|]; simpl; [|done]. destruct (Z.ltb_spec 0 k); lia.
Qed.
Lemma await_reported fuel reg id deadline started timeout last w e m w' :
  await fuel reg id deadline started timeout last w = (Ok (Some ("SUCCESS", e, m)), w') → e = id ∧ ∃ n, (ex_calls w ≤ n)%nat ∧ reported reg id n.
Proof.
  revert last w. induction fuel as [|fuel IH]; intros last w Hrun; cbn [await_replication] in Hrun; [done|].
  apply bindM_ok in Hrun as (now' & w1 & [= <- <-] & Hrun). destruct (deadline <? ex_clock w); [by inv_run Hrun|].
  apply bindM_ok in Hrun as ([] & w2 & [= <-] & Hrun). apply bindM_ok in Hrun as (r & w3 & Hr & Hrun). apply (proj1 (try_ok _ _ _ _)) in Hr.
  apply execution_run in Hr as [Hc Hrep]. cbn [ex_calls] in Hc, Hrep.
  assert (∀ last w4, (ex_calls w3 ≤ ex_calls w4)%nat → await fuel reg id deadline started timeout last w4 = (Ok (Some ("SUCCESS", e, m)), w') →
    e = id ∧ ∃ n, (ex_calls w ≤ n)%nat ∧ reported reg id n) as Hagain.
  { intros last' w4 H4 Hn. destruct (IH _ _ Hn) as (-> & n & Hle & Hn'). split; [done|]. exists n. split; [lia|done]. }
  destruct r as [execution|e']; [|by eapply Hagain]. cbv zeta in Hrun. apply bindM_ok in Hrun as ([] & w4 & Hsay & Hrun).
  assert (ex_calls w3 ≤ ex_calls w4)%nat as H4.
  { case_bool_decide; [by injection Hsay as <-|]. eapply counts_run; [apply counts_say|exact Hsay]. }
  destruct (replicationTerminal (re_Status execution)) as [ended ok] eqn:Et. destruct ended; cbn [negb] in Hrun; [|by eapply Hagain].
  apply bindM_ok in Hrun as (? & w5 & [= <- <-] & Hrun). destruct ok; inv_run Hrun; [|done]. injection Hrun as <- _ _. split; [done|].
  exists (ex_calls w). split; [done|]. by eapply Hrep.
Qed.
Lemma replicate_replicated cfg w e m w' : replicate' cfg w = (Ok ("SUCCESS", e, m), w') → replicated cfg (ex_calls w) e.
Proof.
  intros Hrun. unfold replicate in Hrun. apply bindM_ok in Hrun as (out & w1 & Hrun & [= Ho _]). destruct out as [s|]; [|done]. simpl in Ho. subst s.
  unfold runReplication in Hrun. apply bindM_ok in Hrun as (registry & w2 & Hreg & Hrun). apply (proj1 (try_ok _ _ _ _)) in Hreg. destruct registry as [reg|e']; [|by inv_run Hrun].
  assert (∃ d d', loadHarborRegistry decode_credential vault (cfg_ReplicationRegistry cfg) d = (Ok reg, d')) as Hload.
  { unfold on_api, on_sql in Hreg. destruct (loadHarborRegistry _ _ _ _) as [r d'] eqn:El. injection Hreg as -> _. by eexists _, _. }
  pose proof (counts_run _ _ _ _ (counts_on_api _) Hreg) as Hc. cbv zeta in Hrun. apply bindM_ok in Hrun as (u & w3 & Hsay & Hrun).
  pose proof (counts_run _ _ _ _ (counts_say _) Hsay) as Hc2. apply bindM_ok in Hrun as (started & w4 & Hst & Hrun). apply (proj1 (try_ok _ _ _ _)) in Hst.
  destruct started as [id|e']; [|by inv_run Hrun]. apply start_run in Hst as (resp & Hcall & Hid & Hc4). exists reg, (ex_calls w3), resp.
  split; [done|]. split; [lia|]. split; [done|]. destruct (Z.eqb_spec id 0) as [->|Hne].
  - inv_run Hrun. injection Hrun as <- _ _. split; [done|by left].
  - apply bindM_ok in Hrun as (? & ? & [= <- <-] & Hrun). apply await_reported in Hrun as (-> & n & Hn & Hr). split; [done|]. right. exists n. split; [lia|done].
Qed.
Lemma say_run message w : ∃ w', say message w = (Ok (), w') ∧ ex_clock w' = ex_clock w ∧ ex_calls w' = ex_calls w.
Proof. unfold say, with_log. destruct (log_system _ _ _) as [r d]. by eexists. Qed.
Section bounded_answers.
Context (d : Z) (Hd : 0 ≤ d) (Hanswer : ∀ n q, (harbor n q).1 ≤ d).
Lemma request_clock reg method path policy w :
  ex_clock w ≤ ex_clock (harborRequest parse_url harbor reg method path policy w).2 ≤ ex_clock w + d.
Proof.
  unfold harborRequest, mbind, M_bind, lift. destruct (harborURL _ _ _) as [u|e]; simpl; [|lia].
  set (q := Build_harbor_request _ _ _ _ _ _). pose proof (Hanswer (ex_calls w) q). destruct (harbor _ q) as [elapsed [r|e]]; simpl in *; lia.
Qed.
Lemma clock_bind {A B} (m : M exec A) (k : A → M exec B) w :
  (∀ a w, ex_clock (k a w).2 = ex_clock w) → ex_clock ((m ≫= k) w).2 = ex_clock (m w).2.
Proof. intros Hk. unfold mbind, M_bind. destruct (m w) as [[a|e] w1]; [by rewrite Hk|done]. Qed.
Lemma execution_clock reg id w :
  ex_clock w ≤ ex_clock (replication_execution parse_url harbor decode_execution reg id w).2 ≤ ex_clock w + d.
Proof.
  unfold replication_execution. rewrite clock_bind; [apply request_clock|]. intros [resp url] w1. rewrite clock_bind; done.
Qed.
Lemma start_clock reg policy w :
  ex_clock w ≤ ex_clock (startReplication parse_url harbor decode_id reg policy w).2 ≤ ex_clock w + d.
Proof.
  unfold startReplication. rewrite clock_bind; [|intros [resp url] w1; rewrite clock_bind; done].
  unfold wrapM. pose proof (request_clock reg "POST" "/api/v2.0/replication/executions" (Some policy) w) as Hc.
  by destruct (harborRequest _ _ _ _ _ _ w) as [r w1].
Qed.
Lemma await_ends fuel reg id deadline started timeout last w :
  (1 ≤ fuel)%nat →
  deadline - ex_clock w < (Z.of_nat fuel - 1) * (3 * second) → ex_clock w ≤ deadline + (3 * second + d) →
  ∃ s w', await fuel reg id deadline started timeout last w = (Ok (Some s), w') ∧ ex_clock w' ≤ deadline + (3 * second + d).
Proof.
  revert last w. induction fuel as [|fuel IH]; intros last w Hn Hf Hc; [lia|].
  cbn [await_replication]. unfold mbind at 1, M_bind at 1. cbn [time_now gets]. destruct (deadline <? ex_clock w) eqn:E.
  - cbv zeta. unfold mbind, M_bind. match goal with |- context [say ?m w] => destruct (say_run m w) as (w1 & -> & E1 & _) end.
    eexists _, w1. split; [done|lia].
  - unfold mbind at 1, M_bind at 1. cbn [sleep modify]. set (w1 := Exec _ _ _ _).
    unfold mbind at 1, M_bind at 1, try. pose proof (execution_clock reg id w1) as Hr. subst w1. cbn [ex_clock] in Hr.
    destruct (replication_execution _ _ _ _ _ _) as [[execution|e] w2]; cbn [snd] in Hr.
    + cbv zeta.
      assert (∃ w3, (if bool_decide (re_Status execution = last) then mret () else
                 say ("[replication] " +:+ re_Status execution +:+ " (성공 " +:+ pretty (re_Succeed execution) +:+ " / 실패 " +:+ pretty (re_Failed execution)
                      +:+ " / 전체 " +:+ pretty (re_Total execution) +:+ ")")) w2 = (Ok (), w3) ∧ ex_clock w3 = ex_clock w2) as (w3 & E3 & Hc3).
      { case_bool_decide; [by exists w2|]. match goal with |- context [say ?m w2] => destruct (say_run m w2) as (w3 & ? & ? & _) end. by exists w3. }
      unfold mbind at 1, M_bind at 1. rewrite E3. destruct (replicationTerminal _) as [ended ok].
      destruct ended; cbn [negb]; [|apply IH; unfold second in *; lia].
      unfold mbind at 1, M_bind at 1. cbn [time_now gets]. destruct ok; cbv zeta; unfold mbind, M_bind;
        (match goal with |- context [say ?m w3] => destruct (say_run m w3) as (w4 & -> & E4 & _) end); eexists _, w4; (split; [done|lia]).
    + apply IH; unfold second in *; lia.
Qed.

Lemma runReplication_ends cfg w :
  let timeout := if cfg_ReplicationTimeout cfg * second <=? 0 then 900 * second else cfg_ReplicationTimeout cfg * second in
  ∃ s w', runReplication duration_text parse_url harbor decode_credential decode_id decode_execution vault cfg w = (Ok (Some s), w')
    ∧ ex_clock w' ≤ ex_clock w + timeout + 3 * second + 2 * d.
Proof.
  cbv zeta. set (timeout := if _ <=? _ then _ else _). assert (0 < timeout) as Ht by (subst timeout; destruct (Z.leb_spec (cfg_ReplicationTimeout cfg * second) 0); unfold second in *; lia).
  unfold runReplication. unfold mbind at 1, M_bind at 1, try at 1, on_api at 1, on_sql at 1.
  destruct (loadHarborRegistry _ _ _ _) as [[reg|e] db1]; cbv beta iota zeta.
  2:{ unfold mbind, M_bind. match goal with |- context [say ?m ?w] => destruct (say_run m w) as (w1 & -> & E1 & _) end.
      eexists _, w1. split; [done|]. simpl in E1. unfold second. lia. }
  set (w1 := set_api _ w). unfold mbind at 1, M_bind at 1.
  match goal with |- context [say ?m w1] => destruct (say_run m w1) as (w2 & -> & E2 & _) end. subst w1. simpl in E2.
  unfold mbind at 1, M_bind at 1, try at 1. pose proof (start_clock reg (cfg_ReplicationPolicyID cfg) w2) as Hs.
  destruct (startReplication _ _ _ _ _ w2) as [[id|e] w3]; cbn [snd] in Hs.
  2:{ unfold mbind, M_bind. match goal with |- context [say ?m ?w] => destruct (say_run m w) as (w4 & -> & E4 & _) end.
      eexists _, w4. split; [done|]. unfold second. lia. }
  destruct (id =? 0).
  { unfold mbind, M_bind. match goal with |- context [say ?m ?w] => destruct (say_run m w) as (w4 & -> & E4 & _) end.
    eexists _, w4. split; [done|]. unfold second. lia. }
  unfold mbind at 1, M_bind at 1. cbn [time_now gets]. fold timeout.
  destruct (await_ends (replication_rounds timeout) reg id (ex_clock w3 + timeout) (ex_clock w3) timeout "" w3) as (s & w4 & E4 & Hc4).
  - unfold replication_rounds. lia.
  - unfold replication_rounds, second. pose proof (Z.mul_succ_div_gt timeout (3 * 1000000000)). pose proof (Z.div_pos timeout (3 * 1000000000)). lia.
  - unfold second. lia.
  - exists s, w4. split; [exact E4|]. unfold second in *. lia.
Qed.
End bounded_answers.

(** C29: every replication comes to an end.  Whatever Harbor answers, however often it fails, and whatever the log does, the loop over
    its state ends within its rounds with a status of its own: by the time that is configured, one pause of three
    seconds and two calls later; it is never left without an outcome. *)
Theorem replication_ends d cfg w :
  0 ≤ d → (∀ n q, (harbor n q).1 ≤ d) →
  let timeout := if cfg_ReplicationTimeout cfg * second <=? 0 then 900 * second else cfg_ReplicationTimeout cfg * second in
  ∃ s w', runReplication duration_text parse_url harbor decode_credential decode_id decode_execution vault cfg w = (Ok (Some s), w')
    ∧ stage_end s.1.1 ∧ ex_clock w' ≤ ex_clock w + timeout + 3 * second + 2 * d.
Proof.
  intros Hd Ha. destruct (runReplication_ends d Hd Ha cfg w) as (s & w' & Hrun & Hc). exists s, w'. split; [done|]. split; [|done].
  eapply (replicate_status cfg w s w'). unfold replicate. unfold mbind, M_bind. by rewrite Hrun.
Qed.
End replication.

Section runs.
Context (duration_text : Z → string) `{ErrorText} (parse_url : string → result (string * string)).
Context (harbor : nat → harbor_request → Z * result harbor_response).
Context (decode_credential : string → option (string * string)) (decode_id : bytes → option Z)
        (decode_execution : bytes → result replicationExecution) (vault : Vault).
Context (process : lx_Spec exec → list string → exec → (process_end * Z) * exec)
        (range : gmap string string → list (string * string)) (range_pending : gmap string bytes → list string).
Context `{!LawfulProcess process}.
Notation deploy := (deploy_command duration_text process range range_pending).
Notation after := (after_command duration_text parse_url harbor decode_credential decode_id decode_execution vault process range range_pending).
Notation execute := (executeSimpleRun duration_text parse_url harbor decode_credential decode_id decode_execution vault process range range_pending).
Notation world_tables w := (tabs (ap_db (ex_api w))).

(** ** The log of a run *)
Lemma within_outside id (w w' : exec) :
  outside w w' → within id (ex_log w) (world_tables w) → within id (ex_log w') (world_tables w').
Proof.
  intros [Hl _ _ Hr Hn] Hw. rewrite Hl. pose proof (wi_id _ _ _ _ Hw) as Hi. rewrite Hi in *. destruct Hw as [_ H1 H2 H3].
  constructor; rewrite ?Hn, ?Hr; done.
Qed.
Lemma within_start id t :
  run_lines id t = [] → (∀ r, sm_runs t !! id = Some r → rn_log_bytes r ≤ 0) → within id (Logger id newLogBudget ∅) t.
Proof.
  intros Hl Hb. constructor; rewrite ?Hl; simpl; [done|by split| |].
  - intros s. lia.
  - intros r Hr. specialize (Hb r Hr). lia.
Qed.
Lemma cost_lines s l : 0 ≤ cost s l ∧ Z.of_nat (length (filter (λ x, is_system (ll_stream x) = s) l)) ≤ cost s l
  ∧ stored_bytes (filter (λ x, is_system (ll_stream x) = s) l) ≤ cost s l.
Proof.
  induction l as [|x l IH]; simpl; [lia|]. pose proof (payload_nonneg (ll_payload x)). unfold line_cost.
  rewrite filter_cons. case_decide as E; [rewrite bool_decide_true by done|rewrite bool_decide_false by done]; simpl; lia.
Qed.

(** What a run keeps of its output. *)
Record bounded_log (id : string) (t : simple_tables) : Prop := {
  bl_command : stored_bytes (filter (λ x, is_system (ll_stream x) = false) (run_lines id t)) ≤ maxSimpleRunLogBytes;
  bl_command_rows : Z.of_nat (length (filter (λ x, is_system (ll_stream x) = false) (run_lines id t))) ≤ maxSimpleRunLogBytes;
  bl_system : stored_bytes (filter (λ x, is_system (ll_stream x) = true) (run_lines id t)) ≤ maxSimpleRunSystemLogBytes;
  bl_system_rows : Z.of_nat (length (filter (λ x, is_system (ll_stream x) = true) (run_lines id t))) ≤ maxSimpleRunSystemLogBytes;
  bl_counted r : sm_runs t !! id = Some r → rn_log_bytes r ≤ stored_bytes (run_lines id t)
}.
Lemma within_bounded id l t : within id l t → bounded_log id t.
Proof.
  intros [_ [Hc Hs] Hcost Hb]. pose proof (Hcost true) as H1. pose proof (Hcost false) as H2. simpl in H1, H2.
  pose proof (cost_lines true (run_lines id t)). pose proof (cost_lines false (run_lines id t)). constructor; try lia.
  intros r Hr. specialize (Hb r Hr). lia.
Qed.

Lemma bounded_same id t t' :
  bounded_log id t → run_lines id t' = run_lines id t →
  (∀ r', sm_runs t' !! id = Some r' → ∃ r, sm_runs t !! id = Some r ∧ rn_log_bytes r' = rn_log_bytes r) → bounded_log id t'.
Proof.
  intros [] Hl Hr. constructor; rewrite ?Hl; [done..|]. intros r' Hr'. destruct (Hr r' Hr') as (r & ? & ->). auto.
Qed.
Lemma within_op id f l (a : Z) :
  logger_op range_pending f → triple (λ w : sdb, within id l (tabs w)) (f l) (λ l' w, within id l' (tabs w)) (λ w, within id l (tabs w)).
Proof. intros Hf. eapply triple_conseq; [exact (op_within range_pending f id l Hf)|done..]. Qed.

(** C22: however much a command prints and however its output is cut into writes, and whatever statements fail, a run keeps at
    most 8 MiB and as many lines of the command's output, beside at most 64 KiB and as many lines of the server's own,
    and its byte count never exceeds what is stored. *)
Theorem run_log_bounded x w :
  let id := rs_id x in
  run_lines id (world_tables w) = [] → (∀ r, sm_runs (world_tables w) !! id = Some r → rn_log_bytes r = 0) →
  bounded_log id (world_tables (execute x w).2).
Proof.
  cbv zeta. intros Hl Hb.
  apply (execute_ends range_pending (λ t l _, within (rs_id x) l t) (within_op (rs_id x)) (within_outside (rs_id x)) duration_text parse_url
    harbor decode_credential decode_id decode_execution vault process range
    (λ t _, run_lines (rs_id x) t = [] ∧ ∀ r, sm_runs t !! rs_id x = Some r → rn_log_bytes r ≤ 0) (λ t _, bounded_log (rs_id x) t) x w).
  - intros t a n u t' [H1 H2] Hu. apply within_start; [by rewrite (run_lines_update _ _ _ _ _ _ _ Hu)|]. intros r Hr.
    destruct (update_run_row _ _ _ _ _ _ _ _ Hu Hr) as [Hr'|(_ & r0 & Hr0 & _ & _ & ->)]; [auto|]. by apply (H2 r0).
  - intros t _ [H1 H2]. by eapply within_bounded, within_start.
  - intros t l _. apply within_bounded.
  - intros w2 w3 result status message v n u t' _ _ Hw%within_bounded Hu. eapply bounded_same; [exact Hw|by eapply run_lines_update|].
    intros r' Hr'. destruct (update_run_row _ _ _ _ _ _ _ _ Hu Hr') as [Hr|(_ & r0 & Hr0 & _ & _ & ->)]; eauto.
  - intros t t' _ Hb' Hr Hlog. eapply bounded_same; [done|by unfold run_lines; rewrite Hlog|]. rewrite Hr. eauto.
  - split; [done|]. intros r Hr. by rewrite Hb.
Qed.

(** ** What the stages report *)
Lemma runAppDeploy_status cfg x w s w' : runAppDeploy duration_text process range range_pending cfg x w = (Ok s, w') → stage_end s.1.
Proof.
  intros Hrun. unfold runAppDeploy in Hrun. inv_run Hrun. destruct x0 as [u|e]; inv_run Hrun; [|injection Hrun as <- _; unfold stage_end; set_solver].
  destruct (lx_TimedOut a); [|destruct b]; inv_run Hrun; injection Hrun as <- _; unfold stage_end; set_solver.
Qed.

Lemma stage_end_ok s : stage_end s → stageFailed s = false → s = "SUCCESS".
Proof. unfold stage_end. intros Hs Hf. apply list_elem_of_In in Hs. simpl in Hs. destruct Hs as [<-|[<-|[<-|[]]]]; done. Qed.

(** ** What a recorded success means *)
(** A process that was started with this path and these arguments and ended by
    itself with exit code 0. *)
Definition finished (path : string) (args : list string) : Prop :=
  ∃ spec env w elapsed w', process spec env w = ((Finished, elapsed), w') ∧ lx_Path spec = path ∧ lx_Args spec = args.
Lemma command_finished spec w (result : lx_Result) w' :
  run_command process range spec w = (Ok (result, None), w') → finished (lx_Path spec) (lx_Args spec) ∧ lx_ExitCode result = 0.
Proof.
  unfold run_command, lx_Run. destruct (lx_prepare _ _ _ _ _) as [[env|e] wp]; [|done].
  destruct (process spec env wp) as [[ending elapsed] w9] eqn:Ep. destruct ending; try done. intros [= <- <-]. split; [|done]. by exists spec, env, wp, elapsed, w9.
Qed.
Lemma app_finished cfg x w m w' :
  runAppDeploy duration_text process range range_pending cfg x w = (Ok ("SUCCESS", m), w') →
  finished (cfg_AppDeployPath cfg) (expandArgs (cfg_AppDeployArgs cfg) (rs_path x)).
Proof.
  intros Hrun. unfold runAppDeploy in Hrun. apply bindM_ok in Hrun as (valid & w1 & _ & Hrun). destruct valid as [u|e]; [|by inv_run Hrun].
  cbv zeta in Hrun. do 2 (apply bindM_ok in Hrun as (? & ? & _ & Hrun)). apply bindM_ok in Hrun as ([result err] & w2 & Hcmd & Hrun).
  do 2 (apply bindM_ok in Hrun as (? & ? & _ & Hrun)). destruct (lx_TimedOut result); [by inv_run Hrun|]. destruct err as [e|]; [by inv_run Hrun|].
  by apply command_finished in Hcmd as [Hf _].
Qed.
Notation replicated' := (replicated parse_url harbor decode_credential decode_id decode_execution vault).
Definition replicates (cfg : simpleSettings) : bool :=
  cfg_ReplicationEnabled cfg && negb (empty_str (cfg_ReplicationRegistry cfg)) && (0 <? cfg_ReplicationPolicyID cfg).
Definition deploys_app (cfg : simpleSettings) : bool := cfg_AppDeployEnabled cfg && negb (empty_str (cfg_AppDeployPath cfg)).
Definition once (scope : string) : bool := bool_decide (scope = stageScopeOnce).
(** Every other package of the upload has been deployed. *)
Definition upload_deployed (batch id : string) (t : simple_tables) : Prop :=
  ∀ k r, sm_runs t !! k = Some r → ro_batch (rn_origin r) = batch → k ≠ id → rn_status r = "SUCCESS".

Notation replication_stage' := (replication_stage duration_text parse_url harbor decode_credential decode_id decode_execution vault range_pending).
Lemma replication_stage_ok cfg last incomplete w s e m held w' :
  replication_stage' cfg last incomplete w = (Ok ((s, e, m), held), w') → stageFailed s = false → held = false →
  if replicates cfg then s = "SUCCESS" ∧ replicated' cfg (ex_calls w) e ∧ (once (cfg_ReplicationScope cfg) = true → last = true ∧ incomplete = false)
                         ∨ s = stageStatusSkipped ∧ last = false
  else s = stageStatusNone.
Proof.
  unfold replication_stage, replicates. intros Hrun Hf Hh. destruct (_ && _); [|by injection Hrun as <- _ _ _ _].
  inv_run Hrun. injection Hrun as -> _. unfold once. destruct (stageRuns _ last) eqn:Hr; simpl in Hrun0.
  - destruct (stageHeldForIncompleteUpload _ _) eqn:Hheld; inv_run Hrun0; [by injection Hrun0 as <- <- <- <- _|].
    injection Hrun0 as -> <- _. left. assert (s = "SUCCESS") as -> by (apply replicate_status in Hrun; by apply stage_end_ok in Hrun).
    split; [done|]. split; [by eapply replicate_replicated|].
    intros Hs. unfold stageRuns in Hr. unfold stageHeldForIncompleteUpload in Hheld. rewrite Hs in Hr, Hheld. simpl in Hr, Hheld. done.
  - inv_run Hrun0. injection Hrun0 as <- _ _ _ _. right. split; [done|]. unfold stageRuns in Hr. by apply orb_false_iff in Hr as [_ ->].
Qed.
Lemma app_stage_ok cfg x incomplete replication rheld w s m held w' :
  app_stage duration_text process range range_pending cfg x incomplete replication rheld w = (Ok ((s, m), held), w') →
  stageFailed s = false → held = false →
  s = "SUCCESS" ∧ finished (cfg_AppDeployPath cfg) (expandArgs (cfg_AppDeployArgs cfg) (rs_path x))
    ∧ replication ≠ stageStatusSkipped ∧ (once (cfg_AppDeployScope cfg) = true → bt_Last (rs_batch x) = true ∧ incomplete = false)
  ∨ s = stageStatusSkipped ∧ (replication = stageStatusSkipped ∨ bt_Last (rs_batch x) = false).
Proof.
  unfold app_stage. intros Hrun Hf Hh. inv_run Hrun. injection Hrun as -> _. unfold once.
  destruct (stageHeldForIncompleteUpload _ _) eqn:Hheld; inv_run Hrun0; [by injection Hrun0 as _ _ <- _|].
  destruct (appDeployStageRuns _ _ _) eqn:Hr; simpl in Hrun0; inv_run Hrun0; [left|right]; unfold appDeployStageRuns in Hr.
  - injection Hrun0 as -> _ _. case_bool_decide as Hs; [done|].
    assert (s = "SUCCESS") as -> by (apply runAppDeploy_status in Hrun; by apply stage_end_ok in Hrun). split_and!; [done|by eapply app_finished|done|].
    intros Ho. unfold stageRuns in Hr. unfold stageHeldForIncompleteUpload in Hheld. rewrite Ho in Hr, Hheld. simpl in Hr, Hheld. done.
  - injection Hrun0 as <- _ _ _. split; [done|]. case_bool_decide as Hs; [by left|right]. unfold stageRuns in Hr. by apply orb_false_iff in Hr as [_ ->].
Qed.

(** The outcome of a run whose settings were read as [cfg] from the tables [t]
    when [calls] calls had been made to Harbor; [id] is the execution it records. *)
Record all_done (x : run_start) (cfg : simpleSettings) (t : simple_tables) (calls : nat) (exit : option Z) (replication : string) (id : option Z)
    (app : string) : Prop := {
  ad_exit : exit = Some 0;
  ad_replication : if replicates cfg then replication = "SUCCESS" ∧ replicated' cfg calls (default 0 id)
                                          ∨ replication = stageStatusSkipped ∧ bt_Last (rs_batch x) = false
                   else replication = stageStatusNone;
  ad_app : if deploys_app cfg then app = "SUCCESS" ∧ finished (cfg_AppDeployPath cfg) (expandArgs (cfg_AppDeployArgs cfg) (rs_path x)) ∧ replication ≠ stageStatusSkipped ∨ app = stageStatusSkipped ∧ bt_Last (rs_batch x) = false
           else app = stageStatusNone;
  ad_upload : replicates cfg && once (cfg_ReplicationScope cfg) && bool_decide (replication = "SUCCESS")
              || deploys_app cfg && once (cfg_AppDeployScope cfg) && bool_decide (app = "SUCCESS") = true →
              bt_Last (rs_batch x) = true ∧ (bt_ID (rs_batch x) ≠ "" → upload_deployed (bt_ID (rs_batch x)) (rs_id x) t)
}.
Lemma incomplete_spec batch id w b w' :
  uploadHasFailedPackages batch id w = (Ok b, w') → tabs w' = tabs w ∧ (b = false → upload_deployed batch id (tabs w)).
Proof.
  intros Hrun. unfold uploadHasFailedPackages, read_sql in Hrun. inv_run Hrun. injection Hrun as <- <-.
  pose proof (pool_run (query (λ _ t, length (filter (λ kr : string * run_row,
             ro_batch (rn_origin kr.2) = batch ∧ kr.1 ≠ id ∧ rn_status kr.2 ≠ "SUCCESS") (map_to_list (sm_runs t))))) w) as Ht.
  unfold pool, query, statement in *. simpl in *. destruct (db_faults w (S (db_tick w))); injection Hrun0 as <- <-; [done|]. split; [done|].
  intros Hb k r Hr Hbatch Hk. apply Nat.ltb_ge, Nat.le_0_r, nil_length_inv in Hb. destruct (decide (rn_status r = "SUCCESS")) as [|Hs]; [done|].
  assert ((k, r) ∈ filter (λ kr : string * run_row, ro_batch (rn_origin kr.2) = batch ∧ kr.1 ≠ id ∧ rn_status kr.2 ≠ "SUCCESS")
            (map_to_list (sm_runs (tabs w)))) as Hin; [|by rewrite Hb in Hin; apply elem_of_nil in Hin].
  apply list_elem_of_filter. split; [done|]. by apply elem_of_map_to_list.
Qed.

Lemma on_sql_run {A} (m : M sdb A) (w : exec) a w' :
  on_api (on_sql m) w = (Ok a, w') → ∃ d, m (ap_db (ex_api w)) = (Ok a, d) ∧ w' = set_api (Api d (ap_os (ex_api w)) (ap_active (ex_api w))) w.
Proof. unfold on_api, on_sql. destruct (m _) as [r d]. intros [= -> <-]. by exists d. Qed.
Lemma incomplete_run batch id (w : exec) (b : bool) w' (cond : bool) :
  (if cond then on_api (on_sql (uploadHasFailedPackages batch id)) else mret false) w = (Ok b, w') → cond = true → b = false →
  upload_deployed batch id (world_tables w).
Proof. intros Hrun -> Hb. apply on_sql_run in Hrun as (d & Hd & _). by apply incomplete_spec in Hd as [_ Hd]; auto. Qed.
(** Both stages together. *)
Lemma stages_done x cfg t calls s id app incomplete :
  let last := bt_Last (rs_batch x) in
  (if replicates cfg then s = "SUCCESS" ∧ replicated' cfg calls (default 0 id) ∧ (once (cfg_ReplicationScope cfg) = true → last = true ∧ incomplete = false)
                          ∨ s = stageStatusSkipped ∧ last = false else s = stageStatusNone) →
  (if deploys_app cfg then app = "SUCCESS" ∧ finished (cfg_AppDeployPath cfg) (expandArgs (cfg_AppDeployArgs cfg) (rs_path x)) ∧ s ≠ stageStatusSkipped ∧ (once (cfg_AppDeployScope cfg) = true → last = true ∧ incomplete = false)
                           ∨ app = stageStatusSkipped ∧ (s = stageStatusSkipped ∨ last = false) else app = stageStatusNone) →
  (last = true → incomplete = false → bt_ID (rs_batch x) ≠ "" → upload_deployed (bt_ID (rs_batch x)) (rs_id x) t) →
  all_done x cfg t calls (Some 0) s id app.
Proof.
  cbv zeta. intros Hr Ha Hu. constructor; [done| | |].
  - destruct (replicates cfg); [destruct Hr as [(? & ? & _)|?]; auto|done].
  - destruct (deploys_app cfg); [|done]. destruct Ha as [(? & ? & ? & _)|(? & [->|?])]; [by auto| |by auto]. right. split; [done|].
    destruct (replicates cfg); [by destruct Hr as [[? _]|[_ ?]]|done].
  - intros [Hx|Hx]%orb_true_iff; bools.
    + replace (replicates cfg) with true in Hr. destruct Hr as [(_ & _ & Hr)|[-> _]]; [|done]. destruct Hr as [? ?]; auto.
    + replace (deploys_app cfg) with true in Ha. destruct Ha as [(_ & _ & _ & Ha)|[-> _]]; [|done]. destruct Ha as [? ?]; auto.
Qed.
Lemma run_stages_ok cfg x message w v w' :
  run_stages duration_text parse_url harbor decode_credential decode_id decode_execution vault process range range_pending cfg x message w = (Ok v, w') →
  vd_status v = "SUCCESS" → vd_held v = false →
  all_done x cfg (world_tables w) (ex_calls w) (Some 0) (vd_replication v) (oc_execution (outcome_of 0 v)) (vd_app v).
Proof.
  intros Hrun Hs Hheld. unfold run_stages in Hrun. apply bindM_ok in Hrun as (incomplete & w1 & Hinc & Hrun).
  pose proof (λ b H, incomplete_run _ _ _ _ _ _ Hinc b H) as Hup.
  assert (ex_calls w1 = ex_calls w) as Hcalls by (destruct (_ && _) in Hinc; [apply on_sql_run in Hinc as (? & _ & ->)|injection Hinc as _ <-]; done).
  clear Hinc. cbv beta in Hrun.
  apply bindM_ok in Hrun as ([[[s e] m] held] & w2 & Hrep & Hrun).
  destruct (stageFailed s) eqn:Hf; [injection Hrun as <- _; done|].
  assert (bt_Last (rs_batch x) = true → incomplete = false → bt_ID (rs_batch x) ≠ "" → upload_deployed (bt_ID (rs_batch x)) (rs_id x) (world_tables w)) as Hd.
  { intros Hl Hi Hn. apply Hup; [|done]. by rewrite empty_str_false, Hl. }
  assert (held = false → if replicates cfg then s = "SUCCESS" ∧ replicated' cfg (ex_calls w) (default 0 (if e =? 0 then None else Some e)) ∧ (once (cfg_ReplicationScope cfg) = true → bt_Last (rs_batch x) = true ∧ incomplete = false)
                         ∨ s = stageStatusSkipped ∧ bt_Last (rs_batch x) = false else s = stageStatusNone) as Hr
    by (intros Hh; pose proof (replication_stage_ok _ _ _ _ _ _ _ _ _ Hrep Hf Hh) as Hr; rewrite Hcalls in Hr; destruct (Z.eqb_spec e 0) as [->|]; done).
  fold (deploys_app cfg) in Hrun. destruct (deploys_app cfg) eqn:Happ.
  - apply bindM_ok in Hrun as ([[app am] aheld] & w3 & Ha & Hrun). destruct (stageFailed app) eqn:Hfa; [injection Hrun as <- _; done|].
    injection Hrun as <- _. simpl in *. apply orb_false_iff in Hheld as [-> ->]. eapply stages_done; [by apply Hr| |done].
    rewrite Happ. exact (app_stage_ok _ _ _ _ _ _ _ _ _ _ Ha Hfa eq_refl).
  - injection Hrun as <- _. simpl in *. subst held. eapply stages_done; [by apply Hr|by rewrite Happ|done].
Qed.

Lemma after_command_ok x status message w v w' :
  after x status message w = (Ok v, w') → vd_status v = "SUCCESS" →
  status = "SUCCESS" ∧ ∃ cfg, sm_settings (world_tables w) = Some cfg ∧
    all_done x cfg (world_tables w) (ex_calls w) (Some 0) (vd_replication v) (oc_execution (outcome_of 0 v)) (vd_app v).
Proof.
  intros Hrun Hs. unfold after_command in Hrun. apply bindM_ok in Hrun as (settings & w1 & Hset & Hrun).
  apply (proj1 (try_ok _ _ _ _)) in Hset. apply bindM_ok in Hrun as (v1 & w2 & Hrun & Hend). simpl in Hend.
  destruct (outcomeWithHeldStages _ _ _) as [st msg] eqn:Ho. injection Hend as <- _. simpl in *. subst st.
  unfold outcomeWithHeldStages in Ho. destruct (negb (vd_held v1) || _) eqn:Hh; [|done]. injection Ho as Ho _.
  assert (vd_held v1 = false) as Hheld.
  { apply orb_true_iff in Hh as [Hh|Hh]; bools; [done|]. by rewrite Ho in Hh. }
  clear Hh. destruct settings as [cfg|e].
  - assert (sm_settings (world_tables w) = Some cfg ∧ world_tables w1 = world_tables w ∧ ex_calls w1 = ex_calls w) as (Hcfg & Hw & Hc).
    { apply on_sql_run in Hset as (d & Hd & ->). simpl. unfold loadSimpleSettings, read_sql in Hd. inv_run Hd. subst x0.
      unfold pool, query, statement in Hrun0. simpl in Hrun0. destruct (db_faults _ _); [done|]. by injection Hrun0 as -> <-. }
    case_bool_decide as Hst; [|injection Hrun as <- _; done]. split; [done|]. exists cfg. split; [done|]. rewrite <- Hw, <- Hc. by eapply run_stages_ok.
  - unfold outcomeWithoutStageSettings in Hrun. case_bool_decide as Hst; inv_run Hrun; injection Hrun as <- _; done.
Qed.
Lemma deploy_ok x w result status message w' :
  deploy x w = (Ok (result, status, message), w') → status = "SUCCESS" →
  finished (cmd_Path (rs_command x)) (rs_args x) ∧ lx_ExitCode result = 0.
Proof.
  intros Hrun Hs. unfold deploy_command in Hrun. do 2 (apply bindM_ok in Hrun as (? & ? & _ & Hrun); cbv beta in Hrun).
  apply bindM_ok in Hrun as ([res err] & w1 & Hcmd & Hrun). apply bindM_ok in Hrun as (? & ? & _ & Hrun). cbv beta in Hrun.
  destruct (command_status _ _ _) as [st msg] eqn:Ec. inv_run Hrun. injection Hrun as <- -> -> _. unfold command_status in Ec. simpl in Ec. subst status.
  destruct (lx_TimedOut res); [done|]. destruct err as [e|]; [done|]. by apply command_finished in Hcmd.
Qed.

(** Every verdict is the status of a finished run. *)
Lemma after_command_status x status message w v w' : after x status message w = (Ok v, w') → stage_end status → stage_end (vd_status v).
Proof.
  intros Hrun Hs. unfold after_command in Hrun. apply bindM_ok in Hrun as (settings & w1 & Hset & Hrun).
  apply bindM_ok in Hrun as (v1 & w2 & Hrun & Hend). simpl in Hend.
  destruct (outcomeWithHeldStages _ _ _) as [st msg] eqn:Ho. injection Hend as <- _. simpl.
  assert (stage_end (vd_status v1)) as Hv1; [|unfold outcomeWithHeldStages in Ho; destruct (negb (vd_held v1) || _); injection Ho as <- _; [done|unfold stage_end; set_solver]].
  clear Ho. destruct settings as [cfg|e].
  - case_bool_decide; [|by injection Hrun as <- _]. unfold run_stages in Hrun. apply bindM_ok in Hrun as (incomplete & w3 & _ & Hrun).
    apply bindM_ok in Hrun as ([[[s e] m] held] & w4 & _ & Hrun). destruct (stageFailed s); [injection Hrun as <- _; unfold stage_end; simpl; set_solver|].
    destruct (_ && _); [|injection Hrun as <- _; unfold stage_end; simpl; set_solver].
    apply bindM_ok in Hrun as ([[app am] aheld] & w5 & _ & Hrun). destruct (stageFailed app); injection Hrun as <- _; unfold stage_end; simpl; set_solver.
  - unfold outcomeWithoutStageSettings in Hrun. case_bool_decide; inv_run Hrun; injection Hrun as <- _; simpl; [unfold stage_end; set_solver|done].
Qed.
Lemma deploy_status x w result status message w' : deploy x w = (Ok (result, status, message), w') → stage_end status.
Proof.
  intros Hrun. unfold deploy_command in Hrun. do 4 (apply bindM_ok in Hrun as (? & ? & ? & Hrun); cbv beta in Hrun).
  destruct (command_status _ _ _) as [st msg] eqn:Ec. inv_run Hrun. injection Hrun as _ <- _ _. unfold command_status in Ec.
  destruct (lx_TimedOut _); [|destruct (_.2)]; injection Ec as <- _; unfold stage_end; set_solver.
Qed.
Lemma stage_end_finished s : stage_end s → run_finished s = true.
Proof. unfold stage_end, run_finished. intros Hs. apply bool_decide_eq_true. set_solver. Qed.


End runs.
