(* ===== verification/SimpleSystem.v ===== *)
(** * Uploads, runs and restarts together (theorems about Simple.v and SimpleRun.v)

    Any sequence of uploads, runs, restarts and clean-ups keeps the records of
    the runs, one run in flight per target, and the count of running commands. *)
From S2P Require Import Prelude GoIO GoString GoPath OS Files Command LocalExec Encoding Model Db Store Backend Releases Artifacts Crypto Vault SimpleConfig SimpleStore SimpleLog Simple SimpleRun SimpleFrame SimpleProofs.

(** ** Handlers *)
Section api.
Context (I : api → Prop).
Lemma on_disk_same {A} (m : M os A) : (∀ d o o' a, I (Api d o a) → I (Api d o' a)) → preserves I (on_disk m).
Proof. intros HI. apply preserves_state. intros [d o a] Hw. unfold on_disk. simpl. destruct (m o) as [r o']. by eapply HI. Qed.
Lemma on_sql_each {A} (R : simple_tables → simple_tables → Prop) (m : M sdb A) :
  each R m → (∀ d d' o a, R (tabs d) (tabs d') → I (Api d o a) → I (Api d' o a)) → preserves I (on_sql m).
Proof.
  intros Hm HI. apply preserves_state. intros [d o a] Hw. unfold on_sql. simpl. specialize (Hm d). destruct (m d) as [r d']. by eapply HI.
Qed.
End api.

Definition same_tables (t t' : simple_tables) : Prop := t' = t.
#[export] Instance same_tables_preorder : PreOrder same_tables.
Proof. split; unfold same_tables; congruence. Qed.
Lemma each_read {A} (R : simple_tables → simple_tables → Prop) `{!PreOrder R} (f : simple_tables → A) : each R (read_sql f).
Proof. unfold read_sql. apply each_pool, each_query; done. Qed.
Lemma each_settings (R : simple_tables → simple_tables → Prop) `{!PreOrder R} : each R loadSimpleSettings.
Proof. unfold loadSimpleSettings. each_steps. by apply each_read. Qed.
Lemma each_resolve (R : simple_tables → simple_tables → Prop) `{!PreOrder R} id : each R (resolveSimpleTarget id).
Proof. unfold resolveSimpleTarget, read_target. repeat (each_step || apply each_read); done. Qed.

Section create.
Context (pg_code : goerr → option string) `{ErrorText}.
(** A property of the tables that the statements of an upload keep. *)
Context (X : simple_tables → Prop).
Let R (t t' : simple_tables) : Prop := X t → X t'.
#[local] Instance R_preorder : PreOrder R.
Proof. split; unfold R; [intros t; done|intros t1 t2 t3; auto]. Qed.
Context (X_insert : ∀ id o t u t', insert_run id o t = Ok (u, t') → R t t')
        (X_fail : ∀ id n reason t u t', update_run id pending (set_failed n reason) t = Ok (u, t') → R t t')
        (X_audit : ∀ t t', sm_runs t' = sm_runs t → sm_logs t' = sm_logs t → R t t').
Definition counted (a : Z) (w : api) : Prop := X (tabs (ap_db w)) ∧ ap_active w = a.

Lemma counted_disk {A} a (m : M os A) : preserves (counted a) (on_disk m).
Proof. apply on_disk_same. by intros d o o' b [HX Hb]. Qed.
Lemma counted_sql {A} a (m : M sdb A) : each R m → preserves (counted a) (on_sql m).
Proof. intros Hm. eapply on_sql_each; [exact Hm|]. intros d d' o b HR [HX Ha]. split; [by apply HR|done]. Qed.
Lemma counted_audit a w x y z v : preserves (counted a) (on_sql (audit w x y z v)).
Proof. apply counted_sql. unfold audit. each_steps. by apply X_audit. Qed.
Lemma counted_release a :
  0 ≤ a → triple (counted (a + 1)) releaseSimpleRun (λ _, counted a) (λ _, False).
Proof.
  intros Ha [d o b] [HX Hb]. simpl in Hb. subst b. unfold releaseSimpleRun. simpl. rewrite (proj2 (Z.ltb_lt _ _)) by lia. split; [done|]. simpl. lia.
Qed.

Ltac counted_step := lazymatch goal with
  | |- preserves _ (mret _) => apply preserves_ret
  | |- preserves _ (lift _) => apply preserves_lift
  | |- preserves _ (wrapM _ _) => apply preserves_wrap
  | |- preserves _ (try _) => apply preserves_try
  | |- preserves _ (or_reply _ _ _ _) => apply preserves_wrap
  | |- preserves _ (refuse_if _ _ _ _) => apply preserves_lift
  | |- preserves _ (_ ≫= _) => apply preserves_bind; [|intros ?]
  | |- preserves _ (on_disk _) => apply counted_disk
  | |- preserves _ (on_sql (audit _ _ _ _ _)) => apply counted_audit
  | |- preserves _ (on_sql _) => apply counted_sql
  | |- preserves _ (match ?x with _ => _ end) => destruct x
  end.
Ltac counted_steps := repeat (cbv beta zeta; counted_step).

Lemma accept_counted a targetID form : preserves (counted a) (accept_upload targetID form).
Proof. unfold accept_upload. counted_steps; [apply each_settings; apply _|apply each_resolve; apply _]. Qed.
Lemma record_counted a user newid target command filename staged batch :
  preserves (counted a) (record_run pg_code user newid target command filename staged batch).
Proof. unfold record_run. counted_steps. unfold run_sql. each_steps. by eapply X_insert. Qed.
Lemma publish_counted a x staged : preserves (counted a) (publish_run x staged).
Proof. unfold publish_run. counted_steps. unfold failSimpleRun, run_sql. each_steps. by eapply X_fail. Qed.

(** A caught error. *)
Lemma caught {A} a E (m : M api A) : preserves (counted a) m → triple (counted a) (try m) (λ _, counted a) E.
Proof. intros Hm w Hw. specialize (Hm w Hw). unfold try. by destruct (m w) as [[r|e] w']. Qed.
Lemma give_back {A} a e (Q : A → api → Prop) : 0 ≤ a → triple (counted (a + 1)) (_ ← releaseSimpleRun; throw e) Q (counted a).
Proof. intros Ha. eapply triple_seq; [by apply counted_release|done|]. intros ?. by apply triple_throw. Qed.
Lemma discarded a staged E : triple (counted a) (on_disk (discard staged)) (λ _, counted a) E.
Proof.
  intros w Hw. unfold on_disk, discard. destruct (empty_str _); [done|]. unfold mbind, M_bind, try. by destruct (remove _ _) as [r o].
Qed.

(** An upload that is refused gives its slot back; one that is accepted keeps it for its run. *)
Lemma create_counted a user targetID newid random form :
  0 ≤ a → triple (counted a) (createSimpleRun pg_code user targetID newid random form)
    (λ _ w, counted (a + 1) w ∧ a < maxSimpleConcurrentRuns) (counted a).
Proof.
  intros Ha. unfold createSimpleRun.
  apply (triple_bind _ _ _ (λ _, counted a)); [apply accept_counted|]. intros [[[target command] [[file fields] parts]] filename].
  apply (triple_bind _ _ _ (λ (b : bool) w, if b then counted (a + 1) w ∧ a < maxSimpleConcurrentRuns else counted a w)).
  { intros [d o b] [HX Hb]. simpl in Hb. subst b. unfold acquireSimpleRun. simpl. by destruct (Z.leb_spec maxSimpleConcurrentRuns a). }
  intros [|]; [|by intros w Hw].
  apply (triple_bind _ _ _ (λ _ w, counted (a + 1) w ∧ a < maxSimpleConcurrentRuns)); [by intros w Hw|]. intros ? w [Hw Hlt]. revert w Hw.
  apply (triple_bind _ _ _ (λ _, counted (a + 1))); [by apply caught, counted_disk|]. intros [staged|e]; [|by apply give_back].
  apply (triple_bind _ _ _ (λ _, counted (a + 1))); [by apply caught, record_counted|]. intros [x|e].
  2:{ apply (triple_bind _ _ _ (λ _, counted (a + 1))); [apply discarded|]. intros ?. by apply give_back. }
  apply (triple_bind _ _ _ (λ _, counted (a + 1))).
  { intros w Hw. pose proof (publish_counted _ x staged w Hw) as Hp. destruct (publish_run x staged w) as [[p|e] w'] eqn:E; [done|].
    exfalso. revert E. unfold publish_run, commit_staged, failSimpleRun, on_disk, on_sql, mbind, M_bind, try. simpl.
    destruct (rename _ _ _) as [[u|e1] o1]; simpl; [destruct (syncDirectory _ _) as [[u1|e1] o2]; simpl; [done|]|]; by destruct (run_sql _ _). }
  intros [staged' [u|e]].
  - apply (triple_bind _ _ _ (λ _, counted (a + 1))); [|intros ?; by apply triple_ret].
    intros w Hw. pose proof (counted_audit (a + 1) user "simple_run.create" "simple_run" (rs_id x) "success" w Hw) as Hp.
    unfold on_sql, audit, mbind, M_bind, try in *. by destruct (pool _ _).
  - apply (triple_bind _ _ _ (λ _, counted (a + 1))); [apply discarded|]. intros ?. by apply give_back.
Qed.
End create.

(** ** The system

    The runs that were accepted and have not ended; a run takes its steps at once,
    others act beside it while its processes run ([outside]). *)
Record simple_system := System { sy_world : exec; sy_accepted : list run_start }.
Notation tables_of s := (tabs (ap_db (ex_api (sy_world s)))).

Section system.
Context (pg_code : goerr → option string).
Context (duration_text : Z → string) `{ErrorText} (parse_url : string → result (string * string)).
Context (harbor : nat → harbor_request → Z * result harbor_response).
Context (decode_credential : string → option (string * string)) (decode_id : bytes → option Z)
        (decode_execution : bytes → result replicationExecution) (vault : Vault).
Context (process : lx_Spec exec → list string → exec → (process_end * Z) * exec)
        (range : gmap string string → list (string * string)) (range_pending : gmap string bytes → list string).
Context `{!LawfulProcess process}.
Notation goroutine := (run_goroutine duration_text parse_url harbor decode_credential decode_id decode_execution vault process range range_pending).

(** A new process counts no running command. *)
Definition restart (w : api) : api :=
  let w := (_ ← RecoverSimpleRuns; RemoveStagedSimpleUploads) w in Api (ap_db w.2) (ap_os w.2) 0.
Inductive simple_step : simple_system → simple_system → Prop :=
  | accepted_step w l user target newid random form x w' :
      on_api (createSimpleRun pg_code user target newid random form) w = (Ok x, w') → simple_step (System w l) (System w' (l ++ [x]))
  | refused_step w l user target newid random form e w' :
      on_api (createSimpleRun pg_code user target newid random form) w = (Err e, w') → simple_step (System w l) (System w' l)
  | run_step w l x k : simple_step (System w (l ++ x :: k)) (System (goroutine x w).2 (l ++ k))
  | restart_step w l : simple_step (System w l) (System (set_api (restart (ex_api w)) w) []).

Lemma create_step t0 a user target newid random form w r w' :
  0 ≤ a → runs_rel t0 (tabs (ap_db (ex_api w))) → ap_active (ex_api w) = a →
  on_api (createSimpleRun pg_code user target newid random form) w = (r, w') →
  runs_rel t0 (tabs (ap_db (ex_api w'))) ∧
  match r with Ok _ => ap_active (ex_api w') = a + 1 ∧ a < maxSimpleConcurrentRuns | Err _ => ap_active (ex_api w') = a end.
Proof.
  intros Ha Hr Hw Hrun. unfold on_api in Hrun.
  pose proof (create_counted pg_code (runs_rel t0)) as Hc. specialize (Hc ltac:(intros * ? ?; etrans; [done|by eapply rel_insert_run])).
  specialize (Hc ltac:(intros * Hu ?; etrans; [done|by eapply rel_update; [|exact Hu]])).
  specialize (Hc ltac:(intros * Er El ?; etrans; [done|apply rel_no_runs; [done|by rewrite El]])).
  specialize (Hc a user target newid random form Ha (ex_api w) (conj Hr Hw)).
  destruct (createSimpleRun _ _ _ _ _ _ (ex_api w)) as [[x|e] v]; injection Hrun as <- <-; simpl.
  - destruct Hc as [[HX HA] Hl]. done.
  - by destruct Hc as [HX HA].
Qed.
Lemma goroutine_step t0 a x w :
  0 < a → runs_rel t0 (tabs (ap_db (ex_api w))) → ap_active (ex_api w) = a →
  runs_rel t0 (tabs (ap_db (ex_api (goroutine x w).2))) ∧ ap_active (ex_api (goroutine x w).2) = a - 1.
Proof.
  intros Ha Hr Hw. set (P := λ (t : simple_tables) (b : Z), runs_rel t0 t ∧ b = a).
  assert (P (tabs (ap_db (ex_api (executeSimpleRun duration_text parse_url harbor decode_credential decode_id decode_execution vault process range range_pending x w).2)))
    (ap_active (ex_api (executeSimpleRun duration_text parse_url harbor decode_credential decode_id decode_execution vault process range range_pending x w).2))) as [Hr' Ha'].
  { apply (execute_ends range_pending (λ t _ b, P t b)) with (process := process) (I0 := P) (K := P).
    - intros f l b Hf v [Hv Hb].
      pose proof (op_each range_pending runs_rel f l rel_insert_log rel_add_bytes Hf v) as H1.
      destruct (f l v) as [[l'|e] v']; (split; [by etrans|done]).
    - intros v v' [_ Hb Hv _ _] [H1 H2]. split; [by etrans|congruence].
    - done.
    - intros t b n u t' [H1 H2] Hu. split; [etrans; [exact H1|]|done]. eapply rel_update; [|exact Hu].
      intros r _ Hp. split; [done|]. intros _ _. unfold pending in Hp. bools. by rewrite Hp.
    - done.
    - done.
    - intros w2 w3 result status message v n u t' Hd Hv [H1 H2] Hu. split; [etrans; [exact H1|]|done].
      eapply rel_update; [|exact Hu]. intros r _ _. split; [done|]. intros _ Hf. exfalso. simpl in Hf.
      apply (deploy_status duration_text parse_url decode_credential) in Hd; [|done]. apply after_command_status in Hv; [|done..]. apply stage_end_finished, finished_not_in_flight in Hv. congruence.
    - intros t t' b [H1 H2] E1 E2. split; [etrans; [exact H1|apply rel_no_runs; [done|by rewrite E2]]|done].
    - done. }
  unfold run_goroutine, mbind, M_bind, try. destruct (executeSimpleRun _ _ _ _ _ _ _ _ _ _ x w) as [r w1] eqn:E. simpl in *.
  rewrite (proj2 (Z.ltb_lt _ _)) by lia. simpl. split; [done|lia].
Qed.

(** The records as at the start, and a slot for every accepted run. *)
Definition consistent (t0 : simple_tables) (s : simple_system) : Prop :=
  runs_rel t0 (tables_of s) ∧ ap_active (ex_api (sy_world s)) = Z.of_nat (length (sy_accepted s)) ∧ Z.of_nat (length (sy_accepted s)) ≤ maxSimpleConcurrentRuns.
Lemma restart_tables w : runs_rel (tabs (ap_db w)) (tabs (ap_db (restart w))).
Proof.
  unfold restart. set (t0 := tabs (ap_db w)).
  assert (preserves (λ w : api, runs_rel t0 (tabs (ap_db w))) (_ ← RecoverSimpleRuns; RemoveStagedSimpleUploads)) as Hp.
  { apply preserves_bind; [|intros ?; unfold RemoveStagedSimpleUploads].
    - unfold RecoverSimpleRuns. apply preserves_bind; [apply preserves_try|intros ?; apply preserves_ret].
      apply (on_sql_each _ runs_rel); [|intros d d' o a ? ?; by etrans]. each_steps. apply rel_interrupted.
    - apply preserves_bind; [apply preserves_try, (on_sql_each _ runs_rel); [apply each_read; apply _|intros d d' o b ? ?; by etrans]|].
      intros [dirs|e]; [|apply preserves_ret]. apply preserves_bind; [by apply on_disk_same|intros ?; apply preserves_ret]. }
  assert (runs_rel t0 (tabs (ap_db w))) as H0 by reflexivity. exact (proj1 (preserves_state _ _) Hp w H0).
Qed.
Lemma step_consistent t0 s s' : simple_step s s' → consistent t0 s → consistent t0 s'.
Proof.
  intros Hs (Hr & Ha & Hm). destruct Hs as [w l user target newid random form x w' Hrun|w l user target newid random form e w' Hrun|w l x k|w l]; unfold consistent in *; simpl in *.
  - destruct (create_step t0 _ _ _ _ _ _ _ _ _ (Zle_0_nat (length l)) Hr Ha Hrun) as (? & ? & ?). rewrite length_app. simpl. split_and!; [done|lia|lia].
  - destruct (create_step t0 _ _ _ _ _ _ _ _ _ (Zle_0_nat (length l)) Hr Ha Hrun) as (? & ?). done.
  - rewrite length_app in *. simpl in *. destruct (goroutine_step t0 (Z.of_nat (length l + S (length k))) x w ltac:(lia) Hr Ha) as [? ->].
    split_and!; [done|lia|lia].
  - split_and!; [|done|done]. etrans; [exact Hr|apply restart_tables].
Qed.

(** C19: any uploads, runs and restarts, in any order and with any statements failing.  No run disappears, changes what it was created with, or is
    touched again once it has finished; a target has at most one run in flight; log lines are only added; and the
    count of running commands is that of the accepted runs that have not ended, at most four. *)
Theorem simple_system_invariant s s' :
  single (tables_of s) → sy_accepted s = [] → ap_active (ex_api (sy_world s)) = 0 → rtc simple_step s s' →
  (∀ k r, sm_runs (tables_of s) !! k = Some r → ∃ r', sm_runs (tables_of s') !! k = Some r' ∧ rn_origin r' = rn_origin r
    ∧ (run_finished (rn_status r) = true → r' = r)) ∧
  single (tables_of s') ∧ sm_logs (tables_of s) `prefix_of` sm_logs (tables_of s') ∧
  ap_active (ex_api (sy_world s')) = Z.of_nat (length (sy_accepted s')) ∧ Z.of_nat (length (sy_accepted s')) ≤ maxSimpleConcurrentRuns.
Proof.
  intros Hs Hl Ha Hsteps. assert (consistent (tables_of s) s') as (Hr & ? & ?).
  { assert (consistent (tables_of s) s) as Hc by (unfold consistent; rewrite Hl, Ha; done). revert Hc. generalize (tables_of s). clear -Hsteps LawfulProcess0.
    induction Hsteps as [s|s s1 s' H1 _ IH]; intros t Hc; [done|]. apply IH. by eapply step_consistent. }
  split_and!; [exact (ru_kept _ _ Hr)|by apply (ru_single _ _ Hr)|apply (ru_logs _ _ Hr)|done|done].
Qed.
End system.
