(* ===== verification/SimpleUpload.v ===== *)
(** * Stored packages (theorems about Simple.v)

    The names of staged uploads are told apart from those of packages; an upload
    changes a package only by putting a complete, recorded one in its place.
    Names of downloads are harmless, and upload directories stay below their root. *)
From S2P Require Import Prelude GoIO GoString GoPath OS Model Db Command Store Encoding Crypto Files Sha256 Backend Releases Artifacts LocalExec Vault SimpleConfig SimpleStore SimpleLog Simple.

(** ** Tokens *)
Definition token_char (c : ascii) : bool := bool_decide (is_Some (sextet_value (from_url c))) || line_break (from_url c).
Lemma decode_groups_chars l b : decode_groups false l = Some b → Forall (λ c, is_Some (sextet_value c)) l.
Proof.
  revert l b. fix IH 1. intros [|x [|y [|z [|t l]]]] b; cbn [decode_groups]; [constructor|done|..].
  - destruct (sextet_value x) eqn:E1; [|done]. destruct (sextet_value y) eqn:E2; [|done]. intros _. repeat constructor; eauto.
  - destruct (sextet_value x) eqn:E1; [|done]. destruct (sextet_value y) eqn:E2; [|done]. simpl. destruct (sextet_value z) eqn:E3; [|done].
    intros _. repeat constructor; eauto.
  - destruct (sextet_value x) eqn:E1; [|done]. destruct (sextet_value y) eqn:E2; [|done]. simpl. destruct (sextet_value z) eqn:E3; [|done].
    destruct (sextet_value t) eqn:E4; [|done]. destruct (decode_groups false l) as [r|] eqn:E; [|done]. intros _. repeat (constructor; eauto).
Qed.
Lemma decoded_token_chars s b : raw_url_decode s = Some b → Forall (λ c, token_char c = true) (chars s).
Proof.
  unfold raw_url_decode, raw_base64_decode, strip_breaks. rewrite chars_of_chars. intros H%decode_groups_chars.
  rewrite Forall_forall in H. apply Forall_forall. intros c Hc. unfold token_char.
  destruct (line_break (from_url c)) eqn:E; [by rewrite orb_true_r|]. rewrite bool_decide_true; [done|]. apply H.
  apply list_elem_of_filter. split; [done|]. by apply list_elem_of_fmap_2.
Qed.
Definition plain_token (c : ascii) : bool :=
  negb (token_char c) || (byte c <? 128) && negb (is_char "."%char c) && negb (is_char slash c).
Lemma token_char_plain c : token_char c = true → byte c < 128 ∧ c ≠ "."%char ∧ c ≠ slash.
Proof.
  intros Hc. assert (plain_token c = true) as H by (apply all_chars; by vm_compute). unfold plain_token, is_char in H.
  rewrite Hc in H. simpl in H. bools. split_and!; [lia|congruence|congruence].
Qed.
Definition alphabet (c : ascii) : bool := bool_decide (is_Some (sextet_value c)).
Definition url_safe (c : ascii) : bool := negb (alphabet c) || is_char c (from_url (to_url c)).
Lemma from_to_url c : alphabet c = true → from_url (to_url c) = c.
Proof.
  intros Hc. assert (url_safe c = true) as H by (apply all_chars; by vm_compute). unfold url_safe, is_char in H.
  rewrite Hc in H. by apply bool_decide_eq_true in H.
Qed.
Lemma raw_url_roundtrip b : raw_url_decode (raw_url_encode b) = Some b.
Proof.
  unfold raw_url_decode, raw_url_encode. rewrite chars_of_chars, <- list_fmap_compose.
  assert (from_url ∘ to_url <$> chars (raw_base64_encode b) = chars (raw_base64_encode b)) as ->; [|rewrite of_chars_chars; apply raw_base64_roundtrip].
  unfold raw_base64_encode. rewrite chars_of_chars. pose proof (decode_groups_chars _ _ (decode_raw_encode b)) as H.
  induction H as [|c l Hc _ IH]; [done|]. cbn [fmap list_fmap]. rewrite IH. f_equal. unfold compose. apply from_to_url. by apply bool_decide_eq_true.
Qed.

(** ** Names of staged uploads *)
Definition marker : list ascii := chars stagedUploadMarker.
Lemma last_cut_parts sub l a b : last_cut sub l = Some (a, b) → l = a ++ sub ++ b.
Proof.
  revert a b. induction l as [|c l IH]; intros a b; cbn [last_cut].
  - case_bool_decide as E; [|done]. subst sub. by intros [= <- <-].
  - destruct (last_cut sub l) as [[x y]|]; [intros [= <- <-]; simpl; by rewrite (IH x y)|].
    case_bool_decide as E; [|done]. intros [= <- <-]. simpl. rewrite <- E at 1. by rewrite take_drop.
Qed.
Lemma last_cut_none l : Forall (λ c, c ≠ "."%char) l → last_cut marker l = None.
Proof. induction 1 as [|c l Hc Hl IH]; [done|]. cbn [last_cut]. rewrite IH. rewrite bool_decide_false; [done|]. intros [= E _]. done. Qed.
Lemma last_cut_marker a t : Forall (λ c, c ≠ "."%char) t → last_cut marker (a ++ marker ++ t) = Some (a, t).
Proof.
  intros Ht. induction a as [|c a IH]; [|simpl; simpl in IH; by rewrite IH].
  assert (Forall (λ c, c ≠ "."%char) (chars "partial-")) as Hp by (repeat constructor; discriminate).
  change (last_cut marker ("."%char :: (chars "partial-" ++ t)) = Some ([], t)). cbn [last_cut].
  rewrite last_cut_none by by apply Forall_app. rewrite bool_decide_true; [|change (marker = take 9 (marker ++ t)); by rewrite take_app_length'].
  reflexivity.
Qed.
Lemma token_of_sixteen b : length b = 16%nat → blen (chars (raw_url_encode b)) = staged_token_length.
Proof.
  intros Hb. unfold raw_url_encode, raw_base64_encode, blen. rewrite chars_of_chars, length_fmap, chars_of_chars.
  do 16 (destruct b as [|? b]; [done|]). by destruct b.
Qed.
Lemma staged_name name b : name ≠ "" → length b = 16%nat → isStagedUploadName (name +:+ stagedUploadMarker +:+ raw_url_encode b) = true.
Proof.
  intros Hn Hb. unfold isStagedUploadName. rewrite !chars_app. fold marker. rewrite last_cut_marker.
  - rewrite (bool_decide_false (chars name = [])); [|intros E; apply Hn; apply chars_inj; by rewrite E]. simpl.
    rewrite token_of_sixteen by done. rewrite of_chars_chars, raw_url_roundtrip. by rewrite Z.eqb_refl.
  - eapply Forall_impl; [exact (decoded_token_chars _ _ (raw_url_roundtrip b))|]. intros c Hc. by apply token_char_plain.
Qed.

(** ** Lower case of an ASCII ending *)
Lemma ascii_not_cont c : byte c < 128 → ∀ lo hi, 128 ≤ lo → byte_in lo hi c = false.
Proof. intros Hc lo hi Hlo. unfold byte_in. lia. Qed.
Definition ascii_list (l : list ascii) : Prop := Forall (λ c, byte c < 128) l.
Lemma decode_rune_boundary x t : x ≠ [] → ascii_list t → (1 ≤ (decode_rune (x ++ t)).2 ≤ length x)%nat.
Proof.
  intros Hx Ht. assert (∀ c, c ∈ t → cont c = false ∧ byte_in 160 191 c = false ∧ byte_in 128 159 c = false ∧ byte_in 144 191 c = false ∧ byte_in 128 143 c = false) as Hc.
  { intros c Hin. rewrite (Forall_forall (λ c, byte c < 128) t) in Ht. specialize (Ht c Hin). unfold cont. split_and!; by apply ascii_not_cont. }
  destruct x as [|a [|b [|c [|d x]]]]; [done|..].
  all: destruct t as [|u1 [|u2 [|u3 t]]]; cbn [app decode_rune].
  all: try (destruct (Hc u1 ltac:(set_solver)) as (F1 & F2 & F3 & F4 & F5); rewrite ?F1, ?F2, ?F3, ?F4, ?F5, ?andb_false_r, ?orb_false_r).
  all: repeat case_match; simpl; lia.
Qed.
Lemma runes_ascii_tail fuel x t :
  ascii_list t → (length (x ++ t) ≤ fuel)%nat → ∃ rs, runes_loop fuel (x ++ t) = rs ++ ((λ c, (byte c, [c])) <$> t).
Proof.
  revert x t. induction fuel as [|fuel IH]; intros x t Ht Hlen.
  - destruct x, t; simpl in *; [by exists []|lia..].
  - destruct (decide (x = [])) as [->|Hx].
    + destruct Ht as [|c t Hc Ht]; [by exists []|]. destruct (IH [] t Ht) as [rs Hrs]; [simpl in *; lia|]. simpl in Hrs.
      assert (runes_loop (S fuel) ([] ++ c :: t) = (byte c, [c]) :: runes_loop fuel t) as ->.
      { cbn [app runes_loop decode_rune]. rewrite (proj2 (Z.ltb_lt _ _) Hc). cbn. by rewrite drop_0. }
      destruct rs as [|y rs]; [exists []; by rewrite Hrs|].
      exfalso. assert (length (runes_loop fuel t) ≤ length t)%nat as Hl.
      { clear -t. revert t. induction fuel as [|fuel IH]; intros t; [simpl; lia|]. destruct t as [|c t]; [done|]. cbn [runes_loop].
        destruct (decode_rune (c :: t)) as [r w] eqn:E. simpl. specialize (IH (drop w (c :: t))). rewrite length_drop in IH.
        assert (1 ≤ w)%nat; [|simpl in *; lia]. pose proof (decode_rune_boundary (c :: t) [] ltac:(done) (Forall_nil_2 _)) as Hw.
        rewrite app_nil_r, E in Hw. simpl in Hw. lia. }
      rewrite Hrs in Hl. simpl in Hl. rewrite length_app, length_fmap in Hl. lia.
    + pose proof (decode_rune_boundary x t Hx Ht) as Hw. destruct x as [|a x]; [done|]. cbn [app runes_loop]. cbn [app] in Hw.
      destruct (decode_rune (a :: x ++ t)) as [r w] eqn:E. simpl in Hw.
      assert (drop w (a :: x ++ t) = drop w (a :: x) ++ t) as -> by (change (a :: x ++ t) with ((a :: x) ++ t); by rewrite drop_app_le by (simpl; lia)).
      destruct (IH (drop w (a :: x)) t Ht) as [rs ->]; [rewrite length_app in Hlen; rewrite length_app, length_drop; simpl in *; lia|].
      by exists ((r, take w (a :: x ++ t)) :: rs).
Qed.
Lemma lower_tail x t : ascii_list t → ∃ y, chars (to_lower (of_chars (x ++ t))) = y ++ (lower_byte <$> t).
Proof.
  intros Ht. unfold to_lower, runes. rewrite !chars_of_chars. rewrite <- length_chars, chars_of_chars.
  destruct (runes_ascii_tail (length (x ++ t)) x t Ht) as [rs ->]; [done|]. rewrite fmap_app, concat_app. eexists. f_equal.
  clear -Ht. induction Ht as [|c t Hc _ IH]; [done|]. cbn [fmap list_fmap concat]. rewrite IH. unfold lower_rune. simpl.
  rewrite (proj2 (Z.eqb_neq _ _)) by lia. rewrite (proj2 (Z.eqb_neq _ _)) by lia. done.
Qed.

Lemma suffix_inside {A} (l s t : list A) : t `suffix_of` l ++ s → (length t ≤ length s)%nat → ∃ k, s = k ++ t.
Proof.
  intros [k Hk] Hle. exists (drop (length l) k). assert (length l ≤ length k)%nat as Hl.
  { apply (f_equal length) in Hk. rewrite !length_app in Hk. lia. }
  assert (drop (length l) (l ++ s) = drop (length l) (k ++ t)) as E by (by rewrite Hk). by rewrite drop_app_length, drop_app_le in E.
Qed.
Definition dot_only (c : ascii) : bool := negb (is_char "."%char (lower_byte c)) || is_char "."%char c.
Lemma lower_no_dot t : Forall (λ c, c ≠ "."%char) t → "."%char ∉ lower_byte <$> t.
Proof.
  intros Ht (c & Hc & Hin)%list_elem_of_fmap. rewrite Forall_forall in Ht. apply (Ht c Hin).
  assert (dot_only c = true) as H by (apply all_chars; by vm_compute). unfold dot_only, is_char in H. rewrite <- Hc in H. simpl in H.
  by apply bool_decide_eq_true in H.
Qed.
(** No package has the name of a staged upload. *)
Lemma package_not_staged name : safeArtifactName name = true → isStagedUploadName name = false.
Proof.
  intros Hs. apply not_true_iff_false. intros Hst. unfold isStagedUploadName in Hst. fold marker in Hst.
  destruct (last_cut marker (chars name)) as [[a t]|] eqn:Hcut; [|done]. apply last_cut_parts in Hcut.
  destruct (raw_url_decode (of_chars t)) as [b|] eqn:Hdec; [|by rewrite andb_false_r in Hst].
  apply decoded_token_chars in Hdec. rewrite chars_of_chars in Hdec.
  bools. assert (length t = 22%nat) as Hlen by (change staged_token_length with 22 in *; unfold blen in *; lia).
  assert (ascii_list t ∧ Forall (λ c, c ≠ "."%char) t) as [Hascii Hdot].
  { split; (eapply Forall_impl; [exact Hdec|]); intros c Hc; by apply token_char_plain in Hc as (? & ? & _). }
  destruct (lower_tail (a ++ marker) t Hascii) as [y Hy]. rewrite <- (assoc_L (++)), <- Hcut, of_chars_chars in Hy.
  unfold safeArtifactName in Hs. apply andb_true_iff in Hs as [_ Hs]. unfold has_suffix in Hs. rewrite Hy in Hs.
  assert (∃ ext, "."%char ∈ ext ∧ (length ext ≤ 22)%nat ∧ ext `suffix_of` y ++ (lower_byte <$> t)) as (ext & Hin & Hle & Hsuf).
  { apply orb_true_iff in Hs as [Hs|Hs]; bools; [exists (chars ".tar")|exists (chars ".tar.gz")]; (split_and!; [set_solver|simpl; lia|done]). }
  apply suffix_inside in Hsuf as [k Hk]; [|rewrite length_fmap; lia]. apply (lower_no_dot t Hdot). rewrite Hk. set_solver.
Qed.

(** ** What staging leaves alone *)
Definition staged_loc (loc : location) : bool := match last loc with Some x => isStagedUploadName x | None => false end.
Definition new_dir (w w' : os) (loc : location) : Prop := loc ≠ [] ∧ fs w !! loc = None ∧ ∃ n, fs w' !! loc = Some n ∧ is_dir n = true.
(** Only staged files and new directories. *)
Definition kept (w w' : os) : Prop := ∀ loc, staged_loc loc = false → fs w' !! loc = fs w !! loc ∨ new_dir w w' loc.
#[export] Instance kept_preorder : PreOrder kept.
Proof.
  split; [by left|]. intros w1 w2 w3 H1 H2 loc Hl. destruct (H1 loc Hl) as [E1|(Hn & E1 & n & En & Hd)], (H2 loc Hl) as [E2|(Hn2 & E2 & n2 & En2 & Hd2)].
  - left. congruence.
  - right. unfold new_dir. split_and!; [done|congruence|eauto].
  - right. unfold new_dir. split_and!; [done..|]. exists n. split; [congruence|done].
  - congruence.
Qed.
Lemma kept_same w w' : fs w' = fs w → kept w w'.
Proof. intros E loc _. left. by rewrite E. Qed.
Lemma kept_root w w' : kept w w' → no_root (fs w) → no_root (fs w').
Proof. unfold no_root. intros Hk Hr. destruct (Hk [] eq_refl) as [->|[? _]]; done. Qed.
Lemma kept_at w w' loc : staged_loc loc = true → (∀ k, k ≠ loc → fs w' !! k = fs w !! k) → kept w w'.
Proof. intros Hs Hk k Hl. left. apply Hk. intros ->. congruence. Qed.

Definition keeps_os {A} (m : M os A) : Prop := ∀ w, kept w (m w).2.
Lemma keeps_os_lift {A} (r : result A) : keeps_os (lift r).
Proof. by intros w. Qed.
Lemma keeps_os_bind {A B} (m : M os A) (k : A → M os B) : keeps_os m → (∀ a, keeps_os (k a)) → keeps_os (m ≫= k).
Proof. intros Hm Hk w. unfold mbind, M_bind. specialize (Hm w). destruct (m w) as [[a|e] w1]; [|exact Hm]. etrans; [exact Hm|apply Hk]. Qed.
Lemma keeps_os_wrap {A} f (m : M os A) : keeps_os m → keeps_os (wrapM f m).
Proof. intros Hm w. unfold wrapM. specialize (Hm w). by destruct (m w). Qed.
Lemma keeps_os_try {A} (m : M os A) : keeps_os m → keeps_os (try m).
Proof. intros Hm w. unfold try. specialize (Hm w). by destruct (m w). Qed.
Lemma keeps_os_sys {A} (f : os → result (A * filesystem)) :
  (∀ w a m, f w = Ok (a, m) → m = fs w ∨ ∃ loc n, loc ≠ [] ∧ fs w !! loc = None ∧ is_dir n = true ∧ m = <[loc := n]> (fs w)) → keeps_os (sys f).
Proof.
  intros Hf w. unfold sys. destruct (faults w (tick w)) as [[e n]|]; [by apply kept_same|]. destruct (f w) as [[a m]|e] eqn:E; [|by apply kept_same].
  destruct (Hf _ _ _ E) as [->|(loc & n & Hne & Hv & Hd & ->)]; [by apply kept_same|]. intros k _. simpl.
  destruct (decide (k = loc)) as [->|Hk]; [|left; by rewrite lookup_insert_ne]. right. unfold new_dir. cbn. rewrite lookup_insert_eq. eauto.
Qed.
Lemma stat_with_keeps_os b p : keeps_os (stat_with b p).
Proof. apply keeps_os_sys. intros w a m H. inv_ok H. by left. Qed.
Lemma mkdir_keeps_os p perm : keeps_os (mkdir p perm).
Proof.
  apply keeps_os_sys. intros w a m H. inv_ok H. right. bools. exists x, (fresh w x KDir perm). split_and!; try done.
  by apply eq_None_not_Some.
Qed.
Lemma mkdir_all_keeps_os p perm : keeps_os (mkdir_all p perm).
Proof.
  unfold mkdir_all. apply keeps_os_bind; [by intros w|]. intros w. generalize (reverse (comps (abs p w))) as rl. clear. intros rl.
  assert (∀ A (x : result A), keeps_os (λ w, (x, w))) as Hsame by (intros A x w; done).
  induction rl as [|x rl IH]; cbn [mkdir_all_loop].
  - apply keeps_os_bind; [apply keeps_os_try, stat_with_keeps_os|]. intros [n|e]; [destruct (is_dir n)|]; apply Hsame.
  - apply keeps_os_bind; [apply keeps_os_try, stat_with_keeps_os|]. intros [n|e]; [destruct (is_dir n); apply Hsame|].
    apply keeps_os_bind; [by destruct rl; [apply Hsame|]|]. intros u. apply keeps_os_bind; [apply keeps_os_try, mkdir_keeps_os|]. intros [v|e']; [apply Hsame|].
    apply keeps_os_bind; [apply keeps_os_try, stat_with_keeps_os|]. intros [n|e2]; [destruct (is_dir n)|]; apply Hsame.
Qed.
Lemma ensure_keeps_os dir : keeps_os (ensureUploadDir dir).
Proof.
  unfold ensureUploadDir. repeat first [apply mkdir_all_keeps_os|apply stat_with_keeps_os|apply keeps_os_lift|apply keeps_os_wrap|apply keeps_os_bind; [|intros ?]].
Qed.

(** ** A staged file *)
Lemma is_abs_split p : is_abs p = true → p ≠ "" .
Proof. by intros H ->. Qed.
(** The directory that was checked is the one that is used. *)
Lemma ensured_dir dir w u w1 root w2 :
  is_abs dir = true → no_root (fs w) → ensureUploadDir dir w = (Ok u, w1) → eval_symlinks dir w1 = (Ok root, w2) →
  ∃ l, root = abs_path l ∧ Forall normal l ∧ real_dir (fs w2) l ∧ kept w w2.
Proof.
  intros Ha Hr He Hv. pose proof (ensure_keeps_os dir w) as Hk. rewrite He in Hk. simpl in Hk. pose proof (kept_root _ _ Hk Hr) as Hr1.
  unfold ensureUploadDir in He. inv_run He.
  apply sys_run in Hrun0 as (m & Hf & Hw1). inv_ok Hf. apply eval_walk in Hv as (-> & l & -> & Hwalk); [|done].
  pose proof (walk_real_path _ _ _ _ _ Hr1 (Forall_nil_2 _) (real_dir_nil _) (split_byte_free _ _) Hwalk) as [Hn Hp _].
  cbn [fs ticked set_fs] in *. assert (x2 = l) as ->.
  { unfold resolve in Hok. rewrite bool_decide_false, Ha in Hok by by intros ->.
    assert (walk 255 (fs w0) true [] (split_byte slash dir) = Ok x2) as Hw2; [|congruence].
    eapply walk_follow; [|apply split_byte_free|exact Hok|]; [unfold max_links; lia|]. intros n E. rewrite Hok0 in E. by injection E as <-. }
  exists l. split_and!; [done..| |done]. assert (n_kind x0 = KDir) as Hkind by (unfold is_dir in He; by destruct (n_kind x0)).
  destruct l as [|y l _] using rev_ind; [apply real_dir_nil|]. rewrite parent_snoc in Hp. by eapply real_dir_snoc.
Qed.

Lemma sync_open_any loc w r w' : sync_open loc w = (r, w') → fs w' = fs w ∧ cwd w' = cwd w.
Proof. unfold sync_open, sys. destruct (faults w (tick w)) as [[e n]|]; by intros [= <- <-]. Qed.
Lemma copy_any u limit output p w0 w r w' :
  created_file p output [] w0 w → copy_upload u limit output w = (r, w') →
  ∃ c, created_file p output c w0 w' ∧ (∀ data, r = Ok data → c = data).
Proof.
  intros Hcr. unfold copy_upload, mbind, M_bind. destruct (write_open _ _ w) as [[[]|e] w1] eqn:E.
  - pose proof (created_write _ _ _ _ _ _ _ Hcr E) as Hc. intros Hr. exists (take (Z.to_nat limit) (up_content u)).
    destruct (up_error u); [destruct (_ <? _)|]; injection Hr as <- <-; (split; [exact Hc|]); intros data; by intros [= <-].
  - destruct (created_any_write _ _ _ _ _ _ _ _ Hcr E) as [c Hc]. intros [= <- <-]. by exists c.
Qed.
(** The partial file is the only one that changes. *)
Lemma stage_content_run u l name maximum w r w' :
  Forall normal (l ++ [name]) → real_dir (fs w) l → stage_content u (abs_path (l ++ [name])) maximum w = (r, w') →
  (∀ k, k ≠ l ++ [name] → fs w' !! k = fs w !! k) ∧
  ∀ data, r = Ok data → blen data ≤ maximum ∧ ∃ n, fs w' !! (l ++ [name]) = Some n ∧ n_kind n = KReg data.
Proof.
  intros Hn Hd. unfold stage_content. unfold mbind at 1, M_bind at 1, wrapM at 1.
  destruct (open_excl _ _ w) as [[output|e] w1] eqn:Eo; cbn [map_err]; cbv beta iota zeta.
  2:{ apply open_excl_failed in Eo as [Ef _]. intros [= <- <-]. split; [by rewrite Ef|done]. }
  apply open_excl_created in Eo as Hcr. assert (output = l ++ [name]) as ->.
  { destruct Hcr as (Hr & _). rewrite resolve_child in Hr by done. by injection Hr as <-. }
  unfold mbind at 1, M_bind at 1, try at 1. destruct (copy_upload _ _ _ w1) as [copied w2] eqn:Ec. cbv beta iota zeta.
  apply (copy_any _ _ _ _ _ _ _ _ Hcr) in Ec as (c & Hc & Hdata).
  unfold mbind at 1, M_bind at 1, try at 1. destruct (sync_open _ w2) as [synced w3] eqn:Es. apply sync_open_any in Es as [Es Es']. cbv beta iota zeta.
  unfold mbind at 1, M_bind at 1, try at 1. destruct (close_open _ w3) as [closed w4] eqn:El. apply close_open_any in El as [El El']. cbv beta iota zeta.
  pose proof (created_same _ _ _ _ _ w4 Hc ltac:(congruence) ltac:(congruence)) as (_ & _ & _ & Ho & n & Hl & Hk).
  intros Hrun. assert (w' = w4) as ->.
  { unfold mbind, M_bind, lift in Hrun. destruct (fail_if _ _); [|by injection Hrun]. destruct copied; [|by injection Hrun].
    destruct (fail_if _ _); by injection Hrun. }
  split; [exact Ho|]. intros data ->. inv_run Hrun. injection Hrun as ->. specialize (Hdata _ Hrun1). subst c. split; [lia|eauto].
Qed.

(** Names of one component. *)
Lemma safe_name_normal filename : safeArtifactName filename = true → normal filename.
Proof.
  unfold safeArtifactName. intros Hs. bools. constructor; try (intros ->; match goal with H : _ || _ = true |- _ => by vm_compute in H end).
  unfold free_of. apply not_true_iff_false. intros Hc%contains_byte_chars.
  match goal with H : contains_any _ _ = false |- _ => rename H into Hany end. apply not_true_iff_false in Hany. apply Hany.
  unfold contains_any. apply existsb_In. exists slash. split; [done|by vm_compute].
Qed.
Lemma staged_name_normal filename token :
  normal filename → Forall (λ c, token_char c = true) (chars token) → normal (filename +:+ stagedUploadMarker +:+ token).
Proof.
  intros Hf Ht. assert (2 < length (chars (filename +:+ stagedUploadMarker +:+ token)))%nat as Hlen by (rewrite !chars_app, !length_app; simpl; lia).
  constructor; try (intros E; rewrite E in Hlen; simpl in Hlen; lia).
  unfold free_of. apply not_true_iff_false. rewrite contains_byte_chars, !chars_app, !elem_of_app. intros [Hc|[Hc|Hc]].
  - pose proof (normal_free _ Hf) as Hn. unfold free_of in Hn. apply not_true_iff_false in Hn. apply Hn. by apply contains_byte_chars.
  - assert (existsb (is_char slash) (chars stagedUploadMarker) = true) as H; [|by vm_compute in H].
    apply existsb_In. exists slash. split; [exact Hc|by vm_compute].
  - rewrite Forall_forall in Ht. by destruct (token_char_plain _ (Ht _ Hc)) as (_ & _ & ?).
Qed.

(** What a successful staging hands over. *)
Record staged_file (l : location) (filename name : string) (maximum : Z) (a : stagedArtifact) (w : os) : Prop := {
  sf_normal : Forall normal l; sf_file : normal filename; sf_name : normal name; sf_staged : isStagedUploadName name = true;
  sf_dir : real_dir (fs w) l;
  sf_path : sa_path a = abs_path (l ++ [filename]);
  sf_partial : sa_partial a = abs_path (l ++ [name]);
  sf_content : ∃ n content, fs w !! (l ++ [name]) = Some n ∧ n_kind n = KReg content ∧ sa_size a = blen content ∧ sa_checksum a = sha256_hex content;
  sf_size : sa_size a ≤ maximum
}.
Lemma staged_loc_child l name : staged_loc (l ++ [name]) = isStagedUploadName name.
Proof. unfold staged_loc. by rewrite last_snoc. Qed.
Lemma discard_kept l name a w :
  Forall normal (l ++ [name]) → isStagedUploadName name = true → real_dir (fs w) l →
  sa_partial a = abs_path (l ++ [name]) → kept w (discard a w).2.
Proof.
  intros Hn Hs Hd Hp. unfold discard. destruct (empty_str _); [by apply kept_same|]. rewrite Hp. unfold mbind, M_bind, try.
  assert (kept w (remove (abs_path (l ++ [name])) w).2) as Hk; [|by destruct (remove _ w)].
  unfold remove, sys. destruct (faults w (tick w)) as [[e n]|]; [by apply kept_same|]. rewrite resolve_child by done. simpl.
  destruct (of_option _ _) as [n|e]; simpl; [|by apply kept_same]. destruct (fail_if _ _); simpl; [|by apply kept_same].
  apply (kept_at _ _ (l ++ [name])); [by rewrite staged_loc_child|]. intros k Hk. simpl. by rewrite lookup_delete_ne.
Qed.
Lemma real_dir_but m m' l name : real_dir m l → (∀ k, k ≠ l ++ [name] → m' !! k = m !! k) → real_dir m' l.
Proof. intros Hd Hm. eapply real_dir_mono; [exact Hd|]. intros p Hp. apply Hm. by apply not_prefix_child. Qed.

Lemma stage_run directory filename u maximum random w r w' :
  is_abs directory = true → no_root (fs w) → safeArtifactName filename = true → (∀ b, random = Ok b → length b = 16%nat) →
  stageSimpleArtifact directory filename u maximum random w = (r, w') →
  kept w w' ∧ ∀ a, r = Ok a → ∃ l name, staged_file l filename name maximum a w'.
Proof.
  intros Ha Hroot Hs Hrand. unfold stageSimpleArtifact. apply safe_name_normal in Hs. unfold mbind at 1, M_bind at 1.
  pose proof (ensure_keeps_os directory w) as Hk. destruct (ensureUploadDir directory w) as [[v|e] w1] eqn:E1; cbn [snd] in Hk.
  2:{ intros [= <- <-]. done. }
  unfold mbind at 1, M_bind at 1, wrapM at 1. destruct (eval_symlinks directory w1) as [[root|e] w2] eqn:E2; cbn [map_err]; cbv beta iota zeta.
  2:{ intros [= <- <-]. split; [|done]. etrans; [exact Hk|]. apply kept_same. unfold eval_symlinks, sys in E2.
      destruct (faults w1 (tick w1)) as [[t n]|]; [by injection E2 as _ <-|].
      match type of E2 with match ?x with _ => _ end = _ => destruct x as [[? ?]|] eqn:Ex end; [done|by injection E2 as _ <-]. }
  destruct (ensured_dir _ _ _ _ _ _ Ha Hroot E1 E2) as (l & -> & Hl & Hd & Hk2). clear Hk. rewrite path_join_child by done.
  unfold mbind at 1, M_bind at 1, lift at 1. destruct (fail_if _ _) as [[]|e]; cbv beta iota zeta; [|by intros [= <- <-]].
  unfold mbind at 1, M_bind at 1, lift at 1. destruct (map_err _ _) as [token|e] eqn:Et; cbv beta iota zeta; [|by intros [= <- <-]].
  apply map_err_ok in Et. assert (∃ b, length b = 16%nat ∧ token = raw_url_encode b) as (b & Hb & ->).
  { unfold RandomToken in Et. inv_ok Et. exists x0. split; [by apply Hrand|]. done. }
  set (name := filename +:+ stagedUploadMarker +:+ raw_url_encode b).
  assert (abs_path (l ++ [filename]) +:+ stagedUploadMarker +:+ raw_url_encode b = abs_path (l ++ [name])) as ->.
  { rewrite !abs_path_snoc, str_app_assoc. done. }
  pose proof (staged_name filename b (normal_empty _ Hs) Hb) as Hst. fold name in Hst.
  assert (normal name) as Hname by (apply staged_name_normal; [done|apply (decoded_token_chars _ _ (raw_url_roundtrip b))]).
  assert (Forall normal (l ++ [name])) as Hln by (apply Forall_app; split; [done|by constructor]).
  unfold mbind at 1, M_bind at 1, try at 1. destruct (stage_content _ _ _ w2) as [stored w3] eqn:E3. cbv beta iota zeta.
  destruct (stage_content_run _ _ _ _ _ _ _ Hln Hd E3) as [Hother Hdata].
  pose proof (real_dir_but _ _ _ _ Hd Hother) as Hd3. assert (kept w w3) as Hk3.
  { etrans; [exact Hk2|]. apply (kept_at _ _ (l ++ [name])); [by rewrite staged_loc_child|done]. }
  destruct stored as [data|e].
  - intros [= <- <-]. split; [done|]. intros a [= <-]. destruct (Hdata data eq_refl) as (Hle & n & Hn & Hkind). exists l, name.
    constructor; try done. by exists n, data.
  - unfold mbind, M_bind. match goal with |- context [discard ?a w3] => pose proof (discard_kept l name a w3 Hln Hst Hd3 eq_refl) as Hk4 end.
    destruct (discard _ w3) as [[v'|e'] w4]; cbn [snd] in Hk4; intros [= <- <-]; (split; [by etrans|done]).
Qed.

(** ** The package takes its name *)
Lemma syncDirectory_same p w : fs (syncDirectory p w).2 = fs w.
Proof.
  assert (preserves (fsP (eq (fs w))) (syncDirectory p)) as Hp.
  { unfold syncDirectory. apply preserves_bind; [apply open_read_keeps|intros d]. apply preserves_bind.
    - apply preserves_try. apply preserves_state. intros v Hv. unfold sync_open, sys. by destruct (faults v (tick v)) as [[e n]|].
    - intros s. apply preserves_bind; [apply preserves_try, close_open_keeps|]. intros c. destruct s; [apply preserves_lift|apply preserves_throw]. }
  symmetry. exact (proj1 (preserves_state _ _) Hp w eq_refl).
Qed.
(** The complete file in its place, or nothing. *)
Definition placed (l : location) (a : stagedArtifact) (w : os) : Prop :=
  ∃ n content, fs w !! l = Some n ∧ n_kind n = KReg content ∧ sa_size a = blen content ∧ sa_checksum a = sha256_hex content.
Lemma commit_run l filename name maximum a w r w' :
  staged_file l filename name maximum a w → commit_staged a w = (r, w') →
  ∃ a' err, r = Ok (a', err) ∧ sa_path a' = sa_path a ∧ sa_size a' = sa_size a ∧ sa_checksum a' = sa_checksum a ∧
  (a' = a ∧ is_Some err ∧ fs w' = fs w ∨
   sa_partial a' = "" ∧ (∀ k, k ≠ l ++ [name] → k ≠ l ++ [filename] → fs w' !! k = fs w !! k) ∧ placed (l ++ [filename]) a w').
Proof.
  intros [Hl Hf Hn Hst Hd Hpath Hpart (n & content & Hnode & Hkind & Hsize & Hsum) Hmax]. unfold commit_staged. unfold mbind at 1, M_bind at 1, try at 1.
  assert (Forall normal (l ++ [filename]) ∧ Forall normal (l ++ [name])) as [Hlf Hln] by (split; apply Forall_app; (split; [done|by constructor])).
  destruct (rename _ _ w) as [[[]|e] w1] eqn:E; cbv beta iota zeta.
  - apply sys_run in E as (m & Hm & ->). rewrite Hpath, Hpart, !resolve_child in Hm by done. simpl in Hm. rewrite Hnode in Hm. simpl in Hm.
    destruct (fail_if _ _); [|done]. injection Hm as <-. unfold mbind, M_bind, try.
    match goal with |- context [syncDirectory ?p ?w1] => pose proof (syncDirectory_same p w1) as Hsync; destruct (syncDirectory p w1) as [s w2] end.
    cbn [snd fs ticked set_fs] in Hsync. intros [= <- <-]. eexists _, _. split; [done|]. do 3 (split; [done|]). right. rewrite Hsync. split; [done|]. split.
    + intros k Hk1 Hk2. by rewrite lookup_insert_ne, lookup_delete_ne.
    + exists n, content. rewrite Hsync, lookup_insert_eq. done.
  - intros [= <- <-]. exists a, (Some (error_new "업로드 파일을 확정할 수 없습니다")). do 4 (split; [done|]). left. split_and!; [done|by eexists|].
    unfold rename, sys in E. destruct (faults w (tick w)) as [[t k]|]; [by injection E as _ <-|].
    match type of E with match ?x with _ => _ end = _ => destruct x as [[? ?]|] end; [done|by injection E as _ <-].
Qed.

(** ** Uploads *)
Section upload.
Context (pg_code : goerr → option string) `{ErrorText}.
(** The package of a run that is new: complete, and what the run says of it. *)
Definition stored_package (id : string) (loc : location) (w w' : api) : Prop :=
  ∃ r n content, sm_runs (tabs (ap_db w)) !! id = None ∧ sm_runs (tabs (ap_db w')) !! id = Some r ∧ ro_path (rn_origin r) = abs_path loc
    ∧ fs (ap_os w') !! loc = Some n ∧ n_kind n = KReg content ∧ ro_size (rn_origin r) = blen content ∧ ro_sha256 (rn_origin r) = sha256_hex content.
(** The handler's reads. *)
Definition undisturbed (w w' : api) : Prop := fs (ap_os w') = fs (ap_os w) ∧ tabs (ap_db w') = tabs (ap_db w).
Definition reads_only {A} (m : M api A) : Prop := ∀ w, undisturbed w (m w).2.
Lemma reads_only_lift {A} (r : result A) : reads_only (lift r).
Proof. by intros w. Qed.
Lemma reads_only_bind {A B} (m : M api A) (k : A → M api B) : reads_only m → (∀ a, reads_only (k a)) → reads_only (m ≫= k).
Proof.
  intros Hm Hk w. unfold mbind, M_bind. specialize (Hm w). destruct (m w) as [[a|e] w1]; [|done]. destruct Hm as [H1 H2], (Hk a w1) as [H3 H4].
  simpl in *. split; congruence.
Qed.
Lemma reads_only_wrap {A} f (m : M api A) : reads_only m → reads_only (wrapM f m).
Proof. intros Hm w. unfold wrapM. specialize (Hm w). by destruct (m w). Qed.
Lemma reads_only_sql {A} (m : M sdb A) : (∀ t n, reads t n m) → reads_only (on_sql m).
Proof.
  intros Hm w. unfold on_sql. destruct (Hm _ _ (ap_db w) eq_refl eq_refl) as [Ht _]. destruct (m (ap_db w)) as [r d]. by split.
Qed.
Lemma reads_only_disk {A} (m : M os A) : (∀ P, preserves (fsP P) m) → reads_only (on_disk m).
Proof.
  intros Hm w. unfold on_disk. pose proof (proj1 (preserves_state _ _) (Hm (eq (fs (ap_os w)))) (ap_os w) eq_refl) as Hf.
  destruct (m (ap_os w)) as [r o]. by split.
Qed.
Lemma read_sql_untouched {A} (f : simple_tables → A) t n : reads t n (read_sql f).
Proof. intros w <- <-. unfold read_sql, pool, query, statement. simpl. by destruct (db_faults w (S (db_tick w))). Qed.
Lemma accept_reads targetID form : reads_only (accept_upload targetID form).
Proof.
  unfold accept_upload, or_reply, refuse_if.
  apply reads_only_bind; [apply reads_only_wrap, reads_only_sql; intros; unfold loadSimpleSettings; apply reads_bind; [apply read_sql_untouched|intros ?; apply reads_lift]|intros cfg].
  apply reads_only_bind; [apply reads_only_wrap, reads_only_sql|intros target].
  { intros t n. unfold resolveSimpleTarget, read_target. destruct (negb _).
    - apply reads_bind; [apply read_sql_untouched|intros ?]. apply reads_bind; [apply reads_lift|by intros ?].
    - apply reads_bind; [apply read_sql_untouched|intros count]. destruct (_ =? _)%nat; [apply reads_throw|]. destruct (_ <? _)%nat; [apply reads_throw|].
      apply reads_bind; [apply read_sql_untouched|intros ?]. apply reads_bind; [apply reads_lift|by intros ?]. }
  repeat first [apply reads_only_lift|apply reads_only_wrap|apply reads_only_disk|apply reads_only_bind; [|intros ?]|by intros ?].
  intros P. unfold validateCommandFields, ValidateCommandPath, ValidateDir.
  repeat (cbv beta; lazymatch goal with
    | |- preserves _ (lift _) => apply preserves_lift
    | |- preserves _ (mret _) => apply preserves_ret
    | |- preserves _ (wrapM _ _) => apply preserves_wrap
    | |- preserves _ (stat _) => apply stat_keeps
    | |- preserves _ (lstat _) => apply lstat_keeps
    | |- preserves _ (_ ≫= _) => apply preserves_bind; [|intros ?]
    | |- preserves _ (if ?b then _ else _) => destruct b
    end).
Qed.

Definition targets_checked (t : simple_tables) : Prop := ∀ k r, sm_targets t !! k = Some r → target_checks (tr_target r) = true.
Lemma resolve_checked targetID d target d' :
  targets_checked (tabs d) → resolveSimpleTarget targetID d = (Ok target, d') → is_abs (tgt_UploadDir target) = true.
Proof.
  intros Ht Hrun.
  assert (∀ f (v : sdb) d', tabs v = tabs d → (∀ kt, f (tabs v) = Some kt → sm_targets (tabs v) !! kt.1 = Some kt.2) →
    read_target f v = (Ok target, d') → is_abs (tgt_UploadDir target) = true) as Hread.
  { intros f v d2 Hv Hf Hr. unfold read_target in Hr. inv_run Hr. injection Hr as <- _. unfold read_sql in Hrun0. unfold pool, query, statement in Hrun0. simpl in Hrun0.
    destruct (db_faults v _); [done|]. injection Hrun0 as Hrun0 _. subst x. specialize (Hf _ Hrun1). rewrite Hv in Hf. specialize (Ht _ _ Hf).
    unfold target_checks in Ht. bools. simpl. unfold is_abs. done. }
  unfold resolveSimpleTarget in Hrun. destruct (negb _).
  - eapply Hread; [reflexivity| |exact Hrun]. intros [k r] Hk. unfold target_at in Hk. apply bind_Some in Hk as (r0 & Hr0 & Hk).
    destruct (live_target r0); [|done]. by injection Hk as <- <-.
  - apply bindM_ok in Hrun as (count & d1 & Hc & Hrun). pose proof (read_sql_untouched (λ t, length (live_targets t)) (tabs d) (now d) d eq_refl eq_refl) as [Hd _].
    rewrite Hc in Hd. simpl in Hd. destruct (_ =? _)%nat; [done|]. destruct (_ <? _)%nat; [done|]. eapply Hread; [exact Hd| |exact Hrun].
    intros [k r] Hk. assert ((k, r) ∈ live_targets (tabs d1)) as Hin by (destruct (live_targets (tabs d1)); [done|injection Hk as ->; set_solver]).
    unfold live_targets in Hin. apply list_elem_of_filter in Hin as [_ Hin]. by apply elem_of_map_to_list in Hin.
Qed.
Lemma accept_ok targetID form w target command file filename w' :
  targets_checked (tabs (ap_db w)) → accept_upload targetID form w = (Ok (target, command, file, filename), w') →
  is_abs (tgt_UploadDir target) = true ∧ safeArtifactName filename = true.
Proof.
  intros Ht Hrun. unfold accept_upload, or_reply, refuse_if in Hrun. inv_run Hrun. injection Hrun as <- <- <- <- _. bools. split; [|done].
  match goal with H : on_sql (resolveSimpleTarget _) ?v = _, G : on_sql loadSimpleSettings w = (Ok _, ?v) |- _ => rename H into Hres; rename G into Hset end.
  unfold on_sql in Hres, Hset. destruct (loadSimpleSettings (ap_db w)) as [s d] eqn:E1. injection Hset as -> <-. simpl in Hres.
  destruct (resolveSimpleTarget targetID d) as [s2 d2] eqn:E2. injection Hres as -> _. eapply resolve_checked; [|exact E2].
  assert (tabs d = tabs (ap_db w)) as ->; [|done].
  assert (reads (tabs (ap_db w)) (now (ap_db w)) loadSimpleSettings) as Hr by (unfold loadSimpleSettings; apply reads_bind; [apply read_sql_untouched|intros ?; apply reads_lift]).
  destruct (Hr (ap_db w) eq_refl eq_refl) as [Hd _]. by rewrite E1 in Hd.
Qed.

Lemma record_run_cases user newid target command filename staged batch w r w' :
  record_run pg_code user newid target command filename staged batch w = (r, w') →
  ap_os w' = ap_os w ∧ ∀ x, r = Ok x →
    ∃ row, sm_runs (tabs (ap_db w)) !! rs_id x = None ∧ sm_runs (tabs (ap_db w')) !! rs_id x = Some row ∧
    ro_path (rn_origin row) = sa_path staged ∧ ro_size (rn_origin row) = sa_size staged ∧ ro_sha256 (rn_origin row) = sa_checksum staged ∧
    rs_path x = sa_path staged ∧ rs_size x = sa_size staged ∧ rs_checksum x = sa_checksum staged ∧ rs_target x = target.
Proof.
  unfold record_run. unfold mbind at 1, M_bind at 1, lift at 1. destruct (map_err _ newid) as [id|e]; cbv beta iota zeta; [|by intros [= <- <-]].
  unfold mbind, M_bind, wrapM, on_sql. destruct (run_sql _ (ap_db w)) as [[[]|e] d] eqn:E; cbn [map_err]; intros [= <- <-]; (split; [done|]); [|done].
  intros x [= <-]. assert (∃ n o, insert_run id o (tabs (ap_db w)) = Ok ((), tabs d) ∧ ro_path o = sa_path staged ∧ ro_size o = sa_size staged ∧ ro_sha256 o = sa_checksum staged ∧ n = now d)
    as (n & o & Hi & Hp & Hs & Hc & _).
  { unfold run_sql, pool, checked in E. simpl in E. destruct (db_faults _ _); [done|].
    destruct (insert_run _ _ _) as [[[] t]|e] eqn:Ei; simpl in E; [|done]. injection E as <-. eexists _, _. split; [exact Ei|]. done. }
  unfold insert_run in Hi. destruct (_ || busy _ _) eqn:Hb; [done|]. destruct (_ || _ || _ || _ || _); [done|]. injection Hi as Hi. bools. cbn [ap_db]. rewrite <- Hi.
  eexists. split; [by apply eq_None_not_Some|]. simpl. rewrite lookup_insert_eq. split; [done|]. simpl. done.
Qed.

(** What an upload may do to the directories. *)
Definition upload_effect (w w' : api) : Prop := ∀ loc, staged_loc loc = false →
  fs (ap_os w') !! loc = fs (ap_os w) !! loc ∨ new_dir (ap_os w) (ap_os w') loc ∨ ∃ id, stored_package id loc w w'.
Lemma effect_kept w w' : kept (ap_os w) (ap_os w') → upload_effect w w'.
Proof. intros Hk loc Hl. destruct (Hk loc Hl); auto. Qed.
Lemma effect_placed id row l filename name staged w v w' :
  kept (ap_os w) (ap_os v) → isStagedUploadName name = true →
  (∀ k, k ≠ l ++ [name] → k ≠ l ++ [filename] → fs (ap_os w') !! k = fs (ap_os v) !! k) → placed (l ++ [filename]) staged (ap_os w') →
  sm_runs (tabs (ap_db w)) !! id = None → sm_runs (tabs (ap_db w')) !! id = Some row →
  ro_path (rn_origin row) = abs_path (l ++ [filename]) → ro_size (rn_origin row) = sa_size staged → ro_sha256 (rn_origin row) = sa_checksum staged →
  upload_effect w w' ∧ stored_package id (l ++ [filename]) w w'.
Proof.
  intros Hk Hst Ho (n & content & Hn & Hkind & Hsize & Hsum) Hnew Hrow Hp Hs Hc.
  assert (stored_package id (l ++ [filename]) w w') as Hsp by (exists row, n, content; split_and!; [done..|congruence|congruence]).
  split; [|done]. intros loc Hl. destruct (decide (loc = l ++ [filename])) as [->|Hne]; [by right; right; exists id|].
  assert (loc ≠ l ++ [name]) as Hne2 by (intros ->; rewrite staged_loc_child in Hl; congruence).
  destruct (Hk loc Hl) as [E|(? & E & m & Em & Hd)]; rewrite <- (Ho loc Hne2 Hne) in *; [by left|]. right; left. unfold new_dir. eauto.
Qed.

(** The end of a refused upload. *)
Lemma refused {A} l name a (v : api) e (r : result A) w' :
  Forall normal (l ++ [name]) → isStagedUploadName name = true → real_dir (fs (ap_os v)) l →
  sa_partial a = "" ∨ sa_partial a = abs_path (l ++ [name]) →
  (_ ← on_disk (discard a); _ ← releaseSimpleRun; throw e) v = (r, w') →
  r = Err e ∧ kept (ap_os v) (ap_os w') ∧ ap_db w' = ap_db v ∧ (sa_partial a = "" → ap_os w' = ap_os v).
Proof.
  intros Hn Hst Hd Hp. unfold mbind, M_bind, on_disk, releaseSimpleRun, throw.
  assert (kept (ap_os v) (discard a (ap_os v)).2 ∧ (sa_partial a = "" → (discard a (ap_os v)).2 = ap_os v) ∧ ∃ u, (discard a (ap_os v)).1 = Ok u) as (Hk & Hz & u & Hu).
  { split_and!.
    - destruct Hp as [Hp|Hp]; [unfold discard; rewrite Hp; by apply kept_same|by eapply discard_kept].
    - intros E. unfold discard. by rewrite E.
    - unfold discard. destruct (empty_str _); [by eexists|]. unfold mbind, M_bind, try. destruct (remove _ _). by eexists. }
  destruct (discard a (ap_os v)) as [x o]. simpl in *. subst x. cbn [ap_active]. destruct (0 <? ap_active v); by intros [= <- <-].
Qed.

Lemma fail_row id reason (d : sdb) :
  ∃ d', failSimpleRun id reason d = (Ok (), d') ∧
  ∀ row, sm_runs (tabs d) !! id = Some row → ∃ row', sm_runs (tabs d') !! id = Some row' ∧ rn_origin row' = rn_origin row.
Proof.
  unfold failSimpleRun, mbind, M_bind, try. cbv beta. destruct (run_sql _ d) as [u d'] eqn:Ef. exists d'. split; [done|]. intros row Hrow.
  unfold run_sql, pool, checked in Ef. simpl in Ef. destruct (db_faults _ _); [injection Ef as _ <-; by exists row|].
  unfold update_run in Ef. rewrite Hrow in Ef. destruct (negb _); [injection Ef as _ <-; by exists row|].
  destruct (run_finished _); injection Ef as _ <-; [by exists row|]. simpl. rewrite lookup_insert_eq. by eexists.
Qed.
(** The run's row after the package took its name, or did not. *)
Lemma publish_run_cases l filename name maximum x staged w r w' :
  staged_file l filename name maximum staged (ap_os w) → publish_run x staged w = (r, w') →
  ∃ staged' pub, r = Ok (staged', pub) ∧
  (∀ row, sm_runs (tabs (ap_db w)) !! rs_id x = Some row → ∃ row', sm_runs (tabs (ap_db w')) !! rs_id x = Some row' ∧ rn_origin row' = rn_origin row) ∧
  ((∃ e, pub = Err e) ∧ staged' = staged ∧ fs (ap_os w') = fs (ap_os w) ∨
   sa_partial staged' = "" ∧ (∀ k, k ≠ l ++ [name] → k ≠ l ++ [filename] → fs (ap_os w') !! k = fs (ap_os w) !! k) ∧ placed (l ++ [filename]) staged (ap_os w')).
Proof.
  intros Hsf. unfold publish_run. unfold mbind at 1, M_bind at 1, on_disk at 1. destruct (commit_staged staged (ap_os w)) as [rc o] eqn:Ec.
  destruct (commit_run _ _ _ _ _ _ _ _ Hsf Ec) as (a' & err & -> & _ & _ & _ & Hcases). cbv beta iota zeta.
  destruct err as [e|].
  - unfold mbind, M_bind, on_sql. cbn [ap_db ap_os ap_active]. destruct (fail_row (rs_id x) (error_text e) (ap_db w)) as (d & -> & Hrow).
    intros [= <- <-]. exists a', (Err (writeError 500 "upload_failed" (error_text e))). split; [done|]. split; [exact Hrow|].
    destruct Hcases as [(-> & _ & Hf)|(Hz & Ho & Hp)]; [left|right; done]. split; [by eexists|done].
  - intros [= <- <-]. exists a', (Ok ()). split; [done|]. split; [intros row Hrow; by exists row|]. right.
    destruct Hcases as [(_ & [? ?] & _)|Hcases]; [done|exact Hcases].
Qed.

(** The answer, once the package took its name or did not. *)
Lemma publish_ends user (x : run_start) l filename name staged staged' (pub : result ()) row w v v' (r : result run_start) w' :
  Forall normal (l ++ [name]) → isStagedUploadName name = true → real_dir (fs (ap_os v)) l → kept (ap_os w) (ap_os v) →
  sa_partial staged = abs_path (l ++ [name]) →
  ((∃ e, pub = Err e) ∧ staged' = staged ∧ fs (ap_os v') = fs (ap_os v) ∨
   sa_partial staged' = "" ∧ (∀ k, k ≠ l ++ [name] → k ≠ l ++ [filename] → fs (ap_os v') !! k = fs (ap_os v) !! k) ∧ placed (l ++ [filename]) staged (ap_os v')) →
  sm_runs (tabs (ap_db w)) !! rs_id x = None → sm_runs (tabs (ap_db v')) !! rs_id x = Some row →
  ro_path (rn_origin row) = abs_path (l ++ [filename]) → ro_size (rn_origin row) = sa_size staged → ro_sha256 (rn_origin row) = sa_checksum staged →
  match pub with
  | Err e => _ ← on_disk (discard staged'); _ ← releaseSimpleRun; throw e
  | Ok _ => _ ← on_sql (audit user "simple_run.create" "simple_run" (rs_id x) "success"); mret x
  end v' = (r, w') →
  upload_effect w w' ∧ ∀ x', r = Ok x' → x' = x ∧ stored_package (rs_id x) (l ++ [filename]) w w' ∧ placed (l ++ [filename]) staged (ap_os w').
Proof.
  intros Hln Hst Hdir Hk Hpart Hcases Hnew Hrow Hp Hs Hc Hrun. destruct pub as [u|e].
  - destruct Hcases as [[[e He] _]|(_ & Ho & Hpl)]; [done|].
    assert (∃ d, on_sql (audit user "simple_run.create" "simple_run" (rs_id x) "success") v' = (Ok (), Api d (ap_os v') (ap_active v'))
              ∧ sm_runs (tabs d) = sm_runs (tabs (ap_db v'))) as (d & Hau & Hruns).
    { unfold on_sql, audit, mbind, M_bind, try, pool, statement. simpl. destruct (db_faults _ _); by eexists. }
    unfold mbind, M_bind in Hrun. rewrite Hau in Hrun. injection Hrun as <- <-.
    destruct (effect_placed (rs_id x) row l filename name staged w v (Api d (ap_os v') (ap_active v')) Hk Hst Ho Hpl Hnew) as [He Hsp]; [|done..|].
    { cbn [ap_db]. by rewrite Hruns. }
    split; [exact He|]. by intros x' [= <-].
  - assert (real_dir (fs (ap_os v')) l ∧ (sa_partial staged' = "" ∨ sa_partial staged' = abs_path (l ++ [name]))) as [Hd5 Hp5].
    { destruct Hcases as [(_ & -> & Hf)|(Hz & Ho & _)]; [rewrite Hf; auto|]. split; [|by left].
      eapply real_dir_mono; [exact Hdir|]. intros p Hpre. apply Ho; by apply not_prefix_child. }
    destruct (refused l name staged' v' e r w' Hln Hst Hd5 Hp5 Hrun) as (-> & Hk5 & Hdb & Hz5). split; [|done].
    destruct Hcases as [(_ & _ & Hf)|(Hz & Ho & Hpl)].
    + apply effect_kept. etrans; [exact Hk|]. etrans; [by apply kept_same|exact Hk5].
    + rewrite <- (Hz5 Hz) in Ho, Hpl. rewrite <- Hdb in Hrow.
      by apply (effect_placed (rs_id x) row l filename name staged w v w' Hk Hst Ho Hpl Hnew Hrow).
Qed.

(** C6: a package is replaced whole or not at all.  Whatever an upload does - accepted, refused or cut short by errors of disk or database -
    every file in the directories (a package, a link, an operator's own file) is as before, except staged files, new directories, and a
    package that a run of this very upload has recorded: its file is complete, with the size and the SHA-256 of the record.
    An accepted upload has stored such a package for its run, within the size limit of the target. *)
Theorem package_replaced_whole user targetID newid random form w r w' :
  no_root (fs (ap_os w)) → targets_checked (tabs (ap_db w)) → (∀ b, random = Ok b → length b = 16%nat) →
  createSimpleRun pg_code user targetID newid random form w = (r, w') →
  upload_effect w w' ∧
  ∀ x, r = Ok x → ∃ loc, rs_path x = abs_path loc ∧ stored_package (rs_id x) loc w w' ∧
    rs_size x ≤ tgt_MaxUploadBytes (rs_target x) ∧
    ∃ n content, fs (ap_os w') !! loc = Some n ∧ n_kind n = KReg content ∧ rs_size x = blen content ∧ rs_checksum x = sha256_hex content.
Proof.
  intros Hroot Ht Hrand Hrun. unfold createSimpleRun in Hrun. unfold mbind at 1, M_bind at 1 in Hrun.
  pose proof (accept_reads targetID form w) as [Hf1 Hd1]. destruct (accept_upload targetID form w) as [[[[[target command] [[file fields] parts]] filename]|e] w1] eqn:Ea; cbn [snd] in Hf1, Hd1.
  2:{ injection Hrun as <- <-. split; [|done]. apply effect_kept, kept_same. done. }
  destruct (accept_ok _ _ _ _ _ _ _ _ Ht Ea) as [Habs Hsafe]. clear Ea. cbv beta iota zeta in Hrun. rewrite <- Hf1 in Hroot.
  unfold mbind at 1, M_bind at 1 in Hrun. destruct (acquireSimpleRun w1) as [[acq|e0] w2] eqn:Eq.
  2:{ unfold acquireSimpleRun in Eq. by destruct (_ <=? _). }
  assert (ap_os w2 = ap_os w1 ∧ ap_db w2 = ap_db w1) as [Ho2 Hd2] by (unfold acquireSimpleRun in Eq; destruct (_ <=? _); by injection Eq as _ <-).
  unfold mbind at 1, M_bind at 1 in Hrun. unfold refuse_if, lift at 1 in Hrun. destruct acq; cbn [negb fail_if] in Hrun.
  2:{ injection Hrun as <- <-. split; [|done]. apply effect_kept, kept_same. congruence. }
  unfold mbind at 1, M_bind at 1, try at 1, on_disk at 1 in Hrun. rewrite <- Ho2 in Hroot.
  destruct (stageSimpleArtifact _ _ _ _ _ (ap_os w2)) as [stg o3] eqn:Es. destruct (stage_run _ _ _ _ _ _ _ _ Habs Hroot Hsafe Hrand Es) as [Hk3 Hok3].
  cbv beta iota zeta in Hrun. assert (kept (ap_os w) o3) as Hk by (etrans; [|exact Hk3]; apply kept_same; by rewrite Ho2). clear Hk3 Hroot.
  destruct stg as [staged|e].
  2:{ unfold mbind, M_bind, releaseSimpleRun, throw in Hrun. destruct (0 <? _); injection Hrun as <- <-; (split; [by apply effect_kept|done]). }
  destruct (Hok3 staged eq_refl) as (l & name & Hsf). clear Hok3. pose proof Hsf as [Hl Hfn Hnm Hst Hdir Hpath Hpart _ Hmax].
  assert (Forall normal (l ++ [name])) as Hln by (apply Forall_app; split; [done|by constructor]).
  unfold mbind at 1, M_bind at 1, try at 1 in Hrun. set (w3 := Api (ap_db w2) o3 (ap_active w2)) in *.
  destruct (record_run _ _ _ _ _ _ _ _ w3) as [rec w4] eqn:Er. destruct (record_run_cases _ _ _ _ _ _ _ _ _ _ Er) as [Ho4 Hrec]. cbv beta iota zeta in Hrun.
  assert (ap_os w4 = o3) as Ho4' by exact Ho4. clear Ho4.
  destruct rec as [x|e].
  2:{ destruct (refused l name staged w4 e r w' Hln Hst ltac:(by rewrite Ho4') ltac:(by right) Hrun) as (-> & Hk4 & _). split; [|done].
      apply effect_kept. rewrite Ho4' in Hk4. by etrans. }
  destruct (Hrec x eq_refl) as (row & Hnew & Hrow & Hp & Hs & Hc & Hxp & Hxs & Hxc & Hxt). clear Hrec Er.
  change (ap_db w3) with (ap_db w2) in Hnew. rewrite Hd2, Hd1 in Hnew.
  unfold mbind at 1, M_bind at 1 in Hrun. destruct (publish_run x staged w4) as [pr w5] eqn:Ep.
  rewrite <- Ho4' in Hsf. destruct (publish_run_cases _ _ _ _ _ _ _ _ _ Hsf Ep) as (staged' & pub & -> & Hkeep & Hcases). cbv beta iota zeta in Hrun.
  destruct (Hkeep row Hrow) as (row5 & Hrow5 & Horig). rewrite <- Horig in Hp, Hs, Hc.
  rewrite <- Ho4' in Hdir, Hk.
  destruct (publish_ends user x l filename name staged staged' pub row5 w w4 w5 r w' Hln Hst Hdir Hk Hpart Hcases Hnew Hrow5) as [He Hok]; [congruence..|exact Hrun|].
  split; [exact He|]. intros x' Hx'. destruct (Hok x' Hx') as (-> & Hsp & n & content & Hn & Hkd & Hsz & Hsm). exists (l ++ [filename]).
  rewrite Hxt, Hxs. split_and!; [congruence|done|done|]. exists n, content. rewrite Hxc. done.
Qed.
End upload.

(** ** Start-up removes staged files only *)
Lemma walk_last k m cur todo x loc :
  normal x → Forall (free_of slash) todo → walk k m false cur (todo ++ [x]) = Ok loc → ∃ c, loc = c ++ [x].
Proof.
  intros Hx. revert cur todo. induction k as [k IHk] using lt_wf_ind. intros cur todo Htodo. revert cur.
  induction Htodo as [|y todo Hy Htodo IH]; intros cur.
  - rewrite app_nil_l, walk_normal by done. destruct (m !! (cur ++ [x])) as [n|]; [destruct (n_kind n)|]; simpl; rewrite ?walk_nil; by intros [= <-]; exists cur.
  - rewrite <- app_comm_cons. destruct (decide (y = "" ∨ y = ".")) as [Hskip|Hskip]; [rewrite walk_skip by done; apply IH|].
    destruct (decide (y = "..")) as [->|Hdot]; [rewrite walk_dotdot; apply IH|].
    assert (normal y) as Hn by (constructor; naive_solver). rewrite walk_normal by done.
    assert (bool_decide (todo ++ [x] = []) = false) as -> by (apply bool_decide_eq_false; by destruct todo).
    destruct (m !! (cur ++ [y])) as [n|]; [|done]. destruct (n_kind n); [done|apply IH| |done]. simpl.
    destruct k as [|k]; [done|]. rewrite (assoc_L (++)). apply IHk; [lia|]. apply Forall_app. split; [apply split_byte_free|done].
Qed.
Lemma staged_not_dots name : isStagedUploadName name = true → (2 < length (chars name))%nat.
Proof.
  unfold isStagedUploadName. fold marker. destruct (last_cut marker (chars name)) as [[a t]|] eqn:E; [|done]. apply last_cut_parts in E.
  intros _. rewrite E, !length_app. simpl. lia.
Qed.
(** The names in the tree are names. *)
Definition named (m : filesystem) : Prop := ∀ loc n, m !! loc = Some n → Forall (free_of slash) loc.
Definition unstaged_same (w w' : os) : Prop :=
  (∀ loc, staged_loc loc = false → fs w' !! loc = fs w !! loc) ∧ (∀ loc, fs w !! loc = None → fs w' !! loc = None).
#[local] Instance unstaged_same_preorder : PreOrder unstaged_same.
Proof.
  split; [done|]. intros w1 w2 w3 [H1 H1'] [H2 H2']. split; [|auto]. intros loc Hl. by rewrite H2, H1.
Qed.
Lemma same_fs w w' : fs w' = fs w → unstaged_same w w'.
Proof. intros E. split; intros loc; by rewrite E. Qed.
Lemma path_join_abs_dir dir name : is_abs dir = true → normal name → ∃ c, Forall normal c ∧ path_join [dir; name] = abs_path (c ++ [name]).
Proof.
  intros Hd Hn. destruct (clean_comps_shape true (split_byte slash dir)) as (k & l & Hl & Hnl & Hk); [apply split_byte_free|].
  rewrite (Hk eq_refl) in Hl. simpl in Hl. exists l. split; [done|]. unfold path_join. rewrite bool_decide_false by (by intros ->).
  change (join sep [dir; name]) with (dir +:+ String slash name). unfold clean. rewrite bool_decide_false by (by destruct dir).
  assert (is_abs (dir +:+ String slash name) = true) as ->.
  { apply has_prefix_spec in Hd as [t ->]. apply has_prefix_spec. rewrite str_app_assoc. by eexists. }
  f_equal. unfold clean_comps in *. rewrite split_byte_cat, (split_byte_single slash name) by apply Hn. rewrite foldl_app. simpl.
  rewrite clean_step_normal by done. by rewrite reverse_cons, Hl.
Qed.
Lemma remove_staged_name dir name w : is_abs dir = true → free_of slash name → isStagedUploadName name = true → unstaged_same w (remove (path_join [dir; name]) w).2.
Proof.
  intros Hd Hf Hs. pose proof (staged_not_dots _ Hs) as Hlen. assert (normal name) as Hn by (constructor; [intros ->; simpl in Hlen; lia..|done]).
  unfold remove, sys. destruct (faults w (tick w)) as [[e n]|]; [by apply same_fs|].
  destruct (resolve false (path_join [dir; name]) w) as [loc|e] eqn:Hr; simpl; [|by apply same_fs].
  assert (∃ c, loc = c ++ [name]) as [c ->].
  { destruct (path_join_abs_dir dir name Hd Hn) as (c & Hc & E). rewrite E in Hr.
    assert (Forall normal (c ++ [name])) as Hcn by (apply Forall_app; split; [done|by constructor]). rewrite resolve_abs in Hr by done.
    eapply walk_last; [exact Hn| |exact Hr]. by apply normal_free_all. }
  destruct (of_option _ _) as [n|e]; simpl; [|by apply same_fs]. destruct (fail_if _ _); simpl; [|by apply same_fs].
  split; intros k Hk; simpl.
  - rewrite lookup_delete_ne; [done|]. intros <-. rewrite staged_loc_child in Hk. congruence.
  - apply lookup_delete_None. by right.
Qed.
Lemma remove_staged_same dir items w :
  is_abs dir = true → Forall (λ x : string * node, free_of slash x.1) items → unstaged_same w (remove_staged dir items w).2.
Proof.
  intros Hd Hi. revert w. induction Hi as [|[name n] items Hn Hi IH]; intros w; [by apply same_fs|]. cbn [remove_staged].
  destruct (negb (is_regular n) || negb (isStagedUploadName name)) eqn:Hs; [apply IH|]. apply orb_false_iff in Hs as [_ Hs%negb_false_iff].
  pose proof (remove_staged_name dir name w Hd Hn Hs) as Hr. unfold mbind, M_bind, try.
  destruct (remove _ w) as [r w1]. cbn [snd] in Hr. specialize (IH w1). destruct (remove_staged dir items w1) as [[k|e] w2]; cbn [snd] in IH; by etrans.
Qed.
Lemma unstaged_named w w' : unstaged_same w w' → named (fs w) → named (fs w').
Proof.
  intros [_ Hn] Hm loc n Hloc. destruct (fs w !! loc) as [n0|] eqn:E; [by eapply Hm|]. by rewrite (Hn loc E) in Hloc.
Qed.
Lemma entries_named p w items w' : named (fs w) → read_dir_entries p w = (Ok items, w') → Forall (λ x : string * node, free_of slash x.1) items.
Proof.
  intros Hm Hrun. apply sys_run in Hrun as (m & Hf & _). inv_ok Hf. destruct (is_dir _); [|done]. injection Hf as <- _.
  apply Forall_forall. intros [z n] (y & _ & Hy)%list_elem_of_omap. apply bind_Some in Hy as (n0 & Hn0 & [= <- <-]).
  apply Hm, Forall_app in Hn0 as [_ Hx]. by rewrite Forall_singleton in Hx.
Qed.
Lemma removeStaged_same dirs w : Forall (λ d, is_abs d = true) dirs → named (fs w) → unstaged_same w (removeStagedUploads dirs w).2.
Proof.
  intros Hd. revert w. induction Hd as [|d dirs Hd _ IH]; intros w Hm; [by apply same_fs|]. cbn [removeStagedUploads]. unfold mbind, M_bind, try.
  assert (fs (read_dir_entries d w).2 = fs w) as Hf by (symmetry; exact (proj1 (preserves_state _ _) (read_dir_entries_keeps d (eq (fs w))) w eq_refl)).
  pose proof (entries_named d w) as Hent. destruct (read_dir_entries d w) as [ritems w1] eqn:E. cbn [snd] in Hf.
  assert (∃ n w2, match ritems with Ok items => remove_staged d items | Err _ => mret 0 end w1 = (n, w2) ∧ unstaged_same w w2) as (n & w2 & -> & H2).
  { destruct ritems as [items|e]; [|exists (Ok 0), w1; split; [done|by apply same_fs]].
    pose proof (remove_staged_same d items w1 Hd (Hent _ _ Hm eq_refl)) as Hr. destruct (remove_staged d items w1) as [n w2]. exists n, w2. split; [done|].
    etrans; [by apply same_fs|exact Hr]. }
  destruct n as [n|e]; [|exact H2]. specialize (IH w2 (unstaged_named _ _ H2 Hm)). destruct (removeStagedUploads dirs w2) as [[k|e] w3]; cbn [snd] in IH |- *; by etrans.
Qed.

(** Staged uploads are told apart from everything else.  No file that an upload may be named after has the shape of a staged one, every staged
    upload has it, and the clean-up at the start of a process removes files of that shape only: packages, links, directories and the
    operator's other files stay as they are. *)
Lemma staged_uploads_told_apart name filename random token w r w' :
  safeArtifactName name = true → filename ≠ "" → (∀ b, random = Ok b → length b = 16%nat) → RandomToken stagedUploadBytes random = Ok token →
  targets_checked (tabs (ap_db w)) → named (fs (ap_os w)) → RemoveStagedSimpleUploads w = (r, w') →
  isStagedUploadName name = false ∧ isStagedUploadName (filename +:+ stagedUploadMarker +:+ token) = true ∧
  ∀ loc, staged_loc loc = false → fs (ap_os w') !! loc = fs (ap_os w) !! loc.
Proof.
  intros Hs Hf Hr Ht Hch Hm Hrun. split; [by apply package_not_staged|]. split.
  { unfold RandomToken in Ht. inv_ok Ht. apply staged_name; [done|by apply Hr]. }
  assert (unstaged_same (ap_os w) (ap_os w')) as [H _]; [|exact H]. unfold RemoveStagedSimpleUploads in Hrun.
  unfold mbind at 1, M_bind at 1, try, on_sql in Hrun.
  match type of Hrun with context [read_sql ?f] => set (dirs := f) in *; destruct (read_sql dirs (ap_db w)) as [[ds|e] d] eqn:E end.
  2:{ injection Hrun as _ <-. by apply same_fs. }
  assert (ds = dirs (tabs (ap_db w))) as ->.
  { unfold read_sql, pool, query, statement in E. simpl in E. destruct (db_faults _ _); [done|]. by injection E as <- _. }
  assert (Forall (λ d, is_abs d = true) (dirs (tabs (ap_db w)))) as Hd.
  { apply Forall_forall. intros x Hx. subst dirs. cbv beta in Hx. rewrite elem_of_remove_dups in Hx. apply list_elem_of_fmap in Hx as ([k t] & -> & Hk).
    apply elem_of_map_to_list in Hk. specialize (Hch _ _ Hk). unfold target_checks in Hch. bools. simpl. unfold is_abs. done. }
  pose proof (removeStaged_same _ (ap_os w) Hd Hm) as Hs'. unfold mbind, M_bind, on_disk in Hrun. cbn [ap_os] in Hrun.
  destruct (removeStagedUploads _ (ap_os w)) as [[k|e] o]; injection Hrun as _ <-; exact Hs'.
Qed.

(** ** Names and directories of simple mode (theorems about SimpleLog.v and SimpleConfig.v)

    The header of a log download holds nothing a name could break; upload
    directories stay below their root. *)

(** ** Sanitized names *)
Definition plain_rune (r : Z) : Prop := ∃ c, encode_rune r = [c] ∧ unreserved c = true.
Definition rune_ok (r : Z) : bool := match encode_rune r with [c] => unreserved c | _ => false end.
Lemma rune_ok_plain r : rune_ok r = true → plain_rune r.
Proof. unfold rune_ok. destruct (encode_rune r) as [|c [|? ?]] eqn:E; [done| |done]. intros H. by exists c. Qed.
Lemma safe_rune_plain r : safe_rune false r = true → plain_rune r.
Proof.
  intros Hr. assert (0 ≤ r < Z.of_nat 256) as Hb by (unfold safe_rune in Hr; lia).
  pose proof (all_below (λ r, negb (safe_rune false r) || rune_ok r) 256 ltac:(by vm_compute) r Hb) as H. cbv beta in H. rewrite Hr in H.
  by apply rune_ok_plain.
Qed.
Lemma dash_plain : plain_rune 45.
Proof. apply rune_ok_plain. by vm_compute. Qed.
Lemma sanitize_plain limit rs out : Forall plain_rune out → Forall plain_rune (sanitize false limit rs out).
Proof.
  revert out. induction rs as [|r rs IH]; intros out Ho; cbn [sanitize]; [by apply Forall_reverse|]. cbv zeta.
  destruct (_ && _); [by apply IH|]. assert (Forall plain_rune ((if negb (safe_rune false r) then 45 else r) :: out)) as H.
  { constructor; [|done]. destruct (safe_rune false r) eqn:E; [by apply safe_rune_plain|apply dash_plain]. }
  destruct (_ <=? _); [by apply Forall_reverse|by apply IH].
Qed.
Lemma encoded_plain rs : Forall plain_rune rs → Forall (λ c, unreserved c = true) (concat (encode_rune <$> rs)).
Proof. induction 1 as [|r rs (c & Hc & Hu) _ IH]; [constructor|]. cbn [fmap list_fmap concat]. rewrite Hc. simpl. by constructor. Qed.
Lemma drop_while_Forall {A} (P : A → Prop) p l : Forall P l → Forall P (drop_while p l).
Proof. induction 1 as [|x l Hx Hl IH]; simpl; [constructor|]. destruct (p x); [done|by constructor]. Qed.
Lemma trim_Forall (P : ascii → Prop) set s : Forall P (chars s) → Forall P (chars (trim set s)).
Proof.
  intros H. unfold trim, trim_right, trim_left, drop_while_end. rewrite !chars_of_chars.
  apply Forall_reverse, drop_while_Forall, Forall_reverse, drop_while_Forall, H.
Qed.
Lemma segment_plain value limit : Forall (λ c, unreserved c = true) (chars (sanitizeNameSegment value limit false)).
Proof. unfold sanitizeNameSegment. apply trim_Forall. rewrite chars_of_chars. by apply encoded_plain, sanitize_plain. Qed.
Lemma join_plain parts : Forall (λ s, Forall (λ c, unreserved c = true) (chars s)) parts → Forall (λ c, unreserved c = true) (chars (join "-" parts)).
Proof.
  induction 1 as [|x parts Hx Hp IH]; [constructor|]. destruct parts as [|y parts]; [done|]. cbn [join]. rewrite !chars_app, !Forall_app. split; [done|].
  split; [by repeat constructor|]. exact IH.
Qed.
Lemma download_name_plain filename status runID : Forall (λ c, unreserved c = true) (chars (runLogDownloadName filename status runID false)).
Proof.
  unfold runLogDownloadName. cbv zeta. rewrite chars_app. apply Forall_app. split; [|by repeat constructor]. apply join_plain.
  assert (∀ s : string, Forall (λ c, unreserved c = true) (chars s) → Forall (λ s, Forall (λ c, unreserved c = true) (chars s)) (if empty_str s then [] else [s])) as Hopt
    by (intros s Hs; destruct (empty_str s); by repeat constructor).
  apply Forall_app; split; [apply Forall_cons; split; [by repeat constructor|]|].
  - apply Forall_app; split; apply Hopt, segment_plain.
  - constructor; [|constructor]. destruct (empty_str _); [by repeat constructor|apply segment_plain].
Qed.

(** ** Percent encoding *)
Definition hex_pair (a b : ascii) : option ascii := x ← hex_value a; y ← hex_value b; Some (zbyte (16 * x + y)).
(** RFC 8187's decoding. *)
Fixpoint percent_decode (l : list ascii) : option (list ascii) :=
  match l with
  | [] => Some []
  | c :: l =>
      if is_char "%"%char c then
        match l with a :: b :: l => x ← hex_pair a b; r ← percent_decode l; Some (x :: r) | _ => None end
      else r ← percent_decode l; Some (c :: r)
  end.
Definition pair_ok (c : ascii) : bool := bool_decide (match upper_hex c with [a; b] => hex_pair a b | _ => None end = Some c).
Definition header_char (c : ascii) : bool := unreserved c || is_char "%"%char c.
Definition hex_safe (c : ascii) : bool := forallb header_char (upper_hex c).
Lemma percent_roundtrip s : percent_decode (chars (encodeExtendedHeaderValue s)) = Some (chars s).
Proof.
  unfold encodeExtendedHeaderValue. rewrite chars_of_chars. induction (chars s) as [|c l IH]; [done|]. cbn [fmap list_fmap concat].
  destruct (unreserved c) eqn:Hu.
  - cbn [app percent_decode]. assert (is_char "%"%char c = false) as ->; [|by rewrite IH].
    unfold is_char. apply bool_decide_eq_false. by intros <-.
  - assert (pair_ok c = true) as Hp by (apply all_chars; by vm_compute). unfold pair_ok in Hp.
    apply bool_decide_eq_true in Hp. unfold upper_hex in *. cbn [fmap list_fmap app percent_decode] in *. rewrite Hp. simpl. by rewrite IH.
Qed.
Lemma encoded_header s : Forall (λ c, header_char c = true) (chars (encodeExtendedHeaderValue s)).
Proof.
  unfold encodeExtendedHeaderValue. rewrite chars_of_chars. induction (chars s) as [|c l IH]; [constructor|]. cbn [fmap list_fmap concat].
  apply Forall_app. split; [|done]. destruct (unreserved c) eqn:Hu; [constructor; [unfold header_char; by rewrite Hu|constructor]|].
  assert (hex_safe c = true) as Hs by (apply all_chars; by vm_compute). unfold hex_safe in Hs. rewrite forallb_Forall in Hs.
  constructor; [by vm_compute|exact Hs].
Qed.

(** The header of a log download cannot be broken by a name.  Whatever the file, the status and the run are called, the header is its fixed parts around
    a plain name of letters, digits and [._-] and an extended name of these and percent escapes: no quote, separator, control or line break of
    the names reaches it, and decoding the extended name gives exactly the readable one. *)
Lemma log_download_header_safe filename status runID :
  ∃ plain extended,
    runLogDisposition filename status runID = "attachment; filename=" +:+ quoted plain +:+ "; filename*=UTF-8''" +:+ extended ∧
    Forall (λ c, unreserved c = true) (chars plain) ∧ Forall (λ c, header_char c = true) (chars extended) ∧
    percent_decode (chars extended) = Some (chars (runLogDownloadName filename status runID true)).
Proof. eexists _, _. split; [reflexivity|]. split_and!; [apply download_name_plain|apply encoded_header|apply percent_roundtrip]. Qed.

(** ** Upload directories *)
Definition data_root : list string := ["var"; "lib"; "releasedock"].
Lemma managed_root : managedDataRoot = abs_path data_root.
Proof. done. Qed.
Lemma data_root_normal : Forall normal data_root.
Proof. repeat constructor; by vm_compute. Qed.
Lemma confined base l dir t r :
  base = abs_path l → Forall normal l → dir = abs_path t → Forall normal t → rel base dir = Ok r → escapes r = false → ∃ k, t = l ++ k.
Proof. intros -> Hl -> Ht Hr He. destruct (not_escaping_prefix l t r Hl Ht Hr He) as [k ->]. by exists k. Qed.
Lemma clean_checked value e u : fail_if (negb (is_abs (clean value)) || bool_decide (clean value = sep)) e = Ok u → ∃ t, clean value = abs_path t ∧ Forall normal t.
Proof.
  intros H%fail_if_ok. bools. destruct (GoPath.clean_abs (clean value) ltac:(done)) as (t & E & Ht). exists t. by rewrite clean_idemp in E.
Qed.
Lemma root_below raw root : normalizeUploadRoot raw = Ok root → ∃ r, r ≠ [] ∧ Forall normal (data_root ++ r) ∧ root = abs_path (data_root ++ r).
Proof.
  unfold normalizeUploadRoot. intros H. apply bind_ok in H as (u & Hc & H). apply clean_checked in Hc as (t & Et & Ht). rewrite Et in H. inv_ok H. bools.
  destruct (confined _ _ _ _ _ managed_root data_root_normal eq_refl Ht ltac:(eassumption) ltac:(eassumption)) as [r ->]. exists r.
  split_and!; [|done|done]. intros ->. match goal with H : rel _ _ = Ok ?x, N : ?x ≠ "." |- _ => apply N; rewrite managed_root, rel_child in H; [by injection H as <-|apply data_root_normal|constructor] end.
Qed.
Lemma dir_below root l value dir :
  normalizeUploadDir root value = Ok dir → root = abs_path l → Forall normal l → ∃ d, Forall normal (l ++ d) ∧ dir = abs_path (l ++ d).
Proof.
  intros H Hroot Hl. unfold normalizeUploadDir in H. apply bind_ok in H as (u & Hc & H). apply clean_checked in Hc as (t & Et & Ht). rewrite Et in H. inv_ok H. bools.
  match goal with Hrel : rel _ _ = Ok _ |- _ => rewrite clean_abs_path in Hrel by done; destruct (confined _ _ _ _ _ eq_refl Hl eq_refl Ht Hrel ltac:(eassumption)) as [d ->] end.
  by exists d.
Qed.

(** C33: what is deployed stays in the managed data.  The upload root that an administrator may set lies strictly below /var/lib/releasedock, the
    directory of a target below that root, and the package below that directory, whatever [..], slashes or spaces are typed. *)
Theorem uploads_confined raw root value dir filename :
  normalizeUploadRoot raw = Ok root → normalizeUploadDir root value = Ok dir → safeArtifactName filename = true →
  ∃ r d, r ≠ [] ∧ Forall normal (data_root ++ r ++ d ++ [filename]) ∧ root = abs_path (data_root ++ r) ∧ dir = abs_path (data_root ++ r ++ d) ∧
    path_join [dir; filename] = abs_path (data_root ++ r ++ d ++ [filename]).
Proof.
  intros (r & Hr & Hrn & ->)%root_below Hd Hf%safe_name_normal. destruct (dir_below _ _ _ _ Hd eq_refl Hrn) as (d & Hdn & ->).
  rewrite <- app_assoc in Hdn |- *. exists r, d. rewrite path_join_child by done. rewrite <- !app_assoc. split_and!; [done| |done..].
  rewrite !app_assoc. apply Forall_app. split; [by rewrite <- !app_assoc|by constructor].
Qed.
Lemma uploads_confined_witness : ∃ r d, r ≠ [] ∧ Forall normal (data_root ++ r ++ d ++ ["app-1.0.tar"]) ∧ "/var/lib/releasedock/up" = abs_path (data_root ++ r) ∧
  "/var/lib/releasedock/up/shop" = abs_path (data_root ++ r ++ d) ∧ path_join ["/var/lib/releasedock/up/shop"; "app-1.0.tar"] = abs_path (data_root ++ r ++ d ++ ["app-1.0.tar"]).
Proof. apply (uploads_confined " /var/lib/releasedock/x/../up/ " _ "/var/lib/releasedock/up//./shop" _ "app-1.0.tar"); vm_compute; reflexivity. Defined.
