(* ===== verification/SimpleDemo.v ===== *)
(** * An evaluated upload and its run

    One target with a shared command, a replication rule and an application to deploy: the
    witnesses of the theorems on simple mode. *)
From S2P Require Import Prelude GoIO GoString GoPath OS Files Command LocalExec Encoding Sha256 Model Db Store Backend Releases Artifacts Crypto Vault SimpleConfig SimpleStore SimpleLog Simple SimpleRun SimpleFrame SimpleProofs SimpleSystem SimpleUpload.

Module simple_demo.
#[local] Instance text : ErrorText := λ e, "error".
Definition text_of (d : Z) : string := pretty d +:+ "ns".

(** A process that prints two lines and takes a second. *)
Definition printing (spec : lx_Spec exec) (environment : list string) (w : exec) : (process_end * Z) * exec :=
  ((Finished, second), (lx_Stdout spec (to_bytes "one" ++ [LF] ++ to_bytes "two") w).2).
#[export] Instance printing_lawful : LawfulProcess printing.
Proof. constructor. intros spec environment I _ Hout _ w Hw. simpl. by apply Hout. Qed.

(** Harbor starts execution 7, which has succeeded when it is asked for the second time. *)
Definition harbor_answer (n : nat) (q : harbor_request) : Z * result harbor_response :=
  (second, Ok (if bool_decide (hq_method q = "POST")
               then {| hp_status := 201; hp_location := "/api/v2.0/replication/executions/7"; hp_body := [] |}
               else {| hp_status := 200; hp_location := ""; hp_body := to_bytes (if (n <? 2)%nat then "InProgress" else "Succeed") |})).
Definition execution_of (body : bytes) : result replicationExecution :=
  Ok {| re_Status := of_chars body; re_Total := 1; re_Succeed := 1; re_Failed := 0; re_StatusTx := "" |}.
Definition url_of (s : string) : result (string * string) := Ok ("https", "harbor.local").
Definition the_vault : Vault := {| vault_aead := toy_aead |}.
Definition sealed : string :=
  match VaultEncrypt the_vault (Ok (to_bytes "ab")) "secret" (registryAAD "reg-1" 1) with Ok e => e | Err _ => "" end.

Definition dir_node : node := {| n_kind := KDir; n_uid := 0; n_gid := 0; n_perm := 493; n_setgid := false; n_sticky := false |}.
Definition file_node (b : bytes) : node := {| n_kind := KReg b; n_uid := 0; n_gid := 0; n_perm := 493; n_setgid := false; n_sticky := false |}.
Definition disk : os := {|
  fs := <[["up"] := dir_node]> (<[["bin"] := dir_node]> (<[["bin"; "deploy"] := file_node []]> (<[["up"; "shop.tar"] := file_node (to_bytes "old")]> ∅)));
  cwd := []; euid := 0; egid := 0; umask := 18; faults := λ _, None; tick := 0 |}.
Definition settings : simpleSettings := {|
  cfg_DefaultUIMode := "SIMPLE"; cfg_CommandMode := commandModeShared; cfg_SharedPath := "/bin/deploy"; cfg_SharedArgs := [artifactPlaceholder];
  cfg_SharedDir := ""; cfg_SharedTimeout := 60; cfg_UploadRoot := "/up";
  cfg_ReplicationEnabled := true; cfg_ReplicationRegistry := "reg-1"; cfg_ReplicationPolicyID := 3; cfg_ReplicationPolicy := "prod";
  cfg_ReplicationTimeout := 60; cfg_ReplicationScope := stageScopeOnce;
  cfg_AppDeployEnabled := true; cfg_AppDeployScope := stageScopeEach; cfg_AppDeployPath := "/bin/deploy"; cfg_AppDeployArgs := [];
  cfg_AppDeployDir := ""; cfg_AppDeployTimeout := 60 |}.
Definition target : simpleTarget := {|
  tgt_ID := ""; tgt_Name := "shop"; tgt_Description := ""; tgt_UploadDir := "/up"; tgt_CommandPath := ""; tgt_CommandArgs := []; tgt_WorkingDir := "";
  tgt_TimeoutSeconds := 60; tgt_MaxUploadBytes := 1048576; tgt_Active := true |}.
Definition tables : simple_tables := SimpleTables (Some settings) {[ "t-1" := {| tr_target := target; tr_revoked := false |} ]} ∅ [] 1
  {[ "reg-1" := {| rg_name := "harbor"; rg_endpoint := "https://harbor.local"; rg_username := "robot"; rg_insecure := false; rg_version := 1;
                   rg_ciphertext := sealed; rg_usable := true |} ]} [].
Definition world : exec := Exec (Api (DB tables 1000 (λ _, None) 0 false) disk 0) (Logger "" newLogBudget ∅) 0 0.
Definition form : result form_stream := Ok {|
  fo_parts := [{| pt_form := "artifact"; pt_file := "shop.tar"; pt_body := {| up_name := ""; up_media := ""; up_content := to_bytes "new"; up_error := None |} |};
               {| pt_form := "batchId"; pt_file := ""; pt_body := {| up_name := ""; up_media := ""; up_content := to_bytes "b-1"; up_error := None |} |}];
  fo_end := Sentinel EOF |}.
Definition random : result bytes := Ok (to_bytes "0123456789abcdef").
Definition upload_run := createSimpleRun (λ _, None) "ann" "" (Ok "run-1") random form (ex_api world).
Definition execute := executeSimpleRun text_of url_of harbor_answer (λ _, Some ("robot", "pw")) (λ _, None) execution_of the_vault printing map_to_list
  (λ m, (map_to_list m).*1).
Definition started : run_start :=
  match upload_run.1 with Ok x => x | Err _ => {| rs_id := ""; rs_command := {| cmd_Source := ""; cmd_Path := ""; cmd_Args := []; cmd_Dir := ""; cmd_Timeout := 0 |};
    rs_args := []; rs_path := ""; rs_size := 0; rs_filename := ""; rs_checksum := ""; rs_target := target; rs_actor := ""; rs_batch := {| bt_ID := ""; bt_Last := false |} |} end.
Definition accepted : exec := set_api upload_run.2 world.

Example uploaded : (rs_id started, rs_path started, rs_size started, bt_ID (rs_batch started)) = ("run-1", "/up/shop.tar", 3, "b-1")
  ∧ (n_kind <$> fs (ap_os upload_run.2) !! ["up"; "shop.tar"]) = Some (KReg (to_bytes "new")) ∧ ap_active upload_run.2 = 1.
Proof. split_and!; vm_compute; reflexivity. Qed.
Example ran : (rn_status <$> sm_runs (tabs (ap_db (ex_api (execute started accepted).2))) !! "run-1") = Some "SUCCESS".
Proof. vm_compute. reflexivity. Qed.

(** ** The witnesses *)
Lemma checked_targets : targets_checked tables.
Proof. intros k r Hr. unfold tables in Hr. cbn [sm_targets] in Hr. apply lookup_singleton_Some in Hr as [_ <-]. vm_compute. reflexivity. Qed.
Lemma run_log_bounded_witness : bounded_log "run-1" (tabs (ap_db (ex_api (execute started accepted).2))).
Proof. apply (run_log_bounded _ _ _ _ _ _ _ _ _ _ started accepted); [vm_compute; reflexivity|]. intros r Hr. vm_compute in Hr. by injection Hr as <-. Defined.
Lemma replication_ends_witness :
  ∃ s w', runReplication text_of url_of harbor_answer (λ _, Some ("robot", "pw")) (λ _, None) execution_of the_vault settings accepted = (Ok (Some s), w')
    ∧ stage_end s.1.1.
Proof.
  destruct (replication_ends text_of url_of harbor_answer (λ _, Some ("robot", "pw")) (λ _, None) execution_of the_vault second settings accepted)
    as (s & w' & Hrun & Hend & _); [vm_compute; discriminate|intros n q; unfold harbor_answer; cbn [fst]; reflexivity|]. exists s, w'. split; [exact Hrun|exact Hend].
Defined.
Lemma simple_system_invariant_witness :
  ∃ s', single (tabs (ap_db (ex_api (sy_world s')))) ∧ ap_active (ex_api (sy_world s')) = 0 ∧ size (sm_runs (tabs (ap_db (ex_api (sy_world s'))))) = 1%nat.
Proof.
  set (final := (run_goroutine text_of url_of harbor_answer (λ _, Some ("robot", "pw")) (λ _, None) execution_of the_vault printing map_to_list
    (λ m, (map_to_list m).*1) started accepted).2).
  exists (System final []). split_and!; [|vm_compute; reflexivity|vm_compute; reflexivity].
  refine (proj1 (proj2 (simple_system_invariant (λ _, None) text_of url_of harbor_answer (λ _, Some ("robot", "pw")) (λ _, None) execution_of the_vault printing
    map_to_list (λ m, (map_to_list m).*1) (System world []) (System final []) _ eq_refl eq_refl _))).
  - intros k1 k2 r1 r2 H1. vm_compute in H1. discriminate H1.
  - apply (rtc_l _ _ (System accepted ([] ++ [started]))); [|exact (rtc_once _ _ (run_step _ _ _ _ _ _ _ _ _ _ _ accepted [] started []))].
    apply accepted_step with (user := "ann") (target := "") (newid := Ok "run-1") (random := random) (form := form). vm_compute. reflexivity.
Defined.
Lemma package_replaced_whole_witness :
  ∃ x loc, upload_run.1 = Ok x ∧ rs_path x = abs_path loc ∧ stored_package (rs_id x) loc (ex_api world) upload_run.2.
Proof.
  destruct upload_run as [[x|e] w'] eqn:Hrun; [|vm_compute in Hrun; discriminate Hrun].
  destruct (package_replaced_whole (λ _, None) "ann" "" (Ok "run-1") random form (ex_api world) (Ok x) w') as [_ Hok]; [vm_compute; reflexivity|exact checked_targets| |exact Hrun|].
  - intros b Hb. injection Hb as <-. vm_compute. reflexivity.
  - destruct (Hok x eq_refl) as (loc & Hloc & Hsp & _). exists x, loc. split; [reflexivity|split; [exact Hloc|exact Hsp]].
Defined.
Definition littered : exec := set_api (Api (ap_db (ex_api world))
  (set_fs (<[["up"; "shop.tar.partial-AAAAAAAAAAAAAAAAAAAAAA"] := file_node []]> (fs disk)) disk) 0) world.
End simple_demo.
