(* ===== verification/Accounts.v ===== *)
(** * Accounts of the backend (backend/internal/store/store.go, server/auth.go)

    Users, roles, permissions, sessions and API keys: the tables with their
    constraints (migration 001), each SQL statement as its effect on them, and
    the principal of a request.  Preferences, names of browsers and the columns
    created_at and updated_at are left out. *)
From S2P Require Import Prelude GoIO GoString OS Encoding Sha256 Model Db Store Backend Crypto Vault.

(** ** Rows *)
Record user_row := UserRow {
  us_username : string; us_hash : option string; us_display : string; us_email : string; us_source : string; us_subject : option string;
  us_active : bool
}.
Record role_row := RoleRow { rl_name : string; rl_description : string; rl_system : bool }.
Record session_row := { se_user : string; se_csrf : bytes; se_expires : Z }.
Record key_row := KeyRow {
  ak_user : string; ak_name : string; ak_prefix : string; ak_secret : bytes; ak_scopes : list string; ak_expires : option Z; ak_revoked : bool
}.
(** A login that was sent to the identity provider. *)
Record login_row := {
  li_nonce : string; li_verifier : string; li_return : string; li_redirect : string; li_silent : bool; li_expires : Z
}.
(* src: backend/internal/server/oidc.go:28-43 oidcSettings *)
Record oidcSettings := {
  oi_Enabled : bool; oi_Issuer : string; oi_ClientID : string; oi_ClientSecretEnc : string; oi_RedirectURL : string; oi_Scopes : list string;
  oi_AutoCreateUser : bool; oi_AllowInsecure : bool; oi_AutoLogin : bool; oi_DefaultRoleID : option string
}.

(** [network_settings] and the columns of [app_settings] that sign-in reads. *)
Record network_row := { nw_enabled : bool; nw_allowlist : list string; nw_proxies : list string }.
Record public_row := { pu_url : string; pu_secure : bool; pu_origins : list string }.

(** [ac_grants]: which role has which permission; [ac_members]: which user has
    which role. *)
Record accounts := Accounts {
  ac_users : gmap string user_row; ac_roles : gmap string role_row; ac_codes : gset string; ac_grants : gset (string * string);
  ac_members : gset (string * string); ac_sessions : gmap bytes session_row; ac_keys : gmap string key_row;
  ac_logins : gmap bytes login_row; ac_oidc : option oidcSettings; ac_network : option network_row; ac_public : option public_row;
  ac_audits : list audit_row
}.
Abbreviation adb := (dbase accounts).
Definition set_users f (t : accounts) := Accounts (f (ac_users t)) (ac_roles t) (ac_codes t) (ac_grants t) (ac_members t) (ac_sessions t) (ac_keys t) (ac_logins t) (ac_oidc t) (ac_network t) (ac_public t) (ac_audits t).
Definition set_roles f (t : accounts) := Accounts (ac_users t) (f (ac_roles t)) (ac_codes t) (ac_grants t) (ac_members t) (ac_sessions t) (ac_keys t) (ac_logins t) (ac_oidc t) (ac_network t) (ac_public t) (ac_audits t).
Definition set_grants f (t : accounts) := Accounts (ac_users t) (ac_roles t) (ac_codes t) (f (ac_grants t)) (ac_members t) (ac_sessions t) (ac_keys t) (ac_logins t) (ac_oidc t) (ac_network t) (ac_public t) (ac_audits t).
Definition set_members f (t : accounts) := Accounts (ac_users t) (ac_roles t) (ac_codes t) (ac_grants t) (f (ac_members t)) (ac_sessions t) (ac_keys t) (ac_logins t) (ac_oidc t) (ac_network t) (ac_public t) (ac_audits t).
Definition set_sessions f (t : accounts) := Accounts (ac_users t) (ac_roles t) (ac_codes t) (ac_grants t) (ac_members t) (f (ac_sessions t)) (ac_keys t) (ac_logins t) (ac_oidc t) (ac_network t) (ac_public t) (ac_audits t).
Definition set_keys f (t : accounts) := Accounts (ac_users t) (ac_roles t) (ac_codes t) (ac_grants t) (ac_members t) (ac_sessions t) (f (ac_keys t)) (ac_logins t) (ac_oidc t) (ac_network t) (ac_public t) (ac_audits t).
Definition set_logins f (t : accounts) := Accounts (ac_users t) (ac_roles t) (ac_codes t) (ac_grants t) (ac_members t) (ac_sessions t) (ac_keys t) (f (ac_logins t)) (ac_oidc t) (ac_network t) (ac_public t) (ac_audits t).
Definition set_oidc f (t : accounts) := Accounts (ac_users t) (ac_roles t) (ac_codes t) (ac_grants t) (ac_members t) (ac_sessions t) (ac_keys t) (ac_logins t) (f (ac_oidc t)) (ac_network t) (ac_public t) (ac_audits t).
Definition set_network f (t : accounts) := Accounts (ac_users t) (ac_roles t) (ac_codes t) (ac_grants t) (ac_members t) (ac_sessions t) (ac_keys t) (ac_logins t) (ac_oidc t) (f (ac_network t)) (ac_public t) (ac_audits t).
Definition log_audit x (t : accounts) := Accounts (ac_users t) (ac_roles t) (ac_codes t) (ac_grants t) (ac_members t) (ac_sessions t) (ac_keys t) (ac_logins t) (ac_oidc t) (ac_network t) (ac_public t) (ac_audits t ++ [x]).

(** ** Constraints *)
Definition duplicate_key : goerr := External "duplicate key value violates unique constraint (SQLSTATE 23505)".
Definition foreign_key : goerr := External "insert or update violates foreign key constraint (SQLSTATE 23503)".
(** [UNIQUE (username)] and [UNIQUE (oidc_subject)], for the users other than [id]. *)
Definition user_taken (id : string) (u : user_row) (t : accounts) : bool :=
  existsb (λ ku : string * user_row, negb (bool_decide (ku.1 = id)) &&
      (bool_decide (us_username ku.2 = us_username u) || bool_decide (is_Some (us_subject u) ∧ us_subject ku.2 = us_subject u))) (map_to_list (ac_users t)).
Definition insert_user (id : string) (u : user_row) (t : accounts) : result (unit * accounts) :=
  if bool_decide (is_Some (ac_users t !! id)) || user_taken id u t then Err duplicate_key else Ok ((), set_users (<[id := u]>) t).
(** [UPDATE users ... WHERE id=$1 AND cond]: whether a row matched. *)
Definition update_user (id : string) (cond : user_row → bool) (f : user_row → user_row) (t : accounts) : result (bool * accounts) :=
  match ac_users t !! id with
  | Some u => if negb (cond u) then Ok (false, t) else if user_taken id (f u) t then Err duplicate_key else Ok (true, set_users (<[id := f u]>) t)
  | None => Ok (false, t)
  end.
Definition role_taken (id name : string) (t : accounts) : bool :=
  existsb (λ kr : string * role_row, negb (bool_decide (kr.1 = id)) && bool_decide (rl_name kr.2 = name)) (map_to_list (ac_roles t)).
Definition insert_role (id : string) (r : role_row) (t : accounts) : result (unit * accounts) :=
  if bool_decide (is_Some (ac_roles t !! id)) || role_taken id (rl_name r) t then Err duplicate_key else Ok ((), set_roles (<[id := r]>) t).
Definition update_role (id : string) (cond : role_row → bool) (f : role_row → role_row) (t : accounts) : result (bool * accounts) :=
  match ac_roles t !! id with
  | Some r => if negb (cond r) then Ok (false, t) else if role_taken id (rl_name (f r)) t then Err duplicate_key else Ok (true, set_roles (<[id := f r]>) t)
  | None => Ok (false, t)
  end.
(** The grants and memberships of a deleted role go with it, and it is no
    default role any more. *)
Definition clear_default (id : string) (c : oidcSettings) : oidcSettings := {|
  oi_Enabled := oi_Enabled c; oi_Issuer := oi_Issuer c; oi_ClientID := oi_ClientID c; oi_ClientSecretEnc := oi_ClientSecretEnc c;
  oi_RedirectURL := oi_RedirectURL c; oi_Scopes := oi_Scopes c; oi_AutoCreateUser := oi_AutoCreateUser c;
  oi_AllowInsecure := oi_AllowInsecure c; oi_AutoLogin := oi_AutoLogin c;
  oi_DefaultRoleID := if bool_decide (oi_DefaultRoleID c = Some id) then None else oi_DefaultRoleID c |}.
Definition drop_role (id : string) (t : accounts) : accounts :=
  set_oidc (fmap (clear_default id)) (set_members (filter (λ m, m.2 ≠ id)) (set_grants (filter (λ g, g.1 ≠ id)) (set_roles (delete id) t))).
(** [DELETE FROM roles WHERE id=$1 AND system=FALSE]: whether a row matched. *)
Definition delete_role (id : string) (t : accounts) : bool * accounts :=
  match ac_roles t !! id with Some r => if rl_system r then (false, t) else (true, drop_role id t) | None => (false, t) end.
Definition insert_grant (role code : string) (t : accounts) : result (unit * accounts) :=
  if bool_decide ((role, code) ∈ ac_grants t) then Err duplicate_key else
  if bool_decide (ac_roles t !! role = None ∨ code ∉ ac_codes t) then Err foreign_key else Ok ((), set_grants (λ g, {[ (role, code) ]} ∪ g) t).
(** [INSERT ... SELECT $1,code FROM permissions WHERE code=$2]: whether a row was inserted. *)
Definition select_grant (role code : string) (t : accounts) : result (bool * accounts) :=
  if bool_decide (code ∈ ac_codes t) then '(_, t) ← insert_grant role code t; Ok (true, t) else Ok (false, t).
Definition delete_grants (role : string) : accounts → accounts := set_grants (filter (λ g, g.1 ≠ role)).
Definition insert_member (user role : string) (t : accounts) : result (unit * accounts) :=
  if bool_decide ((user, role) ∈ ac_members t) then Err duplicate_key else
  if bool_decide (ac_users t !! user = None ∨ ac_roles t !! role = None) then Err foreign_key else Ok ((), set_members (λ m, {[ (user, role) ]} ∪ m) t).
Definition delete_members (user : string) : accounts → accounts := set_members (filter (λ m, m.1 ≠ user)).

(** ** What the queries compute *)
Definition protected_role : string := "role-admin".
Definition role_codes (role : string) (t : accounts) : gset string := set_map snd (filter (λ g : string * string, g.1 = role) (ac_grants t)).
Definition user_codes (user : string) (t : accounts) : gset string :=
  set_map snd (filter (λ g : string * string, (user, g.1) ∈ ac_members t) (ac_grants t)).
Definition user_roles (user : string) (t : accounts) : gset string := set_map snd (filter (λ m : string * string, m.1 = user) (ac_members t)).
Definition is_admin (user : string) (t : accounts) : bool := bool_decide ((user, protected_role) ∈ ac_members t).
Definition active_user (user : string) (t : accounts) : bool := match ac_users t !! user with Some u => us_active u | None => false end.
(** Aggregates in the order of their texts. *)
Definition in_order (s : gset string) : list string := merge_sort string_le (elements s).

(** ** Statements *)
Definition sql {A} (f : accounts → result (A * accounts)) : M adb A := checked (λ _, f).
Definition sql_read {A} (f : accounts → A) : M adb A := query (λ _, f).
Definition sql_row {A} (f : accounts → option A) : M adb A := row ← sql_read f; lift (of_option (Sentinel ErrNoRows) row).
Definition sql_do (f : accounts → accounts) : M adb unit := statement (λ _ t, ((), f t)).
(** The errors of [Audit] are ignored. *)
Definition audit_account (actor action resourceType resource outcome : string) : M adb unit :=
  _ ← try (pool (sql_do (log_audit {| au_actor := null_if_empty actor; au_action := action; au_type := resourceType; au_resource := resource; au_outcome := outcome |})));
  mret ().
Definition fail_with (status : Z) (code message : string) : goerr → goerr := λ _, writeError status code message.
Definition deny_if (cond : bool) (status : Z) (code message : string) : M adb unit := lift (fail_if cond (writeError status code message)).

(** ** Principals *)
(* src: backend/internal/store/store.go:140-151 Principal *)
Record Principal := {
  pr_UserID : string; pr_Username : string; pr_DisplayName : string; pr_Email : string; pr_AuthSource : string; pr_Roles : list string;
  pr_Permissions : list string; pr_Scopes : list string; pr_ViaAPIKey : bool; pr_CSRFHash : bytes
}.
(* src: backend/internal/store/store.go:153-167 (Principal).Has *)
Definition Has (p : Principal) (permission : string) : bool :=
  existsb (λ granted, bool_decide (granted = permission)
             && (negb (pr_ViaAPIKey p) || existsb (λ scope, bool_decide (scope = permission) || bool_decide (scope = "*")) (pr_Scopes p)))
          (pr_Permissions p).
Definition role_label (id : string) (r : role_row) : string :=
  if bool_decide (id = "role-admin") then "admin" else if bool_decide (id = "role-operator") then "operator"
  else if bool_decide (id = "role-viewer") then "viewer" else rl_name r.
Definition role_labels (user : string) (t : accounts) : list string :=
  merge_sort string_le (omap (λ id, role_label id <$> ac_roles t !! id) (elements (user_roles user t))).
(* src: backend/internal/store/store.go:169-204 (Store).principal *)
Definition principal (userID : string) : M adb Principal :=
  u ← pool (sql_row (λ t, u ← ac_users t !! userID; if us_active u then Some u else None));
  permissions ← pool (sql_read (λ t, in_order (user_codes userID t)));
  roles ← pool (sql_read (role_labels userID));
  mret {| pr_UserID := userID; pr_Username := us_username u; pr_DisplayName := us_display u; pr_Email := us_email u; pr_AuthSource := us_source u;
          pr_Roles := roles; pr_Permissions := permissions; pr_Scopes := []; pr_ViaAPIKey := false; pr_CSRFHash := [] |}.

(** ** Credentials *)
(** [RETURNING user_id,csrf_hash] of a live session. *)
Definition live_session (hash : bytes) (n : Z) (t : accounts) : option session_row :=
  s ← ac_sessions t !! hash; if n <? se_expires s then Some s else None.
(* src: backend/internal/store/store.go:206-223 (Store).AuthenticateSession *)
Definition AuthenticateSession (token : string) : M adb Principal :=
  row ← pool (query (live_session (TokenHash token)));
  s ← lift (of_option (Sentinel ErrNoRows) row);
  p ← principal (se_user s);
  mret {| pr_UserID := pr_UserID p; pr_Username := pr_Username p; pr_DisplayName := pr_DisplayName p; pr_Email := pr_Email p;
          pr_AuthSource := pr_AuthSource p; pr_Roles := pr_Roles p; pr_Permissions := pr_Permissions p; pr_Scopes := pr_Scopes p;
          pr_ViaAPIKey := pr_ViaAPIKey p; pr_CSRFHash := se_csrf s |}.
Definition live_key (n : Z) (k : key_row) : bool := negb (ak_revoked k) && match ak_expires k with Some e => n <? e | None => true end.
(** The hash is unique. *)
Definition key_with_secret (hash : bytes) (n : Z) (t : accounts) : option key_row :=
  snd <$> head (filter (λ kk : string * key_row, ak_secret kk.2 = hash ∧ live_key n kk.2 = true) (map_to_list (ac_keys t))).
(* src: backend/internal/store/store.go:225-246 (Store).AuthenticateAPIKey *)
Definition AuthenticateAPIKey (token : string) : M adb Principal :=
  if negb (has_prefix token "rdk_") || (slen token <? 24) then throw (Sentinel ErrNoRows) else
  row ← pool (query (key_with_secret (TokenHash token)));
  k ← lift (of_option (Sentinel ErrNoRows) row);
  p ← principal (ak_user k);
  mret {| pr_UserID := pr_UserID p; pr_Username := pr_Username p; pr_DisplayName := pr_DisplayName p; pr_Email := pr_Email p;
          pr_AuthSource := pr_AuthSource p; pr_Roles := pr_Roles p; pr_Permissions := pr_Permissions p; pr_Scopes := ak_scopes k;
          pr_ViaAPIKey := true; pr_CSRFHash := pr_CSRFHash p |}.
(* src: backend/internal/store/store.go:136-138 NormalizeUsername *)
Definition NormalizeUsername (username : string) : string := to_lower (trim_space username).
