(* ===== verification/Rbac.v ===== *)
(** * Administration of users and roles (backend/internal/server/rbac_policy.go, admin.go, admin_compat.go)

    Who may hand out what: the checks of delegation and the handlers that change
    roles, permissions and users, each in one transaction under the advisory
    lock.  A handler is given the principal that authenticated the request. *)
From S2P Require Import Prelude GoIO GoString OS Encoding Sha256 Model Db Store Backend Crypto Vault Accounts.

(** ** The policy *)
Definition errDelegationEscalation : goerr := error_new "requested role or permission exceeds the actor's authority".
Definition errTargetAuthority : goerr := error_new "the target currently has authority that exceeds the actor's authority".
Definition errProtectedAdminOnly : goerr := error_new "only an existing protected Administrator may delegate Administrator".
Definition errLastActiveAdmin : goerr := error_new "the last active Administrator cannot be removed or deactivated".
Definition errProtectedAdminRole : goerr := error_new "the protected Administrator role cannot be modified".

(* src: backend/internal/server/oidc.go:560-567 contains *)
Definition contains (values : list string) (value : string) : bool := bool_decide (value ∈ values).
(* src: backend/internal/server/rbac_policy.go:19-30 permissionSubset *)
Definition permissionSubset (granted requested : list string) : bool := forallb (contains granted) requested.
(** [pg_advisory_xact_lock]: transactions of one kind are serialised. *)
(* src: backend/internal/server/rbac_policy.go:32-35 lockAdminDelegation *)
Definition lockAdminDelegation : M adb unit := sql_read (λ _, ()).
(* src: backend/internal/server/rbac_policy.go:54-67 attenuateDelegatedAuthority *)
Definition attenuateDelegatedAuthority (permissions : list string) (protectedAdmin : bool) (p : Principal) (matchesActor : bool) : list string * bool :=
  if negb matchesActor || negb (pr_ViaAPIKey p) then (permissions, protectedAdmin)
  else (filter (λ permission, Has p permission = true) permissions, false).

Section policy.
(** The principal of the context. *)
Context (p : Principal).

Definition authority_row (actor : string) (t : accounts) : option (list string * bool) :=
  if active_user actor t then Some (in_order (user_codes actor t), is_admin actor t) else None.
(* src: backend/internal/server/rbac_policy.go:37-52 actorAuthority *)
Definition actorAuthority (actorID : string) : M adb (list string * bool) :=
  '(permissions, protectedAdmin) ← sql_row (authority_row actorID);
  mret (attenuateDelegatedAuthority permissions protectedAdmin p (bool_decide (pr_UserID p = actorID))).

Definition known_codes (requested : list string) (t : accounts) : nat := length (filter (λ code, code ∈ requested) (elements (ac_codes t))).
(* src: backend/internal/server/rbac_policy.go:69-85 validateDelegatedPermissions *)
Definition validateDelegatedPermissions (actorID : string) (requested : list string) : M adb unit :=
  '(actorPermissions, _) ← actorAuthority actorID;
  _ ← lift (fail_if (negb (permissionSubset actorPermissions requested)) errDelegationEscalation);
  count ← sql_read (known_codes requested);
  lift (fail_if (negb (count =? length requested)%nat) (error_new "one or more permissions do not exist")).

(** The permissions of a role that exists. *)
Definition role_row_codes (role : string) (t : accounts) : option (list string) :=
  _ ← ac_roles t !! role; Some (in_order (role_codes role t)).
Fixpoint delegated_roles (actorPermissions : list string) (protectedAdmin : bool) (seen roleIDs : list string) : M adb unit :=
  match roleIDs with
  | [] => mret ()
  | roleID :: roleIDs =>
      _ ← lift (fail_if (contains seen roleID) (error_new "roles must not contain duplicates"));
      _ ← lift (fail_if (bool_decide (roleID = "role-admin") && negb protectedAdmin) errProtectedAdminOnly);
      permissions ← wrapM (λ _, error_new "one or more roles do not exist") (sql_row (role_row_codes roleID));
      _ ← lift (fail_if (negb (permissionSubset actorPermissions permissions)) errDelegationEscalation);
      delegated_roles actorPermissions protectedAdmin (roleID :: seen) roleIDs
  end.
(* src: backend/internal/server/rbac_policy.go:87-111 validateDelegatedRoles *)
Definition validateDelegatedRoles (actorID : string) (roleIDs : list string) : M adb unit :=
  '(actorPermissions, protectedAdmin) ← actorAuthority actorID;
  delegated_roles actorPermissions protectedAdmin [] roleIDs.

(* src: backend/internal/server/rbac_policy.go:113-123 roleAuthorityForUpdate *)
Definition roleAuthorityForUpdate (roleID : string) : M adb (list string * bool) :=
  system ← sql_row (λ t, rl_system <$> ac_roles t !! roleID);
  permissions ← sql_read (λ t, in_order (role_codes roleID t));
  mret (permissions, system).
(* src: backend/internal/server/rbac_policy.go:128-144 validateRoleMutationTarget *)
Definition validateRoleMutationTarget (actorID roleID : string) : M adb bool :=
  '(actorPermissions, _) ← actorAuthority actorID;
  '(permissions, system) ← roleAuthorityForUpdate roleID;
  _ ← lift (fail_if (bool_decide (roleID = "role-admin")) errProtectedAdminRole);
  _ ← lift (fail_if (negb (permissionSubset actorPermissions permissions)) errTargetAuthority);
  mret system.
(* src: backend/internal/server/rbac_policy.go:146-151 validateRolePermissionMutation *)
Definition validateRolePermissionMutation (actorID roleID : string) (requested : list string) : M adb unit :=
  _ ← validateRoleMutationTarget actorID roleID;
  validateDelegatedPermissions actorID requested.

(* src: backend/internal/server/rbac_policy.go:153-176 validateTargetUserAuthority *)
Definition validateTargetUserAuthority (actorID targetID : string) : M adb unit :=
  '(actorPermissions, actorAdmin) ← actorAuthority actorID;
  '(targetPermissions, targetAdmin) ← sql_row (λ t, _ ← ac_users t !! targetID; Some (in_order (user_codes targetID t), is_admin targetID t));
  _ ← lift (fail_if (targetAdmin && negb actorAdmin) errProtectedAdminOnly);
  lift (fail_if (negb (permissionSubset actorPermissions targetPermissions)) errTargetAuthority).

Definition active_admins (t : accounts) : gset string :=
  filter (λ u, active_user u t = true) (set_map fst (filter (λ m : string * string, m.2 = protected_role) (ac_members t))).
(* src: backend/internal/server/rbac_policy.go:178-194 protectLastActiveAdmin *)
Definition protectLastActiveAdmin (userID : string) (nextActive : bool) (nextRoleIDs : list string) : M adb unit :=
  currentlyActiveAdmin ← sql_read (λ t, bool_decide (userID ∈ active_admins t));
  if negb currentlyActiveAdmin || (nextActive && contains nextRoleIDs "role-admin") then mret () else
  activeAdmins ← sql_read (λ t, size (active_admins t));
  lift (fail_if (activeAdmins <=? 1)%nat errLastActiveAdmin).
End policy.

(** ** Requests *)
(** A [json.RawMessage] as [json.Unmarshal] reads it into a list or a text. *)
Inductive raw_list := RawAbsent | RawList (values : list string) | RawText (text : string) | RawOther.
Definition comma_list (text : string) : list string := filter (λ value, value ≠ "") (trim_space <$> split_byte ","%char text).
(* src: backend/internal/server/admin_compat.go:22-41 parseStringList *)
Definition parseStringList (raw : raw_list) : result (list string) :=
  match raw with
  | RawAbsent => Ok []
  | RawList values => Ok values
  | RawText text => Ok (comma_list text)
  | RawOther => Err (error_new "value must be a comma-separated string or string array")
  end.

(* src: backend/internal/server/admin_compat.go:16-20 roleCompatInput *)
Record roleCompatInput := { rc_Name : string; rc_Description : string; rc_Permissions : raw_list }.
(* src: backend/internal/server/admin.go:512-515 roleInput *)
Record roleInput := { ri_Name : string; ri_Description : string }.
(* src: backend/internal/server/admin_compat.go:147-154 userCompatInput *)
Record userCompatInput := {
  uc_Username : string; uc_DisplayName : string; uc_Email : string; uc_Password : string; uc_Roles : raw_list; uc_Active : option bool
}.
(** The body of [updateUser]. *)
Record userPatch := { up_DisplayName : option string; up_Email : option string; up_Active : option bool }.

Definition set_role_text (name description : string) (r : role_row) : role_row := RoleRow name description (rl_system r).
Definition patch_user (x : userPatch) (u : user_row) : user_row :=
  UserRow (us_username u) (us_hash u) (default (us_display u) (up_DisplayName x)) (default (us_email u) (up_Email x)) (us_source u) (us_subject u)
    (default (us_active u) (up_Active x)).
Definition put_user_row (x : userCompatInput) (active : bool) (u : user_row) : user_row :=
  UserRow (if bool_decide (us_source u = "local") then NormalizeUsername (uc_Username x) else us_username u) (us_hash u)
    (uc_DisplayName x) (uc_Email x) (us_source u) (us_subject u) active.
Definition set_hash (hash : string) (u : user_row) : user_row :=
  UserRow (us_username u) (Some hash) (us_display u) (us_email u) (us_source u) (us_subject u) (us_active u).

(** [begin_tx]: the errors of the lock and of [Begin] have one reply or two. *)
Definition locked_tx {A} (begin_message lock_message : string) (commit_err : goerr → goerr) (body : M adb A) : M adb A :=
  transaction_with (fail_with 500 "database_error" begin_message) (λ _, commit_err)
    (_ ← wrapM (fail_with 500 "database_error" lock_message) lockAdminDelegation; body).
Definition role_lock : string := "could not lock role delegation".

Section handlers.
Context `{ErrorText}.
(** PostgreSQL's [lower] under the collation of the database, the row [QueryRow] takes of several, and bcrypt. *)
Context (pg_lower : string → string) (first_row : list string → option string) (bcrypt : string → result string).

Definition forbidden (e : goerr) : goerr := writeError 403 "delegation_forbidden" (error_text e).
Definition missing_or_forbidden (message : string) (e : goerr) : goerr :=
  if errors_is ErrNoRows e then writeError 404 "not_found" message else forbidden e.
Definition missing_or (message failure : string) (e : goerr) : goerr :=
  if errors_is ErrNoRows e then writeError 404 "not_found" message else writeError 500 "database_error" failure.

(** [_, err = INSERT INTO role_permissions ...] for each. *)
Definition grant_all (role : string) (permissions : list string) : M adb unit := iterM (λ permission, sql (insert_grant role permission)) permissions.
Definition add_members (user : string) (roles : list string) : M adb unit := iterM (λ role, sql (insert_member user role)) roles.

(* src: backend/internal/server/admin_compat.go:42-56 (Server).assignRolePermissions *)
Definition assignRolePermissions (p : Principal) (actorID roleID : string) (permissions : list string) : M adb unit :=
  _ ← validateRolePermissionMutation p actorID roleID permissions;
  _ ← sql_do (delete_grants roleID);
  iterM (λ permission,
    inserted ← wrapM (λ _, error_new ("unknown permission: " +:+ permission)) (sql (select_grant roleID permission));
    lift (fail_if (negb inserted) (error_new ("unknown permission: " +:+ permission)))) permissions.

(** *** Roles *)
(* src: backend/internal/server/admin_compat.go:57-99 (Server).createRoleCompat *)
Definition createRoleCompat (p : Principal) (newid : result string) (input : roleCompatInput) : M adb unit :=
  let name := trim_space (rc_Name input) in
  _ ← deny_if (empty_str name) 400 "invalid_role" "name is required";
  permissions ← lift (map_err (λ e, writeError 400 "invalid_role" (error_text e)) (parseStringList (rc_Permissions input)));
  let id := match newid with Ok id => id | Err _ => "" end in
  _ ← locked_tx "could not create role" role_lock (fail_with 409 "role_conflict" "role could not be committed")
        (_ ← wrapM (fail_with 409 "role_conflict" "role name already exists") (sql (insert_role id (RoleRow name (rc_Description input) false)));
         wrapM forbidden (assignRolePermissions p (pr_UserID p) id permissions));
  audit_account (pr_UserID p) "role.create" "role" id "success".
(* src: backend/internal/server/admin_compat.go:100-145 (Server).putRole *)
Definition putRole (p : Principal) (id : string) (input : roleCompatInput) : M adb unit :=
  permissions ← lift (map_err (λ e, writeError 400 "invalid_role" (error_text e)) (parseStringList (rc_Permissions input)));
  _ ← deny_if (bool_decide (id = "role-admin")) 400 "protected_role" "Administrator role is protected";
  _ ← locked_tx "could not update role" role_lock (fail_with 409 "role_conflict" "role update could not be committed")
        (matched ← wrapM (fail_with 409 "role_conflict" "role name already exists")
           (sql (update_role id (λ _, true) (λ r, set_role_text (if rl_system r then rl_name r else trim_space (rc_Name input)) (rc_Description input) r)));
         _ ← deny_if (negb matched) 404 "not_found" "role not found";
         wrapM forbidden (assignRolePermissions p (pr_UserID p) id permissions));
  audit_account (pr_UserID p) "role.update" "role" id "success".
(* src: backend/internal/server/admin.go:538-582 (Server).updateRole *)
Definition updateRole (p : Principal) (id : string) (input : roleInput) : M adb unit :=
  let name := trim_space (ri_Name input) in
  _ ← deny_if (empty_str name || (100 <? slen name)) 400 "invalid_role" "valid name is required";
  _ ← locked_tx "could not update role" role_lock (fail_with 409 "role_conflict" "role update could not be committed")
        (_ ← wrapM (missing_or_forbidden "role not found") (validateRoleMutationTarget p (pr_UserID p) id);
         matched ← wrapM (fail_with 409 "role_conflict" "role name already exists")
           (sql (update_role id (λ r, negb (rl_system r)) (set_role_text name (ri_Description input))));
         deny_if (negb matched) 400 "system_role" "system roles cannot be renamed");
  audit_account (pr_UserID p) "role.update" "role" id "success".
(* src: backend/internal/server/admin.go:584-632 (Server).replaceRolePermissions *)
Definition replaceRolePermissions (p : Principal) (id : string) (permissions : list string) : M adb unit :=
  _ ← deny_if (bool_decide (id = "role-admin")) 400 "protected_role" "Administrator permissions are protected to prevent service lockout";
  _ ← locked_tx "could not update permissions" role_lock (fail_with 500 "database_error" "could not update permissions")
        (_ ← wrapM (missing_or_forbidden "role not found") (validateRolePermissionMutation p (pr_UserID p) id permissions);
         wrapM (fail_with 400 "invalid_permission" "one or more permissions do not exist")
           (_ ← sql_do (delete_grants id); grant_all id permissions));
  audit_account (pr_UserID p) "role.permissions.replace" "role" id "success".
(* src: backend/internal/server/admin.go:634-675 (Server).deleteRole *)
Definition deleteRole (p : Principal) (id : string) : M adb unit :=
  _ ← locked_tx "could not delete role" role_lock (fail_with 409 "role_conflict" "role deletion could not be committed")
        (system ← wrapM (missing_or_forbidden "role not found") (validateRoleMutationTarget p (pr_UserID p) id);
         _ ← deny_if system 400 "system_role" "system role cannot be deleted";
         matched ← wrapM (fail_with 409 "role_in_use" "role is in use") (statement (λ _, delete_role id));
         deny_if (negb matched) 400 "system_role" "system role cannot be deleted");
  audit_account (pr_UserID p) "role.delete" "role" id "success".

(** *** Users *)
Definition role_matches (role : string) (t : accounts) : list string :=
  fst <$> filter (λ kr : string * role_row, kr.1 = role ∨ pg_lower (rl_name kr.2) = pg_lower role ∨ kr.1 = "role-" +:+ to_lower role) (map_to_list (ac_roles t)).
Fixpoint resolve_roles (roles : list string) : M adb (list string) :=
  match roles with
  | [] => mret []
  | role :: roles =>
      id ← wrapM (λ _, error_new ("unknown role: " +:+ role)) (sql_row (λ t, first_row (role_matches role t)));
      ids ← resolve_roles roles;
      mret (id :: ids)
  end.
(* src: backend/internal/server/admin_compat.go:156-171 (Server).resolveRoleIDs *)
Definition resolveRoleIDs (raw : raw_list) : M adb (list string) := roles ← lift (parseStringList raw); resolve_roles roles.
Definition invalid_role (e : goerr) : goerr := writeError 400 "invalid_role" (error_text e).
(** The active flag of a user that exists. *)
Definition user_flag (id : string) : M adb bool := sql_row (λ t, us_active <$> ac_users t !! id).
Definition load_user (id : string) : M adb bool := wrapM (missing_or "user not found" "could not load user") (user_flag id).
Definition loads_roles (id : string) : M adb bool := wrapM (fail_with 500 "database_error" "could not load user roles") (sql_read (is_admin id)).
Definition keep_admin (id : string) (nextActive : bool) (roles : list string) : M adb unit :=
  wrapM (λ e, writeError 409 "last_active_admin" (error_text e)) (protectLastActiveAdmin id nextActive roles).

(* src: backend/internal/server/admin_compat.go:172-227 (Server).createUser *)
Definition createUser (p : Principal) (newid : result string) (input : userCompatInput) : M adb unit :=
  let username := NormalizeUsername (uc_Username input) in
  _ ← deny_if (empty_str username || (slen (uc_Password input) <? 12)) 400 "invalid_user" "username and password of at least 12 characters are required";
  hash ← wrapM (fail_with 500 "password_error" "could not hash password") (lift (bcrypt (uc_Password input)));
  let id := match newid with Ok id => id | Err _ => "" end in
  let conflict := fail_with 409 "user_conflict" "username already exists or role is invalid" in
  _ ← locked_tx "could not create user" role_lock conflict
        (roleIDs ← wrapM invalid_role (resolveRoleIDs (uc_Roles input));
         _ ← wrapM forbidden (validateDelegatedRoles p (pr_UserID p) roleIDs);
         _ ← wrapM conflict (sql (insert_user id (UserRow username (Some hash) (uc_DisplayName input) (uc_Email input) "local" None (default true (uc_Active input)))));
         wrapM conflict (add_members id roleIDs));
  audit_account (pr_UserID p) "user.create" "user" id "success".

(** The password of [putUser]: an error of bcrypt is ignored. *)
Definition put_password (conflict : goerr → goerr) (id password : string) : M adb unit :=
  if empty_str password then mret () else
  _ ← deny_if (slen password <? 12) 400 "invalid_password" "password must contain at least 12 characters";
  let hash := match bcrypt password with Ok hash => hash | Err _ => "" end in
  _ ← wrapM conflict (sql (update_user id (λ u, bool_decide (us_source u = "local")) (set_hash hash)));
  mret ().
(* src: backend/internal/server/admin_compat.go:228-316 (Server).putUser *)
Definition putUser (p : Principal) (id : string) (input : userCompatInput) : M adb unit :=
  let active := default true (uc_Active input) in
  _ ← deny_if (bool_decide (id = pr_UserID p) && negb active) 400 "self_deactivation" "cannot deactivate your own account";
  let conflict := fail_with 409 "user_conflict" "could not update user" in
  _ ← locked_tx "could not update user" role_lock conflict
        (roleIDs ← wrapM invalid_role (resolveRoleIDs (uc_Roles input));
         _ ← wrapM forbidden (validateDelegatedRoles p (pr_UserID p) roleIDs);
         _ ← load_user id;
         currentlyAdmin ← loads_roles id;
         _ ← wrapM forbidden (validateTargetUserAuthority p (pr_UserID p) id);
         _ ← deny_if (bool_decide (id = pr_UserID p) && currentlyAdmin && negb (contains roleIDs "role-admin")) 400 "self_lockout" "cannot remove your own Administrator role";
         _ ← keep_admin id active roleIDs;
         matched ← wrapM conflict (sql (update_user id (λ _, true) (put_user_row input active)));
         _ ← wrapM conflict (lift (fail_if (negb matched) (error_new "not found")));
         _ ← put_password conflict id (uc_Password input);
         _ ← wrapM conflict (sql_do (delete_members id));
         wrapM conflict (add_members id roleIDs));
  audit_account (pr_UserID p) "user.update" "user" id "success".
(* src: backend/internal/server/admin.go:717-784 (Server).updateUser *)
Definition updateUser (p : Principal) (id : string) (input : userPatch) : M adb unit :=
  _ ← deny_if (bool_decide (id = pr_UserID p) && bool_decide (up_Active input = Some false)) 400 "self_deactivation" "administrators cannot deactivate their own current session";
  _ ← locked_tx "could not update user" "could not lock Administrator membership" (fail_with 409 "user_conflict" "user update could not be committed")
        (currentActive ← load_user id;
         _ ← wrapM forbidden (validateTargetUserAuthority p (pr_UserID p) id);
         currentRoles ← wrapM (fail_with 500 "database_error" "could not load user roles") (sql_read (λ t, in_order (user_roles id t)));
         _ ← keep_admin id (default currentActive (up_Active input)) currentRoles;
         matched ← wrapM (fail_with 500 "database_error" "could not update user") (sql (update_user id (λ _, true) (patch_user input)));
         deny_if (negb matched) 404 "not_found" "user not found");
  audit_account (pr_UserID p) "user.update" "user" id "success".
(* src: backend/internal/server/admin.go:786-853 (Server).replaceUserRoles *)
Definition replaceUserRoles (p : Principal) (id : string) (roles : list string) : M adb unit :=
  _ ← locked_tx "could not update roles" role_lock (fail_with 500 "database_error" "could not update roles")
        (active ← load_user id;
         currentlyAdmin ← loads_roles id;
         _ ← wrapM forbidden (validateTargetUserAuthority p (pr_UserID p) id);
         _ ← wrapM forbidden (validateDelegatedRoles p (pr_UserID p) roles);
         _ ← deny_if (bool_decide (id = pr_UserID p) && currentlyAdmin && negb (contains roles "role-admin")) 400 "self_lockout" "cannot remove your own Administrator role";
         _ ← keep_admin id active roles;
         wrapM (fail_with 400 "invalid_role" "user or role does not exist") (_ ← sql_do (delete_members id); add_members id roles));
  audit_account (pr_UserID p) "user.roles.replace" "user" id "success".

(** *** Accounts that are made by the program *)
(** [INSERT INTO user_roles ... ON CONFLICT DO NOTHING]. *)
Definition ensure_member (user role : string) (t : accounts) : result (unit * accounts) :=
  if bool_decide ((user, role) ∈ ac_members t) then Ok ((), t) else insert_member user role t.
Definition user_named (username : string) (t : accounts) : option string :=
  first_row (fst <$> filter (λ ku : string * user_row, pg_lower (us_username ku.2) = pg_lower username) (map_to_list (ac_users t))).
(* src: backend/internal/store/store.go:104-134 (Store).BootstrapAdmin *)
Definition Bootstrap (newid : result string) (username password : string) : M adb unit :=
  let username := NormalizeUsername username in
  _ ← lift (fail_if (empty_str username) (error_new "bootstrap username cannot be empty"));
  hash ← lift (bcrypt password);
  transaction
    (found ← try (sql_row (user_named username));
     userID ← (match found with
               | Ok id => mret id
               | Err e =>
                   if errors_is ErrNoRows e then
                     id ← lift newid;
                     _ ← wrapM (Wrapf "bootstrap admin lookup/create: %w" [])
                           (sql (insert_user id (UserRow username (Some hash) username "" "local" None true)));
                     mret id
                   else throw (Wrapf "bootstrap admin lookup/create: %w" [] e)
               end);
     sql (ensure_member userID "role-admin")).
End handlers.
