(* ===== verification/Delegation.v ===== *)
(** * Delegation (abstract specification of Rbac.v)

    What an administrator may do to the accounts, one rule per thing; Rbac.v's
    handlers refine it.  A rule hands out no more than the actor holds, touches
    nobody above the actor, and leaves an active Administrator. *)
From S2P Require Import Prelude GoIO GoString OS Encoding Sha256 Model Db Store Backend Crypto Vault Accounts Rbac.

(** ** Authority *)
(** What the actor may hand out: nothing unless active, and through an API key
    only its scopes and never the protected role. *)
Definition authority (p : Principal) (t : accounts) : gset string :=
  if active_user (pr_UserID p) t then filter (λ c, pr_ViaAPIKey p = false ∨ Has p c = true) (user_codes (pr_UserID p) t) else ∅.
Definition admin_authority (p : Principal) (t : accounts) : bool :=
  active_user (pr_UserID p) t && is_admin (pr_UserID p) t && negb (pr_ViaAPIKey p).

Definition outranks (p : Principal) (user : string) (t : accounts) : Prop :=
  user_codes user t ⊆ authority p t ∧ (is_admin user t = true → admin_authority p t = true).
Definition may_give (p : Principal) (t : accounts) (role : string) : Prop :=
  role_codes role t ⊆ authority p t ∧ (role = protected_role → admin_authority p t = true).
Definition default_role (t : accounts) : option string := c ← ac_oidc t; oi_DefaultRoleID c.

Definition regrant (role : string) (codes : gset string) : accounts → accounts :=
  set_grants (λ g, set_map (pair role) codes ∪ filter (λ g, g.1 ≠ role) g).
Definition reassign (user : string) (roles : gset string) : accounts → accounts :=
  set_members (λ m, set_map (pair user) roles ∪ filter (λ m, m.1 ≠ user) m).

(** A user that is new, with roles. *)
Definition enrol (id : string) (u : user_row) (roles : gset string) (t : accounts) : accounts :=
  set_members (λ m, set_map (pair id) roles ∪ m) (set_users (<[id := u]>) t).

Inductive delegates (p : Principal) (t : accounts) : accounts → Prop :=
  | del_create_role id r : ac_roles t !! id = None → delegates p t (set_roles (<[id := r]>) t)
  | del_describe_role id r r' : ac_roles t !! id = Some r → rl_system r' = rl_system r → delegates p t (set_roles (<[id := r']>) t)
  | del_grant role codes :
      role ≠ protected_role → role_codes role t ⊆ authority p t → codes ⊆ authority p t → delegates p t (regrant role codes t)
  | del_delete_role role : role ≠ protected_role → role_codes role t ⊆ authority p t → delegates p t (drop_role role t)
  | del_create_user id u (roles : gset string) :
      ac_users t !! id = None → (∀ r, r ∈ roles → may_give p t r) →
      delegates p t (enrol id u roles t)
  | del_edit_user id u u' (roles : gset string) :
      ac_users t !! id = Some u → us_subject u' = us_subject u → outranks p id t → (∀ r, r ∈ roles → may_give p t r) →
      (id ∈ active_admins t → (us_active u' = true ∧ protected_role ∈ roles) ∨ (2 ≤ size (active_admins t))%nat) →
      delegates p t (reassign id roles (set_users (<[id := u']>) t))
  | del_default c : (∀ r, oi_DefaultRoleID c = Some r → may_give p t r) → delegates p t (set_oidc (λ _, Some c) t)
  | del_audit x : delegates p t (log_audit x t).

(** ** Sets of rows *)
Lemma elem_of_in_order c s : c ∈ in_order s ↔ c ∈ s.
Proof. unfold in_order. by rewrite merge_sort_Permutation, elem_of_elements. Qed.
Lemma elem_of_role_codes c role t : c ∈ role_codes role t ↔ (role, c) ∈ ac_grants t.
Proof.
  unfold role_codes. rewrite elem_of_map. split.
  - intros ([r d] & -> & Hg). apply elem_of_filter in Hg as [<- Hg]. done.
  - intros Hg. exists (role, c). by rewrite elem_of_filter.
Qed.
Lemma elem_of_user_codes c user t : c ∈ user_codes user t ↔ ∃ role, (user, role) ∈ ac_members t ∧ (role, c) ∈ ac_grants t.
Proof.
  unfold user_codes. rewrite elem_of_map. split.
  - intros ([r d] & -> & Hg). apply elem_of_filter in Hg as [Hm Hg]. by exists r.
  - intros (r & Hm & Hg). exists (r, c). by rewrite elem_of_filter.
Qed.
Lemma elem_of_user_roles role user t : role ∈ user_roles user t ↔ (user, role) ∈ ac_members t.
Proof.
  unfold user_roles. rewrite elem_of_map. split.
  - intros ([u r] & -> & Hg). apply elem_of_filter in Hg as [<- Hg]. done.
  - intros Hg. exists (user, role). by rewrite elem_of_filter.
Qed.
Lemma elem_of_active_admins u t : u ∈ active_admins t ↔ active_user u t = true ∧ (u, protected_role) ∈ ac_members t.
Proof.
  unfold active_admins. rewrite elem_of_filter, elem_of_map. split.
  - intros (Ha & [v r] & -> & Hm). apply elem_of_filter in Hm as [Hr Hm]. simpl in Hr. by subst.
  - intros [Ha Hm]. split; [done|]. exists (u, protected_role). by rewrite elem_of_filter.
Qed.
Lemma elem_of_authority c p t :
  c ∈ authority p t ↔ active_user (pr_UserID p) t = true ∧ (pr_ViaAPIKey p = false ∨ Has p c = true) ∧ c ∈ user_codes (pr_UserID p) t.
Proof. unfold authority. destruct (active_user _ _); [rewrite elem_of_filter; naive_solver|set_solver]. Qed.
Lemma elem_of_pair_map (a : string) (s : gset string) x y : (x, y) ∈ (set_map (pair a) s : gset (string * string)) ↔ x = a ∧ y ∈ s.
Proof. rewrite elem_of_map. naive_solver. Qed.

(** ** Powers *)
(** What a user may hold: a permission, or the protected role. *)
Inductive power := Code (code : string) | Protected.
Definition holds (x : power) (user : string) (t : accounts) : Prop :=
  match x with Code c => c ∈ user_codes user t | Protected => is_admin user t = true end.
Definition wields (x : power) (p : Principal) (t : accounts) : Prop :=
  match x with Code c => c ∈ authority p t | Protected => admin_authority p t = true end.
Definition role_holds (x : power) (role : string) (t : accounts) : Prop :=
  match x with Code c => c ∈ role_codes role t | Protected => role = protected_role end.
(** New users of the identity provider are given the default role. *)
Definition default_holds (x : power) (t : accounts) : Prop := ∃ role, default_role t = Some role ∧ role_holds x role t.
(** By what a user is known and signs in. *)
Definition identity (u : user_row) : string * option string * string * option string * bool :=
  (us_username u, us_hash u, us_source u, us_subject u, us_active u).

Lemma holds_roles x user t : holds x user t ↔ ∃ role, (user, role) ∈ ac_members t ∧ role_holds x role t.
Proof.
  destruct x as [c|]; simpl.
  - rewrite elem_of_user_codes. by setoid_rewrite elem_of_role_codes.
  - unfold is_admin. rewrite bool_decide_eq_true. naive_solver.
Qed.
Lemma wields_active x p t : wields x p t → active_user (pr_UserID p) t = true.
Proof. destruct x; simpl; [by intros [? _]%elem_of_authority|]. unfold admin_authority. intros H. by bools. Qed.
Lemma wields_holds x p t : wields x p t → holds x (pr_UserID p) t.
Proof. destruct x; simpl; [by intros (_ & _ & ?)%elem_of_authority|]. unfold admin_authority. intros H. by bools. Qed.
Lemma outranks_power x p user t : outranks p user t → holds x user t → wields x p t.
Proof. intros [Hc Ha]. destruct x; simpl; [apply Hc|apply Ha]. Qed.
Lemma may_give_power x p role t : may_give p t role → role_holds x role t → wields x p t.
Proof. intros [Hc Ha]. destruct x; simpl; [apply Hc|apply Ha]. Qed.

(** ** What a rule changes *)
(** Memberships are of users that exist (the foreign key). *)
Definition keyed (t : accounts) : Prop := ∀ u r, (u, r) ∈ ac_members t → is_Some (ac_users t !! u).
Definition identities (u : string) (t : accounts) := identity <$> ac_users t !! u.

Lemma role_holds_regrant x role codes r t :
  role_holds x r (regrant role codes t) → role_holds x r t ∨ (∃ c, x = Code c ∧ c ∈ codes).
Proof.
  destruct x as [c|]; simpl; [|by left]. rewrite !elem_of_role_codes. simpl. rewrite elem_of_union, elem_of_pair_map, elem_of_filter. naive_solver.
Qed.
Lemma role_holds_drop x role r t : role_holds x r (drop_role role t) → role_holds x r t ∧ (∀ c, x = Code c → r ≠ role).
Proof. destruct x as [c|]; simpl; [|done]. rewrite !elem_of_role_codes. simpl. rewrite elem_of_filter. naive_solver. Qed.
Lemma holds_mono x u t t' :
  (∀ r, (u, r) ∈ ac_members t' → (u, r) ∈ ac_members t) → (∀ r, role_holds x r t' → role_holds x r t) → holds x u t' → holds x u t.
Proof. rewrite !holds_roles. intros Hm Hr (r & ? & ?). exists r. auto. Qed.

(** A power the actor does not wield stays where it is: nobody gains it, and
    whoever has it keeps name, password and state. *)
Definition contained (x : power) (t t' : accounts) : Prop :=
  (∀ u, holds x u t' → holds x u t ∧ identities u t' = identities u t) ∧ (default_holds x t' → default_holds x t) ∧ (keyed t → keyed t').
#[export] Instance contained_preorder x : PreOrder (contained x).
Proof.
  split; [done|]. intros t1 t2 t3 (H1 & D1 & K1) (H2 & D2 & K2). split_and!; [|auto..]. intros u [Hu E]%H2. apply H1 in Hu as [Hu E']. split; [done|]. by rewrite E.
Qed.

Lemma default_same x t t' : ac_oidc t' = ac_oidc t → (∀ r, role_holds x r t' → role_holds x r t) → default_holds x t' → default_holds x t.
Proof. intros Ho Hr (r & Hd & Hx). exists r. unfold default_role in *. rewrite Ho in Hd. auto. Qed.
Lemma contained_same x t t' :
  ac_members t' = ac_members t → ac_grants t' = ac_grants t → (default_holds x t' → default_holds x t) →
  (∀ u, identities u t' = identities u t) → contained x t t'.
Proof.
  intros Hm Hg Hd Hi. assert (∀ r, role_holds x r t' → role_holds x r t) as Hr by (intros r; destruct x; simpl; [by rewrite !elem_of_role_codes, Hg|done]).
  split_and!; [|done|].
  - intros u H. split; [|done]. eapply holds_mono; [|exact Hr|exact H]. by rewrite Hm.
  - intros Hk u r Hur. rewrite Hm in Hur. apply Hk in Hur. specialize (Hi u). unfold identities in Hi. destruct (ac_users t !! u) as [a|]; [|by destruct Hur].
    destruct (ac_users t' !! u); [by eexists|done].
Qed.
Lemma contained_new_user x id u roles t :
  ac_users t !! id = None → keyed t → (∀ r, r ∈ roles → ¬ role_holds x r t) → contained x t (enrol id u roles t).
Proof.
  intros Hn Hk Hg. split_and!; [|by destruct x|].
  - intros v Hv. assert (holds x v t) as H.
    { revert Hv. rewrite !holds_roles. intros (r & Hm & Hx). simpl in Hm. rewrite elem_of_union, elem_of_pair_map in Hm. destruct Hm as [[-> Hr]|Hm]; [|by exists r].
      destruct (Hg r Hr). by destruct x. }
    split; [done|]. apply holds_roles in H as (r & Hm & _). apply Hk in Hm. unfold identities. simpl. rewrite lookup_insert_ne; [done|]. intros ->. rewrite Hn in Hm. by destruct Hm.
  - intros _ v r. simpl. rewrite elem_of_union, elem_of_pair_map. intros [[-> _]|Hm]; [rewrite lookup_insert; rewrite decide_True by done; by eexists|]. apply lookup_insert_is_Some'. right. by eapply Hk.
Qed.
Lemma contained_rule x p t t' : delegates p t t' → keyed t → ¬ wields x p t → contained x t t'.
Proof.
  intros Hd Hk Hw. destruct Hd as [id r Hn|id r r' Hr Hs|role codes Hp Hr Hc|role Hp Hr|id u roles Hn Hg|id u u' roles Hu Hs Ho Hg Ha|c Hc|l].
  - apply contained_same; [done..|by destruct x|done].
  - apply contained_same; [done..|by destruct x|done].
  - assert (∀ r, role_holds x r (regrant role codes t) → role_holds x r t) as Hx.
    { intros r [?|(c & -> & ?)]%role_holds_regrant; [done|]. destruct Hw. simpl. by apply Hc. }
    split_and!; [|by apply default_same|done]. intros u H. split; [|done]. eapply holds_mono; [|exact Hx|exact H]. done.
  - split_and!.
    + intros u H. split; [|done]. eapply holds_mono; [| |exact H].
      * simpl. intros r [_ ?]%elem_of_filter. done.
      * intros r [? _]%role_holds_drop. done.
    + intros (r & Hdf & Hx). exists r. split; [|by apply role_holds_drop in Hx as [? _]]. revert Hdf. unfold default_role. simpl.
      destruct (ac_oidc t) as [c|]; simpl; [|done]. by case_bool_decide.
    + intros _ u r. simpl. rewrite elem_of_filter. intros [_ ?]. by eapply Hk.
  - apply contained_new_user; [done..|]. intros r Hr Hx. destruct Hw. eapply may_give_power; [by apply Hg|done].
  - split_and!; [|by destruct x|].
    + intros v Hv. assert (holds x v t ∧ v ≠ id) as [H Hne].
      { revert Hv. rewrite !holds_roles. intros (r & Hm & Hx). simpl in Hm. rewrite elem_of_union, elem_of_pair_map, elem_of_filter in Hm.
        assert (role_holds x r t) as Hx' by by destruct x. destruct Hm as [[-> Hr]|[Hne Hm]]; [|split; [by exists r|done]].
        destruct Hw. by eapply may_give_power; [apply Hg|]. }
      split; [done|]. unfold identities. simpl. by rewrite lookup_insert_ne.
    + intros _ v r. simpl. rewrite elem_of_union, elem_of_pair_map, elem_of_filter. intros [[-> _]|[_ Hm]]; apply lookup_insert_is_Some'; [by left|right; by eapply Hk].
  - apply contained_same; [done..| |done]. intros (r & Hdf & Hx). destruct Hw. eapply may_give_power; [by apply Hc|by destruct x].
  - apply contained_same; [done..|by destruct x|done].
Qed.
Lemma contained_wields x p t t' : contained x t t' → ¬ wields x p t → ¬ wields x p t'.
Proof.
  intros (Hc & _) Hw Hw'. apply Hw. pose proof (wields_active _ _ _ Hw') as Ha. destruct (Hc _ (wields_holds _ _ _ Hw')) as [Hh E].
  assert (active_user (pr_UserID p) t = true) as Ha'.
  { unfold active_user, identities in *. destruct (ac_users t' !! _), (ac_users t !! _); simplify_eq/=; done || congruence. }
  destruct x as [c|]; simpl in *.
  - apply elem_of_authority in Hw' as (_ & Hv & _). by apply elem_of_authority.
  - unfold admin_authority in *. bools. rewrite Ha', Hh. simpl. by apply negb_true_iff.
Qed.
Lemma contained_rules x p t t' : rtc (delegates p) t t' → keyed t → ¬ wields x p t → contained x t t'.
Proof.
  induction 1 as [t|t1 t2 t3 Hd _ IH]; intros Hk Hw; [done|]. pose proof (contained_rule x _ _ _ Hd Hk Hw) as H. etrans; [exact H|].
  apply IH; [by apply H|by eapply contained_wields].
Qed.

(** ** An active Administrator remains *)
Definition has_admin (t : accounts) : Prop := active_admins t ≠ ∅.
Lemma has_admin_at t u : active_user u t = true → (u, protected_role) ∈ ac_members t → has_admin t.
Proof. intros Ha Hm He. assert (u ∈ active_admins t) as H by by apply elem_of_active_admins. rewrite He in H. by apply not_elem_of_empty in H. Qed.
Lemma has_admin_spec t : has_admin t ↔ ∃ u, active_user u t = true ∧ (u, protected_role) ∈ ac_members t.
Proof.
  split; [|intros (u & ? & ?); by eapply has_admin_at]. intros [u Hu]%set_choose_L. exists u. by apply elem_of_active_admins.
Qed.
Lemma other_admin t u : (2 ≤ size (active_admins t))%nat → ∃ v, v ≠ u ∧ v ∈ active_admins t.
Proof.
  intros Hs. destruct (decide (active_admins t ∖ {[u]} = ∅)) as [He|[v Hv]%set_choose_L].
  - apply empty_difference_subseteq_L in He as Hsub.
    apply subseteq_size in Hsub. rewrite size_singleton in Hsub. lia.
  - exists v. rewrite elem_of_difference, elem_of_singleton in Hv. by destruct Hv.
Qed.
Lemma active_user_insert id row (u : string) t :
  active_user u (set_users (<[id := row]>) t) = if decide (id = u) then us_active row else active_user u t.
Proof. unfold active_user. simpl. rewrite lookup_insert. by case_decide. Qed.
Lemma admin_new_user id row roles t : ac_users t !! id = None → has_admin t → has_admin (enrol id row roles t).
Proof.
  rewrite !has_admin_spec. intros Hn (u & Ha & Hm). exists u. split; [|unfold enrol; simpl; rewrite elem_of_union; by right].
  change (active_user u (set_users (<[id:=row]>) t) = true). rewrite active_user_insert. case_decide as E; [|done]. subst. unfold active_user in Ha. by rewrite Hn in Ha.
Qed.
Lemma admin_rule p t t' : delegates p t t' → has_admin t → has_admin t'.
Proof.
  intros Hd Hadm. destruct Hd as [| | |role Hp _|id row roles Hn _|id row row' roles Hr Hs _ _ Hk| |]; [..|by apply admin_new_user| | |];
    revert Hadm; rewrite !has_admin_spec; intros (u & Ha & Hm); try (by exists u).
  - exists u. split; [done|]. simpl. by rewrite elem_of_filter.
  - assert (∀ v, active_user v (reassign id roles (set_users (<[id:=row']>) t)) = if decide (id = v) then us_active row' else active_user v t) as Hact
      by exact (λ v, active_user_insert id row' v t).
    assert (∃ v, v ≠ id ∧ v ∈ active_admins t ∨ v = id ∧ us_active row' = true ∧ protected_role ∈ roles) as (v & [[Hne Hv]|(-> & Hv & Hp)]).
    + destruct (decide (u = id)) as [->|]; [|exists u; left; split; [done|by apply elem_of_active_admins]].
      destruct Hk as [[? ?]|Hs2]; [by apply elem_of_active_admins|by exists id; right|]. destruct (other_admin t id Hs2) as (v & ? & ?). exists v. by left.
    + apply elem_of_active_admins in Hv as [Hva Hvm]. exists v. rewrite Hact, decide_False by done. split; [done|]. simpl. rewrite elem_of_union, elem_of_filter. by right.
    + exists id. rewrite Hact, decide_True by done. split; [done|]. simpl. rewrite elem_of_union, elem_of_pair_map. by left.
Qed.
Lemma admin_rules p t t' : rtc (delegates p) t t' → has_admin t → has_admin t'.
Proof. induction 1; [done|]. eauto using admin_rule. Qed.
