(* ===== verification/RbacProofs.v ===== *)
(** * The handlers of Rbac.v refine the delegation rules of Delegation.v *)
From S2P Require Import Prelude GoIO GoString OS Encoding Sha256 Model Db Store Backend Crypto Vault Accounts Rbac Delegation.

(** ** Checks *)
(** [checks t n m P]: if [m] returns, the tables are untouched and [P] holds. *)
Definition checks {A} (t : accounts) (n : Z) (m : M adb A) (P : A → Prop) : Prop := runs t n m (λ a t', t' = t ∧ P a).
Lemma checks_bind {A B} t n (m : M adb A) (k : A → M adb B) P Q :
  checks t n m P → (∀ a, P a → runs t n (k a) Q) → runs t n (m ≫= k) Q.
Proof. intros Hm Hk. eapply runs_bind; [exact Hm|]. intros a t' [-> Ha]. auto. Qed.
Lemma checks_weaken {A} t n (m : M adb A) (P Q : A → Prop) : checks t n m P → (∀ a, P a → Q a) → checks t n m Q.
Proof. intros Hm HQ. eapply runs_conseq; [exact Hm|]. intros a t' [-> ?]. auto. Qed.
Lemma checks_wrap {A} t n f (m : M adb A) P : checks t n m P → checks t n (wrapM f m) P.
Proof. apply runs_wrap. Qed.
Lemma checks_read {A} t n (f : accounts → A) : checks t n (sql_read f) (λ a, a = f t).
Proof. by apply runs_query. Qed.
Lemma checks_row {A} t n (f : accounts → option A) : checks t n (sql_row f) (λ a, f t = Some a).
Proof.
  unfold checks, sql_row. eapply checks_bind; [apply checks_read|]. cbv beta. intros ? ->. apply runs_lift. intros a H%of_option_ok. done.
Qed.
Lemma checks_if t n (b : bool) e : checks t n (lift (fail_if b e)) (λ _, b = false).
Proof. apply runs_lift. by intros [] H%fail_if_ok. Qed.
Lemma checks_deny t n b s c m : checks t n (deny_if b s c m) (λ _, b = false).
Proof. apply checks_if. Qed.
Lemma checks_ret {A} t n (a : A) : checks t n (mret a) (λ b, b = a).
Proof. by apply runs_ret. Qed.
Lemma checks_throw {A} t n e (P : A → Prop) : checks t n (throw e) P.
Proof. apply runs_throw. Qed.
Create HintDb checks_db.
#[export] Hint Resolve checks_wrap checks_read checks_row checks_if checks_deny checks_ret checks_throw : checks_db.
Ltac check_end := eapply checks_weaken; [solve [eauto with checks_db]|cbv beta].
Ltac check_step := eapply checks_bind; [solve [eauto with checks_db]|cbv beta; intros ? ?].

Lemma subset_ok granted requested : permissionSubset granted requested = true → ∀ c, c ∈ requested → c ∈ granted.
Proof.
  unfold permissionSubset, contains. rewrite forallb_Forall, Forall_forall. intros H c Hc. apply H in Hc. by apply bool_decide_eq_true in Hc.
Qed.

Section checks.
Context (p : Principal) (t : accounts) (n : Z).
Abbreviation me := (pr_UserID p).
Definition effective (x : list string * bool) : Prop := (∀ c, c ∈ x.1 → c ∈ authority p t) ∧ (x.2 = true → admin_authority p t = true).

Lemma actor_checks : checks t n (actorAuthority p me) effective.
Proof.
  unfold actorAuthority. check_step. destruct a as [permissions admin]. unfold authority_row in H. destruct (active_user me t) eqn:Ha; [|done]. injection H as <- <-.
  apply runs_ret. split; [done|]. unfold attenuateDelegatedAuthority. rewrite bool_decide_true by done. simpl. unfold effective, admin_authority. rewrite Ha.
  destruct (pr_ViaAPIKey p) eqn:Hv; simpl; split; simpl; try done.
  - intros c [Hh Hc]%list_elem_of_filter. apply elem_of_authority. rewrite elem_of_in_order in Hc. auto.
  - intros c Hc. apply elem_of_authority. rewrite elem_of_in_order in Hc. auto.
  - intros ->. done.
Qed.
Hint Resolve actor_checks : checks_db.
Lemma subset_authority perms (s : gset string) :
  (∀ c, c ∈ perms → c ∈ authority p t) → permissionSubset perms (in_order s) = true → s ⊆ authority p t.
Proof. intros Hp Hs c Hc. apply Hp. eapply subset_ok; [exact Hs|]. by apply elem_of_in_order. Qed.

Lemma permissions_checks requested :
  checks t n (validateDelegatedPermissions p me requested) (λ _, ∀ c, c ∈ requested → c ∈ authority p t).
Proof.
  unfold validateDelegatedPermissions. check_step. destruct a as [perms admin]. destruct H as [Hp _]. check_step. bools. check_step.
  check_end. intros ? ? c Hc. apply Hp. by eapply subset_ok.
Qed.
Lemma roles_checks perms admin seen roles :
  effective (perms, admin) → checks t n (delegated_roles perms admin seen roles) (λ _, ∀ r, r ∈ roles → may_give p t r ∧ r ∉ seen).
Proof.
  intros [Hp Ha]. revert seen. induction roles as [|r roles IH]; intros seen; simpl.
  - check_end. intros ? ? r Hr. by apply not_elem_of_nil in Hr.
  - check_step. check_step. check_step. check_step. eapply checks_weaken; [apply IH|]. intros ? Hrest r' Hin. apply elem_of_cons in Hin as [E|Hin]; [subst r'|].
    + unfold contains in *. bools. split; [|done]. unfold role_row_codes in *. destruct (ac_roles t !! r); [|done]. simplify_eq/=. split; [by eapply subset_authority|].
      intros ->. apply Ha. rewrite bool_decide_true in * by done. simpl in *. by bools.
    + apply Hrest in Hin as [? ?]. set_solver.
Qed.
Lemma delegated_checks roles : checks t n (validateDelegatedRoles p me roles) (λ _, ∀ r, r ∈ roles → may_give p t r).
Proof.
  unfold validateDelegatedRoles. check_step. destruct a as [perms admin]. eapply checks_weaken; [by apply roles_checks|]. intros ? Hr r Hin. by apply Hr.
Qed.
Lemma role_target_checks role :
  checks t n (validateRoleMutationTarget p me role)
    (λ system, role ≠ protected_role ∧ role_codes role t ⊆ authority p t ∧ rl_system <$> ac_roles t !! role = Some system).
Proof.
  unfold validateRoleMutationTarget. check_step. destruct a as [perms admin]. destruct H as [Hp _].
  eapply checks_bind; [|intros [codes system] Hx].
  { instantiate (1 := λ x, x.1 = in_order (role_codes role t) ∧ rl_system <$> ac_roles t !! role = Some x.2).
    unfold roleAuthorityForUpdate. check_step. check_step. check_end. by intros ? ->. }
  destruct Hx as [Hc Hs]. simpl in Hc, Hs. subst codes. check_step. check_step. bools.
  check_end. intros ? ->. split_and!; [done|by eapply subset_authority|done].
Qed.
Lemma user_target_checks user : checks t n (validateTargetUserAuthority p me user) (λ _, outranks p user t).
Proof.
  unfold validateTargetUserAuthority. check_step. destruct a as [perms admin]. destruct H as [Hp Ha]. check_step. destruct a as [target tadmin].
  destruct (ac_users t !! user); [|done]. simplify_eq/=. check_step. check_end. intros ? Hs. bools. split; [by eapply subset_authority|].
  intros Hadmin. apply Ha. rewrite Hadmin in *. simpl in *. by bools.
Qed.
Lemma last_admin_checks user next roles :
  checks t n (protectLastActiveAdmin user next roles)
    (λ _, user ∈ active_admins t → (next = true ∧ protected_role ∈ roles) ∨ (2 ≤ size (active_admins t))%nat).
Proof.
  unfold protectLastActiveAdmin. check_step. case_bool_decide as Hu; subst a; simpl.
  - destruct (next && contains roles "role-admin") eqn:Hn.
    + check_end. intros ? ? _. left. unfold contains in Hn. by bools.
    + check_step. subst a. check_end. intros ? Hs _. right. apply Nat.leb_gt in Hs. lia.
  - check_end. by intros ? ? ?.
Qed.
End checks.
#[export] Hint Resolve actor_checks permissions_checks delegated_checks role_target_checks user_target_checks last_admin_checks : checks_db.

(** ** Loops over rows *)
Lemma pair_map_cons (a b : string) (l : list string) (g : gset (string * string)) :
  set_map (pair a) (list_to_set l : gset string) ∪ ({[ (a, b) ]} ∪ g) = set_map (pair a) (list_to_set (b :: l) : gset string) ∪ g.
Proof. simpl. rewrite set_map_union_L, set_map_singleton_L. set_solver. Qed.
Definition granted role (codes : list string) : accounts → accounts := set_grants (λ g, set_map (pair role) (list_to_set codes : gset string) ∪ g).
Definition joined user (roles : list string) : accounts → accounts := set_members (λ m, set_map (pair user) (list_to_set roles : gset string) ∪ m).
Lemma accounts_eta_grants t : set_grants (λ g, ∅ ∪ g) t = t.
Proof. unfold set_grants. rewrite (left_id_L ∅ (∪)). by destruct t. Qed.
Lemma accounts_eta_members t : set_members (λ g, ∅ ∪ g) t = t.
Proof. unfold set_members. rewrite (left_id_L ∅ (∪)). by destruct t. Qed.
Lemma insert_grant_ok role code t u t' : insert_grant role code t = Ok (u, t') → t' = set_grants (λ g, {[ (role, code) ]} ∪ g) t.
Proof. unfold insert_grant. destruct (bool_decide _); [done|]. destruct (bool_decide _); [done|]. by intros [= <-]. Qed.
Lemma insert_member_ok user role t u t' : insert_member user role t = Ok (u, t') → t' = set_members (λ g, {[ (user, role) ]} ∪ g) t.
Proof. unfold insert_member. destruct (bool_decide _); [done|]. destruct (bool_decide _); [done|]. by intros [= <-]. Qed.

(** A loop of statements that each add one row. *)
Lemma runs_rows {A} (f : A → M adb unit) (g : A → accounts → accounts) t n l :
  (∀ x t, runs t n (f x) (λ _ t', t' = g x t)) → runs t n (iterM f l) (λ _ t', t' = foldl (λ t x, g x t) t l).
Proof.
  intros Hf. revert t. induction l as [|x l IH]; intros t; [by apply runs_ret|]. simpl. eapply runs_bind; [apply Hf|]. intros ? ? ->. apply IH.
Qed.
Lemma granted_rows role codes t : foldl (λ t c, set_grants (λ g, {[ (role, c) ]} ∪ g) t) t codes = granted role codes t.
Proof.
  revert t. induction codes as [|c codes IH]; intros t; simpl; [by rewrite <- accounts_eta_grants at 1|]. rewrite IH. unfold granted, set_grants. simpl.
  f_equal. apply pair_map_cons.
Qed.
Lemma joined_rows user roles t : foldl (λ t r, set_members (λ g, {[ (user, r) ]} ∪ g) t) t roles = joined user roles t.
Proof.
  revert t. induction roles as [|c roles IH]; intros t; simpl; [by rewrite <- accounts_eta_members at 1|]. rewrite IH. unfold joined, set_members. simpl.
  f_equal. apply pair_map_cons.
Qed.
Lemma runs_grant_all t n role codes : runs t n (grant_all role codes) (λ _ t', t' = granted role codes t).
Proof.
  rewrite <- granted_rows. apply (runs_rows _ (λ c t, set_grants (λ g, {[ (role, c) ]} ∪ g) t)). intros c t1. apply runs_checked. apply insert_grant_ok.
Qed.
Lemma runs_add_members t n user roles : runs t n (add_members user roles) (λ _ t', t' = joined user roles t).
Proof.
  rewrite <- joined_rows. apply (runs_rows _ (λ c t, set_members (λ g, {[ (user, c) ]} ∪ g) t)). intros c t1. apply runs_checked. apply insert_member_ok.
Qed.
Lemma regranted role codes t : granted role codes (delete_grants role t) = regrant role (list_to_set codes) t.
Proof. done. Qed.

(** ** Handlers *)
Lemma each_locked {A} (R : accounts → accounts → Prop) `{!PreOrder R} b l c (body : M adb A) :
  (∀ t n, runs t n body (λ _ t', R t t')) → each R (locked_tx b l c body).
Proof.
  intros Hb w. unfold locked_tx. destruct (transaction_with _ _ _ w) as [r w'] eqn:E. simpl.
  destruct (transaction_cases _ _ _ _ _ _ E) as [[-> _]|(a & w1 & _ & E1 & -> & _)]; [done|].
  assert (runs (tabs w) (now w) (wrapM (fail_with 500 "database_error" l) lockAdminDelegation ≫= λ _, body) (λ _ t', R (tabs w) t')) as Hr.
  { eapply checks_bind; [apply checks_wrap, checks_read|]. intros _ _. apply Hb. }
  exact (proj1 (Hr (ticked_db (tabs w) false w) _ _ eq_refl eq_refl E1)).
Qed.
Lemma insert_role_ok id r t u t' : insert_role id r t = Ok (u, t') → ac_roles t !! id = None ∧ t' = set_roles (<[id := r]>) t.
Proof.
  unfold insert_role. destruct (_ || _) eqn:E; [done|]. bools. intros [= <-]. split; [|done]. by apply eq_None_not_Some.
Qed.
Lemma update_role_ok id cond f t b t' :
  update_role id cond f t = Ok (b, t') → if b then ∃ r, ac_roles t !! id = Some r ∧ cond r = true ∧ t' = set_roles (<[id := f r]>) t else t' = t.
Proof.
  unfold update_role. destruct (ac_roles t !! id) as [r|]; [|by intros [= <- <-]]. destruct (cond r) eqn:Ec; simpl; [|by intros [= <- <-]].
  destruct (role_taken _ _ _); [done|]. intros [= <- <-]. by exists r.
Qed.
Lemma insert_user_ok id r t u t' : insert_user id r t = Ok (u, t') → ac_users t !! id = None ∧ t' = set_users (<[id := r]>) t.
Proof.
  unfold insert_user. destruct (_ || _) eqn:E; [done|]. bools. intros [= <-]. split; [|done]. by apply eq_None_not_Some.
Qed.
Lemma update_user_ok id cond f t b t' :
  update_user id cond f t = Ok (b, t') → if b then ∃ u, ac_users t !! id = Some u ∧ cond u = true ∧ t' = set_users (<[id := f u]>) t else t' = t.
Proof.
  unfold update_user. destruct (ac_users t !! id) as [r|]; [|by intros [= <- <-]]. destruct (cond r) eqn:Ec; simpl; [|by intros [= <- <-]].
  destruct (user_taken _ _ _); [done|]. intros [= <- <-]. by exists r.
Qed.
Lemma runs_sql {A} t n (f : accounts → result (A * accounts)) : runs t n (sql f) (λ a t', f t = Ok (a, t')).
Proof. by apply runs_checked. Qed.
Section refine.
Context `{ErrorText} (pg_lower : string → string) (first_row : list string → option string) (bcrypt : string → result string).
Context (p : Principal).
Abbreviation me := (pr_UserID p).
Abbreviation follows := (rtc (delegates p)).

Lemma each_audit_account a b c d e : each follows (audit_account a b c d e).
Proof. unfold audit_account, sql_do. each_steps. apply rtc_once, del_audit. Qed.

Lemma assign_follows t n role codes :
  runs t n (assignRolePermissions p me role codes) (λ _ t', t' = regrant role (list_to_set codes) t ∧ follows t t').
Proof.
  unfold assignRolePermissions, validateRolePermissionMutation. apply runs_assoc. eapply checks_bind; [apply role_target_checks|]. intros system (Hp & Hr & _).
  eapply checks_bind; [apply permissions_checks|]. cbv beta. intros _ Hc. apply (runs_statement_bind t n). simpl.
  eapply runs_conseq.
  { apply (runs_rows _ (λ c t, set_grants (λ g, {[ (role, c) ]} ∪ g) t)). intros c t1.
    eapply runs_bind; [apply runs_wrap, runs_checked, (λ a t' E, E)|]. cbv beta. intros inserted t' E. unfold select_grant in E. case_bool_decide; [|injection E as <- <-; by apply (runs_lift t1)].
    destruct (insert_grant role c t1) as [[u t2]|e] eqn:Eg; [|done]. simpl in E. injection E as <- <-. apply insert_grant_ok in Eg as ->. by apply runs_lift. }
  cbv beta. intros _ t' ->. rewrite granted_rows, regranted. split; [done|]. apply rtc_once, del_grant; [done..|]. intros c. rewrite elem_of_list_to_set. auto.
Qed.

(** *** Roles *)
Ltac handler := unfold deny_if; cbv zeta; each_steps; first [apply each_audit_account | apply each_locked; [exact _|]; intros t n].

Lemma createRole_follows newid input : each follows (createRoleCompat p newid input).
Proof.
  unfold createRoleCompat. handler. eapply runs_bind; [apply runs_wrap, runs_sql|]. cbv beta. intros _ t1 [Hn ->]%insert_role_ok.
  apply runs_wrap. eapply runs_conseq; [apply assign_follows|]. cbv beta. intros _ t' [_ Ht]. eapply rtc_l; [by apply del_create_role|exact Ht].
Qed.
Lemma putRole_follows id input : each follows (putRole p id input).
Proof.
  unfold putRole. handler. eapply runs_bind; [apply runs_wrap, runs_sql|]. cbv beta. intros matched t1 Ht%update_role_ok.
  eapply checks_bind; [apply checks_if|]. cbv beta. intros _ Hm. bools. subst matched. destruct Ht as (r & Hr & _ & ->).
  apply runs_wrap. eapply runs_conseq; [apply assign_follows|]. cbv beta. intros _ t' [_ Ht]. eapply rtc_l; [|exact Ht]. by eapply del_describe_role.
Qed.
Lemma updateRole_follows id input : each follows (updateRole p id input).
Proof.
  unfold updateRole. handler. eapply checks_bind; [apply checks_wrap, role_target_checks|]. cbv beta. intros _ _.
  eapply runs_bind; [apply runs_wrap, runs_sql|]. cbv beta. intros matched t1 Ht%update_role_ok. apply runs_lift. intros _ _.
  destruct matched; [|by subst]. destruct Ht as (r & Hr & _ & ->). by eapply rtc_once, del_describe_role.
Qed.
Lemma replaceRolePermissions_follows id codes : each follows (replaceRolePermissions p id codes).
Proof.
  unfold replaceRolePermissions, validateRolePermissionMutation. handler.
  eapply (checks_bind _ _ _ _ (λ _, id ≠ protected_role ∧ role_codes id t ⊆ authority p t ∧ ∀ c, c ∈ codes → c ∈ authority p t)).
  { apply checks_wrap. eapply checks_bind; [apply role_target_checks|]. intros system (? & ? & _).
    eapply checks_weaken; [apply permissions_checks|]. cbv beta. by intros _ Hc. }
  cbv beta. intros _ (Hp & Hr & Hc). apply runs_wrap, (runs_statement_bind t n). simpl. eapply runs_conseq; [apply runs_grant_all|]. cbv beta.
  intros _ t' ->. rewrite regranted. apply rtc_once, del_grant; [done..|]. intros c. rewrite elem_of_list_to_set. auto.
Qed.
Lemma deleteRole_follows id : each follows (deleteRole p id).
Proof.
  unfold deleteRole. handler. eapply checks_bind; [apply checks_wrap, role_target_checks|]. cbv beta. intros system (Hp & Hr & _). eapply checks_bind; [apply checks_if|].
  intros _ _. apply runs_wrap_bind, (runs_statement_bind t n). apply runs_lift. intros _ _. unfold delete_role. destruct (ac_roles t !! id) as [r|]; [|done].
  destruct (rl_system r); [done|]. by apply rtc_once, del_delete_role.
Qed.

(** *** Users *)
Lemma resolve_checks t n raw : checks t n (resolveRoleIDs pg_lower first_row raw) (λ _, True).
Proof.
  unfold resolveRoleIDs. eapply (checks_bind _ _ _ _ (λ _, True)); [by apply runs_lift|]. intros roles _. induction roles as [|r roles IH]; simpl; [by apply runs_ret|].
  eapply checks_bind; [apply checks_wrap, checks_row|]. intros id _. eapply checks_bind; [exact IH|]. intros ids _. by apply runs_ret.
Qed.
Lemma load_checks t n id : checks t n (load_user id) (λ a, us_active <$> ac_users t !! id = Some a).
Proof. apply checks_wrap. exact (checks_row t n (λ t, us_active <$> ac_users t !! id)). Qed.
Lemma admin_checks t n id : checks t n (loads_roles id) (λ a, a = is_admin id t).
Proof. apply checks_wrap. exact (checks_read t n (is_admin id)). Qed.
Lemma keep_checks t n id next roles :
  checks t n (keep_admin id next roles) (λ _, id ∈ active_admins t → (next = true ∧ protected_role ∈ roles) ∨ (2 ≤ size (active_admins t))%nat).
Proof. apply checks_wrap, last_admin_checks. Qed.
Lemma forbidden_checks {A} t n (m : M adb A) P : checks t n m P → checks t n (wrapM forbidden m) P.
Proof. apply checks_wrap. Qed.
Lemma set_users_twice (id : string) a b t : set_users (<[id := b]>) (set_users (<[id := a]>) t) = set_users (<[id := b]>) t.
Proof. unfold set_users. simpl. by rewrite insert_insert, decide_True. Qed.
Lemma reassigned user roles t : joined user roles (delete_members user t) = reassign user (list_to_set roles) t.
Proof. done. Qed.

Lemma createUser_follows newid input : each follows (createUser pg_lower first_row bcrypt p newid input).
Proof.
  unfold createUser. handler. eapply checks_bind; [apply checks_wrap, resolve_checks|]. cbv beta. intros roles _.
  eapply checks_bind; [apply forbidden_checks, delegated_checks|]. cbv beta. intros _ Hr.
  eapply runs_bind; [apply runs_wrap, runs_sql|]. cbv beta. intros _ t1 [Hn ->]%insert_user_ok. apply runs_wrap. eapply runs_conseq; [apply runs_add_members|].
  cbv beta. intros _ t' ->. apply rtc_once, del_create_user; [done|]. intros r. rewrite elem_of_list_to_set. auto.
Qed.
Lemma edit_follows id u u' roles t :
  ac_users t !! id = Some u → us_subject u' = us_subject u → outranks p id t → (∀ r, r ∈ roles → may_give p t r) →
  (id ∈ active_admins t → (us_active u' = true ∧ protected_role ∈ roles) ∨ (2 ≤ size (active_admins t))%nat) →
  follows t (reassign id (list_to_set roles) (set_users (<[id := u']>) t)).
Proof.
  intros Hu Hs Ho Hr Hk. eapply rtc_once, del_edit_user; [done..| |].
  - intros r. rewrite elem_of_list_to_set. auto.
  - rewrite elem_of_list_to_set. auto.
Qed.
Lemma put_password_runs t n c id password u :
  ac_users t !! id = Some u →
  runs t n (put_password bcrypt c id password) (λ _ t', ∃ u', us_subject u' = us_subject u ∧ us_active u' = us_active u ∧ t' = set_users (<[id := u']>) t).
Proof.
  intros Hu. assert (t = set_users (<[id := u]>) t) as Ht by (unfold set_users; rewrite insert_id by done; by destruct t).
  unfold put_password. destruct (empty_str password); [apply runs_ret; by exists u|]. eapply checks_bind; [apply checks_if|]. intros _ _.
  eapply runs_bind; [apply runs_wrap, runs_sql|]. cbv beta. intros b t1 Hb%update_user_ok. apply runs_ret. destruct b; [|subst; by exists u].
  destruct Hb as (u0 & Hu0 & _ & ->). rewrite Hu in Hu0. injection Hu0 as <-. by exists (set_hash match bcrypt password with Ok hash => hash | Err _ => "" end u).
Qed.
Lemma putUser_follows id input : each follows (putUser pg_lower first_row bcrypt p id input).
Proof.
  unfold putUser. handler. eapply checks_bind; [apply checks_wrap, resolve_checks|]. cbv beta. intros roles _.
  eapply checks_bind; [apply forbidden_checks, delegated_checks|]. cbv beta. intros _ Hr. eapply checks_bind; [apply load_checks|]. intros active Hact.
  eapply checks_bind; [apply admin_checks|]. intros admin _. eapply checks_bind; [apply forbidden_checks, user_target_checks|]. cbv beta. intros _ Ho.
  eapply checks_bind; [apply checks_if|]. intros _ _. eapply checks_bind; [apply keep_checks|]. cbv beta. intros _ Hk.
  eapply runs_bind; [apply runs_wrap, runs_sql|]. cbv beta. intros matched t1 Ht%update_user_ok.
  eapply checks_bind; [apply checks_wrap, checks_if|]. cbv beta. intros _ Hm. bools. subst matched. destruct Ht as (u & Hu & _ & ->).
  eapply runs_bind; [apply put_password_runs; simpl; rewrite lookup_insert, decide_True by done; reflexivity|]. cbv beta. intros _ t2 (u' & Hs & Ha & ->). rewrite set_users_twice.
  apply runs_wrap_bind, (runs_statement_bind _ n). simpl. apply runs_wrap. eapply runs_conseq; [apply runs_add_members|]. cbv beta. intros _ t' ->.
  rewrite reassigned. apply (edit_follows _ u); [done..|]. rewrite Ha. done.
Qed.
Lemma updateUser_follows id input : each follows (updateUser p id input).
Proof.
  unfold updateUser. handler. eapply checks_bind; [apply load_checks|]. intros active Hact.
  eapply checks_bind; [apply forbidden_checks, user_target_checks|]. cbv beta. intros _ Ho.
  eapply checks_bind; [apply checks_wrap, checks_read|]. cbv beta. intros roles ->. eapply checks_bind; [apply keep_checks|]. cbv beta. intros _ Hk.
  eapply runs_bind; [apply runs_wrap, runs_sql|]. cbv beta. intros matched t1 Ht%update_user_ok. apply runs_lift. intros _ Hm%fail_if_ok. bools. subst matched.
  destruct Ht as (u & Hu & _ & ->). rewrite Hu in Hact. injection Hact as <-.
  assert (set_users (<[id:=patch_user input u]>) t = reassign id (list_to_set (in_order (user_roles id t))) (set_users (<[id:=patch_user input u]>) t)) as ->.
  { unfold reassign, set_members, set_users. simpl. f_equal. apply set_eq. intros [v r]. rewrite elem_of_union, elem_of_pair_map, elem_of_list_to_set, elem_of_in_order, elem_of_user_roles, elem_of_filter.
    simpl. destruct (decide (v = id)); naive_solver. }
  apply (edit_follows _ u); [done..| |exact Hk]. intros r Hr. rewrite elem_of_in_order, elem_of_user_roles in Hr. split.
  - intros c Hc. apply Ho, elem_of_user_codes. exists r. by rewrite <- elem_of_role_codes.
  - intros ->. apply Ho. unfold is_admin. by apply bool_decide_eq_true.
Qed.
Lemma replaceUserRoles_follows id roles : each follows (replaceUserRoles p id roles).
Proof.
  unfold replaceUserRoles. handler. eapply checks_bind; [apply load_checks|]. intros active Hact. eapply checks_bind; [apply admin_checks|]. intros admin _.
  eapply checks_bind; [apply forbidden_checks, user_target_checks|]. cbv beta. intros _ Ho. eapply checks_bind; [apply forbidden_checks, delegated_checks|]. cbv beta. intros _ Hr.
  eapply checks_bind; [apply checks_if|]. intros _ _. eapply checks_bind; [apply keep_checks|]. cbv beta. intros _ Hk.
  apply runs_wrap, (runs_statement_bind t n). simpl. eapply runs_conseq; [apply runs_add_members|]. cbv beta. intros _ t' ->. rewrite reassigned.
  destruct (ac_users t !! id) as [u|] eqn:Hu; [|done]. injection Hact as <-.
  assert (t = set_users (<[id := u]>) t) as Ht by (unfold set_users; rewrite insert_id by done; by destruct t). rewrite Ht at 2. by apply (edit_follows _ u).
Qed.
End refine.
