(* ===== verification/NetIP.v ===== *)
(** * Internet addresses (packages net and net/netip)

    Addresses, their text forms and prefixes, as far as the backend uses them.
    A zero [netip.Addr] is [None]. *)
From S2P Require Import Prelude GoIO GoString GoPath OS Encoding Model Db Store.

Inductive addr := V4 (n : Z) | V6 (n : Z) (zone : string).
#[export] Instance addr_eq_dec : EqDecision addr.
Proof. solve_decision. Defined.

(** ** Text forms *)
(** One decimal field: no leading zero, at most 255. *)
Definition octet (s : string) : option Z :=
  n ← parse_uint 64 s;
  if (255 <? n) || ((1 <? slen s) && has_prefix s "0") then None else Some n.
Definition parse_ipv4 (s : string) : option Z :=
  match split_byte "."%char s with
  | [a; b; c; d] => a ← octet a; b ← octet b; c ← octet c; d ← octet d; Some (((a * 256 + b) * 256 + c) * 256 + d)
  | _ => None
  end.
Definition hex_digit_of (c : ascii) : option Z := hex_value c.
(** The hexadecimal digits at the front: their value, their number, the rest. *)
Fixpoint hex_run (l : list ascii) (acc : Z) (off : nat) : Z * nat * list ascii :=
  match l with
  | c :: l' => match hex_digit_of c with Some d => hex_run l' (16 * acc + d) (S off) | None => (acc, off, l) end
  | [] => (acc, off, [])
  end.
(** The sixteen-bit groups; [ellipsis] is the number of groups before ["::"]. *)
Fixpoint ipv6_groups (fuel : nat) (l : list ascii) (groups : list Z) (ellipsis : option nat) : option (list Z * option nat) :=
  match fuel with
  | O => match l with [] => Some (groups, ellipsis) | _ => None end
  | S fuel =>
      let '(acc, off, rest) := hex_run l 0 0 in
      if (off =? 0)%nat || (4 <? off)%nat then None else
      match rest with
      | c :: rest' =>
          if is_char "."%char c then
            if (bool_decide (ellipsis = None) && negb (length groups =? 6)%nat) || (6 <? length groups)%nat then None else
            v ← parse_ipv4 (of_chars l); Some (groups ++ [v / 65536; v mod 65536], ellipsis)
          else if negb (is_char ":"%char c) then None else
          let groups := groups ++ [acc] in
          match rest' with
          | [] => None
          | d :: rest'' =>
              if is_char ":"%char d then
                if bool_decide (is_Some ellipsis) then None else
                match rest'' with [] => Some (groups, Some (length groups)) | _ => ipv6_groups fuel rest'' groups (Some (length groups)) end
              else ipv6_groups fuel rest' groups ellipsis
          end
      | [] => Some (groups ++ [acc], ellipsis)
      end
  end.
Definition groups_value (groups : list Z) : Z := foldl (λ n g, n * 65536 + g) 0 groups.
Definition expand_groups (groups : list Z) (ellipsis : option nat) : option Z :=
  match ellipsis with
  | None => if (length groups =? 8)%nat then Some (groups_value groups) else None
  | Some i => if (length groups <? 8)%nat
              then Some (groups_value (take i groups ++ replicate (8 - length groups) 0 ++ drop i groups)) else None
  end.
Definition parse_ipv6 (s : string) : option addr :=
  '(text, zone) ← match index_byte "%"%char s with
                  | Some i => let zone := drop_str (S i) s in if empty_str zone then None else Some (take_str i s, zone)
                  | None => Some (s, "")
                  end;
  let l := chars text in
  match l with
  | a :: b :: l' =>
      if is_char ":"%char a && is_char ":"%char b then
        match l' with
        | [] => Some (V6 0 zone)
        | _ => '(groups, ellipsis) ← ipv6_groups 8 l' [] (Some 0%nat); n ← expand_groups groups ellipsis; Some (V6 n zone)
        end
      else '(groups, ellipsis) ← ipv6_groups 8 l [] None; n ← expand_groups groups ellipsis; Some (V6 n zone)
  | _ => None
  end.
(** [netip.ParseAddr]: the first of [.], [:] and [%] decides. *)
Fixpoint address_kind (l : list ascii) : option ascii :=
  match l with
  | c :: l => if existsb (λ d, is_char d c) ["."%char; ":"%char; "%"%char] then Some c else address_kind l
  | [] => None
  end.
Definition ParseAddr (s : string) : option addr :=
  match address_kind (chars s) with
  | Some "."%char => V4 <$> parse_ipv4 s
  | Some ":"%char => parse_ipv6 s
  | _ => None
  end.

(** ** Prefixes *)
Record prefix := { px_addr : addr; px_bits : Z }.
Definition bit_len (a : addr) : Z := match a with V4 _ => 32 | V6 _ _ => 128 end.
Definition without_zone (a : addr) : addr := match a with V6 n _ => V6 n "" | V4 _ => a end.
Definition mask (width bits n : Z) : Z := Z.shiftl (Z.shiftr n (width - bits)) (width - bits).
(** [Prefix.Masked]. *)
Definition masked (p : prefix) : prefix :=
  {| px_addr := match px_addr p with V4 n => V4 (mask 32 (px_bits p) n) | V6 n _ => V6 (mask 128 (px_bits p) n) "" end; px_bits := px_bits p |}.
(** [Prefix.Contains]: families do not mix, and an address with a zone is in none. *)
Definition px_contains (p : prefix) (a : addr) : bool :=
  match px_addr p, a with
  | V4 m, V4 n => Z.shiftr m (32 - px_bits p) =? Z.shiftr n (32 - px_bits p)
  | V6 m _, V6 n "" => Z.shiftr m (128 - px_bits p) =? Z.shiftr n (128 - px_bits p)
  | _, _ => false
  end.
(** [netip.ParsePrefix]: the last slash, no zone, a number of bits without sign
    or leading zero. *)
Definition ParsePrefix (s : string) : option prefix :=
  let i := last_index_byte slash s in
  if i <? 0 then None else
  ip ← ParseAddr (take_str (Z.to_nat i) s);
  let digits := drop_str (S (Z.to_nat i)) s in
  bits ← parse_uint 63 digits;
  match ip with
  | V6 _ (String _ _) => None
  | _ => if ((1 <? slen digits) && has_prefix digits "0") || (bit_len ip <? bits) then None else Some {| px_addr := ip; px_bits := bits |}
  end.
(** [Addr.Unmap], [Addr.IsLoopback]. *)
Definition unmap (a : addr) : addr :=
  match a with V6 n _ => if Z.shiftr n 32 =? 65535 then V4 (Z.land n (2 ^ 32 - 1)) else a | V4 _ => a end.
Definition is_loopback (a : addr) : bool :=
  match unmap a with V4 n => Z.shiftr n 24 =? 127 | V6 n _ => n =? 1 end.
(** [IsPrivate], [IsLinkLocalUnicast], [IsLinkLocalMulticast], [IsUnspecified]. *)
Definition is_private (a : addr) : bool :=
  match unmap a with
  | V4 n => (Z.shiftr n 24 =? 10) || (Z.shiftr n 20 =? 2753) || (Z.shiftr n 16 =? 49320)
  | V6 n _ => Z.shiftr n 121 =? 126
  end.
Definition is_link_local (a : addr) : bool :=
  match unmap a with
  | V4 n => (Z.shiftr n 16 =? 43518) || (Z.shiftr n 8 =? 14680064)
  | V6 n _ => (Z.shiftr n 118 =? 1018) || (Z.land (Z.shiftr n 112) 65295 =? 65282)
  end.
Definition is_unspecified (a : addr) : bool := match a with V4 n => n =? 0 | V6 n zone => (n =? 0) && empty_str zone end.

Example parse_addresses : ParseAddr <$> ["10.0.0.1"; "::1"; "fe80::1%eth0"; "::ffff:10.0.0.1"; "1:2:3:4:5:6:7:8"; "01.2.3.4"; "1::2::3"; "1:2:3:4:5:6:7"; "10.0.0"; "1::"; "::"; "1:2:3:4:5:6:7::"; ":1::2"; "12345::"]
  = [Some (V4 167772161); Some (V6 1 ""); Some (V6 338288524927261089654018896841347694593 "eth0"); Some (V6 281470849515521 ""); Some (V6 5192455318486707404433266433261576 "");
     None; None; None; None; Some (V6 5192296858534827628530496329220096 ""); Some (V6 0 ""); Some (V6 5192455318486707404433266433261568 ""); None; None].
Proof. vm_compute. reflexivity. Qed.
Example contains_addresses : (λ s, p ← ParsePrefix "10.1.0.0/16"; a ← ParseAddr s; Some (px_contains p a, px_contains p (unmap a))) <$> ["10.1.2.3"; "10.2.0.1"; "::ffff:10.1.2.3"]
  = [Some (true, true); Some (false, false); Some (false, true)].
Proof. vm_compute. reflexivity. Qed.

(** ** Host and port *)
(** [net.SplitHostPort]. *)
Definition split_host_port (s : string) : option (string * string) :=
  let i := last_index_byte ":"%char s in
  if i <? 0 then None else
  let port := drop_str (S (Z.to_nat i)) s in
  if has_prefix s "[" then
    e ← index_byte "]"%char s;
    if negb (Z.of_nat (S e) =? i) then None else
    if contains_byte "["%char (drop_str 1 s) || contains_byte "]"%char (drop_str (S e) s) then None else
    Some (take_str (e - 1) (drop_str 1 s), port)
  else
    let host := take_str (Z.to_nat i) s in
    if contains_byte ":"%char host || contains_byte "["%char s || contains_byte "]"%char s then None else Some (host, port).
Example split_hosts : split_host_port <$> ["10.0.0.1:80"; "[::1]:8080"; "::1"; "host"; "[::1]"; "a[b:1"]
  = [Some ("10.0.0.1", "80"); Some ("::1", "8080"); None; None; None; None].
Proof. vm_compute. reflexivity. Qed.
