(* ===== verification/Limiter.v ===== *)
(** * The login limiter (backend/internal/server/server.go)

    Failed logins are counted per address and name in a map under a mutex.  Every
    operation is one critical section at one reading of the clock (milliseconds);
    the order in which Go walks the map is a parameter. *)
From S2P Require Import Prelude GoIO GoString OS Model Db Store.

(** A zero [time.Time] is [None]. *)
(* src: backend/internal/server/server.go:580-585 loginAttempt *)
Record loginAttempt := { at_count : Z; at_until : option Z; at_window : option Z; at_seen : Z }.
(** The field [attempts] of the limiter; its mutex is what makes every operation one step. *)
Abbreviation attempts := (gmap string loginAttempt).
(* src: backend/internal/server/server.go:587-590 loginLimiter *)
Definition loginLimiter : Type := attempts.
(* src: backend/internal/server/server.go:592-592 newLoginLimiter *)
Definition newLoginLimiter : loginLimiter := ∅.
Definition minutes (n : Z) : Z := n * 60000.
(* src: backend/internal/server/server.go:595-595 limiterEntryTTL *)
Definition limiterEntryTTL : Z := minutes 15.
(* src: backend/internal/server/server.go:596-596 limiterMaxKeys *)
Definition limiterMaxKeys : Z := 4096.
(** The entry that Go reads where the map has none. *)
Definition attempt_of (key : string) (l : attempts) : loginAttempt :=
  default {| at_count := 0; at_until := None; at_window := None; at_seen := 0 |} (l !! key).

Section limiter.
Context (range : attempts → list (string * loginAttempt)).

(** Idle and not blocked. *)
Definition stale (now : Z) (a : loginAttempt) : bool :=
  (limiterEntryTTL <? now - at_seen a) && match at_until a with Some u => u <? now | None => true end.
Definition older (best : string * Z) (ka : string * loginAttempt) : string * Z :=
  if empty_str best.1 || (at_seen ka.2 <? best.2) then (ka.1, at_seen ka.2) else best.
Fixpoint evict (fuel : nat) (l : attempts) : attempts :=
  match fuel with
  | O => l
  | S fuel =>
      if Z.of_nat (size l) <? limiterMaxKeys then l else
      let '(oldestKey, _) := foldl older ("", 0) (range l) in
      if empty_str oldestKey then l else evict fuel (delete oldestKey l)
  end.
(** Every round of the second loop removes an entry. *)
(* src: backend/internal/server/server.go:599-618 (loginLimiter).maintain *)
Definition maintain (now : Z) (l : attempts) : attempts :=
  let l := filter (λ ka, stale now ka.2 = false) l in evict (size l) l.
(* src: backend/internal/server/server.go:620-635 (loginLimiter).allowed *)
Definition allowed (now : Z) (key : string) (l : attempts) : bool * attempts :=
  let l := maintain now l in
  let a := attempt_of key l in
  match at_until a with
  | Some u =>
      if now <? u then (false, <[key := {| at_count := at_count a; at_until := at_until a; at_window := at_window a; at_seen := now |}]> l)
      else (true, delete key l)
  | None => (true, l)
  end.
(* src: backend/internal/server/server.go:637-650 (loginLimiter).failure *)
Definition failure (now : Z) (key : string) (l : attempts) : attempts :=
  let l := maintain now l in
  let a := attempt_of key l in
  let count := at_count a + 1 in
  let blocked := 5 <=? count in
  <[key := {| at_count := if blocked then 0 else count; at_until := if blocked then Some (now + minutes 5) else at_until a;
              at_window := at_window a; at_seen := now |}]> l.
(* src: backend/internal/server/server.go:652-652 (loginLimiter).success *)
Definition success (key : string) (l : attempts) : attempts := delete key l.
(* src: backend/internal/server/server.go:654-668 (loginLimiter).consume *)
Definition consume (now : Z) (key : string) (limit window : Z) (l : attempts) : bool * attempts :=
  let l := maintain now l in
  let a := attempt_of key l in
  let fresh := match at_window a with Some start => window <=? now - start | None => true end in
  let count := (if fresh then 0 else at_count a) + 1 in
  (count <=? limit, <[key := {| at_count := count; at_until := at_until a; at_window := if fresh then Some now else at_window a; at_seen := now |}]> l).

(** ** Any use of the limiter *)
Inductive limiter_op := Allowed (key : string) | Failure (key : string) | Success (key : string) | Consume (key : string) (limit window : Z).
Definition op_key (op : limiter_op) : string := match op with Allowed k | Failure k | Success k | Consume k _ _ => k end.
Definition run_op (now : Z) (op : limiter_op) (l : attempts) : attempts :=
  match op with
  | Allowed k => (allowed now k l).2
  | Failure k => failure now k l
  | Success k => success k l
  | Consume k limit window => (consume now k limit window l).2
  end.
(** What happens to the limiter: a login for [key] asks whether its password may
    be looked at; the password of one that may turns out wrong or right, later
    and in any order among those being compared; and anything about other keys.
    Each is a critical section of its own; the comparison is between them. *)
Inductive event := Ask | Wrong | Correct | Other (op : limiter_op).
Definition event_op (key : string) (e : event) : limiter_op :=
  match e with Ask => Allowed key | Wrong => Failure key | Correct => Success key | Other op => op end.
(** The limiter, the passwords for [key] being compared, and those looked at
    since the last right one. *)
Record gate := { g_entries : attempts; g_comparing : nat; g_looked_at : nat }.
(** No more than [c] passwords are compared at a time, and only one that is
    being compared turns out wrong or right. *)
Definition happen (c : nat) (key : string) (now : Z) (e : event) (g : gate) : option gate :=
  let l := run_op now (event_op key e) (g_entries g) in
  match e, g_comparing g with
  | Ask, f =>
      if (allowed now key (g_entries g)).1
      then if (f <? c)%nat then Some {| g_entries := l; g_comparing := S f; g_looked_at := S (g_looked_at g) |} else None
      else Some {| g_entries := l; g_comparing := f; g_looked_at := g_looked_at g |}
  | Wrong, S f => Some {| g_entries := l; g_comparing := f; g_looked_at := g_looked_at g |}
  | Correct, S f => Some {| g_entries := l; g_comparing := f; g_looked_at := 0 |}
  | Wrong, O | Correct, O => None
  | Other _, f => Some {| g_entries := l; g_comparing := f; g_looked_at := g_looked_at g |}
  end.
Fixpoint happens (c : nat) (key : string) (events : list (Z * event)) (g : gate) : option gate :=
  match events with
  | [] => Some g
  | (now, e) :: events => g ← happen c key now e g; happens c key events g
  end.

(** ** The number of entries *)
Context (range_ok : ∀ l, range l ≡ₚ map_to_list l).
Lemma older_key best l : best.1 ≠ "" ∨ l ≠ [] → Forall (λ ka : string * loginAttempt, ka.1 ≠ "") l →
  (foldl older best l).1 ≠ "" ∧ ((foldl older best l).1 = best.1 ∨ (foldl older best l).1 ∈ l.*1).
Proof.
  revert best. induction l as [|[k a] l IH]; intros best Hb Hl; simpl; [naive_solver|]. inversion Hl as [|? ? Hk Hl']; subst. simpl in Hk.
  assert ((older best (k, a)).1 = best.1 ∧ best.1 ≠ "" ∨ (older best (k, a)).1 = k) as Ho.
  { unfold older, empty_str. case_bool_decide as Hb1; simpl; [by right|]. destruct (_ <? _); [by right|by left]. }
  destruct (IH (older best (k, a))) as [H1 H2]; [left; destruct Ho as [[-> ?]| ->]; done|done|]. split; [done|].
  destruct H2 as [->|H2]; [|right; by apply list_elem_of_further]. destruct Ho as [[-> _]| ->]; [by left|right; by left].
Qed.
Lemma evict_small fuel l : (size l ≤ fuel)%nat → l !! "" = None → Z.of_nat (size (evict fuel l)) < limiterMaxKeys ∧ evict fuel l ⊆ l.
Proof.
  revert l. induction fuel as [|fuel IH]; intros l Hs He; cbn [evict].
  - split; [unfold limiterMaxKeys; lia|done].
  - destruct (Z.ltb_spec (Z.of_nat (size l)) limiterMaxKeys); [done|].
    destruct (foldl older ("", 0) (range l)) as [k z] eqn:E.
    assert (range l ≠ []) as Hne by (intros Hr; pose proof (range_ok l) as Hp; rewrite Hr in Hp; apply Permutation_nil in Hp; apply map_to_list_empty_iff in Hp; subst; rewrite map_size_empty in *; unfold limiterMaxKeys in *; lia).
    destruct (older_key ("", 0) (range l)) as [Hk Hin]; [by right| |].
    { rewrite range_ok. apply Forall_forall. intros [k' a] Hin%elem_of_map_to_list. simpl. intros ->. congruence. }
    rewrite E in Hk, Hin. simpl in Hk, Hin. destruct Hin as [|Hin]; [done|]. rewrite range_ok in Hin. apply list_elem_of_fmap in Hin as ([k' a] & -> & Hka%elem_of_map_to_list). simpl in *.
    unfold empty_str. rewrite bool_decide_false by done. destruct (IH (delete k' l)) as [H1 H2].
    + rewrite map_size_delete_Some by by eexists. lia.
    + rewrite lookup_delete_ne; done.
    + split; [done|]. etrans; [exact H2|]. apply delete_subseteq.
Qed.
Lemma maintain_small now l : l !! "" = None → Z.of_nat (size (maintain now l)) < limiterMaxKeys ∧ maintain now l ⊆ filter (λ ka, stale now ka.2 = false) l.
Proof. intros He. unfold maintain. cbv zeta. apply evict_small; [done|]. apply map_lookup_filter_None. by left. Qed.

Lemma maintain_roomy now l : Z.of_nat (size l) < limiterMaxKeys → maintain now l = filter (λ ka, stale now ka.2 = false) l.
Proof.
  intros Hs. unfold maintain. cbv zeta. set (m := filter _ l). assert (size m ≤ size l)%nat as Hm by apply map_size_filter.
  destruct (size m) as [|k] eqn:E; [done|]. cbn [evict]. destruct (Z.ltb_spec (Z.of_nat (size m)) limiterMaxKeys); [done|lia].
Qed.

(** ** Guesses in five minutes *)
Section guesses.
Context (key : string) (w0 : Z) (c : nat).
(** The entry counts [n] wrong passwords since [w0]. *)
Definition counts (n : nat) (o : option loginAttempt) : Prop :=
  match o with
  | Some a => 0 ≤ at_count a ∧ at_until a = None ∧ Z.of_nat n ≤ at_count a ∧ (n ≤ 4)%nat ∧ (n = 0%nat ∨ w0 ≤ at_seen a)
  | None => n = 0%nat
  end.
(** The entry blocks [key] for the five minutes from [w0]. *)
Definition blocks (o : option loginAttempt) : Prop :=
  match o with
  | Some a => 0 ≤ at_count a ∧ match at_until a with Some u => w0 + minutes 5 ≤ u | None => False end
  | None => False
  end.
Definition proper (o : option loginAttempt) : Prop := match o with Some a => 0 ≤ at_count a | None => True end.
(** Nothing was looked at, or all that was is being compared or counted, or the
    key is blocked. *)
Definition tally (g_comparing g_looked_at : nat) (o : option loginAttempt) : Prop :=
  (g_looked_at = 0%nat ∧ proper o)
  ∨ (∃ n, (g_looked_at ≤ g_comparing + n)%nat ∧ (g_looked_at ≤ 4 + c)%nat ∧ counts n o)
  ∨ ((g_looked_at ≤ 4 + c)%nat ∧ blocks o).

Lemma maintain_lookup now l : Z.of_nat (size l) < limiterMaxKeys →
  maintain now l !! key = l !! key ≫= λ a, if stale now a then None else Some a.
Proof.
  intros Hs. rewrite maintain_roomy by done. destruct (l !! key) as [a|] eqn:Ha; simpl; [|by apply map_lookup_filter_None_2; left].
  destruct (stale now a) eqn:E; [|by apply map_lookup_filter_Some_2].
  apply map_lookup_filter_None_2. right. intros b Hb. rewrite Ha in Hb. injection Hb as <-. simpl. congruence.
Qed.
Lemma maintain_tally f n now l :
  Z.of_nat (size l) < limiterMaxKeys → w0 ≤ now < w0 + minutes 5 → tally f n (l !! key) → tally f n (maintain now l !! key).
Proof.
  intros Hs Hn Ht. rewrite maintain_lookup by done. destruct (l !! key) as [a|] eqn:Ha; [|done]. simpl.
  destruct (stale now a) eqn:Hst; [|done]. unfold stale, limiterEntryTTL in Hst. bools.
  destruct Ht as [[-> _]|[(m & Hm & Hb & Hc)|[_ Hb]]]; [by left| |].
  - destruct Hc as (_ & _ & _ & _ & [->|Hw]); [right; left; by exists 0%nat|unfold minutes in *; lia].
  - destruct Hb as [_ Hb]. destruct (at_until a); [|done]. bools. lia.
Qed.
Lemma other_entry now op l : Z.of_nat (size l) < limiterMaxKeys → op_key op ≠ key →
  run_op now op l !! key = l !! key ∨ run_op now op l !! key = maintain now l !! key.
Proof.
  intros Hs Hk. destruct op as [k|k|k|k limit window]; simpl in Hk |- *.
  - unfold allowed. cbv zeta. right. destruct (at_until _) as [u|]; [|done]. destruct (now <? u); simpl; [by rewrite lookup_insert_ne|by rewrite lookup_delete_ne].
  - right. unfold failure. cbv zeta. by rewrite lookup_insert_ne.
  - left. unfold success. by rewrite lookup_delete_ne.
  - right. unfold consume. cbv zeta. simpl. by rewrite lookup_insert_ne.
Qed.
(** A login that asks: a blocked key stays so, any other is let in with its
    entry removed or not blocking. *)
Lemma asked_tally f n now l :
  Z.of_nat (size l) < limiterMaxKeys → w0 ≤ now < w0 + minutes 5 → (f ≤ c)%nat → tally f n (l !! key) →
  let '(ok, l') := allowed now key l in
  if ok then (f < c)%nat → tally (S f) (S n) (l' !! key) else tally f n (l' !! key).
Proof.
  intros Hs Hn Hf Ht. apply (maintain_tally f n now l Hs Hn) in Ht. unfold allowed. cbv zeta. unfold attempt_of.
  set (m := maintain now l) in *. clearbody m. destruct (m !! key) as [a|] eqn:Ha; cbn [default from_option id at_until].
  - destruct (at_until a) as [u|] eqn:Hu.
    + destruct (Z.ltb_spec now u).
      * rewrite lookup_insert, decide_True by done. destruct Ht as [[-> Hp]|[(k & _ & _ & _ & Hc & _)|[Hb Hbl]]]; [by left|congruence|].
        right. right. split; [done|]. simpl in *. by rewrite Hu in *.
      * intros Hc. rewrite lookup_delete, decide_True by done. right. left. exists 0%nat.
        destruct Ht as [[-> Hp]|[(k & _ & _ & _ & Hk & _)|[Hb [_ Hbl]]]]; [simpl; lia|congruence|rewrite Hu in Hbl; lia].
    + intros Hc. rewrite Ha. right. left. destruct Ht as [[-> Hp]|[(k & Hk & _ & Hcount)|[Hb [_ Hbl]]]]; [| |by rewrite Hu in Hbl].
      * exists 0%nat. simpl in *. rewrite Hu. split_and!; [lia..|done|lia|lia|by left].
      * exists k. destruct Hcount as (? & ? & ? & ? & ?). simpl. split_and!; (lia || done).
  - intros Hc. rewrite Ha. right. left. exists 0%nat. destruct Ht as [[-> _]|[(k & Hk & _ & ->)|[_ []]]]; simpl; lia.
Qed.
Lemma wrong_tally f n now l :
  Z.of_nat (size l) < limiterMaxKeys → w0 ≤ now < w0 + minutes 5 → (S f ≤ c)%nat → tally (S f) n (l !! key) →
  tally f n (failure now key l !! key).
Proof.
  intros Hs Hn Hf Ht. apply (maintain_tally (S f) n now l Hs Hn) in Ht. unfold failure. cbv zeta. rewrite lookup_insert, decide_True by done.
  unfold attempt_of. set (m := maintain now l) in *. clearbody m. unfold tally, counts, blocks, proper.
  cbn [at_count at_until at_window at_seen]. destruct (m !! key) as [a|]; cbn [default from_option id at_count at_until at_seen].
  - destruct Ht as [[-> Hp]|[(k & Hk & Hb & Hc & Hu & Hk2 & Hk3 & _)|[Hb [Hc Hbl]]]].
    + left. split; [done|]. simpl in Hp. destruct (5 <=? _); lia.
    + destruct (Z.leb_spec 5 (at_count a + 1)); right; [right; split; [done|lia]|]. left. exists (S k). rewrite Hu. split_and!; lia || done || by right; lia.
    + right. right. split; [done|]. destruct (5 <=? _); [lia|]. split; [lia|done].
  - destruct Ht as [[-> _]|[(k & Hk & Hb & ->)|[_ []]]]; [left; split; [done|simpl; lia]|]. simpl. right. left. exists 1%nat. split_and!; lia || done || by right; lia.
Qed.
Lemma success_entry l : success key l !! key = None.
Proof. unfold success. by rewrite lookup_delete, decide_True. Qed.
Lemma happen_tally now e g g' :
  Z.of_nat (size (g_entries g)) < limiterMaxKeys → w0 ≤ now < w0 + minutes 5 →
  match e with Other op => op_key op ≠ key | _ => True end →
  (g_comparing g ≤ c)%nat ∧ tally (g_comparing g) (g_looked_at g) (g_entries g !! key) → happen c key now e g = Some g' →
  (g_comparing g' ≤ c)%nat ∧ tally (g_comparing g') (g_looked_at g') (g_entries g' !! key).
Proof.
  intros Hs Hn He [Hf Ht] Hg. destruct e as [| | |op]; simpl in Hg.
  - pose proof (asked_tally _ _ now _ Hs Hn Hf Ht) as Ha. destruct (allowed now key (g_entries g)) as [[] l']; simpl in *; [|by simplify_eq].
    destruct (Nat.ltb_spec (g_comparing g) c); simplify_eq. split; [simpl; lia|by apply Ha].
  - destruct (g_comparing g) as [|f] eqn:E; simplify_eq. split; [simpl; lia|]. by apply wrong_tally.
  - destruct (g_comparing g) as [|f] eqn:E; simplify_eq. split; [simpl; lia|]. left. split; [done|].
    simpl. by rewrite success_entry.
  - destruct (g_comparing g) eqn:E; simplify_eq; (split; [simpl in *; lia|]); simpl;
      (destruct (other_entry now op _ Hs He) as [-> | ->]; [done|by apply maintain_tally]).
Qed.
End guesses.

(** Where entries come from. *)
Lemma maintain_dom now l : l !! "" = None → dom (maintain now l) ⊆ dom l.
Proof. intros He. destruct (maintain_small now l He) as [_ Hs]. apply subseteq_dom. etrans; [exact Hs|]. apply map_filter_subseteq. Qed.
Lemma run_op_dom now op l : l !! "" = None → dom (run_op now op l) ⊆ {[ op_key op ]} ∪ dom l.
Proof.
  intros He. pose proof (maintain_dom now l He) as Hm.
  destruct op as [k|k|k|k limit window]; simpl.
  - unfold allowed. cbv zeta. destruct (at_until _) as [u|]; [destruct (now <? u)|]; simpl; rewrite ?dom_insert_L, ?dom_delete_L; set_solver.
  - unfold failure. cbv zeta. rewrite dom_insert_L. set_solver.
  - unfold success. rewrite dom_delete_L. set_solver.
  - unfold consume. cbv zeta. simpl. rewrite dom_insert_L. set_solver.
Qed.
Lemma run_op_bounded now op l :
  l !! "" = None → op_key op ≠ "" → Z.of_nat (size l) ≤ limiterMaxKeys → run_op now op l !! "" = None ∧ Z.of_nat (size (run_op now op l)) ≤ limiterMaxKeys.
Proof.
  intros He Hk Hs. split.
  - apply not_elem_of_dom. intros Hin. apply run_op_dom in Hin; [|done]. apply not_elem_of_dom in He. set_solver.
  - destruct (maintain_small now l He) as [Hm _]. destruct op as [k|k|k|k limit window]; simpl in *.
    + unfold allowed. cbv zeta. unfold attempt_of. destruct (maintain now l !! k) as [a|] eqn:Ha; simpl; [|lia]. destruct (at_until a) as [u|]; [|unfold limiterMaxKeys in *; simpl; lia].
      destruct (now <? u); simpl; [rewrite map_size_insert, Ha; unfold limiterMaxKeys in *; simpl; lia|rewrite map_size_delete, Ha; unfold limiterMaxKeys in *; simpl; lia].
    + unfold failure. cbv zeta. rewrite map_size_insert. destruct (_ !! k); unfold limiterMaxKeys in *; simpl; lia.
    + unfold success. rewrite map_size_delete. destruct (_ !! k); simpl; [|done]. pose proof (Nat.le_pred_l (size l)). lia.
    + unfold consume. cbv zeta. simpl. rewrite map_size_insert. destruct (_ !! k); unfold limiterMaxKeys in *; simpl; lia.
Qed.
Lemma happen_entries c key now e g g' : happen c key now e g = Some g' → g_entries g' = run_op now (event_op key e) (g_entries g).
Proof. unfold happen. repeat case_match; intros; simplify_eq; done. Qed.
Lemma happens_tally (K : gset string) key w0 c events g g' :
  "" ∉ K → key ∈ K → dom (g_entries g) ⊆ K → Z.of_nat (size K) < limiterMaxKeys →
  Forall (λ e : Z * event, w0 ≤ e.1 < w0 + minutes 5 ∧ match e.2 with Other op => op_key op ∈ K ∧ op_key op ≠ key | _ => True end) events →
  (g_comparing g ≤ c)%nat ∧ tally w0 c (g_comparing g) (g_looked_at g) (g_entries g !! key) → happens c key events g = Some g' →
  tally w0 c (g_comparing g') (g_looked_at g') (g_entries g' !! key).
Proof.
  intros HK Hkey Hdom Hsize Hev. revert g Hdom. induction Hev as [|[now e] events [Ht He] _ IH]; intros g Hdom Hg Hr; [simpl in Hr; simplify_eq; apply Hg|].
  cbn [happens fst snd] in *. apply bind_Some in Hr as (g1 & H1 & Hr).
  assert (g_entries g !! "" = None) as Hl by (apply not_elem_of_dom; set_solver).
  assert (Z.of_nat (size (g_entries g)) < limiterMaxKeys) as Hs by (rewrite <- size_dom; apply subseteq_size in Hdom; lia).
  apply (IH g1); [|apply (happen_tally key w0 c now e g g1); try done; by destruct e; try apply He|done].
  rewrite (happen_entries _ _ _ _ _ _ H1). pose proof (run_op_dom now (event_op key e) (g_entries g) Hl). destruct e; set_solver.
Qed.
End limiter.

(** One at a time the sixth password is refused, and looked at after the block;
    of seven logins of which three ask after four wrong passwords, all are let in. *)
Definition one_at_a_time : list (Z * event) :=
  concat ((λ t, [(t, Ask); (t + 100, Wrong)]) <$> [0; 10000; 20000; 30000; 40000]) ++ [(50000, Ask); (60000, Ask)].
Definition three_at_once : list (Z * event) :=
  concat ((λ t, [(t, Ask); (t + 100, Wrong)]) <$> [0; 10000; 20000; 30000]) ++ [(40000, Ask); (40001, Ask); (40002, Ask); (40100, Wrong); (40101, Ask)].
Definition looked_at (c : nat) (events : list (Z * event)) : option nat :=
  g_looked_at <$> happens map_to_list c "login-user:10.0.0.9:admin" events {| g_entries := ∅; g_comparing := 0; g_looked_at := 0 |}.
