(* ===== verification/Network.v ===== *)
(** * Network policy (backend/internal/server/network.go, public_http.go)

    Which address a request comes from, whether administration is allowed from
    there, and the origin the portal is reached under.  [server] is the process:
    its database, its login limiter and its cache of the network settings. *)
From S2P Require Import Prelude GoIO GoString GoPath OS Encoding Sha256 Model Db Store Backend Crypto Vault Runtime Accounts Rbac NetIP Limiter.

(* src: backend/internal/server/network.go:19-27 networkSettings *)
Record networkSettings := {
  ns_AdminAllowlistEnabled : bool; ns_AdminAllowlist : list string; ns_TrustedProxies : list string;
  ns_adminPrefixes : list prefix; ns_proxyPrefixes : list prefix
}.
Record server := Server { sv_db : adb; sv_limiter : loginLimiter; sv_cache : option (networkSettings * Z) }.
Definition on_db {A} (m : M adb A) : M server A := λ w, let '(r, d) := m (sv_db w) in (r, Server d (sv_limiter w) (sv_cache w)).
Definition on_limiter {A} (f : loginLimiter → A * loginLimiter) : M server A := λ w,
  let '(a, l) := f (sv_limiter w) in (Ok a, Server (sv_db w) l (sv_cache w)).
Definition set_cache (c : option (networkSettings * Z)) : M server unit := λ w, (Ok (), Server (sv_db w) (sv_limiter w) c).
Definition denied {A} (status : Z) (code message : string) : M server A := throw (writeError status code message).

(** What the handlers read of a request: headers, the cookies of the session
    and of the sign-in, [r.TLS], and the clock of the process (milliseconds). *)
Record http_request := {
  hq_Method : string; hq_Path : string; hq_RemoteAddr : string; hq_Host : string; hq_TLS : bool; hq_Header : string → string;
  hq_Session : option string; hq_StateCookie : option string; hq_Query : string → string; hq_Now : Z
}.
(* src: backend/internal/server/server.go:418-424 remoteIP *)
Definition remoteIP (r : http_request) : string :=
  match split_host_port (hq_RemoteAddr r) with Some (host, _) => host | None => hq_RemoteAddr r end.

(** ** Prefixes *)
(* src: backend/internal/server/network.go:31-48 parsePrefix *)
Definition parsePrefix (value : string) : result prefix :=
  let value := trim_space value in
  if empty_str value then Err (error_new "빈 값은 사용할 수 없습니다") else
  if contains_byte slash value then masked <$> of_option (Errorf "%q는 올바른 CIDR이 아닙니다" [FStr value]) (ParsePrefix value)
  else (λ a, {| px_addr := without_zone a; px_bits := bit_len a |}) <$> of_option (Errorf "%q는 올바른 IP 주소가 아닙니다" [FStr value]) (ParseAddr value).
(* src: backend/internal/server/network.go:50-60 parsePrefixes *)
Fixpoint parsePrefixes (values : list string) : result (list prefix) :=
  match values with
  | [] => Ok []
  | value :: values => p ← parsePrefix value; ps ← parsePrefixes values; Ok (p :: ps)
  end.
(* src: backend/internal/server/network.go:62-71 prefixesContain *)
Definition prefixesContain (prefixes : list prefix) (address : addr) : bool := existsb (λ p, px_contains p (unmap address)) prefixes.

(** ** The address of the caller *)
(** From the right, the first readable entry that is no trusted proxy. *)
Fixpoint forwarded_client (trusted : list prefix) (parts : list string) : option addr :=
  match parts with
  | [] => None
  | part :: parts =>
      match ParseAddr (trim_space part) with
      | Some a => if prefixesContain trusted (unmap a) then forwarded_client trusted parts else Some (unmap a)
      | None => forwarded_client trusted parts
      end
  end.
(* src: backend/internal/server/network.go:122-148 clientIP *)
Definition clientIP (r : http_request) (trusted : list prefix) : option addr :=
  match ParseAddr (remoteIP r) with
  | None => None
  | Some peer =>
      let peer := unmap peer in
      if bool_decide (trusted = []) || negb (prefixesContain trusted peer) then Some peer else
      let forwarded := hq_Header r "X-Forwarded-For" in
      if empty_str forwarded then Some peer else
      match forwarded_client trusted (reverse (split_byte ","%char forwarded)) with Some a => Some a | None => Some peer end
  end.
(* src: backend/internal/server/network.go:162-173 adminNetworkAllowed *)
Definition adminNetworkAllowed (cfg : networkSettings) (address : option addr) : bool :=
  if negb (ns_AdminAllowlistEnabled cfg) then true else
  match address with
  | None => false
  | Some a => is_loopback a || prefixesContain (ns_adminPrefixes cfg) a
  end.

(** ** Settings *)
(* src: backend/internal/server/network.go:17-17 networkSettingsTTL *)
Definition networkSettingsTTL : Z := 5000.
(** The prefixes of a list that cannot be parsed are none. *)
Definition parsed (values : list string) : list prefix := match parsePrefixes values with Ok ps => ps | Err _ => [] end.
Definition settings_of (row : network_row) : networkSettings := {|
  ns_AdminAllowlistEnabled := nw_enabled row; ns_AdminAllowlist := nw_allowlist row; ns_TrustedProxies := nw_proxies row;
  ns_adminPrefixes := parsed (nw_allowlist row); ns_proxyPrefixes := parsed (nw_proxies row) |}.
(* src: backend/internal/server/network.go:73-110 (Server).loadNetworkSettings *)
Definition loadNetworkSettings (now : Z) : M server networkSettings := λ w,
  match sv_cache w with
  | Some (cached, expiry) => if now <? expiry then (Ok cached, w) else
      (row ← on_db (pool (sql_row ac_network)); let cfg := settings_of row in _ ← set_cache (Some (cfg, now + networkSettingsTTL)); mret cfg) w
  | None => (row ← on_db (pool (sql_row ac_network)); let cfg := settings_of row in _ ← set_cache (Some (cfg, now + networkSettingsTTL)); mret cfg) w
  end.
(* src: backend/internal/server/network.go:112-116 (Server).invalidateNetworkSettings *)
Definition invalidateNetworkSettings : M server unit := set_cache None.
(** Without the settings administration is allowed from everywhere. *)
(* src: backend/internal/server/network.go:177-196 (Server).withAdminNetwork *)
Definition withAdminNetwork {A} (p : Principal) (r : http_request) (next : M server A) : M server A :=
  cfg ← try (loadNetworkSettings (hq_Now r));
  match cfg with
  | Err _ => next
  | Ok cfg =>
      if adminNetworkAllowed cfg (clientIP r (ns_proxyPrefixes cfg)) then next else
      _ ← on_db (audit_account (pr_UserID p) "admin.network.denied" "settings" "network" "denied");
      denied 403 "admin_network_denied" "이 IP 주소에서는 관리 기능을 사용할 수 없습니다"
  end.

(** The reply: the settings, the address they are compared with, and whether a
    proxy that is not registered seems to be in between. *)
(* src: backend/internal/server/network.go:208-235 (Server).getNetworkSettings *)
Definition getNetworkSettings (r : http_request) : M server (networkSettings * option addr * bool) :=
  cfg ← wrapM (fail_with 500 "database_error" "could not load network settings") (loadNetworkSettings (hq_Now r));
  let known := match ParseAddr (remoteIP r) with Some a => prefixesContain (ns_proxyPrefixes cfg) (unmap a) | None => false end in
  mret (cfg, clientIP r (ns_proxyPrefixes cfg), negb (empty_str (trim_space (hq_Header r "X-Forwarded-For"))) && negb known).

(* src: backend/internal/server/network.go:243-247 networkSettingsInput *)
Record networkSettingsInput := { ni_Enabled : option bool; ni_Allowlist : option string; ni_Proxies : option string }.
(* src: backend/internal/server/network.go:249-258 splitLines *)
Definition splitLines (raw : string) : list string :=
  filter (λ line, line ≠ "") ((λ line, trim_space (trim_right ["013"%char] line)) <$> split_byte "010"%char raw).
Definition check_enabled (row : network_row) : bool := negb (nw_enabled row) || negb (bool_decide (nw_allowlist row = [])).
(** [UPDATE network_settings]: the row with its CHECK. *)
Definition update_network (row : network_row) (t : accounts) : result (unit * accounts) :=
  match ac_network t with
  | None => Ok ((), t)
  | Some _ => if check_enabled row then Ok ((), set_network (λ _, Some row) t) else Err (External "new row violates check constraint (SQLSTATE 23514)")
  end.
(** The settings as they will be, or the reply. *)
Definition next_settings `{ErrorText} (r : http_request) (current : networkSettings) (input : networkSettingsInput) : result networkSettings :=
  let enabled := default (ns_AdminAllowlistEnabled current) (ni_Enabled input) in
  let allowlist := match ni_Allowlist input with Some raw => splitLines raw | None => ns_AdminAllowlist current end in
  let proxies := match ni_Proxies input with Some raw => splitLines raw | None => ns_TrustedProxies current end in
  let invalid message := writeError 400 "invalid_network_settings" message in
  _ ← fail_if ((256 <? length allowlist)%nat || (64 <? length proxies)%nat) (invalid "목록이 너무 깁니다");
  adminPrefixes ← map_err (λ e, invalid ("허용 IP: " +:+ error_text e)) (parsePrefixes allowlist);
  proxyPrefixes ← map_err (λ e, invalid ("신뢰 프록시: " +:+ error_text e)) (parsePrefixes proxies);
  let next := {| ns_AdminAllowlistEnabled := enabled; ns_AdminAllowlist := allowlist; ns_TrustedProxies := proxies;
                 ns_adminPrefixes := adminPrefixes; ns_proxyPrefixes := proxyPrefixes |} in
  _ ← fail_if (enabled && bool_decide (allowlist = [])) (invalid "허용 목록이 비어 있으면 활성화할 수 없습니다");
  _ ← fail_if (negb (adminNetworkAllowed next (clientIP r proxyPrefixes)))
        (writeError 409 "would_lock_out_admin" "현재 접속 IP(%s)가 허용 목록에 없어 저장할 수 없습니다");
  Ok next.
(* src: backend/internal/server/network.go:260-326 (Server).putNetworkSettings *)
Definition putNetworkSettings `{ErrorText} (p : Principal) (r : http_request) (input : networkSettingsInput)
    : M server (networkSettings * option addr * bool) :=
  current ← wrapM (fail_with 500 "database_error" "could not load network settings") (loadNetworkSettings (hq_Now r));
  next ← lift (next_settings r current input);
  _ ← wrapM (fail_with 500 "database_error" "could not update network settings")
        (on_db (pool (sql (update_network {| nw_enabled := ns_AdminAllowlistEnabled next; nw_allowlist := ns_AdminAllowlist next; nw_proxies := ns_TrustedProxies next |}))));
  _ ← invalidateNetworkSettings;
  _ ← on_db (audit_account (pr_UserID p) "network_settings.update" "settings" "network" "success");
  getNetworkSettings r.

(** ** The public origin *)
(** [strings.Cut] at a byte, and the [RawQuery] of a URL that parses: what
    follows the first question mark of the part before the fragment. *)
Definition cut_byte (c : ascii) (s : string) : string * string :=
  match index_byte c s with Some i => (take_str i s, drop_str (S i) s) | None => (s, "") end.
Definition raw_query (s : string) : string := (cut_byte "?"%char (cut_byte "#"%char s).1).2.
Section origin.
Context (url_parse : string → result URL).
(* src: backend/internal/server/public_http.go:18-31 normalizeOrigin *)
Definition normalizeOrigin (value : string) (httpsOnly : bool) : result string :=
  let malformed := error_new "origin must contain only an http(s) scheme and host" in
  u ← map_err (λ _, malformed) (url_parse (trim_space value));
  _ ← fail_if (empty_str (u_Host u) || u_User u || negb (empty_str (raw_query (trim_space value))) || negb (empty_str (u_Fragment u))
               || (negb (empty_str (u_Path u)) && negb (bool_decide (u_Path u = "/")))) malformed;
  _ ← (if httpsOnly then fail_if (negb (bool_decide (u_Scheme u = "https"))) (error_new "origin must use HTTPS")
       else fail_if (negb (bool_decide (u_Scheme u ∈ ["http"; "https"]))) (error_new "origin must use HTTP or HTTPS"));
  Ok (to_lower (u_Scheme u) +:+ "://" +:+ to_lower (u_Host u)).
Fixpoint normalize_origins (origins : list string) : result (list string) :=
  match origins with [] => Ok [] | o :: os => o ← normalizeOrigin o false; os ← normalize_origins os; Ok (o :: os) end.
(* src: backend/internal/server/public_http.go:12-16 publicHTTPConfig *)
Record publicHTTPConfig := { pc_PublicURL : string; pc_SecureCookies : bool; pc_AllowedOrigins : list string }.
(* src: backend/internal/server/public_http.go:33-55 (Server).loadPublicHTTPConfig *)
Definition loadPublicHTTPConfig : M adb publicHTTPConfig :=
  row ← pool (sql_row ac_public);
  url ← lift (if empty_str (trim_space (pu_url row)) then Ok "" else normalizeOrigin (pu_url row) true);
  origins ← lift (normalize_origins (pu_origins row));
  mret {| pc_PublicURL := url; pc_SecureCookies := pu_secure row; pc_AllowedOrigins := origins |}.
(* src: backend/internal/server/public_http.go:57-66 (Server).useSecureCookies *)
Definition useSecureCookies (r : http_request) : M adb bool :=
  if hq_TLS r then mret true else
  cfg ← try loadPublicHTTPConfig;
  mret (match cfg with Ok cfg => pc_SecureCookies cfg || has_prefix (pc_PublicURL cfg) "https://" | Err _ => true end).
(* src: backend/internal/server/public_http.go:68-77 (Server).configuredPublicOrigin *)
Definition configuredPublicOrigin : M adb string :=
  cfg ← loadPublicHTTPConfig;
  _ ← lift (fail_if (empty_str (pc_PublicURL cfg)) (error_new "general publicUrl must be configured"));
  mret (pc_PublicURL cfg).
End origin.
(** [net.ParseIP] knows no zones. *)
(* src: backend/internal/server/public_http.go:79-86 loopbackHost *)
Definition loopbackHost (hostport : string) : bool :=
  let host := match split_host_port hostport with Some (host, _) => host | None => hostport end in
  let host := trim ["["%char; "]"%char] host in
  equal_fold host "localhost" || match ParseAddr host with Some (V6 _ (String _ _)) | None => false | Some a => is_loopback a end.
