(* ===== verification/Auth.v ===== *)
(** * Sign-in and authorization (backend/internal/server/auth.go, server.go)

    The checks in front of every handler, sessions, passwords and personal API
    keys.  bcrypt, the parsers of times and the order of a map are parameters;
    a request brings its random bytes.  Reading the body of a request is left
    out: handlers are given the decoded input. *)
From S2P Require Import Prelude GoIO GoString GoPath OS Encoding Sha256 Model Db Store Backend Crypto Vault Runtime Accounts Rbac NetIP Limiter Network.

(** ** In front of a handler *)
(* src: backend/internal/server/server.go:389-391 isUnsafeMethod *)
Definition isUnsafeMethod (method : string) : bool := negb (bool_decide (method ∈ ["GET"; "HEAD"; "OPTIONS"])).
(* src: backend/internal/server/server.go:372-374 isAdminRoute *)
Definition isAdminRoute (permission path : string) : bool := has_prefix permission "admin." || has_prefix path "/api/v1/admin/".
(* src: backend/internal/server/server.go:387-387 sessionCanMutatePersonalKeys *)
Definition sessionCanMutatePersonalKeys (p : Principal) : bool := negb (pr_ViaAPIKey p).
Definition bearer_token (r : http_request) : option string :=
  let auth := trim_space (hq_Header r "Authorization") in
  if has_prefix (to_lower auth) "bearer " then Some (trim_space (drop_str 7 auth)) else None.
(** The CSRF token of an unsafe request that came with a session. *)
Definition csrf_passes (r : http_request) (p : Principal) : bool :=
  negb (isUnsafeMethod (hq_Method r))
  || (negb (empty_str (hq_Header r "X-CSRF-Token")) && ConstantTimeHashEqual (pr_CSRFHash p) (hq_Header r "X-CSRF-Token")).

(** The API key of the header, else the session of the cookie. *)
Definition authenticate (r : http_request) : M server Principal :=
  match bearer_token r with
  | Some token => on_db (AuthenticateAPIKey token)
  | None => match hq_Session r with Some cookie => on_db (AuthenticateSession cookie) | None => throw (error_new "credentials not provided") end
  end.

Section middleware.
Context {A : Type}.
(* src: backend/internal/server/server.go:327-353 (Server).withAuth *)
Definition withAuth (r : http_request) (next : Principal → M server A) : M server A :=
  p ← try (authenticate r);
  match p with
  | Err _ => denied 401 "unauthorized" "authentication required"
  | Ok p =>
      if bool_decide (bearer_token r = None) && negb (csrf_passes r p) then denied 403 "csrf_failed" "missing or invalid CSRF token"
      else next p
  end.
(* src: backend/internal/server/server.go:355-370 (Server).withPermission *)
Definition withPermission (permission : string) (r : http_request) (next : Principal → M server A) : M server A :=
  withAuth r (λ p,
    if negb (Has p permission) then denied 403 "forbidden" ("permission required: " +:+ permission) else
    if isAdminRoute permission (hq_Path r) then withAdminNetwork p r (next p) else next p).
(* src: backend/internal/server/server.go:376-385 (Server).withSessionPermission *)
Definition withSessionPermission (permission : string) (r : http_request) (next : Principal → M server A) : M server A :=
  withPermission permission r (λ p,
    if negb (sessionCanMutatePersonalKeys p) then denied 403 "session_required" "this security-sensitive operation requires a browser session"
    else next p).
End middleware.

(** ** Sessions *)
Definition insert_session (hash : bytes) (s : session_row) (t : accounts) : result (unit * accounts) :=
  if bool_decide (is_Some (ac_sessions t !! hash)) then Err duplicate_key else
  if bool_decide (ac_users t !! se_user s = None) then Err foreign_key else Ok ((), set_sessions (<[hash := s]>) t).
(** The answer to a sign-in: the two cookies, the principal, the expiry, and
    where a browser that came from the identity provider goes. *)
Record sign_in := {
  si_Session : string; si_CSRF : string; si_Secure : bool; si_Principal : Principal; si_Expires : Z; si_Redirect : option string
}.
Definition hours (n : Z) : Z := n * 3600000.

Section auth.
Context `{ErrorText} (url_parse : string → result URL) (range : loginLimiter → list (string * loginAttempt)).
Context (pg_lower : string → string) (first_row : list string → option string).
Context (bcrypt : string → result string) (bcrypt_matches : string → string → bool).

(* src: backend/internal/server/oidc.go:330-336 safeReturnTo *)
Definition safeReturnTo (value : string) : bool :=
  if empty_str value || negb (has_prefix value "/") || has_prefix value "//" || contains_any value ["013"%char; "010"%char] then false else
  match url_parse value with Ok u => empty_str (u_Scheme u) && empty_str (u_Host u) | Err _ => false end.
(** The same query as in the store. *)
(* src: backend/internal/server/auth.go:88-125 (Server).storePrincipal *)
Definition storePrincipal (userID : string) : M adb Principal := principal userID.
(** [random n]: the bytes drawn for the n-th token. *)
(* src: backend/internal/server/auth.go:44-86 (Server).createSession *)
Definition createSession (r : http_request) (random : nat → result bytes) (userID method returnTo : string) : M server sign_in :=
  let entropy := fail_with 500 "entropy_error" "could not create session" in
  token ← wrapM entropy (lift (RandomToken 32 (random 0%nat)));
  csrf ← wrapM entropy (lift (RandomToken 24 (random 1%nat)));
  let expires := hq_Now r + hours 12 in
  _ ← wrapM (fail_with 500 "session_error" "could not create session")
        (on_db (pool (sql (insert_session (TokenHash token) {| se_user := userID; se_csrf := TokenHash csrf; se_expires := expires |}))));
  p ← wrapM (fail_with 500 "session_error" "could not load user") (on_db (storePrincipal userID));
  secure ← on_db (useSecureCookies url_parse r);
  _ ← on_db (audit_account userID "auth.login" "user" userID "success");
  mret {| si_Session := token; si_CSRF := csrf; si_Secure := secure; si_Principal := p; si_Expires := expires;
          si_Redirect := if bool_decide (method = "oidc") then Some (if safeReturnTo returnTo then returnTo else "/") else None |}.

(** A local, active user with a password. *)
Definition local_user (username : string) (t : accounts) : option (string * string) :=
  id ← first_row (fst <$> filter (λ ku : string * user_row,
         pg_lower (us_username ku.2) = pg_lower username ∧ us_active ku.2 = true ∧ us_source ku.2 = "local") (map_to_list (ac_users t)));
  u ← ac_users t !! id;
  hash ← us_hash u;
  Some (id, hash).
(* src: backend/internal/server/auth.go:17-42 (Server).localLogin *)
Definition localLogin (r : http_request) (random : nat → result bytes) (username password : string) : M server sign_in :=
  let username := NormalizeUsername username in
  let limiterKey := "login-user:" +:+ remoteIP r +:+ ":" +:+ username in
  ok ← on_limiter (allowed range (hq_Now r) limiterKey);
  if negb ok then denied 429 "login_rate_limited" "too many failed attempts; try again later" else
  row ← try (on_db (pool (sql_row (local_user username))));
  match row with
  | Ok (userID, hash) =>
      if negb (empty_str hash) && bcrypt_matches hash password then
        _ ← on_limiter (λ l, ((), success limiterKey l));
        createSession r random userID "local" ""
      else
        _ ← on_limiter (λ l, ((), failure range (hq_Now r) limiterKey l));
        _ ← on_db (audit_account "" "auth.login" "user" "" "failure");
        denied 401 "invalid_credentials" "invalid username or password"
  | Err _ =>
      _ ← on_limiter (λ l, ((), failure range (hq_Now r) limiterKey l));
      _ ← on_db (audit_account "" "auth.login" "user" "" "failure");
      denied 401 "invalid_credentials" "invalid username or password"
  end.
(** The cookies are cleared; the error of the statement is ignored. *)
(* src: backend/internal/server/auth.go:127-137 (Server).logout *)
Definition logout (p : Principal) (r : http_request) : M server unit :=
  _ ← (match hq_Session r with
       | Some cookie => _ ← try (on_db (pool (sql_do (set_sessions (delete (TokenHash cookie)))))); mret ()
       | None => mret ()
       end);
  _ ← on_db (useSecureCookies url_parse r);
  on_db (audit_account (pr_UserID p) "auth.logout" "user" (pr_UserID p) "success").

(** ** The user's own account *)
Record profileInput := { pi_DisplayName : option string; pi_Email : option string; pi_Preferences : Z }.
Definition patch_profile (x : profileInput) (u : user_row) : user_row :=
  UserRow (us_username u) (us_hash u) (default (us_display u) (pi_DisplayName x)) (default (us_email u) (pi_Email x)) (us_source u) (us_subject u) (us_active u).
(** [pi_Preferences] is the length of the preferences, which are an object. *)
(* src: backend/internal/server/auth.go:150-185 (Server).updateMyProfile *)
Definition updateMyProfile (p : Principal) (input : profileInput) : M adb Principal :=
  let long n (o : option string) := match o with Some s => n <? slen s | None => false end in
  _ ← deny_if (long 200 (pi_DisplayName input) || long 320 (pi_Email input) || (65536 <? pi_Preferences input)) 400 "invalid_profile" "profile fields are too long";
  _ ← wrapM (fail_with 500 "database_error" "could not update profile") (pool (sql (update_user (pr_UserID p) (λ _, true) (patch_profile input))));
  _ ← audit_account (pr_UserID p) "profile.update" "user" (pr_UserID p) "success";
  wrapM (fail_with 500 "database_error" "could not load profile") (storePrincipal (pr_UserID p)).
(** The other sessions of the user end. *)
Definition end_sessions (user : string) (cookie : option string) : accounts → accounts :=
  set_sessions (filter (λ hs, negb (bool_decide (se_user hs.2 = user)) || match cookie with Some c => bool_decide (hs.1 = TokenHash c) | None => false end = true)).
(* src: backend/internal/server/auth.go:187-245 (Server).changeMyPassword *)
Definition changeMyPassword (p : Principal) (cookie : option string) (currentPassword newPassword : string) : M adb unit :=
  _ ← deny_if ((slen newPassword <? 12) || (1024 <? slen newPassword)) 400 "invalid_password" "newPassword must contain between 12 and 1024 characters";
  _ ← deny_if (bool_decide (currentPassword = newPassword)) 400 "invalid_password" "newPassword must differ from the current password";
  '(hash, source) ← wrapM (fail_with 404 "not_found" "user not found")
      (pool (sql_row (λ t, u ← ac_users t !! pr_UserID p; if us_active u then Some (default "" (us_hash u), us_source u) else None)));
  _ ← deny_if (negb (bool_decide (source = "local")) || empty_str hash) 400 "password_not_available" "OIDC accounts must change their password in the identity provider";
  _ ← deny_if (negb (bcrypt_matches hash currentPassword)) 401 "invalid_current_password" "current password is incorrect";
  newHash ← wrapM (fail_with 500 "password_error" "could not change password") (lift (bcrypt newPassword));
  let failed := fail_with 500 "database_error" "could not change password" in
  _ ← transaction_with failed (λ _, failed)
        (wrapM failed (_ ← sql (update_user (pr_UserID p) (λ _, true) (set_hash newHash)); sql_do (end_sessions (pr_UserID p) cookie)));
  audit_account (pr_UserID p) "password.change" "user" (pr_UserID p) "success".

(** ** Personal API keys *)
(* src: backend/internal/server/auth.go:293-298 apiKeyInput *)
Record apiKeyInput := { ki_Name : string; ki_Scopes : list string; ki_ExpiresAt : option string; ki_ClearExpiresAt : bool }.
(** [time.Parse] with the two layouts. *)
Context (parse_rfc3339 parse_date : string → option Z).
(* src: backend/internal/server/auth.go:300-314 parseAPIKeyExpiry *)
Definition parseAPIKeyExpiry (value : option string) : result (option Z) :=
  match value with
  | None => Ok None
  | Some value =>
      let raw := trim_space value in
      if empty_str raw then Ok None else
      match parse_rfc3339 raw with
      | Some t => Ok (Some t)
      | None => match parse_date raw with
                | Some t => Ok (Some (t + hours 24 - 1))
                | None => Err (error_new "expiresAt must be RFC3339 or YYYY-MM-DD")
                end
      end
  end.
Fixpoint check_scopes (p : Principal) (seen scopes : list string) : result unit :=
  match scopes with
  | [] => Ok ()
  | scope :: scopes =>
      _ ← fail_if (contains seen scope) (error_new "scopes must not contain duplicates");
      _ ← fail_if (negb (contains (pr_Permissions p) scope)) (error_new ("scope is not granted to the current user: " +:+ scope));
      check_scopes p (scope :: seen) scopes
  end.
(* src: backend/internal/server/auth.go:316-349 validateKeyInput *)
Definition validateKeyInput (now : Z) (p : Principal) (input : apiKeyInput) : result unit :=
  let name := trim_space (ki_Name input) in
  _ ← fail_if (empty_str name || (100 <? slen name)) (error_new "name is required and must not exceed 100 characters");
  _ ← fail_if (bool_decide (ki_Scopes input = [])) (error_new "at least one scope is required");
  expiresAt ← parseAPIKeyExpiry (ki_ExpiresAt input);
  _ ← fail_if (match expiresAt with Some e => e <=? now | None => false end) (error_new "expires_at must be in the future");
  check_scopes p [] (ki_Scopes input).
Definition expiry_of (input : apiKeyInput) : option Z := match parseAPIKeyExpiry (ki_ExpiresAt input) with Ok e => e | Err _ => None end.
(** [UNIQUE (prefix)] and [UNIQUE (secret_hash)]. *)
Definition key_taken (id : string) (k : key_row) (t : accounts) : bool :=
  existsb (λ kk : string * key_row, negb (bool_decide (kk.1 = id)) && (bool_decide (ak_prefix kk.2 = ak_prefix k) || bool_decide (ak_secret kk.2 = ak_secret k))) (map_to_list (ac_keys t)).
Definition insert_key (id : string) (k : key_row) (t : accounts) : result (unit * accounts) :=
  if bool_decide (is_Some (ac_keys t !! id)) || key_taken id k t then Err duplicate_key else
  if bool_decide (ac_users t !! ak_user k = None) then Err foreign_key else Ok ((), set_keys (<[id := k]>) t).
(** [UPDATE api_keys ... WHERE id=$1 AND user_id=$2 AND revoked_at IS NULL]. *)
Definition update_key (id user : string) (f : key_row → key_row) (t : accounts) : result (bool * accounts) :=
  match ac_keys t !! id with
  | Some k => if negb (bool_decide (ak_user k = user)) || ak_revoked k then Ok (false, t) else
              if key_taken id (f k) t then Err duplicate_key else Ok (true, set_keys (<[id := f k]>) t)
  | None => Ok (false, t)
  end.
Definition key_token (random : result bytes) : result string := r ← RandomToken 32 random; Ok ("rdk_" +:+ r).
Definition key_prefix (token : string) : string := take_str 12 token.
(* src: backend/internal/server/auth.go:351-377 (Server).createAPIKey *)
Definition createAPIKey (p : Principal) (r : http_request) (newid : result string) (random : result bytes) (input : apiKeyInput) : M adb string :=
  _ ← lift (map_err (λ e, writeError 400 "invalid_api_key" (error_text e)) (validateKeyInput (hq_Now r) p input));
  let id := match newid with Ok id => id | Err _ => "" end in
  token ← wrapM (fail_with 500 "entropy_error" "could not generate API key") (lift (key_token random));
  _ ← wrapM (fail_with 500 "database_error" "could not create API key")
        (pool (sql (insert_key id (KeyRow (pr_UserID p) (trim_space (ki_Name input)) (key_prefix token) (TokenHash token) (ki_Scopes input) (expiry_of input) false))));
  _ ← audit_account (pr_UserID p) "api_key.create" "api_key" id "success";
  mret token.
(* src: backend/internal/server/auth.go:379-400 (Server).rotateAPIKey *)
Definition rotateAPIKey (p : Principal) (id : string) (random : result bytes) : M adb string :=
  token ← wrapM (fail_with 500 "entropy_error" "could not rotate API key") (lift (key_token random));
  matched ← wrapM (fail_with 500 "database_error" "could not rotate API key")
    (pool (sql (update_key id (pr_UserID p) (λ k, KeyRow (ak_user k) (ak_name k) (key_prefix token) (TokenHash token) (ak_scopes k) (ak_expires k) (ak_revoked k)))));
  _ ← deny_if (negb matched) 404 "not_found" "API key not found";
  _ ← audit_account (pr_UserID p) "api_key.rotate" "api_key" id "success";
  mret token.
(* src: backend/internal/server/auth.go:402-425 (Server).updateAPIKey *)
Definition updateAPIKey (p : Principal) (r : http_request) (id : string) (input : apiKeyInput) : M adb unit :=
  _ ← lift (map_err (λ e, writeError 400 "invalid_api_key" (error_text e)) (validateKeyInput (hq_Now r) p input));
  matched ← wrapM (fail_with 500 "database_error" "could not update API key")
    (pool (sql (update_key id (pr_UserID p) (λ k, KeyRow (ak_user k) (trim_space (ki_Name input)) (ak_prefix k) (ak_secret k) (ki_Scopes input)
       (if ki_ClearExpiresAt input then None else match expiry_of input with Some e => Some e | None => ak_expires k end) (ak_revoked k)))));
  _ ← deny_if (negb matched) 404 "not_found" "API key not found";
  audit_account (pr_UserID p) "api_key.update" "api_key" id "success".
(* src: backend/internal/server/auth.go:427-441 (Server).revokeAPIKey *)
Definition revokeAPIKey (p : Principal) (id : string) : M adb unit :=
  matched ← wrapM (fail_with 500 "database_error" "could not revoke API key")
    (pool (sql (update_key id (pr_UserID p) (λ k, KeyRow (ak_user k) (ak_name k) (ak_prefix k) (ak_secret k) (ak_scopes k) (ak_expires k) true))));
  _ ← deny_if (negb matched) 404 "not_found" "API key not found";
  audit_account (pr_UserID p) "api_key.revoke" "api_key" id "success".
End auth.
