(* ===== verification/Oidc.v ===== *)
(** * Sign-in through an identity provider (backend/internal/server/oidc.go, admin.go, settings_ui.go)

    The OpenID Connect code flow and its settings.  What the provider answers,
    the JSON decoders of a token, RSA and [url.Parse] are parameters. *)
From S2P Require Import Prelude GoIO GoString GoPath OS Encoding Sha256 Crypto Model Db Store Backend Releases Vault Runtime Accounts Rbac NetIP Limiter Network Auth.

(** ** Standard library *)
(** [strings.Fields]. *)
Fixpoint fields_loop (l : list (Z * list ascii)) (word : list ascii) : list string :=
  let flush rest := match word with [] => rest | _ => of_chars word :: rest end in
  match l with
  | [] => flush []
  | (c, b) :: l => if is_space c then flush (fields_loop l []) else fields_loop l (word ++ b)
  end.
Definition fields (s : string) : list string := fields_loop (runes s) [].
(** A big-endian number, and [big.Int.BitLen]. *)
Definition number_of (b : bytes) : Z := foldl (λ n c, n * 256 + byte c) 0 b.
Definition bit_length (n : Z) : Z := if n <=? 0 then 0 else Z.log2 n + 1.

(** ** The provider *)
(* src: backend/internal/server/oidc.go:45-51 oidcDiscovery *)
Record oidcDiscovery := { dc_Issuer : string; dc_AuthorizationEndpoint : string; dc_TokenEndpoint : string; dc_JWKSURI : string }.
(** The members of a [jwkSet]. *)
(* src: backend/internal/server/oidc.go:456-465 jwkSet *)
Record jwk := { jk_Kty : string; jk_Kid : string; jk_Use : string; jk_Alg : string; jk_N : string; jk_E : string }.
(** [aud] is a text or a list of texts. *)
(* src: backend/internal/server/oidc.go:442-454 idTokenClaims *)
Record idTokenClaims := {
  ic_Issuer : string; ic_Subject : string; ic_Audience : raw_list; ic_AuthorizedParty : string; ic_ExpiresAt : Z; ic_IssuedAt : Z;
  ic_Nonce : string; ic_PreferredUsername : string; ic_Name : string; ic_Email : string
}.
(** The form of the token request and its basic authentication. *)
Record token_request := { tq_ClientID : string; tq_Secret : string; tq_Code : string; tq_RedirectURI : string; tq_Verifier : string }.
(** The answers at a URL: no answer, or a status and what the body decodes to. *)
Record provider := Provider {
  pv_discovery : string → result (Z * result oidcDiscovery);
  pv_token : string → token_request → result (Z * result string);
  pv_jwks : string → result (Z * result (list jwk))
}.

(** ** Endpoints *)
(* src: backend/internal/server/oidc.go:164-188 privatePlaintextHost *)
Definition privatePlaintextHost (host : string) : bool :=
  let name := match split_host_port host with Some (h, _) => h | None => host end in
  let name := trim ["["%char; "]"%char] name in
  if empty_str name then false else
  match ParseAddr name with
  | Some a => let a := unmap a in is_loopback a || is_private a || is_link_local a || is_unspecified a
  | None =>
      if equal_fold name "localhost" then true else
      let lower := to_lower name in
      negb (contains_byte "."%char lower) || has_suffix lower ".local" || has_suffix lower ".internal" || has_suffix lower ".intranet"
  end.
(* src: backend/internal/server/oidc.go:105-114 forwardedFirst *)
Definition forwardedFirst (value : string) : string := to_lower (trim_space (cut_byte ","%char value).1).
(* src: backend/internal/server/oidc.go:70-70 oidcCallbackPath *)
Definition oidcCallbackPath : string := "/api/v1/auth/oidc/callback".

Section oidc.
Context `{ErrorText} (url_parse : string → result URL) (range : loginLimiter → list (string * loginAttempt)).
Context (pg_lower : string → string) (first_row : list string → option string).

(* src: backend/internal/server/oidc.go:193-228 validateOIDCEndpoint *)
Definition validateOIDCEndpoint (name raw : string) (allowInsecure : bool) : result unit :=
  _ ← fail_if (empty_str (trim_space raw)) (Errorf "OIDC discovery %s is missing" [FStr name]);
  u ← map_err (λ _, Errorf "OIDC discovery %s is not a valid URL: %q" [FStr name; FStr raw]) (url_parse raw);
  _ ← fail_if (empty_str (u_Host u)) (Errorf "OIDC discovery %s has no host: %q" [FStr name; FStr raw]);
  _ ← fail_if (u_User u) (Errorf "OIDC discovery %s must not contain userinfo: %q" [FStr name; FStr raw]);
  _ ← fail_if (negb (empty_str (u_Fragment u))) (Errorf "OIDC discovery %s must not contain a fragment: %q" [FStr name; FStr raw]);
  if bool_decide (u_Scheme u = "https") then Ok () else
  if bool_decide (u_Scheme u = "http") then
    _ ← fail_if (negb allowInsecure) (Errorf "OIDC discovery %s uses plaintext HTTP (%q). Keycloak이 이 endpoint를 HTTPS로 내려주도록 고치거나, 폐쇄망이라면 OIDC 설정에서 '내부 평문 HTTP endpoint 허용'을 켜십시오" [FStr name; FStr raw]);
    fail_if (negb (privatePlaintextHost (u_Host u))) (Errorf "OIDC discovery %s uses plaintext HTTP to a publicly routable host (%q); this is refused even with the insecure option enabled" [FStr name; FStr raw])
  else Err (Errorf "OIDC discovery %s must use http or https: %q" [FStr name; FStr raw]).
Fixpoint validate_endpoints (endpoints : list (string * string)) (allowInsecure : bool) : result unit :=
  match endpoints with
  | [] => Ok ()
  | (name, value) :: endpoints => _ ← validateOIDCEndpoint name value allowInsecure; validate_endpoints endpoints allowInsecure
  end.
(* src: backend/internal/server/oidc.go:230-272 (Server).discoverOIDC *)
Definition discoverOIDC (pv : provider) (issuer : string) (allowInsecure : bool) : result oidcDiscovery :=
  let issuer := trim_suffix (trim_space issuer) "/" in
  let malformed := error_new "OIDC issuer must be an absolute URL without userinfo, query, or fragment" in
  u ← map_err (λ _, malformed) (url_parse issuer);
  _ ← fail_if (empty_str (u_Host u) || u_User u || negb (empty_str (raw_query issuer)) || negb (empty_str (u_Fragment u))) malformed;
  _ ← validateOIDCEndpoint "issuer" issuer allowInsecure;
  '(status, body) ← map_err (wrap "OIDC discovery request: %w") (pv_discovery pv (issuer +:+ "/.well-known/openid-configuration"));
  _ ← fail_if (negb (status =? 200)) (Errorf "OIDC discovery returned HTTP %d" [FInt status]);
  discovery ← map_err (wrap "decode OIDC discovery: %w") body;
  _ ← fail_if (negb (bool_decide (dc_Issuer discovery = issuer)))
        (Errorf "OIDC discovery issuer %q does not exactly match the configured issuer %q" [FStr (dc_Issuer discovery); FStr issuer]);
  _ ← validate_endpoints [("authorization_endpoint", dc_AuthorizationEndpoint discovery); ("token_endpoint", dc_TokenEndpoint discovery);
                          ("jwks_uri", dc_JWKSURI discovery)] allowInsecure;
  Ok discovery.

(** ** The redirect URI *)
(* src: backend/internal/server/oidc.go:118-127 validOriginHost *)
Definition validOriginHost (host : string) : bool :=
  if empty_str host || (255 <? slen host) then false else
  if contains_any host ["/"; "\"; "?"; "#"; "@"; " "; "009"; "013"; "010"]%char then false else
  match url_parse ("https://" +:+ host) with Ok u => bool_decide (u_Host u = host) && empty_str (u_Path u) | Err _ => false end.
(* src: backend/internal/server/oidc.go:75-101 (Server).requestOrigin *)
Definition requestOrigin (r : http_request) (allowInsecure : bool) : M server string :=
  cfg ← try (loadNetworkSettings (hq_Now r));
  let scheme := if hq_TLS r then "https" else "http" in
  let '(scheme, host) :=
    match cfg with
    | Ok cfg =>
        match ParseAddr (remoteIP r) with
        | Some peer =>
            if negb (bool_decide (ns_proxyPrefixes cfg = [])) && prefixesContain (ns_proxyPrefixes cfg) (unmap peer) then
              let proto := forwardedFirst (hq_Header r "X-Forwarded-Proto") in
              let host := forwardedFirst (hq_Header r "X-Forwarded-Host") in
              (if bool_decide (proto = "http" ∨ proto = "https") then proto else scheme, if empty_str host then hq_Host r else host)
            else (scheme, hq_Host r)
        | None => (scheme, hq_Host r)
        end
    | Err _ => (scheme, hq_Host r)
    end in
  let scheme := if bool_decide (scheme = "http") && negb (loopbackHost host) && negb allowInsecure then "https" else scheme in
  mret (if negb (validOriginHost host) then "" else scheme +:+ "://" +:+ host).
(* src: backend/internal/server/oidc.go:133-144 (Server).resolveOIDCRedirectURI *)
Definition resolveOIDCRedirectURI (r : http_request) (cfg : oidcSettings) : M server string :=
  let configured := trim_space (oi_RedirectURL cfg) in
  if negb (empty_str configured) then mret configured else
  public ← try (on_db (configuredPublicOrigin url_parse));
  match public with
  | Ok origin => mret (origin +:+ oidcCallbackPath)
  | Err _ => origin ← requestOrigin r (oi_AllowInsecure cfg); mret (if empty_str origin then "" else origin +:+ oidcCallbackPath)
  end.
(* src: backend/internal/server/oidc.go:53-55 (Server).loadOIDC *)
Definition loadOIDC : M adb oidcSettings := pool (sql_row ac_oidc).

(** Whether sign-in through the provider is enabled, at which issuer, and
    whether a browser should try it silently. *)
(* src: backend/internal/server/oidc.go:146-157 (Server).authConfig *)
Definition authConfig : M adb (bool * string * bool) :=
  cfg ← wrapM (fail_with 500 "database_error" "could not load authentication configuration") loadOIDC;
  mret (oi_Enabled cfg, oi_Issuer cfg, oi_Enabled cfg && oi_AutoLogin cfg).

(** ** The first leg *)
(** [insert_login]: the expired ones are removed. *)
Definition insert_login (hash : bytes) (l : login_row) (n : Z) (t : accounts) : result (unit * accounts) :=
  if bool_decide (is_Some (ac_logins t !! hash)) then Err duplicate_key
  else Ok ((), set_logins (λ m, <[hash := l]> (filter (λ hl, n <= li_expires hl.2) m)) t).
(** Where the browser is sent, with the cookie it gets. *)
Record oidc_redirect := { or_Endpoint : string; or_Params : list (string * string); or_Cookie : string; or_Secure : bool }.
Definition token_or_empty (n : Z) (random : result bytes) : string := match RandomToken n random with Ok s => s | Err _ => "" end.
(* src: backend/internal/server/oidc.go:274-328 (Server).oidcLogin *)
Definition oidcLogin (pv : provider) (r : http_request) (random : nat → result bytes) : M server oidc_redirect :=
  ok ← on_limiter (consume range (hq_Now r) ("oidc-ip:" +:+ remoteIP r) 120 (minutes 1));
  _ ← lift (fail_if (negb ok) (writeError 429 "oidc_rate_limited" "too many OIDC login attempts; try again later"));
  let disabled := writeError 404 "oidc_disabled" "OIDC login is not enabled" in
  cfg ← wrapM (λ _, disabled) (on_db loadOIDC);
  _ ← lift (fail_if (negb (oi_Enabled cfg)) disabled);
  discovery ← wrapM (fail_with 502 "oidc_discovery_failed" "identity provider discovery failed") (lift (discoverOIDC pv (oi_Issuer cfg) (oi_AllowInsecure cfg)));
  redirectURI ← resolveOIDCRedirectURI r cfg;
  _ ← lift (fail_if (empty_str redirectURI) (writeError 500 "oidc_redirect_unresolved" "could not determine the OIDC redirect URI for this request"));
  let silent := bool_decide (hq_Query r "prompt" = "none") && oi_AutoLogin cfg in
  let state := token_or_empty 32 (random 0%nat) in
  let nonce := token_or_empty 24 (random 1%nat) in
  let codeVerifier := token_or_empty 32 (random 2%nat) in
  let codeChallenge := raw_url_encode (sha256 (to_bytes codeVerifier)) in
  let returnTo := if safeReturnTo url_parse (hq_Query r "return_to") then hq_Query r "return_to" else "/" in
  _ ← wrapM (fail_with 500 "database_error" "could not initiate OIDC login")
        (on_db (pool (checked (λ n, insert_login (TokenHash state)
           {| li_nonce := nonce; li_verifier := codeVerifier; li_return := returnTo; li_redirect := redirectURI; li_silent := silent; li_expires := n + minutes 10 |} n))));
  secure ← on_db (useSecureCookies url_parse r);
  mret {| or_Endpoint := dc_AuthorizationEndpoint discovery; or_Cookie := state; or_Secure := secure;
          or_Params := [("response_type", "code"); ("client_id", oi_ClientID cfg); ("redirect_uri", redirectURI); ("scope", join " " (oi_Scopes cfg));
                        ("state", state); ("nonce", nonce); ("code_challenge", codeChallenge); ("code_challenge_method", "S256")]
                       ++ (if silent then [("prompt", "none")] else []) |}.

(** ** ID tokens *)
(** [json.Unmarshal] of a token's header (its algorithm and key) and claims, and RSA's PKCS #1 v1.5 over SHA-256. *)
Context (decode_header : bytes → result (string * string)) (decode_claims : bytes → result idTokenClaims).
Context (rsa_verify : bytes → Z → bytes → bytes → bool).

(** The modulus and the exponent of a key that can have made the signature. *)
Definition usable_key (kid : string) (k : jwk) : option (bytes * Z) :=
  if negb (bool_decide (jk_Kid k = kid)) || negb (bool_decide (jk_Kty k = "RSA")) || (negb (empty_str (jk_Use k)) && negb (bool_decide (jk_Use k = "sig")))
     || (negb (empty_str (jk_Alg k)) && negb (bool_decide (jk_Alg k = "RS256"))) then None else
  n ← raw_url_decode (jk_N k);
  e ← raw_url_decode (jk_E k);
  if (length e =? 0)%nat || (4 <? length e)%nat then None else
  let exponent := number_of e in
  if (exponent <? 3) || Z.even exponent then None else Some (n, exponent).
Definition base64_error : goerr := External "illegal base64 data".
(* src: backend/internal/server/oidc.go:548-558 parseAudience *)
Definition parseAudience (raw : raw_list) : result (list string) :=
  match raw with
  | RawText single => Ok [single]
  | RawList multiple => Ok multiple
  | _ => Err (External "json: cannot unmarshal")
  end.
(** What the claims must say. *)
Definition check_claims (discovery : oidcDiscovery) (clientID nonce : string) (now : Z) (claims : idTokenClaims) : result unit :=
  _ ← fail_if (negb (bool_decide (ic_Issuer claims = dc_Issuer discovery)) || empty_str (ic_Subject claims) || negb (bool_decide (ic_Nonce claims = nonce)))
        (error_new "ID token issuer, subject, or nonce is invalid");
  _ ← fail_if ((ic_ExpiresAt claims <=? now - 60) || (now + 60 <? ic_IssuedAt claims)) (error_new "ID token is expired or issued in the future");
  audiences ← map_err (λ _, error_new "ID token audience is invalid") (parseAudience (ic_Audience claims));
  _ ← fail_if (negb (contains audiences clientID)) (error_new "ID token audience is invalid");
  fail_if ((1 <? length audiences)%nat && negb (bool_decide (ic_AuthorizedParty claims = clientID))) (error_new "ID token azp is invalid").
(* src: backend/internal/server/oidc.go:467-546 (Server).verifyIDToken *)
Definition verifyIDToken (pv : provider) (now : Z) (raw : string) (discovery : oidcDiscovery) (clientID nonce : string) : result idTokenClaims :=
  match split_byte "."%char raw with
  | [header; body; sig] =>
      headerBytes ← of_option base64_error (raw_url_decode header);
      let unsupported := error_new "only RS256 ID tokens with kid are accepted" in
      '(alg, kid) ← map_err (λ _, unsupported) (decode_header headerBytes);
      _ ← fail_if (negb (bool_decide (alg = "RS256")) || empty_str kid) unsupported;
      '(status, keys) ← pv_jwks pv (dc_JWKSURI discovery);
      _ ← fail_if (negb (status =? 200)) (Errorf "JWKS returned HTTP %d" [FInt status]);
      keys ← keys;
      let missing := error_new "matching secure RSA signing key not found" in
      '(n, e) ← of_option missing (head (omap (usable_key kid) keys));
      _ ← fail_if (bit_length (number_of n) <? 2048) missing;
      signature ← of_option base64_error (raw_url_decode sig);
      _ ← fail_if (negb (rsa_verify n e (sha256 (to_bytes (header +:+ "." +:+ body))) signature)) (error_new "ID token signature is invalid");
      payload ← of_option base64_error (raw_url_decode body);
      claims ← decode_claims payload;
      _ ← check_claims discovery clientID nonce now claims;
      Ok claims
  | _ => Err (error_new "ID token must be a compact JWT")
  end.

(** ** The user of a token *)
(* src: backend/internal/server/oidc.go:569-569 errOIDCUserNotProvisioned *)
Definition errOIDCUserNotProvisioned : goerr := error_new "OIDC user is not provisioned and automatic provisioning is disabled".
Definition not_provisioned (e : goerr) : bool :=
  match e with Errorf text [] => bool_decide (text = "OIDC user is not provisioned and automatic provisioning is disabled") | _ => false end.
Definition subject_of (claims : idTokenClaims) : string := ic_Issuer claims +:+ "|" +:+ ic_Subject claims.
(** The subject is unique. *)
Definition user_with_subject (subject : string) (t : accounts) : option string :=
  head (fst <$> filter (λ ku : string * user_row, us_subject ku.2 = Some subject ∧ us_active ku.2 = true) (map_to_list (ac_users t))).
Definition set_person (display email : string) (u : user_row) : user_row :=
  UserRow (us_username u) (us_hash u) display email (us_source u) (us_subject u) (us_active u).
(* src: backend/internal/server/oidc.go:571-613 (Server).resolveOIDCUser *)
Definition resolveOIDCUser (cfg : oidcSettings) (newid : result string) (claims : idTokenClaims) : M adb string :=
  found ← try (pool (sql_row (user_with_subject (subject_of claims))));
  match found with
  | Ok id => _ ← try (pool (sql (update_user id (λ _, true) (set_person (ic_Name claims) (ic_Email claims))))); mret id
  | Err e =>
      if negb (errors_is ErrNoRows e) then throw e else
      _ ← lift (fail_if (negb (oi_AutoCreateUser cfg)) errOIDCUserNotProvisioned);
      let username := NormalizeUsername (ic_PreferredUsername claims) in
      let username := if empty_str username then NormalizeUsername (ic_Email claims) else username in
      _ ← lift (fail_if (empty_str username || (200 <? slen username)) (error_new "OIDC token has no usable username"));
      id ← lift newid;
      _ ← transaction
            (_ ← wrapM (Wrapf "create OIDC user (username may already exist): %w" [])
                   (sql (insert_user id (UserRow username None (ic_Name claims) (ic_Email claims) "oidc" (Some (subject_of claims)) true)));
             match oi_DefaultRoleID cfg with Some role => sql (insert_member id role) | None => mret () end);
      mret id
  end.

(** ** The second leg *)
(** [DELETE FROM oidc_states ... RETURNING]. *)
Definition take_login (hash : bytes) (cond : login_row → bool) (t : accounts) : option login_row * accounts :=
  match ac_logins t !! hash with
  | Some l => if cond l then (Some l, set_logins (delete hash) t) else (None, t)
  | None => (None, t)
  end.
Definition not_null {A} (o : option A) : M server A := lift (of_option (Sentinel ErrNoRows) o).
Inductive callback := Redirected (location : string) | SignedIn (s : sign_in).
(** The provider reports a refusal: the attempt ends. *)
Definition silent_attempt (state : string) : M server bool :=
  if empty_str state then mret false else
  l ← try (row ← on_db (pool (statement (λ _, take_login (TokenHash state) (λ _, true)))); not_null row);
  mret (match l with Ok l => li_silent l | Err _ => false end).
(** The exchange of the code for the claims of the user. *)
Definition exchange_code (v : Vault) (pv : provider) (r : http_request) (cfg : oidcSettings) (discovery : oidcDiscovery) (code redirectURI : string) (l : login_row) : result idTokenClaims :=
  secret ← map_err (fail_with 500 "secret_error" "OIDC secret could not be decrypted") (VaultDecrypt v (oi_ClientSecretEnc cfg) "oidc.client_secret");
  '(status, body) ← map_err (fail_with 502 "oidc_token_failed" "OIDC token exchange failed")
    (pv_token pv (dc_TokenEndpoint discovery) {| tq_ClientID := oi_ClientID cfg; tq_Secret := secret; tq_Code := code; tq_RedirectURI := redirectURI; tq_Verifier := li_verifier l |});
  _ ← fail_if ((status <? 200) || (300 <=? status)) (writeError 502 "oidc_token_failed" "OIDC token exchange was rejected");
  let missing := writeError 502 "oidc_token_failed" "OIDC response did not contain an ID token" in
  token ← map_err (λ _, missing) body;
  _ ← fail_if (empty_str token) missing;
  map_err (fail_with 401 "invalid_id_token" "OIDC ID token validation failed")
    (verifyIDToken pv (hq_Now r `div` 1000) token discovery (oi_ClientID cfg) (li_nonce l)).
(** From the login that was begun to the session. *)
Definition finish_callback (v : Vault) (pv : provider) (r : http_request) (newid : result string) (random : nat → result bytes) (code : string) (l : login_row) : M server callback :=
  let disabled := writeError 400 "oidc_disabled" "OIDC login is not enabled" in
  cfg ← wrapM (λ _, disabled) (on_db loadOIDC);
  _ ← lift (fail_if (negb (oi_Enabled cfg)) disabled);
  redirectURI ← (if empty_str (li_redirect l) then resolveOIDCRedirectURI r cfg else mret (li_redirect l));
  discovery ← wrapM (fail_with 502 "oidc_discovery_failed" "identity provider discovery failed") (lift (discoverOIDC pv (oi_Issuer cfg) (oi_AllowInsecure cfg)));
  claims ← lift (exchange_code v pv r cfg discovery code redirectURI l);
  userID ← wrapM (λ e, if not_provisioned e then writeError 403 "oidc_user_not_provisioned" (error_text e)
                       else writeError 500 "database_error" "could not provision OIDC user")
             (on_db (resolveOIDCUser cfg newid claims));
  let returnTo := if safeReturnTo url_parse (li_return l) then li_return l else "/" in
  s ← createSession url_parse r random userID "oidc" returnTo;
  mret (SignedIn s).
(* src: backend/internal/server/oidc.go:338-440 (Server).oidcCallback *)
Definition oidcCallback (v : Vault) (pv : provider) (r : http_request) (newid : result string) (random : nat → result bytes) : M server callback :=
  let state := hq_Query r "state" in
  let code := hq_Query r "code" in
  if negb (empty_str (hq_Query r "error")) then
    silent ← silent_attempt state;
    mret (Redirected (if (silent : bool) then "/login?sso=none" else "/login?sso=error"))
  else
  _ ← lift (fail_if (empty_str state || empty_str code || negb (bool_decide (hq_StateCookie r = Some state)))
              (writeError 400 "invalid_oidc_callback" "missing or invalid OIDC callback parameters"));
  _ ← on_db (useSecureCookies url_parse r);
  l ← wrapM (fail_with 400 "invalid_oidc_state" "OIDC state expired or was already used")
        (row ← on_db (pool (statement (λ n, take_login (TokenHash state) (λ l, n <? li_expires l)))); not_null row);
  finish_callback v pv r newid random code l.

(** ** Settings *)
(* src: backend/internal/server/admin.go:256-267 oidcSettingsInput *)
Record oidcSettingsInput := {
  oj_Enabled : option bool; oj_Issuer : option string; oj_ClientID : option string; oj_ClientSecret : option string; oj_RedirectURL : option string;
  oj_AllowInsecure : option bool; oj_AutoLogin : option bool; oj_Scopes : option (list string); oj_AutoCreateUser : option bool;
  oj_DefaultRoleID : option string
}.
(** What [getOIDCSettings] answers. *)
Record oidcView := {
  ow_Enabled : bool; ow_Issuer : string; ow_ClientID : string; ow_SecretConfigured : bool; ow_RedirectURL : string; ow_AutoLogin : bool;
  ow_AllowInsecure : bool; ow_PublicURL : string; ow_EffectiveRedirect : string; ow_Scopes : string; ow_AutoProvision : bool;
  ow_DefaultRoleID : option string
}.
(* src: backend/internal/server/admin.go:231-254 (Server).getOIDCSettings *)
Definition getOIDCSettings (r : http_request) : M server oidcView :=
  cfg ← wrapM (fail_with 500 "database_error" "could not load OIDC settings") (on_db loadOIDC);
  publicURL ← try (on_db (configuredPublicOrigin url_parse));
  effective ← resolveOIDCRedirectURI r cfg;
  mret {| ow_Enabled := oi_Enabled cfg; ow_Issuer := oi_Issuer cfg; ow_ClientID := oi_ClientID cfg;
          ow_SecretConfigured := negb (empty_str (oi_ClientSecretEnc cfg)); ow_RedirectURL := oi_RedirectURL cfg; ow_AutoLogin := oi_AutoLogin cfg;
          ow_AllowInsecure := oi_AllowInsecure cfg; ow_PublicURL := match publicURL with Ok u => u | Err _ => "" end;
          ow_EffectiveRedirect := effective; ow_Scopes := join " " (oi_Scopes cfg); ow_AutoProvision := oi_AutoCreateUser cfg;
          ow_DefaultRoleID := oi_DefaultRoleID cfg |}.
(** [UPDATE oidc_settings]: the default role exists. *)
Definition update_oidc (c : oidcSettings) (t : accounts) : result (unit * accounts) :=
  match ac_oidc t with
  | None => Ok ((), t)
  | Some _ => match oi_DefaultRoleID c with
              | Some role => if bool_decide (ac_roles t !! role = None) then Err foreign_key else Ok ((), set_oidc (λ _, Some c) t)
              | None => Ok ((), set_oidc (λ _, Some c) t)
              end
  end.
Definition invalid_oidc (message : string) : goerr := writeError 400 "invalid_oidc_settings" message.
(** What enabled settings must be. *)
Definition check_enabled_oidc (pv : provider) (redirect_name incomplete queried : string) (issuerless : bool) (c : oidcSettings) : result unit :=
  _ ← fail_if (issuerless || empty_str (oi_ClientID c) || empty_str (oi_ClientSecretEnc c) || negb (contains (oi_Scopes c) "openid")) (invalid_oidc incomplete);
  _ ← (if empty_str (oi_RedirectURL c) then Ok () else
       _ ← map_err (λ e, invalid_oidc (error_text e)) (validateOIDCEndpoint redirect_name (oi_RedirectURL c) (oi_AllowInsecure c));
       _ ← map_err (λ _, invalid_oidc queried) (url_parse (oi_RedirectURL c));
       fail_if (negb (empty_str (raw_query (oi_RedirectURL c)))) (invalid_oidc queried));
  _ ← map_err (λ e, writeError 400 "oidc_discovery_failed" (error_text e)) (discoverOIDC pv (oi_Issuer c) (oi_AllowInsecure c));
  Ok ().
(** The default role is delegated like any other. *)
Definition delegate_default (p : Principal) (c : oidcSettings) : M adb unit :=
  match oi_DefaultRoleID c with Some role => wrapM forbidden (validateDelegatedRoles p (pr_UserID p) [role]) | None => mret () end.
Definition load_for_update : M adb oidcSettings := wrapM (fail_with 500 "database_error" "could not load OIDC settings") (sql_row ac_oidc).
(** The sealed secret of the settings that are stored. *)
Definition next_secret (v : Vault) (random : result bytes) (current : string) (input : option string) : result string :=
  match input with
  | None => Ok current
  | Some secret =>
      if empty_str secret then Ok "" else
      _ ← fail_if (4096 <? slen secret) (invalid_oidc "client_secret is too long");
      map_err (fail_with 500 "secret_error" "could not encrypt client secret") (VaultEncrypt v random secret "oidc.client_secret")
  end.
Definition merge_oidc (current : oidcSettings) (input : oidcSettingsInput) (secret : string) : oidcSettings := {|
  oi_Enabled := default (oi_Enabled current) (oj_Enabled input);
  oi_Issuer := match oj_Issuer input with Some s => trim_suffix (trim_space s) "/" | None => oi_Issuer current end;
  oi_ClientID := match oj_ClientID input with Some s => trim_space s | None => oi_ClientID current end;
  oi_ClientSecretEnc := secret;
  oi_RedirectURL := match oj_RedirectURL input with Some s => trim_space s | None => oi_RedirectURL current end;
  oi_Scopes := default (oi_Scopes current) (oj_Scopes input);
  oi_AutoCreateUser := default (oi_AutoCreateUser current) (oj_AutoCreateUser input);
  oi_AllowInsecure := default (oi_AllowInsecure current) (oj_AllowInsecure input);
  oi_AutoLogin := default (oi_AutoLogin current) (oj_AutoLogin input);
  oi_DefaultRoleID := match oj_DefaultRoleID input with Some s => null_if_empty s | None => oi_DefaultRoleID current end |}.
(* src: backend/internal/server/admin.go:269-377 (Server).updateOIDCSettings *)
Definition updateOIDCSettings (p : Principal) (v : Vault) (pv : provider) (r : http_request) (random : result bytes) (input : oidcSettingsInput) : M server oidcView :=
  let failed := fail_with 400 "invalid_oidc_settings" "could not update OIDC settings" in
  _ ← on_db (locked_tx "could not update OIDC settings" "could not lock role delegation" failed
        (current ← load_for_update;
         secret ← lift (next_secret v random (oi_ClientSecretEnc current) (oj_ClientSecret input));
         let next := merge_oidc current input secret in
         _ ← lift (if oi_Enabled next then
                     check_enabled_oidc pv "redirect_url" "enabled OIDC requires issuer, client_id, client_secret, and openid scope"
                       "redirect_url must not contain a query string" false next
                   else Ok ());
         _ ← delegate_default p next;
         wrapM failed (sql (update_oidc next))));
  _ ← on_db (audit_account (pr_UserID p) "settings.oidc.update" "settings" "oidc" "success");
  getOIDCSettings r.

(** A value of [map[string]any], as far as the code looks at it. *)
Inductive setting := SText (s : string) | SBool (b : bool) | SList (l : list setting) | SOther.
(* src: backend/internal/server/settings_ui.go:156-159 settingString *)
Definition settingString (values : gmap string setting) (key : string) : string :=
  match values !! key with Some (SText s) => trim_space s | _ => "" end.
(* src: backend/internal/server/settings_ui.go:160-166 settingBool *)
Definition settingBool (values : gmap string setting) (key : string) (fallback : bool) : bool :=
  match values !! key with Some (SBool b) => b | _ => fallback end.
Definition setting_scopes (values : gmap string setting) : list string :=
  match values !! "scopes" with
  | Some (SText s) => fields s
  | Some (SList l) => omap (λ v, match v with SText s => Some s | _ => None end) l
  | _ => ["openid"; "profile"; "email"]
  end.
Definition named_role (name : string) (t : accounts) : list string :=
  fst <$> filter (λ kr : string * role_row, pg_lower (rl_name kr.2) = pg_lower name ∨ kr.1 = "role-" +:+ to_lower name) (map_to_list (ac_roles t)).
(* src: backend/internal/server/settings_ui.go:335-448 (Server).putOIDCSettings *)
Definition putOIDCSettings (p : Principal) (v : Vault) (pv : provider) (r : http_request) (random : result bytes) (values : gmap string setting) : M server oidcView :=
  let failed := fail_with 500 "database_error" "could not update OIDC settings" in
  _ ← on_db (locked_tx "could not update OIDC settings" "could not lock role delegation" failed
        (current ← load_for_update;
         let enabled := settingBool values "enabled" (oi_Enabled current) in
         let autoCreate := settingBool values "autoProvision" false in
         _ ← deny_if (negb (settingBool values "verifyTls" true) && enabled) 400 "invalid_oidc_settings"
               "TLS verification cannot be disabled; install the internal CA in the service trust store";
         let roleName := if empty_str (settingString values "defaultRole") then "viewer" else settingString values "defaultRole" in
         found ← try (sql_row (λ t, first_row (named_role roleName t)));
         roleID ← (match found with
                   | Ok id => mret (Some id)
                   | Err _ => _ ← deny_if autoCreate 400 "invalid_oidc_settings" "defaultRole does not exist"; mret None
                   end);
         let secret := settingString values "clientSecret" in
         secretEnc ← (if empty_str secret then mret (oi_ClientSecretEnc current) else
                      lift (map_err (fail_with 500 "secret_error" "could not encrypt OIDC secret") (VaultEncrypt v random secret "oidc.client_secret")));
         let next := {| oi_Enabled := enabled; oi_Issuer := trim_right [slash] (settingString values "issuerUrl"); oi_ClientID := settingString values "clientId";
                        oi_ClientSecretEnc := secretEnc; oi_RedirectURL := settingString values "redirectUrl"; oi_Scopes := setting_scopes values;
                        oi_AutoCreateUser := autoCreate; oi_AllowInsecure := settingBool values "allowInsecureEndpoints" (oi_AllowInsecure current);
                        oi_AutoLogin := settingBool values "autoLogin" (oi_AutoLogin current); oi_DefaultRoleID := roleID |} in
         _ ← lift (if enabled then
                     check_enabled_oidc pv "redirectUrl" "enabled OIDC requires issuerUrl, clientId, clientSecret, and openid scope"
                       "redirectUrl must not contain a query string" (empty_str (oi_Issuer next)) next
                   else Ok ());
         _ ← delegate_default p next;
         wrapM failed (sql (update_oidc next))));
  _ ← on_db (audit_account (pr_UserID p) "settings.oidc.update" "settings" "oidc" "success");
  getOIDCSettings r.
End oidc.
