(* ===== verification/Portal.v ===== *)
(** * The account routes of the backend (backend/internal/server/server.go)

    Requests as the multiplexer hands them to their handlers: the route with
    its decoded body, what guards it, and the handler behind the guard. *)
From S2P Require Import Prelude GoIO GoString GoPath OS Encoding Sha256 Crypto Model Db Store Backend Releases Vault Runtime Accounts Rbac NetIP Limiter Network Auth Oidc.

(** ** Routes *)
Inductive route :=
  | Login (username password : string)
  | OidcLogin
  | OidcCallback
  | Logout
  | UpdateProfile (input : profileInput)
  | ChangePassword (current next : string)
  | CreateKey (input : apiKeyInput)
  | RotateKey (id : string)
  | UpdateKey (id : string) (input : apiKeyInput)
  | RevokeKey (id : string)
  | GetOidc
  | UpdateOidc (input : oidcSettingsInput)
  | PutOidc (values : gmap string setting)
  | CreateRole (input : roleCompatInput)
  | UpdateRole (id : string) (input : roleInput)
  | PutRole (id : string) (input : roleCompatInput)
  | ReplacePermissions (id : string) (permissions : list string)
  | DeleteRole (id : string)
  | CreateUser (input : userCompatInput)
  | UpdateUser (id : string) (input : userPatch)
  | PutUser (id : string) (input : userCompatInput)
  | ReplaceRoles (id : string) (roles : list string)
  | GetNetwork
  | PutNetwork (input : networkSettingsInput).

(** The methods and the path a route is registered under. *)
(* src: backend/internal/server/server.go:185-194 (Server).Handler *)
Definition route_pattern (rt : route) : list string * string :=
  let key id := "/api/v1/me/api-keys/" +:+ id in
  let role id := "/api/v1/admin/roles/" +:+ id in
  let user id := "/api/v1/admin/users/" +:+ id in
  match rt with
  | Login _ _ => (["POST"], "/api/v1/auth/login")
  | OidcLogin => (["GET"; "HEAD"], "/api/v1/auth/oidc/login")
  | OidcCallback => (["GET"; "HEAD"], "/api/v1/auth/oidc/callback")
  | Logout => (["POST"], "/api/v1/auth/logout")
  | UpdateProfile _ => (["PUT"], "/api/v1/me/profile")
  | ChangePassword _ _ => (["PUT"], "/api/v1/me/password")
  | CreateKey _ => (["POST"], "/api/v1/me/api-keys")
  | RotateKey id => (["POST"], key id +:+ "/rotate")
  | UpdateKey id _ => (["PATCH"; "PUT"], key id)
  | RevokeKey id => (["DELETE"], key id)
  | GetOidc => (["GET"; "HEAD"], "/api/v1/admin/settings/oidc")
  | UpdateOidc _ => (["PATCH"], "/api/v1/admin/oidc")
  | PutOidc _ => (["PUT"], "/api/v1/admin/settings/oidc")
  | CreateRole _ => (["POST"], "/api/v1/admin/roles")
  | UpdateRole id _ => (["PATCH"], role id)
  | PutRole id _ => (["PUT"], role id)
  | ReplacePermissions id _ => (["PUT"], role id +:+ "/permissions")
  | DeleteRole id => (["DELETE"], role id)
  | CreateUser _ => (["POST"], "/api/v1/admin/users")
  | UpdateUser id _ => (["PATCH"], user id)
  | PutUser id _ => (["PUT"], user id)
  | ReplaceRoles id _ => (["PUT"], user id +:+ "/roles")
  | GetNetwork => (["GET"; "HEAD"], "/api/v1/admin/settings/network")
  | PutNetwork _ => (["PUT"], "/api/v1/admin/settings/network")
  end.

Inductive guard := Public | Authenticated | Permission (permission : string) | SessionPermission (permission : string).
#[export] Instance guard_eq_dec : EqDecision guard.
Proof. solve_decision. Defined.
(* src: backend/internal/server/server.go:149-163 (Server).Handler *)
Definition route_guard (rt : route) : guard :=
  match rt with
  | Login _ _ | OidcLogin | OidcCallback => Public
  | Logout | UpdateProfile _ | ChangePassword _ _ => Authenticated
  | CreateKey _ | RotateKey _ | UpdateKey _ _ | RevokeKey _ => SessionPermission "keys.manage"
  | GetOidc | GetNetwork => Permission "admin.settings.read"
  | UpdateOidc _ | PutOidc _ => Permission "admin.settings.write"
  | CreateRole _ | UpdateRole _ _ | PutRole _ _ | ReplacePermissions _ _ | DeleteRole _ => Permission "admin.rbac.write"
  | CreateUser _ | UpdateUser _ _ | PutUser _ _ | ReplaceRoles _ _ => Permission "admin.users.write"
  | PutNetwork _ => SessionPermission "admin.settings.write"
  end.
Definition guarded (g : guard) (r : http_request) (next : Principal → M server unit) : M server unit :=
  match g with
  | Public => denied 404 "not_found" "API route not found"
  | Authenticated => withAuth r next
  | Permission permission => withPermission permission r next
  | SessionPermission permission => withSessionPermission permission r next
  end.

(** A request, with the identifier and the random bytes its handler draws. *)
Record request := { rq_http : http_request; rq_route : route; rq_newid : result string; rq_random : nat → result bytes }.
(** What the handlers are given of the libraries and of the outside. *)
Class Libraries := {
  lb_text :: ErrorText;
  lb_url : string → result URL; lb_range : loginLimiter → list (string * loginAttempt);
  lb_lower : string → string; lb_row : list string → option string;
  lb_bcrypt : string → result string; lb_matches : string → string → bool;
  lb_rfc3339 : string → option Z; lb_date : string → option Z;
  lb_header : bytes → result (string * string); lb_claims : bytes → result idTokenClaims; lb_rsa : bytes → Z → bytes → bytes → bool;
  lb_provider : provider; lb_vault : Vault
}.

Section portal.
Context `{Libraries}.
Definition void {A} (m : M server A) : M server unit := _ ← m; mret ().

(** *** Handlers behind a guard *)
Definition handle (q : request) (p : Principal) : M server unit :=
  let r := rq_http q in
  match rq_route q with
  | Login _ _ | OidcLogin | OidcCallback => mret ()
  | Logout => logout lb_url p r
  | UpdateProfile input => void (on_db (updateMyProfile p input))
  | ChangePassword current next => on_db (changeMyPassword lb_bcrypt lb_matches p (hq_Session r) current next)
  | CreateKey input => void (on_db (createAPIKey lb_rfc3339 lb_date p r (rq_newid q) (rq_random q 0%nat) input))
  | RotateKey id => void (on_db (rotateAPIKey p id (rq_random q 0%nat)))
  | UpdateKey id input => on_db (updateAPIKey lb_rfc3339 lb_date p r id input)
  | RevokeKey id => on_db (revokeAPIKey p id)
  | GetOidc => void (getOIDCSettings lb_url r)
  | UpdateOidc input => void (updateOIDCSettings lb_url p lb_vault lb_provider r (rq_random q 0%nat) input)
  | PutOidc values => void (putOIDCSettings lb_url lb_lower lb_row p lb_vault lb_provider r (rq_random q 0%nat) values)
  | CreateRole input => on_db (createRoleCompat p (rq_newid q) input)
  | UpdateRole id input => on_db (updateRole p id input)
  | PutRole id input => on_db (putRole p id input)
  | ReplacePermissions id permissions => on_db (replaceRolePermissions p id permissions)
  | DeleteRole id => on_db (deleteRole p id)
  | CreateUser input => on_db (createUser lb_lower lb_row lb_bcrypt p (rq_newid q) input)
  | UpdateUser id input => on_db (updateUser p id input)
  | PutUser id input => on_db (putUser lb_lower lb_row lb_bcrypt p id input)
  | ReplaceRoles id roles => on_db (replaceUserRoles p id roles)
  | GetNetwork => void (getNetworkSettings r)
  | PutNetwork input => void (putNetworkSettings p r input)
  end.
(** *** Sign-in *)
Definition sign_on (q : request) : M server unit :=
  let r := rq_http q in
  match rq_route q with
  | Login username password => void (localLogin lb_url lb_range lb_lower lb_row lb_matches r (rq_random q) username password)
  | OidcLogin => void (oidcLogin lb_url lb_range lb_provider r (rq_random q))
  | OidcCallback => void (oidcCallback lb_url lb_header lb_claims lb_rsa lb_vault lb_provider r (rq_newid q) (rq_random q))
  | _ => mret ()
  end.
Definition routed (q : request) : bool :=
  let '(methods, path) := route_pattern (rq_route q) in
  bool_decide (hq_Method (rq_http q) ∈ methods) && bool_decide (hq_Path (rq_http q) = path).
(* src: backend/internal/server/server.go:308-310 (Server).Handler *)
Definition dispatch (q : request) : M server unit :=
  if negb (routed q) then denied 404 "not_found" "API route not found" else
  match route_guard (rq_route q) with
  | Public => sign_on q
  | g => guarded g (rq_http q) (handle q)
  end.
End portal.
