(* ===== verification/PortalProofs.v ===== *)
(** * What the account routes change

    The handlers of Portal.v against the rules of Delegation.v: an
    administrative handler follows the rules, every other one leaves roles,
    memberships and identities alone, except for the caller's own password and
    a user the identity provider brings. *)
From S2P Require Import Prelude GoIO GoString GoPath OS Model Db Store Encoding Crypto Runtime Sha256 Backend Releases Vault Accounts Rbac Delegation RbacProofs NetIP Limiter Network Auth Oidc Portal.

(** ** Triples for handlers of the backend

    [ends P m Q E] is [triple] (Prelude.v) with assertions on the database
    alone, for the database monad and for that of the server, which holds the
    database. *)

(** What holds a database of accounts. *)
Class Holder (W : Type) := held : W → adb.
#[export] Instance adb_holder : Holder adb := id.
#[export] Instance server_holder : Holder server := sv_db.

Definition ends `{Holder W} {A} (P : adb → Prop) (m : M W A) (Q : A → adb → Prop) (E : adb → Prop) : Prop :=
  triple (λ w, P (held w)) m (λ a w, Q a (held w)) (λ w, E (held w)).

Section ends.
Context `{Holder W}.
Lemma ends_conseq {A} (P P' : adb → Prop) (m : M W A) (Q Q' : A → adb → Prop) (E E' : adb → Prop) :
  ends P m Q E → (∀ d, P' d → P d) → (∀ a d, Q a d → Q' a d) → (∀ d, E d → E' d) → ends P' m Q' E'.
Proof. intros Hm HP HQ HE. eapply triple_conseq; [exact Hm|simpl; auto..]. Qed.
Lemma ends_bind {A B} P (m : M W A) (k : A → M W B) R Q E : ends P m R E → (∀ a, ends (R a) (k a) Q E) → ends P (m ≫= k) Q E.
Proof. apply triple_bind. Qed.
Lemma ends_ret {A} (P : adb → Prop) (a : A) (Q : A → adb → Prop) (E : adb → Prop) : (∀ d, P d → Q a d) → ends (W := W) P (mret a) Q E.
Proof. intros HP. by apply triple_ret; auto. Qed.
Lemma ends_throw {A} (P : adb → Prop) e (Q : A → adb → Prop) (E : adb → Prop) : (∀ d, P d → E d) → ends (W := W) P (throw e) Q E.
Proof. intros HP. by apply triple_throw; auto. Qed.
Lemma ends_lift {A} (P : adb → Prop) (r : result A) (Q : A → adb → Prop) (E : adb → Prop) :
  (∀ d a, P d → r = Ok a → Q a d) → (∀ d, P d → E d) → ends (W := W) P (lift r) Q E.
Proof. intros HQ HE. apply triple_lift; auto. Qed.
Lemma ends_wrap {A} P f (m : M W A) Q E : ends P m Q E → ends P (wrapM f m) Q E.
Proof. apply triple_wrap. Qed.
Lemma ends_try {A} P (m : M W A) (Q : A → adb → Prop) (E E' : adb → Prop) :
  ends P m Q E → ends P (try m) (λ r d, match r with Ok a => Q a d | Err _ => E d end) E'.
Proof. intros Hm. eapply triple_conseq; [apply triple_try, Hm|done|by intros [] ?|done]. Qed.
(** A fact that the precondition implies. *)
Lemma ends_assert {A} P φ (m : M W A) Q E : (φ → ends P m Q E) → (∀ d, P d → φ) → ends P m Q E.
Proof. intros Hm HP w Hw. apply Hm; [by eapply HP|done]. Qed.
End ends.

(** ** Statements *)
(** Tables, clock, and when statements fail. *)
Definition at_ (t : accounts) (n : Z) (fs : nat → option string) (d : adb) : Prop := tabs d = t ∧ now d = n ∧ db_faults d = fs.
Section statements.
Context (t : accounts) (n : Z) (fs : nat → option string).
Lemma ends_statement {A} (f : Z → accounts → A * accounts) (E : adb → Prop) :
  (∀ d, at_ t n fs d → E d) → ends (W := adb) (at_ t n fs) (statement f) (λ a d, a = (f n t).1 ∧ at_ (f n t).2 n fs d) E.
Proof.
  intros HE w (Ht & Hn & Hf). unfold statement. destruct (db_aborted w); [by apply HE|]. destruct (db_faults w (db_tick w)); [by apply HE|].
  unfold held, adb_holder, id in *. rewrite Ht, Hn. destruct (f n t); by split_and!.
Qed.
Lemma ends_checked {A} (f : Z → accounts → result (A * accounts)) (E : adb → Prop) :
  (∀ d, at_ t n fs d → E d) → ends (W := adb) (at_ t n fs) (checked f) (λ a d, ∃ t', f n t = Ok (a, t') ∧ at_ t' n fs d) E.
Proof.
  intros HE w (Ht & Hn & Hf). unfold checked. destruct (db_aborted w); [by apply HE|]. destruct (db_faults w (db_tick w)); [by apply HE|].
  unfold held, adb_holder, id in *. rewrite Ht, Hn. destruct (f n t) as [[a t']|]; [exists t'; by split_and!|by apply HE].
Qed.
Lemma ends_pool {A} (m : M adb A) (Q : A → accounts → Z → (nat → option string) → Prop) (E : accounts → Z → (nat → option string) → Prop) :
  ends (at_ t n fs) m (λ a d, Q a (tabs d) (now d) (db_faults d)) (λ d, E (tabs d) (now d) (db_faults d)) →
  ends (at_ t n fs) (pool m) (λ a d, Q a (tabs d) (now d) (db_faults d)) (λ d, E (tabs d) (now d) (db_faults d)).
Proof.
  intros Hm w Hw. unfold pool. specialize (Hm (ticked_db (tabs w) false w) Hw). by destruct (m _) as [[a|e] w'].
Qed.
Lemma ends_row {A} (f : accounts → option A) :
  ends (W := adb) (at_ t n fs) (pool (sql_row f)) (λ a d, f t = Some a ∧ at_ t n fs d) (at_ t n fs).
Proof.
  apply (ends_pool _ (λ a t' n' f', f t = Some a ∧ t' = t ∧ n' = n ∧ f' = fs) (λ t' n' f', t' = t ∧ n' = n ∧ f' = fs)). unfold sql_row, sql_read, query.
  eapply ends_bind; [by apply ends_statement|]. cbv beta. intros a. apply ends_lift; [|by intros d [_ ?]].
  intros d b [-> ?] Hb%of_option_ok. by split.
Qed.
Lemma ends_read {A} (f : Z → accounts → A) :
  ends (W := adb) (at_ t n fs) (pool (query f)) (λ a d, a = f n t ∧ at_ t n fs d) (at_ t n fs).
Proof.
  apply (ends_pool _ (λ a t' n' f', a = f n t ∧ t' = t ∧ n' = n ∧ f' = fs) (λ t' n' f', t' = t ∧ n' = n ∧ f' = fs)). by apply ends_statement.
Qed.
Lemma ends_change {A} (f : Z → accounts → A * accounts) :
  ends (W := adb) (at_ t n fs) (pool (statement f)) (λ a d, a = (f n t).1 ∧ at_ (f n t).2 n fs d) (at_ t n fs).
Proof.
  apply (ends_pool _ (λ a t' n' f', a = (f n t).1 ∧ t' = (f n t).2 ∧ n' = n ∧ f' = fs) (λ t' n' f', t' = t ∧ n' = n ∧ f' = fs)). by apply ends_statement.
Qed.
Lemma ends_update {A} (f : Z → accounts → result (A * accounts)) :
  ends (W := adb) (at_ t n fs) (pool (checked f)) (λ a d, ∃ t', f n t = Ok (a, t') ∧ at_ t' n fs d) (at_ t n fs).
Proof.
  apply (ends_pool _ (λ a t' n' f', ∃ t1, f n t = Ok (a, t1) ∧ t' = t1 ∧ n' = n ∧ f' = fs) (λ t' n' f', t' = t ∧ n' = n ∧ f' = fs)). by apply ends_checked.
Qed.
End statements.

(** ** The server *)
Lemma ends_db {A} P (m : M adb A) Q E : ends P m Q E → ends P (on_db m) Q E.
Proof. intros Hm w Hw. specialize (Hm (sv_db w) Hw). unfold on_db. by destruct (m (sv_db w)) as [[a|e] d]. Qed.
Lemma ends_limiter {A} (P : adb → Prop) (f : loginLimiter → A * loginLimiter) (Q : A → adb → Prop) E :
  (∀ a d, P d → Q a d) → ends P (on_limiter f) Q E.
Proof. intros HQ w Hw. unfold on_limiter. destruct (f (sv_limiter w)). by apply HQ. Qed.
Lemma ends_cache (P : adb → Prop) c (Q : unit → adb → Prop) E : (∀ d, P d → Q () d) → ends P (set_cache c) Q E.
Proof. intros HQ w Hw. by apply HQ. Qed.
Lemma ends_settings t n fs now : ends (at_ t n fs) (loadNetworkSettings now) (λ _, at_ t n fs) (at_ t n fs).
Proof.
  assert (ends (at_ t n fs) (row ← on_db (pool (sql_row ac_network)); let cfg := settings_of row in _ ← set_cache (Some (cfg, now + networkSettingsTTL)); mret cfg)
            (λ _, at_ t n fs) (at_ t n fs)) as Hl.
  { eapply ends_bind; [apply ends_db, ends_row|]. cbv beta zeta. intros row. eapply ends_bind; [apply (ends_cache _ _ (λ _, at_ t n fs)); by intros d [_ ?]|].
    intros ?. by apply ends_ret. }
  intros w Hw. unfold loadNetworkSettings. destruct (sv_cache w) as [[c expiry]|]; [destruct (now <? expiry); [done|by apply Hl]|by apply Hl].
Qed.

(** ** What a computation of the server respects *)
Definition sv_tabs (w : server) : accounts := tabs (sv_db w).
(** [keeps R m]: the tables before and after [m] are related, however it ends. *)
Definition keeps (R : accounts → accounts → Prop) {A} (m : M server A) : Prop := ∀ w, R (sv_tabs w) (sv_tabs (m w).2).

Section keeps.
Context (R : accounts → accounts → Prop) `{!PreOrder R}.
Lemma keeps_same {A} (m : M server A) : (∀ w, sv_tabs (m w).2 = sv_tabs w) → keeps R m.
Proof. intros Hm w. by rewrite Hm. Qed.
Lemma keeps_ret {A} (a : A) : keeps R (mret a).
Proof. by apply keeps_same. Qed.
Lemma keeps_throw {A} e : keeps R (@throw server A e).
Proof. by apply keeps_same. Qed.
Lemma keeps_lift {A} (r : result A) : keeps R (lift r).
Proof. by apply keeps_same. Qed.
Lemma keeps_bind {A B} (m : M server A) (k : A → M server B) : keeps R m → (∀ a, keeps R (k a)) → keeps R (m ≫= k).
Proof.
  intros Hm Hk w. unfold mbind, M_bind. specialize (Hm w). destruct (m w) as [[a|e] w1]; [|done]. etrans; [exact Hm|apply Hk].
Qed.
Lemma keeps_wrap {A} g (m : M server A) : keeps R m → keeps R (wrapM g m).
Proof. intros Hm w. unfold wrapM. specialize (Hm w). by destruct (m w). Qed.
Lemma keeps_try {A} (m : M server A) : keeps R m → keeps R (try m).
Proof. intros Hm w. unfold try. specialize (Hm w). by destruct (m w). Qed.
Lemma keeps_db {A} (m : M adb A) : each R m → keeps R (on_db m).
Proof. intros Hm w. unfold on_db, sv_tabs. specialize (Hm (sv_db w)). by destruct (m (sv_db w)). Qed.
Lemma keeps_limiter {A} (f : loginLimiter → A * loginLimiter) : keeps R (on_limiter f).
Proof. apply keeps_same. intros w. unfold on_limiter. by destruct (f (sv_limiter w)). Qed.
Lemma keeps_cache c : keeps R (set_cache c).
Proof. by apply keeps_same. Qed.
Lemma keeps_denied {A} s c m : keeps R (@denied A s c m).
Proof. apply keeps_throw. Qed.
Lemma keeps_void {A} (m : M server A) : keeps R m → keeps R (void m).
Proof. intros Hm. apply keeps_bind; [done|]. intros _. apply keeps_ret. Qed.
Lemma keeps_settings n : keeps R (loadNetworkSettings n).
Proof.
  assert (keeps R (row ← on_db (pool (sql_row ac_network)); let cfg := settings_of row in _ ← set_cache (Some (cfg, n + networkSettingsTTL)); mret cfg)) as Hl.
  { apply keeps_bind; [apply keeps_db; unfold sql_row, sql_read; each_steps|]. intros row. cbv zeta. apply keeps_bind; [apply keeps_cache|]. intros _. apply keeps_ret. }
  intros w. unfold loadNetworkSettings. destruct (sv_cache w) as [[cached expiry]|]; [destruct (n <? expiry); [done|apply Hl]|apply Hl].
Qed.
End keeps.

(** A step of the analysis of a handler. *)
Ltac keeps_step :=
  match goal with
  | |- keeps ?R (let x := _ in _) => cbv zeta
  | |- keeps ?R (let '(_, _) := _ in _) => case_match
  | |- keeps ?R (match ?x with _ => _ end) => destruct x
  | |- keeps ?R (_ ≫= _) => apply (keeps_bind R); [|intros ?]
  | |- keeps ?R (wrapM _ _) => apply (keeps_wrap R)
  | |- keeps ?R (try _) => apply (keeps_try R)
  | |- keeps ?R (on_db _) => apply (keeps_db R)
  | |- keeps ?R (on_limiter _) => apply (keeps_limiter R)
  | |- keeps ?R (set_cache _) => apply (keeps_cache R)
  | |- keeps ?R (lift _) => apply (keeps_lift R)
  | |- keeps ?R (throw _) => apply (keeps_throw R)
  | |- keeps ?R (denied _ _ _) => apply (keeps_denied R)
  | |- keeps ?R (mret _) => apply (keeps_ret R)
  | |- keeps ?R (void _) => apply (keeps_void R)
  | |- keeps ?R (loadNetworkSettings _) => apply (keeps_settings R)
  end.
Ltac keeps_steps := repeat keeps_step.

(** ** Triples on tables alone *)
Definition with_ (t : accounts) (d : adb) : Prop := tabs d = t.
Lemma ends_keeps {A} R t (m : M server A) : keeps R m → ends (with_ t) m (λ _ d, R t (tabs d)) (λ d, R t (tabs d)).
Proof.
  intros Hm w Hw. assert (sv_tabs w = t) as <- by exact Hw. specialize (Hm w). by destruct (m w) as [[a|e] w'].
Qed.
Lemma ends_reads {A} t (m : M server A) : keeps eq m → ends (with_ t) m (λ _, with_ t) (with_ t).
Proof. intros Hm. eapply ends_conseq; [by apply (ends_keeps eq)|done|intros ? ? Hd; exact (eq_sym Hd)|intros ? Hd; exact (eq_sym Hd)]. Qed.
Lemma ends_row_with {A} t (f : accounts → option A) :
  ends (W := adb) (with_ t) (pool (sql_row f)) (λ a d, f t = Some a ∧ with_ t d) (with_ t).
Proof.
  intros w Hw. pose proof (ends_row t (now w) (db_faults w) f w (conj Hw (conj eq_refl eq_refl))) as Hr.
  destruct (pool (sql_row f) w) as [[a|e] w']; [destruct Hr as (? & ? & _)|destruct Hr as (? & _)]; done.
Qed.
Lemma ends_transaction {A} t b c (body : M adb A) (Q : A → accounts → Prop) :
  (∀ n, runs t n body Q) → ends (W := adb) (with_ t) (transaction_with b c body) (λ a d, Q a (tabs d)) (with_ t).
Proof.
  intros Hb w Hw. destruct (transaction_with b c body w) as [r w'] eqn:E.
  destruct (transaction_cases _ _ _ _ _ _ E) as [[Ht [e ->]]|(a & w1 & -> & E1 & Ht & _)]; unfold held, adb_holder, id, with_ in *.
  - congruence.
  - rewrite Ht. exact (proj1 (Hb _ (ticked_db (tabs w) false w) a w1 Hw eq_refl E1)).
Qed.

(** ** Roles, memberships and identities stay *)
(** [neutral P t t']: only users of [P] sign in otherwise than before. *)
Definition neutral (P : string → Prop) (t t' : accounts) : Prop :=
  ac_members t' = ac_members t ∧ ac_grants t' = ac_grants t ∧ ac_oidc t' = ac_oidc t ∧
  ∀ u, us_active <$> ac_users t' !! u = us_active <$> ac_users t !! u ∧ (¬ P u → identities u t' = identities u t).
#[export] Instance neutral_preorder P : PreOrder (neutral P).
Proof.
  split; [done|]. intros t1 t2 t3 (M1 & G1 & O1 & U1) (M2 & G2 & O2 & U2). split_and!; [congruence..|].
  intros u. destruct (U1 u) as [A1 I1], (U2 u) as [A2 I2]. split; [congruence|]. intros HP. by rewrite I2, I1.
Qed.
Definition Nobody : string → Prop := λ _, False.
Lemma neutral_users P f t :
  (∀ u, us_active <$> f (ac_users t) !! u = us_active <$> ac_users t !! u ∧ (¬ P u → identity <$> f (ac_users t) !! u = identity <$> ac_users t !! u)) →
  neutral P t (set_users f t).
Proof. intros Hf. by split_and!. Qed.
Lemma neutral_row P id cond f t b t' :
  (∀ u, us_active (f u) = us_active u ∧ (¬ P id → identity (f u) = identity u)) → update_user id cond f t = Ok (b, t') → neutral P t t'.
Proof.
  intros Hf Hu%update_user_ok. destruct b; [|by subst]. destruct Hu as (u & Hu & _ & ->). apply neutral_users. intros v. rewrite lookup_insert.
  case_decide; [subst v|done]. rewrite Hu. simpl. destruct (Hf u) as [Ha Hi]. split; [by rewrite Ha|]. intros HP. by rewrite Hi.
Qed.
Lemma neutral_contained x P t t' : neutral P t t' → (∀ u, P u → ¬ holds x u t) → contained x t t'.
Proof.
  intros (Hm & Hg & Ho & Hu) HP.
  assert (∀ r, role_holds x r t' → role_holds x r t) as Hr by (intros r; destruct x; simpl; [by rewrite !elem_of_role_codes, Hg|done]).
  assert (∀ u, holds x u t' → holds x u t) as Hh by (intros u; apply holds_mono; [by rewrite Hm|done]).
  split_and!; [|by apply default_same|].
  - intros u Hx%Hh. split; [done|]. apply Hu. intros ?. by eapply HP.
  - intros Hk u r Hur. rewrite Hm in Hur. apply Hk in Hur. destruct (Hu u) as [Ha _]. destruct (ac_users t !! u); [|by destruct Hur].
    destruct (ac_users t' !! u); [by eexists|done].
Qed.
Lemma neutral_admin P t t' : neutral P t t' → has_admin t → has_admin t'.
Proof.
  rewrite !has_admin_spec. intros (Hm & _ & _ & Hu) (u & Ha & Hur). exists u. rewrite Hm. split; [|done]. destruct (Hu u) as [E _].
  unfold active_user in *. destruct (ac_users t !! u), (ac_users t' !! u); naive_solver.
Qed.

(** *** Reading *)
Section reading.
Context (R : accounts → accounts → Prop) `{!PreOrder R}.
Lemma each_sql_read {A} (f : accounts → A) : each R (sql_read f).
Proof. unfold sql_read. each_steps. Qed.
Lemma each_sql_row {A} (f : accounts → option A) : each R (sql_row f).
Proof. unfold sql_row, sql_read. each_steps. Qed.
Lemma each_principal user : each R (principal user).
Proof. unfold principal, sql_row, sql_read. each_steps. Qed.
Lemma each_public url : each R (loadPublicHTTPConfig url).
Proof. unfold loadPublicHTTPConfig, sql_row, sql_read. each_steps. Qed.
Lemma each_cookies url r : each R (useSecureCookies url r).
Proof. unfold useSecureCookies. each_steps. apply each_public. Qed.
Lemma keeps_authenticate r : keeps R (authenticate r).
Proof.
  unfold authenticate. keeps_steps.
  - unfold AuthenticateAPIKey. each_steps. apply each_principal.
  - unfold AuthenticateSession. each_steps. apply each_principal.
Qed.
Lemma keeps_redirect `{ErrorText} url r cfg : keeps R (resolveOIDCRedirectURI url r cfg).
Proof.
  unfold resolveOIDCRedirectURI, requestOrigin. keeps_steps. unfold configuredPublicOrigin. each_steps. apply each_public.
Qed.
Lemma keeps_view `{ErrorText} url r : keeps R (getOIDCSettings url r).
Proof.
  unfold getOIDCSettings. keeps_steps.
  - unfold loadOIDC, sql_row, sql_read. each_steps.
  - unfold configuredPublicOrigin. each_steps. apply each_public.
  - apply keeps_redirect.
Qed.
End reading.
#[export] Hint Resolve each_sql_read each_sql_row each_principal each_public each_cookies keeps_authenticate keeps_redirect keeps_view : keeps_db.

(** *** The handlers *)
Section neutral.
Context `{Libraries}.
Abbreviation quiet := (neutral Nobody).
Lemma quiet_audit a b c d e : each quiet (audit_account a b c d e).
Proof. unfold audit_account, sql_do. each_steps. by split_and!. Qed.
(** What is left of a handler after its steps: the statements. *)
Ltac quiet_steps := keeps_steps; unfold sql, sql_do, sql_row, sql_read, deny_if; each_steps; unfold sql_row, sql_read;
  try (apply quiet_audit); try (apply each_cookies; exact _); try (apply each_principal; exact _); try (by split_and!).
Lemma insert_session_quiet hash s t u t' : insert_session hash s t = Ok (u, t') → quiet t t'.
Proof. unfold insert_session. repeat case_bool_decide; try done. intros [= _ <-]. by split_and!. Qed.
Lemma insert_key_quiet id k t u t' : insert_key id k t = Ok (u, t') → quiet t t'.
Proof. unfold insert_key. destruct (_ || _); [done|]. case_bool_decide; [done|]. intros [= _ <-]. by split_and!. Qed.
Lemma update_key_quiet id user f t b t' : update_key id user f t = Ok (b, t') → quiet t t'.
Proof.
  unfold update_key. destruct (ac_keys t !! id); [|by intros [= _ <-]]. destruct (_ || _); [by intros [= _ <-]|]. destruct (key_taken _ _ _); [done|].
  intros [= _ <-]. by split_and!.
Qed.
Lemma update_network_quiet row t u t' : update_network row t = Ok (u, t') → quiet t t'.
Proof. unfold update_network. destruct (ac_network t); [|by intros [= _ <-]]. destruct (check_enabled row); [|done]. intros [= _ <-]. by split_and!. Qed.
Lemma createSession_quiet r random user method back : keeps quiet (createSession lb_url r random user method back).
Proof. unfold createSession, storePrincipal. quiet_steps. by eapply insert_session_quiet. Qed.
Lemma localLogin_quiet r random username password :
  keeps quiet (localLogin lb_url lb_range lb_lower lb_row lb_matches r random username password).
Proof. unfold localLogin. quiet_steps; apply createSession_quiet. Qed.
Lemma oidcLogin_quiet r random : keeps quiet (oidcLogin lb_url lb_range lb_provider r random).
Proof.
  unfold oidcLogin, loadOIDC. quiet_steps; [by apply keeps_redirect; exact _|..].
  unfold insert_login in *. case_bool_decide; simplify_eq. by split_and!.
Qed.
Lemma logout_quiet p r : keeps quiet (logout lb_url p r).
Proof. unfold logout. quiet_steps. Qed.
Lemma profile_quiet p input : each quiet (updateMyProfile p input).
Proof. unfold updateMyProfile, storePrincipal. quiet_steps. (eapply neutral_row; [|done]). intros u. by split. Qed.
Lemma password_neutral p cookie current next :
  each (neutral (λ u, u = pr_UserID p)) (changeMyPassword lb_bcrypt lb_matches p cookie current next).
Proof.
  unfold changeMyPassword. quiet_steps.
  - eapply neutral_row; [|done]. intros u. by split.
  - unfold audit_account, sql_do. each_steps. by split_and!.
Qed.
Lemma create_key_quiet p r newid random input : each quiet (createAPIKey lb_rfc3339 lb_date p r newid random input).
Proof. unfold createAPIKey. quiet_steps. by eapply insert_key_quiet. Qed.
Lemma rotate_key_quiet p id random : each quiet (rotateAPIKey p id random).
Proof. unfold rotateAPIKey. quiet_steps. by eapply update_key_quiet. Qed.
Lemma update_key_handler_quiet p r id input : each quiet (updateAPIKey lb_rfc3339 lb_date p r id input).
Proof. unfold updateAPIKey. quiet_steps. by eapply update_key_quiet. Qed.
Lemma revoke_key_quiet p id : each quiet (revokeAPIKey p id).
Proof. unfold revokeAPIKey. quiet_steps. by eapply update_key_quiet. Qed.
Lemma getNetwork_quiet r : keeps quiet (getNetworkSettings r).
Proof. unfold getNetworkSettings. quiet_steps. Qed.
Lemma putNetwork_quiet p r input : keeps quiet (putNetworkSettings p r input).
Proof. unfold putNetworkSettings, invalidateNetworkSettings. quiet_steps; [by eapply update_network_quiet|apply getNetwork_quiet]. Qed.

(** *** The settings of the identity provider *)
Context (p : Principal).
Abbreviation follows := (rtc (delegates p)).
Lemma delegate_default_checks t n c : checks t n (delegate_default p c) (λ _, ∀ r, oi_DefaultRoleID c = Some r → may_give p t r).
Proof.
  unfold delegate_default. destruct (oi_DefaultRoleID c) as [role|]; [|by apply runs_ret]. apply checks_wrap.
  eapply checks_weaken; [apply delegated_checks|]. cbv beta. intros _ Hr r [= <-]. apply Hr. by left.
Qed.
Lemma update_oidc_follows c t u t' :
  (∀ r, oi_DefaultRoleID c = Some r → may_give p t r) → update_oidc c t = Ok (u, t') → follows t t'.
Proof.
  intros Hc. unfold update_oidc. destruct (ac_oidc t); [|by intros [= _ <-]].
  destruct (oi_DefaultRoleID c) as [role|] eqn:Ec; [case_bool_decide; [done|]|]; intros [= _ <-]; apply rtc_once, del_default; rewrite Ec; exact Hc.
Qed.
Lemma store_oidc_runs t n c f :
  runs t n (_ ← delegate_default p c; wrapM f (sql (update_oidc c))) (λ _ t', follows t t').
Proof.
  eapply checks_bind; [apply delegate_default_checks|]. cbv beta. intros _ Hc. apply runs_wrap. eapply runs_conseq; [apply runs_sql|].
  cbv beta. intros u t' Hu. by eapply update_oidc_follows.
Qed.
Lemma load_update_checks t n : checks t n load_for_update (λ _, True).
Proof. apply checks_wrap. eapply checks_weaken; [apply checks_row|done]. Qed.
Lemma lift_checks {A} t n (r : result A) : checks t n (lift r) (λ _, True).
Proof. by apply runs_lift. Qed.
Lemma updateOIDC_follows r random input : keeps follows (updateOIDCSettings lb_url p lb_vault lb_provider r random input).
Proof.
  unfold updateOIDCSettings. keeps_steps; [|apply each_audit_account|apply keeps_view; exact _]. apply each_locked; [exact _|]. intros t n.
  eapply checks_bind; [apply load_update_checks|]. intros current _. eapply checks_bind; [apply lift_checks|]. cbv beta zeta. intros secret _.
  eapply checks_bind; [apply lift_checks|]. intros _ _. apply store_oidc_runs.
Qed.
Lemma checks_true {A} t n (m : M adb A) P : checks t n m P → checks t n m (λ _, True).
Proof. intros Hm. by eapply checks_weaken. Qed.
Lemma try_row_checks {A} t n (f : accounts → option A) : checks t n (try (sql_row f)) (λ _, True).
Proof.
  intros w a w' <- <- Hw. apply (proj1 (try_ok _ _ _ _)) in Hw. 
  assert (Hr : reads (tabs w) (now w) (sql_row f)) by (apply reads_bind; [apply reads_query|intros ?; apply reads_lift]).
  destruct (Hr w eq_refl eq_refl) as [Ht Hn]. rewrite Hw in Ht, Hn. done.
Qed.
Lemma putOIDC_follows r random values : keeps follows (putOIDCSettings lb_url lb_lower lb_row p lb_vault lb_provider r random values).
Proof.
  unfold putOIDCSettings. keeps_steps; [|apply each_audit_account|apply keeps_view; exact _]. apply each_locked; [exact _|]. intros t n.
  eapply checks_bind; [apply load_update_checks|]. cbv zeta. intros current _. eapply checks_bind; [apply checks_if|]. intros _ _.
  eapply checks_bind; [apply try_row_checks|]. intros found _.
  eapply (checks_bind _ _ _ _ (λ _, True)); [destruct found; [by apply runs_ret|]; eapply checks_bind; [apply checks_if|]; intros _ _; by apply runs_ret|]. intros role _.
  eapply (checks_bind _ _ _ _ (λ _, True)); [destruct (empty_str _); [by apply runs_ret|apply lift_checks]|]. intros secret _. cbv zeta.
  eapply checks_bind; [apply lift_checks|]. intros _ _. apply store_oidc_runs.
Qed.
End neutral.
