(* ===== verification/AuthProofs.v ===== *)
(** * Who gets past the checks (Auth.v, Network.v, Portal.v)

    What a request must bring before the handler of a guarded route runs. *)
From S2P Require Import Prelude GoIO GoString GoPath OS Model Db Store Encoding Crypto Runtime Sha256 Backend Releases Vault Accounts Rbac Delegation RbacProofs NetIP Limiter Network Auth Oidc Portal PortalProofs.

(** ** Credentials *)
Definition principal_of (user : string) (u : user_row) (t : accounts) : Principal := {|
  pr_UserID := user; pr_Username := us_username u; pr_DisplayName := us_display u; pr_Email := us_email u; pr_AuthSource := us_source u;
  pr_Roles := role_labels user t; pr_Permissions := in_order (user_codes user t); pr_Scopes := []; pr_ViaAPIKey := false; pr_CSRFHash := [] |}.
Definition active_row (t : accounts) (user : string) (u : user_row) : Prop := ac_users t !! user = Some u ∧ us_active u = true.
Definition via_session (s : session_row) (p : Principal) : Principal := {|
  pr_UserID := pr_UserID p; pr_Username := pr_Username p; pr_DisplayName := pr_DisplayName p; pr_Email := pr_Email p;
  pr_AuthSource := pr_AuthSource p; pr_Roles := pr_Roles p; pr_Permissions := pr_Permissions p; pr_Scopes := pr_Scopes p;
  pr_ViaAPIKey := pr_ViaAPIKey p; pr_CSRFHash := se_csrf s |}.
Definition via_key (k : key_row) (p : Principal) : Principal := {|
  pr_UserID := pr_UserID p; pr_Username := pr_Username p; pr_DisplayName := pr_DisplayName p; pr_Email := pr_Email p;
  pr_AuthSource := pr_AuthSource p; pr_Roles := pr_Roles p; pr_Permissions := pr_Permissions p; pr_Scopes := ak_scopes k;
  pr_ViaAPIKey := true; pr_CSRFHash := pr_CSRFHash p |}.

(** A live API key in the header, or else a live session in the cookie, of an
    active user; an unsafe request with a session repeats its CSRF token. *)
Inductive credential (r : http_request) (n : Z) (t : accounts) : Principal → Prop :=
  | by_key token id k u :
      bearer_token r = Some token → ac_keys t !! id = Some k → ak_secret k = TokenHash token → live_key n k = true →
      active_row t (ak_user k) u → credential r n t (via_key k (principal_of (ak_user k) u t))
  | by_session cookie s u :
      bearer_token r = None → hq_Session r = Some cookie → ac_sessions t !! TokenHash cookie = Some s → n < se_expires s →
      active_row t (se_user s) u →
      (isUnsafeMethod (hq_Method r) = true → hq_Header r "X-CSRF-Token" ≠ "" ∧ TokenHash (hq_Header r "X-CSRF-Token") = se_csrf s) →
      credential r n t (via_session s (principal_of (se_user s) u t)).

Lemma principal_ends t n fs user :
  ends (W := adb) (at_ t n fs) (principal user) (λ p d, (∃ u, active_row t user u ∧ p = principal_of user u t) ∧ at_ t n fs d) (at_ t n fs).
Proof.
  unfold principal. eapply ends_bind; [apply ends_row|]. cbv beta. intros u. apply (ends_assert _ (active_row t user u)).
  2:{ intros d [Hu _]. destruct (ac_users t !! user) as [v|] eqn:Ev; [|done]. simpl in Hu. destruct (us_active v) eqn:Ea; [|done]. by injection Hu as <-. }
  intros Hu. eapply ends_bind; [eapply ends_conseq; [apply (ends_read t n fs (λ _, _))| |intros a d Hd; exact Hd|done]; by intros d [_ ?]|].
  cbv beta. intros codes. apply (ends_assert _ (codes = in_order (user_codes user t))); [intros ->|by intros d [-> _]].
  eapply ends_bind; [eapply ends_conseq; [apply (ends_read t n fs (λ _, _))| |intros a d Hd; exact Hd|done]; by intros d [_ ?]|].
  cbv beta. intros labels. apply ends_ret. intros d [-> ?]. split; [by exists u|done].
Qed.

Lemma key_found hash n t k : key_with_secret hash n t = Some k → ∃ id, ac_keys t !! id = Some k ∧ ak_secret k = hash ∧ live_key n k = true.
Proof.
  unfold key_with_secret. destruct (filter _ _) as [|[id k'] l] eqn:E; [done|]. intros [= ->].
  assert ((id, k) ∈ (id, k) :: l) as Hin by by left. rewrite <- E in Hin. apply list_elem_of_filter in Hin as [[Hs Hl] Hin].
  apply elem_of_map_to_list in Hin. by exists id.
Qed.
Definition before_csrf (r : http_request) (n : Z) (t : accounts) (p : Principal) : Prop :=
  (bearer_token r = None → csrf_passes r p = true) → credential r n t p.
Lemma authenticate_ends t n fs r :
  ends (at_ t n fs) (authenticate r) (λ p d, before_csrf r n t p ∧ at_ t n fs d) (at_ t n fs).
Proof.
  unfold authenticate, before_csrf. destruct (bearer_token r) as [token|] eqn:Eb.
  - apply ends_db. unfold AuthenticateAPIKey. destruct (_ || _); [by apply ends_throw|].
    eapply ends_bind; [apply (ends_read t n fs (key_with_secret (TokenHash token)))|]. cbv beta. intros row.
    eapply ends_bind; [by apply (ends_lift _ _ (λ k d, key_with_secret (TokenHash token) n t = Some k ∧ at_ t n fs d)); [intros d k [-> ?] ->%of_option_ok|intros d [_ ?]]|].
    cbv beta. intros k. apply (ends_assert _ (key_with_secret (TokenHash token) n t = Some k)); [|by intros d [? _]]. intros (id & Hk & Hs & Hl)%key_found.
    eapply ends_bind; [eapply ends_conseq; [apply principal_ends| |intros a d Hd; exact Hd|done]; by intros d [_ ?]|]. cbv beta. intros p. apply ends_ret.
    intros d [(u & Hu & ->) ?]. split; [|done]. intros _. by eapply by_key.
  - destruct (hq_Session r) as [cookie|] eqn:Ec; [|by apply ends_throw]. apply ends_db. unfold AuthenticateSession.
    eapply ends_bind; [apply (ends_read t n fs (live_session (TokenHash cookie)))|]. cbv beta. intros row.
    eapply ends_bind; [by apply (ends_lift _ _ (λ s d, live_session (TokenHash cookie) n t = Some s ∧ at_ t n fs d)); [intros d s [-> ?] ->%of_option_ok|intros d [_ ?]]|].
    cbv beta. intros s. apply (ends_assert _ (live_session (TokenHash cookie) n t = Some s)); [|by intros d [? _]]. intros Hs.
    eapply ends_bind; [eapply ends_conseq; [apply principal_ends| |intros a d Hd; exact Hd|done]; by intros d [_ ?]|]. cbv beta. intros p. apply ends_ret.
    intros d [(u & Hu & ->) ?]. split; [|done]. intros Hcsrf. unfold live_session in Hs. destruct (ac_sessions t !! TokenHash cookie) as [s'|] eqn:Es; [|done]. simpl in Hs.
    destruct (n <? se_expires s') eqn:El; [|done]. injection Hs as ->. eapply by_session; [done..|lia|exact Hu|].
    specialize (Hcsrf eq_refl). unfold csrf_passes, ConstantTimeHashEqual in Hcsrf. intros Hm. rewrite Hm in Hcsrf. simpl in Hcsrf. bools. split; [|done].
    intros E. by rewrite E in *.
Qed.

(** ** Networks *)
(** The settings in force: those of the cache while they are fresh, else the row. *)
Definition in_force (r : http_request) (w : server) : option networkSettings :=
  match sv_cache w with
  | Some (cached, expiry) => if hq_Now r <? expiry then Some cached else settings_of <$> ac_network (sv_tabs w)
  | None => settings_of <$> ac_network (sv_tabs w)
  end.
(** The database answers. *)
Definition reachable (w : server) : Prop := ∀ k, db_faults (sv_db w) k = None.
Definition address_admitted (r : http_request) (cfg : networkSettings) : Prop := adminNetworkAllowed cfg (clientIP r (ns_proxyPrefixes cfg)) = true.
Lemma in_force_loaded r w cfg : reachable w → in_force r w = Some cfg → (loadNetworkSettings (hq_Now r) w).1 = Ok cfg.
Proof.
  intros Hr. unfold in_force, loadNetworkSettings.
  assert (settings_of <$> ac_network (sv_tabs w) = Some cfg →
          ((row ← on_db (pool (sql_row ac_network)); let cfg := settings_of row in _ ← set_cache (Some (cfg, hq_Now r + networkSettingsTTL)); mret cfg) w).1 = Ok cfg) as Hl.
  { clear -Hr. destruct w as [[t n fs k ab] l c]. unfold reachable, sv_tabs in *. simpl in *. intros Hc.
    unfold on_db, pool, sql_row, sql_read, query, statement, mbind, M_bind. simpl. rewrite Hr. simpl. destruct (ac_network t); [|done]. by injection Hc as <-. }
  destruct (sv_cache w) as [[cached expiry]|]; [destruct (hq_Now r <? expiry); [by intros [= ->]|exact Hl]|exact Hl].
Qed.

(** ** Guards *)
(** What has been checked when the handler behind a guard is given [p]. *)
Definition may (permission : string) (p : Principal) (t : accounts) : Prop :=
  permission ∈ user_codes (pr_UserID p) t ∧ (pr_ViaAPIKey p = true → permission ∈ pr_Scopes p ∨ "*" ∈ pr_Scopes p).
Definition passed (permission : string) (r : http_request) (w : server) (p : Principal) : Prop :=
  may permission p (sv_tabs w) ∧
  (isAdminRoute permission (hq_Path r) = true → reachable w → ∀ cfg, in_force r w = Some cfg → address_admitted r cfg).
Definition guard_passed (g : guard) (r : http_request) (w : server) (p : Principal) : Prop :=
  match g with
  | Public => False
  | Authenticated => True
  | Permission permission => passed permission r w p
  | SessionPermission permission => passed permission r w p ∧ pr_ViaAPIKey p = false
  end.
(** The tables but for the audit log. *)
Definition without_audits (t : accounts) : accounts :=
  Accounts (ac_users t) (ac_roles t) (ac_codes t) (ac_grants t) (ac_members t) (ac_sessions t) (ac_keys t) (ac_logins t) (ac_oidc t) (ac_network t) (ac_public t) [].
Definition same_data (t t' : accounts) : Prop := without_audits t' = without_audits t.
#[export] Instance same_data_preorder : PreOrder same_data.
Proof. unfold same_data. split; [done|]. intros ????->. done. Qed.
Lemma same_data_audit a b c d e : each same_data (audit_account a b c d e).
Proof. unfold audit_account, sql_do. by each_steps. Qed.

(** The handler [next] ran for [p] on the tables of [w]. *)
Definition ran (next : Principal → M server unit) (w : server) (p : Principal) (o : result unit * server) : Prop :=
  ∃ w1, sv_tabs w1 = sv_tabs w ∧ now (sv_db w1) = now (sv_db w) ∧ db_faults (sv_db w1) = db_faults (sv_db w) ∧ o = next p w1.
Definition refused (w : server) (o : result unit * server) : Prop := (∃ e, o.1 = Err e) ∧ same_data (sv_tabs w) (sv_tabs o.2).
Definition vouched (r : http_request) (w : server) : Principal → Prop := credential r (now (sv_db w)) (sv_tabs w).

Lemma on_db_cache {A} (m : M adb A) w : sv_cache (on_db m w).2 = sv_cache w.
Proof. unfold on_db. by destruct (m (sv_db w)). Qed.
Lemma authenticated_cases r next w :
  refused w (withAuth r next w) ∨
  ∃ p w1, vouched r w p ∧ sv_tabs w1 = sv_tabs w ∧ now (sv_db w1) = now (sv_db w) ∧ db_faults (sv_db w1) = db_faults (sv_db w) ∧
    sv_cache w1 = sv_cache w ∧ withAuth r next w = next p w1.
Proof.
  pose proof (authenticate_ends (sv_tabs w) (now (sv_db w)) (db_faults (sv_db w)) r w) as Ht.
  assert (sv_cache (authenticate r w).2 = sv_cache w) as Hc.
  { unfold authenticate. destruct (bearer_token r); [|destruct (hq_Session r); [|done]]; apply on_db_cache. }
  unfold withAuth, try, mbind, M_bind. specialize (Ht (conj eq_refl (conj eq_refl eq_refl))). destruct (authenticate r w) as [[p|e] w1]; simpl in *.
  - destruct Ht as (Hp & Ht1 & Hn & Hf). destruct (_ && _) eqn:Eb.
    + left. split; [by eexists|]. simpl. by rewrite (Ht1 : sv_tabs w1 = sv_tabs w).
    + right. exists p, w1. split_and!; try done. apply Hp. intros Hbt. rewrite bool_decide_true in Eb by done. simpl in Eb. by destruct (csrf_passes r p).
  - left. destruct Ht as (Ht1 & _). split; [by eexists|]. simpl. by rewrite (Ht1 : sv_tabs w1 = sv_tabs w).
Qed.
Lemma Has_may r n t p permission : credential r n t p → Has p permission = true → may permission p t.
Proof.
  intros Hp [c [Hc Hx]]%existsb_exists. bools. subst c. apply list_elem_of_In in Hc.
  assert (permission ∈ user_codes (pr_UserID p) t) as Hu by by destruct Hp; simpl in *; apply elem_of_in_order.
  split; [done|]. intros Hv. rewrite Hv in *. simpl in *. apply existsb_exists in H0 as [s [Hs Hm]]. apply list_elem_of_In in Hs. apply orb_true_iff in Hm as [->%bool_decide_eq_true| ->%bool_decide_eq_true]; auto.
Qed.

Lemma permission_cases permission r next w :
  refused w (withPermission permission r next w) ∨
  ∃ p, vouched r w p ∧ passed permission r w p ∧ ran next w p (withPermission permission r next w).
Proof.
  unfold withPermission. destruct (authenticated_cases r (λ p, if negb (Has p permission) then denied 403 "forbidden" ("permission required: " +:+ permission) else
    if isAdminRoute permission (hq_Path r) then withAdminNetwork p r (next p) else next p) w) as [?|(p & w1 & Hp & Ht & Hn & Hf & Hc & E)]; [by left|].
  rewrite E. destruct (Has p permission) eqn:Hh; simpl; [|left; split; [by eexists|simpl; by rewrite Ht]]. pose proof (Has_may _ _ _ _ _ Hp Hh) as Hm.
  destruct (isAdminRoute permission (hq_Path r)) eqn:Ha.
  2:{ right. exists p. refine (conj Hp (conj (conj Hm _) _)); [by rewrite Ha|by exists w1]. }
  assert (Hsame : in_force r w1 = in_force r w) by (unfold in_force; by rewrite Hc, Ht).
  pose proof (ends_settings (sv_tabs w1) (now (sv_db w1)) (db_faults (sv_db w1)) (hq_Now r) w1 (conj eq_refl (conj eq_refl eq_refl))) as Hl.
  unfold withAdminNetwork, try, mbind, M_bind. destruct (loadNetworkSettings (hq_Now r) w1) as [[cfg|e] w2] eqn:El; destruct Hl as (Ht2 & Hn2 & Hf2).
  - destruct (adminNetworkAllowed cfg _) eqn:Hal.
    + right. exists p. refine (conj Hp (conj (conj Hm _) _)); [|exists w2; split_and!; by etrans].
      intros _ Hr c Hin. rewrite <- Hsame in Hin. assert (reachable w1) as Hr1 by (intros k; rewrite Hf; apply Hr).
      pose proof (in_force_loaded _ _ _ Hr1 Hin) as Hx. rewrite El in Hx. by injection Hx as ->.
    + left. split; [unfold on_db, denied, throw; destruct (audit_account _ _ _ _ _ _) as [[]]; by eexists|].
      assert (sv_tabs w2 = sv_tabs w) as <- by by etrans. apply (keeps_bind same_data); [|intros ?; apply keeps_denied; exact _]. apply keeps_db, same_data_audit.
  - right. exists p. refine (conj Hp (conj (conj Hm _) _)); [|exists w2; split_and!; by etrans].
    intros _ Hr c Hin. rewrite <- Hsame in Hin. assert (reachable w1) as Hr1 by (intros k; rewrite Hf; apply Hr).
    pose proof (in_force_loaded _ _ _ Hr1 Hin) as Hx. by rewrite El in Hx.
Qed.
Lemma guarded_cases g r next w :
  refused w (guarded g r next w) ∨ ∃ p, vouched r w p ∧ guard_passed g r w p ∧ ran next w p (guarded g r next w).
Proof.
  destruct g as [| |permission|permission]; simpl.
  - left. split; [by eexists|done].
  - destruct (authenticated_cases r next w) as [?|(p & w1 & Hp & ? & ? & ? & _ & E)]; [by left|]. right. exists p. refine (conj Hp (conj I _)). by exists w1.
  - apply permission_cases.
  - unfold withSessionPermission. set (k := λ p, if negb (sessionCanMutatePersonalKeys p) then _ else _).
    destruct (permission_cases permission r k w) as [?|(p & Hp & Hm & w1 & Ht & Hn & Hf & E)]; [by left|].
    rewrite E. unfold k, sessionCanMutatePersonalKeys. rewrite negb_involutive. destruct (pr_ViaAPIKey p) eqn:Hv.
    + left. split; [by eexists|simpl; by rewrite Ht].
    + right. exists p. refine (conj Hp (conj (conj Hm Hv) _)). by exists w1.
Qed.

Lemma dispatch_guarded `{Libraries} q w :
  route_guard (rq_route q) ≠ Public → routed q = true → dispatch q w = guarded (route_guard (rq_route q)) (rq_http q) (handle q) w.
Proof. intros Hg Hr. unfold dispatch. rewrite Hr. simpl. by destruct (route_guard (rq_route q)). Qed.
Lemma dispatch_unrouted `{Libraries} q w : routed q = false → dispatch q w = (Err (writeError 404 "not_found" "API route not found"), w).
Proof. intros Hr. unfold dispatch. by rewrite Hr. Qed.
Lemma dispatch_cases `{Libraries} q w :
  route_guard (rq_route q) ≠ Public →
  refused w (dispatch q w) ∨
  ∃ p, vouched (rq_http q) w p ∧ guard_passed (route_guard (rq_route q)) (rq_http q) w p ∧ ran (handle q) w p (dispatch q w).
Proof.
  intros Hg. destruct (routed q) eqn:Er; [|rewrite dispatch_unrouted by done; left; split; [by eexists|done]].
  rewrite dispatch_guarded by done. apply guarded_cases.
Qed.
(** C9: A request on a guarded route is refused, changing nothing but the audit
    log, or its handler runs for the active user of a live API key or session
    (with the CSRF token if it is unsafe) who holds the permission now, whose
    key includes it, with a session where the route asks for one, and for
    administration from an admitted address if the settings can be read. *)
Theorem requests_authorized `{Libraries} (q : request) (w : server) :
  route_guard (rq_route q) ≠ Public →
  refused w (dispatch q w) ∨
  ∃ p, vouched (rq_http q) w p ∧ guard_passed (route_guard (rq_route q)) (rq_http q) w p ∧ ran (handle q) w p (dispatch q w).
Proof. apply dispatch_cases. Qed.

(** ** The network policy (Network.v)

    Where a request comes from cannot be forged, and nobody locks himself out
    of the administration. *)

(** ** Forwarded addresses *)
Definition reads_as (text : string) (a : addr) : Prop := free_of ","%char text ∧ ParseAddr (trim_space text) = Some a.
Definition trusts (trusted : list prefix) (a : addr) : Prop := prefixesContain trusted (unmap a) = true.
(** What a chain of proxies makes of the header: whatever the caller sent, then
    the address each of them saw. *)
Definition forwarded_header (sent : option string) (hops : list string) : string :=
  match sent with Some s => s +:+ "," +:+ join "," hops | None => join "," hops end.

Lemma unmap_idem a : unmap (unmap a) = unmap a.
Proof. destruct a as [n|n zone]; [done|]. unfold unmap. by destruct (Z.shiftr n 32 =? 65535) eqn:E; rewrite ?E. Qed.
Lemma contains_unmap trusted a : prefixesContain trusted (unmap a) = prefixesContain trusted a.
Proof. unfold prefixesContain. by rewrite unmap_idem. Qed.
Lemma split_header sent hops :
  hops ≠ [] → Forall (free_of ","%char) hops → ∃ front, split_byte ","%char (forwarded_header sent hops) = front ++ hops.
Proof.
  intros Hne Hf. destruct sent as [s|]; simpl; [|exists []; by apply join_split]. exists (split_byte ","%char s).
  change ("," +:+ join "," hops) with (String ","%char (join "," hops)). rewrite split_byte_cat. by rewrite join_split.
Qed.
Lemma forwarded_skips trusted proxies texts rest :
  Forall2 (λ s a, reads_as s a ∧ trusts trusted a) texts proxies → forwarded_client trusted (texts ++ rest) = forwarded_client trusted rest.
Proof.
  induction 1 as [|s a texts proxies [[_ Ha] Ht] _ IH]; [done|]. simpl. rewrite Ha. unfold trusts in Ht. by rewrite Ht.
Qed.

Lemma Forall2_reversed {A B} (P : A → B → Prop) l k : Forall2 P l k → Forall2 P (reverse l) (reverse k).
Proof. induction 1; [constructor|]. rewrite !reverse_cons. by apply Forall2_app; [|repeat constructor]. Qed.

(** C35: The address a request is attributed to is its peer's unless the peer is
    a trusted proxy; behind a chain of trusted proxies, each of which appends
    the address it saw, it is the first address that is not one of them,
    whatever the caller wrote into the header. *)
Theorem caller_address_is_observed (r : http_request) (trusted : list prefix) (peer client : addr)
    (sent : option string) (text : string) (texts : list string) (proxies : list addr) :
  ParseAddr (remoteIP r) = Some peer →
  hq_Header r "X-Forwarded-For" = forwarded_header sent (text :: texts) →
  reads_as text client → ¬ trusts trusted client →
  Forall2 (λ s a, reads_as s a ∧ trusts trusted a) texts proxies →
  (¬ trusts trusted peer → clientIP r trusted = Some (unmap peer)) ∧
  (trusts trusted peer → clientIP r trusted = Some (unmap client)).
Proof.
  intros Hpeer Hhdr [Hfree Hclient] Hnot Hps. unfold clientIP. rewrite Hpeer. unfold trusts in *. split; intros Htr.
  - apply not_true_iff_false in Htr. rewrite Htr. by rewrite orb_true_r.
  - rewrite Htr. rewrite orb_false_r. case_bool_decide as Hnil; [by subst trusted|].
    assert (Forall (free_of ","%char) (text :: texts)) as Hall.
    { constructor; [done|]. clear -Hps. induction Hps as [|s a texts proxies [[? _] _] _ IH]; by constructor. }
    destruct (split_header sent (text :: texts)) as [front Hsplit]; [done..|]. rewrite Hhdr, Hsplit, reverse_app, reverse_cons, <- app_assoc.
    assert (empty_str (forwarded_header sent (text :: texts)) = false) as ->.
    { destruct (forwarded_header sent (text :: texts)) eqn:E; [|done]. simpl in Hsplit. destruct front as [|f front]; [|by destruct front].
      injection Hsplit as <- _. by vm_compute in Hclient. }
    rewrite (forwarded_skips trusted (reverse proxies)); [|by apply Forall2_reversed]. simpl. rewrite Hclient.
    apply not_true_iff_false in Hnot. by rewrite Hnot.
Qed.

(** ** Changing the settings *)
Lemma settings_of_next `{ErrorText} r current input next :
  next_settings r current input = Ok next →
  settings_of {| nw_enabled := ns_AdminAllowlistEnabled next; nw_allowlist := ns_AdminAllowlist next; nw_proxies := ns_TrustedProxies next |} = next ∧
  address_admitted r next.
Proof.
  unfold next_settings. cbv zeta. intros Hn. apply bind_ok in Hn as (_ & _ & Hn). apply bind_ok in Hn as (ap & Hap%map_err_ok & Hn).
  apply bind_ok in Hn as (pp & Hpp%map_err_ok & Hn). apply bind_ok in Hn as (_ & _ & Hn). apply bind_ok in Hn as (_ & Ha%fail_if_ok & [= <-]). bools.
  split; [|done]. unfold settings_of, parsed. simpl. by rewrite Hap, Hpp.
Qed.
Definition admits_caller (r : http_request) (t : accounts) : Prop := ∀ row, ac_network t = Some row → address_admitted r (settings_of row).
Lemma same_network_audit a b c d e : each (λ t t', ac_network t' = ac_network t) (audit_account a b c d e).
Proof. unfold audit_account, sql_do. assert (PreOrder (λ t t' : accounts, ac_network t' = ac_network t)) by (split; [done|congruence]). by each_steps. Qed.
Lemma put_network_ends `{ErrorText} t p r input :
  ends (with_ t) (putNetworkSettings p r input) (λ _ d, admits_caller r (tabs d)) (λ _, True).
Proof.
  unfold putNetworkSettings. eapply ends_bind.
  { apply ends_wrap. eapply ends_conseq; [apply (ends_reads t), keeps_settings; exact _|done|intros ? d Hd; exact Hd|done]. }
  intros current. eapply ends_bind; [by apply (ends_lift _ _ (λ next d, next_settings r current input = Ok next ∧ with_ t d))|]. cbv beta. intros next.
  apply (ends_assert _ (next_settings r current input = Ok next)); [|by intros d [? _]]. intros [Hset Hadm]%settings_of_next.
  eapply ends_bind; [apply ends_wrap, ends_db|].
  { instantiate (1 := λ _ d, admits_caller r (tabs d)). intros w [_ Hw].
    pose proof (ends_update (tabs w) (now w) (db_faults w) (λ _, update_network {| nw_enabled := ns_AdminAllowlistEnabled next; nw_allowlist := ns_AdminAllowlist next; nw_proxies := ns_TrustedProxies next |}) w (conj eq_refl (conj eq_refl eq_refl))) as Hu.
    unfold sql. destruct (pool _ w) as [[u|e] w']; [|done]. destruct Hu as (t' & Hu & Ht & _ & _). intros row. assert (tabs (held w') = t') as -> by exact Ht. clear Ht.
    unfold update_network in Hu. destruct (ac_network (tabs w)) eqn:En; [|injection Hu as _ <-; by rewrite En].
    destruct (check_enabled _); [|done]. injection Hu as _ <-. simpl. intros [= <-]. by rewrite Hset. }
  intros ?. eapply ends_bind; [by apply (ends_cache _ _ (λ _ d, admits_caller r (tabs d)))|]. intros ?.
  assert (∀ A (m : M server A), keeps (λ t t', ac_network t' = ac_network t) m → ends (λ d, admits_caller r (tabs d)) m (λ _ d, admits_caller r (tabs d)) (λ _, True)) as Hk.
  { intros A m Hm w Hw. specialize (Hm w). destruct (m w) as [[x|e] w1]; [|done]. intros row Hrow. apply Hw. by rewrite <- Hrow. }
  assert (PreOrder (λ t t' : accounts, ac_network t' = ac_network t)) by (split; [done|congruence]).
  eapply ends_bind; [apply Hk, keeps_db, same_network_audit|]. intros ?. apply Hk. unfold getNetworkSettings. keeps_steps.
Qed.

(** C36: Whoever changes the network settings can still administer from where he
    is: the settings stored by a request that succeeds admit the address it
    came from. *)
Theorem network_settings_admit_their_author `{Libraries} (q : request) (input : networkSettingsInput) (w w' : server) :
  rq_route q = PutNetwork input → dispatch q w = (Ok (), w') → admits_caller (rq_http q) (sv_tabs w').
Proof.
  intros Er Hd. destruct (dispatch_cases q w) as [[[e He] _]|(p & _ & _ & w1 & _ & _ & _ & E)]; [by rewrite Er|by rewrite Hd in He|].
  rewrite Hd in E. unfold handle in E. rewrite Er in E. symmetry in E. apply bindM_ok in E as (a & w2 & E & [= <-]).
  pose proof (put_network_ends (sv_tabs w1) p (rq_http q) input w1 eq_refl) as Hp. by rewrite E in Hp.
Qed.
