(* ===== verification/OidcProofs.v ===== *)
(** * What a sign-in proves (Auth.v, Oidc.v)

    Sessions are opened for a user whose password was given or whom the
    identity provider vouched for, and a sign-in hands out the default role at
    most. *)
From S2P Require Import Prelude GoIO GoString GoPath OS Model Db Store Encoding Crypto Runtime Sha256 Backend Releases Vault Accounts Rbac Delegation RbacProofs NetIP Limiter Network Auth Oidc Portal PortalProofs AuthProofs.

(** ** Opening a session *)
(** New sessions are of [user], for twelve hours; users stay. *)
Definition opens (user : string) (r : http_request) (t t' : accounts) : Prop :=
  ac_users t' = ac_users t ∧ ac_logins t' = ac_logins t ∧
  ∀ h s, ac_sessions t' !! h = Some s → ac_sessions t !! h = Some s ∨ (se_user s = user ∧ se_expires s = hq_Now r + hours 12).
#[export] Instance opens_preorder user r : PreOrder (opens user r).
Proof.
  split; [intros t; split_and!; [done..|by left]|]. intros t1 t2 t3 (U1 & L1 & S1) (U2 & L2 & S2). split_and!; [congruence..|].
  intros h s [?|?]%S2; [by apply S1|by right].
Qed.
Lemma createSession_opens url r random user method back : keeps (opens user r) (createSession url r random user method back).
Proof.
  unfold createSession, storePrincipal, sql, audit_account, sql_do.
  keeps_steps; each_steps; try (apply each_cookies; exact _); try (apply each_principal; exact _); try (by split_and!; auto).
  unfold insert_session in *. repeat case_bool_decide; simplify_eq. split_and!; [done..|]. intros h s. simpl. rewrite lookup_insert.
  case_decide; [intros [= <-]; by right|by left].
Qed.

(** ** Tokens *)
Section tokens.
Context `{Libraries}.
(** A key of the provider made the signature of these claims. *)
Definition signed (keys : list jwk) (claims : idTokenClaims) : Prop :=
  ∃ header body sig n e kid k signature payload,
    k ∈ keys ∧ usable_key kid k = Some (n, e) ∧ 2048 <= bit_length (number_of n) ∧ raw_url_decode sig = Some signature ∧
    lb_rsa n e (sha256 (to_bytes (header +:+ "." +:+ body))) signature = true ∧
    raw_url_decode body = Some payload ∧ lb_claims payload = Ok claims.
(** The claims are signed by the provider, of its issuer, for this client and
    this attempt, and of now (seconds). *)
Record token_accepted (discovery : oidcDiscovery) (clientID nonce : string) (now : Z) (claims : idTokenClaims) : Prop := {
  ta_signed : ∃ keys, pv_jwks lb_provider (dc_JWKSURI discovery) = Ok (200, Ok keys) ∧ signed keys claims;
  ta_issuer : ic_Issuer claims = dc_Issuer discovery;
  ta_subject : ic_Subject claims ≠ "";
  ta_nonce : ic_Nonce claims = nonce;
  ta_fresh : now - 60 < ic_ExpiresAt claims ∧ ic_IssuedAt claims <= now + 60;
  ta_audience : ∃ audiences, parseAudience (ic_Audience claims) = Ok audiences ∧ clientID ∈ audiences ∧
                  ((1 < length audiences)%nat → ic_AuthorizedParty claims = clientID)
}.
Lemma claims_checked discovery clientID nonce now claims u :
  check_claims discovery clientID nonce now claims = Ok u →
  ic_Issuer claims = dc_Issuer discovery ∧ ic_Subject claims ≠ "" ∧ ic_Nonce claims = nonce ∧
  (now - 60 < ic_ExpiresAt claims ∧ ic_IssuedAt claims <= now + 60) ∧
  ∃ audiences, parseAudience (ic_Audience claims) = Ok audiences ∧ clientID ∈ audiences ∧ ((1 < length audiences)%nat → ic_AuthorizedParty claims = clientID).
Proof.
  unfold check_claims. intros Hc. inv_ok Hc. unfold contains in *. bools. split_and!; [done|by destruct (ic_Subject claims)|done|lia|lia|].
  exists x1. split_and!; [done..|]. intros Hl. apply andb_false_iff in Hc as [?%Nat.ltb_ge|?]; [lia|by bools].
Qed.
Lemma verified pv now raw discovery clientID nonce claims :
  pv = lb_provider → verifyIDToken lb_header lb_claims lb_rsa pv now raw discovery clientID nonce = Ok claims → token_accepted discovery clientID nonce now claims.
Proof.
  intros ->. unfold verifyIDToken. destruct (split_byte _ raw) as [|header [|body [|sig [|]]]]; try done. intros Hv.
  apply bind_ok in Hv as (hb & _ & Hv). apply bind_ok in Hv as ([alg kid] & _ & Hv). apply bind_ok in Hv as (_ & _ & Hv).
  apply bind_ok in Hv as ([status keys] & Hj & Hv). apply bind_ok in Hv as (_ & Hs%fail_if_ok & Hv). apply bind_ok in Hv as (ks & -> & Hv).
  apply bind_ok in Hv as ([n e] & Hk%of_option_ok & Hv). apply bind_ok in Hv as (_ & Hb%fail_if_ok & Hv). apply bind_ok in Hv as (signature & Hsig%of_option_ok & Hv).
  apply bind_ok in Hv as (_ & Hr%fail_if_ok & Hv). apply bind_ok in Hv as (payload & Hp%of_option_ok & Hv). apply bind_ok in Hv as (c & Hd & Hv).
  apply bind_ok in Hv as (u & Hc & [= ->]). apply claims_checked in Hc as (? & ? & ? & ? & ?).
  assert ((n, e) ∈ omap (usable_key kid) ks) as (k & Hin & Hu)%list_elem_of_omap by (destruct (omap _ ks) as [|y l]; [done|]; injection Hk as ->; by left).
  split; [|done..]. bools. assert (status = 200) as -> by lia. exists ks. split; [done|]. exists header, body, sig, n, e, kid, k, signature, payload.
  split_and!; try done; lia.
Qed.

(** ** The user of a token *)
Definition roles_of (cfg : oidcSettings) : gset string := match oi_DefaultRoleID cfg with Some role => {[ role ]} | None => ∅ end.
(** [id] is the active user of the subject: one there was, or a new one with
    the default role. *)
Definition resolved (cfg : oidcSettings) (claims : idTokenClaims) (t : accounts) (id : string) (t' : accounts) : Prop :=
  (∃ u, ac_users t' !! id = Some u ∧ us_active u = true ∧ us_subject u = Some (subject_of claims)) ∧
  ac_sessions t' = ac_sessions t ∧ ac_logins t' = ac_logins t ∧
  (neutral Nobody t t' ∨ ∃ u, ac_users t !! id = None ∧ t' = enrol id u (roles_of cfg) t).

Lemma subject_found subject t id :
  user_with_subject subject t = Some id → ∃ u, ac_users t !! id = Some u ∧ us_active u = true ∧ us_subject u = Some subject.
Proof.
  unfold user_with_subject. destruct (filter _ _) as [|[i u] l] eqn:E; [done|]. intros [= ->].
  assert ((id, u) ∈ (id, u) :: l) as Hin by by left. rewrite <- E in Hin. apply list_elem_of_filter in Hin as [[Hs Ha] Hin].
  apply elem_of_map_to_list in Hin. by exists u.
Qed.
Lemma person_keeps id display email : each (λ t t', neutral Nobody t t' ∧ ac_sessions t' = ac_sessions t ∧ ac_logins t' = ac_logins t ∧
    ∀ v u, ac_users t !! v = Some u → ∃ u', ac_users t' !! v = Some u' ∧ us_active u' = us_active u ∧ us_subject u' = us_subject u)
  (pool (sql (update_user id (λ _, true) (set_person display email)))).
Proof.
  intros w. rewrite pool_run. unfold sql, checked. simpl.
  destruct (db_faults w (S (db_tick w))); simpl; [split_and!; [done..|naive_solver]|].
  destruct (update_user _ _ _ _) as [[b t']|] eqn:E; simpl; [|split_and!; [done..|naive_solver]].
  split; [eapply neutral_row; [|done]; intros u; by split|]. apply update_user_ok in E. destruct b; [|subst; split_and!; [done..|naive_solver]].
  destruct E as (u & Hu & _ & ->). split_and!; [done..|]. intros v x Hx. simpl. rewrite lookup_insert. case_decide; [subst v; simplify_eq; by eexists|eauto].
Qed.
Lemma enrol_runs t n claims username id cfg :
  runs t n (_ ← wrapM (Wrapf "create OIDC user (username may already exist): %w" [])
                   (sql (insert_user id (UserRow username None (ic_Name claims) (ic_Email claims) "oidc" (Some (subject_of claims)) true)));
             match oi_DefaultRoleID cfg with Some role => sql (insert_member id role) | None => mret () end)
    (λ _ t', resolved cfg claims t id t').
Proof.
  eapply runs_bind; [apply runs_wrap, runs_sql|]. cbv beta. intros _ t1 [Hn ->]%insert_user_ok.
  assert (∀ t', t' = enrol id (UserRow username None (ic_Name claims) (ic_Email claims) "oidc" (Some (subject_of claims)) true) (roles_of cfg) t → resolved cfg claims t id t') as Hx.
  { intros t' ->. split_and!; [|done..|eauto]. eexists. simpl. rewrite lookup_insert, decide_True by done. done. }
  unfold roles_of, enrol in Hx. destruct (oi_DefaultRoleID cfg) as [role|].
  - eapply runs_conseq; [apply runs_sql|]. cbv beta. intros u t' ->%insert_member_ok. apply Hx. unfold set_members. simpl. f_equal. by rewrite set_map_singleton_L.
  - apply runs_ret, Hx. unfold set_members. simpl. rewrite set_map_empty, (left_id_L ∅ (∪)). done.
Qed.
Lemma resolve_ends t cfg newid claims :
  ends (W := adb) (with_ t) (resolveOIDCUser cfg newid claims) (λ id d, resolved cfg claims t id (tabs d))
    (λ d, neutral Nobody t (tabs d) ∧ ac_sessions (tabs d) = ac_sessions t ∧ ac_logins (tabs d) = ac_logins t).
Proof.
  assert (∀ d, with_ t d → neutral Nobody t (tabs d) ∧ ac_sessions (tabs d) = ac_sessions t ∧ ac_logins (tabs d) = ac_logins t) as Hid by by intros d <-.
  unfold resolveOIDCUser. eapply ends_bind; [apply ends_try, ends_row_with|]. cbv beta. intros [id|e].
  - apply (ends_assert _ (user_with_subject (subject_of claims) t = Some id)); [|by intros d [? _]]. intros (u & Hu & Ha & Hs)%subject_found.
    eapply ends_bind.
    { instantiate (1 := λ _ d, resolved cfg claims t id (tabs d)). intros w [_ Hw]. assert (tabs w = t) as <- by exact Hw.
      pose proof (person_keeps id (ic_Name claims) (ic_Email claims) w) as (Hneu & Hse & Hlo & Hus). unfold try. destruct (pool _ w) as [r w']. simpl in *.
      destruct (Hus _ _ Hu) as (u' & Hu' & Ha' & Hs'). split_and!; [|done..|by left]. exists u'. by rewrite Ha', Hs'. }
    intros r. by apply ends_ret.
  - destruct (negb _); [by apply ends_throw|]. eapply ends_bind; [by apply (ends_lift _ _ (λ _, with_ t))|]. intros ?. cbv zeta.
    eapply ends_bind; [by apply (ends_lift _ _ (λ _, with_ t))|]. intros ?. eapply ends_bind; [by apply (ends_lift _ _ (λ _, with_ t))|]. intros id.
    eapply ends_bind; [|intros u; by apply ends_ret; intros d Hd; exact Hd].
    eapply ends_conseq; [apply (ends_transaction t _ _ _ (λ _, resolved cfg claims t id)); intros n; apply enrol_runs|done|done|exact Hid].
Qed.
End tokens.

(** ** The two ways to sign in *)
Section sign_in.
Context `{Libraries}.
(** [QueryRow] takes one of the rows. *)
Definition takes_rows : Prop := ∀ rows row, lb_row rows = Some row → row ∈ rows.

(** A password was given that is the user's. *)
Definition knows_password (username password : string) (t : accounts) (user : string) : Prop :=
  ∃ u hash, ac_users t !! user = Some u ∧ us_active u = true ∧ us_source u = "local" ∧ us_hash u = Some hash ∧ hash ≠ "" ∧
    lb_matches hash password = true ∧ lb_lower (us_username u) = lb_lower (NormalizeUsername username).
(** The browser that began the attempt came back in time, and the provider
    vouches for the subject of an active user; the attempt is used up. *)
Definition provider_vouches (r : http_request) (n : Z) (t t' : accounts) (user : string) : Prop :=
  let state := hq_Query r "state" in
  ∃ l cfg discovery claims u,
    state ≠ "" ∧ hq_StateCookie r = Some state ∧ ac_logins t !! TokenHash state = Some l ∧ n < li_expires l ∧
    ac_logins t' !! TokenHash state = None ∧
    ac_oidc t = Some cfg ∧ oi_Enabled cfg = true ∧ discoverOIDC lb_url lb_provider (oi_Issuer cfg) (oi_AllowInsecure cfg) = Ok discovery ∧
    token_accepted discovery (oi_ClientID cfg) (li_nonce l) (hq_Now r `div` 1000) claims ∧
    ac_users t' !! user = Some u ∧ us_active u = true ∧ us_subject u = Some (subject_of claims).
Definition earned (q : request) (n : Z) (t t' : accounts) (user : string) : Prop :=
  match rq_route q with
  | Login username password => knows_password username password t user
  | OidcCallback => provider_vouches (rq_http q) n t t' user
  | _ => False
  end.
Definition new_sessions (q : request) (n : Z) (t t' : accounts) : Prop :=
  ∀ h s, ac_sessions t' !! h = Some s → ac_sessions t !! h = Some s ∨ (earned q n t t' (se_user s) ∧ se_expires s = hq_Now (rq_http q) + hours 12).

Lemma local_user_known (Hrow : takes_rows) username password t id hash :
  local_user lb_lower lb_row (NormalizeUsername username) t = Some (id, hash) → empty_str hash = false → lb_matches hash password = true →
  knows_password username password t id.
Proof.
  unfold local_user. destruct (lb_row _) as [x|] eqn:Er; [|done]. simpl. intros Hl He Hm. apply Hrow in Er.
  apply list_elem_of_fmap in Er as ([i u] & -> & Hin). apply list_elem_of_filter in Hin as [(Hn & Ha & Hs) Hin]. apply elem_of_map_to_list in Hin. simpl in *.
  rewrite Hin in Hl. simpl in Hl. destruct (us_hash u) as [h|] eqn:Eh; [|done]. simpl in Hl. injection Hl as <- <-. exists u, h. split_and!; try done. by destruct h.
Qed.
Definition no_session (t t' : accounts) : Prop := ac_sessions t' = ac_sessions t.
#[global] Instance no_session_preorder : PreOrder no_session.
Proof. unfold no_session. split; [done|]. intros ????->. done. Qed.
Lemma no_session_audit a b c d e : each no_session (audit_account a b c d e).
Proof. unfold audit_account, sql_do. by each_steps. Qed.

Lemma login_ends (Hrow : takes_rows) t r random username password :
  ends (with_ t) (localLogin lb_url lb_range lb_lower lb_row lb_matches r random username password)
    (λ _ d, ∀ h s, ac_sessions (tabs d) !! h = Some s → ac_sessions t !! h = Some s ∨ (knows_password username password t (se_user s) ∧ se_expires s = hq_Now r + hours 12))
    (λ d, ∀ h s, ac_sessions (tabs d) !! h = Some s → ac_sessions t !! h = Some s ∨ (knows_password username password t (se_user s) ∧ se_expires s = hq_Now r + hours 12)).
Proof.
  assert (∀ A (m : M server A), keeps no_session m → ends (with_ t) m
    (λ _ d, ∀ h s, ac_sessions (tabs d) !! h = Some s → ac_sessions t !! h = Some s ∨ (knows_password username password t (se_user s) ∧ se_expires s = hq_Now r + hours 12))
    (λ d, ∀ h s, ac_sessions (tabs d) !! h = Some s → ac_sessions t !! h = Some s ∨ (knows_password username password t (se_user s) ∧ se_expires s = hq_Now r + hours 12))) as Hno.
  { intros A m Hm. eapply ends_conseq; [by apply (ends_keeps no_session)|done|intros a d Hd h s; rewrite Hd; by left|intros d Hd h s; rewrite Hd; by left]. }
  unfold localLogin. cbv zeta. eapply ends_bind; [apply (ends_limiter _ _ (λ _, with_ t)); done|]. intros ok. destruct (negb ok); [apply Hno; keeps_steps|].
  eapply ends_bind; [apply ends_try, ends_db, ends_row_with|]. cbv beta. intros [[id hash]|e].
  2:{ apply Hno. keeps_steps. apply no_session_audit. }
  apply (ends_assert _ (local_user lb_lower lb_row (NormalizeUsername username) t = Some (id, hash))); [|by intros d [? _]]. intros Hu.
  eapply ends_conseq; [|by intros d [_ Hd]; exact Hd|intros a d Hd; exact Hd|intros d Hd; exact Hd].
  destruct (_ && _) eqn:Ep; [|apply Hno; keeps_steps; apply no_session_audit]. bools. assert (knows_password username password t id) as Hk by by eapply local_user_known.
  eapply ends_bind; [apply (ends_limiter _ _ (λ _, with_ t)); done|]. intros ?. eapply ends_conseq.
  - apply (ends_keeps (opens id r)), createSession_opens.
  - done.
  - intros ? d (_ & _ & Hs) h s [?|[-> ?]]%Hs; [by left|by right].
  - intros d (_ & _ & Hs) h s [?|[-> ?]]%Hs; [by left|by right].
Qed.

(** What the callback leaves: the same sessions, or one that is earned, and the
    user of the provider at most. *)
Definition called_back (r : http_request) (n : Z) (t t' : accounts) : Prop :=
  (∀ h s, ac_sessions t' !! h = Some s → ac_sessions t !! h = Some s ∨ (provider_vouches r n t t' (se_user s) ∧ se_expires s = hq_Now r + hours 12)) ∧
  ∃ t1, neutral Nobody t t1 ∧ (neutral Nobody t1 t' ∨ ∃ cfg id u t2, ac_oidc t = Some cfg ∧ ac_users t1 !! id = None ∧ t2 = enrol id u (roles_of cfg) t1 ∧ neutral Nobody t2 t').
Lemma called_back_quiet r n t t' : neutral Nobody t t' → no_session t t' → called_back r n t t'.
Proof. intros Hq Hs. split; [intros h s; rewrite Hs; by left|]. exists t'. split; [done|by left]. Qed.
Lemma exchanged pv r cfg discovery code uri l claims :
  pv = lb_provider →
  exchange_code lb_header lb_claims lb_rsa lb_vault pv r cfg discovery code uri l = Ok claims →
  token_accepted discovery (oi_ClientID cfg) (li_nonce l) (hq_Now r `div` 1000) claims.
Proof.
  intros ->. unfold exchange_code. intros He. apply bind_ok in He as (secret & _ & He). apply bind_ok in He as ([status body] & _ & He).
  apply bind_ok in He as (_ & _ & He). apply bind_ok in He as (token & _ & He). apply bind_ok in He as (_ & _ & He%map_err_ok). by eapply verified.
Qed.
Lemma take_login_quiet hash cond t : neutral Nobody t (take_login hash cond t).2 ∧ no_session t (take_login hash cond t).2.
Proof. unfold take_login. destruct (ac_logins t !! hash) as [l|]; [destruct (cond l)|]; by split_and!. Qed.
Lemma cookies_ends t n fs url r : ends (at_ t n fs) (on_db (useSecureCookies url r)) (λ _, at_ t n fs) (at_ t n fs).
Proof.
  apply ends_db. unfold useSecureCookies. destruct (hq_TLS r); [by apply ends_ret|]. eapply ends_bind; [|intros a; apply ends_ret; by intros d Hd; exact Hd].
  eapply ends_conseq; [apply (ends_try _ _ (λ _, at_ t n fs) (at_ t n fs))|done|by intros []|intros d Hd; exact Hd].
  unfold loadPublicHTTPConfig. eapply ends_bind; [apply ends_row|]. cbv beta. intros row.
  eapply ends_bind; [by apply (ends_lift _ _ (λ _, at_ t n fs)); [intros ? ? [_ ?]|intros ? [_ ?]]|]. intros ?.
  eapply ends_bind; [by apply (ends_lift _ _ (λ _, at_ t n fs))|]. intros ?. by apply ends_ret.
Qed.
Definition silently (t t' : accounts) : Prop := neutral Nobody t t' ∧ no_session t t'.
#[local] Instance silently_preorder : PreOrder silently.
Proof. unfold silently. split; [done|]. intros t1 t2 t3 [? ?] [? ?]. split; by etrans. Qed.
Lemma silent_attempt_keeps state : keeps silently (silent_attempt state).
Proof. unfold silent_attempt, not_null. keeps_steps. each_steps. apply take_login_quiet. Qed.
(** The session of the user that was resolved. *)
Lemma callback_session t r random cfg claims id back :
  ends (λ d, resolved cfg claims t id (tabs d)) (createSession lb_url r random id "oidc" back)
    (λ _ d, ∃ t1, resolved cfg claims t id t1 ∧ opens id r t1 (tabs d) ∧ neutral Nobody t1 (tabs d))
    (λ d, ∃ t1, resolved cfg claims t id t1 ∧ opens id r t1 (tabs d) ∧ neutral Nobody t1 (tabs d)).
Proof.
  intros w Hw. pose proof (createSession_opens lb_url r random id "oidc" back w) as Ho. pose proof (createSession_quiet r random id "oidc" back w) as Hq.
  destruct (createSession _ _ _ _ _ _ w) as [[a|e] w']; by exists (sv_tabs w).
Qed.

Lemma taken_back t n r l cfg discovery claims id t1 t2 t3 :
  hq_Query r "state" ≠ "" → hq_StateCookie r = Some (hq_Query r "state") → ac_logins t !! TokenHash (hq_Query r "state") = Some l → n < li_expires l →
  t1 = set_logins (delete (TokenHash (hq_Query r "state"))) t → ac_oidc t = Some cfg → oi_Enabled cfg = true →
  discoverOIDC lb_url lb_provider (oi_Issuer cfg) (oi_AllowInsecure cfg) = Ok discovery →
  token_accepted discovery (oi_ClientID cfg) (li_nonce l) (hq_Now r `div` 1000) claims →
  resolved cfg claims t1 id t2 → opens id r t2 t3 → neutral Nobody t2 t3 → called_back r n t t3.
Proof.
  intros ? ? Hl ? -> ? ? ? ? ((u & Hu & Ha & Hs) & Hse & Hlo & Hcase) (Hus & Hlo3 & Hnew) Hq. split.
  - intros h s Hin. destruct (Hnew h s Hin) as [Hold|[-> ?]]; [left; by rewrite Hse in Hold|]. right. split; [|done].
    exists l, cfg, discovery, claims, u. rewrite Hus, Hlo3, Hlo. simpl. rewrite lookup_delete, decide_True by done. done.
  - exists (set_logins (delete (TokenHash (hq_Query r "state"))) t). split; [by split_and!|]. destruct Hcase as [?|(v & Hn & ->)]; [left; by etrans|].
    right. exists cfg, id, v, (enrol id v (roles_of cfg) (set_logins (delete (TokenHash (hq_Query r "state"))) t)). done.
Qed.
Lemma finish_ends t n r newid random code l :
  hq_Query r "state" ≠ "" → hq_StateCookie r = Some (hq_Query r "state") → ac_logins t !! TokenHash (hq_Query r "state") = Some l → n < li_expires l →
  ends (with_ (set_logins (delete (TokenHash (hq_Query r "state"))) t)) (finish_callback lb_url lb_header lb_claims lb_rsa lb_vault lb_provider r newid random code l)
    (λ _ d, called_back r n t (tabs d)) (λ d, called_back r n t (tabs d)).
Proof.
  intros Hst Hck Hl Hx. unfold finish_callback. cbv zeta.
  set (t1 := set_logins (delete (TokenHash (hq_Query r "state"))) t).
  assert (∀ t', silently t1 t' → called_back r n t t') as Hq1.
  { intros t' [Hq Hs]. apply called_back_quiet; [|exact Hs]. etrans; [|exact Hq]. by split_and!. }
  assert (∀ d, with_ t1 d → called_back r n t (tabs d)) as Ht1 by by intros d <-; apply Hq1.
  eapply ends_bind; [eapply ends_conseq; [apply ends_wrap, ends_db, (ends_row_with t1)|done|intros ? d Hd; exact Hd|exact Ht1]|]. cbv beta. intros cfg.
  apply (ends_assert _ (ac_oidc t = Some cfg)); [|by intros d [? _]]. intros Hcfg.
  eapply ends_bind; [apply (ends_lift _ _ (λ _ d, oi_Enabled cfg = true ∧ with_ t1 d)); [intros d ? [_ Hd] Hf%fail_if_ok; by bools|by intros d [_ ?]; apply Ht1]|]. intros ?.
  apply (ends_assert _ (oi_Enabled cfg = true)); [|by intros d [? _]]. intros Hen.
  eapply ends_bind.
  { instantiate (1 := λ _, with_ t1). destruct (empty_str (li_redirect l)); [|by apply ends_ret; intros d [_ ?]].
    eapply ends_conseq; [apply (ends_reads t1), keeps_redirect; exact _|by intros d [_ ?]|done|exact Ht1]. }
  intros uri. eapply ends_bind; [apply ends_wrap, (ends_lift _ _ (λ discovery d, discoverOIDC lb_url lb_provider (oi_Issuer cfg) (oi_AllowInsecure cfg) = Ok discovery ∧ with_ t1 d)); [done|exact Ht1]|].
  cbv beta. intros discovery. apply (ends_assert _ (discoverOIDC lb_url lb_provider (oi_Issuer cfg) (oi_AllowInsecure cfg) = Ok discovery)); [|by intros d [? _]]. intros Hdi.
  eapply ends_bind; [apply (ends_lift _ _ (λ claims d, token_accepted discovery (oi_ClientID cfg) (li_nonce l) (hq_Now r `div` 1000) claims ∧ with_ t1 d))|].
  { intros d claims [_ Hd] He. split; [by eapply exchanged|done]. }
  { by intros d [_ ?]; apply Ht1. }
  cbv beta. intros claims. apply (ends_assert _ (token_accepted discovery (oi_ClientID cfg) (li_nonce l) (hq_Now r `div` 1000) claims)); [|by intros d [? _]]. intros Hta.
  eapply ends_bind; [eapply ends_conseq; [apply ends_wrap, ends_db, (resolve_ends t1 cfg newid claims)|by intros d [_ ?]|intros ? d Hd; exact Hd|]|].
  { intros d (Hq & Hs & _). by apply Hq1. }
  cbv beta. intros id.
  assert (∀ d, (∃ t2, resolved cfg claims t1 id t2 ∧ opens id r t2 (tabs d) ∧ neutral Nobody t2 (tabs d)) → called_back r n t (tabs d)) as Hfin.
  { intros d (t2 & Hr & Ho & Hq). by eapply taken_back. }
  eapply ends_bind; [eapply ends_conseq; [apply callback_session|intros d Hd; exact Hd|intros ? d Hd; exact Hd|exact Hfin]|]. cbv beta. intros sess. by apply ends_ret.
Qed.
Lemma callback_ends t n fs r newid random :
  ends (at_ t n fs) (oidcCallback lb_url lb_header lb_claims lb_rsa lb_vault lb_provider r newid random)
    (λ _ d, called_back r n t (tabs d)) (λ d, called_back r n t (tabs d)).
Proof.
  assert (∀ d, at_ t n fs d → called_back r n t (tabs d)) as Hsame by by intros d (-> & _); apply called_back_quiet.
  unfold oidcCallback. cbv zeta. destruct (negb (empty_str (hq_Query r "error"))).
  { eapply ends_conseq; [eapply (ends_keeps silently t)|by intros d [? _]|by intros _ d [? ?]; apply called_back_quiet|by intros d [? ?]; apply called_back_quiet].
    keeps_steps. apply silent_attempt_keeps. }
  eapply ends_bind; [apply (ends_lift _ _ (λ _ d, (hq_Query r "state" ≠ "" ∧ hq_StateCookie r = Some (hq_Query r "state")) ∧ at_ t n fs d))|].
  { intros d a Hd Hf%fail_if_ok. bools. split; [|done]. split; [by destruct (hq_Query r "state")|done]. }
  { exact Hsame. }
  intros ?. apply (ends_assert _ (hq_Query r "state" ≠ "" ∧ hq_StateCookie r = Some (hq_Query r "state"))); [|by intros d [? _]]. intros [Hst Hck].
  eapply ends_bind; [eapply ends_conseq; [apply (cookies_ends t n fs)|by intros d [_ ?]|intros ? d Hd; exact Hd|exact Hsame]|]. intros ?.
  eapply ends_bind.
  { apply ends_wrap. eapply ends_bind; [eapply ends_conseq; [apply ends_db, (ends_change t n fs)|done|intros ? d Hd; exact Hd|exact Hsame]|]. cbv beta. intros row.
    apply (ends_lift _ _ (λ l d, (ac_logins t !! TokenHash (hq_Query r "state") = Some l ∧ n < li_expires l) ∧ with_ (set_logins (delete (TokenHash (hq_Query r "state"))) t) d)).
    - intros d l [-> (Hd & _)] Hl%of_option_ok. unfold take_login in *. destruct (ac_logins t !! _) as [l'|] eqn:El; [|done].
      destruct (n <? li_expires l') eqn:Ex; [|done]. injection Hl as ->. split; [split; [done|lia]|exact Hd].
    - intros d [_ (Hd & _)]. rewrite Hd. apply called_back_quiet; apply take_login_quiet. }
  cbv beta. intros l. apply (ends_assert _ (ac_logins t !! TokenHash (hq_Query r "state") = Some l ∧ n < li_expires l)); [|by intros d [? _]]. intros [Hl Hx].
  eapply ends_conseq; [by apply (finish_ends t n r newid random (hq_Query r "code") l)|by intros d [_ ?]|intros ? d Hd; exact Hd|intros d Hd; exact Hd].
Qed.
End sign_in.

(** ** Sessions are earned (Portal.v) *)

Section sessions.
Context `{Libraries}.
(** Behind a guard sessions only end. *)
Definition fewer (t t' : accounts) : Prop := ∀ h s, ac_sessions t' !! h = Some s → ac_sessions t !! h = Some s.
#[local] Instance fewer_preorder : PreOrder fewer.
Proof. unfold fewer. split; [by intros t h s|]. intros t1 t2 t3 H1 H2 h s Hs. by apply H1, H2. Qed.
Lemma delegates_fewer p t t' : rtc (delegates p) t t' → fewer t t'.
Proof. induction 1 as [|t1 t2 t3 Hd _ IH]; [by intros h s|]. etrans; [|exact IH]. destruct Hd; by intros h s. Qed.
Lemma fewer_audit a b c d e : each fewer (audit_account a b c d e).
Proof. unfold audit_account, sql_do. each_steps. by intros h s. Qed.
Lemma fewer_row id cond f t b t' : update_user id cond f t = Ok (b, t') → fewer t t'.
Proof. intros Hu%update_user_ok. destruct b; [|subst; by intros h s]. destruct Hu as (u & _ & _ & ->). by intros h s. Qed.
Lemma fewer_insert_key id k t u t' : insert_key id k t = Ok (u, t') → fewer t t'.
Proof. unfold insert_key. destruct (_ || _); [done|]. case_bool_decide; [done|]. intros [= _ <-]; by intros h s. Qed.
Lemma fewer_update_key id user f t b t' : update_key id user f t = Ok (b, t') → fewer t t'.
Proof.
  unfold update_key. destruct (ac_keys t !! id); [|intros [= _ <-]; by intros h s]. destruct (_ || _); [intros [= _ <-]; by intros h s|]. destruct (key_taken _ _ _); [done|]. intros [= _ <-]; by intros h s.
Qed.
Lemma fewer_network row t u t' : update_network row t = Ok (u, t') → fewer t t'.
Proof. unfold update_network. destruct (ac_network t); [|intros [= _ <-]; by intros h s]. destruct (check_enabled row); [|done]. intros [= _ <-]; by intros h s. Qed.
Lemma fewer_end user cookie t : fewer t (end_sessions user cookie t).
Proof. intros h s. unfold end_sessions. simpl. by intros [? _]%map_lookup_filter_Some. Qed.
Lemma fewer_delete h t : fewer t (set_sessions (delete h) t).
Proof. intros h' s. simpl. by intros [_ ?]%lookup_delete_Some. Qed.
Lemma keeps_weaken (R R' : accounts → accounts → Prop) {A} (m : M server A) : (∀ t t', R t t' → R' t t') → keeps R m → keeps R' m.
Proof. intros HR Hm w. by apply HR. Qed.
Lemma each_weaken (R R' : accounts → accounts → Prop) {A} (m : M adb A) : (∀ t t', R t t' → R' t t') → each R m → each R' m.
Proof. intros HR Hm w. by apply HR. Qed.
Ltac fewer_steps :=
  keeps_steps; unfold sql, sql_do, deny_if; each_steps; try (apply fewer_audit); try (apply each_sql_row; exact _); try (apply each_cookies; exact _);
  try (apply each_principal; exact _); try (apply fewer_delete); try (apply fewer_end);
  try (by eapply fewer_row); try (by eapply fewer_insert_key); try (by eapply fewer_update_key); try (by eapply fewer_network); try (by intros h s).

Lemma handle_fewer q p : keeps fewer (handle q p).
Proof.
  pose proof (delegates_fewer p) as Hd. unfold handle. cbv zeta.
  destruct (rq_route q).
  1-3: apply keeps_ret; exact _.
  1: unfold logout; fewer_steps.
  1: apply keeps_void, keeps_db; [exact _|]; unfold updateMyProfile, storePrincipal; fewer_steps.
  1: apply keeps_db; unfold changeMyPassword; fewer_steps.
  1: apply keeps_void, keeps_db; [exact _|]; unfold createAPIKey; fewer_steps.
  1: apply keeps_void, keeps_db; [exact _|]; unfold rotateAPIKey; fewer_steps.
  1: apply keeps_db; unfold updateAPIKey; fewer_steps.
  1: apply keeps_db; unfold revokeAPIKey; fewer_steps.
  1: apply keeps_void; [exact _|]; apply keeps_view; exact _.
  1: apply keeps_void; [exact _|]; eapply keeps_weaken; [exact Hd|apply updateOIDC_follows].
  1: apply keeps_void; [exact _|]; eapply keeps_weaken; [exact Hd|apply putOIDC_follows].
  10: apply keeps_void; [exact _|]; unfold getNetworkSettings; fewer_steps.
  10: apply keeps_void; [exact _|]; unfold putNetworkSettings, invalidateNetworkSettings, getNetworkSettings; fewer_steps.
  all: apply keeps_db; eapply each_weaken; [exact Hd|].
  - apply createRole_follows.
  - apply updateRole_follows.
  - apply putRole_follows.
  - apply replaceRolePermissions_follows.
  - apply deleteRole_follows.
  - apply createUser_follows.
  - exact (updateUser_follows lb_lower lb_bcrypt p id input).
  - apply putUser_follows.
  - apply replaceUserRoles_follows.
Qed.

Lemma ran_fewer next w p o : (∀ p, keeps fewer (next p)) → ran next w p o → fewer (sv_tabs w) (sv_tabs o.2).
Proof. intros Hk (w1 & Ht & _ & _ & ->). rewrite <- Ht. apply Hk. Qed.
Lemma oidc_login_silent r random : keeps no_session (oidcLogin lb_url lb_range lb_provider r random).
Proof.
  unfold oidcLogin, loadOIDC. keeps_steps; each_steps; try (apply each_sql_row; exact _); try (apply keeps_redirect; exact _); try (apply each_cookies; exact _).
  unfold insert_login in *. case_bool_decide; by simplify_eq.
Qed.
Lemma void_ends {A} P (m : M server A) (Q : adb → Prop) : ends P m (λ _, Q) Q → ends P (void m) (λ _, Q) Q.
Proof. intros Hm. eapply ends_bind; [exact Hm|]. intros a. by apply ends_ret. Qed.

(** C8: A request opens no session but by signing in: for a user whose password
    it gave, or whom the identity provider vouches for (the state of the
    browser's own, unexpired attempt, which is used up, and a token signed by
    a key of the provider for this client, this attempt and now); the session
    lasts twelve hours. *)
Theorem sessions_are_earned (q : request) (w : server) :
  takes_rows → new_sessions q (now (sv_db w)) (sv_tabs w) (sv_tabs (dispatch q w).2).
Proof.
  intros Hrow. assert (∀ t', fewer (sv_tabs w) t' → new_sessions q (now (sv_db w)) (sv_tabs w) t') as Hf by (intros t' Hf h s Hs; left; by apply Hf).
  destruct (routed q) eqn:Eq; [|rewrite dispatch_unrouted by done; by apply Hf; intros h s].
  destruct (decide (route_guard (rq_route q) = Public)) as [Hg|Hg].
  2:{ apply Hf. destruct (dispatch_cases q w Hg) as [[_ Hs]|(p & _ & _ & Hr)]; [|eapply ran_fewer; [|exact Hr]; intros; apply handle_fewer].
      intros h s. change (ac_sessions (sv_tabs w)) with (ac_sessions (without_audits (sv_tabs w))). by rewrite <- Hs. }
  unfold dispatch. rewrite Eq, Hg. simpl. unfold sign_on, new_sessions, earned.
  destruct (rq_route q) as [username password| | |  |  |  |  |  |  |  |  |  |  |  |  |  |  |  |  |  |  |  |  |] eqn:Er; try done.
  - pose proof (void_ends _ _ _ (login_ends Hrow (sv_tabs w) (rq_http q) (rq_random q) username password) w eq_refl) as Hl. by destruct (void _ w) as [[a|e] w'].
  - assert (keeps no_session (void (oidcLogin lb_url lb_range lb_provider (rq_http q) (rq_random q)))) as Hk by (apply keeps_void; [exact _|]; apply oidc_login_silent).
    intros h s. rewrite (Hk w). by left.
  - pose proof (void_ends _ _ _ (callback_ends (sv_tabs w) (now (sv_db w)) (db_faults (sv_db w)) (rq_http q) (rq_newid q) (rq_random q)) w (conj eq_refl (conj eq_refl eq_refl))) as Hl.
    destruct (void _ w) as [[a|e] w']; by destruct Hl.
Qed.
End sessions.
