(* ===== verification/PortalSafety.v ===== *)
(** * Requests and authority (Portal.v against Delegation.v) *)
From S2P Require Import Prelude GoIO GoString GoPath OS Encoding Sha256 Crypto Model Db Store Backend Releases Vault Runtime Accounts Rbac Delegation RbacProofs NetIP Limiter Network Auth Oidc Portal PortalProofs AuthProofs OidcProofs.

Section safety.
Context `{Libraries}.

(** ** What a request does to roles, memberships and identities *)
Definition effect (q : request) (p : Principal) (t t' : accounts) : Prop :=
  rtc (delegates p) t t' ∨ neutral Nobody t t' ∨
  ((∃ current next, rq_route q = ChangePassword current next) ∧ neutral (λ u, u = pr_UserID p) t t').
Lemma handle_effect q p w : effect q p (sv_tabs w) (sv_tabs (handle q p w).2).
Proof.
  assert (∀ m : M server unit, keeps (rtc (delegates p)) m → effect q p (sv_tabs w) (sv_tabs (m w).2)) as Hrules by (intros m Hm; left; apply Hm).
  assert (∀ m : M server unit, keeps (neutral Nobody) m → effect q p (sv_tabs w) (sv_tabs (m w).2)) as Hquiet by (intros m Hm; right; left; apply Hm).
  unfold handle. cbv zeta. destruct (rq_route q) eqn:Er.
  6: { right; right. split; [eauto|]. apply keeps_db, password_neutral. }
  1-3: apply Hquiet, keeps_ret; exact _.
  1: apply Hquiet, logout_quiet.
  1: apply Hquiet, keeps_void, keeps_db, profile_quiet; exact _.
  1: apply Hquiet, keeps_void, keeps_db, create_key_quiet; exact _.
  1: apply Hquiet, keeps_void, keeps_db, rotate_key_quiet; exact _.
  1: apply Hquiet, keeps_db, update_key_handler_quiet.
  1: apply Hquiet, keeps_db, revoke_key_quiet.
  1: apply Hquiet, keeps_void, keeps_view; exact _.
  1: apply Hrules, keeps_void, updateOIDC_follows; exact _.
  1: apply Hrules, keeps_void, putOIDC_follows; exact _.
  10: apply Hquiet, keeps_void, getNetwork_quiet; exact _.
  10: apply Hquiet, keeps_void, putNetwork_quiet; exact _.
  all: apply Hrules, keeps_db.
  - apply createRole_follows.
  - apply updateRole_follows.
  - apply putRole_follows.
  - apply replaceRolePermissions_follows.
  - apply deleteRole_follows.
  - apply createUser_follows.
  - exact (updateUser_follows lb_lower lb_bcrypt p id input).
  - apply putUser_follows.
  - apply replaceUserRoles_follows.
Qed.

(** A sign-in may bring a user with the default role. *)
Definition enrols (t t' : accounts) : Prop :=
  ∃ t1, neutral Nobody t t1 ∧
    (neutral Nobody t1 t' ∨ ∃ cfg id u t2, ac_oidc t = Some cfg ∧ ac_users t1 !! id = None ∧ t2 = enrol id u (roles_of cfg) t1 ∧ neutral Nobody t2 t').
Lemma enrols_quiet t t' : neutral Nobody t t' → enrols t t'.
Proof. intros Hq. exists t'. split; [done|by left]. Qed.
Lemma sign_on_enrols q w : enrols (sv_tabs w) (sv_tabs (sign_on q w).2).
Proof.
  unfold sign_on. destruct (rq_route q) as [username password| | |  |  |  |  |  |  |  |  |  |  |  |  |  |  |  |  |  |  |  |  |]; try (by apply enrols_quiet).
  - apply enrols_quiet. apply keeps_void; [exact _|]. apply localLogin_quiet.
  - apply enrols_quiet. apply keeps_void; [exact _|]. apply oidcLogin_quiet.
  - pose proof (callback_ends (sv_tabs w) (now (sv_db w)) (db_faults (sv_db w)) (rq_http q) (rq_newid q) (rq_random q) w (conj eq_refl (conj eq_refl eq_refl))) as Hc.
    unfold void, mbind, M_bind. destruct (oidcCallback _ _ _ _ _ _ _ _ _ w) as [[a|e] w']; by destruct Hc.
Qed.
Lemma dispatch_effect q w :
  let t := sv_tabs w in let t' := sv_tabs (dispatch q w).2 in
  enrols t t' ∨ ∃ p, vouched (rq_http q) w p ∧ guard_passed (route_guard (rq_route q)) (rq_http q) w p ∧ effect q p t t'.
Proof.
  cbv zeta. destruct (routed q) eqn:Eq; [|rewrite dispatch_unrouted by done; left; by apply enrols_quiet].
  destruct (decide (route_guard (rq_route q) = Public)) as [Hg|Hg].
  - left. unfold dispatch. rewrite Eq, Hg. apply sign_on_enrols.
  - destruct (dispatch_cases q w Hg) as [[_ Hs]|(p & Hp & Hpass & w1 & Ht & _ & _ & ->)].
    + left. apply enrols_quiet. unfold same_data, without_audits in Hs. injection Hs as ? ? ? ? ? ? ? ? ? ? ?.
      split_and!; [done..|]. intros u. unfold identities. by match goal with E : ac_users _ = ac_users _ |- _ => rewrite E end.
    + right. exists p. split_and!; [done..|]. rewrite <- Ht. apply handle_effect.
Qed.

(** ** Authority *)
(** [p] may not hand [x] out, nor change the password of a holder. *)
Definition outsider (x : power) (p : Principal) (rt : route) (t : accounts) : Prop :=
  ¬ wields x p t ∧ (∀ current next, rt = ChangePassword current next → ¬ holds x (pr_UserID p) t).
(** One request by an outsider, or anything else that leaves the tables alone. *)
Inductive outside (x : power) : server → server → Prop :=
  | outside_request q w : (∀ p, vouched (rq_http q) w p → outsider x p (rq_route q) (sv_tabs w)) → outside x w (dispatch q w).2
  | outside_quiet w w' : sv_tabs w' = sv_tabs w → outside x w w'.

Lemma effect_contained x q p t t' : keyed t → outsider x p (rq_route q) t → effect q p t t' → contained x t t'.
Proof.
  intros Hk [Hw Hpw] [Hr|[Hq|[(current & next & Er) Hq]]].
  - by eapply contained_rules.
  - eapply neutral_contained; [exact Hq|by intros u []].
  - eapply neutral_contained; [exact Hq|]. intros u ->. by eapply Hpw.
Qed.
Lemma enrols_contained x t t' : keyed t → ¬ default_holds x t → enrols t t' → contained x t t'.
Proof.
  intros Hk Hd (t1 & Hq & Hcase). assert (contained x t t1) as H1 by (eapply neutral_contained; [exact Hq|by intros u []]).
  etrans; [exact H1|]. destruct Hcase as [Hq1|(cfg & id & u & t2 & Hc & Hn & -> & Hq2)]; [eapply neutral_contained; [exact Hq1|by intros v []]|].
  etrans; [|eapply neutral_contained; [exact Hq2|by intros v []]]. apply contained_new_user; [done|by apply H1|].
  intros r Hr Hx. apply Hd. exists r. unfold default_role, roles_of in *. rewrite Hc. simpl. destruct (oi_DefaultRoleID cfg) as [role|].
  - apply elem_of_singleton in Hr as ->. split; [done|]. destruct Hq as (_ & Hg & _). destruct x as [c|]; simpl in *; [|done]. revert Hx. by rewrite !elem_of_role_codes, Hg.
  - by apply not_elem_of_empty in Hr.
Qed.
Lemma outside_contained x w w' : outside x w w' → keyed (sv_tabs w) → ¬ default_holds x (sv_tabs w) → contained x (sv_tabs w) (sv_tabs w').
Proof.
  intros [q v Hp|v v' ->] Hk Hd; [|done]. destruct (dispatch_effect q v) as [He|(p & Hv & _ & He)]; [by apply enrols_contained|].
  by eapply effect_contained; [|apply Hp|].
Qed.
Lemma outside_contained_all x w w' :
  rtc (outside x) w w' → keyed (sv_tabs w) → ¬ default_holds x (sv_tabs w) → contained x (sv_tabs w) (sv_tabs w').
Proof.
  induction 1 as [w|w1 w2 w3 Hs _ IH]; intros Hk Hd; [done|]. pose proof (outside_contained _ _ _ Hs Hk Hd) as Hc. etrans; [exact Hc|].
  apply IH; [by apply Hc|]. intros Hx. by apply Hd, Hc.
Qed.

(** C7: A permission, or the protected Administrator role, that nobody who makes
    requests may hand out, and that the default role of new users does not
    give, stays where it is, however many requests are served: whoever has it
    in the end had it in the beginning, under the same name, password, source,
    subject and state. *)
Theorem authority_stays_with_its_holders (x : power) (w w' : server) (user : string) :
  keyed (sv_tabs w) → ¬ default_holds x (sv_tabs w) → rtc (outside x) w w' → holds x user (sv_tabs w') →
  holds x user (sv_tabs w) ∧ identities user (sv_tabs w') = identities user (sv_tabs w).
Proof. intros Hk Hd Hs Hx. by apply (outside_contained_all x w w' Hs Hk Hd). Qed.

(** ** Administrators *)
Inductive serves : server → server → Prop :=
  | serves_request q w : serves w (dispatch q w).2
  | serves_quiet w w' : sv_tabs w' = sv_tabs w → serves w w'.
Lemma serves_admin w w' : serves w w' → has_admin (sv_tabs w) → has_admin (sv_tabs w').
Proof.
  intros [q v|v v' ->] Ha; [|done]. destruct (dispatch_effect q v) as [(t1 & Hq & Hcase)|(p & _ & _ & [Hr|[Hq|[_ Hq]]])].
  - assert (has_admin t1) as H1 by by eapply neutral_admin. destruct Hcase as [Hq1|(cfg & id & u & t2 & _ & Hn & -> & Hq2)]; [by eapply neutral_admin|].
    eapply neutral_admin; [exact Hq2|]. by apply admin_new_user.
  - by eapply admin_rules.
  - by eapply neutral_admin.
  - by eapply neutral_admin.
Qed.

(** C10: Whatever requests are served, by whomever, an active Administrator
    remains if there is one. *)
Theorem administrators_remain (w w' : server) :
  has_admin (sv_tabs w) → rtc serves w w' → has_admin (sv_tabs w').
Proof. intros Ha. induction 1 as [|w1 w2 w3 Hs _ IH]; [done|]. apply IH. by eapply serves_admin. Qed.
End safety.
