(* ===== verification/PortalDemo.v ===== *)
(** * An installation, evaluated (Portal.v)

    An Administrator, a user manager, and an identity provider whose users
    become viewers; the theorems on requests at these inputs. *)
From S2P Require Import Prelude GoIO GoString GoPath OS Encoding Sha256 Crypto Model Db Store Backend Releases Vault Runtime Accounts Rbac Delegation RbacProofs NetIP Limiter Network Auth Oidc Portal PortalProofs AuthProofs OidcProofs PortalSafety.

(** ** Libraries *)
#[local] Instance portal_text : ErrorText := λ _, "error".
(** Enough of [url.Parse] for [https://host/path] and [/path]. *)
Definition demo_url (s : string) : result URL :=
  let parts := if has_prefix s "https://" then Some (cut_byte slash (drop_str 8 s)) else None in
  match parts with
  | Some (host, path) =>
      Ok {| u_Scheme := "https"; u_Host := host; u_Hostname := host; u_User := false; u_Path := if empty_str path then "" else "/" +:+ path; u_Query := ∅; u_Fragment := "" |}
  | None =>
      if has_prefix s "/" then Ok {| u_Scheme := ""; u_Host := ""; u_Hostname := ""; u_User := false; u_Path := s; u_Query := ∅; u_Fragment := "" |}
      else Err (External "url")
  end.
Definition demo_random (i : nat) : result bytes := Ok (replicate 32 (zbyte (Z.of_nat i + 65))).
Definition demo_jwks : list jwk :=
  [{| jk_Kty := "RSA"; jk_Kid := "k1"; jk_Use := "sig"; jk_Alg := "RS256"; jk_N := raw_url_encode (replicate 256 (zbyte 255)); jk_E := raw_url_encode [zbyte 1; zbyte 0; zbyte 1] |}].
Definition demo_claims : idTokenClaims := {|
  ic_Issuer := "https://idp.example"; ic_Subject := "42"; ic_Audience := RawText "portal"; ic_AuthorizedParty := ""; ic_ExpiresAt := 4000; ic_IssuedAt := 900;
  ic_Nonce := token_or_empty 24 (demo_random 1); ic_PreferredUsername := "Vera"; ic_Name := "Vera"; ic_Email := "vera@example" |}.
Definition demo_provider : provider := {|
  pv_discovery := λ _, Ok (200, Ok {| dc_Issuer := "https://idp.example"; dc_AuthorizationEndpoint := "https://idp.example/auth";
                                      dc_TokenEndpoint := "https://idp.example/token"; dc_JWKSURI := "https://idp.example/keys" |});
  pv_token := λ _ rq, if bool_decide (tq_Code rq = "code-1") then Ok (200, Ok (raw_url_encode (to_bytes "header") +:+ "." +:+ raw_url_encode (to_bytes "claims") +:+ "." +:+ raw_url_encode (to_bytes "signature")))
                      else Ok (400, Err (External "invalid_grant"));
  pv_jwks := λ _, Ok (200, Ok demo_jwks) |}.
#[local] Instance demo_libraries : Libraries := {|
  lb_text := portal_text; lb_url := demo_url; lb_range := map_to_list; lb_lower := to_lower; lb_row := head;
  lb_bcrypt := λ password, if 72 <? slen password then Err (External "bcrypt: password length exceeds 72 bytes") else Ok ("h:" +:+ password);
  lb_matches := λ hash password, bool_decide (hash = "h:" +:+ password); lb_rfc3339 := λ _, None; lb_date := λ _, None;
  lb_header := λ _, Ok ("RS256", "k1"); lb_claims := λ _, Ok demo_claims; lb_rsa := λ _ _ _ signature, bool_decide (signature = to_bytes "signature");
  lb_provider := demo_provider; lb_vault := {| vault_aead := toy_aead |} |}.

(** ** The installation *)
Definition demo_codes : list string := ["admin.users.write"; "admin.rbac.write"; "admin.settings.write"; "keys.manage"; "releases.read"].
Definition demo_tables : accounts := {|
  ac_users := {[ "root" := UserRow "admin" (Some "h:correct horse") "Admin" "" "local" None true; "mia" := UserRow "mia" (Some "h:battery staple") "Mia" "" "local" None true ]};
  ac_roles := {[ "role-admin" := RoleRow "Administrator" "" true; "role-manager" := RoleRow "Manager" "" false; "role-viewer" := RoleRow "Viewer" "" true ]};
  ac_codes := list_to_set demo_codes;
  ac_grants := list_to_set ((λ c, ("role-admin", c)) <$> demo_codes) ∪
               {[ ("role-manager", "admin.users.write"); ("role-manager", "admin.settings.write"); ("role-manager", "releases.read"); ("role-viewer", "releases.read") ]};
  ac_members := {[ ("root", "role-admin"); ("mia", "role-manager") ]};
  ac_sessions := {[ TokenHash "root-session" := {| se_user := "root"; se_csrf := TokenHash "root-csrf"; se_expires := 9000000 |};
                    TokenHash "mia-session" := {| se_user := "mia"; se_csrf := TokenHash "mia-csrf"; se_expires := 9000000 |} ]};
  ac_keys := ∅; ac_logins := ∅;
  ac_oidc := Some {| oi_Enabled := true; oi_Issuer := "https://idp.example"; oi_ClientID := "portal"; oi_ClientSecretEnc := ""; oi_RedirectURL := "https://portal.example/api/v1/auth/oidc/callback";
                     oi_Scopes := ["openid"]; oi_AutoCreateUser := true; oi_AllowInsecure := false; oi_AutoLogin := true; oi_DefaultRoleID := Some "role-viewer" |};
  ac_network := Some {| nw_enabled := false; nw_allowlist := []; nw_proxies := ["10.0.0.0/8"] |};
  ac_public := Some {| pu_url := ""; pu_secure := false; pu_origins := [] |}; ac_audits := [] |}.
Definition demo_server : server := {|
  sv_db := {| tabs := demo_tables; now := 1000000; db_faults := λ _, None; db_tick := 0; db_aborted := false |}; sv_limiter := ∅; sv_cache := None |}.
(** A browser request: the user's cookie and CSRF token, from 10.0.0.9 behind the
    proxy 10.0.0.1. *)
Definition browse (method path : string) (user : option string) (query : string → string) (state : option string) : http_request := {|
  hq_Method := method; hq_Path := path; hq_RemoteAddr := "10.0.0.1:4711"; hq_Host := "portal.example"; hq_TLS := true;
  hq_Header := λ h, if bool_decide (h = "X-CSRF-Token") then match user with Some u => u +:+ "-csrf" | None => "" end
                    else if bool_decide (h = "X-Forwarded-For") then "203.0.113.7, 192.0.2.9" else "";
  hq_Session := (λ u, u +:+ "-session") <$> user; hq_StateCookie := state; hq_Query := query; hq_Now := 1000000 |}.
Definition ask (method : string) (user : option string) (rt : route) : request := {|
  rq_http := browse method (route_pattern rt).2 user (λ _, "") None; rq_route := rt; rq_newid := Ok "id-1"; rq_random := demo_random |}.
Definition demo_state : string := token_or_empty 32 (demo_random 0).
Definition come_back : request := {|
  rq_http := browse "GET" oidcCallbackPath None (λ k, if bool_decide (k = "state") then demo_state else if bool_decide (k = "code") then "code-1" else "") (Some demo_state);
  rq_route := OidcCallback; rq_newid := Ok "id-2"; rq_random := λ i, demo_random (i + 7) |}.
Definition person (name : string) (roles : list string) (active : bool) : userCompatInput := {|
  uc_Username := name; uc_DisplayName := name; uc_Email := ""; uc_Password := ""; uc_Roles := RawList roles; uc_Active := Some active |}.

Definition eve : userCompatInput := {|
  uc_Username := "Eve"; uc_DisplayName := "Eve"; uc_Email := ""; uc_Password := "123456789012"; uc_Roles := RawText "viewer"; uc_Active := None |}.

(** ** Requests *)
Definition outcome (w : server) (q : request) : option string * server :=
  let '(r, w') := dispatch q w in (match r with Ok _ => None | Err (Errorf _ [FInt _; FStr code]) => Some code | Err _ => Some "?" end, w').
Fixpoint outcomes (w : server) (qs : list request) : list (option string) * server :=
  match qs with [] => ([], w) | q :: qs => let '(o, w) := outcome w q in let '(os, w) := outcomes w qs in (o :: os, w) end.
(** The manager may not make himself Administrator nor touch one, may create
    viewers; the Administrator may not lock himself out; wrong credentials. *)
Definition demo_requests : list request :=
  [ask "PUT" (Some "mia") (PutUser "mia" (person "mia" ["role-admin"] true));
   ask "PATCH" (Some "mia") (UpdateUser "root" {| up_DisplayName := None; up_Email := None; up_Active := Some false |});
   ask "PUT" (Some "mia") (ReplacePermissions "role-manager" ["admin.rbac.write"]);
   ask "POST" (Some "mia") (CreateUser eve);
   ask "PUT" (Some "root") (PutUser "root" (person "admin" ["role-manager"] true));
   ask "PUT" (Some "root") (PutUser "mia" (person "mia" ["role-manager"; "role-admin"] true));
   ask "POST" None (Login "admin" "wrong password");
   ask "POST" None (Login " Admin " "correct horse");
   ask "GET" None OidcLogin;
   come_back;
   come_back;
   ask "PUT" None Logout].
Example demo_outcomes : (outcomes demo_server demo_requests).1
  = [Some "delegation_forbidden"; Some "delegation_forbidden"; Some "forbidden"; None; Some "self_lockout"; None;
     Some "invalid_credentials"; None; None; None; Some "invalid_oidc_state"; Some "not_found"].
Proof. vm_compute. reflexivity. Qed.

(** ** The theorems at these inputs *)
Definition mia_creates_eve : request := ask "POST" (Some "mia") (CreateUser eve).
Lemma requests_authorized_witness :
  (dispatch mia_creates_eve demo_server).1 = Ok () ∧ route_guard (rq_route mia_creates_eve) ≠ Public ∧
  (refused demo_server (dispatch mia_creates_eve demo_server) ∨
   ∃ p, vouched (rq_http mia_creates_eve) demo_server p ∧ guard_passed (route_guard (rq_route mia_creates_eve)) (rq_http mia_creates_eve) demo_server p ∧
        ran (handle mia_creates_eve) demo_server p (dispatch mia_creates_eve demo_server)).
Proof. split; [vm_compute; reflexivity|]. split; [done|]. by apply requests_authorized. Defined.

Lemma demo_takes_rows : takes_rows.
Proof. intros [|x rows] row; [done|]. intros [= ->]. by left. Qed.
Definition admin_signs_in : request := ask "POST" None (Login " Admin " "correct horse").
Lemma sessions_are_earned_witness :
  takes_rows ∧ size (ac_sessions (sv_tabs (dispatch admin_signs_in demo_server).2)) = 3%nat ∧
  new_sessions admin_signs_in (now (sv_db demo_server)) (sv_tabs demo_server) (sv_tabs (dispatch admin_signs_in demo_server).2).
Proof.
  split; [exact demo_takes_rows|]. split; [vm_compute; reflexivity|]. exact (sessions_are_earned admin_signs_in demo_server demo_takes_rows).
Defined.

(** Only the Administrator's own requests are by someone who wields the role. *)
Lemma mia_vouched q p :
  hq_Header (rq_http q) "Authorization" = "" → hq_Session (rq_http q) = Some "mia-session" → vouched (rq_http q) demo_server p → pr_UserID p = "mia".
Proof.
  intros Hh Hs Hv. inversion Hv as [token id k u Ht _ _ _ _|cookie s u _ Hc Hse _ _ _]; subst.
  - unfold bearer_token in Ht. rewrite Hh in Ht. by vm_compute in Ht.
  - rewrite Hs in Hc. injection Hc as <-. assert (ac_sessions (sv_tabs demo_server) !! TokenHash "mia-session"
      = Some {| se_user := "mia"; se_csrf := TokenHash "mia-csrf"; se_expires := 9000000 |}) as E by (vm_compute; reflexivity). rewrite E in Hse. by injection Hse as <-.
Qed.
Lemma mia_outside : ¬ wields Protected {| pr_UserID := "mia"; pr_Username := ""; pr_DisplayName := ""; pr_Email := ""; pr_AuthSource := ""; pr_Roles := [];
  pr_Permissions := []; pr_Scopes := []; pr_ViaAPIKey := false; pr_CSRFHash := [] |} demo_tables.
Proof. vm_compute. discriminate. Qed.
Lemma demo_keyed : keyed demo_tables.
Proof.
  intros u r Hm. change (ac_members demo_tables) with ({[ ("root", "role-admin"); ("mia", "role-manager") ]} : gset (string * string)) in Hm.
  rewrite elem_of_union, !elem_of_singleton in Hm. destruct Hm as [[= -> ->]|[= -> ->]]; vm_compute; by eexists.
Qed.
Lemma authority_stays_with_its_holders_witness :
  let w' := (dispatch mia_creates_eve demo_server).2 in
  size (ac_users (sv_tabs w')) = 3%nat ∧ holds Protected "root" (sv_tabs w') ∧
  (holds Protected "root" demo_tables ∧ identities "root" (sv_tabs w') = identities "root" demo_tables).
Proof.
  cbv zeta. assert (holds Protected "root" (sv_tabs (dispatch mia_creates_eve demo_server).2)) as Hx by (vm_compute; reflexivity).
  split; [vm_compute; reflexivity|]. split; [exact Hx|].
  apply (authority_stays_with_its_holders Protected demo_server (dispatch mia_creates_eve demo_server).2 "root" demo_keyed); [|apply rtc_once|exact Hx].
  - intros (r & Hd & Hr). vm_compute in Hd. injection Hd as <-. by vm_compute in Hr.
  - apply outside_request. intros p Hv%mia_vouched; [|done..]. split; [|by intros ? ? [=]].
    intros Hw. apply mia_outside. simpl in *. unfold admin_authority in *. rewrite Hv in Hw. simpl. by bools; vm_compute in *.
Defined.

Definition mia_takes_root : request := ask "PATCH" (Some "mia") (UpdateUser "root" {| up_DisplayName := None; up_Email := None; up_Active := Some false |}).
Definition root_demotes_himself : request := ask "PUT" (Some "root") (PutUser "root" (person "admin" ["role-manager"] true)).
Lemma administrators_remain_witness :
  has_admin demo_tables ∧ has_admin (sv_tabs (dispatch root_demotes_himself (dispatch mia_takes_root demo_server).2).2).
Proof.
  assert (has_admin demo_tables) as Ha by (apply (has_admin_at _ "root"); vm_compute; reflexivity).
  split; [exact Ha|]. apply (administrators_remain demo_server); [exact Ha|]. eapply rtc_l; [apply serves_request|]. apply rtc_once, serves_request.
Defined.

Definition demo_proxies : list prefix := parsed ["10.0.0.0/8"; "192.0.2.9"].
Definition from_office : http_request := browse "GET" "/" None (λ _, "") None.
Lemma caller_address_is_observed_witness :
  clientIP from_office (parsed ["10.0.0.0/8"]) = Some (V4 3221225993) ∧ clientIP from_office demo_proxies = Some (V4 3405803783).
Proof.
  assert (ParseAddr (remoteIP from_office) = Some (V4 167772161)) as Hp by (vm_compute; reflexivity).
  assert (reads_as " 192.0.2.9" (V4 3221225993) ∧ reads_as "203.0.113.7" (V4 3405803783)) as [Hr Hs] by (split; split; vm_compute; reflexivity).
  assert (hq_Header from_office "X-Forwarded-For" = forwarded_header (Some "203.0.113.7") [" 192.0.2.9"]) as Hh by (vm_compute; reflexivity).
  assert (hq_Header from_office "X-Forwarded-For" = forwarded_header None ["203.0.113.7"; " 192.0.2.9"]) as Hh' by (vm_compute; reflexivity).
  assert (¬ trusts (parsed ["10.0.0.0/8"]) (V4 3221225993) ∧ ¬ trusts demo_proxies (V4 3405803783)) as [Hn Hn'] by (split; vm_compute; discriminate).
  assert (trusts (parsed ["10.0.0.0/8"]) (V4 167772161) ∧ trusts demo_proxies (V4 167772161) ∧ trusts demo_proxies (V4 3221225993)) as (Ht & Ht' & Hx) by (split_and!; vm_compute; reflexivity).
  assert (Forall2 (λ s a, reads_as s a ∧ trusts demo_proxies a) [" 192.0.2.9"] [V4 3221225993]) as Hf by (constructor; [by split|constructor]).
  split.
  - exact (proj2 (caller_address_is_observed from_office _ _ _ _ _ [] [] Hp Hh Hr Hn (List.Forall2_nil _)) Ht).
  - exact (proj2 (caller_address_is_observed from_office _ _ _ _ _ _ _ Hp Hh' Hs Hn' Hf) Ht').
Defined.

Definition root_closes_the_door (list : string) : request :=
  ask "PUT" (Some "root") (PutNetwork {| ni_Enabled := Some true; ni_Allowlist := Some list; ni_Proxies := None |}).
Lemma network_settings_admit_their_author_witness :
  (outcome demo_server (root_closes_the_door "203.0.113.0/24")).1 = Some "would_lock_out_admin" ∧
  admits_caller (rq_http (root_closes_the_door "192.0.2.0/24")) (sv_tabs (dispatch (root_closes_the_door "192.0.2.0/24") demo_server).2).
Proof.
  split; [vm_compute; reflexivity|].
  apply (network_settings_admit_their_author (root_closes_the_door "192.0.2.0/24") {| ni_Enabled := Some true; ni_Allowlist := Some "192.0.2.0/24"; ni_Proxies := None |} demo_server);
    [reflexivity|vm_compute; reflexivity].
Defined.
