(* ===== verification/Inventory.v ===== *)
(** * Scripts, registries, credentials and Runners (backend/internal/server/admin_resources.go)

    The tables an administrator keeps up, with their constraints (migrations
    001, 007, 011 and 013), and the handlers that change scripts, registries,
    target credentials and Runners.  The triggers that lock what a reviewed or
    active release uses only refuse a statement: they are failures of the
    schedule [db_faults].  Users are left out: their ids are plain texts. *)
From S2P Require Import Prelude GoIO GoString GoPath OS Encoding Sha256 Crypto Model Db Store Backend Runtime Releases Vault Accounts Rbac Network.

(** ** Tables *)
Record script_version := ScriptVersion {
  sv_name : string; sv_type : string; sv_version : Z; sv_interpreter : string; sv_content : string; sv_sha256 : string;
  sv_timeout : Z; sv_active : bool; sv_approved : option (Z * string); sv_revoked : option Z; sv_creator : string
}.
Record registry_credential := RegistryCredential {
  rg_name : string; rg_endpoint : string; rg_project : string; rg_username : string; rg_insecure : bool; rg_active : bool;
  rg_version : Z; rg_ciphertext : string; rg_approved : option (Z * string); rg_revoked : option Z
}.
Record target_credential := TargetCredential {
  tk_name : string; tk_type : string; tk_version : Z; tk_ciphertext : string; tk_active : bool; tk_approved : Z * string;
  tk_revoked : option Z
}.
Record runner_instance := RunnerInstance {
  rn_name : string; rn_address : string; rn_prefix : option string; rn_hash : option bytes; rn_labels : list string;
  rn_jobs : Z; rn_active : bool; rn_heartbeat : option Z
}.
Record app_row := { aw_code : string; aw_name : string; aw_description : string; aw_active : bool; aw_created : Z }.
Record env_row := {
  ew_application : string; ew_code : string; ew_name : string; ew_kind : string; ew_protected : bool; ew_description : string; ew_active : bool
}.
(** A profile: what it is for, how it runs, and its registry. *)
Record profile_head := {
  ph_application : string; ph_environment : string; ph_name : string; ph_description : string; ph_approval : bool;
  ph_config : string; ph_active : bool; ph_enabled : bool; ph_labels : list string
}.
Record profile_runtime := {
  pn_max_archive : Z; pn_max_extracted : Z; pn_max_files : Z; pn_max_images : Z; pn_symlinks : bool; pn_kind : string; pn_path : string;
  pn_namespace : string; pn_ca : string; pn_health : string; pn_timeout : Z; pn_max_log : Z; pn_auto : bool; pn_cleanup : bool; pn_keep : bool
}.
Record profile_registry := Registry {
  pg_credential : option string; pg_url : string; pg_host : string; pg_project : string; pg_insecure : bool
}.
Record deployment_profile := Profile {
  dp_head : profile_head; dp_runtime : profile_runtime; dp_registry : profile_registry; dp_target : option string; dp_revoked : option Z
}.
(** [iv_links]: profile, script version and phase, with the order of execution. *)
Record inventory := Inventory {
  iv_scripts : gmap string script_version; iv_registries : gmap string registry_credential;
  iv_credentials : gmap string target_credential; iv_runners : gmap string runner_instance;
  iv_applications : gmap string app_row; iv_environments : gmap string env_row;
  iv_profiles : gmap string deployment_profile; iv_links : gmap (string * string * string) Z; iv_audits : list audit_row
}.
Abbreviation idb := (dbase inventory).
Definition on_scripts f (t : inventory) := Inventory (f (iv_scripts t)) (iv_registries t) (iv_credentials t) (iv_runners t) (iv_applications t) (iv_environments t) (iv_profiles t) (iv_links t) (iv_audits t).
Definition on_registries f (t : inventory) := Inventory (iv_scripts t) (f (iv_registries t)) (iv_credentials t) (iv_runners t) (iv_applications t) (iv_environments t) (iv_profiles t) (iv_links t) (iv_audits t).
Definition on_credentials f (t : inventory) := Inventory (iv_scripts t) (iv_registries t) (f (iv_credentials t)) (iv_runners t) (iv_applications t) (iv_environments t) (iv_profiles t) (iv_links t) (iv_audits t).
Definition on_runners f (t : inventory) := Inventory (iv_scripts t) (iv_registries t) (iv_credentials t) (f (iv_runners t)) (iv_applications t) (iv_environments t) (iv_profiles t) (iv_links t) (iv_audits t).
Definition on_applications f (t : inventory) := Inventory (iv_scripts t) (iv_registries t) (iv_credentials t) (iv_runners t) (f (iv_applications t)) (iv_environments t) (iv_profiles t) (iv_links t) (iv_audits t).
Definition on_environments f (t : inventory) := Inventory (iv_scripts t) (iv_registries t) (iv_credentials t) (iv_runners t) (iv_applications t) (f (iv_environments t)) (iv_profiles t) (iv_links t) (iv_audits t).
Definition on_profiles f (t : inventory) := Inventory (iv_scripts t) (iv_registries t) (iv_credentials t) (iv_runners t) (iv_applications t) (iv_environments t) (f (iv_profiles t)) (iv_links t) (iv_audits t).
Definition on_links f (t : inventory) := Inventory (iv_scripts t) (iv_registries t) (iv_credentials t) (iv_runners t) (iv_applications t) (iv_environments t) (iv_profiles t) (f (iv_links t)) (iv_audits t).
Definition on_audits f (t : inventory) := Inventory (iv_scripts t) (iv_registries t) (iv_credentials t) (iv_runners t) (iv_applications t) (iv_environments t) (iv_profiles t) (iv_links t) (f (iv_audits t)).

(** ** Statements *)
Definition invalid_text : goerr := External "invalid input syntax for type uuid (SQLSTATE 22P02)".
Definition check_violation : goerr := External "new row violates check constraint (SQLSTATE 23514)".
Definition out_of_range : goerr := External "value out of range for type integer (SQLSTATE 22003)".
Definition int4 (z : Z) : bool := (-2147483648 <=? z) && (z <=? 2147483647).
(** Another row of the table has one of these values. *)
Definition taken {R} (same : R → R → bool) (id : string) (r : R) (m : gmap string R) : bool :=
  existsb (λ kr : string * R, negb (bool_decide (kr.1 = id)) && same r kr.2) (map_to_list m).
(** [INSERT] and [UPDATE ... WHERE id AND cond] of one row under a unique key and a check. *)
Definition insert_unique {R} (same : R → R → bool) (ok : R → result unit) (id : string) (r : R) (m : gmap string R) : result (gmap string R) :=
  _ ← ok r;
  _ ← fail_if (bool_decide (is_Some (m !! id)) || taken same id r m) duplicate_key;
  Ok (<[id := r]> m).
Definition update_unique {R} (same : R → R → bool) (ok : R → result unit) (id : string) (cond : R → bool) (f : R → R) (m : gmap string R)
    : result (bool * gmap string R) :=
  match m !! id with
  | None => Ok (false, m)
  | Some r =>
      if negb (cond r) then Ok (false, m) else
      _ ← ok (f r);
      _ ← fail_if (taken same id (f r) m) duplicate_key;
      Ok (true, <[id := f r]> m)
  end.
Definition unrestricted {R} : R → result unit := λ _, Ok ().

Definition same_script (a b : script_version) : bool := bool_decide (sv_name a = sv_name b) && bool_decide (sv_version a = sv_version b).
Definition check_script (s : script_version) : result unit := fail_if (negb (int4 (sv_version s) && int4 (sv_timeout s))) out_of_range.
Definition same_registry (a b : registry_credential) : bool := bool_decide (rg_name a = rg_name b).
Definition check_registry (r : registry_credential) : result unit := fail_if (negb (int4 (rg_version r))) out_of_range.
Definition same_credential (a b : target_credential) : bool := bool_decide (tk_name a = tk_name b).
Definition credential_types : list string := ["SSH_PRIVATE_KEY"; "KUBECONFIG"; "TOKEN"; "OPAQUE_FILE"].
Definition check_credential (c : target_credential) : result unit :=
  _ ← fail_if (negb (int4 (tk_version c))) out_of_range;
  fail_if (negb (bool_decide (tk_type c ∈ credential_types) && (0 <? tk_version c))) check_violation.
Definition same_runner (a b : runner_instance) : bool :=
  bool_decide (rn_name a = rn_name b) || bool_decide (is_Some (rn_hash a) ∧ rn_hash a = rn_hash b).
(** [runner_labels_valid]: at most 20 different labels of 1 to 64 characters without line ends. *)
Definition labels_valid (labels : list string) : bool :=
  (length labels <=? 20)%nat
  && forallb (λ l, let n := length (runes (trim [" "%char] l)) in ((1 <=? n)%nat && (n <=? 64)%nat) && negb (contains_any l ["013"%char; "010"%char])) labels
  && bool_decide (NoDup labels).
Definition check_runner (r : runner_instance) : result unit :=
  fail_if (negb (labels_valid (rn_labels r) && (rn_jobs r =? 1))) check_violation.

(** What the handlers are given of PostgreSQL and of the libraries: the
    canonical text of a UUID parameter, [url.Parse], [json.Marshal] of a
    registry's user name and password and its inverse, and whether a text is a
    JSON object or an array of them. *)
Class Services := {
  pg_uuid : string → option string; sr_url : string → result URL;
  sr_marshal : string → string → string; sr_password : string → option (option string);
  sr_object : string → bool; sr_objects : string → bool
}.

Definition iv_checked {A} (f : Z → inventory → result (A * inventory)) : M idb A := checked f.
Definition iv_read {A} (f : inventory → A) : M idb A := query (λ _, f).
(** A statement with [WHERE id=$1]: the parameter is read as a UUID. *)
Definition with_id `{Services} {A} (id : string) (f : string → Z → inventory → result (A * inventory)) : M idb A :=
  checked (λ n t, match pg_uuid id with Some id => f id n t | None => Err invalid_text end).
Definition find_row `{Services} {A} (id : string) (f : string → inventory → option A) : M idb A :=
  row ← with_id id (λ id _ t, Ok (f id t, t)); lift (of_option (Sentinel ErrNoRows) row).
(** [errors.Is(err, pgx.ErrNoRows)] has a reply of its own. *)
Definition row_or {A} (missing : goerr) (failed : goerr → goerr) : M idb A → M idb A :=
  wrapM (λ e, if errors_is ErrNoRows e then missing else failed e).
Definition audit_inventory (actor action resourceType resource outcome : string) : M idb unit :=
  _ ← try (pool (statement (λ _ t, ((), on_audits (λ l, l ++ [{|
        au_actor := null_if_empty actor; au_action := action; au_type := resourceType; au_resource := resource; au_outcome := outcome |}]) t))));
  mret ().
Definition refuse_if (cond : bool) (status : Z) (code message : string) : M idb unit := lift (fail_if cond (writeError status code message)).
Definition invalid_if (code : string) {A} (r : result A) `{ErrorText} : M idb A := lift (map_err (λ e, writeError 400 code (error_text e)) r).
(** The id [secure.NewID] draws; its error is ignored. *)
Definition drawn (newid : result string) : string := match newid with Ok id => id | Err _ => "" end.
Definition insert_script (id : string) (s : script_version) (t : inventory) : result (unit * inventory) :=
  m ← insert_unique same_script check_script id s (iv_scripts t); Ok ((), on_scripts (λ _, m) t).
Definition update_script (id : string) (f : script_version → script_version) (t : inventory) : result (bool * inventory) :=
  '(b, m) ← update_unique same_script check_script id (λ s, bool_decide (sv_revoked s = None)) f (iv_scripts t); Ok (b, on_scripts (λ _, m) t).
Definition update_registry (id : string) (f : registry_credential → registry_credential) (t : inventory) : result (bool * inventory) :=
  '(b, m) ← update_unique same_registry check_registry id (λ r, bool_decide (rg_revoked r = None)) f (iv_registries t);
  Ok (b, on_registries (λ _, m) t).
Definition update_credential (id : string) (cond : target_credential → bool) (f : target_credential → target_credential) (t : inventory)
    : result (bool * inventory) :=
  '(b, m) ← update_unique same_credential check_credential id cond f (iv_credentials t); Ok (b, on_credentials (λ _, m) t).
Definition update_runner (id : string) (f : runner_instance → runner_instance) (t : inventory) : result (bool * inventory) :=
  '(b, m) ← update_unique same_runner check_runner id (λ _, true) f (iv_runners t); Ok (b, on_runners (λ _, m) t).

(** ** Scripts *)
(** A [json.RawMessage]: absent, as [json.Unmarshal] reads it into an [int]
    (null leaves 0), into a text, or neither. *)
Inductive raw_version := VersionAbsent | VersionNumber (number : Z) | VersionText (text : string) | VersionOther.
(* src: backend/internal/server/admin_resources.go:22-30 scriptInput *)
Record scriptInput := {
  si_Name : string; si_Type : string; si_Version : raw_version; si_Content : string; si_InterpreterPath : string;
  si_TimeoutSeconds : Z; si_Active : option bool
}.
(* src: backend/internal/server/admin_resources.go:32-45 scriptVersion *)
Definition scriptVersion (raw : raw_version) : result Z :=
  match raw with
  | VersionAbsent => Ok 0
  | VersionNumber number => Ok number
  | VersionText text => of_option (External "strconv.Atoi: parsing") (atoi text)
  | VersionOther => Err (error_new "version must be an integer")
  end.
Definition script_types : list string := ["PRE_CHECK"; "DEPLOY"; "HEALTH_CHECK"; "ROLLBACK"].
(** The input as it is rewritten, and the version. *)
(* src: backend/internal/server/admin_resources.go:46-76 validateScript *)
Definition validateScript (input : scriptInput) : result (scriptInput * Z) :=
  let name := trim_space (si_Name input) in
  let type := to_upper (trim_space (si_Type input)) in
  _ ← fail_if (empty_str name || (200 <? slen name)) (error_new "name is required");
  _ ← fail_if (negb (bool_decide (type ∈ script_types))) (error_new "type must be PRE_CHECK, DEPLOY, HEALTH_CHECK, or ROLLBACK");
  _ ← fail_if (empty_str (si_Content input) || (1048576 <? slen (si_Content input))) (error_new "content is required and must not exceed 1 MiB");
  let interpreter := if empty_str (si_InterpreterPath input) then "/bin/bash" else si_InterpreterPath input in
  _ ← fail_if (negb (is_abs interpreter)) (error_new "interpreterPath must be absolute");
  let timeout := if si_TimeoutSeconds input =? 0 then 600 else si_TimeoutSeconds input in
  _ ← fail_if ((timeout <? 1) || (86400 <? timeout)) (error_new "timeoutSeconds must be between 1 and 86400");
  version ← scriptVersion (si_Version input);
  Ok ({| si_Name := name; si_Type := type; si_Version := si_Version input; si_Content := si_Content input; si_InterpreterPath := interpreter;
         si_TimeoutSeconds := timeout; si_Active := si_Active input |}, version).

(** The row of a new version: active means approved. *)
Definition script_of (p : Principal) (n : Z) (input : scriptInput) (version : Z) : script_version :=
  let active := default true (si_Active input) in {|
  sv_name := si_Name input; sv_type := si_Type input; sv_version := version; sv_interpreter := si_InterpreterPath input;
  sv_content := si_Content input; sv_sha256 := hex_encode (sha256 (to_bytes (si_Content input))); sv_timeout := si_TimeoutSeconds input;
  sv_active := active; sv_approved := if active then Some (n, pr_UserID p) else None; sv_revoked := None; sv_creator := pr_UserID p |}.
Definition approve_row (n : Z) (user : string) (s : script_version) : script_version :=
  ScriptVersion (sv_name s) (sv_type s) (sv_version s) (sv_interpreter s) (sv_content s) (sv_sha256 s) (sv_timeout s) true (Some (n, user))
    (sv_revoked s) (sv_creator s).
Definition revoke_row (n : Z) (s : script_version) : script_version :=
  ScriptVersion (sv_name s) (sv_type s) (sv_version s) (sv_interpreter s) (sv_content s) (sv_sha256 s) (sv_timeout s) false (sv_approved s)
    (Some n) (sv_creator s).
(** [COALESCE(max(version),0)+1]. *)
Definition next_version (name : string) (t : inventory) : Z :=
  let versions := sv_version <$> filter (λ s, sv_name s = name) (map_to_list (iv_scripts t)).*2 in
  match versions with [] => 1 | v :: vs => foldr Z.max v vs + 1 end.

Section inventory.
Context `{ErrorText} `{Services}.
Context (p : Principal).

(** The reply is the id and the version. *)
(* src: backend/internal/server/admin_resources.go:116-143 (Server).createScript *)
Definition createScript (newid : result string) (input : scriptInput) : M idb (string * Z) :=
  '(input, version) ← invalid_if "invalid_script" (validateScript input);
  version ← (if version =? 0 then
               next ← try (pool (iv_read (next_version (si_Name input))));
               mret (match next with Ok v => v | Err _ => 0 end)
             else mret version);
  let id := drawn newid in
  _ ← wrapM (λ _, writeError 409 "script_conflict" "script name and version already exist")
        (pool (with_id id (λ id n, insert_script id (script_of p n input version))));
  _ ← audit_inventory (pr_UserID p) "script.create" "script" id "success";
  mret (id, version).

(* src: backend/internal/server/admin_resources.go:204-210 promoteScriptVersion *)
Definition promoteScriptVersion (id approverID : string) : M idb unit :=
  matched ← with_id id (λ id n, update_script id (approve_row n approverID));
  lift (fail_if (negb matched) (Sentinel ErrNoRows)).

Definition unrevoked_script (id : string) (t : inventory) : option script_version :=
  s ← iv_scripts t !! id; if sv_revoked s then None else Some s.
(* src: backend/internal/server/admin_resources.go:145-199 (Server).updateScript *)
Definition updateScript (oldID : string) (newid : result string) (input : scriptInput) : M idb (string * Z) :=
  '(input, version) ← invalid_if "invalid_script" (validateScript input);
  let conflict := λ _, writeError 409 "script_conflict" "could not create immutable script version" in
  let newID := drawn newid in
  version ← transaction_with (λ _, writeError 500 "database_error" "could not version script") (λ _, conflict)
    (old ← row_or (writeError 404 "not_found" "script not found") (λ _, writeError 500 "database_error" "could not load script")
             (find_row oldID unrevoked_script);
     _ ← refuse_if (negb (bool_decide (si_Name input = sv_name old)) || negb (bool_decide (si_Type input = sv_type old)))
           400 "invalid_script" "immutable script versions must retain their name and type";
     let version := if version <=? sv_version old then sv_version old + 1 else version in
     _ ← wrapM conflict
       (_ ← with_id newID (λ id n, insert_script id (script_of p n input version));
        if default true (si_Active input) then promoteScriptVersion newID (pr_UserID p) else mret ());
     mret version);
  _ ← audit_inventory (pr_UserID p) "script.version" "script" newID "success";
  mret (newID, version).

(* src: backend/internal/server/admin_resources.go:212-235 (Server).approveScript *)
Definition approveScript (id : string) : M idb unit :=
  let in_use := writeError 409 "script_in_use" "script cannot be promoted while an active job uses the current version" in
  _ ← transaction_with (λ _, writeError 500 "database_error" "could not approve script") (λ _ _, in_use)
        (row_or (writeError 404 "not_found" "script not found") (λ _, in_use) (promoteScriptVersion id (pr_UserID p)));
  audit_inventory (pr_UserID p) "script.approve" "script" id "success".
(* src: backend/internal/server/admin_resources.go:236-246 (Server).revokeScript *)
Definition revokeScript (id : string) : M idb unit :=
  let missing := writeError 404 "not_found" "script not found" in
  matched ← wrapM (λ _, missing) (pool (with_id id (λ id n, update_script id (revoke_row n))));
  _ ← refuse_if (negb matched) 404 "not_found" "script not found";
  audit_inventory (pr_UserID p) "script.revoke" "script" id "success".

(** ** Registries *)
(* src: backend/internal/server/admin_resources.go:248-256 registryInput *)
Record registryInput := {
  gi_Name : string; gi_Endpoint : string; gi_Project : string; gi_Username : string; gi_Password : string; gi_Insecure : bool;
  gi_Active : option bool
}.
(* src: backend/internal/server/admin_resources.go:258-268 validateRegistry *)
Definition validateRegistry (input : registryInput) : result registryInput :=
  let name := trim_space (gi_Name input) in
  let endpoint := trim_right [slash] (trim_space (gi_Endpoint input)) in
  let project := trim [slash] (trim_space (gi_Project input)) in
  let username := trim_space (gi_Username input) in
  let invalid := error_new "name, project, username and an absolute http(s) endpoint are required" in
  u ← map_err (λ _, invalid) (sr_url endpoint);
  _ ← fail_if (empty_str name || empty_str project || empty_str username
               || (negb (bool_decide (u_Scheme u = "http")) && negb (bool_decide (u_Scheme u = "https"))) || empty_str (u_Host u) || u_User u
               || (negb (empty_str (u_Path u)) && negb (bool_decide (u_Path u = "/"))) || negb (empty_str (raw_query endpoint))
               || negb (empty_str (u_Fragment u))) invalid;
  Ok {| gi_Name := name; gi_Endpoint := endpoint; gi_Project := project; gi_Username := username; gi_Password := gi_Password input;
        gi_Insecure := gi_Insecure input; gi_Active := gi_Active input |}.
(** [u, _ := url.Parse(endpoint)]: stored endpoints parse; a nil URL would panic. *)
(* src: backend/internal/server/admin_resources.go:408-408 registryHost *)
Definition registryHost (endpoint : string) : string := match sr_url endpoint with Ok u => u_Host u | Err _ => "" end.

Definition seal_registry (vault : Vault) (random : result bytes) (id : string) (version : Z) (username password : string) : result string :=
  VaultEncrypt vault random (sr_marshal username password) (registryAAD id version).
Definition registry_row (n : Z) (input : registryInput) (version : Z) (ciphertext : string) (revoked : option Z) : registry_credential := {|
  rg_name := gi_Name input; rg_endpoint := gi_Endpoint input; rg_project := gi_Project input; rg_username := gi_Username input;
  rg_insecure := gi_Insecure input; rg_active := default true (gi_Active input); rg_version := version; rg_ciphertext := ciphertext;
  rg_approved := Some (n, pr_UserID p); rg_revoked := revoked |}.
Definition insert_registry (id : string) (r : registry_credential) (t : inventory) : result (unit * inventory) :=
  m ← insert_unique same_registry check_registry id r (iv_registries t); Ok ((), on_registries (λ _, m) t).
(* src: backend/internal/server/admin_resources.go:305-337 (Server).createRegistry *)
Definition createRegistry (vault : Vault) (newid : result string) (random : result bytes) (input : registryInput) : M idb string :=
  input ← invalid_if "invalid_registry" (validateRegistry input);
  _ ← refuse_if (empty_str (gi_Password input)) 400 "invalid_registry" "password is required";
  let id := drawn newid in
  ciphertext ← lift (map_err (λ _, writeError 500 "secret_error" "could not encrypt registry credential")
                       (seal_registry vault random id 1 (gi_Username input) (gi_Password input)));
  _ ← wrapM (λ _, writeError 409 "registry_conflict" "registry name already exists")
        (pool (with_id id (λ id n, insert_registry id (registry_row n input 1 ciphertext None))));
  _ ← audit_inventory (pr_UserID p) "registry.create" "registry" id "success";
  mret id.

Definition unrevoked_registry (id : string) (t : inventory) : option registry_credential :=
  r ← iv_registries t !! id; if rg_revoked r then None else Some r.
Definition bound_to (id : string) (d : deployment_profile) : bool := bool_decide (pg_credential (dp_registry d) = Some id).
Definition set_registry (g : profile_registry) (d : deployment_profile) : deployment_profile :=
  Profile (dp_head d) (dp_runtime d) g (dp_target d) (dp_revoked d).
(** [UPDATE deployment_profiles ... WHERE registry_credential_id=$1]. *)
Definition readdress (id : string) (input : registryInput) : gmap string deployment_profile → gmap string deployment_profile :=
  fmap (λ d, if bound_to id d
             then set_registry (Registry (Some id) (gi_Endpoint input) (registryHost (gi_Endpoint input)) (gi_Project input) (gi_Insecure input)) d
             else d).
Definition bound_count (id : string) (t : inventory) : nat := length (filter (λ kd : string * deployment_profile, bound_to id kd.2 = true) (map_to_list (iv_profiles t))).
(* src: backend/internal/server/admin_resources.go:338-407 (Server).updateRegistry *)
Definition updateRegistry (vault : Vault) (id : string) (random : result bytes) (input : registryInput) : M idb Z :=
  input ← invalid_if "invalid_registry" (validateRegistry input);
  let secret_error message := λ _, writeError 500 "secret_error" message in
  let conflict := writeError 409 "registry_conflict" "registry name already exists" in
  let in_use := writeError 409 "registry_in_use" "dependent deployment profiles could not be updated atomically" in
  version ← transaction_with (λ _, writeError 500 "database_error" "could not rotate registry credential")
      (λ _ _, writeError 409 "registry_conflict" "registry credential rotation could not be committed")
    (old ← row_or (writeError 404 "not_found" "registry not found") (λ _, writeError 500 "database_error" "could not load registry")
             (find_row id unrevoked_registry);
     password ← (if empty_str (gi_Password input) then
                   plain ← lift (map_err (secret_error "could not rotate registry credential")
                                   (VaultDecrypt vault (rg_ciphertext old) (registryAAD id (rg_version old))));
                   entry ← lift (of_option (writeError 500 "secret_error" "stored registry credential is invalid") (sr_password plain));
                   mret (default "" entry)
                 else mret (gi_Password input));
     let version := i64 (rg_version old + 1) in
     ciphertext ← lift (map_err (secret_error "could not encrypt registry credential")
                          (seal_registry vault random id version (gi_Username input) password));
     matched ← wrapM (λ _, conflict) (with_id id (λ id n, update_registry id (λ r, registry_row n input version ciphertext (rg_revoked r))));
     _ ← lift (fail_if (negb matched) conflict);
     profileCount ← wrapM (λ _, in_use) (with_id id (λ id _ t, Ok (bound_count id t, t)));
     updated ← wrapM (λ _, in_use) (with_id id (λ id _ t, Ok (bound_count id t, on_profiles (readdress id input) t)));
     _ ← lift (fail_if (negb (updated =? profileCount)%nat) in_use);
     mret version);
  _ ← audit_inventory (pr_UserID p) "registry.rotate" "registry" id "success";
  mret version.
Definition revoke_registry (n : Z) (r : registry_credential) : registry_credential :=
  RegistryCredential (rg_name r) (rg_endpoint r) (rg_project r) (rg_username r) (rg_insecure r) false (rg_version r) (rg_ciphertext r) (rg_approved r) (Some n).
(* src: backend/internal/server/admin_resources.go:409-419 (Server).revokeRegistry *)
Definition revokeRegistry (id : string) : M idb unit :=
  matched ← wrapM (λ _, writeError 404 "not_found" "registry not found") (pool (with_id id (λ id n, update_registry id (revoke_registry n))));
  _ ← refuse_if (negb matched) 404 "not_found" "registry not found";
  audit_inventory (pr_UserID p) "registry.revoke" "registry" id "success".

(** ** Target credentials *)
(* src: backend/internal/server/admin_resources.go:421-426 targetCredentialInput *)
Record targetCredentialInput := { ti_Name : string; ti_Type : string; ti_Secret : string; ti_Active : option bool }.
Definition oversized_secret (secret : string) : bool := (1048576 <? slen secret) || contains_any secret ["000"%char].
(* src: backend/internal/server/admin_resources.go:428-445 validateTargetCredential *)
Definition validateTargetCredential (input : targetCredentialInput) (requireSecret : bool) : result targetCredentialInput :=
  let name := trim_space (ti_Name input) in
  let type := to_upper (trim_space (ti_Type input)) in
  _ ← fail_if (empty_str name || (200 <? slen name)) (error_new "name is required and must not exceed 200 characters");
  _ ← fail_if (negb (bool_decide (type ∈ credential_types))) (error_new "type must be SSH_PRIVATE_KEY, KUBECONFIG, TOKEN, or OPAQUE_FILE");
  _ ← fail_if (requireSecret && empty_str (ti_Secret input)) (error_new "secret is required");
  _ ← fail_if (oversized_secret (ti_Secret input)) (error_new "secret must not exceed 1 MiB or contain NUL bytes");
  Ok {| ti_Name := name; ti_Type := type; ti_Secret := ti_Secret input; ti_Active := ti_Active input |}.
Definition insert_credential (id : string) (c : target_credential) (t : inventory) : result (unit * inventory) :=
  m ← insert_unique same_credential check_credential id c (iv_credentials t); Ok ((), on_credentials (λ _, m) t).
(* src: backend/internal/server/admin_resources.go:488-516 (Server).createTargetCredential *)
Definition createTargetCredential (vault : Vault) (newid : result string) (random : result bytes) (input : targetCredentialInput) : M idb string :=
  input ← invalid_if "invalid_target_credential" (validateTargetCredential input true);
  let id := drawn newid in
  ciphertext ← lift (map_err (λ _, writeError 500 "secret_error" "could not encrypt target credential")
                       (VaultEncrypt vault random (ti_Secret input) (targetCredentialAAD id 1)));
  _ ← wrapM (λ _, writeError 409 "target_credential_conflict" "target credential name already exists")
        (pool (with_id id (λ id n, insert_credential id {|
           tk_name := ti_Name input; tk_type := ti_Type input; tk_version := 1; tk_ciphertext := ciphertext;
           tk_active := default true (ti_Active input); tk_approved := (n, pr_UserID p); tk_revoked := None |})));
  _ ← audit_inventory (pr_UserID p) "target_credential.create" "target_credential" id "success";
  mret id.
Definition unrevoked (c : target_credential) : bool := bool_decide (tk_revoked c = None).
Definition rename_credential (name : string) (active : option bool) (c : target_credential) : target_credential :=
  TargetCredential name (tk_type c) (tk_version c) (tk_ciphertext c) (default (tk_active c) active) (tk_approved c) (tk_revoked c).
(* src: backend/internal/server/admin_resources.go:518-544 (Server).updateTargetCredential *)
Definition updateTargetCredential (id : string) (input : targetCredentialInput) : M idb unit :=
  _ ← refuse_if (negb (empty_str (ti_Secret input))) 400 "invalid_target_credential" "use the rotate endpoint to replace the secret";
  input ← invalid_if "invalid_target_credential" (validateTargetCredential input false);
  matched ← wrapM (λ _, writeError 409 "target_credential_in_use" "target credential is in use or its name conflicts")
              (pool (with_id id (λ id _, update_credential id (λ c, unrevoked c && bool_decide (tk_type c = ti_Type input))
                                           (rename_credential (ti_Name input) (ti_Active input)))));
  _ ← refuse_if (negb matched) 404 "not_found" "target credential not found or type is immutable";
  audit_inventory (pr_UserID p) "target_credential.update" "target_credential" id "success".
Definition rotate_row (n : Z) (version : Z) (ciphertext : string) (c : target_credential) : target_credential :=
  TargetCredential (tk_name c) (tk_type c) version ciphertext (tk_active c) (n, pr_UserID p) (tk_revoked c).
(* src: backend/internal/server/admin_resources.go:546-587 (Server).rotateTargetCredential *)
Definition rotateTargetCredential (vault : Vault) (id : string) (random : result bytes) (secret : string) : M idb Z :=
  _ ← refuse_if (empty_str secret || oversized_secret secret) 400 "invalid_target_credential"
        "secret is required, must not exceed 1 MiB, and cannot contain NUL bytes";
  let in_use := writeError 409 "target_credential_in_use" "target credential cannot be rotated while in use" in
  version ← transaction_with (λ _, writeError 500 "database_error" "could not rotate target credential") (λ _ _, in_use)
    (old ← row_or (writeError 404 "not_found" "target credential not found") (λ _, in_use)
             (find_row id (λ id t, c ← iv_credentials t !! id; if unrevoked c then Some c else None));
     let version := i64 (tk_version old + 1) in
     _ ← wrapM (λ _, in_use)
       (ciphertext ← lift (VaultEncrypt vault random secret (targetCredentialAAD id version));
        with_id id (λ id n, update_credential id (λ _, true) (rotate_row n version ciphertext)));
     mret version);
  _ ← audit_inventory (pr_UserID p) "target_credential.rotate" "target_credential" id "success";
  mret version.
Definition revoke_credential (n : Z) (c : target_credential) : target_credential :=
  TargetCredential (tk_name c) (tk_type c) (tk_version c) (tk_ciphertext c) false (tk_approved c) (Some n).
(* src: backend/internal/server/admin_resources.go:594-608 (Server).revokeTargetCredential *)
Definition revokeTargetCredential (id : string) : M idb unit :=
  matched ← wrapM (λ _, writeError 409 "target_credential_in_use" "target credential cannot be revoked while in use")
              (pool (with_id id (λ id n, update_credential id unrevoked (revoke_credential n))));
  _ ← refuse_if (negb matched) 404 "not_found" "target credential not found";
  audit_inventory (pr_UserID p) "target_credential.revoke" "target_credential" id "success".

(** ** Runners *)
(* src: backend/internal/server/admin_resources.go:610-617 runnerInput *)
Record runnerInput := {
  ni_Name : string; ni_Address : string; ni_Token : string; ni_Labels : raw_list; ni_MaxConcurrentJobs : Z; ni_Active : option bool
}.
(* src: backend/internal/server/admin_resources.go:619-637 parseLabels *)
Definition parseLabels (raw : raw_list) : result (list string) :=
  match raw with
  | RawAbsent => Ok []
  | RawList values => Ok values
  | RawText text => Ok (comma_list text)
  | RawOther => Err (error_new "labels must be a comma-separated string or string array")
  end.
(** The name, the address and the labels. *)
(* src: backend/internal/server/admin_resources.go:638-651 validateRunner *)
Definition validateRunner (input : runnerInput) : result (string * string * list string) :=
  let name := trim_space (ni_Name input) in
  let address := trim_space (ni_Address input) in
  _ ← fail_if (empty_str name || empty_str address) (error_new "name and address are required");
  let jobs := if ni_MaxConcurrentJobs input =? 0 then 1 else ni_MaxConcurrentJobs input in
  _ ← fail_if (negb (jobs =? 1)) (error_new "this Runner version processes one job at a time; maxConcurrentJobs must be 1");
  labels ← parseLabels (ni_Labels input);
  Ok (name, address, labels).
Definition insert_runner (id : string) (r : runner_instance) (t : inventory) : result (unit * inventory) :=
  m ← insert_unique same_runner check_runner id r (iv_runners t); Ok ((), on_runners (λ _, m) t).
(** The reply shows the token once. *)
(* src: backend/internal/server/admin_resources.go:698-730 (Server).createRunner *)
Definition createRunner (newid : result string) (random : result bytes) (input : runnerInput) : M idb (string * string) :=
  '(name, address, labels) ← invalid_if "invalid_runner" (validateRunner input);
  let token := if empty_str (ni_Token input)
               then "rdr_" +:+ match RandomToken 32 random with Ok r => r | Err _ => "" end else ni_Token input in
  _ ← refuse_if (slen token <? 24) 400 "invalid_runner" "token must contain at least 24 characters";
  let id := drawn newid in
  _ ← wrapM (λ _, writeError 409 "runner_conflict" "runner name or token already exists")
        (pool (with_id id (λ id _, insert_runner id {|
           rn_name := name; rn_address := address; rn_prefix := Some (take_str 12 token); rn_hash := Some (TokenHash token);
           rn_labels := labels; rn_jobs := 1; rn_active := default true (ni_Active input); rn_heartbeat := None |})));
  _ ← audit_inventory (pr_UserID p) "runner.create" "runner" id "success";
  mret (id, token).
Definition edit_runner (name address : string) (labels : list string) (active : bool) (token : string) (r : runner_instance) : runner_instance :=
  let keep := empty_str token in
  RunnerInstance name address (if keep then rn_prefix r else Some (take_str 12 token)) (if keep then rn_hash r else Some (TokenHash token))
    labels 1 active (rn_heartbeat r).
(* src: backend/internal/server/admin_resources.go:731-767 (Server).updateRunner *)
Definition updateRunner (id : string) (input : runnerInput) : M idb unit :=
  '(name, address, labels) ← invalid_if "invalid_runner" (validateRunner input);
  _ ← refuse_if (negb (empty_str (ni_Token input)) && (slen (ni_Token input) <? 24)) 400 "invalid_runner" "token must contain at least 24 characters";
  matched ← wrapM (λ _, writeError 409 "runner_conflict" "runner name or token already exists")
              (pool (with_id id (λ id _, update_runner id (edit_runner name address labels (default true (ni_Active input)) (ni_Token input)))));
  _ ← refuse_if (negb matched) 404 "not_found" "runner not found";
  audit_inventory (pr_UserID p) "runner.update" "runner" id "success".
(* src: backend/internal/server/admin_resources.go:768-778 (Server).deleteRunner *)
Definition deleteRunner (id : string) : M idb unit :=
  matched ← wrapM (λ _, writeError 404 "not_found" "runner not found")
              (pool (with_id id (λ id _ t, Ok (bool_decide (is_Some (iv_runners t !! id)), on_runners (delete id) t))));
  _ ← refuse_if (negb matched) 404 "not_found" "runner not found";
  audit_inventory (pr_UserID p) "runner.delete" "runner" id "success".
End inventory.

Definition beat (n : Z) (r : runner_instance) : runner_instance :=
  RunnerInstance (rn_name r) (rn_address r) (rn_prefix r) (rn_hash r) (rn_labels r) (rn_jobs r) (rn_active r) (Some n).
Definition has_token (token : string) (r : runner_instance) : bool := bool_decide (rn_hash r = Some (TokenHash token)) && rn_active r.
(** The route has no guard: the token in the header is the credential. *)
(* src: backend/internal/server/admin_resources.go:779-792 (Server).runnerHeartbeat *)
Definition runnerHeartbeat (authorization : string) : M idb unit :=
  let auth := trim_space authorization in
  let refused message := writeError 401 "unauthorized" message in
  _ ← lift (fail_if (negb (has_prefix (to_lower auth) "bearer ")) (refused "runner token required"));
  let token := trim_space (drop_str 7 auth) in
  matched ← wrapM (λ _, refused "invalid runner token")
    (pool (checked (λ n t, Ok (existsb (λ kr : string * runner_instance, has_token token kr.2) (map_to_list (iv_runners t)),
                               on_runners (fmap (λ r, if has_token token r then beat n r else r)) t))));
  lift (fail_if (negb matched) (refused "invalid runner token")).
