(* ===== verification/Profiles.v ===== *)
(** * Applications, environments and profiles (backend/internal/server/resources.go)

    The handlers that change what is deployed where, and the bindings of a
    profile: its registry, its target credential and its scripts.  Numbers of a
    request that are [int64] or [int] in Go are integers here; the columns
    refuse what does not fit. *)
From S2P Require Import Prelude GoIO GoString GoPath OS Encoding Sha256 Crypto Model Db Store Backend Runtime Releases Vault Accounts Rbac NetIP Limiter Network Auth Oidc Portal Inventory.

(** ** Applications *)
(* src: backend/internal/server/resources.go:17-22 applicationInput *)
Record applicationInput := { xi_Code : string; xi_Name : string; xi_Description : string; xi_Active : option bool }.
(** The code ranges over code points; a byte above 127 fails. *)
(* src: backend/internal/server/resources.go:24-34 validateCode *)
Definition validateCode (value : string) : bool :=
  (1 <=? slen value) && (slen value <=? 64) &&
  forallb (λ ic : nat * ascii, byte_in 97 122 ic.2 || byte_in 48 57 ic.2 || is_char "-"%char ic.2 || (is_char "_"%char ic.2 && (0 <? ic.1)%nat))
    (imap (λ i c, (i, c)) (chars value)).

Definition same_app (a b : app_row) : bool := bool_decide (aw_code a = aw_code b).
Definition same_env (a b : env_row) : bool := bool_decide (ew_application a = ew_application b) && bool_decide (ew_code a = ew_code b).
Definition same_profile (a b : deployment_profile) : bool :=
  bool_decide (ph_application (dp_head a) = ph_application (dp_head b)) && bool_decide (ph_environment (dp_head a) = ph_environment (dp_head b))
  && bool_decide (ph_name (dp_head a) = ph_name (dp_head b)).
Definition insert_application (id : string) (a : app_row) (t : inventory) : result (unit * inventory) :=
  m ← insert_unique same_app unrestricted id a (iv_applications t); Ok ((), on_applications (λ _, m) t).
Definition update_application (id : string) (f : app_row → app_row) (t : inventory) : result (bool * inventory) :=
  '(b, m) ← update_unique same_app unrestricted id (λ _, true) f (iv_applications t); Ok (b, on_applications (λ _, m) t).
(** The foreign keys: the links of a deleted profile, the profiles of a deleted
    environment, the environments and profiles of a deleted application go with
    it ([ON DELETE CASCADE]).  Releases, presets and jobs refuse the deletion:
    a failure of the schedule. *)
Definition drop_links (gone : string → bool) : inventory → inventory :=
  on_links (filter (λ kl : (string * string * string) * Z, gone kl.1.1.1 = false)).
Definition drop_profiles (gone : deployment_profile → bool) (t : inventory) : inventory :=
  drop_links (λ id, match iv_profiles t !! id with Some d => gone d | None => false end)
    (on_profiles (filter (λ kd : string * deployment_profile, gone kd.2 = false)) t).
Definition drop_environment (id : string) (t : inventory) : inventory :=
  drop_profiles (λ d, bool_decide (ph_environment (dp_head d) = id)) (on_environments (delete id) t).
Definition drop_application (id : string) (t : inventory) : inventory :=
  let gone e := match iv_environments t !! e with Some r => bool_decide (ew_application r = id) | None => false end in
  drop_profiles (λ d, bool_decide (ph_application (dp_head d) = id) || gone (ph_environment (dp_head d)))
    (on_environments (filter (λ ke : string * env_row, ew_application ke.2 ≠ id)) (on_applications (delete id) t)).

Section resources.
Context `{ErrorText} `{Services}.
Context (p : Principal).

(* src: backend/internal/server/resources.go:104-116 (Server).getApplicationByID *)
Definition getApplicationByID (id : string) : M idb app_row :=
  row_or (writeError 404 "not_found" "application not found") (λ _, writeError 500 "database_error" "could not load application")
    (pool (find_row id (λ id t, iv_applications t !! id))).
(* src: backend/internal/server/resources.go:75-99 (Server).createApplication *)
Definition createApplication (newid : result string) (input : applicationInput) : M idb app_row :=
  let code := to_lower (trim_space (xi_Code input)) in
  let name := trim_space (xi_Name input) in
  _ ← refuse_if (negb (validateCode code) || empty_str name || (200 <? slen name)) 400 "invalid_application"
        "code must use lowercase letters, digits, hyphen or underscore; name is required";
  let id := drawn newid in
  _ ← wrapM (λ _, writeError 409 "application_conflict" "application code already exists")
        (pool (with_id id (λ id n, insert_application id {|
           aw_code := code; aw_name := name; aw_description := xi_Description input; aw_active := default true (xi_Active input); aw_created := n |})));
  _ ← audit_inventory (pr_UserID p) "application.create" "application" id "success";
  getApplicationByID id.
Definition edit_app (code name : string) (input : applicationInput) (a : app_row) : app_row := {|
  aw_code := code; aw_name := name; aw_description := xi_Description input; aw_active := default (aw_active a) (xi_Active input);
  aw_created := aw_created a |}.
(* src: backend/internal/server/resources.go:118-142 (Server).updateApplication *)
Definition updateApplication (id : string) (input : applicationInput) : M idb app_row :=
  let code := to_lower (trim_space (xi_Code input)) in
  let name := trim_space (xi_Name input) in
  _ ← refuse_if (negb (validateCode code) || empty_str name) 400 "invalid_application" "valid code and name are required";
  matched ← wrapM (λ _, writeError 409 "application_conflict" "application code already exists")
              (pool (with_id id (λ id _, update_application id (edit_app code name input))));
  _ ← refuse_if (negb matched) 404 "not_found" "application not found";
  _ ← audit_inventory (pr_UserID p) "application.update" "application" id "success";
  getApplicationByID id.
(* src: backend/internal/server/resources.go:144-158 (Server).deleteApplication *)
Definition deleteApplication (id : string) : M idb unit :=
  matched ← wrapM (λ _, writeError 409 "application_in_use" "application has release history and cannot be deleted")
              (pool (with_id id (λ id _ t, Ok (bool_decide (is_Some (iv_applications t !! id)), drop_application id t))));
  _ ← refuse_if (negb matched) 404 "not_found" "application not found";
  audit_inventory (pr_UserID p) "application.delete" "application" id "success".

(** ** Environments *)
(* src: backend/internal/server/resources.go:160-168 environmentInput *)
Record environmentInput := {
  ei_ApplicationID : string; ei_Code : string; ei_Name : string; ei_Kind : string; ei_Protected : option bool; ei_Description : string;
  ei_Active : option bool
}.
(** [SELECT id FROM applications WHERE active=TRUE ORDER BY created_at LIMIT 1]. *)
Definition oldest_active (t : inventory) : option string :=
  fst <$> newest (λ a, - aw_created a) (filter (λ ka : string * app_row, aw_active ka.2 = true) (map_to_list (iv_applications t))).
(* src: backend/internal/server/resources.go:264-275 (Server).getEnvironmentByID *)
Definition getEnvironmentByID (id : string) : M idb env_row :=
  row_or (writeError 404 "not_found" "environment not found") (λ _, writeError 500 "database_error" "could not load environment")
    (pool (find_row id (λ id t, iv_environments t !! id))).
(** The parameter is a UUID and the application exists. *)
Definition insert_env (id : string) (application : string) (e : string → env_row) (t : inventory) : result (unit * inventory) :=
  app ← of_option invalid_text (pg_uuid application);
  _ ← fail_if (bool_decide (iv_applications t !! app = None)) foreign_key;
  m ← insert_unique same_env unrestricted id (e app) (iv_environments t);
  Ok ((), on_environments (λ _, m) t).
Definition update_env (id : string) (f : env_row → env_row) (t : inventory) : result (bool * inventory) :=
  '(b, m) ← update_unique same_env unrestricted id (λ _, true) f (iv_environments t); Ok (b, on_environments (λ _, m) t).
(** The code, the name and the kind as they are stored. *)
Definition environment_texts (input : environmentInput) : string * string * string :=
  let code := to_lower (trim_space (ei_Code input)) in
  let kind := to_upper (trim_space (ei_Kind input)) in
  (code, trim_space (ei_Name input), if empty_str kind then to_upper code else kind).
(* src: backend/internal/server/resources.go:220-263 (Server).createEnvironment *)
Definition createEnvironment (pathID : string) (newid : result string) (input : environmentInput) : M idb env_row :=
  let '(code, name, kind) := environment_texts input in
  _ ← refuse_if (negb (validateCode code) || empty_str name) 400 "invalid_environment" "valid code and name are required";
  let id := drawn newid in
  let applicationID := if empty_str pathID then ei_ApplicationID input else pathID in
  applicationID ← (if empty_str applicationID then
                     row ← try (pool (iv_read oldest_active));
                     mret (match row with Ok (Some id) => id | _ => "" end)
                   else mret applicationID);
  _ ← refuse_if (empty_str applicationID) 400 "application_required" "applicationId is required";
  _ ← wrapM (λ _, writeError 409 "environment_conflict" "application is invalid or environment code exists")
        (pool (with_id id (λ id _, insert_env id applicationID (λ app, {|
           ew_application := app; ew_code := code; ew_name := name; ew_kind := kind; ew_protected := default false (ei_Protected input);
           ew_description := ei_Description input; ew_active := default true (ei_Active input) |}))));
  _ ← audit_inventory (pr_UserID p) "environment.create" "environment" id "success";
  getEnvironmentByID id.
Definition edit_env (code name kind : string) (input : environmentInput) (e : env_row) : env_row := {|
  ew_application := ew_application e; ew_code := code; ew_name := name; ew_kind := kind;
  ew_protected := default (ew_protected e) (ei_Protected input); ew_description := ei_Description input;
  ew_active := default (ew_active e) (ei_Active input) |}.
(* src: backend/internal/server/resources.go:276-304 (Server).updateEnvironment *)
Definition updateEnvironment (id : string) (input : environmentInput) : M idb env_row :=
  let '(code, name, kind) := environment_texts input in
  _ ← refuse_if (negb (validateCode code) || empty_str name) 400 "invalid_environment" "valid code and name are required";
  matched ← wrapM (λ _, writeError 409 "environment_conflict" "environment code already exists")
              (pool (with_id id (λ id _, update_env id (edit_env code name kind input))));
  _ ← refuse_if (negb matched) 404 "not_found" "environment not found";
  _ ← audit_inventory (pr_UserID p) "environment.update" "environment" id "success";
  getEnvironmentByID id.
(* src: backend/internal/server/resources.go:305-319 (Server).deleteEnvironment *)
Definition deleteEnvironment (id : string) : M idb unit :=
  matched ← wrapM (λ _, writeError 409 "environment_in_use" "environment is in use")
              (pool (with_id id (λ id _ t, Ok (bool_decide (is_Some (iv_environments t !! id)), drop_environment id t))));
  _ ← refuse_if (negb matched) 404 "not_found" "environment not found";
  audit_inventory (pr_UserID p) "environment.delete" "environment" id "success".

(** ** The input of a profile *)
(** A [json.RawMessage] that names a target credential: absent, null, a text,
    or anything else. *)
Inductive raw_ref := RefAbsent | RefNull | RefText (text : string) | RefOther.
(** The JSON texts of [config] and [healthChecks] are empty when absent. *)
(* src: backend/internal/server/resources.go:321-355 profileInput *)
Record profileInput := {
  fi_ApplicationID : string; fi_EnvironmentID : string; fi_Name : string; fi_Description : string; fi_ApprovalRequired : option bool;
  fi_Active : option bool; fi_Config : string; fi_RegistryID : string; fi_TargetCredentialID : raw_ref; fi_PreScriptID : string;
  fi_DeployScriptID : string; fi_HealthScriptID : string; fi_RollbackScriptID : string; fi_MaxArchiveBytes : option Z;
  fi_MaxExtractedBytes : option Z; fi_MaxArchiveFiles : option Z; fi_MaxImages : option Z; fi_AllowSymlinks : option bool;
  fi_RuntimeKind : option string; fi_RuntimeBinaryPath : option string; fi_ContainerdNamespace : option string;
  fi_RegistryURL : option string; fi_RegistryHost : option string; fi_RegistryProject : option string; fi_RegistryInsecure : option bool;
  fi_RegistryCAPEM : option string; fi_HealthChecks : string; fi_CommandTimeoutSeconds : option Z; fi_MaxLogBytes : option Z;
  fi_AutoRollback : option bool; fi_CleanupWorkspace : option bool; fi_KeepFailedWorkspace : option bool; fi_RunnerLabels : raw_list
}.
Fixpoint trimmed_labels (seen labels : list string) : result (list string) :=
  match labels with
  | [] => Ok []
  | label :: labels =>
      let label := trim_space label in
      _ ← fail_if (empty_str label || (64 <? slen label) || contains_any label ["000"%char; "013"%char; "010"%char])
            (error_new "runnerLabels entries must contain 1 to 64 characters");
      _ ← fail_if (bool_decide (label ∈ seen)) (error_new "runnerLabels must not contain duplicates");
      rest ← trimmed_labels (label :: seen) labels;
      Ok (label :: rest)
  end.
(* src: backend/internal/server/resources.go:357-378 profileRunnerLabels *)
Definition profileRunnerLabels (raw : raw_list) : result (list string) :=
  labels ← parseLabels raw;
  _ ← fail_if (20 <? length labels)%nat (error_new "runnerLabels must not contain more than 20 labels");
  trimmed_labels [] labels.
(** The id and whether it was given. *)
(* src: backend/internal/server/resources.go:380-396 profileTargetCredential *)
Definition profileTargetCredential (raw : raw_ref) : result (string * bool) :=
  let invalid := error_new "targetCredentialId must be a UUID string, empty string, or null" in
  match raw with
  | RefAbsent => Ok ("", false)
  | RefNull => Ok ("", true)
  | RefText text =>
      let id := trim_space text in
      _ ← fail_if (negb (empty_str id) && negb (validUUID id)) invalid;
      Ok (id, true)
  | RefOther => Err invalid
  end.
(* src: backend/internal/server/resources.go:398-400 canManageTargetCredential *)
Definition canManageTargetCredential (principal : Principal) : bool := negb (pr_ViaAPIKey principal) && Has principal "admin.credentials.write".
Definition wanted_name (kind : string) : string :=
  if bool_decide (kind = "docker") then "docker" else if bool_decide (kind = "podman") then "podman"
  else if bool_decide (kind = "containerd") then "ctr" else "".
(* src: backend/internal/server/resources.go:402-413 validRuntimeBinaryPath *)
Definition validRuntimeBinaryPath (kind binaryPath : string) : bool :=
  let wantedName := wanted_name kind in
  if empty_str wantedName || negb (is_abs binaryPath) || negb (bool_decide (clean binaryPath = binaryPath)) || negb (bool_decide (base binaryPath = wantedName))
  then false
  else bool_decide (dir binaryPath ∈ ["/usr/bin"; "/usr/local/bin"; "/usr/sbin"; "/usr/local/sbin"]).
(* src: backend/internal/server/resources.go:415-422 validRuntimeBinaryForAnyKind *)
Definition validRuntimeBinaryForAnyKind (binaryPath : string) : bool :=
  existsb (λ kind, validRuntimeBinaryPath kind binaryPath) ["docker"; "podman"; "containerd"].
Definition not_positive (v : option Z) : bool := match v with Some v => v <=? 0 | None => false end.
(* src: backend/internal/server/resources.go:424-473 validateProfile *)
Definition validateProfile (input : profileInput) : result unit :=
  _ ← fail_if (empty_str (trim_space (fi_Name input)) || (200 <? slen (fi_Name input))) (error_new "name is required");
  _ ← fail_if (empty_str (fi_ApplicationID input) || empty_str (fi_EnvironmentID input)) (error_new "applicationId and environmentId are required");
  _ ← fail_if (negb (empty_str (fi_Config input)) && negb (sr_object (fi_Config input))) (error_new "config must be a JSON object");
  _ ← fail_if (negb (empty_str (fi_HealthChecks input)) && negb (sr_objects (fi_HealthChecks input))) (error_new "healthChecks must be a JSON array");
  _ ← fail_if (not_positive (fi_MaxArchiveBytes input) || not_positive (fi_MaxExtractedBytes input) || not_positive (fi_MaxLogBytes input))
        (error_new "size limits must be positive");
  _ ← fail_if (not_positive (fi_MaxArchiveFiles input) || not_positive (fi_MaxImages input) || not_positive (fi_CommandTimeoutSeconds input))
        (error_new "numeric limits must be positive");
  _ ← fail_if (match fi_RuntimeKind input with Some k => negb (bool_decide (k ∈ ["docker"; "podman"; "containerd"])) | None => false end)
        (error_new "runtimeKind must be docker, podman, or containerd");
  _ ← fail_if (match fi_RuntimeBinaryPath input with
               | Some path => negb (match fi_RuntimeKind input with Some k => validRuntimeBinaryPath k path | None => validRuntimeBinaryForAnyKind path end)
               | None => false end)
        (error_new "runtimeBinaryPath must be the matching docker, podman, or ctr binary in an approved system directory");
  _ ← fail_if (default false (fi_AutoRollback input)) (error_new "autoRollback is not supported; use an explicit audited rollback request");
  _ ← profileTargetCredential (fi_TargetCredentialID input);
  _ ← profileRunnerLabels (fi_RunnerLabels input);
  Ok ().

(** ** Saving a profile *)
Definition check_profile (d : deployment_profile) : result unit :=
  _ ← fail_if (negb (forallb int4 [pn_max_files (dp_runtime d); pn_max_images (dp_runtime d); pn_timeout (dp_runtime d)])) out_of_range;
  fail_if (pn_auto (dp_runtime d) || negb (labels_valid (ph_labels (dp_head d)))) check_violation.
Definition insert_profile_row (id : string) (d : deployment_profile) (t : inventory) : result (unit * inventory) :=
  m ← insert_unique same_profile check_profile id d (iv_profiles t); Ok ((), on_profiles (λ _, m) t).
Definition update_profile_row (id : string) (cond : deployment_profile → bool) (f : deployment_profile → deployment_profile) (t : inventory)
    : result (bool * inventory) :=
  '(b, m) ← update_unique same_profile check_profile id cond f (iv_profiles t); Ok (b, on_profiles (λ _, m) t).
Definition set_head (h : profile_head) (d : deployment_profile) : deployment_profile := Profile h (dp_runtime d) (dp_registry d) (dp_target d) (dp_revoked d).
Definition set_target (c : option string) (d : deployment_profile) : deployment_profile := Profile (dp_head d) (dp_runtime d) (dp_registry d) c (dp_revoked d).
(** The defaults of the columns. *)
Definition default_runtime : profile_runtime := {|
  pn_max_archive := 10737418240; pn_max_extracted := 21474836480; pn_max_files := 10000; pn_max_images := 100; pn_symlinks := false;
  pn_kind := "docker"; pn_path := "/usr/bin/docker"; pn_namespace := "default"; pn_ca := ""; pn_health := "[]"; pn_timeout := 600;
  pn_max_log := 52428800; pn_auto := false; pn_cleanup := true; pn_keep := false |}.
Definition no_registry : profile_registry := Registry None "" "" "" false.
Definition in_application (env app : string) (t : inventory) : bool :=
  match iv_environments t !! env with Some e => bool_decide (ew_application e = app) | None => false end.
(** [INSERT ... SELECT ... WHERE EXISTS(SELECT 1 FROM environments ...)]: whether a row was inserted. *)
Definition insert_profile (id : string) (h : string → string → profile_head) (input : profileInput) (t : inventory) : result (bool * inventory) :=
  app ← of_option invalid_text (pg_uuid (fi_ApplicationID input));
  env ← of_option invalid_text (pg_uuid (fi_EnvironmentID input));
  if negb (in_application env app t) then Ok (false, t) else
  '(_, t) ← insert_profile_row id (Profile (h app env) default_runtime no_registry None None) t;
  Ok (true, t).
Definition update_head (id : string) (h : string → string → profile_head → profile_head) (input : profileInput) (t : inventory) : result (bool * inventory) :=
  app ← of_option invalid_text (pg_uuid (fi_ApplicationID input));
  env ← of_option invalid_text (pg_uuid (fi_EnvironmentID input));
  update_profile_row id (λ d, bool_decide (dp_revoked d = None) && in_application env app t) (λ d, set_head (h app env (dp_head d)) d) t.
(** The columns [COALESCE] changes. *)
Definition merge_runtime (input : profileInput) (r : profile_runtime) : profile_runtime := {|
  pn_max_archive := default (pn_max_archive r) (fi_MaxArchiveBytes input); pn_max_extracted := default (pn_max_extracted r) (fi_MaxExtractedBytes input);
  pn_max_files := default (pn_max_files r) (fi_MaxArchiveFiles input); pn_max_images := default (pn_max_images r) (fi_MaxImages input);
  pn_symlinks := default (pn_symlinks r) (fi_AllowSymlinks input); pn_kind := default (pn_kind r) (fi_RuntimeKind input);
  pn_path := default (pn_path r) (fi_RuntimeBinaryPath input); pn_namespace := default (pn_namespace r) (fi_ContainerdNamespace input);
  pn_ca := default (pn_ca r) (fi_RegistryCAPEM input); pn_health := if empty_str (fi_HealthChecks input) then pn_health r else fi_HealthChecks input;
  pn_timeout := default (pn_timeout r) (fi_CommandTimeoutSeconds input); pn_max_log := default (pn_max_log r) (fi_MaxLogBytes input);
  pn_auto := default (pn_auto r) (fi_AutoRollback input); pn_cleanup := default (pn_cleanup r) (fi_CleanupWorkspace input);
  pn_keep := default (pn_keep r) (fi_KeepFailedWorkspace input) |}.
Definition merge_registry (input : profileInput) (g : profile_registry) : profile_registry :=
  Registry (pg_credential g) (default (pg_url g) (fi_RegistryURL input)) (default (pg_host g) (fi_RegistryHost input))
    (default (pg_project g) (fi_RegistryProject input)) (default (pg_insecure g) (fi_RegistryInsecure input)).
(* src: backend/internal/server/resources.go:668-697 (Server).updateProfileRuntime *)
Definition updateProfileRuntime (id : string) (input : profileInput) : M idb unit :=
  row ← find_row id (λ id t, dp_runtime <$> iv_profiles t !! id);
  let effectiveKind := default (pn_kind row) (fi_RuntimeKind input) in
  let effectiveBinaryPath := default (pn_path row) (fi_RuntimeBinaryPath input) in
  _ ← lift (fail_if (negb (validRuntimeBinaryPath effectiveKind effectiveBinaryPath))
              (error_new "runtimeBinaryPath does not match runtimeKind or an approved system binary path"));
  _ ← with_id id (λ id _, update_profile_row id (λ _, true) (λ d,
        Profile (dp_head d) (merge_runtime input (dp_runtime d)) (merge_registry input (dp_registry d)) (dp_target d) (dp_revoked d)));
  mret ().

(** What a statement of a transaction reads of the tables that other transactions
    change: the tables of an earlier database ([Some]), when a transaction at the
    default isolation level has read them and others were committed before it, or
    those it commits to ([None]).  A serializable transaction reads the latter. *)
Record snapshots := { sn_registry : option inventory; sn_target : option inventory; sn_script : string → option inventory }.
Definition at_commit : snapshots := {| sn_registry := None; sn_target := None; sn_script := λ _, None |}.
Definition seen_by (seen : option inventory) (t : inventory) : inventory := default t seen.

Definition approved_script (type : string) (s : script_version) : bool :=
  bool_decide (sv_type s = type) && sv_active s && bool_decide (is_Some (sv_approved s)) && bool_decide (sv_revoked s = None).
Definition usable_registry (r : registry_credential) : bool :=
  rg_active r && bool_decide (is_Some (rg_approved r)) && bool_decide (rg_revoked r = None).
Definition usable_credential (c : target_credential) : bool := tk_active c && bool_decide (tk_revoked c = None).
(** [INSERT INTO deployment_profile_scripts ... SELECT ... FROM script_versions WHERE ...]; the foreign keys refer to
    the rows as they are when the transaction commits. *)
Definition insert_link (seen : snapshots) (id script phase : string) (order : Z) (type : string) (t : inventory) : result (bool * inventory) :=
  script ← of_option invalid_text (pg_uuid script);
  match iv_scripts (seen_by (sn_script seen phase) t) !! script with
  | Some s =>
      if negb (approved_script type s) then Ok (false, t) else
      _ ← fail_if (bool_decide (iv_scripts t !! script = None)) foreign_key;
      _ ← fail_if (bool_decide (is_Some (iv_links t !! (id, script, phase)))) duplicate_key;
      _ ← fail_if (bool_decide (iv_profiles t !! id = None)) foreign_key;
      Ok (true, on_links (<[(id, script, phase) := order]>) t)
  | None => Ok (false, t)
  end.
Fixpoint link_scripts (seen : snapshots) (id : string) (order : Z) (links : list (string * string * string)) : M idb unit :=
  match links with
  | [] => mret ()
  | (script, phase, type) :: links =>
      if empty_str script then link_scripts seen id order links else
      let order := order + 1 in
      let invalid := error_new "one or more script IDs are invalid or not approved" in
      matched ← wrapM (λ _, invalid) (with_id id (λ id _, insert_link seen id script phase order type));
      _ ← lift (fail_if (negb matched) invalid);
      link_scripts seen id order links
  end.
Definition profile_links (input : profileInput) : list (string * string * string) :=
  [(fi_PreScriptID input, "PRE_DEPLOY", "PRE_CHECK"); (fi_DeployScriptID input, "DEPLOY", "DEPLOY");
   (fi_HealthScriptID input, "POST_DEPLOY", "HEALTH_CHECK"); (fi_RollbackScriptID input, "ROLLBACK", "ROLLBACK")].
(** [UPDATE deployment_profiles SET ... WHERE id=$1]; [g]: given the credential's id. *)
Definition set_registry_row (id : string) (g : profile_registry) (t : inventory) : result (bool * inventory) :=
  _ ← match pg_credential g with Some c => fail_if (bool_decide (iv_registries t !! c = None)) foreign_key | None => Ok () end;
  update_profile_row id (λ _, true) (set_registry g) t.
Definition bind_registry (seen : snapshots) (id : string) (input : profileInput) : M idb unit :=
  if negb (empty_str (fi_RegistryID input)) then
    row ← wrapM (λ _, error_new "registryId is invalid or revoked")
            (find_row (fi_RegistryID input) (λ id t, r ← iv_registries (seen_by (sn_registry seen) t) !! id; if usable_registry r then Some r else None));
    let host := registryHost (rg_endpoint row) in
    _ ← lift (fail_if (empty_str host) (error_new "registry endpoint is invalid"));
    _ ← with_id id (λ id _ t,
      registry ← of_option invalid_text (pg_uuid (fi_RegistryID input));
      set_registry_row id (Registry (Some registry) (rg_endpoint row) host (rg_project row) (rg_insecure row)) t);
    mret ()
  else
    _ ← with_id id (λ id _, set_registry_row id no_registry);
    mret ().
(** [UPDATE ... WHERE id=$1 AND EXISTS(SELECT 1 FROM target_credentials ...)]: whether a row matched. *)
Definition bind_target (seen : snapshots) (id target : string) (t : inventory) : result (bool * inventory) :=
  target ← of_option invalid_text (pg_uuid target);
  let usable := match iv_credentials (seen_by (sn_target seen) t) !! target with Some c => usable_credential c | None => false end in
  _ ← fail_if (usable && bool_decide (iv_credentials t !! target = None)) foreign_key;
  update_profile_row id (λ _, usable) (set_target (Some target)) t.
Definition rebind_target (seen : snapshots) (id target : string) (provided : bool) : M idb unit :=
  if provided && negb (empty_str target) then
    let invalid := error_new "targetCredentialId is invalid, inactive, or revoked" in
    matched ← wrapM (λ _, invalid) (with_id id (λ id _, bind_target seen id target));
    lift (fail_if (negb matched) invalid)
  else if provided then
    _ ← with_id id (λ id _, update_profile_row id (λ _, true) (set_target None)); mret ()
  else mret ().
(* src: backend/internal/server/resources.go:699-748 (Server).updateProfileLinks *)
Definition updateProfileLinks (seen : snapshots) (id : string) (input : profileInput) : M idb unit :=
  _ ← bind_registry seen id input;
  '(targetCredentialID, targetCredentialProvided) ← lift (profileTargetCredential (fi_TargetCredentialID input));
  _ ← rebind_target seen id targetCredentialID targetCredentialProvided;
  _ ← with_id id (λ id _ t, Ok ((), drop_links (λ profile, bool_decide (profile = id)) t));
  link_scripts seen id 0 (profile_links input).

Definition invalid_profile (e : goerr) : goerr := writeError 400 "invalid_profile" (error_text e).
(** The runtime settings and the links, in the transaction of both handlers. *)
Definition save_profile (seen : snapshots) (id : string) (input : profileInput) : M idb unit :=
  _ ← wrapM (λ _, writeError 400 "invalid_profile" "runtime profile settings could not be saved") (updateProfileRuntime id input);
  wrapM invalid_profile (updateProfileLinks seen id input).
Definition given_target (input : profileInput) : string * bool :=
  match profileTargetCredential (fi_TargetCredentialID input) with Ok r => r | Err _ => ("", true) end.
Definition given_labels (input : profileInput) : list string := match profileRunnerLabels (fi_RunnerLabels input) with Ok l => l | Err _ => [] end.
Definition session_needed (change : string) : goerr :=
  writeError 403 "permission_denied" ("a browser session with admin.credentials.write is required to " +:+ change).
(* src: backend/internal/server/resources.go:596-607 (Server).getProfileByID *)
Definition getProfileByID (id : string) : M idb deployment_profile :=
  row_or (writeError 404 "not_found" "profile not found") (λ _, writeError 500 "database_error" "could not load profile")
    (pool (find_row id (λ id t, d ← iv_profiles t !! id; if dp_revoked d then None else Some d))).
(** The transaction is opened at the default isolation level (READ COMMITTED): what its statements read of registries,
    target credentials and scripts is given by [seen].  The environment it has read belongs to its application for good,
    and the foreign key keeps it from being deleted in between. *)
(* src: backend/internal/server/resources.go:534-592 (Server).createProfile *)
Definition createProfile (seen : snapshots) (newid : result string) (input : profileInput) : M idb deployment_profile :=
  _ ← lift (map_err invalid_profile (validateProfile input));
  let '(targetCredentialID, targetCredentialProvided) := given_target input in
  _ ← lift (fail_if (targetCredentialProvided && negb (empty_str targetCredentialID) && negb (canManageTargetCredential p)) (session_needed "bind a target credential"));
  let id := drawn newid in
  let active := default true (fi_Active input) in
  let head app env := {|
    ph_application := app; ph_environment := env; ph_name := trim_space (fi_Name input); ph_description := fi_Description input;
    ph_approval := default false (fi_ApprovalRequired input); ph_config := if empty_str (fi_Config input) then "{}" else fi_Config input;
    ph_active := active; ph_enabled := active; ph_labels := given_labels input |} in
  _ ← transaction_with (λ _, writeError 500 "database_error" "could not create profile")
        (λ _ _, writeError 409 "profile_conflict" "profile could not be committed")
    (inserted ← wrapM (λ _, writeError 409 "profile_conflict" "profile is invalid or already exists")
                  (with_id id (λ id _, insert_profile id head input));
     _ ← refuse_if (negb inserted) 400 "invalid_profile" "environment does not belong to application";
     save_profile seen id input);
  _ ← audit_inventory (pr_UserID p) "profile.create" "profile" id "success";
  getProfileByID id.
(** Serializable, as is the update of a registry. *)
(* src: backend/internal/server/resources.go:608-666 (Server).updateProfile *)
Definition updateProfile (id : string) (input : profileInput) : M idb deployment_profile :=
  _ ← lift (map_err invalid_profile (validateProfile input));
  let head app env (h : profile_head) := {|
    ph_application := app; ph_environment := env; ph_name := trim_space (fi_Name input); ph_description := fi_Description input;
    ph_approval := default (ph_approval h) (fi_ApprovalRequired input); ph_config := if empty_str (fi_Config input) then ph_config h else fi_Config input;
    ph_active := default (ph_active h) (fi_Active input); ph_enabled := default (ph_enabled h) (fi_Active input); ph_labels := given_labels input |} in
  _ ← transaction_with (λ _, writeError 500 "database_error" "could not update profile")
        (λ _ _, writeError 409 "profile_conflict" "profile could not be committed")
    (_ ← row_or (writeError 404 "not_found" "profile not found") (λ _, writeError 500 "database_error" "could not load profile credential binding")
                  (find_row id (λ id t, d ← iv_profiles t !! id; if dp_revoked d then None else Some (dp_target d)));
     let targetCredentialProvided := (given_target input).2 in
     _ ← lift (fail_if (targetCredentialProvided && negb (canManageTargetCredential p)) (session_needed "change a target credential binding"));
     matched ← wrapM (λ _, writeError 409 "profile_conflict" "profile is invalid or already exists")
                 (with_id id (λ id _, update_head id head input));
     _ ← refuse_if (negb matched) 404 "not_found" "profile not found or environment does not belong to application";
     save_profile at_commit id input);
  _ ← audit_inventory (pr_UserID p) "profile.update" "profile" id "success";
  getProfileByID id.
Definition retire (n : Z) (d : deployment_profile) : deployment_profile :=
  let h := dp_head d in
  Profile {| ph_application := ph_application h; ph_environment := ph_environment h; ph_name := ph_name h; ph_description := ph_description h;
             ph_approval := ph_approval h; ph_config := ph_config h; ph_active := false; ph_enabled := false; ph_labels := ph_labels h |}
    (dp_runtime d) (dp_registry d) (dp_target d) (Some n).
(* src: backend/internal/server/resources.go:749-763 (Server).deleteProfile *)
Definition deleteProfile (id : string) : M idb unit :=
  matched ← wrapM (λ _, writeError 500 "database_error" "could not revoke profile")
              (pool (with_id id (λ id n, update_profile_row id (λ d, bool_decide (dp_revoked d = None)) (retire n))));
  _ ← refuse_if (negb matched) 404 "not_found" "profile not found";
  audit_inventory (pr_UserID p) "profile.revoke" "profile" id "success".
End resources.

(** ** Requests *)
Inductive task :=
  | CreateScript (input : scriptInput)
  | UpdateScript (id : string) (input : scriptInput)
  | ApproveScript (id : string)
  | RevokeScript (id : string)
  | CreateRegistry (input : registryInput)
  | UpdateRegistry (id : string) (input : registryInput)
  | RevokeRegistry (id : string)
  | CreateCredential (input : targetCredentialInput)
  | UpdateCredential (id : string) (input : targetCredentialInput)
  | RotateCredential (id secret : string)
  | RevokeCredential (id : string)
  | CreateRunner (input : runnerInput)
  | UpdateRunner (id : string) (input : runnerInput)
  | DeleteRunner (id : string)
  | CreateApplication (input : applicationInput)
  | UpdateApplication (id : string) (input : applicationInput)
  | DeleteApplication (id : string)
  | CreateEnvironment (application : string) (input : environmentInput)
  | UpdateEnvironment (id : string) (input : environmentInput)
  | DeleteEnvironment (id : string)
  | CreateProfile (input : profileInput)
  | SaveProfile (id : string) (input : profileInput)
  | DeleteProfile (id : string).

(** What guards the route of a task. *)
(* src: backend/internal/server/server.go:145-316 (Server).Handler *)
Definition resource_guard (q : task) : guard :=
  match q with
  | CreateScript _ | UpdateScript _ _ | ApproveScript _ | RevokeScript _ => Permission "admin.scripts.write"
  | CreateRegistry _ | UpdateRegistry _ _ | RevokeRegistry _ => Permission "admin.registries.write"
  | CreateCredential _ | UpdateCredential _ _ | RotateCredential _ _ | RevokeCredential _ => SessionPermission "admin.credentials.write"
  | CreateRunner _ | UpdateRunner _ _ | DeleteRunner _ => Permission "admin.runners.write"
  | _ => Public
  end.
(* src: backend/internal/server/server.go:145-316 (Server).Handler *)
Definition task_guard (q : task) : guard :=
  match q with
  | CreateApplication _ | UpdateApplication _ _ | DeleteApplication _ | CreateEnvironment _ _ | UpdateEnvironment _ _ | DeleteEnvironment _ =>
      Permission "applications.write"
  | CreateProfile _ | SaveProfile _ _ | DeleteProfile _ => Permission "profiles.write"
  | _ => resource_guard q
  end.
(** The caller the guard lets through, as far as it looks at the principal. *)
Definition guard_admits (g : guard) (p : Principal) : bool :=
  match g with
  | Public => false
  | Authenticated => true
  | Permission permission => Has p permission
  | SessionPermission permission => Has p permission && sessionCanMutatePersonalKeys p
  end.

(** A request behind its guard, with the id and the random bytes it draws, and
    what it has read before others were committed. *)
Record errand := { er_task : task; er_newid : result string; er_random : result bytes; er_seen : snapshots }.
Section errands.
Context `{ErrorText} `{Services} (vault : Vault).
Definition perform (p : Principal) (q : errand) : M idb unit :=
  let done {A} (m : M idb A) := _ ← m; mret () in
  match er_task q with
  | CreateScript input => done (createScript p (er_newid q) input)
  | UpdateScript id input => done (updateScript p id (er_newid q) input)
  | ApproveScript id => approveScript p id
  | RevokeScript id => revokeScript p id
  | CreateRegistry input => done (createRegistry p vault (er_newid q) (er_random q) input)
  | UpdateRegistry id input => done (updateRegistry p vault id (er_random q) input)
  | RevokeRegistry id => revokeRegistry p id
  | CreateCredential input => done (createTargetCredential p vault (er_newid q) (er_random q) input)
  | UpdateCredential id input => updateTargetCredential p id input
  | RotateCredential id secret => done (rotateTargetCredential p vault id (er_random q) secret)
  | RevokeCredential id => revokeTargetCredential p id
  | CreateRunner input => done (createRunner p (er_newid q) (er_random q) input)
  | UpdateRunner id input => updateRunner p id input
  | DeleteRunner id => deleteRunner p id
  | CreateApplication input => done (createApplication p (er_newid q) input)
  | UpdateApplication id input => done (updateApplication p id input)
  | DeleteApplication id => deleteApplication p id
  | CreateEnvironment application input => done (createEnvironment p application (er_newid q) input)
  | UpdateEnvironment id input => done (updateEnvironment p id input)
  | DeleteEnvironment id => deleteEnvironment p id
  | CreateProfile input => done (createProfile p (er_seen q) (er_newid q) input)
  | SaveProfile id input => done (updateProfile p id input)
  | DeleteProfile id => deleteProfile p id
  end.
Definition admitted (p : Principal) (q : errand) : M idb unit :=
  if guard_admits (task_guard (er_task q)) p then perform p q else throw (writeError 403 "forbidden" "permission required").
End errands.
