(* ===== verification/InventoryProofs.v ===== *)
(** * What administrators may do to the inventory (theorems about Inventory.v and Profiles.v)

    [edit]: one rule per thing a request may change; every request is some of
    these steps, however it ends.  Scripts are immutable, profiles stay bound to
    what was approved, secrets open in the Runner. *)
From stdpp Require Import relations.
From S2P Require Import Prelude GoIO GoString GoPath OS Encoding Sha256 Crypto Model Db Store Backend Runtime Releases Vault Accounts Rbac NetIP Limiter Network Auth Oidc Portal Inventory Profiles.

(** ** Statements *)
Lemma insert_unique_ok {R} same ok id (r : R) m m' :
  insert_unique same ok id r m = Ok m' → m !! id = None ∧ ok r = Ok () ∧ taken same id r m = false ∧ m' = <[id := r]> m.
Proof.
  unfold insert_unique. intros H. apply bind_ok in H as ([] & Hok & H). apply bind_ok in H as (_ & Hf%fail_if_ok & [= <-]).
  apply orb_false_iff in Hf as [Hn Ht]. apply bool_decide_eq_false, eq_None_not_Some in Hn. done.
Qed.
Lemma update_unique_ok {R} same ok id cond f (m : gmap string R) b m' :
  update_unique same ok id cond f m = Ok (b, m') →
  (b = false ∧ m' = m) ∨
  ∃ r, m !! id = Some r ∧ cond r = true ∧ ok (f r) = Ok () ∧ taken same id (f r) m = false ∧ b = true ∧ m' = <[id := f r]> m.
Proof.
  unfold update_unique. destruct (m !! id) as [r|]; [|intros [= <- <-]; by left]. destruct (cond r) eqn:Hc; [|intros [= <- <-]; by left]. simpl.
  intros H. apply bind_ok in H as ([] & Hok & H). apply bind_ok in H as (_ & Ht%fail_if_ok & [= <- <-]). right. by exists r.
Qed.

Section statements.
Context `{Services}.
Lemma each_with_id R `{!PreOrder R} {A} id (f : string → Z → inventory → result (A * inventory)) :
  (∀ i n t a t', pg_uuid id = Some i → f i n t = Ok (a, t') → R t t') → each R (with_id id f).
Proof. intros Hf. apply (each_checked R). intros n t a t'. destruct (pg_uuid id) as [i|] eqn:E; [eauto|done]. Qed.
Lemma each_find R `{!PreOrder R} {A} id (f : string → inventory → option A) : each R (find_row id f).
Proof. unfold find_row. apply (each_bind R); [|intros; apply (each_lift R)]. apply (each_with_id R). intros ????? _ [= _ <-]. done. Qed.
Lemma each_inventory_audit R `{!PreOrder R} a b c d e : (∀ f t, R t (on_audits f t)) → each R (audit_inventory a b c d e).
Proof. intros Ha. unfold audit_inventory. each_steps. apply Ha. Qed.
Lemma each_runs R `{!PreOrder R} {A} b c (m : M idb A) : (∀ t n, runs t n m (λ _, R t)) → each R (transaction_with b c m).
Proof.
  intros Hm w. destruct (transaction_with b c m w) as [r w'] eqn:E. simpl.
  destruct (transaction_cases _ _ _ _ _ _ E) as [[-> _]|(a & w1 & -> & E1 & -> & _)]; [done|]. by destruct (Hm _ _ (ticked_db (tabs w) false w) a w1 eq_refl eq_refl E1).
Qed.
Lemma runs_with_id {A} t n id (f : string → Z → inventory → result (A * inventory)) Q :
  (∀ i a t', pg_uuid id = Some i → f i n t = Ok (a, t') → Q a t') → runs t n (with_id id f) Q.
Proof. intros Hf. apply runs_checked. intros a t'. destruct (pg_uuid id) as [i|] eqn:E; [eauto|done]. Qed.
Lemma runs_find {A} t n id (f : string → inventory → option A) : runs t n (find_row id f) (λ a t', ∃ i, pg_uuid id = Some i ∧ f i t = Some a ∧ t' = t).
Proof.
  unfold find_row. apply (runs_bind _ _ _ _ (λ o t', ∃ i, pg_uuid id = Some i ∧ o = f i t ∧ t' = t)).
  - apply runs_with_id. intros i a t' Hi [= <- <-]. by exists i.
  - intros o t' (i & Hi & -> & ->). apply runs_lift. intros a Ha%of_option_ok. by exists i.
Qed.
Lemma runs_row_or {A} t n missing failed (m : M idb A) Q : runs t n m Q → runs t n (row_or missing failed m) Q.
Proof. apply runs_wrap. Qed.
Lemma runs_with_id_bind {A B} t n id (f : string → Z → inventory → result (A * inventory)) (k : A → M idb B) Q :
  (∀ i a t', pg_uuid id = Some i → f i n t = Ok (a, t') → runs t' n (k a) Q) → runs t n (with_id id f ≫= k) Q.
Proof. intros Hk. eapply runs_bind; [apply (runs_with_id _ _ _ _ (λ a t', ∃ i, pg_uuid id = Some i ∧ f i n t = Ok (a, t'))); eauto|]. intros a t' (i & ? & ?). eauto. Qed.
Lemma runs_find_bind {A B} t n id (f : string → inventory → option A) (k : A → M idb B) Q :
  (∀ i a, pg_uuid id = Some i → f i t = Some a → runs t n (k a) Q) → runs t n (find_row id f ≫= k) Q.
Proof. intros Hk. eapply runs_bind; [apply runs_find|]. intros a t' (i & ? & ? & ->). eauto. Qed.
End statements.
(** One step of a transaction: like [run_step], with the statements above. *)
Ltac tx_step :=
  lazymatch goal with
  | |- runs _ _ (with_id _ _ ≫= _) _ => apply runs_with_id_bind; intros ? ? ? ? ?
  | |- runs _ _ (find_row _ _ ≫= _) _ => apply runs_find_bind; intros ? ? ? ?
  | |- runs _ _ (row_or _ _ _ ≫= _) _ => apply runs_wrap_bind
  | |- runs _ _ (refuse_if _ _ _ _ ≫= _) _ => unfold refuse_if at 1
  | |- runs _ _ (lift _ ≫= _) _ => apply runs_lift_bind; intros ? ?
  | _ => run_step
  end.
Ltac tx_steps := repeat (cbv beta zeta; tx_step).
Ltac tx_facts :=
  repeat match goal with
  | E : map_err _ _ = Ok _ |- _ => apply map_err_ok in E
  | E : of_option _ _ = Ok _ |- _ => apply of_option_ok in E
  | E : fail_if _ _ = Ok _ |- _ => apply fail_if_ok in E
  end; simplify_eq.

(** ** The rules *)
Definition phase_type (phase : string) : option string :=
  if bool_decide (phase = "PRE_DEPLOY") then Some "PRE_CHECK" else if bool_decide (phase = "DEPLOY") then Some "DEPLOY"
  else if bool_decide (phase = "POST_DEPLOY") then Some "HEALTH_CHECK" else if bool_decide (phase = "ROLLBACK") then Some "ROLLBACK" else None.
Section rules.
Context `{ErrorText} `{Services} (vault : Vault).

(** The registry columns of a profile are those of its registry, or empty. *)
Definition registry_of (t : inventory) (g : profile_registry) : Prop :=
  match pg_credential g with
  | None => g = no_registry
  | Some c => ∃ r, iv_registries t !! c = Some r ∧ g = Registry (Some c) (rg_endpoint r) (registryHost (rg_endpoint r)) (rg_project r) (rg_insecure r)
  end.
(** A credential as the statement that binds it has [seen] it, which exists still. *)
Definition usable_target (seen : snapshots) (t : inventory) (c : string) : Prop :=
  is_Some (iv_credentials t !! c) ∧ ∃ k, iv_credentials (seen_by (sn_target seen) t) !! c = Some k ∧ usable_credential k = true.
Definition target_from (p : Principal) (seen : snapshots) (t : inventory) (id : string) (d : deployment_profile) : Prop :=
  dp_target d = (iv_profiles t !! id ≫= dp_target) ∨
  canManageTargetCredential p = true ∧ ∀ c, dp_target d = Some c → usable_target seen t c.
(** The links of other profiles stay; those of this one are scripts of the type
    of their phase that were approved when they were seen, at most one per phase. *)
Definition one_per_phase (id : string) (L : gmap (string * string * string) Z) : Prop :=
  ∀ s s' phase, is_Some (L !! (id, s, phase)) → is_Some (L !! (id, s', phase)) → s = s'.
Definition links_from (seen : snapshots) (t : inventory) (id : string) (L : gmap (string * string * string) Z) : Prop :=
  ∀ profile script phase n, L !! (profile, script, phase) = Some n →
    profile ≠ id ∧ iv_links t !! (profile, script, phase) = Some n ∨
    profile = id ∧ ∃ s type, iv_scripts (seen_by (sn_script seen phase) t) !! script = Some s ∧ phase_type phase = Some type ∧ approved_script type s = true.
Record profile_saved (p : Principal) (seen : snapshots) (t : inventory) (id : string) (d : deployment_profile) (L : gmap (string * string * string) Z) : Prop := {
  ps_runtime : validRuntimeBinaryPath (pn_kind (dp_runtime d)) (pn_path (dp_runtime d)) = true;
  ps_manual : pn_auto (dp_runtime d) = false;
  ps_place : in_application (ph_environment (dp_head d)) (ph_application (dp_head d)) t = true;
  ps_registry : registry_of (seen_by (sn_registry seen) t) (dp_registry d);
  ps_target : target_from p seen t id d;
  ps_links : links_from seen t id L;
  ps_phases : one_per_phase id L
}.
Definition rotated_password (id : string) (old : registry_credential) (input : registryInput) (password : string) : Prop :=
  if empty_str (gi_Password input)
  then ∃ plain entry, VaultDecrypt vault (rg_ciphertext old) (registryAAD id (rg_version old)) = Ok plain ∧ sr_password plain = Some entry ∧ password = default "" entry
  else password = gi_Password input.

Inductive edit (p : Principal) (q : errand) (t : inventory) : inventory → Prop :=
  | ed_audit f : edit p q t (on_audits f t)
  | ed_script id n i input v version t' :
      (er_task q = CreateScript i ∨ ∃ old, er_task q = UpdateScript old i) → validateScript i = Ok (input, v) →
      insert_script id (script_of p n input version) t = Ok ((), t') → edit p q t t'
  | ed_approve id n b t' :
      (∃ raw, er_task q = ApproveScript raw) ∨ (∃ old i, er_task q = UpdateScript old i) →
      update_script id (approve_row n (pr_UserID p)) t = Ok (b, t') → edit p q t t'
  | ed_revoke id n b t' : update_script id (revoke_row n) t = Ok (b, t') → edit p q t t'
  | ed_registry id n i input c t' :
      er_task q = CreateRegistry i → validateRegistry i = Ok input → gi_Password input ≠ "" → pg_uuid (drawn (er_newid q)) = Some id →
      seal_registry vault (er_random q) (drawn (er_newid q)) 1 (gi_Username input) (gi_Password input) = Ok c →
      insert_registry id (registry_row p n input 1 c None) t = Ok ((), t') → edit p q t t'
  | ed_rotate_registry raw id n i input old password c t' :
      er_task q = UpdateRegistry raw i → validateRegistry i = Ok input → pg_uuid raw = Some id → iv_registries t !! id = Some old →
      rotated_password raw old input password →
      seal_registry vault (er_random q) raw (i64 (rg_version old + 1)) (gi_Username input) password = Ok c →
      update_registry id (λ r, registry_row p n input (i64 (rg_version old + 1)) c (rg_revoked r)) t = Ok (true, t') →
      edit p q t (on_profiles (readdress id input) t')
  | ed_revoke_registry id n b t' : update_registry id (revoke_registry n) t = Ok (b, t') → edit p q t t'
  | ed_credential id n i input c t' :
      er_task q = CreateCredential i → validateTargetCredential i true = Ok input → pg_uuid (drawn (er_newid q)) = Some id →
      VaultEncrypt vault (er_random q) (ti_Secret input) (targetCredentialAAD (drawn (er_newid q)) 1) = Ok c →
      insert_credential id (TargetCredential (ti_Name input) (ti_Type input) 1 c (default true (ti_Active input)) (n, pr_UserID p) None) t = Ok ((), t') →
      edit p q t t'
  | ed_rename id cond name active b t' : update_credential id cond (rename_credential name active) t = Ok (b, t') → edit p q t t'
  | ed_rotate raw id n secret old c b t' :
      er_task q = RotateCredential raw secret → pg_uuid raw = Some id → empty_str secret || oversized_secret secret = false →
      iv_credentials t !! id = Some old →
      VaultEncrypt vault (er_random q) secret (targetCredentialAAD raw (i64 (tk_version old + 1))) = Ok c →
      update_credential id (λ _, true) (rotate_row p n (i64 (tk_version old + 1)) c) t = Ok (b, t') → edit p q t t'
  | ed_revoke_credential id n b t' : update_credential id unrevoked (revoke_credential n) t = Ok (b, t') → edit p q t t'
  | ed_runners f : edit p q t (on_runners f t)
  | ed_applications f : edit p q t (on_applications f t)
  | ed_environment id app e t' : (∀ a, ew_application (e a) = a) → insert_env id app e t = Ok ((), t') → edit p q t t'
  | ed_edit_environment id f b t' : (∀ e, ew_application (f e) = ew_application e) → update_env id f t = Ok (b, t') → edit p q t t'
  | ed_drop_environment id : edit p q t (drop_environment id t)
  | ed_drop_application id : edit p q t (drop_application id t)
  | ed_profile seen id d L :
      (seen = at_commit ∨ (∃ i, er_task q = CreateProfile i) ∧ seen = er_seen q) → profile_saved p seen t id d L → edit p q t (on_links (λ _, L) (on_profiles (<[id := d]>) t))
  | ed_retire id n b t' : update_profile_row id (λ d, bool_decide (dp_revoked d = None)) (retire n) t = Ok (b, t') → edit p q t t'.
End rules.

(** ** Every request is some of these steps *)
Ltac edit_step :=
  lazymatch goal with
  | |- each ?R (audit_inventory _ _ _ _ _) => apply (each_inventory_audit R); intros; apply rtc_once, ed_audit
  | |- each ?R (find_row _ _) => apply (each_find R)
  | |- each ?R (with_id _ _) => apply (each_with_id R); intros ? ? ? ? ? ? ?
  | |- each ?R (row_or _ _ _) => apply (each_wrap R)
  | |- each _ (refuse_if _ _ _ _) => unfold refuse_if
  | |- each _ (invalid_if _ _) => unfold invalid_if
  | |- each _ (iv_read _) => unfold iv_read
  | |- each _ (getApplicationByID _) => unfold getApplicationByID
  | |- each _ (getEnvironmentByID _) => unfold getEnvironmentByID
  | |- each _ (getProfileByID _) => unfold getProfileByID
  | _ => each_step
  end.
Ltac edit_steps := repeat (cbv beta zeta; edit_step).
Ltac by_rule c := repeat match goal with u : unit |- _ => destruct u end; apply rtc_once; eapply c; eauto.
Section refinement.
Context `{ErrorText} `{Services} (vault : Vault) (p : Principal).
Notation steps q := (rtc (edit vault p q)).

Lemma each_lift_bind {R} `{!PreOrder R} {A B} (r : result A) (k : A → M idb B) : (∀ a, r = Ok a → each R (k a)) → each R (lift r ≫= k).
Proof. intros Hk w. destruct r as [a|e]; [exact (Hk a eq_refl w)|done]. Qed.
Lemma each_invalid_bind {R} `{!PreOrder R} {A B} code (r : result A) (k : A → M idb B) : (∀ a, r = Ok a → each R (k a)) → each R (invalid_if code r ≫= k).
Proof. intros Hk. apply (each_lift_bind (R := R)). by intros a Ha%map_err_ok; auto. Qed.

Lemma create_script_steps q input : er_task q = CreateScript input → each (steps q) (createScript p (er_newid q) input).
Proof.
  intros Hq. unfold createScript. apply (each_invalid_bind (R := steps q)). intros [i v] Hv. edit_steps. by_rule ed_script.
Qed.
Lemma approve_script_steps q id : er_task q = ApproveScript id → each (steps q) (approveScript p id).
Proof. intros Hq. unfold approveScript, promoteScriptVersion. edit_steps. by_rule ed_approve. Qed.
Lemma revoke_script_steps q id : each (steps q) (revokeScript p id).
Proof. unfold revokeScript. edit_steps. by_rule ed_revoke. Qed.
Lemma update_script_steps q id input : er_task q = UpdateScript id input → each (steps q) (updateScript p id (er_newid q) input).
Proof.
  intros Hq. unfold updateScript, promoteScriptVersion. apply (each_invalid_bind (R := steps q)). intros [i v] Hv. edit_steps.
  - by_rule ed_script.
  - by_rule ed_approve.
Qed.
Lemma create_registry_steps q input : er_task q = CreateRegistry input → each (steps q) (createRegistry p vault (er_newid q) (er_random q) input).
Proof.
  intros Hq. unfold createRegistry. apply (each_invalid_bind (R := steps q)). intros i Hi. unfold refuse_if. apply (each_lift_bind (R := steps q)). intros [] Hp%fail_if_ok.
  cbv zeta. apply (each_lift_bind (R := steps q)). intros c Hc%map_err_ok. edit_steps. by_rule ed_registry. by apply bool_decide_eq_false in Hp.
Qed.
Lemma revoke_registry_steps q id : each (steps q) (revokeRegistry p id).
Proof. unfold revokeRegistry. edit_steps. by_rule ed_revoke_registry. Qed.
Lemma create_credential_steps q input : er_task q = CreateCredential input → each (steps q) (createTargetCredential p vault (er_newid q) (er_random q) input).
Proof.
  intros Hq. unfold createTargetCredential. apply (each_invalid_bind (R := steps q)). intros i Hi. cbv zeta. apply (each_lift_bind (R := steps q)). intros c Hc%map_err_ok.
  edit_steps. by_rule ed_credential.
Qed.
Lemma update_credential_steps q id input : each (steps q) (updateTargetCredential p id input).
Proof. unfold updateTargetCredential. edit_steps. by_rule ed_rename. Qed.
Lemma revoke_credential_steps q id : each (steps q) (revokeTargetCredential p id).
Proof. unfold revokeTargetCredential. edit_steps. by_rule ed_revoke_credential. Qed.
Lemma insert_runner_steps q id r t u t' : insert_runner id r t = Ok (u, t') → steps q t t'.
Proof. unfold insert_runner. intros H1. apply bind_ok in H1 as (m & _ & [= _ <-]). apply rtc_once, (ed_runners _ _ _ _ (λ _, m)). Qed.
Lemma update_runner_steps q id f t b t' : update_runner id f t = Ok (b, t') → steps q t t'.
Proof. unfold update_runner. intros H1. apply bind_ok in H1 as ([? m] & _ & [= _ <-]). apply rtc_once, (ed_runners _ _ _ _ (λ _, m)). Qed.
Lemma create_runner_steps q newid random input : each (steps q) (createRunner p newid random input).
Proof. unfold createRunner. edit_steps. by eapply insert_runner_steps. Qed.
Lemma update_runner_request q id input : each (steps q) (updateRunner p id input).
Proof. unfold updateRunner. edit_steps. by eapply update_runner_steps. Qed.
Lemma delete_runner_steps q id : each (steps q) (deleteRunner p id).
Proof. unfold deleteRunner. edit_steps. simplify_eq. apply rtc_once, ed_runners. Qed.
Lemma insert_application_steps q id a t u t' : insert_application id a t = Ok (u, t') → steps q t t'.
Proof. unfold insert_application. intros H1. apply bind_ok in H1 as (m & _ & [= _ <-]). apply rtc_once, (ed_applications _ _ _ _ (λ _, m)). Qed.
Lemma update_application_steps q id f t b t' : update_application id f t = Ok (b, t') → steps q t t'.
Proof. unfold update_application. intros H1. apply bind_ok in H1 as ([? m] & _ & [= _ <-]). apply rtc_once, (ed_applications _ _ _ _ (λ _, m)). Qed.
Lemma create_application_steps q newid input : each (steps q) (createApplication p newid input).
Proof. unfold createApplication. edit_steps. by eapply insert_application_steps. Qed.
Lemma update_application_request q id input : each (steps q) (updateApplication p id input).
Proof. unfold updateApplication. edit_steps. by eapply update_application_steps. Qed.
Lemma delete_application_steps q id : each (steps q) (deleteApplication p id).
Proof. unfold deleteApplication. edit_steps. simplify_eq. apply rtc_once, ed_drop_application. Qed.
Lemma create_environment_steps q app newid input : each (steps q) (createEnvironment p app newid input).
Proof. unfold createEnvironment. edit_steps. by_rule ed_environment. done. Qed.
Lemma update_environment_steps q id input : each (steps q) (updateEnvironment p id input).
Proof. unfold updateEnvironment. edit_steps. apply rtc_once. eapply ed_edit_environment; [|eassumption]. by intros []. Qed.
Lemma delete_environment_steps q id : each (steps q) (deleteEnvironment p id).
Proof. unfold deleteEnvironment. edit_steps. simplify_eq. apply rtc_once, ed_drop_environment. Qed.
Lemma update_registry_steps q id input : er_task q = UpdateRegistry id input → each (steps q) (updateRegistry p vault id (er_random q) input).
Proof.
  intros Hq. unfold updateRegistry. apply (each_invalid_bind (R := steps q)). intros i Hi. cbv zeta.
  apply (each_bind (steps q)); [|intros; edit_steps]. apply (each_runs (steps q)). intros t n. tx_steps.
  match goal with E : pg_uuid id = Some ?k, F : unrevoked_registry _ _ = Some ?r |- _ => rename k into key, r into old, E into Hkey, F into Hold end.
  assert (iv_registries t !! key = Some old) as Hrow.
  { unfold unrevoked_registry in Hold. destruct (iv_registries t !! key) as [r|]; [|done]. simpl in Hold. by destruct (rg_revoked r); simplify_eq. }
  eapply (runs_bind _ _ _ _ (λ pw t', t' = t ∧ rotated_password vault id old i pw)).
  { unfold rotated_password. destruct (empty_str (gi_Password i)); [|by apply runs_ret]. tx_steps.
    tx_facts. split; [done|]. by repeat esplit. }
  intros pw t' [-> Hpw]. tx_steps. tx_facts.
  match goal with E : negb ?b = false |- _ => is_var b; destruct b; [|done] end. apply rtc_once. by eapply ed_rotate_registry.
Qed.
Lemma rotate_credential_steps q id secret : er_task q = RotateCredential id secret → each (steps q) (rotateTargetCredential p vault id (er_random q) secret).
Proof.
  intros Hq. unfold rotateTargetCredential, refuse_if. apply (each_lift_bind (R := steps q)). intros [] Hs%fail_if_ok. cbv zeta.
  apply (each_bind (steps q)); [|intros; edit_steps]. apply (each_runs (steps q)). intros t n. tx_steps. tx_facts.
  match goal with F : _ ≫= _ = Some ?r |- _ => rename r into old, F into Hold end.
  apply rtc_once. eapply ed_rotate; try done. destruct (iv_credentials t !! _) as [r|]; [|done]. simpl in Hold. by destruct (unrevoked r); simplify_eq.
Qed.
Lemma delete_profile_steps q id : each (steps q) (deleteProfile p id).
Proof. unfold deleteProfile. edit_steps. by_rule ed_retire. Qed.
End refinement.

(** ** A profile while it is saved *)
(** Nothing but one profile and its links have changed. *)
Definition draft (t : inventory) (id : string) (d : deployment_profile) (L : gmap (string * string * string) Z) : inventory :=
  on_links (λ _, L) (on_profiles (<[id := d]>) t).
Lemma draft_again t id d L d' L' : on_links (λ _, L') (on_profiles (<[id := d']>) (draft t id d L)) = draft t id d' L'.
Proof. unfold draft, on_links, on_profiles. simpl. by rewrite insert_insert_eq. Qed.
Lemma draft_update t id d L cond f b t' :
  update_profile_row id cond f (draft t id d L) = Ok (b, t') →
  (b = false ∧ cond d = false ∧ t' = draft t id d L) ∨ (b = true ∧ cond d = true ∧ check_profile (f d) = Ok () ∧ t' = draft t id (f d) L).
Proof.
  unfold update_profile_row, update_unique. simpl. rewrite lookup_insert_eq. destruct (cond d) eqn:Hc; simpl; [|intros [= <- <-]; by left].
  intros H. apply bind_ok in H as ([b' m] & H & [= <- <-]). apply bind_ok in H as ([] & Hk & H). apply bind_ok in H as (_ & _ & [= <- <-]).
  right. split_and!; try done. unfold draft, on_links, on_profiles. simpl. by rewrite insert_insert_eq.
Qed.

Section saving.
Context `{ErrorText} `{Services} (seen : snapshots) (t : inventory) (raw id : string) (Hid : pg_uuid raw = Some id) (input : profileInput).
Notation draft := (draft t id).
Ltac same_id := repeat match goal with E : pg_uuid raw = Some ?i |- _ => rewrite Hid in E; injection E as <- end.

Lemma seen_draft_registries d L : iv_registries (seen_by (sn_registry seen) (draft d L)) = iv_registries (seen_by (sn_registry seen) t).
Proof. by destruct (sn_registry seen). Qed.
Lemma seen_draft_credentials d L : iv_credentials (seen_by (sn_target seen) (draft d L)) = iv_credentials (seen_by (sn_target seen) t).
Proof. by destruct (sn_target seen). Qed.
Lemma seen_draft_scripts phase d L : iv_scripts (seen_by (sn_script seen phase) (draft d L)) = iv_scripts (seen_by (sn_script seen phase) t).
Proof. by destruct (sn_script seen phase). Qed.
Lemma runtime_saved d L n :
  runs (draft d L) n (updateProfileRuntime raw input) (λ _ t', ∃ d', t' = draft d' L ∧
    validRuntimeBinaryPath (pn_kind (dp_runtime d')) (pn_path (dp_runtime d')) = true ∧ pn_auto (dp_runtime d') = false ∧
    dp_head d' = dp_head d ∧ dp_target d' = dp_target d ∧ dp_revoked d' = dp_revoked d).
Proof.
  unfold updateProfileRuntime. tx_steps. same_id. tx_facts. match goal with E : _ <$> _ = Some _ |- _ => simpl in E; rewrite lookup_insert_eq in E; injection E as <- end.
  match goal with E : negb (validRuntimeBinaryPath _ _) = false |- _ => apply negb_false_iff in E; rename E into Hv end.
  match goal with E : update_profile_row _ _ _ _ = Ok _ |- _ => apply draft_update in E as [(_ & [=] & _)|(_ & _ & Hk & ->)] end.
  eexists. split; [done|]. unfold check_profile in Hk. apply bind_ok in Hk as (_ & _ & Hk%fail_if_ok). by apply orb_false_iff in Hk as [Hk _].
Qed.

(** *** The registry *)
Lemma registry_saved d L n :
  runs (draft d L) n (bind_registry seen raw input) (λ _ t', ∃ d', t' = draft d' L ∧ registry_of (seen_by (sn_registry seen) t) (dp_registry d') ∧
    dp_head d' = dp_head d ∧ dp_runtime d' = dp_runtime d ∧ dp_target d' = dp_target d ∧ dp_revoked d' = dp_revoked d).
Proof.
  unfold bind_registry, set_registry_row. destruct (negb (empty_str (fi_RegistryID input))); tx_steps; same_id; simpl in *; tx_facts.
  - match goal with E : _ ≫= _ = Some ?r |- _ => rename r into row, E into Hrow end.
    repeat match goal with E : _ ≫= _ = Ok (_, _) |- _ => apply bind_ok in E as (? & ? & E) end. tx_facts.
    match goal with E : update_profile_row _ _ _ _ = Ok _ |- _ => apply draft_update in E as [(_ & [=] & _)|(_ & _ & _ & ->)] end.
    eexists. split; [done|]. split; [|done]. eexists. split; [|done]. rewrite seen_draft_registries in Hrow.
    destruct (iv_registries (seen_by _ t) !! _) as [r|]; [|done]. simpl in Hrow. by destruct (usable_registry r); simplify_eq.
  - match goal with E : update_profile_row _ _ _ _ = Ok _ |- _ => apply draft_update in E as [(_ & [=] & _)|(_ & _ & _ & ->)] end.
    by eexists.
Qed.

(** *** The target credential *)
Definition target_given (d d' : deployment_profile) : Prop :=
  dp_target d' = dp_target d ∨ ∃ c, profileTargetCredential (fi_TargetCredentialID input) = Ok (c, true) ∧
    (c = "" ∧ dp_target d' = None ∨ c ≠ "" ∧ ∃ i, dp_target d' = Some i ∧ usable_target seen t i).
Lemma target_saved d L n c provided :
  profileTargetCredential (fi_TargetCredentialID input) = Ok (c, provided) →
  runs (draft d L) n (rebind_target seen raw c provided) (λ _ t', ∃ d', t' = draft d' L ∧ target_given d d' ∧
    dp_head d' = dp_head d ∧ dp_runtime d' = dp_runtime d ∧ dp_registry d' = dp_registry d ∧ dp_revoked d' = dp_revoked d).
Proof.
  intros Hc. unfold rebind_target, bind_target. destruct provided; simpl; [destruct (empty_str c) eqn:Ec; simpl|].
  - tx_steps. same_id. match goal with E : update_profile_row _ _ _ _ = Ok _ |- _ => apply draft_update in E as [(_ & [=] & _)|(_ & _ & _ & ->)] end.
    eexists. split; [done|]. split; [|done]. right. exists c. split; [done|]. left. by apply bool_decide_eq_true in Ec.
  - tx_steps. same_id. apply runs_lift. intros [] Hm%fail_if_ok. apply negb_false_iff in Hm. subst.
    match goal with E : _ ≫= _ = Ok (_, _) |- _ =>
      apply bind_ok in E as (i & Hi & E); apply bind_ok in E as (_ & Hf%fail_if_ok & E); apply draft_update in E as [(? & _)|(_ & Hu & _ & ->)]; [done|] end.
    eexists. split; [done|]. split; [|done]. right. exists c. split; [done|]. right. split; [by apply bool_decide_eq_false in Ec|].
    rewrite seen_draft_credentials in Hf, Hu. rewrite Hu in Hf. simpl in Hf. destruct (iv_credentials (seen_by _ t) !! i) as [k|] eqn:Ek; [|done].
    exists i. split; [done|]. apply bool_decide_eq_false in Hf. split; [by destruct (iv_credentials t !! i)|by exists k].
  - apply runs_ret. exists d. split; [done|]. split; [by left|done].
Qed.

(** *** The scripts *)
Definition unlinked (id : string) (phases : list string) (L : gmap (string * string * string) Z) : Prop :=
  ∀ s phase, is_Some (L !! (id, s, phase)) → phase ∉ phases.
Lemma link_inserted s phase type order d L b t' :
  phase_type phase = Some type → links_from seen t id L → one_per_phase id L → unlinked id [phase] L →
  insert_link seen id s phase order type (draft d L) = Ok (b, t') → b = true →
  ∃ L', t' = draft d L' ∧ links_from seen t id L' ∧ one_per_phase id L' ∧ (∀ phases, phase ∉ phases → unlinked id phases L → unlinked id phases L').
Proof.
  intros Htype HL Hone Hfree Hin ->. unfold insert_link in Hin. apply bind_ok in Hin as (script & _ & Hin). rewrite seen_draft_scripts in Hin.
  destruct (iv_scripts (seen_by _ t) !! script) as [v|] eqn:Ev; [|done]. destruct (approved_script type v) eqn:Ha; [|done]. simpl in Hin.
  apply bind_ok in Hin as (_ & _ & Hin). apply bind_ok in Hin as (_ & _ & Hin). apply bind_ok in Hin as (_ & _ & [= <-]). exists (<[(id, script, phase) := order]> L).
  split; [unfold draft, on_links; simpl; done|]. split_and!.
  - intros profile s' ph n. rewrite lookup_insert_Some. intros [[[= <- <- <-] _]|[_ Hl]]; [right; split; [done|]; by exists v, type|by apply HL in Hl].
  - intros s1 s2 ph. rewrite !lookup_insert_is_Some'. intros [E1|H1] [E2|H2]; simplify_eq; try done.
    + destruct (Hfree _ _ H2). left.
    + destruct (Hfree _ _ H1). left.
    + by eapply Hone.
  - intros phases Hn Hu s1 ph. rewrite lookup_insert_is_Some'. intros [E1|H1]; simplify_eq; [done|by eapply Hu].
Qed.
Lemma links_saved links order d L n :
  NoDup links.*1.*2 → (∀ s phase type, (s, phase, type) ∈ links → phase_type phase = Some type) →
  links_from seen t id L → one_per_phase id L → unlinked id links.*1.*2 L →
  runs (draft d L) n (link_scripts seen raw order links) (λ _ t', ∃ L', t' = draft d L' ∧ links_from seen t id L' ∧ one_per_phase id L').
Proof.
  revert order L. induction links as [|[[s phase] type] links IH]; intros order L; [intros; apply runs_ret; by exists L|].
  intros [Hn Hd]%NoDup_cons Htypes HL Hone Hfree. cbn [link_scripts].
  assert (unlinked id links.*1.*2 L) as Hfree' by (intros s' ph Hs Hin; apply (Hfree s' ph Hs); by right).
  assert (∀ s phase type, (s, phase, type) ∈ links → phase_type phase = Some type) as Htypes' by (intros ????; eapply Htypes; by right).
  destruct (empty_str s); [by apply IH|]. tx_steps. same_id. tx_facts. match goal with E : negb _ = false |- _ => apply negb_false_iff in E end.
  match goal with E : insert_link _ _ _ _ _ _ _ = Ok _ |- _ => eapply link_inserted in E as (L' & -> & HL' & Hone' & Hu'); [|eapply Htypes; by left|done..| |done] end.
  - by apply IH; auto.
  - intros s' ph Hs ->%list_elem_of_singleton. apply (Hfree s' phase Hs). by left.
Qed.

Lemma links_dropped d L :
  drop_links (λ profile, bool_decide (profile = id)) (draft d L) = draft d (filter (λ kl : (string * string * string) * Z, bool_decide (kl.1.1.1 = id) = false) L).
Proof. done. Qed.
Definition saved (d d' : deployment_profile) (L' : gmap (string * string * string) Z) : Prop :=
  validRuntimeBinaryPath (pn_kind (dp_runtime d')) (pn_path (dp_runtime d')) = true ∧ pn_auto (dp_runtime d') = false ∧
  dp_head d' = dp_head d ∧ dp_revoked d' = dp_revoked d ∧ registry_of (seen_by (sn_registry seen) t) (dp_registry d') ∧ target_given d d' ∧ links_from seen t id L' ∧ one_per_phase id L'.
Lemma profile_saves d n : runs (draft d (iv_links t)) n (save_profile seen raw input) (λ _ t', ∃ d' L', t' = draft d' L' ∧ saved d d' L').
Proof.
  unfold save_profile. apply runs_wrap_bind. eapply runs_bind; [apply runtime_saved|]. intros _ t1 (d1 & -> & Hv & Hm & Hh1 & Ht1 & Hr1).
  apply runs_wrap. unfold updateProfileLinks. eapply runs_bind; [apply registry_saved|]. intros _ t2 (d2 & -> & Hg & Hh2 & Hn2 & Ht2 & Hr2).
  apply runs_lift_bind. intros [c provided] Hc. eapply runs_bind; [by apply target_saved|]. intros _ t3 (d3 & -> & Hgiven & Hh3 & Hn3 & Hg3 & Hr3).
  tx_steps. same_id. simplify_eq. rewrite links_dropped. eapply runs_conseq; [apply links_saved|].
  - apply (bool_decide_unpack _). by vm_compute.
  - intros s phase type Hin. by repeat (apply elem_of_cons in Hin as [[= -> -> ->]|Hin]; [done|]); apply elem_of_nil in Hin.
  - intros profile s phase k [Hl Hne]%map_lookup_filter_Some. apply bool_decide_eq_false in Hne. by left.
  - intros s s' phase [k [_ Hne%bool_decide_eq_false]%map_lookup_filter_Some]. done.
  - intros s phase [k [_ Hne%bool_decide_eq_false]%map_lookup_filter_Some]. done.
  - intros _ t' (L' & -> & HL & Hone). exists d3, L'. split; [done|]. unfold saved. rewrite Hn3, Hn2, Hg3, Hh3, Hh2, Hr3, Hr2. split_and!; try done.
    unfold target_given in *. by rewrite Ht2, Ht1 in Hgiven.
Qed.
End saving.

Create HintDb edits.
Section requests.
Context `{ErrorText} `{Services} (vault : Vault) (p : Principal).
Notation steps q := (rtc (edit vault p q)).

Lemma saved_profile seen t id d input d' L' :
  (iv_profiles t !! id ≫= dp_target) = dp_target d →
  ((given_target input).2 = true → canManageTargetCredential p = true ∨ (given_target input).1 = "" ∧ dp_target d = None) →
  in_application (ph_environment (dp_head d)) (ph_application (dp_head d)) t = true →
  saved seen t id input d d' L' → profile_saved p seen t id d' L'.
Proof.
  intros Hold Hmay Hin (Hv & Hm & Hh & _ & Hg & Ht & HL & Hone). split; try done; [by rewrite Hh|]. unfold target_from. rewrite Hold.
  destruct Ht as [Ht|(c & Hc & Hset)]; [by left|]. unfold given_target in Hmay. rewrite Hc in Hmay.
  destruct (Hmay eq_refl) as [Hcan|[Hempty Hnone]]; simpl in *.
  - right. split; [done|]. intros k Hk. destruct Hset as [[_ Hs]|(_ & i & Hs & Hu)]; rewrite Hs in Hk; by simplify_eq.
  - left. destruct Hset as [[_ ->]|(Hne & _)]; [done|by destruct Hne].
Qed.
Lemma create_profile_steps q newid input : er_task q = CreateProfile input → each (steps q) (createProfile p (er_seen q) newid input).
Proof.
  intros Hq. unfold createProfile. apply (each_lift_bind _ (R := steps q)). intros [] _. destruct (given_target input) as [c provided] eqn:Eg.
  apply (each_lift_bind _ (R := steps q)). intros [] Hs%fail_if_ok. cbv zeta. apply (each_bind (steps q)); [|intros; edit_steps].
  apply (each_runs (steps q)). intros t n. tx_steps. tx_facts.
  match goal with E : insert_profile _ _ _ _ = Ok _ |- _ => rename E into Hins end.
  match goal with E : negb ?b = false |- _ => is_var b; destruct b; [|done] end.
  unfold insert_profile in Hins. apply bind_ok in Hins as (app & _ & Hins). apply bind_ok in Hins as (env & _ & Hins).
  destruct (in_application env app t) eqn:Hin; [|done]. simpl in Hins. apply bind_ok in Hins as ([[] t1] & Hrow & [= <-]).
  unfold insert_profile_row in Hrow. apply bind_ok in Hrow as (m & (Hn & _ & _ & ->)%insert_unique_ok & [= <-]).
  eapply runs_conseq; [by apply (profile_saves (er_seen q) t)|]. intros _ t' (d' & L' & -> & Hsaved).
  apply rtc_once, (ed_profile _ _ _ _ (er_seen q)); [right; split; [by exists input|done]|].
  eapply saved_profile; [..|exact Hsaved]; [by rewrite Hn| |done]. rewrite Eg. simpl. intros ->. simpl in Hs.
  destruct (canManageTargetCredential p); [by left|right]. split; [|done]. apply andb_false_iff in Hs as [Hs|Hs]; [|done].
  apply negb_false_iff in Hs. by apply bool_decide_eq_true in Hs.
Qed.
Lemma update_profile_steps q id input : each (steps q) (updateProfile p id input).
Proof.
  unfold updateProfile. apply (each_lift_bind _ (R := steps q)). intros [] _. cbv zeta. apply (each_bind (steps q)); [|intros; edit_steps].
  apply (each_runs (steps q)). intros t n. tx_steps. tx_facts.
  match goal with E : update_head _ _ _ _ = Ok _, F : _ && _ = false |- _ => rename E into Hup, F into Hs end.
  match goal with E : negb ?b = false |- _ => is_var b; destruct b; [|done] end.
  unfold update_head in Hup. apply bind_ok in Hup as (app & _ & Hup). apply bind_ok in Hup as (env & _ & Hup).
  unfold update_profile_row in Hup. apply bind_ok in Hup as ([b m] & [[-> _]|(d & Hd & Hc & _ & _ & _ & ->)]%update_unique_ok & [= -> <-]).
  apply andb_true_iff in Hc as [_ Hin]. eapply runs_conseq; [by apply (profile_saves at_commit t)|]. intros _ t' (d' & L' & -> & Hsaved).
  apply rtc_once, (ed_profile _ _ _ _ at_commit); [by left|]. eapply saved_profile; [..|exact Hsaved]; [by rewrite Hd| |done]. intros Hg. rewrite Hg in Hs.
  left. by apply negb_false_iff in Hs.
Qed.
#[local] Hint Resolve create_script_steps update_script_steps approve_script_steps revoke_script_steps create_registry_steps update_registry_steps
  revoke_registry_steps create_credential_steps update_credential_steps rotate_credential_steps revoke_credential_steps create_runner_steps
  update_runner_request delete_runner_steps create_application_steps update_application_request delete_application_steps
  create_environment_steps update_environment_steps delete_environment_steps create_profile_steps update_profile_steps
  delete_profile_steps : edits.
Lemma perform_steps q : each (steps q) (perform vault p q).
Proof. unfold perform. destruct (er_task q) eqn:Hq; cbv zeta; edit_steps; auto with edits. Qed.
End requests.

(** ** Any requests *)
Section sequences.
Context `{ErrorText} `{Services} (vault : Vault).
Fixpoint served (l : list (Principal * errand)) (w : idb) : idb :=
  match l with [] => w | (p, q) :: l => served l (admitted vault p q w).2 end.
(** A step of one of the requests, by a caller its guard admits. *)
Definition step_of (l : list (Principal * errand)) (t t' : inventory) : Prop :=
  ∃ p q, (p, q) ∈ l ∧ guard_admits (task_guard (er_task q)) p = true ∧ edit vault p q t t'.
Lemma admitted_steps p q w : rtc (λ t t', guard_admits (task_guard (er_task q)) p = true ∧ edit vault p q t t') (tabs w) (tabs (admitted vault p q w).2).
Proof.
  unfold admitted. destruct (guard_admits _ p) eqn:Hg; [|done]. pose proof (perform_steps vault p q w) as Hs. by eapply rtc_congruence with (f := id); [|exact Hs].
Qed.
Lemma served_steps l w : rtc (step_of l) (tabs w) (tabs (served l w)).
Proof.
  revert w. induction l as [|[p q] l IH]; intros w; [done|]. simpl. etrans.
  - eapply rtc_congruence with (f := id); [|apply admitted_steps]. intros t t' [Hg He]. exists p, q. split; [left|done].
  - eapply rtc_congruence with (f := id); [|apply IH]. intros t t' (p' & q' & Hin & Hg & He). exists p', q'. split; [by right|done].
Qed.
Lemma admitted_respects (R : inventory → inventory → Prop) `{!PreOrder R} p q w :
  (∀ t t', edit vault p q t t' → R t t') → R (tabs w) (tabs (admitted vault p q w).2).
Proof. intros Hstep. induction (admitted_steps p q w) as [t|t1 t2 t3 [_ H12] _ IH]; [done|]. etrans; [by apply Hstep|done]. Qed.
Lemma served_respects (R : inventory → inventory → Prop) `{!PreOrder R} l w :
  (∀ t t', step_of l t t' → R t t') → R (tabs w) (tabs (served l w)).
Proof. intros Hstep. induction (served_steps l w) as [t|t1 t2 t3 H12 _ IH]; [done|]. etrans; [by apply Hstep|done]. Qed.
End sequences.

(** ** Scripts are immutable *)
Record same_text (s s' : script_version) : Prop := {
  st_name : sv_name s' = sv_name s; st_type : sv_type s' = sv_type s; st_version : sv_version s' = sv_version s;
  st_interpreter : sv_interpreter s' = sv_interpreter s; st_content : sv_content s' = sv_content s; st_sha256 : sv_sha256 s' = sv_sha256 s;
  st_timeout : sv_timeout s' = sv_timeout s; st_creator : sv_creator s' = sv_creator s
}.
#[export] Instance same_text_preorder : PreOrder same_text.
Proof. split; [by split|]. intros s1 s2 s3 [] []. split; congruence. Qed.
(** What may become of a script: [A] says who may approve. *)
Record later (A : Principal → Prop) (s s' : script_version) : Prop := {
  lt_text : same_text s s';
  lt_revoked : is_Some (sv_revoked s) → s' = s;
  lt_approval : sv_approved s' = sv_approved s ∨ ∃ p n, A p ∧ sv_approved s' = Some (n, pr_UserID p);
  lt_active : sv_active s = false → sv_active s' = true → ∃ p n, A p ∧ sv_approved s' = Some (n, pr_UserID p)
}.
#[export] Instance later_preorder A : PreOrder (later A).
Proof.
  split; [intros s; split; [done|done|by left|by intros ->]|]. intros s1 s2 s3 [T1 R1 P1 A1] [T2 R2 P2 A2]. split.
  - by etrans.
  - intros Hr. rewrite <- (R1 Hr). apply R2. by rewrite (R1 Hr).
  - destruct P2 as [->|?]; [done|by right].
  - intros H1 H3. destruct (sv_active s2) eqn:H2; [|by apply A2]. destruct P2 as [->|?]; [by apply A1|done].
Qed.
Definition script_sound (s : script_version) : Prop :=
  sv_sha256 s = hex_encode (sha256 (to_bytes (sv_content s))) ∧ sv_type s ∈ script_types ∧ (1 ≤ sv_timeout s ≤ 86400) ∧ is_abs (sv_interpreter s) = true ∧
  (sv_active s = true → is_Some (sv_approved s) ∧ sv_revoked s = None).
Definition scripts_sound (t : inventory) : Prop :=
  (∀ id s, iv_scripts t !! id = Some s → script_sound s) ∧
  (∀ id id' s s', iv_scripts t !! id = Some s → iv_scripts t !! id' = Some s' → sv_name s = sv_name s' → sv_version s = sv_version s' → id = id').
(** A new version: who wrote it, and who made it active. *)
Definition added (A : Principal → Prop) (s : script_version) : Prop :=
  (∃ p, A p ∧ sv_creator s = pr_UserID p) ∧ (sv_active s = true → ∃ p n, A p ∧ sv_approved s = Some (n, pr_UserID p)).
Lemma added_later A s s' : added A s → later A s s' → added A s'.
Proof.
  intros [(p & Hp & Hc) Ha] [T _ P Act]. split; [exists p; split; [done|by rewrite (st_creator _ _ T)]|]. intros H'.
  destruct (sv_active s) eqn:E; [|by apply Act]. destruct P as [->|?]; [by apply Ha|done].
Qed.
Record scripts_follow (A : Principal → Prop) (t t' : inventory) : Prop := {
  sf_sound : scripts_sound t → scripts_sound t';
  sf_old id s : iv_scripts t !! id = Some s → ∃ s', iv_scripts t' !! id = Some s' ∧ later A s s';
  sf_new id s' : iv_scripts t !! id = None → iv_scripts t' !! id = Some s' → added A s'
}.
#[export] Instance scripts_follow_preorder A : PreOrder (scripts_follow A).
Proof.
  split; [split; [done|intros id s Hs; by exists s|congruence]|]. intros t1 t2 t3 [S1 F1 N1] [S2 F2 N2]. split; [auto| |].
  - intros id s Hs. destruct (F1 id s Hs) as (s' & Hs' & L1). destruct (F2 id s' Hs') as (s'' & Hs'' & L2). exists s''. split; [done|]. by etrans.
  - intros id s3 H1 H3. destruct (iv_scripts t2 !! id) as [s2|] eqn:H2; [|by eapply N2].
    destruct (F2 id s2 H2) as (s & Hs & L2). simplify_eq. eapply added_later; [by eapply N1|done].
Qed.
Lemma later_mono (A B : Principal → Prop) s s' : (∀ p, A p → B p) → later A s s' → later B s s'.
Proof. intros Hab [T R P Act]. split; [done|done| |]; [destruct P as [?|(p & n & ? & ?)]; [by left|right; eauto]|]. intros H1 H2. destruct (Act H1 H2) as (p & n & ? & ?). eauto. Qed.
Lemma scripts_follow_mono (A B : Principal → Prop) t t' : (∀ p, A p → B p) → scripts_follow A t t' → scripts_follow B t t'.
Proof.
  intros Hab [S F N]. split; [done| |].
  - intros id s Hs. destruct (F id s Hs) as (s' & Hs' & L). exists s'. split; [done|]. by eapply later_mono.
  - intros id s' Hn Hs'. destruct (N id s' Hn Hs') as [(p & Hp & Hc) Ha]. split; [eauto|]. intros H1. destruct (Ha H1) as (pa & n & ? & ?). eauto.
Qed.
Lemma not_taken {R} (same : R → R → bool) id (r : R) m id' r' : taken same id r m = false → m !! id' = Some r' → id' ≠ id → same r r' = false.
Proof.
  intros Ht Hm Hne. unfold taken in Ht. apply not_true_iff_false. intros Hs. apply not_true_iff_false in Ht. apply Ht, existsb_exists.
  exists (id', r'). split; [by apply list_elem_of_In, elem_of_map_to_list|]. simpl. by rewrite bool_decide_eq_false_2.
Qed.
Lemma sound_insert t id s : scripts_sound t → script_sound s → taken same_script id s (iv_scripts t) = false → scripts_sound (on_scripts (<[id := s]>) t).
Proof.
  intros [Hs Hu] Hnew Ht. split; simpl.
  - intros i x [[-> <-]|[_ Hx]]%lookup_insert_Some; [done|by eapply Hs].
  - assert (∀ i x, iv_scripts t !! i = Some x → i ≠ id → sv_name s = sv_name x → sv_version s ≠ sv_version x) as Hdiff.
    { intros i x Hx Hne Hname Hver. pose proof (not_taken _ _ _ _ _ _ Ht Hx Hne) as Hn. unfold same_script in Hn. by rewrite !bool_decide_eq_true_2 in Hn. }
    intros i j x y [[-> <-]|[Hi Hx]]%lookup_insert_Some [[-> <-]|[Hj Hy]]%lookup_insert_Some Hname Hver; [done| | |by eapply Hu].
    + by destruct (Hdiff j y Hy ltac:(done) Hname).
    + by destruct (Hdiff i x Hx ltac:(done) (eq_sym Hname)).
Qed.

(** ** The rows behind the statements *)
Lemma insert_script_ok id s t u t' :
  insert_script id s t = Ok (u, t') → iv_scripts t !! id = None ∧ taken same_script id s (iv_scripts t) = false ∧ t' = on_scripts (<[id := s]>) t.
Proof. unfold insert_script. intros E. by apply bind_ok in E as (m & (? & _ & ? & ->)%insert_unique_ok & [= _ <-]). Qed.
Lemma update_script_ok id f t b t' :
  update_script id f t = Ok (b, t') →
  t' = t ∨ ∃ s, iv_scripts t !! id = Some s ∧ sv_revoked s = None ∧ taken same_script id (f s) (iv_scripts t) = false ∧ t' = on_scripts (<[id := f s]>) t.
Proof.
  unfold update_script. intros E. apply bind_ok in E as ([b' m] & [[_ ->]|(s & Hs & Hc & _ & Ht & _ & ->)]%update_unique_ok & [= _ <-]); [left; by destruct t|right].
  exists s. apply bool_decide_eq_true in Hc. done.
Qed.
Lemma insert_registry_ok id r t u t' :
  insert_registry id r t = Ok (u, t') → iv_registries t !! id = None ∧ t' = on_registries (<[id := r]>) t.
Proof. unfold insert_registry. intros E. by apply bind_ok in E as (m & (? & _ & _ & ->)%insert_unique_ok & [= _ <-]). Qed.
Lemma update_registry_ok id f t b t' :
  update_registry id f t = Ok (b, t') →
  b = false ∧ t' = t ∨ ∃ r, iv_registries t !! id = Some r ∧ b = true ∧ t' = on_registries (<[id := f r]>) t.
Proof.
  unfold update_registry. intros E. apply bind_ok in E as ([b' m] & [[-> ->]|(r & Hr & _ & _ & _ & -> & ->)]%update_unique_ok & [= <- <-]); [left; by destruct t|right].
  by exists r.
Qed.
Lemma insert_credential_ok id c t u t' :
  insert_credential id c t = Ok (u, t') → iv_credentials t !! id = None ∧ t' = on_credentials (<[id := c]>) t.
Proof. unfold insert_credential. intros E. by apply bind_ok in E as (m & (? & _ & _ & ->)%insert_unique_ok & [= _ <-]). Qed.
Lemma update_credential_ok id cond f t b t' :
  update_credential id cond f t = Ok (b, t') → t' = t ∨ ∃ c, iv_credentials t !! id = Some c ∧ t' = on_credentials (<[id := f c]>) t.
Proof.
  unfold update_credential. intros E. apply bind_ok in E as ([b' m] & [[_ ->]|(c & Hc & _ & _ & _ & _ & ->)]%update_unique_ok & [= _ <-]); [left; by destruct t|right].
  by exists c.
Qed.
Lemma insert_env_ok `{Services} id app e t u t' :
  insert_env id app e t = Ok (u, t') → iv_environments t !! id = None ∧ ∃ a, t' = on_environments (<[id := e a]>) t.
Proof.
  unfold insert_env. intros E. apply bind_ok in E as (a & _ & E). apply bind_ok in E as (_ & _ & E).
  apply bind_ok in E as (m & (? & _ & _ & ->)%insert_unique_ok & [= _ <-]). eauto.
Qed.
Lemma update_env_ok id f t b t' :
  update_env id f t = Ok (b, t') → t' = t ∨ ∃ e, iv_environments t !! id = Some e ∧ t' = on_environments (<[id := f e]>) t.
Proof.
  unfold update_env. intros E. apply bind_ok in E as ([b' m] & [[_ ->]|(c & Hc & _ & _ & _ & _ & ->)]%update_unique_ok & [= _ <-]); [left; by destruct t|right].
  by exists c.
Qed.
Lemma update_profile_row_ok id cond f t b t' :
  update_profile_row id cond f t = Ok (b, t') → t' = t ∨ ∃ d, iv_profiles t !! id = Some d ∧ t' = on_profiles (<[id := f d]>) t.
Proof.
  unfold update_profile_row. intros E. apply bind_ok in E as ([b' m] & [[_ ->]|(d & Hd & _ & _ & _ & _ & ->)]%update_unique_ok & [= _ <-]); [left; by destruct t|right].
  by exists d.
Qed.
(** What a rule leaves, as an update of one table. *)
Ltac edit_rows :=
  repeat match goal with
  | E : insert_script _ _ _ = Ok _ |- _ => apply insert_script_ok in E as (? & ? & ->)
  | E : update_script _ _ _ = Ok _ |- _ => apply update_script_ok in E as [->|(? & ? & ? & ? & ->)]
  | E : insert_registry _ _ _ = Ok _ |- _ => apply insert_registry_ok in E as (? & ->)
  | E : update_registry _ _ _ = Ok _ |- _ => apply update_registry_ok in E as [(? & ->)|(? & ? & ? & ->)]
  | E : insert_credential _ _ _ = Ok _ |- _ => apply insert_credential_ok in E as (? & ->)
  | E : update_credential _ _ _ _ = Ok _ |- _ => apply update_credential_ok in E as [->|(? & ? & ->)]
  | E : insert_env _ _ _ _ = Ok _ |- _ => apply insert_env_ok in E as (? & ? & ->)
  | E : update_env _ _ _ = Ok _ |- _ => apply update_env_ok in E as [->|(? & ? & ->)]
  | E : update_profile_row _ _ _ _ = Ok _ |- _ => apply update_profile_row_ok in E as [->|(? & ? & ->)]
  end.

Section scripts.
Context `{ErrorText} `{Services} (vault : Vault).
Lemma follow_same A t t' : iv_scripts t' = iv_scripts t → scripts_follow A t t'.
Proof. intros Hsame. split; unfold scripts_sound; rewrite Hsame; [done|intros id s Hs; by exists s|congruence]. Qed.
Lemma validated_script p n i input v version : validateScript i = Ok (input, v) → script_sound (script_of p n input version).
Proof.
  unfold validateScript. cbv zeta. intros Hv. apply bind_ok in Hv as (_ & _ & Hv). apply bind_ok in Hv as (_ & Ht%fail_if_ok & Hv).
  apply bind_ok in Hv as (_ & _ & Hv). apply bind_ok in Hv as (_ & Ha%fail_if_ok & Hv). apply bind_ok in Hv as (_ & Hs%fail_if_ok & Hv).
  apply bind_ok in Hv as (? & _ & [= <- _]). apply negb_false_iff, bool_decide_eq_true in Ht. apply negb_false_iff in Ha.
  unfold script_sound, script_of. simpl. split_and!; [done|done|lia|lia|done|]. intros ->. split; [by eexists|done].
Qed.
Lemma follow_insert A t id s :
  script_sound s → added A s → iv_scripts t !! id = None → taken same_script id s (iv_scripts t) = false → scripts_follow A t (on_scripts (<[id := s]>) t).
Proof.
  intros Hs Hadd Hn Ht. split; [intros Hsound; by apply sound_insert| |].
  - intros i x Hx. exists x. split; [|done]. simpl. by rewrite lookup_insert_ne by congruence.
  - intros i x Hx. simpl. intros [[_ <-]|[_ ?]]%lookup_insert_Some; [done|congruence].
Qed.
Lemma follow_update A t id f s :
  iv_scripts t !! id = Some s → taken same_script id (f s) (iv_scripts t) = false → later A s (f s) →
  (script_sound s → script_sound (f s)) → scripts_follow A t (on_scripts (<[id := f s]>) t).
Proof.
  intros Hs Ht Hl Hsound. split; [intros Hall; apply sound_insert; [done|apply Hsound; by eapply Hall|done]| |]; intros i x Hx; simpl.
  - destruct (decide (i = id)) as [->|Hne]; [|exists x; split; [by rewrite lookup_insert_ne|done]]. rewrite lookup_insert_eq. eexists. split; [done|]. by simplify_eq.
  - intros [[<- _]|[_ ?]]%lookup_insert_Some; congruence.
Qed.
Definition may_approve (p : Principal) (p' : Principal) : Prop := p' = p ∧ Has p "admin.scripts.write" = true.
Lemma edit_keeps_scripts p q t t' : guard_admits (task_guard (er_task q)) p = true → edit vault p q t t' → scripts_follow (may_approve p) t t'.
Proof.
  intros Hg He. destruct He; edit_rows; try by apply follow_same.
  - assert (may_approve p p) as Hmay by (split; [done|]; match goal with Ho : _ ∨ _ |- _ => destruct Ho as [Hq|(? & Hq)]; by rewrite Hq in Hg end).
    apply follow_insert; [by eapply validated_script| |done..]. split; [by exists p|]. unfold script_of. simpl. intros ->. by exists p, n.
  - assert (may_approve p p) as Hmay by (split; [done|]; match goal with Ho : _ ∨ _ |- _ => destruct Ho as [(? & Hq)|(? & ? & Hq)]; by rewrite Hq in Hg end).
    apply follow_update; [done..| |].
    + split; [by split|by intros [? ?%symmetry]; congruence|right; by exists p, n|intros _ _; by exists p, n].
    + intros (S1 & S2 & S3 & S4 & _). refine (conj S1 (conj S2 (conj S3 (conj S4 _)))). intros _. by split.
  - apply follow_update; [done..| |].
    + split; [by split|by intros [? ?%symmetry]; congruence|by left|done].
    + intros (S1 & S2 & S3 & S4 & _). by refine (conj S1 (conj S2 (conj S3 (conj S4 _)))).
Qed.
End scripts.

(** C15: script versions are immutable. Whatever requests are served, a version keeps its name, type, content, checksum and
    author, a revoked one never changes again, and one becomes active only by the approval of a caller who holds
    admin.scripts.write; a new version is written by such a caller, and is active only if one approved it (its author, who
    may create it as active, or another); and every stored version has the checksum of its content, and its own number. *)
Theorem script_versions_immutable `{ErrorText} `{Services} vault (l : list (Principal * errand)) (w : idb) :
  let t := tabs w in let t' := tabs (served vault l w) in
  let by_writer (user : string) := ∃ p q, (p, q) ∈ l ∧ Has p "admin.scripts.write" = true ∧ user = pr_UserID p in
  let approved s := ∃ n user, sv_approved s = Some (n, user) ∧ by_writer user in
  (scripts_sound t → scripts_sound t') ∧
  (∀ id s, iv_scripts t !! id = Some s →
    ∃ s', iv_scripts t' !! id = Some s' ∧ same_text s s' ∧ (is_Some (sv_revoked s) → s' = s) ∧
      (sv_active s = false → sv_active s' = true → approved s')) ∧
  (∀ id s', iv_scripts t !! id = None → iv_scripts t' !! id = Some s' →
    by_writer (sv_creator s') ∧ (sv_active s' = true → approved s')).
Proof.
  set (A p := (∃ q, (p, q) ∈ l) ∧ Has p "admin.scripts.write" = true).
  assert (scripts_follow A (tabs w) (tabs (served vault l w))) as [Hsound Hold Hnew].
  { apply (served_respects vault (scripts_follow A)). intros t1 t2 (p & q & Hin & Hg & He). eapply scripts_follow_mono; [|by eapply edit_keeps_scripts].
    intros p' [-> Hp]. split; [by exists q|done]. }
  cbv zeta. split; [done|]. split.
  - intros id s Hs. destruct (Hold id s Hs) as (s' & Hs' & [Ht Hr _ Ha]). exists s'. split_and!; try done.
    intros H1 H2. destruct (Ha H1 H2) as (p & n & [[q Hin] Hp] & Hn). exists n, (pr_UserID p). split; [done|]. by exists p, q.
  - intros id s' Hn Hs'. destruct (Hnew id s' Hn Hs') as [(p & [[q Hin] Hp] & Hc) Ha]. split; [by exists p, q|].
    intros Hact. destruct (Ha Hact) as (pa & n & [[qa Hina] Hpa] & Hap). exists n, (pr_UserID pa). split; [done|]. by exists pa, qa.
Qed.
