(* ===== verification/InventorySafety.v ===== *)
(** * Profiles and secrets (theorems about Inventory.v and Profiles.v)

    Profiles stay bound to runtimes the Runner accepts, to an address of their
    registry and to approved scripts, also when a creation overlaps other requests;
    stored secrets open in the Runner and change only as asked; an evaluated
    inventory. *)
From stdpp Require Import relations.
From S2P Require Import Prelude GoIO GoString GoPath OS Encoding Sha256 Crypto Model Db Store Backend Runtime Releases Vault Accounts Rbac NetIP Limiter Network Auth Oidc Portal Inventory Profiles InventoryProofs.

(** ** Profiles stay bound *)
(** The backend accepts the runtimes the Runner accepts. *)
Lemma runtime_path_agrees kind path : validRuntimeBinaryPath kind path = true ↔ validateRuntimeBinaryPath kind path = Ok ().
Proof.
  unfold validRuntimeBinaryPath, validateRuntimeBinaryPath. assert (wanted_name kind = default "" (runtimeBinaryNames kind)) as ->.
  { unfold wanted_name, runtimeBinaryNames. by repeat case_bool_decide. }
  assert (∀ name, runtimeBinaryNames kind = Some name → empty_str name = false) as Hne.
  { intros name. unfold runtimeBinaryNames. by repeat case_bool_decide; intros [= <-]. }
  destruct (runtimeBinaryNames kind) as [name|]; [|done]. cbn [default of_option mbind result_bind from_option id]. rewrite (Hne name eq_refl).
  change runtimeBinaryDirectories with ["/usr/bin"; "/usr/local/bin"; "/usr/sbin"; "/usr/local/sbin"].
  destruct (is_abs path), (bool_decide (clean path = path)), (bool_decide (base path = name)); simpl; try done.
  by destruct (bool_decide (dir path ∈ _)).
Qed.

Section bindings.
Context `{ErrorText} `{Services} (vault : Vault).
(** [link_bound]: the script of a link has the type of its phase and was approved. *)
Record profile_bound (t : inventory) (d : deployment_profile) : Prop := {
  pb_runtime : validateRuntimeBinaryPath (pn_kind (dp_runtime d)) (pn_path (dp_runtime d)) = Ok ();
  pb_manual : pn_auto (dp_runtime d) = false;
  pb_place : in_application (ph_environment (dp_head d)) (ph_application (dp_head d)) t = true;
  pb_target c : dp_target d = Some c → is_Some (iv_credentials t !! c)
}.
Definition link_bound (t : inventory) (script phase : string) : Prop :=
  ∃ s type, iv_scripts t !! script = Some s ∧ phase_type phase = Some type ∧ sv_type s = type ∧ is_Some (sv_approved s).
Record bound (t : inventory) : Prop := {
  bd_profile id d : iv_profiles t !! id = Some d → profile_bound t d;
  bd_link id script phase n : iv_links t !! (id, script, phase) = Some n → link_bound t script phase;
  bd_phase id : one_per_phase id (iv_links t)
}.
(** Every profile has the address its registry has now. *)
Definition addressed (t : inventory) : Prop := ∀ id d, iv_profiles t !! id = Some d → registry_of t (dp_registry d).

(** *** What the bindings depend on *)
Record persists (t t' : inventory) : Prop := {
  su_scripts id s : iv_scripts t !! id = Some s → ∃ s', iv_scripts t' !! id = Some s' ∧ sv_type s' = sv_type s ∧ (is_Some (sv_approved s) → is_Some (sv_approved s'));
  su_credentials id : is_Some (iv_credentials t !! id) → is_Some (iv_credentials t' !! id)
}.
#[export] Instance persists_preorder : PreOrder persists.
Proof.
  split; [split; [intros id s Hs; by exists s|done]|]. intros t1 t2 t3 [S1 C1] [S2 C2]. split; [|auto]. intros id s Hs.
  destruct (S1 id s Hs) as (s' & Hs' & T1 & A1). destruct (S2 id s' Hs') as (s'' & Hs'' & T2 & A2). exists s''. split_and!; [done|congruence|auto].
Qed.
Definition place_kept (t t' : inventory) (d : deployment_profile) : Prop :=
  in_application (ph_environment (dp_head d)) (ph_application (dp_head d)) t = true → in_application (ph_environment (dp_head d)) (ph_application (dp_head d)) t' = true.
Lemma persisting_profile t t' d : persists t t' → place_kept t t' d → profile_bound t d → profile_bound t' d.
Proof. intros Hs Hk [Hr Hm Hp Ht]. split; [done..|by apply Hk|]. intros c Hc. by apply Hs, Ht. Qed.
Lemma persisting_link t t' script phase : persists t t' → link_bound t script phase → link_bound t' script phase.
Proof.
  intros Hs (s & type & Hl & Hp & Htype & Ha). destruct (su_scripts _ _ Hs _ _ Hl) as (s' & Hs' & Ht & Ha'). exists s', type. rewrite Ht. auto.
Qed.
(** The profiles and links that remain stay bound. *)
Lemma bound_persists t t' :
  persists t t' → (∀ id d, iv_profiles t' !! id = Some d → iv_profiles t !! id = Some d ∧ place_kept t t' d ∨ profile_bound t' d) →
  iv_links t' ⊆ iv_links t → bound t → bound t'.
Proof.
  intros Hs Hp Hl [Bp Bl Bo]. split.
  - intros id d Hd. destruct (Hp id d Hd) as [[Hd' Hk]|?]; [|done]. eapply persisting_profile; [done..|by eapply Bp].
  - intros id script phase n Hn. eapply persisting_link; [done|]. eapply Bl, lookup_weaken; done.
  - intros id s s' phase [n Hn] [n' Hn']. eapply (Bo id); eexists; by eapply lookup_weaken.
Qed.
Lemma persists_rows t t' :
  (iv_scripts t' = iv_scripts t ∨ ∃ id s, iv_scripts t' = <[id := s]> (iv_scripts t) ∧
     ∀ o, iv_scripts t !! id = Some o → sv_type s = sv_type o ∧ (is_Some (sv_approved o) → is_Some (sv_approved s))) →
  (iv_credentials t' = iv_credentials t ∨ ∃ id c, iv_credentials t' = <[id := c]> (iv_credentials t)) → persists t t'.
Proof.
  intros Hs Hc. split.
  - intros i o Ho. destruct Hs as [->|(id & s & -> & Hs)]; [by exists o|]. destruct (decide (i = id)) as [->|Hne].
    + rewrite lookup_insert_eq. exists s. split; [done|by apply Hs].
    + rewrite lookup_insert_ne by done. by exists o.
  - intros i Hi. destruct Hc as [->|(id & c & ->)]; [done|]. apply lookup_insert_is_Some'. by right.
Qed.
Lemma edit_persists p q t t' : edit vault p q t t' → persists t t'.
Proof.
  intros He. destruct He; edit_rows; try done;
    apply persists_rows; simpl; first [by left|right; do 2 eexists; split; [done|]; naive_solver|right; do 2 eexists; done].
Qed.

(** *** Every edit keeps what is bound *)
(** The rules that leave profiles, links and environments alone. *)
Lemma bound_elsewhere t t' :
  persists t t' → iv_profiles t' = iv_profiles t → iv_links t' = iv_links t → iv_environments t' = iv_environments t → bound t → bound t'.
Proof.
  intros Hs Hp Hl He. apply bound_persists; [done| |by rewrite Hl]. intros id d Hd. rewrite Hp in Hd. left. split; [done|].
  unfold place_kept, in_application. by rewrite He.
Qed.
Lemma persists_same t t' : iv_scripts t' = iv_scripts t → iv_credentials t' = iv_credentials t → persists t t'.
Proof. intros. apply persists_rows; by left. Qed.
Lemma readdress_bound t id input f : bound t → bound (on_profiles (readdress id input) (on_registries f t)).
Proof.
  intros [Bp Bl Bo]. split; [|exact Bl|exact Bo]. simpl. unfold readdress. intros i d'. rewrite lookup_fmap. intros (d & Hd & ->)%fmap_Some.
  destruct (Bp i d Hd) as [Hr Hm Hp Ht]. by case_match.
Qed.
Lemma environment_bound t id e :
  (∀ o, iv_environments t !! id = Some o → ew_application e = ew_application o) → bound t → bound (on_environments <[id := e]> t).
Proof.
  intros He. apply bound_persists; [by apply persists_same| |done]. intros i d Hd. left. split; [done|]. unfold place_kept, in_application. simpl.
  destruct (decide (ph_environment (dp_head d) = id)) as [->|Hne]; [|by rewrite lookup_insert_ne].
  rewrite lookup_insert_eq. destruct (iv_environments t !! id) as [o|]; [|done]. by rewrite (He o eq_refl).
Qed.
Lemma drop_bound t gone f :
  (∀ id d, iv_profiles t !! id = Some d → gone d = false → place_kept t (f t) d) →
  persists t (f t) → iv_profiles (f t) = iv_profiles t → iv_links (f t) = iv_links t → bound t → bound (drop_profiles gone (f t)).
Proof.
  intros Hk Hs Hp Hl. apply bound_persists.
  - destruct Hs as [S1 S2]. by split.
  - unfold drop_profiles. simpl. rewrite Hp. intros id d [Hd Hg]%map_lookup_filter_Some. left. split; [done|by eapply Hk].
  - unfold drop_profiles, drop_links. simpl. rewrite Hl. apply map_filter_subseteq.
Qed.
(** What a transaction has read of other tables are databases that persist. *)
Definition reads (seen : snapshots) (s : inventory) : Prop :=
  sn_registry seen = Some s ∨ sn_target seen = Some s ∨ ∃ phase, sn_script seen phase = Some s.
Lemma seen_persists seen phase t : (∀ s, reads seen s → persists s t) → persists (seen_by (sn_script seen phase) t) t.
Proof. intros Hs. destruct (sn_script seen phase) as [s|] eqn:E; simpl; [|done]. apply Hs. right. right. by exists phase. Qed.
Lemma save_bound seen t p id d L :
  (∀ s, reads seen s → persists s t) → profile_saved p seen t id d L → bound t → bound (on_links (λ _, L) (on_profiles (<[id := d]>) t)).
Proof.
  intros Hseen [Hr Hm Hp _ Ht HL Hone] [Bp Bl Bo]. split; simpl.
  - intros i x [[-> <-]|[_ Hx]]%lookup_insert_Some; [|by destruct (Bp i x Hx); split]. split; try done; [by apply runtime_path_agrees|].
    intros c Hc. destruct Ht as [Ht|[_ Ht]]; [|by destruct (Ht c Hc)].
    rewrite Ht in Hc. apply bind_Some in Hc as (o & Eo & Hc). exact (pb_target _ _ (Bp _ o Eo) c Hc).
  - intros i script phase n Hn. destruct (HL i script phase n Hn) as [[_ Ho]|(-> & s & type & Hs & Hph & Ha)]; [by eapply Bl|].
    change (link_bound t script phase). apply (persisting_link (seen_by (sn_script seen phase) t)); [by apply (seen_persists seen phase t)|]. exists s, type. unfold approved_script in Ha. bools. done.
  - intros i s s' phase H1 H2. destruct (decide (i = id)) as [->|Hne]; [by apply (Hone s s' phase)|].
    apply (Bo i s s' phase); [destruct H1 as [n1 E1]; exists n1|destruct H2 as [n2 E2]; exists n2].
    + by destruct (HL _ _ _ _ E1) as [[_ ?]|(? & _)].
    + by destruct (HL _ _ _ _ E2) as [[_ ?]|(? & _)].
Qed.
Lemma retire_bound t id d n : iv_profiles t !! id = Some d → bound t → bound (on_profiles <[id := retire n d]> t).
Proof.
  intros Hd Hb. assert (profile_bound t d) as [Hr Hm Hp Ht] by by eapply bd_profile. revert Hb.
  apply bound_persists; [by apply persists_same| |done]. simpl. intros i x [[-> <-]|[_ Hx]]%lookup_insert_Some; [right; by split|left; by split; [|intros ?]].
Qed.
Lemma edit_bound p q t t' : (∀ s, reads (er_seen q) s → persists s t) → edit vault p q t t' → bound t → bound t'.
Proof.
  intros Hseen He. pose proof (edit_persists p q t t' He) as Hper. destruct He; edit_rows; try done; try (apply bound_elsewhere; done).
  - by apply readdress_bound.
  - apply environment_bound. congruence.
  - apply environment_bound. intros o Ho. simplify_eq. congruence.
  - apply (drop_bound t _ (on_environments (delete id))); try done; [|by apply persists_same].
    intros i d Hd Hg. unfold place_kept, in_application. simpl. apply bool_decide_eq_false in Hg. by rewrite lookup_delete_ne.
  - unfold drop_application. apply (drop_bound t _ (λ t, on_environments (filter (λ ke : string * env_row, ew_application ke.2 ≠ id)) (on_applications (delete id) t)));
      try done; [|by apply persists_same].
    intros i d Hd Hg. apply orb_false_iff in Hg as [Hg%bool_decide_eq_false _]. unfold place_kept, in_application. simpl.
    destruct (iv_environments t !! _) as [e|] eqn:Ee; [|done]. intros He%bool_decide_eq_true.
    erewrite map_lookup_filter_Some_2; [by apply bool_decide_eq_true|done|]. simpl. congruence.
  - eapply save_bound; [|done]. match goal with Ho : _ ∨ _ |- _ => destruct Ho as [->|[_ ->]]; [by intros s [?|[?|[??]]]|done] end.
  - by apply retire_bound.
Qed.

(** *** Addresses *)
Definition same_address (r r' : registry_credential) : Prop :=
  rg_endpoint r' = rg_endpoint r ∧ rg_project r' = rg_project r ∧ rg_insecure r' = rg_insecure r.
Definition keeps_addresses (t t' : inventory) : Prop := ∀ g, registry_of t g → registry_of t' g.
#[export] Instance keeps_addresses_preorder : PreOrder keeps_addresses.
Proof. split; [by intros t g|]. intros t1 t2 t3 H1 H2 g Hg. auto. Qed.
Lemma keeps_rows t t' :
  (iv_registries t' = iv_registries t ∨ ∃ id r, iv_registries t' = <[id := r]> (iv_registries t) ∧ ∀ o, iv_registries t !! id = Some o → same_address o r) →
  keeps_addresses t t'.
Proof.
  intros Hr g. unfold registry_of. destruct (pg_credential g) as [c|]; [|done]. intros (o & Ho & ->).
  destruct Hr as [->|(id & r & -> & Hr)]; [by exists o|]. destruct (decide (c = id)) as [->|Hne].
  - rewrite lookup_insert_eq. exists r. split; [done|]. by destruct (Hr o Ho) as (-> & -> & ->).
  - rewrite lookup_insert_ne by done. by exists o.
Qed.
Definition moves_registry (q : task) : bool := match q with UpdateRegistry _ _ => true | _ => false end.
Lemma edit_keeps_addresses p q t t' : moves_registry (er_task q) = false → edit vault p q t t' → keeps_addresses t t'.
Proof.
  intros Hm He. destruct He; edit_rows; try done;
    try (apply keeps_rows; simpl; first [by left|right; do 2 eexists; split; [done|]; unfold same_address; naive_solver]).
  match goal with Hq : er_task q = _ |- _ => by rewrite Hq in Hm end.
Qed.
(** Where the address of a profile comes from: it is the one it had, which then
    is still its registry's if it was; or its registry's; or, when the profile
    was created, the one its registry had when it was read. *)
Definition readdressed (q : errand) (t t' : inventory) : Prop :=
  ∀ id d', iv_profiles t' !! id = Some d' →
    (∃ d, iv_profiles t !! id = Some d ∧ dp_registry d' = dp_registry d ∧ (registry_of t (dp_registry d) → registry_of t' (dp_registry d))) ∨
    registry_of t' (dp_registry d') ∨
    moves_registry (er_task q) = false ∧ ∃ s, sn_registry (er_seen q) = Some s ∧ registry_of s (dp_registry d').
#[export] Instance readdressed_preorder q : PreOrder (readdressed q).
Proof.
  split; [intros t id d Hd; left; by exists d|]. intros t1 t2 t3 H12 H23 id d3 H3.
  destruct (H23 id d3 H3) as [(d2 & H2 & E2 & K2)|?]; [|by right]. destruct (H12 id d2 H2) as [(d1 & H1 & E1 & K1)|[Hn|(Hc & s & Hs & Hg)]].
  - left. exists d1. split; [done|]. split; [congruence|]. rewrite E1 in K2. auto.
  - right. left. rewrite E2. auto.
  - right. right. split; [done|]. exists s. by rewrite E2.
Qed.
Lemma readdressed_kept q t t' :
  keeps_addresses t t' → (∀ id d', iv_profiles t' !! id = Some d' → ∃ d, iv_profiles t !! id = Some d ∧ dp_registry d' = dp_registry d) → readdressed q t t'.
Proof. intros Hk Hp id d' Hd'. left. destruct (Hp id d' Hd') as (d & Hd & He). exists d. auto. Qed.
Lemma readdressed_rotated q t id input n p c x version :
  readdressed q t (on_profiles (readdress id input) (on_registries <[id := registry_row p n input version c x]> t)).
Proof.
  intros i d'. simpl. unfold readdress. rewrite lookup_fmap. intros (d & Hd & ->)%fmap_Some. unfold bound_to. case_bool_decide as Hb.
  - right. left. unfold registry_of. simpl. eexists. split; [apply lookup_insert_eq|done].
  - left. exists d. split; [done|]. split; [done|]. unfold registry_of. destruct (pg_credential (dp_registry d)) as [k|]; [|done]. intros (r & Hk & ->).
    exists r. split; [|done]. simpl. rewrite lookup_insert_ne by congruence. done.
Qed.
Lemma edit_readdressed p q t t' : edit vault p q t t' → readdressed q t t'.
Proof.
  intros He. destruct He; edit_rows; try done;
    try (apply readdressed_kept; [apply keeps_rows; simpl; first [by left|right; do 2 eexists; split; [done|]; unfold same_address; naive_solver]|simpl; by eauto]).
  - by apply readdressed_rotated.
  - apply readdressed_kept; [by apply keeps_rows; left|]. intros i d [Hd _]%map_lookup_filter_Some. by exists d.
  - apply readdressed_kept; [by apply keeps_rows; left|]. intros i d [Hd _]%map_lookup_filter_Some. by exists d.
  - intros i x. simpl. intros [[-> <-]|[_ Hx]]%lookup_insert_Some; [right|left; by exists x].
    match goal with Hs : profile_saved _ _ _ _ _ _ |- _ => pose proof (ps_registry _ _ _ _ _ _ Hs) as Hg end.
    match goal with Ho : _ ∨ _ |- _ => destruct Ho as [->|[[? Hc] ->]]; [by left|] end.
    destruct (sn_registry (er_seen q)) as [s|]; simpl in Hg; [right; split; [by rewrite Hc|by exists s]|by left].
  - apply readdressed_kept; [by apply keeps_rows; left|]. intros i y. simpl. intros [[-> <-]|[_ Hy]]%lookup_insert_Some; [by eexists|by exists y].
Qed.

(** *** Any requests *)
(** The databases the requests pass through; what each request has read are
    databases of the past, or rather those since the last update of a registry. *)
Fixpoint history (l : list (Principal * errand)) (w : idb) : list inventory :=
  tabs w :: match l with [] => [] | (p, q) :: l => history l (admitted vault p q w).2 end.
Fixpoint timely (past : list inventory) (l : list (Principal * errand)) (w : idb) : Prop :=
  match l with
  | [] => True
  | (p, q) :: l => let w' := (admitted vault p q w).2 in (∀ s, reads (er_seen q) s → s ∈ past) ∧ timely (tabs w' :: past) l w'
  end.
Fixpoint prompt (since : list inventory) (l : list (Principal * errand)) (w : idb) : Prop :=
  match l with
  | [] => True
  | (p, q) :: l =>
      let w' := (admitted vault p q w).2 in
      (∀ s, sn_registry (er_seen q) = Some s → s ∈ since) ∧ prompt (tabs w' :: if moves_registry (er_task q) then [] else since) l w'
  end.
Definition kept_bound (q : errand) (t t' : inventory) : Prop :=
  persists t t' ∧ ((∀ s, reads (er_seen q) s → persists s t) → bound t → bound t').
#[export] Instance kept_bound_preorder q : PreOrder (kept_bound q).
Proof.
  split; [by split|]. intros t1 t2 t3 [P1 B1] [P2 B2]. split; [by etrans|]. intros Hseen Hb. apply B2; [|by apply B1].
  intros s Hs. etrans; [by apply Hseen|done].
Qed.
Lemma served_bound past l w : (∀ s, s ∈ past → persists s (tabs w)) → timely past l w → bound (tabs w) → bound (tabs (served vault l w)).
Proof.
  revert past w. induction l as [|[p q] l IH]; intros past w Hpast; [done|]. cbn [timely served]. cbv zeta. intros [Hq Hl] Hb.
  destruct (admitted_respects vault (kept_bound q) p q w) as [Hper Hkept].
  { intros t t' He. split; [by eapply edit_persists|]. intros Hseen. by eapply edit_bound. }
  eapply IH; [|exact Hl|apply Hkept; [|done]; intros s Hs; by apply Hpast, Hq]. intros s [->|Hs]%elem_of_cons; [done|]. etrans; [by apply Hpast|done].
Qed.
Lemma served_addresses (P : inventory → Prop) past l w :
  (∀ s, s ∈ past → P s) → (∀ s, s ∈ history l w → P s) → timely past l w →
  (∀ id d, iv_profiles (tabs w) !! id = Some d → ∃ t, P t ∧ registry_of t (dp_registry d)) →
  ∀ id d, iv_profiles (tabs (served vault l w)) !! id = Some d → ∃ t, P t ∧ registry_of t (dp_registry d).
Proof.
  revert past w. induction l as [|[p q] l IH]; intros past w Hpast Hhist; [done|]. cbn [timely served history] in *. cbv zeta. intros [Hq Hl] Hw.
  assert (P (tabs (admitted vault p q w).2)) as Hnow by (apply Hhist; right; destruct l as [|[??] l]; left).
  apply (IH (tabs (admitted vault p q w).2 :: past)); [intros s [->|Hs]%elem_of_cons; auto|intros s Hs; apply Hhist; by right|done|].
  intros id d Hd. destruct (admitted_respects vault (readdressed q) p q w (edit_readdressed p q) id d Hd) as [(o & Ho & -> & _)|[Hg|(_ & s & Hs & Hg)]]; [by eapply Hw|by eexists|].
  exists s. split; [|done]. apply Hpast, Hq. by left.
Qed.
Lemma served_addressed since l w :
  (∀ s, s ∈ since → keeps_addresses s (tabs w)) → prompt since l w → addressed (tabs w) → addressed (tabs (served vault l w)).
Proof.
  revert since w. induction l as [|[p q] l IH]; intros since w Hsince; [done|]. cbn [prompt served]. cbv zeta. intros [Hq Hl] Hw.
  assert (moves_registry (er_task q) = false → keeps_addresses (tabs w) (tabs (admitted vault p q w).2)) as Hkeep.
  { intros Hm. apply (admitted_respects vault keeps_addresses). intros t t'. by apply edit_keeps_addresses. }
  eapply IH; [|exact Hl|].
  - intros s [->|Hs]%elem_of_cons; [done|]. destruct (moves_registry (er_task q)); [by apply elem_of_nil in Hs|]. etrans; [by apply Hsince|by apply Hkeep].
  - intros id d Hd. destruct (admitted_respects vault (readdressed q) p q w (edit_readdressed p q) id d Hd) as [(o & Ho & -> & Hg)|[Hg|(Hc & s & Hs & Hg)]].
    + apply Hg. by eapply Hw.
    + done.
    + apply (Hkeep Hc), (Hsince s (Hq s Hs)), Hg.
Qed.
End bindings.

(** C13: what a profile deploys with was set up for it. Whatever requests are served - each transaction of a creation, which
    is not serializable, reading registries, credentials and scripts of any earlier databases - every profile names a runtime
    that the Runner's own check accepts, and never rolls back by itself; its environment is one of its application; its target
    credential exists; and its scripts are ones of the type of their phase that were approved, at most one per phase. The
    address that its registry's password is sent to is never one the profile's author wrote: it is one its registry had in a
    database the requests passed through, and the one its registry has now when no creation has read its registry before an
    update of a registry that was committed first (when one has, the old address can remain). *)
Theorem profiles_stay_bound `{ErrorText} `{Services} vault (l : list (Principal * errand)) (w : idb) :
  bound (tabs w) → addressed (tabs w) → timely vault [tabs w] l w →
  let t' := tabs (served vault l w) in
  bound t' ∧
  (∀ id d, iv_profiles t' !! id = Some d → ∃ t, t ∈ history vault l w ∧ registry_of t (dp_registry d)) ∧
  (prompt vault [tabs w] l w → addressed t').
Proof.
  intros Hb Ha Ht. assert (tabs w ∈ history vault l w) as Hnow by (destruct l as [|[??] l]; left). cbv zeta. split_and!.
  - eapply served_bound; [|done..]. by intros s ->%list_elem_of_singleton.
  - apply (served_addresses vault (λ t, t ∈ history vault l w) [tabs w]); [by intros s ->%list_elem_of_singleton|done..|].
    intros id d Hd. exists (tabs w). split; [done|by eapply Ha].
  - intros Hp. eapply served_addressed; [|done..]. by intros s ->%list_elem_of_singleton.
Qed.

(** ** Target credentials *)
Definition target_of (id : string) (t : inventory) : option string := iv_profiles t !! id ≫= dp_target.
Lemma edit_targets `{ErrorText} `{Services} vault p q t t' id c :
  edit vault p q t t' → target_of id t' = Some c → target_of id t = Some c ∨ canManageTargetCredential p = true.
Proof.
  unfold target_of. intros He. destruct He; edit_rows; simpl; auto; try done.
  - unfold readdress. rewrite lookup_fmap. intros (d' & (d & Hd & ->)%fmap_Some & Ht)%bind_Some. left. rewrite Hd. simpl. by destruct (bound_to _ d).
  - intros (d & [Hd _]%map_lookup_filter_Some & Ht)%bind_Some. left. by rewrite Hd.
  - intros (d & [Hd _]%map_lookup_filter_Some & Ht)%bind_Some. left. by rewrite Hd.
  - intros (x & [[-> <-]|[_ Hx]]%lookup_insert_Some & Ht)%bind_Some; [|left; by rewrite Hx].
    match goal with Hs : profile_saved _ _ _ _ _ _ |- _ => destruct (ps_target _ _ _ _ _ _ Hs) as [Hold|[Hcan _]] end; [left; congruence|by right].
  - intros (y & [[-> <-]|[_ Hy]]%lookup_insert_Some & Ht)%bind_Some; left; [|by rewrite Hy]. by match goal with Hx : iv_profiles t !! _ = Some _ |- _ => rewrite Hx end.
Qed.
(** C16: whoever may only edit profiles cannot reach a target. Whatever requests are served, a profile holds the target
    credential it held before, or one of the callers was a browser session, not an API key, with admin.credentials.write. *)
Theorem target_bindings_need_a_session `{ErrorText} `{Services} vault (l : list (Principal * errand)) (w : idb) id c :
  target_of id (tabs (served vault l w)) = Some c →
  target_of id (tabs w) = Some c ∨ ∃ p q, (p, q) ∈ l ∧ pr_ViaAPIKey p = false ∧ Has p "admin.credentials.write" = true.
Proof.
  set (R t t' := ∀ c, target_of id t' = Some c → target_of id t = Some c ∨ ∃ p q, (p, q) ∈ l ∧ pr_ViaAPIKey p = false ∧ Has p "admin.credentials.write" = true).
  assert (PreOrder R) as HR.
  { split; [by left|]. intros t1 t2 t3 H12 H23 k Hk. destruct (H23 k Hk) as [H2|?]; [by apply H12|by right]. }
  revert c. apply (served_respects vault R). intros t t' (p & q & Hin & _ & He) c Hc.
  destruct (edit_targets vault p q t t' id c He Hc) as [?|Hcan]; [by left|right]. exists p, q. split; [done|].
  unfold canManageTargetCredential in Hcan. apply andb_true_iff in Hcan as [Hapi Hhas]. by apply negb_true_iff in Hapi.
Qed.

(** ** Secrets *)
(** A text as [encoding/json] decodes it: valid UTF-8. *)
Definition json_text (s : string) : Prop := of_chars (concat (encode_rune <$> (runes s).*1)) = s.
(** [json.Marshal] and [json.Unmarshal] of the registry's user and password. *)
Class LawfulServices `{Services} : Prop := {
  marshal_object user password : sr_marshal user password ≠ "";
  password_of user password : json_text password → sr_password (sr_marshal user password) = Some (Some password)
}.
Section secrets.
Context `{ErrorText} `{HS : Services} `{!LawfulServices} (a : AEAD) `{!AEADSpec a}.
Notation vault := {| vault_aead := a |}.
Notation runner := {| aead := a |}.

(** What the Runner reads of a stored secret. *)
Definition target_secret (t : inventory) (id : string) : option string :=
  c ← iv_credentials t !! id;
  match Decrypt runner (tk_ciphertext c) (targetCredentialAAD id (tk_version c)) with Ok b => Some (of_chars b) | Err _ => None end.
Definition registry_password (t : inventory) (id : string) : option string :=
  r ← iv_registries t !! id;
  match Decrypt runner (rg_ciphertext r) (registryAAD id (rg_version r)) with Ok b => e ← sr_password (of_chars b); e | Err _ => None end.
Definition credential_sealed (id : string) (c : target_credential) : Prop :=
  ∃ s, s ≠ "" ∧ oversized_secret s = false ∧ Decrypt runner (tk_ciphertext c) (targetCredentialAAD id (tk_version c)) = Ok (to_bytes s).
Definition registry_sealed (id : string) (r : registry_credential) : Prop :=
  ∃ password, password ≠ "" ∧ json_text password ∧
    Decrypt runner (rg_ciphertext r) (registryAAD id (rg_version r)) = Ok (to_bytes (sr_marshal (rg_username r) password)).
Definition sealed (t : inventory) : Prop :=
  map_Forall credential_sealed (iv_credentials t) ∧ map_Forall registry_sealed (iv_registries t).

(** The request names the row it seals a secret for by the text of its id, draws
    as many random bytes as a nonce has, and was decoded from JSON. *)
Definition canonical (q : errand) : Prop :=
  match er_task q with
  | CreateRegistry _ | CreateCredential _ => pg_uuid (drawn (er_newid q)) = Some (drawn (er_newid q))
  | UpdateRegistry id _ | RotateCredential id _ => pg_uuid id = Some id
  | _ => True
  end.
Definition well_formed (q : errand) : Prop :=
  canonical q ∧ (∀ nonce, er_random q = Ok nonce → length nonce = NonceSize a) ∧
  match er_task q with CreateRegistry i | UpdateRegistry _ i => json_text (gi_Password i) | _ => True end.
Definition asks_secret (q : errand) (id secret : string) : Prop :=
  match er_task q with
  | CreateCredential i => id = drawn (er_newid q) ∧ secret = ti_Secret i
  | RotateCredential raw new => id = raw ∧ secret = new
  | _ => False
  end.
Definition asks_password (q : errand) (id password : string) : Prop :=
  match er_task q with
  | CreateRegistry i => id = drawn (er_newid q) ∧ password = gi_Password i
  | UpdateRegistry raw i => id = raw ∧ password = gi_Password i ∧ password ≠ ""
  | _ => False
  end.

Lemma seal_opens random plaintext context e :
  VaultEncrypt vault random plaintext context = Ok e → (∀ nonce, random = Ok nonce → length nonce = NonceSize a) → plaintext ≠ "" →
  Decrypt runner e context = Ok (to_bytes plaintext).
Proof.
  intros He Hn Hp. destruct random as [nonce|e']; [|unfold VaultEncrypt in He; by rewrite empty_str_false in He]. rewrite vault_envelope in He by done.
  injection He as <-. by eapply decrypt_sealed; [|apply Hn|apply raw_base64_roundtrip].
Qed.
Definition kept_or {A} (asked : A → Prop) (old new : option A) : Prop := new = old ∨ ∃ s, asked s ∧ new = Some s.
Definition secrets_follow (q : errand) (t t' : inventory) : Prop :=
  sealed t → sealed t' ∧ (∀ id, kept_or (asks_secret q id) (target_secret t id) (target_secret t' id)) ∧
    (∀ id, kept_or (asks_password q id) (registry_password t id) (registry_password t' id)).
#[export] Instance secrets_follow_preorder q : PreOrder (secrets_follow q).
Proof.
  split; [intros t Ht; split_and!; [done|by left..]|]. intros t1 t2 t3 F1 F2 S1. destruct (F1 S1) as (S2 & T1 & P1). destruct (F2 S2) as (S3 & T2 & P2).
  unfold kept_or in *. split_and!; [done|intros id..].
  - destruct (T2 id) as [->|?]; [apply T1|by right].
  - destruct (P2 id) as [->|?]; [apply P1|by right].
Qed.
Lemma follow_elsewhere q t t' : iv_credentials t' = iv_credentials t → iv_registries t' = iv_registries t → secrets_follow q t t'.
Proof. intros Hc Hr Hs. unfold sealed, target_secret, registry_password. rewrite Hc, Hr. split_and!; [apply Hs..| |]; by left. Qed.
(** One credential, or one registry, has changed. *)
Lemma follow_credential q t id c s :
  Decrypt runner (tk_ciphertext c) (targetCredentialAAD id (tk_version c)) = Ok (to_bytes s) → s ≠ "" → oversized_secret s = false →
  asks_secret q id s ∨ target_secret t id = Some s → secrets_follow q t (on_credentials <[id := c]> t).
Proof.
  intros Hd Hne Hov Hask [Hc Hr]. split_and!; [split; [|done]| |by left].
  - apply map_Forall_insert_2; [by exists s|done].
  - intros i. unfold target_secret at 2. simpl. destruct (decide (i = id)) as [->|Hi]; [|left; by rewrite lookup_insert_ne].
    rewrite lookup_insert_eq. simpl. rewrite Hd. unfold to_bytes. rewrite of_chars_chars.
    destruct Hask as [Hask| ->]; [right; by exists s|by left].
Qed.
Lemma follow_registry q t id r password :
  Decrypt runner (rg_ciphertext r) (registryAAD id (rg_version r)) = Ok (to_bytes (sr_marshal (rg_username r) password)) →
  password ≠ "" → json_text password → asks_password q id password ∨ registry_password t id = Some password →
  secrets_follow q t (on_registries <[id := r]> t).
Proof.
  intros Hd Hne Hj Hask [Hc Hr]. split_and!; [split; [done|]|by left|].
  - apply map_Forall_insert_2; [by exists password|done].
  - intros i. unfold registry_password at 2. simpl. destruct (decide (i = id)) as [->|Hi]; [|left; by rewrite lookup_insert_ne].
    rewrite lookup_insert_eq. simpl. rewrite Hd. unfold to_bytes. rewrite of_chars_chars, password_of by done.
    destruct Hask as [Hask| ->]; [right; by exists password|by left].
Qed.

Lemma opened_target t id c s :
  iv_credentials t !! id = Some c → Decrypt runner (tk_ciphertext c) (targetCredentialAAD id (tk_version c)) = Ok (to_bytes s) → target_secret t id = Some s.
Proof. intros Hc Hd. unfold target_secret. rewrite Hc. simpl. rewrite Hd. unfold to_bytes. by rewrite of_chars_chars. Qed.
Lemma opened_registry t id r password :
  iv_registries t !! id = Some r → Decrypt runner (rg_ciphertext r) (registryAAD id (rg_version r)) = Ok (to_bytes (sr_marshal (rg_username r) password)) →
  json_text password → registry_password t id = Some password.
Proof. intros Hr Hd Hj. unfold registry_password. rewrite Hr. simpl. rewrite Hd. unfold to_bytes. by rewrite of_chars_chars, password_of. Qed.
Lemma validated_registry i input : validateRegistry i = Ok input → gi_Password input = gi_Password i.
Proof. unfold validateRegistry. intros Hv. apply bind_ok in Hv as (? & _ & Hv). by apply bind_ok in Hv as (_ & _ & [= <-]). Qed.
Lemma validated_secret i input : validateTargetCredential i true = Ok input → ti_Secret input = ti_Secret i ∧ ti_Secret i ≠ "" ∧ oversized_secret (ti_Secret i) = false.
Proof.
  unfold validateTargetCredential. intros Hv. apply bind_ok in Hv as (_ & _ & Hv). apply bind_ok in Hv as (_ & _ & Hv).
  apply bind_ok in Hv as (_ & He%fail_if_ok & Hv). by apply bind_ok in Hv as (_ & Ho%fail_if_ok & [= <-]); apply bool_decide_eq_false in He.
Qed.
Lemma same_credential_follows q t id x c :
  iv_credentials t !! id = Some x → tk_ciphertext c = tk_ciphertext x → tk_version c = tk_version x → secrets_follow q t (on_credentials <[id := c]> t).
Proof.
  intros Hx Hc Hv Hs. destruct (proj1 Hs id x Hx) as (s & Hne & Ho & Hd). revert Hs. eapply follow_credential; [by rewrite Hc, Hv|done..|].
  right. by eapply opened_target.
Qed.
Lemma same_registry_follows q t id x r :
  iv_registries t !! id = Some x → rg_ciphertext r = rg_ciphertext x → rg_version r = rg_version x → rg_username r = rg_username x →
  secrets_follow q t (on_registries <[id := r]> t).
Proof.
  intros Hx Hc Hv Hu Hs. destruct (proj2 Hs id x Hx) as (password & Hne & Hj & Hd). revert Hs.
  eapply follow_registry; [by rewrite Hc, Hv, Hu|done..|]. right. by eapply opened_registry.
Qed.
(** The password of a rotation that gives none is the stored one. *)
Lemma rotated_opens id old input password :
  registry_sealed id old → rotated_password vault id old input password → json_text (gi_Password input) →
  password ≠ "" ∧ json_text password ∧
  (gi_Password input = password ∨ Decrypt runner (rg_ciphertext old) (registryAAD id (rg_version old)) = Ok (to_bytes (sr_marshal (rg_username old) password))).
Proof.
  intros (stored & Hne & Hj & Hd) Hrot Hin. unfold rotated_password in Hrot. destruct (empty_str (gi_Password input)) eqn:E.
  - destruct Hrot as (plain & entry & Hopen & Hp & ->). apply same_open in Hopen; [|intros He; rewrite He in Hd; by vm_compute in Hd].
    rewrite Hd in Hopen. injection Hopen as Hplain. apply chars_inj in Hplain as <-. rewrite password_of in Hp by done. injection Hp as <-. simpl. auto.
  - apply bool_decide_eq_false in E. subst password. auto.
Qed.
Lemma rotate_follows q t raw i input old password c n p x :
  er_task q = UpdateRegistry raw i → gi_Password input = gi_Password i → json_text (gi_Password i) →
  (∀ nonce, er_random q = Ok nonce → length nonce = NonceSize a) → iv_registries t !! raw = Some old → rotated_password vault raw old input password →
  seal_registry vault (er_random q) raw (i64 (rg_version old + 1)) (gi_Username input) password = Ok c →
  secrets_follow q t (on_registries <[raw := registry_row p n input (i64 (rg_version old + 1)) c x]> t).
Proof.
  intros Hq Hp Hj Hrand Hold Hrot Hseal Hs. rewrite <- Hp in Hj.
  destruct (rotated_opens raw old input password (proj2 Hs raw old Hold) Hrot Hj) as (Hne & Hjp & Hask). revert Hs.
  eapply follow_registry; [by eapply seal_opens, marshal_object|done..|]. destruct Hask as [Hg|Hd]; [left|right; by eapply opened_registry].
  unfold asks_password. rewrite Hq. by rewrite <- Hp.
Qed.
Lemma edit_secrets p q t t' : edit vault p q t t' → well_formed q → secrets_follow q t t'.
Proof.
  intros He (Hcan & Hrand & Hjson). destruct He; edit_rows; try done; try (by apply follow_elsewhere);
    try (by eapply same_credential_follows); try (by eapply same_registry_follows);
    unfold canonical in Hcan; match goal with E : er_task q = _ |- _ => rename E into Hq; rewrite Hq in Hcan, Hjson end;
    match goal with E : pg_uuid _ = Some _ |- _ => rewrite Hcan in E; injection E as <- end.
  - assert (gi_Password input = gi_Password i) as Hp by by apply validated_registry. eapply follow_registry.
    + by eapply seal_opens, marshal_object.
    + done.
    + by rewrite Hp.
    + left. unfold asks_password. by rewrite Hq.
  - etrans; [|by apply follow_elsewhere]. eapply rotate_follows; eauto using validated_registry.
  - match goal with E : validateTargetCredential _ _ = _ |- _ => apply validated_secret in E as (Hi & Hne & Ho) end. eapply follow_credential.
    + rewrite Hi in *. by eapply seal_opens.
    + done.
    + done.
    + left. unfold asks_secret. by rewrite Hq.
  - match goal with E : _ || _ = false |- _ => apply orb_false_iff in E as [Hne%bool_decide_eq_false Ho] end. eapply follow_credential.
    + by eapply seal_opens.
    + done.
    + done.
    + left. unfold asks_secret. by rewrite Hq.
Qed.
End secrets.

(** C14: stored secrets stay readable for the Runner and change only when somebody who may asks for it. Of a request that names
    the row whose secret it seals by the very text PostgreSQL shows its id as, draws a nonce of the cipher's size, and carries
    valid UTF-8: however it ends, every stored target credential and registry password opens under the Runner's associated data
    of its row, and is the same as before - also when the row is renamed, readdressed or rotated without a new password - unless
    the request gave this one, by a browser session with admin.credentials.write or a caller with admin.registries.write. (A
    rotation whose path spells the id otherwise, in upper case say, is not covered: it makes the secret unreadable.) *)
Theorem secrets_change_only_as_asked `{ErrorText} `{HS : Services} `{!LawfulServices} (a : AEAD) `{!AEADSpec a} p q (w : idb) :
  sealed a (tabs w) → well_formed a q →
  let t' := tabs (admitted {| vault_aead := a |} p q w).2 in
  sealed a t' ∧
  (∀ id, target_secret a t' id = target_secret a (tabs w) id ∨
    ∃ s, asks_secret q id s ∧ target_secret a t' id = Some s ∧ Has p "admin.credentials.write" = true ∧ pr_ViaAPIKey p = false) ∧
  (∀ id, registry_password a t' id = registry_password a (tabs w) id ∨
    ∃ s, asks_password q id s ∧ registry_password a t' id = Some s ∧ Has p "admin.registries.write" = true).
Proof.
  intros Hs Hq. assert (guard_admits (task_guard (er_task q)) p = true ∨ tabs (admitted {| vault_aead := a |} p q w).2 = tabs w) as Hg.
  { unfold admitted. destruct (guard_admits _ p); [by left|by right]. }
  destruct (admitted_respects {| vault_aead := a |} (secrets_follow a q) p q w (λ t t' He, edit_secrets a p q t t' He Hq) Hs) as (Hs' & Ht & Hr).
  cbv zeta. split; [done|]. split; intros id.
  - destruct (Ht id) as [?|(s & Ha & He)]; [by left|]. destruct Hg as [Hg|Hg]; [right|left; by rewrite Hg]. exists s. split_and!; [done..| |];
      unfold asks_secret in Ha; destruct (er_task q); try done; simpl in Hg; unfold sessionCanMutatePersonalKeys in Hg; by bools.
  - destruct (Hr id) as [?|(s & Ha & He)]; [by left|]. destruct Hg as [Hg|Hg]; [right|left; by rewrite Hg]. exists s. split_and!; [done..|].
    unfold asks_password in Ha. by destruct (er_task q).
Qed.

(** ** An evaluated inventory *)
Module inventory_demo.
#[export] Instance demo_text : ErrorText := λ _, "error".
(** UUIDs in their usual form, [https://host/path], and an encoding of the
    registry's login that can be read back. *)
Definition demo_uuid (s : string) : option string := if validUUID s then Some (to_lower s) else None.
Definition demo_url (s : string) : result URL :=
  if has_prefix s "https://" then
    let '(host, path) := cut_byte slash (drop_str 8 s) in
    Ok {| u_Scheme := "https"; u_Host := host; u_Hostname := host; u_User := false; u_Path := path; u_Query := ∅; u_Fragment := "" |}
  else Err (External "url").
Definition demo_marshal (user password : string) : string := hex_encode (to_bytes password) +:+ ":" +:+ user.
Definition demo_password (s : string) : option (option string) := '(h, _) ← split_colon s; b ← hex_decode h; Some (Some (of_chars b)).
#[export] Instance demo_services : Services := {|
  pg_uuid := demo_uuid; sr_url := demo_url; sr_marshal := demo_marshal; sr_password := demo_password;
  sr_object := λ s, has_prefix s "{"; sr_objects := λ s, has_prefix s "[" |}.
Lemma hex_digit_plain z : 0 ≤ z < 16 → is_char ":"%char (hex_digit z) = false.
Proof. intros Hz. apply negb_true_iff. by apply (all_below (λ z, negb (is_char ":"%char (hex_digit z))) 16 ltac:(by vm_compute)). Qed.
Lemma split_plain l s : Forall (λ c, is_char ":"%char c = false) l → split_colon (of_chars l +:+ (":" +:+ s)) = Some (of_chars l, s).
Proof.
  induction 1 as [|c l Hc _ IH]; [done|]. change (split_colon (String c (of_chars l +:+ (":" +:+ s))) = Some (String c (of_chars l), s)).
  cbn [split_colon]. rewrite Hc, IH. done.
Qed.
Lemma hex_plain b : Forall (λ c, is_char ":"%char c = false) (concat ((λ c, [hex_digit (byte c / 16); hex_digit (byte c `mod` 16)]) <$> b)).
Proof.
  induction b as [|c b IH]; [constructor|]. pose proof (byte_range c) as Hc. cbn [fmap list_fmap concat]. simpl.
  constructor; [|constructor; [|exact IH]]; apply hex_digit_plain; [split; [apply Z.div_pos; lia|apply Z.div_lt_upper_bound; lia]|apply Z.mod_pos_bound; lia].
Qed.
Lemma split_hex b s : split_colon (hex_encode b +:+ (":" +:+ s)) = Some (hex_encode b, s).
Proof. apply split_plain, hex_plain. Qed.
#[export] Instance demo_lawful : LawfulServices.
Proof.
  split.
  - intros user password. simpl. unfold demo_marshal. by destruct (hex_encode _).
  - intros user password _. simpl. unfold demo_marshal, demo_password. rewrite split_hex. simpl. rewrite hex_roundtrip. simpl. by rewrite of_chars_chars.
Qed.

(** The ciphertext is the plaintext with a checksum of nonce and associated data. *)
Definition demo_aead : AEAD := {|
  NonceSize := 2; Overhead := 32;
  Seal nonce plaintext aad := plaintext ++ sha256 (nonce ++ aad);
  Open nonce c aad :=
    let n := (length c - 32)%nat in if bool_decide (c = take n c ++ sha256 (nonce ++ aad)) then Some (take n c) else None |}.
#[export] Instance demo_spec : AEADSpec demo_aead.
Proof.
  constructor.
  - intros nonce plaintext aad c Hn. simpl. split; [case_bool_decide as Hc; [by intros [= <-]|done]|]. intros ->.
    rewrite length_app, length_sha256. replace (length plaintext + 32 - 32)%nat with (length plaintext) by lia. rewrite take_app_length. by rewrite bool_decide_true.
  - intros nonce plaintext aad. simpl. by rewrite length_app, length_sha256.
Qed.

(** Callers: an administrator at a browser, and an API key that may edit profiles. *)
Definition caller (permissions : list string) (api : bool) (id : string) : Principal := {|
  pr_UserID := id; pr_Username := id; pr_DisplayName := id; pr_Email := ""; pr_AuthSource := "local"; pr_Roles := []; pr_Permissions := permissions;
  pr_Scopes := permissions; pr_ViaAPIKey := api; pr_CSRFHash := [] |}.
Definition root : Principal :=
  caller ["admin.scripts.write"; "admin.registries.write"; "admin.credentials.write"; "applications.write"; "profiles.write"] false "root".
Definition robot : Principal := caller ["profiles.write"; "admin.credentials.write"] true "robot".
Definition uid (c : string) : string := "00000000-0000-4000-8000-0000000000a" +:+ c.
Definition errand_of (q : task) (id : string) : errand := {| er_task := q; er_newid := Ok (uid id); er_random := Ok (to_bytes "ab"); er_seen := at_commit |}.
Definition demo_script : scriptInput := {|
  si_Name := "roll out"; si_Type := "deploy"; si_Version := VersionAbsent; si_Content := "docker compose up"; si_InterpreterPath := "";
  si_TimeoutSeconds := 0; si_Active := Some false |}.
Definition demo_registry (endpoint password : string) : registryInput := {|
  gi_Name := "main"; gi_Endpoint := endpoint; gi_Project := "/apps/"; gi_Username := "bot"; gi_Password := password; gi_Insecure := false; gi_Active := None |}.
Definition demo_credential : targetCredentialInput := {| ti_Name := "cluster"; ti_Type := "token"; ti_Secret := "tk-1"; ti_Active := None |}.
Definition demo_profile (target : raw_ref) : profileInput := {|
  fi_ApplicationID := uid "1"; fi_EnvironmentID := uid "2"; fi_Name := "standard"; fi_Description := ""; fi_ApprovalRequired := Some true; fi_Active := None;
  fi_Config := ""; fi_RegistryID := uid "4"; fi_TargetCredentialID := target; fi_PreScriptID := ""; fi_DeployScriptID := uid "3"; fi_HealthScriptID := "";
  fi_RollbackScriptID := ""; fi_MaxArchiveBytes := None; fi_MaxExtractedBytes := None; fi_MaxArchiveFiles := Some 500; fi_MaxImages := None;
  fi_AllowSymlinks := None; fi_RuntimeKind := Some "podman"; fi_RuntimeBinaryPath := Some "/usr/bin/podman"; fi_ContainerdNamespace := None;
  fi_RegistryURL := Some "https://evil.example"; fi_RegistryHost := None; fi_RegistryProject := None; fi_RegistryInsecure := None;
  fi_RegistryCAPEM := None; fi_HealthChecks := ""; fi_CommandTimeoutSeconds := None; fi_MaxLogBytes := None; fi_AutoRollback := None;
  fi_CleanupWorkspace := None; fi_KeepFailedWorkspace := None; fi_RunnerLabels := RawText "prod, eu" |}.
Definition setting_up : list (Principal * errand) := [
  (root, errand_of (CreateApplication {| xi_Code := "Shop"; xi_Name := "Shop"; xi_Description := ""; xi_Active := None |}) "1");
  (root, errand_of (CreateEnvironment "" {| ei_ApplicationID := ""; ei_Code := "prod"; ei_Name := "Production"; ei_Kind := ""; ei_Protected := None; ei_Description := ""; ei_Active := None |}) "2");
  (root, errand_of (CreateScript demo_script) "3");
  (root, errand_of (ApproveScript (uid "3")) "0");
  (root, errand_of (CreateRegistry (demo_registry "https://registry.example/" "s3cret")) "4");
  (root, errand_of (CreateCredential demo_credential) "5");
  (root, errand_of (CreateProfile (demo_profile (RefText (uid "5")))) "6")].
(** A robot may edit the profile, not its target; the registry moves, keeping its
    password; the script is revoked. *)
Definition later_on : list (Principal * errand) := [
  (robot, errand_of (SaveProfile (uid "6") (demo_profile RefNull)) "0");
  (robot, errand_of (SaveProfile (uid "6") (demo_profile RefAbsent)) "0");
  (root, errand_of (UpdateRegistry (uid "4") (demo_registry "https://new.example" "")) "0");
  (root, errand_of (RevokeScript (uid "3")) "0")].
Definition demo_vault : Vault := {| vault_aead := demo_aead |}.
Definition world_of (t : inventory) : idb := {| tabs := t; now := 1000; db_faults := λ _, None; db_tick := 0; db_aborted := false |}.
Definition nothing : inventory := Inventory ∅ ∅ ∅ ∅ ∅ ∅ ∅ ∅ [].
Abbreviation set_up := (served demo_vault setting_up (world_of nothing)).
Abbreviation much_later := (served demo_vault later_on set_up).

Lemma demo_state :
  (iv_profiles (tabs set_up) !! uid "6" ≫= dp_target) = Some (uid "5") ∧
  (pg_url ∘ dp_registry <$> iv_profiles (tabs set_up) !! uid "6") = Some "https://registry.example" ∧
  (pg_url ∘ dp_registry <$> iv_profiles (tabs much_later) !! uid "6") = Some "https://new.example" ∧
  (iv_profiles (tabs much_later) !! uid "6" ≫= dp_target) = Some (uid "5") ∧
  registry_password demo_aead (tabs much_later) (uid "4") = Some "s3cret" ∧
  target_secret demo_aead (tabs much_later) (uid "5") = Some "tk-1" ∧
  ((λ s, (sv_version s, sv_active s)) <$> iv_scripts (tabs much_later) !! uid "3") = Some (1, false).
Proof. by vm_compute. Qed.

(** A rotation that names the row by another text of its id seals under that
    text: the Runner cannot open the secret any more. *)
Lemma rotated_under_another_text :
  let t := tabs (served demo_vault [(root, errand_of (RotateCredential (to_upper (uid "5")) "tk-2") "0")] set_up) in
  (tk_version <$> iv_credentials t !! uid "5") = Some 2 ∧ target_secret demo_aead t (uid "5") = None.
Proof. by vm_compute. Qed.

(** A creation that has read the registry before it moved, and commits after:
    the profile keeps the old address. *)
Definition second_profile : profileInput :=
  let i := demo_profile RefAbsent in
  Build_profileInput (fi_ApplicationID i) (fi_EnvironmentID i) "late" (fi_Description i) (fi_ApprovalRequired i) (fi_Active i) (fi_Config i)
    (fi_RegistryID i) (fi_TargetCredentialID i) (fi_PreScriptID i) (fi_DeployScriptID i) (fi_HealthScriptID i) (fi_RollbackScriptID i)
    (fi_MaxArchiveBytes i) (fi_MaxExtractedBytes i) (fi_MaxArchiveFiles i) (fi_MaxImages i) (fi_AllowSymlinks i) (fi_RuntimeKind i)
    (fi_RuntimeBinaryPath i) (fi_ContainerdNamespace i) (fi_RegistryURL i) (fi_RegistryHost i) (fi_RegistryProject i) (fi_RegistryInsecure i)
    (fi_RegistryCAPEM i) (fi_HealthChecks i) (fi_CommandTimeoutSeconds i) (fi_MaxLogBytes i) (fi_AutoRollback i) (fi_CleanupWorkspace i)
    (fi_KeepFailedWorkspace i) (fi_RunnerLabels i).
Definition overlapping (read : inventory) : list (Principal * errand) := [
  (root, errand_of (UpdateRegistry (uid "4") (demo_registry "https://new.example" "")) "0");
  (root, {| er_task := CreateProfile second_profile; er_newid := Ok (uid "7"); er_random := Ok [];
            er_seen := {| sn_registry := Some read; sn_target := None; sn_script := λ _, None |} |})].
Abbreviation overlapped := (served demo_vault (overlapping (tabs set_up)) set_up).
Lemma old_address_remains :
  (pg_url ∘ dp_registry <$> iv_profiles (tabs overlapped) !! uid "7") = Some "https://registry.example" ∧
  (rg_endpoint <$> iv_registries (tabs overlapped) !! uid "4") = Some "https://new.example" ∧
  (pg_url ∘ dp_registry <$> iv_profiles (tabs overlapped) !! uid "6") = Some "https://new.example".
Proof. by vm_compute. Qed.

(** *** The theorems at these inputs *)
Lemma addressed_nothing : addressed nothing.
Proof. intros id d Hd. simpl in Hd. by rewrite lookup_empty in Hd. Qed.
Definition at_once (l : list (Principal * errand)) : Prop := ∀ p q, (p, q) ∈ l → er_seen q = at_commit.
Lemma timely_at_once past l w : at_once l → timely demo_vault past l w.
Proof.
  revert past w. induction l as [|[p q] l IH]; intros past w Hl; [done|]. split; [|apply IH; intros p' q' Hin; apply (Hl p'); by right].
  rewrite (Hl p q) by left. by intros s [?|[?|[??]]].
Qed.
Lemma prompt_at_once since l w : at_once l → prompt demo_vault since l w.
Proof.
  revert since w. induction l as [|[p q] l IH]; intros since w Hl; [done|]. split; [|apply IH; intros p' q' Hin; apply (Hl p'); by right].
  by rewrite (Hl p q) by left.
Qed.
Lemma set_up_at_once : at_once setting_up.
Proof. intros p q Hin. by repeat (apply elem_of_cons in Hin as [[= -> ->]|Hin]; [done|]); apply elem_of_nil in Hin. Qed.
Lemma overlapping_timely w : timely demo_vault [tabs w] (overlapping (tabs w)) w.
Proof.
  unfold overlapping. cbn [timely]. cbv zeta. split; [by intros s [?|[?|[??]]]|]. split; [|done]. intros s [Hs|[?|[??]]]; [|done..].
  cbn [er_seen sn_registry] in Hs. injection Hs as <-. right. left.
Qed.
Lemma sound_nothing : scripts_sound nothing.
Proof. split; [intros id s Hs|intros id id' s s' Hs]; simpl in Hs; by rewrite lookup_empty in Hs. Qed.
Lemma bound_nothing : bound nothing.
Proof. split; [intros id d Hn|intros id script phase n Hn|intros id s s' phase [n Hn]]; simpl in Hn; by rewrite lookup_empty in Hn. Qed.
Lemma sealed_nothing : sealed demo_aead nothing.
Proof. split; apply map_Forall_empty. Qed.
Lemma set_up_sealed : sealed demo_aead (tabs set_up).
Proof.
  assert (∀ p q, (p, q) ∈ setting_up → well_formed demo_aead q) as Hwf.
  { intros p q Hin. unfold setting_up in Hin. repeat (apply elem_of_cons in Hin as [[= -> ->]|Hin];
      [unfold well_formed, canonical, json_text; split_and!; [by vm_compute|by intros nonce [= <-]|by vm_compute]|]). by apply elem_of_nil in Hin. }
  assert (PreOrder (λ t t', sealed demo_aead t → sealed demo_aead t')) by (split; [by intros t|intros t1 t2 t3 H12 H23 H1; auto]).
  apply (served_respects demo_vault (λ t t', sealed demo_aead t → sealed demo_aead t') setting_up (world_of nothing)); [|apply sealed_nothing].
  intros t t' (p & q & Hin & _ & He) Hs. exact (proj1 (edit_secrets demo_aead p q t t' He (Hwf p q Hin) Hs)).
Qed.

Lemma script_versions_immutable_witness :
  scripts_sound (tabs set_up) ∧
  ∃ s s', iv_scripts (tabs set_up) !! uid "3" = Some s ∧ iv_scripts (tabs much_later) !! uid "3" = Some s' ∧ same_text s s'.
Proof.
  split; [exact (proj1 (script_versions_immutable demo_vault setting_up (world_of nothing)) sound_nothing)|].
  destruct (iv_scripts (tabs set_up) !! uid "3") as [s|] eqn:E; [|vm_compute in E; discriminate E].
  destruct (proj1 (proj2 (script_versions_immutable demo_vault later_on set_up)) (uid "3") s E) as (s' & Hs' & Ht & _). exists s, s'. split; [reflexivity|]. split; [exact Hs'|exact Ht].
Defined.
Lemma profiles_stay_bound_witness : bound (tabs set_up) ∧ addressed (tabs set_up) ∧ bound (tabs overlapped) ∧
  ∃ d t, iv_profiles (tabs overlapped) !! uid "7" = Some d ∧ pg_url (dp_registry d) = "https://registry.example" ∧
    t ∈ history demo_vault (overlapping (tabs set_up)) set_up ∧ registry_of t (dp_registry d).
Proof.
  destruct (profiles_stay_bound demo_vault setting_up (world_of nothing) bound_nothing addressed_nothing (timely_at_once _ _ _ set_up_at_once)) as (Hb & _ & Ha).
  specialize (Ha (prompt_at_once _ _ _ set_up_at_once)).
  destruct (profiles_stay_bound demo_vault (overlapping (tabs set_up)) set_up Hb Ha (overlapping_timely set_up)) as (Hb' & Hhist & _).
  split; [exact Hb|]. split; [exact Ha|]. split; [exact Hb'|].
  destruct (iv_profiles (tabs overlapped) !! uid "7") as [d|] eqn:E; [|vm_compute in E; discriminate E].
  destruct (Hhist _ d E) as (t & Hin & Hg). exists d, t. split; [reflexivity|]. split; [|split; [exact Hin|exact Hg]].
  assert ((pg_url ∘ dp_registry <$> iv_profiles (tabs overlapped) !! uid "7") = Some "https://registry.example") as Hu by (vm_compute; reflexivity).
  rewrite E in Hu. injection Hu as Hu. exact Hu.
Defined.
Lemma target_bindings_need_a_session_witness :
  target_of (uid "6") (tabs set_up) = Some (uid "5") ∧
  ∃ p q, (p, q) ∈ setting_up ∧ pr_ViaAPIKey p = false ∧ Has p "admin.credentials.write" = true.
Proof.
  assert (target_of (uid "6") (tabs set_up) = Some (uid "5")) as H by (vm_compute; reflexivity). split; [exact H|].
  destruct (target_bindings_need_a_session demo_vault setting_up (world_of nothing) (uid "6") (uid "5") H) as [H0|H1]; [vm_compute in H0; discriminate H0|exact H1].
Defined.
Lemma secrets_change_only_as_asked_witness :
  let q := errand_of (UpdateRegistry (uid "4") (demo_registry "https://new.example" "")) "0" in
  let t' := tabs (admitted demo_vault root q set_up).2 in
  sealed demo_aead t' ∧ registry_password demo_aead t' (uid "4") = registry_password demo_aead (tabs set_up) (uid "4").
Proof.
  intros q t'. assert (well_formed demo_aead q) as Hq.
  { unfold well_formed, canonical, json_text. split; [vm_compute; reflexivity|]. split; [intros nonce [= <-]; reflexivity|vm_compute; reflexivity]. }
  destruct (secrets_change_only_as_asked demo_aead root q set_up set_up_sealed Hq) as (Hs & _ & Hr). split; [exact Hs|].
  destruct (Hr (uid "4")) as [He|(s & (_ & Hempty & Hne) & _)]; [exact He|]. destruct (Hne Hempty).
Defined.
End inventory_demo.
